(* ===== verification/_CoqProject ===== *)
-Q . S2P
Prelude.v
Api.v
ImmCount.v
Sharding.v
Provider.v
DomainGroup.v
DomainGroupSpec.v
Loopback.v
Completion.v
WritePlan.v
GroupShares.v
Utils.v
VerbsRdmaOp.v
VerbsQp.v
VerbsDomain.v
VerbsSpec.v
VerbsGroup.v
Worker.v
WorkerSpec.v
A2aWorker.v
A2aCounts.v
A2aRouting.v
A2aSpec.v
A2aCombine.v
A2aImms.v
EfaRdmaOp.v
EfaDomain.v
EfaSpec.v
EfaGroup.v
EfaSetup.v
FabricEngine.v
TransferEngine.v
FabricSpec.v
EngineSpec.v
AsyncEngine.v
HostBuffer.v
TopoParse.v
Topo.v
DevInfo.v
TopoSpec.v
Resources.v
CuMem.v
CuMemSpec.v
CudaRt.v
A2aContext.v
A2aContextSpec.v
VerbsSetup.v
Locks.v
PyLocks.v
PyBindings.v
PyAllToAll.v
PyTypes.v
PyEngine.v
PyEngineSpec.v
FabricDebug.v
FabricDebugSpec.v
