(* ===== verification/Prelude.v ===== *)
(** * A verified model of fabric-lib and the p2p all-to-all

    The repository moves data between GPUs of a cluster.  [fabric-lib] is a transfer engine over
    RDMA network cards; [p2p-all-to-all] is the expert-parallel all-to-all built on it.

    ** The program

    - A _domain_ is one network card, driven through the trait [RdmaDomain] ([provider.rs]).  It
      has two implementations: InfiniBand/RoCE ([verbs/]), which connects to peers on demand and
      posts writes as chains of work requests, and libfabric ([efa/]), which resolves addresses
      through an address vector and posts one message at a time.  Both turn the card's
      completions into [DomainCompletionEntry] values.
    - A [DomainGroup] ([domain_group.rs]) is the set of cards next to one GPU.  It splits a
      request over the domains, and merges their completions: a transfer is complete when every
      domain it used is done.
    - A worker thread ([worker.rs]) owns a group; it serves calls and commands that arrive on
      channels and sends completions back; another thread watches memory the GPU writes.
    - The engines are what users call: [FabricEngine] ([fabric_engine.rs]) finds the worker of a
      request, [TransferEngine] ([transfer_engine.rs]) adds callbacks, which a thread runs when
      completions arrive; its builder checks a configuration against the topology ([topo.rs]),
      which pairs the GPUs of the machine with cards and CPUs; [host_buffer.rs] recycles
      registered host memory.
    - Arriving immediates are counted in a map shared by all domains ([imm_count.rs]); users
      wait on the counters ([api.rs]).
    - The all-to-all worker ([a2a_worker.rs]) exchanges routing tables between ranks, computes
      where every token goes, and drives the transfers of the dispatch and combine phases; its
      context ([a2a_context.rs]) owns the worker and launches the kernels.
    - [python-ext] exposes the engine, the CUDA memory objects and the all-to-all to Python.
    - [fabric-debug] is a benchmark: a server writes to the GPUs of a client, which checks them.
    - [cuda-lib] wraps CUDA: mappings and handles for other processes ([cumem.rs]), buffers and
      flags mapped with GDRCopy ([gdr.rs]), device memory, events.

    ** The files

    - [Prelude]: outcomes (return, panic, out of fuel), the state-and-panic monad with the [?]
      operator, machine integers with their wrap-around, the [keeps] framework for invariants.
    - [Api]: the types of [api.rs], [mr.rs], [rdma_op.rs], [error.rs] and the completions.
    - [ImmCount]: [imm_count.rs] and the counters of [api.rs], over an explicit heap of atomics;
      [ImmCounter::wait] and the GDR reset are step functions, so that interleavings with the
      completion thread can be stated.
    - [Sharding]: [divide_evenly], [round_up] and [shard_single_transfer].
    - [Provider]: the trait as the class [RdmaDomain], and the class [RdmaDomainLaws] of what a
      group relies on; [Loopback] is the smallest implementation, used by witnesses.
    - [DomainGroup]: every method of [DomainGroup], generic in the provider.
      [DomainGroupSpec] has its invariant; [Completion] an abstract completion tracker and the
      refinement of [get_completion] to it; [WritePlan] what each kind of request posts;
      [GroupShares] what a group makes of the shares of a request, for any provider.
    - [Utils]: [utils/] (memory pool, object pool, hexadecimal, deferred actions), the display
      form of addresses and [verbs_address.rs].
    - [VerbsRdmaOp]: the work-request iterators of [verbs_rdma_op.rs]; [VerbsQp]: queue pairs
      ([verbs_qp.rs]) and the class [VerbsHw] of the device calls; [VerbsDomain]:
      [verbs_domain.rs]; [VerbsSpec]: its theorems, and the instance that discharges
      [RdmaDomainLaws]; [VerbsGroup]: a group of verbs domains; [VerbsSetup]: [open] and [Drop].
    - [EfaRdmaOp]: the message iterators of [efa_rdma_op.rs] and what they present;
      [EfaDomain]: [efa_domain.rs] over the class [EfaHw] of libfabric and CUDA calls;
      [EfaSpec]: its write path together with the messages the fabric has in flight, and the
      second instance of [RdmaDomainLaws]; [EfaGroup]: a group of libfabric domains;
      [EfaSetup]: opening, registration, remote offsets.
    - [DevInfo]: the lists of cards of both libraries ([efa_devinfo.rs], [verbs_devinfo.rs]), as
      objects that are shared, copied and freed.
    - [Worker] and [WorkerSpec]: [worker.rs].
    - [A2aWorker]: [a2a_worker.rs]; [A2aCounts] closed forms of its counts, [A2aRouting] of its
      token order, [A2aSpec] its theorems; [A2aCombine] and [A2aImms]: all the ranks of a job.
    - [FabricEngine] and [TransferEngine]: the engines, over workers as a class of channels
      ([WorkerLink]) and callbacks as a class of effects ([Handlers]: a callback may call the
      engine again); [FabricSpec] and [EngineSpec] their theorems; [AsyncEngine]: the async
      interface, its closures, channels and futures.  [HostBuffer]: [host_buffer.rs].
    - [TopoParse]: the texts [topo.rs] reads; [Topo]: the scan of the devices, NUMA nodes and the
      grouping, and the checks of [transfer_engine_builder.rs]; [TopoSpec] their theorems.
    - [Resources]: resources in use and triples about them.  [CuMem] ([cumem.rs], [gdr.rs]),
      [CudaRt] ([mem.rs], [event.rs], parts of [rt.rs]) and [A2aContext] ([a2a_context.rs]) are
      models; [CuMemSpec] and [A2aContextSpec] have the laws of the systems they call and their
      theorems.
    - [PyBindings]: [py_device.rs], [py_cumem.rs] and the constructor of [py_fabric_lib.rs];
      [PyEngine] and [PyEngineSpec]: the methods of [PyTransferEngine] over the engine, host memory
      and Python objects; [PyTypes]: addresses, descriptors and the builder; [PyAllToAll]:
      [py_p2p_all_to_all.rs], with the conversion of Python objects.  [Locks]: threads that take several locks, and why an order of the locks
      excludes deadlocks; [PyLocks]: the locks each binding and each completion handler takes, the
      interpreter lock included.
    - [FabricDebug] and [FabricDebugSpec]: the benchmark.

    ** What the theorems show

    - Completions ([Completion], [WorkerSpec]): draining a group is exactly an abstract
      countdown per transfer over an interleaving of the domains' queues, without panics; a
      transfer is reported once, after its last domain and never after an error; each transfer
      advances its counter once; a worker step forwards exactly that to the engine.
    - Plans ([WritePlan], [Sharding]): paged, immediate and scatter requests post every page,
      destination or byte shard exactly once, through the domain whose descriptor, address and
      key they carry; for single requests the exact conditions under which this holds.
    - The verbs domain ([VerbsRdmaOp], [VerbsSpec]): each page of a paged write is posted once
      and in order whatever the send queue accepts; contexts are freed when their last request
      completes; operations for a connecting peer are flushed in order.  A paged request on a
      group of such domains reaches the cards page by page, and when the cards complete it the
      group reports it exactly once, or a failure ([VerbsGroup]).
    - The libfabric domain ([EfaSpec], [EfaSetup]): in every reachable state of the domain and
      the fabric no call panics and no completion finds its context freed; a pass over the
      write queue moves a prefix of a FIFO of messages to the endpoint; opening leaks nothing.
      On a group of such domains a paged request queues every page once, and when the domains have
      posted it and the fabric has completed it the group reports it exactly once, or a failure
      ([EfaGroup]).
    - Counters ([ImmCount]): periodic expected counts; [GdrCounter] raises its flag iff the
      target is met; [ImmCounter::wait] is exact under every interleaving.
    - The all-to-all ([A2aSpec]): the routing computation does not panic on a well-formed job;
      each received token has its own slot in its expert's padded region; a receiver reads every
      token of another node where the sender wrote it.  Every result returns to the slot its
      token came from, written by one rank only ([A2aCombine]); a step delivers to every rank the
      immediates it waits for ([A2aImms]).
    - The engines ([EngineSpec], [FabricSpec]): the callback thread refines one automaton per
      operation, so callbacks run as often as they should and in order, even if they submit more
      work; transfers reach the worker of the device their source is registered on.  A future of
      the async interface resolves exactly when its operation ends, with its outcome, and the
      theorems say what dropping one does ([AsyncEngine]).
    - Topology ([TopoSpec], [TopoParse]): the scan of the devices terminates; cards and CPUs are
      divided fairly and without overlap over the GPUs of a node; the builder accepts exactly the
      valid configurations; addresses and CPU lists round-trip through their texts.
    - Resources ([Utils], [WorkerSpec], [HostBuffer]): pool slots, UVM watchers and host buffers
      are never handed out twice.  A mapping ([CuMemSpec]), an all-to-all context
      ([A2aContextSpec]) and a verbs domain ([VerbsSetup]) give back what they took when they are
      dropped, up to the objects the theorems name; handles for other processes round-trip.
      Listing the cards frees what it does not return, and the array of verbs devices lives
      exactly as long as something refers to it ([DevInfo]).
    - Python ([PyEngineSpec], [PyLocks], [PyBindings], [PyAllToAll], [PyTypes]): a send keeps its bytes in a buffer of its
      own until it is reported; immediates go to the callback set last; submitting from any number
      of Python threads and from callbacks cannot deadlock, other calls can, and the theorem says
      which; the constructor accepts exactly the device lists it can serve; whatever objects the
      all-to-all is called with, it raises or launches one kernel with arguments in range;
      addresses round-trip through their texts.
    - The benchmark ([FabricDebugSpec]): its check of a paged write passes exactly when the pages
      hold the server's data; a round ends exactly when its transfers have been reported.
    - Some theorems state behaviour that looks unintended (bytes dropped by rounding, operations
      posted through another domain than their descriptor's, contexts that leak or dangle, a
      transfer a barrier forgets to count, a watcher that blocks its own thread, pinned pages
      past the end of an allocation, ...): they say precisely when it happens.

    ** Bounds and fuel

    Recursion is structural wherever the code loops over a collection.  Loops the environment
    drives take fuel: [wait_completion] of the benchmark (a completion that comes is seen with
    enough of it), [poll_cq] (the batches the device delivers), [send_completions] (one more
    than the queued entries is proved to be enough) and [post_loop] (of the verbs domain: the
    requests of the context plus one, proved to be enough for paged writes; of the libfabric
    domain: the submission limit, proved to be enough for all writes).  The search for a
    branching ancestor of a PCI device takes 256 steps, which is enough when bus numbers grow
    behind a bridge.  [usize] lengths and indices are [nat]; counts, addresses and offsets are
    [Z] with the wrap-around of their width written out.  Theorems that need the absence of
    overflow say so ([a2a_ok], [in_u], ...).

    ** What is not modelled

    Calls into libibverbs, libfabric, CUDA, GDRCopy and the operating system are parameters: the
    classes [VerbsHw], [VerbsLib], [EfaHw], [FiCalls], [IbvCalls], [CuDriver], [Cudart],
    [A2aSystem], and arguments of [spawn], [rdma_worker_init], [scan_all_pci_devices] and others.
    Whether a thread that is joined ever ends is not part of the model, nor is the runtime that
    polls the futures.  Logging is left out; most error texts built with [format!] are
    abbreviated.  Of the Python bindings getters, debug texts and the registration of the
    classes are left out: they have no behaviour of their own.  Of the benchmark, times,
    statistics and printing are left out.  The support crates (thread pinning, logging, build
    scripts, foreign declarations) are not modelled; the CUDA kernels and the Python code are
    not Rust.  The groups of verbs and libfabric domains are composed with paged requests only;
    for the other kinds of request [WritePlan] has what the group asks of its domains and
    [VerbsSpec] and [EfaSpec] what a domain does with it. *)

(** * Shared foundations *)
From stdpp Require Import prelude gmap strings list fin_maps fin_sets.

Local Open Scope Z_scope.

(** ** Rust outcomes

    A modelled function either returns, panics (an [assert!], an out-of-range index, an
    [unwrap] on [None], an explicit [panic!]) or, for the few loops driven by the
    environment, runs out of the fuel the model gives it. *)
Inductive outcome (A : Type) : Type :=
  | Done (a : A)
  | Panic (why : string)
  | OutOfFuel.
Arguments Done {A} a.
Arguments Panic {A} why.
Arguments OutOfFuel {A}.

(** Rust's [Result]: an error is a value, and the state mutated so far is kept. *)
Inductive result (E A : Type) : Type :=
  | Ok (a : A)
  | Err (e : E).
Arguments Ok {E A} a.
Arguments Err {E A} e.

(** The state-and-panic monad of every [&mut self] method. *)
Definition M (S A : Type) : Type := S -> outcome (A * S).

Definition ret {S A} (a : A) : M S A := fun s => Done (a, s).

Definition bind {S A B} (m : M S A) (k : A -> M S B) : M S B := fun s =>
  match m s with
  | Done (a, s') => k a s'
  | Panic why => Panic why
  | OutOfFuel => OutOfFuel
  end.

(** The [?] operator: an [Err] returns early, keeping the state. *)
Definition bind_res {S E A B} (m : M S (result E A)) (k : A -> M S (result E B)) :
    M S (result E B) :=
  bind m (fun r => match r with Ok a => k a | Err e => ret (Err e) end).

Definition panic {S A} (why : string) : M S A := fun _ => Panic why.
Definition gets {S A} (f : S -> A) : M S A := fun s => Done (f s, s).
Definition modify {S} (f : S -> S) : M S unit := fun s => Done (tt, f s).

(** A foreign call: it changes the state and returns a value. *)
Definition call {S A} (f : S -> A * S) : M S A := fun s => Done (f s).

(** [assert!(b)]. *)
Definition assert_ {S} (b : bool) (why : string) : M S unit :=
  if b then ret tt else panic why.

(** [v[i]] and [o.unwrap()]: out of range or [None] panics. *)
Definition unwrap {S A} (o : option A) (why : string) : M S A :=
  match o with Some a => ret a | None => panic why end.

Declare Scope rust_scope.
Delimit Scope rust_scope with rust.
Notation "'let!' x := c 'in' k" := (bind c (fun x => k))
  (at level 10, x binder, c at level 100, k at level 200) : rust_scope.
Notation "'let?' x := c 'in' k" := (bind_res c (fun x => k))
  (at level 10, x binder, c at level 100, k at level 200) : rust_scope.
Notation "c ';;;' k" := (bind c (fun _ => k))
  (at level 199, right associativity) : rust_scope.
Open Scope rust_scope.

(** [for x in l { body }] and [for x in l { body? }]. *)
Fixpoint for_each {S A} (l : list A) (body : A -> M S unit) : M S unit :=
  match l with
  | [] => ret tt
  | x :: l => body x ;;; for_each l body
  end.

Fixpoint try_for_each {S E A} (l : list A) (body : A -> M S (result E unit)) :
    M S (result E unit) :=
  match l with
  | [] => ret (Ok tt)
  | x :: l => let? _ := body x in try_for_each l body
  end.

(** [for x in l { v.push(body?) }]: stops at the first error. *)
Fixpoint try_map {S E A B} (l : list A) (body : A -> M S (result E B)) :
    M S (result E (list B)) :=
  match l with
  | [] => ret (Ok [])
  | x :: l =>
      let? y := body x in
      let? ys := try_map l body in
      ret (Ok (y :: ys))
  end.

(** [a % b] and [a.div_ceil(b)] on [usize]: a zero divisor panics. *)
Definition usize_rem {S} (a b : nat) : M S nat :=
  if decide (b = 0%nat) then panic "attempt to calculate the remainder with a divisor of zero"
  else ret (a mod b)%nat.

(** [l.chunks(n)]: consecutive slices of [n] elements, the last one shorter. *)
Fixpoint chunks_aux {A} (fuel n : nat) (l : list A) : list (list A) :=
  match fuel with
  | O => []
  | S fuel =>
      match l with
      | [] => []
      | _ => take n l :: chunks_aux fuel n (drop n l)
      end
  end.
Definition chunks {S A} (n : nat) (l : list A) : M S (list (list A)) :=
  if decide (n = 0%nat) then panic "chunk size must be non-zero"
  else ret (chunks_aux (length l) n l).

(** [l.iter().enumerate()]. *)
Definition enumerate {A} (l : list A) : list (nat * A) := imap (fun i x => (i, x)) l.

(** Running a method on a component of the state. *)
Definition on_state {S T A} (get : S -> T) (set : T -> S -> S) (m : M T A) : M S A :=
  fun s => match m (get s) with
           | Done (a, t) => Done (a, set t s)
           | Panic why => Panic why
           | OutOfFuel => OutOfFuel
           end.

Definition out_map {A B} (f : A -> B) (o : outcome A) : outcome B :=
  match o with Done a => Done (f a) | Panic why => Panic why | OutOfFuel => OutOfFuel end.

(** Going on with the result of a computation that does not touch the state. *)
Definition lift {S A} (o : outcome A) : M S A := fun s => out_map (fun a => (a, s)) o.

(** [r.expect(why)]. *)
Definition expect {S E A} (r : result E A) (why : string) : M S A :=
  match r with Ok a => ret a | Err _ => panic why end.

(** The state after a run, and a default when it did not return. *)
Definition state_of {S A} (dflt : S) (o : outcome (A * S)) : S :=
  match o with Done (_, s) => s | _ => dflt end.

(** ** Machine integers

    Arithmetic on [u8]..[u64], [usize] and [i64] follows the release profile: it wraps.  The
    definitions keep the wrap-around; theorems that need its absence say so. *)
Definition wrapu (w : Z) (z : Z) : Z := z mod 2 ^ w.
Definition in_u (w : Z) (z : Z) : Prop := 0 <= z < 2 ^ w.
Definition as_u8 (z : Z) : Z := wrapu 8 z.
Definition as_u16 (z : Z) : Z := wrapu 16 z.
Definition as_u32 (z : Z) : Z := wrapu 32 z.
Definition as_u64 (z : Z) : Z := wrapu 64 z.
Definition u32_add (a b : Z) : Z := wrapu 32 (a + b).
Definition u32_mul (a b : Z) : Z := wrapu 32 (a * b).
Definition u64_add (a b : Z) : Z := wrapu 64 (a + b).
Definition u64_mul (a b : Z) : Z := wrapu 64 (a * b).
Definition wrap_i64 (z : Z) : Z := (z + 2 ^ 63) mod 2 ^ 64 - 2 ^ 63.
Definition in_i64 (z : Z) : Prop := - 2 ^ 63 <= z < 2 ^ 63.

Lemma wrapu_small w z : in_u w z -> wrapu w z = z.
Proof. apply Z.mod_small. Qed.

Lemma wrapu_range w z : 0 <= w -> in_u w (wrapu w z).
Proof. intros Hw. apply Z.mod_pos_bound. lia. Qed.

Lemma wrap_i64_small z : in_i64 z -> wrap_i64 z = z.
Proof. unfold wrap_i64, in_i64. intros ?. rewrite Z.mod_small; lia. Qed.

Lemma in_u_mono w w' z : 0 <= w <= w' -> in_u w z -> in_u w' z.
Proof.
  intros [? ?] [? ?]. split; [done|].
  eapply Z.lt_le_trans; [done|]. apply Z.pow_le_mono_r; lia.
Qed.

(** [usize::div_ceil] and [usize::is_multiple_of] ([b > 0]). *)
Definition div_ceil (a b : Z) : Z := if decide (a mod b = 0) then a / b else a / b + 1.
Definition nat_div_ceil (a b : nat) : nat :=
  if decide (a mod b = 0)%nat then (a / b)%nat else S (a / b).

Lemma div_ceil_bounds a b : 0 < b -> a <= div_ceil a b * b < a + b.
Proof.
  intros Hb. unfold div_ceil.
  pose proof (Z.div_mod a b ltac:(lia)). pose proof (Z.mod_pos_bound a b Hb).
  case_decide; nia.
Qed.

Lemma div_ceil_nonneg a b : 0 < b -> 0 <= a -> 0 <= div_ceil a b.
Proof. intros Hb Ha. pose proof (div_ceil_bounds a b Hb). nia. Qed.

Lemma nat_div_ceil_bounds a b :
  (0 < b -> a <= nat_div_ceil a b * b < a + b)%nat.
Proof.
  intros Hb. unfold nat_div_ceil.
  pose proof (Nat.div_mod_eq a b). pose proof (Nat.mod_upper_bound a b ltac:(lia)).
  case_decide; nia.
Qed.

Lemma nat_div_ceil_zero_iff a b : (0 < b)%nat -> nat_div_ceil a b = 0%nat <-> a = 0%nat.
Proof. intros Hb. pose proof (nat_div_ceil_bounds a b Hb). split; intros; nia. Qed.

(** ** Reasoning about the monad *)
Lemma bind_done {S A B} (m : M S A) (k : A -> M S B) s r :
  bind m k s = Done r <-> exists a s', m s = Done (a, s') /\ k a s' = Done r.
Proof.
  unfold bind. split.
  - destruct (m s) as [[a s']| |] eqn:E; try done. eauto.
  - intros (a & s' & -> & ?). done.
Qed.

Lemma bind_res_done {S E A B} (m : M S (result E A)) (k : A -> M S (result E B)) s r s2 :
  bind_res m k s = Done (r, s2) <->
  (exists a s', m s = Done (Ok a, s') /\ k a s' = Done (r, s2)) \/
  (exists e, m s = Done (Err e, s2) /\ r = Err e).
Proof.
  unfold bind_res. rewrite bind_done. split.
  - intros ([a|e] & s' & Hm & Hk); [left; eauto|].
    right. cbv [ret] in Hk. simplify_eq. eauto.
  - intros [(a & s' & Hm & Hk)|(e & Hm & ->)]; eauto.
Qed.

Lemma bind_res_ok {S E A B} (m : M S (result E A)) (k : A -> M S (result E B)) s b s2 :
  bind_res m k s = Done (Ok b, s2) <->
  exists a s', m s = Done (Ok a, s') /\ k a s' = Done (Ok b, s2).
Proof. rewrite bind_res_done. naive_solver. Qed.

Lemma for_each_app {S A} (l1 l2 : list A) (body : A -> M S unit) s :
  for_each (l1 ++ l2) body s = bind (for_each l1 body) (fun _ => for_each l2 body) s.
Proof.
  revert s. induction l1 as [|x l1 IH]; intros s; simpl; [done|].
  unfold bind at 1 2 3. destruct (body x s) as [[[] s']| |]; [|done|done].
  rewrite IH. unfold bind. done.
Qed.

(** Loop invariants: a property that every iteration keeps holds after the loop. *)
Lemma for_each_inv {S A} (P : S -> Prop) (l : list A) (body : A -> M S unit) s s' u :
  (forall x s1 s2, x ∈ l -> P s1 -> body x s1 = Done (tt, s2) -> P s2) ->
  P s -> for_each l body s = Done (u, s') -> P s'.
Proof.
  revert s. induction l as [|x l IH]; intros s Hbody HP; simpl.
  - cbv [ret]. intros ?. by simplify_eq.
  - rewrite bind_done. intros ([] & s1 & H1 & H2).
    apply (IH s1); [|by eapply (Hbody x); [set_solver| |]|exact H2].
    intros y ? ? ?. apply Hbody. set_solver.
Qed.

Lemma try_for_each_inv {S E A} (P : S -> Prop) (l : list A)
    (body : A -> M S (result E unit)) s s' r :
  (forall x s1 s2 r1, x ∈ l -> P s1 -> body x s1 = Done (r1, s2) -> P s2) ->
  P s -> try_for_each l body s = Done (r, s') -> P s'.
Proof.
  revert s. induction l as [|x l IH]; intros s Hbody HP; simpl.
  - cbv [ret]. intros ?. by simplify_eq.
  - rewrite bind_res_done. intros [([] & s1 & H1 & H2)|(e & H1 & ->)].
    + apply (IH s1); [|by eapply (Hbody x); [set_solver| |]|exact H2].
      intros y ? ? ? ?. apply Hbody. set_solver.
    + by eapply (Hbody x); [set_solver| |].
Qed.

(** [run_inv H] inverts a hypothesis [c s = Done r] through the monad's combinators. *)
Ltac run_inv1 H :=
  lazymatch type of H with
  | bind _ _ _ = Done _ =>
      let a := fresh "a" in let s := fresh "s" in let H1 := fresh "Hrun" in
      apply bind_done in H as (a & s & H1 & H); run_inv1 H1; run_inv1 H
  | bind_res _ _ _ = Done (Ok _, _) =>
      let a := fresh "a" in let s := fresh "s" in let H1 := fresh "Hrun" in
      apply bind_res_ok in H as (a & s & H1 & H); run_inv1 H1; run_inv1 H
  | bind_res _ _ _ = Done (_, _) =>
      let a := fresh "a" in let s := fresh "s" in let e := fresh "e" in
      let H1 := fresh "Hrun" in
      apply bind_res_done in H as [(a & s & H1 & H)|(e & H1 & ->)];
      run_inv1 H1; try run_inv1 H
  | ret _ _ = Done _ => cbv [ret] in H; simplify_eq H; intros; subst
  | gets _ _ = Done _ => cbv [gets] in H; simplify_eq H; intros; subst
  | modify _ _ = Done _ => cbv [modify] in H; simplify_eq H; intros; subst
  | panic _ _ = Done _ => discriminate H
  | _ => idtac
  end.
Tactic Notation "run_inv" hyp(H) := run_inv1 H.

(** [keeps P m]: running [m] preserves [P].  The lemmas follow the shape of the program, so
    [keeps_step] discharges a whole method up to its primitive updates. *)
Definition keeps {S A} (P : S -> Prop) (m : M S A) : Prop :=
  forall s a s', m s = Done (a, s') -> P s -> P s'.

Section Keeps.
Context {S : Type} (P : S -> Prop).

Lemma keeps_ret {A} (a : A) : keeps P (ret a).
Proof. intros s b s' Hr. cbv [ret] in Hr. by simplify_eq. Qed.

Lemma keeps_gets {A} (f : S -> A) : keeps P (gets f).
Proof. intros s b s' Hr. cbv [gets] in Hr. by simplify_eq. Qed.

Lemma keeps_panic {A} why : keeps P (@panic S A why).
Proof. done. Qed.

Lemma keeps_out_of_fuel {A} : keeps P (fun _ => @OutOfFuel (A * S)).
Proof. done. Qed.

Lemma keeps_modify (f : S -> S) : (forall s, P s -> P (f s)) -> keeps P (modify f).
Proof. intros Hf s b s' Hr. cbv [modify] in Hr. simplify_eq. apply Hf. Qed.

Lemma keeps_bind {A B} (m : M S A) (k : A -> M S B) :
  keeps P m -> (forall a, keeps P (k a)) -> keeps P (bind m k).
Proof. intros Hm Hk s b s' (a & s1 & H1 & H2)%bind_done HP. eapply Hk, Hm; eauto. Qed.

(** The same with a fact about the intermediate result. *)
Lemma keeps_bind_val {A B} (Q : A -> Prop) (m : M S A) (k : A -> M S B) :
  (forall s a s', m s = Done (a, s') -> Q a) -> keeps P m -> (forall a, Q a -> keeps P (k a)) -> keeps P (bind m k).
Proof. intros HQ Hm Hk s b s' (a & s1 & H1 & H2)%bind_done HP. eapply Hk, Hm; eauto. Qed.

Lemma keeps_bind_res {E A B} (m : M S (result E A)) (k : A -> M S (result E B)) :
  keeps P m -> (forall a, keeps P (k a)) -> keeps P (bind_res m k).
Proof. intros Hm Hk. apply keeps_bind; [done|]. intros []; [done|apply keeps_ret]. Qed.

Lemma keeps_unwrap {A} (o : option A) why : keeps P (unwrap o why).
Proof. destruct o; [apply keeps_ret|done]. Qed.

Lemma keeps_assert b why : keeps P (assert_ b why).
Proof. destruct b; [apply keeps_ret|done]. Qed.

Lemma keeps_call {A} (f : S -> A * S) : (forall s, P s -> P (f s).2) -> keeps P (call f).
Proof. intros Hf s a s' Hrun. cbv [call] in Hrun. intros HP. simplify_eq. specialize (Hf s HP). by rewrite Hrun in Hf. Qed.

Lemma keeps_lift {A} (o : outcome A) : keeps P (lift o).
Proof. intros s a s' Hrun. destruct o; cbn in Hrun; by simplify_eq. Qed.

Lemma keeps_on_state {T A} (get : S -> T) (set : T -> S -> S) (m : M T A) :
  (forall t s, P s -> P (set t s)) -> keeps P (on_state get set m).
Proof.
  intros Hs s a s' Hrun HP. unfold on_state in Hrun.
  destruct (m (get s)) as [[? ?]| |]; simplify_eq. by apply Hs.
Qed.

Lemma keeps_usize_rem a b : keeps P (usize_rem a b).
Proof. unfold usize_rem. case_decide; [done|apply keeps_ret]. Qed.

Lemma keeps_chunks {A} n (l : list A) : keeps P (chunks n l).
Proof. unfold chunks. case_decide; [done|apply keeps_ret]. Qed.

Lemma keeps_for_each {A} (l : list A) (body : A -> M S unit) :
  (forall x, x ∈ l -> keeps P (body x)) -> keeps P (for_each l body).
Proof.
  induction l as [|x l IH]; intros Hb; simpl; [apply keeps_ret|].
  apply keeps_bind; [apply Hb; set_solver|]. intros _. apply IH. set_solver.
Qed.

Lemma keeps_try_for_each {E A} (l : list A) (body : A -> M S (result E unit)) :
  (forall x, x ∈ l -> keeps P (body x)) -> keeps P (try_for_each l body).
Proof.
  induction l as [|x l IH]; intros Hb; simpl; [apply keeps_ret|].
  apply keeps_bind_res; [apply Hb; set_solver|]. intros _. apply IH. set_solver.
Qed.

Lemma keeps_try_map {E A B} (l : list A) (body : A -> M S (result E B)) :
  (forall x, x ∈ l -> keeps P (body x)) -> keeps P (try_map l body).
Proof.
  induction l as [|x l IH]; intros Hb; simpl; [apply keeps_ret|].
  apply keeps_bind_res; [apply Hb; set_solver|]. intros y. apply keeps_bind_res.
  - apply IH. set_solver.
  - intros ys. apply keeps_ret.
Qed.
End Keeps.

(** Destruct the scrutinee of the first [match] of the goal or of a hypothesis. *)
Ltac destruct_match :=
  match goal with
  | |- context [match ?x with _ => _ end] => destruct x eqn:?
  end.
Ltac destruct_match_in H :=
  match type of H with
  | context [match ?x with _ => _ end] => destruct x eqn:?
  end.

Create HintDb keeps.
#[export] Hint Resolve keeps_ret keeps_gets keeps_panic keeps_out_of_fuel keeps_unwrap keeps_assert
  keeps_usize_rem keeps_chunks keeps_lift : keeps.

Ltac keeps_step :=
  repeat (intros;
    first [ solve [eauto with keeps nocore]
          | apply keeps_bind | apply keeps_bind_res | apply keeps_for_each
          | apply keeps_try_for_each | apply keeps_try_map
          | match goal with |- keeps _ (match ?x with _ => _ end) => destruct x eqn:? end ]).

(** [keeps_at tac]: a method written [fun d => m d]; prove [m] for that [d]. *)
Ltac keeps_at tac :=
  let d := fresh "d" in let r := fresh "r" in let d' := fresh "d'" in let Hrun := fresh "Hrun" in
  intros d r d' Hrun; cbn beta zeta in Hrun; revert r d' Hrun;
  lazymatch goal with
  | |- forall r d', ?f d = Done (r, d') -> ?P d -> ?P d' =>
      let Hk := fresh "Hk" in
      assert (keeps P f) as Hk by tac; intros r d'; apply Hk
  end.

(** ** Generic list facts *)
Definition sum_list_Z (l : list Z) : Z := foldr Z.add 0 l.

Lemma sum_list_Z_app l1 l2 : sum_list_Z (l1 ++ l2) = sum_list_Z l1 + sum_list_Z l2.
Proof. induction l1; simpl; lia. Qed.

Lemma sum_list_Z_nonneg l : Forall (fun z => 0 <= z) l -> 0 <= sum_list_Z l.
Proof. induction 1; simpl; lia. Qed.

Lemma filter_none {A} (P : A -> Prop) `{!forall x, Decision (P x)} (l : list A) :
  (forall x, x ∈ l -> ~ P x) -> filter P l = [].
Proof.
  induction l as [|x l IH]; intros Hl; [done|]. rewrite filter_cons_False by (apply Hl; set_solver).
  apply IH. set_solver.
Qed.

Lemma filter_all {A} (P : A -> Prop) `{!forall x, Decision (P x)} (l : list A) :
  (forall x, x ∈ l -> P x) -> filter P l = l.
Proof.
  induction l as [|x l IH]; intros Hl; [done|]. rewrite filter_cons_True by (apply Hl; set_solver).
  f_equal. apply IH. set_solver.
Qed.

(** [alter] on a list, the update of [v[i]] in place. *)
Lemma list_alter_lookup {A} (f : A -> A) (l : list A) i x :
  l !! i = Some x -> alter f i l = <[i := f x]> l.
Proof.
  revert i. induction l as [|y l IH]; intros [|i]; simpl; intros; simplify_eq; [done|].
  cbn. f_equal. by apply IH.
Qed.

(** The rewriting and resolution database of the development. *)
Create HintDb rust.
#[export] Hint Resolve wrapu_range wrapu_small wrap_i64_small sum_list_Z_nonneg : rust.
#[export] Hint Resolve div_ceil_nonneg in_u_mono : rust.
Create Rewrite HintDb rust_lengths.
#[export] Hint Rewrite @length_app @length_fmap @length_insert @length_imap : rust_lengths.
