(* ===== verification/Api.v ===== *)
(** * The data model of fabric-lib

    The types of [fabric-lib/src/api.rs] (public API), [mr.rs] (memory regions),
    [rdma_op.rs] (operations handed to a domain), [error.rs] (the error enum) and the
    completion entries of [provider.rs] and [api.rs].  Pointers, keys and ids are [Z] (a
    [u64]); [Bytes] is a list of byte values; [SmallVec], [Vec] and [Arc<Vec>] are lists
    (these are never mutated once shared). *)
From stdpp Require Import prelude gmap strings list.
From S2P Require Import Prelude.
Local Open Scope Z_scope.

(** ** Errors: [error.rs] *)
Inductive FabricLibError : Type :=
  | Libfabric (code : Z) (context : string)
  | Domain (msg : string)
  | Verbs (code : Z) (context : string)
  | VerbsCompletionError (msg : string)
  | CompletionError (msg : string)
  | CudaDriver (code : Z) (context : string)
  | Cudart (code : Z) (context : string)
  | Errno (code : Z)
  | Custom (msg : string).

Definition res (A : Type) : Type := result FabricLibError A.

#[export] Instance FabricLibError_eq_dec : EqDecision FabricLibError.
Proof. solve_decision. Defined.

(** ** Public API: [api.rs] *)
Record DomainAddress := { addr_bytes : list Z }.

#[export] Instance DomainAddress_eq_dec : EqDecision DomainAddress.
Proof. solve_decision. Defined.

#[export] Program Instance DomainAddress_countable : Countable DomainAddress :=
  inj_countable' addr_bytes (fun b => {| addr_bytes := b |}) _.
Next Obligation. by intros []. Qed.

(** [TransferId], [MemoryRegionRemoteKey], [MemoryRegionHandle], [PeerGroupHandle] and
    [MemoryRegionLocalDescriptor] are transparent wrappers of an integer. *)
Abbreviation TransferId := Z (only parsing).
Abbreviation MemoryRegionRemoteKey := Z (only parsing).
Abbreviation MemoryRegionHandle := Z (only parsing).
Abbreviation MemoryRegionLocalDescriptor := Z (only parsing).
Abbreviation PeerGroupHandle := Z (only parsing).

Record MemoryRegionDescriptor := {
  mrd_ptr : Z;
  addr_rkey_list : list (DomainAddress * MemoryRegionRemoteKey);
}.

#[export] Instance MemoryRegionDescriptor_eq_dec : EqDecision MemoryRegionDescriptor.
Proof. solve_decision. Defined.

Inductive DomainGroupRouting : Type :=
  | RoundRobinSharded (num_shards : Z)
  | Pinned (domain_idx : Z).

Inductive GroupTransferRouting : Type :=
  | AllDomainsShardPeers
  | AllDomainsShardBytes
  | SingleDomain (domain_idx : Z).

Record ImmTransferRequest := {
  ir_imm_data : Z;
  ir_dst_mr : MemoryRegionDescriptor;
  ir_domain : DomainGroupRouting;
}.

Record BarrierTransferRequest := {
  br_imm_data : Z;
  br_dst_mrs : list MemoryRegionDescriptor;
  br_domain : DomainGroupRouting;
}.

Record SingleTransferRequest := {
  sr_src_mr : MemoryRegionHandle;
  sr_src_offset : Z;
  sr_length : Z;
  sr_imm_data : option Z;
  sr_dst_mr : MemoryRegionDescriptor;
  sr_dst_offset : Z;
  sr_domain : DomainGroupRouting;
}.

Record PagedTransferRequest := {
  pr_length : Z;
  pr_src_mr : MemoryRegionHandle;
  pr_src_page_indices : list Z;
  pr_src_stride : Z;
  pr_src_offset : Z;
  pr_dst_mr : MemoryRegionDescriptor;
  pr_dst_page_indices : list Z;
  pr_dst_stride : Z;
  pr_dst_offset : Z;
  pr_imm_data : option Z;
}.

Record ScatterTarget := {
  st_dst_mr : MemoryRegionDescriptor;
  st_length : Z;
  st_src_offset : Z;
  st_dst_offset : Z;
}.

Record ScatterTransferRequest := {
  xr_src_mr : MemoryRegionHandle;
  xr_dst_handle : option PeerGroupHandle;
  xr_dsts : list ScatterTarget;
  xr_imm_data : option Z;
  xr_domain : GroupTransferRouting;
}.

Inductive TransferRequest : Type :=
  | ReqImm (r : ImmTransferRequest)
  | ReqSingle (r : SingleTransferRequest)
  | ReqPaged (r : PagedTransferRequest)
  | ReqScatter (r : ScatterTransferRequest)
  | ReqBarrier (r : BarrierTransferRequest).

Inductive TransferCompletionEntry : Type :=
  | TcRecv (transfer_id : TransferId) (data_len : Z)
  | TcSend (transfer_id : TransferId)
  | TcTransfer (transfer_id : TransferId)
  | TcImmData (imm : Z)
  | TcImmCountReached (imm : Z)
  | TcUvmWatch (id old new : Z)
  | TcError (transfer_id : TransferId) (err : FabricLibError).

(** The two atomics of a [TransferCounter], as locations of the shared heap. *)
Record TransferCounter := { tx_counter_loc : nat; tx_err_counter_loc : nat }.

(** ** Memory regions: [mr.rs] *)
Inductive Device : Type := Host | Cuda (device_id : Z).

#[export] Instance Device_eq_dec : EqDecision Device.
Proof. solve_decision. Defined.

Inductive Mapping : Type :=
  | MapHost
  | MapDevice (device_id : Z) (dmabuf_fd : option Z).

Record MemoryRegion := { mr_ptr : Z; mr_len : Z; mr_mapping : Mapping }.

(** ** Operations handed to a domain: [rdma_op.rs] *)
Record SingleWriteOp := {
  sw_src_ptr : Z;
  sw_src_desc : MemoryRegionLocalDescriptor;
  sw_src_offset : Z;
  sw_length : Z;
  sw_imm_data : option Z;
  sw_dst_ptr : Z;
  sw_dst_rkey : MemoryRegionRemoteKey;
  sw_dst_offset : Z;
}.

Record ImmWriteOp := {
  iw_imm_data : Z;
  iw_dst_ptr : Z;
  iw_dst_rkey : MemoryRegionRemoteKey;
}.

Record PagedWriteOp := {
  pw_src_page_indices : list Z;
  pw_dst_page_indices : list Z;
  pw_page_indices_beg : nat;
  pw_page_indices_end : nat;
  pw_length : Z;
  pw_src_ptr : Z;
  pw_src_desc : MemoryRegionLocalDescriptor;
  pw_src_stride : Z;
  pw_src_offset : Z;
  pw_dst_ptr : Z;
  pw_dst_rkey : MemoryRegionRemoteKey;
  pw_dst_stride : Z;
  pw_dst_offset : Z;
  pw_imm_data : option Z;
}.

Inductive WriteOp : Type :=
  | WSingle (op : SingleWriteOp)
  | WImm (op : ImmWriteOp)
  | WPaged (op : PagedWriteOp).

Record ScatterGroupWriteOp := {
  sg_domain_idx : nat;
  sg_src_ptr : Z;
  sg_src_desc : MemoryRegionLocalDescriptor;
  sg_imm_data : option Z;
  sg_dsts : list ScatterTarget;
  sg_dst_beg : nat;
  sg_dst_end : nat;
  sg_byte_shards : Z;
  sg_byte_shard_idx : Z;
}.

(** [GroupWriteOp] has the one variant [Scatter]. *)
Inductive GroupWriteOp : Type := GScatter (op : ScatterGroupWriteOp).

Definition num_targets (op : GroupWriteOp) : nat :=
  match op with GScatter op => length (sg_dsts op) end.

(** The iterator indexes each target's address list; an index out of range panics, which
    [None] stands for. *)
Definition peer_addr_iter (op : GroupWriteOp) : list (option DomainAddress) :=
  match op with
  | GScatter op =>
      (fun dst => fst <$> addr_rkey_list (st_dst_mr dst) !! sg_domain_idx op) <$> sg_dsts op
  end.

Record SendOp := { so_ptr : Z; so_len : Z; so_desc : MemoryRegionLocalDescriptor }.
Record RecvOp := { ro_ptr : Z; ro_len : Z; ro_desc : MemoryRegionLocalDescriptor }.

(** ** Completions of one domain: [provider.rs] *)
Inductive DomainCompletionEntry : Type :=
  | DcRecv (transfer_id : TransferId) (data_len : Z)
  | DcSend (transfer_id : TransferId)
  | DcTransfer (transfer_id : TransferId)
  | DcImmData (imm : Z)
  | DcImmCountReached (imm : Z)
  | DcError (transfer_id : TransferId) (err : FabricLibError).

#[export] Instance DomainCompletionEntry_eq_dec : EqDecision DomainCompletionEntry.
Proof. solve_decision. Defined.

#[export] Instance TransferCounter_eq_dec : EqDecision TransferCounter.
Proof. solve_decision. Defined.
