(* ===== verification/ImmCount.v ===== *)
(** * Immediate counters

    [fabric-lib/src/imm_count.rs] (the map from immediates to counters, shared by every
    domain) and the user-facing counters [ImmCounter], [GdrCounter] and [TransferCounter] of
    [fabric-lib/src/api.rs].

    The [Arc<AtomicI64>] cells and GDR flags are shared between the map and the handles given
    to users, so they live in an explicit heap; an [Arc] is a location. *)
From stdpp Require Import prelude gmap strings list.
From S2P Require Import Prelude Api.
Local Open Scope Z_scope.

(** ** The shared atomics *)
Record Heap := {
  cells : gmap nat Z;
  flags : gmap nat bool;
  next_loc : nat;
}.

Definition empty_heap : Heap := {| cells := ∅; flags := ∅; next_loc := 0 |}.

Definition set_cells (f : gmap nat Z -> gmap nat Z) (h : Heap) : Heap :=
  {| cells := f (cells h); flags := flags h; next_loc := next_loc h |}.

Definition cell (h : Heap) (l : nat) : Z := default 0 (cells h !! l).
Definition flag_of (h : Heap) (l : nat) : bool := default false (flags h !! l).

(** [AtomicI64::new], [load], [store], [fetch_add] and [fetch_sub]. *)
Definition new_cell (v : Z) : M Heap nat := fun h =>
  Done (next_loc h, {| cells := <[next_loc h := v]> (cells h); flags := flags h;
                       next_loc := S (next_loc h) |}).
Definition load (l : nat) : M Heap Z := gets (fun h => cell h l).
Definition store (l : nat) (v : Z) : M Heap unit := modify (set_cells <[l := v]>).
Definition fetch_add (l : nat) (v : Z) : M Heap Z :=
  let! old := load l in
  store l (wrap_i64 (old + v)) ;;; ret old.
Definition fetch_sub (l : nat) (v : Z) : M Heap Z :=
  let! old := load l in
  store l (wrap_i64 (old - v)) ;;; ret old.

(** [GdrFlag::set]. *)
Definition set_flag (l : nat) (b : bool) : M Heap unit :=
  modify (fun h => {| cells := cells h; flags := <[l := b]> (flags h);
                      next_loc := next_loc h |}).

(** ** [ImmCount] *)
Inductive ImmCount : Type :=
  | Expected (counter : nat) (expected : Z)
  | Imm (counter : nat)
  | Gdr (counter : nat) (flag : nat).

Definition counter_of (c : ImmCount) : nat :=
  match c with Expected l _ => l | Imm l => l | Gdr l _ => l end.

Definition consume (c : ImmCount) : M Heap (Z * option Z) :=
  match c with
  | Expected counter expected =>
      let! v := load counter in ret (as_u32 v, Some expected)
  | Imm counter => let! v := load counter in ret (as_u32 v, None)
  | Gdr counter _ => let! v := load counter in ret (as_u32 v, None)
  end.

Definition inc_count (c : ImmCount) : M Heap bool :=
  match c with
  | Expected counter expected =>
      let! prev := fetch_add counter 1 in
      let reached := bool_decide (u32_add (as_u32 prev) 1 = expected) in
      if reached then fetch_sub counter expected ;;; ret true else ret false
  | Imm counter => fetch_add counter 1 ;;; ret false
  | Gdr counter flag =>
      let! old := fetch_add counter 1 in
      let value := wrap_i64 (old + 1) in
      if bool_decide (value = 0)
      then set_flag flag true ;;; store counter 0 ;;; ret false
      else ret false
  end.

Inductive ImmCountStatus : Type := Vacant | NotReached | Reached.

(** ** [ImmCountMap], with the heap it shares *)
Record Shared := { heap : Heap; imm_map : gmap Z ImmCount }.

Definition on_heap {A} (m : M Heap A) : M Shared A :=
  on_state heap (fun h s => {| heap := h; imm_map := imm_map s |}) m.

Definition map_insert (imm : Z) (c : ImmCount) : M Shared (option ImmCount) := fun s =>
  Done (imm_map s !! imm, {| heap := heap s; imm_map := <[imm := c]> (imm_map s) |}).

Definition new_map : Shared := {| heap := empty_heap; imm_map := ∅ |}.

Definition set_expected (imm expected : Z) : M Shared (option ImmCount) :=
  let! counter := on_heap (new_cell 0) in
  map_insert imm (Expected counter expected).

Definition get_imm_counter (imm : Z) : M Shared nat :=
  let! counter := on_heap (new_cell 0) in
  map_insert imm (Imm counter) ;;;
  ret counter.

Definition get_gdr_counter (imm : Z) (flag : nat) : M Shared (nat * nat) :=
  let! counter := on_heap (new_cell 0) in
  map_insert imm (Gdr counter flag) ;;;
  ret (counter, flag).

Definition remove (imm : Z) : M Shared (option ImmCount) := fun s =>
  Done (imm_map s !! imm, {| heap := heap s; imm_map := delete imm (imm_map s) |}).

Definition get (imm : Z) (s : Shared) : option Z :=
  (fun v => match v with
            | Expected counter _ => as_u32 (cell (heap s) counter)
            | Imm counter => as_u32 (cell (heap s) counter)
            | Gdr counter _ => as_u32 (cell (heap s) counter)
            end) <$> imm_map s !! imm.

Definition get_expected (imm : Z) (s : Shared) : option Z :=
  match imm_map s !! imm with
  | Some (Expected _ expected) => Some expected
  | Some (Gdr _ _) => None
  | Some (Imm _) => None
  | None => None
  end.

Definition inc (imm : Z) : M Shared ImmCountStatus := fun s =>
  match imm_map s !! imm with
  | Some imm_count =>
      (let! r := on_heap (inc_count imm_count) in
       ret (if r : bool then Reached else NotReached)) s
  | None => Done (Vacant, s)
  end.

(** ** User-facing counters of [api.rs] *)

(** [ImmCounter::wait] is two atomic accesses with a spin loop on the second; the completion
    thread may increment in between, so it is a small state machine. *)
Inductive wait_state : Type := WEntry | WSpin | WReturned.

#[export] Instance wait_state_eq_dec : EqDecision wait_state.
Proof. solve_decision. Defined.

Definition imm_counter_wait (counter : nat) (target : Z) (w : wait_state) :
    M Heap wait_state :=
  match w with
  | WEntry =>
      let! old := fetch_sub counter target in
      if bool_decide (target <= old) then ret WReturned else ret WSpin
  | WSpin =>
      let! v := load counter in
      if bool_decide (v < 0) then ret WSpin else ret WReturned
  | WReturned => ret WReturned
  end.

Definition gdr_counter_wait (counter flag : nat) (target : Z) : M Heap unit :=
  let! old := fetch_sub counter target in
  if bool_decide (target <= old) then set_flag flag true else ret tt.

Definition tx_error (c : TransferCounter) : M Heap unit :=
  fetch_add (tx_err_counter_loc c) 1 ;;;
  fetch_add (tx_counter_loc c) 1 ;;;
  ret tt.

Definition tx_done (c : TransferCounter) : M Heap unit :=
  fetch_add (tx_counter_loc c) 1 ;;;
  ret tt.

(** The atomic accesses of [ImmCount::inc] on a [Gdr] counter, one at a time, for the
    interleavings of two completion threads that share the counter. *)
Inductive gdr_inc_state : Type := GStart | GSetFlag | GStore | GEnd.

Definition gdr_inc_step (counter flag : nat) (g : gdr_inc_state) : M Heap gdr_inc_state :=
  match g with
  | GStart =>
      let! old := fetch_add counter 1 in
      if bool_decide (wrap_i64 (old + 1) = 0) then ret GSetFlag else ret GEnd
  | GSetFlag => set_flag flag true ;;; ret GStore
  | GStore => store counter 0 ;;; ret GEnd
  | GEnd => ret GEnd
  end.

(** Two threads inside [inc] on the same counter, scheduled by a list of booleans. *)
Fixpoint gdr_race (counter flag : nat) (sched : list bool) (g1 g2 : gdr_inc_state) :
    M Heap (gdr_inc_state * gdr_inc_state) :=
  match sched with
  | [] => ret (g1, g2)
  | true :: sched =>
      let! g1 := gdr_inc_step counter flag g1 in gdr_race counter flag sched g1 g2
  | false :: sched =>
      let! g2 := gdr_inc_step counter flag g2 in gdr_race counter flag sched g1 g2
  end.

(** Repeated operations, for statements over whole runs. *)
Fixpoint times {S A} (n : nat) (m : M S A) : M S (list A) :=
  match n with
  | O => ret []
  | S n => let! a := m in let! l := times n m in ret (a :: l)
  end.

(** A waiter and the completion thread interleaved: [true] is one step of the waiter,
    [false] one arriving immediate. *)
Fixpoint wait_sched (counter : nat) (target : Z) (sched : list bool) (w : wait_state) :
    M Heap wait_state :=
  match sched with
  | [] => ret w
  | true :: sched =>
      let! w := imm_counter_wait counter target w in wait_sched counter target sched w
  | false :: sched =>
      inc_count (Imm counter) ;;; wait_sched counter target sched w
  end.

Definition arrivals (sched : list bool) : Z := Z.of_nat (length (filter (fun b => b = false) sched)).

(** ** Lemmas on the heap *)
Definition only_cell (l : nat) (h h' : Heap) : Prop :=
  (forall l', l' <> l -> cell h' l' = cell h l') /\ next_loc h' = next_loc h.

Lemma only_cell_refl l h : only_cell l h h.
Proof. done. Qed.

Lemma only_cell_trans l h1 h2 h3 : only_cell l h1 h2 -> only_cell l h2 h3 -> only_cell l h1 h3.
Proof. intros [H1 ?] [H2 ?]. split; [|congruence]. intros. rewrite H2, H1; done. Qed.

Lemma cell_insert l l' v h :
  cell (set_cells <[l := v]> h) l' = if decide (l = l') then v else cell h l'.
Proof. unfold cell; simpl. rewrite lookup_insert. by case_decide. Qed.

Lemma cell_insert_eq l v h : cell (set_cells <[l := v]> h) l = v.
Proof. rewrite cell_insert. by case_decide. Qed.

Lemma only_cell_insert l v h : only_cell l h (set_cells <[l := v]> h).
Proof. split; [|done]. intros l' ?. rewrite cell_insert. by case_decide. Qed.

Lemma fetch_add_run l v h :
  fetch_add l v h = Done (cell h l, set_cells <[l := wrap_i64 (cell h l + v)]> h).
Proof. done. Qed.

Lemma fetch_sub_run l v h :
  fetch_sub l v h = Done (cell h l, set_cells <[l := wrap_i64 (cell h l - v)]> h).
Proof. done. Qed.

#[export] Hint Resolve only_cell_refl only_cell_trans only_cell_insert : rust.

(** [heap_step l h h' v] : the run went from [h] to [h'], changed only the cell [l] and the
    flags, and left [v] in the cell. *)
Definition heap_step (l : nat) (h h' : Heap) (v : Z) : Prop :=
  only_cell l h h' /\ cell h' l = v.

Lemma inc_expected_step l e h :
  0 <= cell h l < e -> e < 2 ^ 32 ->
  exists h', inc_count (Expected l e) h = Done (bool_decide (cell h l + 1 = e), h') /\
    heap_step l h h' ((cell h l + 1) mod e) /\ flags h' = flags h.
Proof.
  intros Hv He. unfold inc_count. cbv [bind]. rewrite fetch_add_run.
  assert (Hw : as_u32 (cell h l) = cell h l) by (apply wrapu_small; split; lia).
  rewrite Hw. unfold u32_add.
  destruct (decide (cell h l + 1 = e)) as [Heq|Hne].
  - rewrite (wrapu_small 32) by (split; lia).
    rewrite !bool_decide_eq_true_2 by done. rewrite fetch_sub_run.
    eexists; split; [done|]. rewrite cell_insert_eq, Heq, Z.mod_same by lia.
    split; [split|done].
    + eauto using only_cell_trans, only_cell_insert.
    + rewrite cell_insert_eq, (wrap_i64_small e) by (unfold in_i64; lia).
      by rewrite Z.sub_diag.
  - rewrite (wrapu_small 32) by (split; lia).
    rewrite !bool_decide_eq_false_2 by done.
    eexists; split; [done|]. split; [split|done]; [apply only_cell_insert|].
    rewrite cell_insert_eq, wrap_i64_small, Z.mod_small by (unfold in_i64; lia). done.
Qed.

Lemma inc_imm_step l h :
  0 <= cell h l + 2 ^ 62 < 2 ^ 63 ->
  exists h', inc_count (Imm l) h = Done (false, h') /\
    heap_step l h h' (cell h l + 1) /\ flags h' = flags h.
Proof.
  intros Hv. unfold inc_count; cbv [bind]. rewrite fetch_add_run.
  eexists; split; [done|]. split; [split|done]; [apply only_cell_insert|].
  rewrite cell_insert_eq, wrap_i64_small; unfold in_i64; lia.
Qed.

Lemma inc_gdr_step l f h :
  0 <= cell h l + 2 ^ 62 < 2 ^ 63 ->
  exists h', inc_count (Gdr l f) h = Done (false, h') /\
    heap_step l h h' (cell h l + 1) /\
    flag_of h' f = (flag_of h f || bool_decide (cell h l + 1 = 0)).
Proof.
  intros Hv. unfold inc_count; cbv [bind]. rewrite fetch_add_run.
  rewrite (wrap_i64_small (cell h l + 1)) by (unfold in_i64; lia).
  case_bool_decide as Hz.
  - eexists; split; [done|]. split; [split|].
    + split; [|done]. intros l' Hne. unfold cell; simpl. by rewrite !lookup_insert_ne.
    + rewrite Hz. apply cell_insert_eq.
    + unfold flag_of; simpl. rewrite lookup_insert_eq. by rewrite orb_true_r.
  - eexists; split; [done|]. split; [split|].
    + apply only_cell_insert.
    + apply cell_insert_eq.
    + unfold flag_of; simpl. by rewrite orb_false_r.
Qed.

(** ** Expected counters *)
Definition reach_status (e : Z) (i : Z) : ImmCountStatus :=
  if bool_decide ((i + 1) mod e = 0) then Reached else NotReached.

(** One increment of a registered [Expected] immediate, at the level of the map. *)
Lemma inc_map_expected_step imm l e s :
  imm_map s !! imm = Some (Expected l e) -> 0 <= cell (heap s) l < e -> e < 2 ^ 32 ->
  exists s', inc imm s =
      Done (if bool_decide (cell (heap s) l + 1 = e) then Reached else NotReached, s') /\
    imm_map s' = imm_map s /\ cell (heap s') l = (cell (heap s) l + 1) mod e.
Proof.
  intros Hm Hv He. unfold inc. rewrite Hm.
  destruct (inc_expected_step l e (heap s) Hv He) as (h' & Hrun & [_ Hcell] & _).
  exists {| heap := h'; imm_map := imm_map s |}.
  unfold bind, on_heap, on_state. rewrite Hrun. done.
Qed.

Lemma mod_succ_eq v e : 0 <= v < e -> bool_decide ((v + 1) mod e = 0) = bool_decide (v + 1 = e).
Proof.
  intros Hv. apply bool_decide_ext.
  destruct (decide (v + 1 = e)) as [<-|]; [rewrite Z.mod_same by lia; lia|].
  rewrite Z.mod_small by lia. lia.
Qed.

Lemma inc_expected_times imm l e n s v :
  imm_map s !! imm = Some (Expected l e) -> 0 < e < 2 ^ 32 -> 0 <= v ->
  cell (heap s) l = v mod e ->
  exists s', times n (inc imm) s =
      Done ((fun i => reach_status e i) <$> seqZ v (Z.of_nat n), s') /\
    imm_map s' = imm_map s /\ cell (heap s') l = (v + Z.of_nat n) mod e.
Proof.
  intros Hm He. revert s v Hm. induction n as [|n IH]; intros s v Hm Hv Hc.
  - exists s. rewrite Z.add_0_r. done.
  - pose proof (Z.mod_pos_bound v e ltac:(lia)).
    destruct (inc_map_expected_step imm l e s Hm) as (s1 & Hrun & Hm1 & Hc1); [lia..|].
    destruct (IH s1 (v + 1)) as (s' & Hrun' & Hm' & Hc').
    { by rewrite Hm1. } { lia. } { rewrite Hc1, Hc, Zplus_mod_idemp_l. done. }
    exists s'. simpl. unfold bind at 1. rewrite Hrun. unfold bind. rewrite Hrun'.
    split; [|split].
    + rewrite (seqZ_cons v) by lia. rewrite fmap_cons.
      replace (Z.pred (Z.of_nat (S n))) with (Z.of_nat n) by lia.
      unfold reach_status at 2. rewrite Hc.
      rewrite <- (mod_succ_eq (v mod e)) by lia. by rewrite Zplus_mod_idemp_l.
    + congruence.
    + rewrite Hc'. f_equal. lia.
Qed.

(** An [Expected] counter fires periodically and loses nothing.  After
    [set_expected imm e], the [n] following increments of [imm] report [Reached] exactly at
    the multiples of [e], and the counter the map exposes is then [n mod e]: the surplus past
    the last [Reached] is kept. *)
Theorem expected_counter_periodic imm e n s :
  0 < e < 2 ^ 32 ->
  exists s', (set_expected imm e ;;; times n (inc imm)) s =
      Done ((fun i => reach_status e i) <$> seqZ 0 (Z.of_nat n), s') /\
    get imm s' = Some (Z.of_nat n mod e) /\ get_expected imm s' = Some e.
Proof.
  intros He.
  set (s1 := {| heap := {| cells := <[next_loc (heap s) := 0]> (cells (heap s));
                           flags := flags (heap s); next_loc := S (next_loc (heap s)) |};
                imm_map := <[imm := Expected (next_loc (heap s)) e]> (imm_map s) |}).
  assert (Hs1 : set_expected imm e s = Done (imm_map s !! imm, s1)) by done.
  destruct (inc_expected_times imm (next_loc (heap s)) e n s1 0) as (s' & Hrun & Hm & Hc).
  { unfold s1; simpl. apply lookup_insert_eq. } { done. } { done. }
  { unfold s1, cell; simpl. by rewrite lookup_insert_eq. }
  exists s'. unfold bind at 1. rewrite Hs1. split; [done|].
  pose proof (Z.mod_pos_bound (Z.of_nat n) e ltac:(lia)).
  unfold get, get_expected. rewrite Hm. unfold s1; simpl. rewrite lookup_insert_eq; simpl.
  rewrite Hc, Z.add_0_l. split; [|done]. f_equal. apply wrapu_small; split; lia.
Qed.

Lemma expected_counter_periodic_witness :
  0 < 3 < 2 ^ 32 /\
  exists s', (set_expected 7 3 ;;; times 7 (inc 7)) new_map =
      Done ((fun i => reach_status 3 i) <$> seqZ 0 (Z.of_nat 7), s') /\
    get 7 s' = Some (Z.of_nat 7 mod 3) /\ get_expected 7 s' = Some 3.
Proof. split; [lia|]. apply (expected_counter_periodic 7 3 7 new_map). lia. Defined.

(** ** GDR counters *)
Lemma inc_gdr_times l f n h :
  - 2 ^ 33 <= cell h l -> cell h l + Z.of_nat n < 2 ^ 61 ->
  exists h' r, times n (inc_count (Gdr l f)) h = Done (r, h') /\
    heap_step l h h' (cell h l + Z.of_nat n) /\
    flag_of h' f =
      (flag_of h f || bool_decide (cell h l < 0 /\ 0 <= cell h l + Z.of_nat n)).
Proof.
  revert h. induction n as [|n IH]; intros h Hlo Hhi.
  - exists h, []. rewrite Z.add_0_r. split; [done|]. split; [done|].
    rewrite bool_decide_eq_false_2 by lia. by rewrite orb_false_r.
  - destruct (inc_gdr_step l f h) as (h1 & Hrun & [Hf1 Hc1] & Hfl1); [lia|].
    destruct (IH h1) as (h' & r & Hrun' & [Hf' Hc'] & Hfl'); [lia..|].
    exists h', (false :: r). cbn [times]. unfold bind. rewrite Hrun, Hrun'.
    split; [done|]. split; [split; [eauto using only_cell_trans|lia]|].
    rewrite Hfl', Hfl1, Hc1, <- orb_assoc. f_equal.
    rewrite <- bool_decide_or. apply bool_decide_ext. lia.
Qed.

Lemma gdr_wait_run l f t h :
  - 2 ^ 33 <= cell h l < 2 ^ 61 -> 0 <= t < 2 ^ 32 ->
  exists h', gdr_counter_wait l f t h = Done (tt, h') /\
    heap_step l h h' (cell h l - t) /\
    flag_of h' f = (flag_of h f || bool_decide (t <= cell h l)).
Proof.
  intros Hc Ht. unfold gdr_counter_wait; cbv [bind]. rewrite fetch_sub_run.
  rewrite wrap_i64_small by (unfold in_i64; lia). case_bool_decide.
  - eexists; split; [done|]. split; [split|].
    + split; [|done]. intros l' ?. unfold cell; simpl. by rewrite lookup_insert_ne.
    + apply cell_insert_eq.
    + unfold flag_of; simpl. rewrite lookup_insert_eq. by rewrite orb_true_r.
  - eexists; split; [done|]. split; [split; [apply only_cell_insert|apply cell_insert_eq]|].
    unfold flag_of; simpl. by rewrite orb_false_r.
Qed.

(** C20: a [GdrCounter] raises the device flag exactly when enough immediates have arrived,
    whatever the order of the wait and the arrivals.  From a non-negative counter with the
    flag down, [n1] increments, [wait(target)] and [n2] further increments leave the counter
    at [c + n1 + n2 - target] and the flag up iff [target <= c + n1 + n2]. *)
Theorem gdr_flag_iff_target_met l f t n1 n2 h :
  0 <= cell h l -> cell h l + Z.of_nat n1 + Z.of_nat n2 < 2 ^ 60 -> 0 <= t < 2 ^ 32 ->
  flag_of h f = false ->
  exists h', (times n1 (inc_count (Gdr l f)) ;;; gdr_counter_wait l f t ;;;
              times n2 (inc_count (Gdr l f)) ;;; ret tt) h = Done (tt, h') /\
    cell h' l = cell h l + Z.of_nat n1 + Z.of_nat n2 - t /\
    flag_of h' f = bool_decide (t <= cell h l + Z.of_nat n1 + Z.of_nat n2).
Proof.
  intros Hc Hhi Ht Hf.
  destruct (inc_gdr_times l f n1 h) as (h1 & r1 & Hrun1 & [_ Hc1] & Hf1); [lia..|].
  destruct (gdr_wait_run l f t h1) as (h2 & Hrun2 & [_ Hc2] & Hf2); [lia..|].
  destruct (inc_gdr_times l f n2 h2) as (h3 & r3 & Hrun3 & [_ Hc3] & Hf3); [lia..|].
  exists h3. unfold bind. rewrite Hrun1, Hrun2, Hrun3. split; [done|]. split; [lia|].
  rewrite Hf3, Hf2, Hf1, Hf, Hc2, Hc1. simpl.
  rewrite <- !bool_decide_or. apply bool_decide_ext. lia.
Qed.

Lemma gdr_flag_iff_target_met_witness :
  exists h', (times 2 (inc_count (Gdr 0 0)) ;;; gdr_counter_wait 0 0 3 ;;;
              times 1 (inc_count (Gdr 0 0)) ;;; ret tt) empty_heap = Done (tt, h') /\
    cell h' 0 = cell empty_heap 0 + Z.of_nat 2 + Z.of_nat 1 - 3 /\
    flag_of h' 0 = bool_decide (3 <= cell empty_heap 0 + Z.of_nat 2 + Z.of_nat 1).
Proof.
  apply (gdr_flag_iff_target_met 0 0 3 2 1 empty_heap);
    [vm_compute; congruence | vm_compute; congruence | lia | reflexivity].
Defined.

(** ** [ImmCounter::wait] under interleaving *)
Definition wait_ok (c t a : Z) (w : wait_state) (v : Z) : Prop :=
  match w with
  | WEntry => v = c + a
  | WSpin => v = c + a - t
  | WReturned => v = c + a - t /\ t <= c + a
  end.

Lemma imm_counter_wait_step c t a l w h :
  0 <= c -> 0 <= a -> c + a < 2 ^ 61 -> 0 <= t < 2 ^ 32 -> wait_ok c t a w (cell h l) ->
  exists w' h', imm_counter_wait l t w h = Done (w', h') /\ wait_ok c t a w' (cell h' l) /\
    w' <> WEntry /\ (w = WSpin -> t <= c + a -> w' = WReturned).
Proof.
  intros Hc Ha Hhi Ht Hw. destruct w; simpl in Hw.
  - unfold imm_counter_wait; cbv [bind]. rewrite fetch_sub_run.
    case_bool_decide; eexists _, _; (split; [done|]); rewrite cell_insert_eq, Hw in *;
      rewrite wrap_i64_small by (unfold in_i64; lia); simpl; repeat split; try lia; done.
  - unfold imm_counter_wait, load; cbv [bind gets].
    case_bool_decide; eexists _, _; (split; [done|]); simpl; repeat split; try lia; done.
  - eexists _, _. split; [done|]. simpl. naive_solver.
Qed.

Lemma arrivals_cons_inc sched : arrivals (false :: sched) = arrivals sched + 1.
Proof. unfold arrivals. rewrite filter_cons_True by done. simpl. lia. Qed.

Lemma arrivals_cons_step sched : arrivals (true :: sched) = arrivals sched.
Proof. unfold arrivals. by rewrite filter_cons_False by done. Qed.

Lemma arrivals_nonneg sched : 0 <= arrivals sched.
Proof. unfold arrivals. lia. Qed.

Lemma wait_sched_inv c t l sched a w h :
  0 <= c -> 0 <= a -> c + a + arrivals sched < 2 ^ 61 -> 0 <= t < 2 ^ 32 ->
  wait_ok c t a w (cell h l) ->
  exists w' h', wait_sched l t sched w h = Done (w', h') /\
    wait_ok c t (a + arrivals sched) w' (cell h' l).
Proof.
  intros Hc. revert a w h. induction sched as [|[] sched IH]; intros a w h Ha Hhi Ht Hw.
  - exists w, h. replace (a + arrivals []) with a by (unfold arrivals; simpl; lia). done.
  - rewrite arrivals_cons_step in *. pose proof (arrivals_nonneg sched).
    destruct (imm_counter_wait_step c t a l w h) as (w1 & h1 & Hrun & Hw1 & _); [lia..|done|].
    destruct (IH a w1 h1) as (w' & h' & Hrun' & Hw'); [lia..|done|].
    exists w', h'. cbn [wait_sched]. unfold bind. by rewrite Hrun, Hrun'.
  - rewrite arrivals_cons_inc in *. pose proof (arrivals_nonneg sched).
    destruct (inc_imm_step l h) as (h1 & Hrun & [_ Hc1] & _).
    { destruct w; simpl in Hw; lia. }
    destruct (IH (a + 1) w h1) as (w' & h' & Hrun' & Hw'); [lia..| |].
    { rewrite Hc1. destruct w; simpl in *; lia. }
    exists w', h'. cbn [wait_sched]. unfold bind. rewrite Hrun, Hrun'.
    split; [done|]. by replace (a + (arrivals sched + 1)) with (a + 1 + arrivals sched) by lia.
Qed.

Lemma wait_sched_app l t s1 s2 w h :
  wait_sched l t (s1 ++ s2) w h = bind (wait_sched l t s1 w) (wait_sched l t s2) h.
Proof.
  revert w h. induction s1 as [|[] s1 IH]; intros w h; [done|..].
  - cbn [wait_sched app]. unfold bind at 1 2 3.
    destruct (imm_counter_wait l t w h) as [[w1 h1]| |]; [apply IH|done|done].
  - cbn [wait_sched app]. unfold bind at 1 2 3.
    destruct (inc_count (Imm l) h) as [[w1 h1]| |]; [apply IH|done|done].
Qed.

(** C19: [ImmCounter::wait(target)] consumes exactly [target] arrivals.  Under every
    interleaving of the waiting thread with [arrivals sched] increments, starting from a
    counter [c >= 0]: if the waiter has returned then at least [target] immediates had
    arrived and the counter is the surplus; and two more steps of the waiter return iff
    [target <= c + arrivals sched] (no lost wake-up, no early return). *)
Theorem imm_counter_wait_exact l t sched h :
  0 <= cell h l -> cell h l + arrivals sched < 2 ^ 60 -> 0 <= t < 2 ^ 32 ->
  (forall w h', wait_sched l t sched WEntry h = Done (w, h') -> w = WReturned ->
     t <= cell h l + arrivals sched /\ cell h' l = cell h l + arrivals sched - t) /\
  (exists w h', wait_sched l t (sched ++ [true; true]) WEntry h = Done (w, h') /\
     cell h' l = cell h l + arrivals sched - t /\
     (w = WReturned <-> t <= cell h l + arrivals sched)).
Proof.
  intros Hc Hhi Ht. pose proof (arrivals_nonneg sched) as Ha.
  destruct (wait_sched_inv (cell h l) t l sched 0 WEntry h) as (w0 & h0 & Hrun0 & Hw0);
    [lia..|simpl; lia|]. rewrite Z.add_0_l in Hw0. split.
  { intros w h' Hrun ->. rewrite Hrun in Hrun0. simplify_eq. simpl in Hw0. lia. }
  destruct (imm_counter_wait_step (cell h l) t (arrivals sched) l w0 h0)
    as (w1 & h1 & Hrun1 & Hw1 & Hne & _); [lia..|done|].
  destruct (imm_counter_wait_step (cell h l) t (arrivals sched) l w1 h1)
    as (w2 & h2 & Hrun2 & Hw2 & Hne2 & Hret); [lia..|done|].
  exists w2, h2. rewrite wait_sched_app. unfold bind at 1. rewrite Hrun0.
  cbn [wait_sched]. unfold bind. rewrite Hrun1, Hrun2. split; [done|].
  destruct w2; [done| |]; simpl in Hw2; (split; [lia|]); (split; [naive_solver|]).
  - intros Hle. destruct w1; [done|by apply Hret|]. simpl in Hrun2. by simplify_eq.
  - done.
Qed.

Lemma imm_counter_wait_exact_witness :
  (forall w h', wait_sched 0 2 [true; false; true; false] WEntry empty_heap = Done (w, h') ->
     w = WReturned ->
     2 <= cell empty_heap 0 + arrivals [true; false; true; false] /\
     cell h' 0 = cell empty_heap 0 + arrivals [true; false; true; false] - 2) /\
  (exists w h', wait_sched 0 2 ([true; false; true; false] ++ [true; true]) WEntry empty_heap
       = Done (w, h') /\
     cell h' 0 = cell empty_heap 0 + arrivals [true; false; true; false] - 2 /\
     (w = WReturned <-> 2 <= cell empty_heap 0 + arrivals [true; false; true; false])).
Proof.
  apply (imm_counter_wait_exact 0 2 [true; false; true; false] empty_heap);
    [vm_compute; congruence | vm_compute; congruence | lia].
Defined.

(** ** The non-atomic reset of a GDR counter *)
Lemma gdr_inc_steps_refine l f h :
  inc_count (Gdr l f) h =
  match gdr_race l f [true; true; true] GStart GEnd h with
  | Done (_, h') => Done (false, h')
  | Panic why => Panic why
  | OutOfFuel => OutOfFuel
  end.
Proof.
  unfold inc_count. cbn [gdr_race gdr_inc_step]. cbv [bind]. rewrite fetch_add_run.
  case_bool_decide; done.
Qed.

(** The reset of a GDR counter is not atomic with the increment that reaches zero.  With
    the counter at [-1], two completion threads inside [inc] can be scheduled so that both
    increments end, the flag is raised, and the counter is [0]; run one after the other the
    same two increments leave [1].  The second arrival is lost by [counter.store(0)]. *)
Theorem gdr_reset_loses_concurrent_arrival l f h :
  cell h l = -1 ->
  (exists h', gdr_race l f [true; false; true; true] GStart GStart h = Done ((GEnd, GEnd), h') /\
     cell h' l = 0 /\ flag_of h' f = true) /\
  (exists h' r, times 2 (inc_count (Gdr l f)) h = Done (r, h') /\
     cell h' l = 1 /\ flag_of h' f = true).
Proof.
  intros Hc. split.
  - cbn [gdr_race gdr_inc_step]. cbv [bind]. rewrite fetch_add_run, Hc.
    rewrite (wrap_i64_small (-1 + 1)) by (unfold in_i64; lia).
    rewrite bool_decide_eq_true_2 by lia. cbv [ret]. rewrite fetch_add_run, cell_insert_eq.
    rewrite (wrap_i64_small (-1 + 1 + 1)) by (unfold in_i64; lia).
    rewrite bool_decide_eq_false_2 by lia. eexists. split; [done|]. split.
    + apply cell_insert_eq.
    + unfold flag_of; simpl. by rewrite lookup_insert_eq.
  - destruct (inc_gdr_times l f 2 h) as (h' & r & Hrun & [_ Hc'] & Hf); [lia..|].
    exists h', r. split; [done|]. split; [lia|]. rewrite Hf.
    rewrite bool_decide_eq_true_2 by lia. by rewrite orb_true_r.
Qed.

Lemma gdr_reset_loses_concurrent_arrival_witness :
  let h := set_cells <[0%nat := -1]> empty_heap in
  (exists h', gdr_race 0 0 [true; false; true; true] GStart GStart h = Done ((GEnd, GEnd), h') /\
     cell h' 0 = 0 /\ flag_of h' 0 = true) /\
  (exists h' r, times 2 (inc_count (Gdr 0 0)) h = Done (r, h') /\
     cell h' 0 = 1 /\ flag_of h' 0 = true).
Proof. intros h. apply (gdr_reset_loses_concurrent_arrival 0 0 h). reflexivity. Defined.

(** ** The map: separation of immediates *)
Inductive imm_op : Type :=
  | OpSetExpected (imm e : Z)
  | OpImmCounter (imm : Z)
  | OpGdrCounter (imm : Z) (flag : nat)
  | OpRemove (imm : Z)
  | OpInc (imm : Z).

Definition op_imm (o : imm_op) : Z :=
  match o with
  | OpSetExpected imm _ | OpImmCounter imm | OpGdrCounter imm _ | OpRemove imm | OpInc imm => imm
  end.

Definition exec_op (o : imm_op) : M Shared unit :=
  match o with
  | OpSetExpected imm e => set_expected imm e ;;; ret tt
  | OpImmCounter imm => get_imm_counter imm ;;; ret tt
  | OpGdrCounter imm flag => get_gdr_counter imm flag ;;; ret tt
  | OpRemove imm => remove imm ;;; ret tt
  | OpInc imm => inc imm ;;; ret tt
  end.

(** Registered counters are allocated, and no two immediates share one. *)
Record map_wf (s : Shared) : Prop := {
  wf_alloc : forall imm c, imm_map s !! imm = Some c -> (counter_of c < next_loc (heap s))%nat;
  wf_inj : forall i j c d, imm_map s !! i = Some c -> imm_map s !! j = Some d ->
    counter_of c = counter_of d -> i = j;
}.

Lemma new_map_wf : map_wf new_map.
Proof. split; simpl; intros *; by rewrite lookup_empty. Qed.

Lemma inc_count_only_cell c h b h' : inc_count c h = Done (b, h') -> only_cell (counter_of c) h h'.
Proof.
  destruct c; unfold inc_count; cbv [bind]; rewrite fetch_add_run;
    try case_bool_decide; cbv [ret fetch_sub load store gets modify set_flag bind];
    intros; simplify_eq; simpl; eauto with rust.
  split; [|done]. intros l' ?. unfold cell; simpl. by rewrite !lookup_insert_ne.
Qed.

Lemma map_wf_insert_fresh s imm c :
  map_wf s -> counter_of c = next_loc (heap s) ->
  map_wf {| heap := {| cells := <[next_loc (heap s) := 0]> (cells (heap s));
                       flags := flags (heap s); next_loc := S (next_loc (heap s)) |};
            imm_map := <[imm := c]> (imm_map s) |}.
Proof.
  intros [Ha Hi] Hc. split; simpl.
  - intros i d. rewrite lookup_insert. case_decide; [intros; simplify_eq; lia|].
    intros ?%Ha. lia.
  - intros i j ci cj. rewrite !lookup_insert. case_decide as Hii; case_decide as Hjj.
    + intros; simplify_eq. done.
    + intros ? ?%Ha. simplify_eq. lia.
    + intros ?%Ha ?. simplify_eq. lia.
    + apply Hi.
Qed.

Lemma exec_op_alloc_get s imm j c :
  map_wf s -> j <> imm ->
  let s' := {| heap := {| cells := <[next_loc (heap s) := 0]> (cells (heap s));
                          flags := flags (heap s); next_loc := S (next_loc (heap s)) |};
               imm_map := <[imm := c]> (imm_map s) |} in
  get j s' = get j s.
Proof.
  intros [Ha _] Hj. unfold get; simpl. rewrite lookup_insert_ne by done.
  destruct (imm_map s !! j) as [d|] eqn:E; [|done]. apply Ha in E. simpl. f_equal.
  destruct d; unfold cell; simpl in *; rewrite lookup_insert_ne by lia; done.
Qed.

(** The immediates of the map are independent.  Every operation of [ImmCountMap] keeps
    the map well formed (registered counters allocated and pairwise distinct), and leaves the
    value and the expected count of every other immediate unchanged. *)
Theorem imm_map_ops_independent s o s' :
  map_wf s -> exec_op o s = Done (tt, s') ->
  map_wf s' /\
  forall j, j <> op_imm o -> get j s' = get j s /\ get_expected j s' = get_expected j s.
Proof.
  intros Hwf. destruct o as [imm e|imm|imm flag|imm|imm]; simpl.
  1-3: cbv [set_expected get_imm_counter get_gdr_counter on_heap on_state new_cell map_insert
            bind ret]; intros; simplify_eq;
    (split; [by apply map_wf_insert_fresh|]); intros j Hj;
    (split; [by apply exec_op_alloc_get|]);
    unfold get_expected; simpl; by rewrite lookup_insert_ne by done.
  - cbv [remove bind ret]; intros; simplify_eq. split.
    + destruct Hwf as [Ha Hi]. split; simpl.
      * intros ? ? [? ?]%lookup_delete_Some. eauto.
      * intros ? ? ? ? [? ?]%lookup_delete_Some [? ?]%lookup_delete_Some. eauto.
    + intros j Hj. unfold get, get_expected; simpl. by rewrite lookup_delete_ne by done.
  - unfold bind, inc. destruct (imm_map s !! imm) as [c|] eqn:Hm.
    + unfold bind, on_heap, on_state. destruct (inc_count c (heap s)) as [[b h']| |] eqn:Hrun;
        [|done|done]. cbv [ret]. intros; simplify_eq. apply inc_count_only_cell in Hrun as [Hoc Hnl].
      destruct Hwf as [Ha Hi]. split; [split; simpl; [intros ? ? ?%Ha; lia|exact Hi]|].
      intros j Hj. split; [|done]. unfold get; simpl.
      destruct (imm_map s !! j) as [d|] eqn:E; [|done]. simpl. f_equal.
      assert (counter_of d <> counter_of c) by (intros ?; eapply Hj, Hi; eauto).
      destruct d; simpl in *; by rewrite Hoc.
    + cbv [ret]. intros; simplify_eq. done.
Qed.

Lemma imm_map_ops_independent_witness :
  exists s1, exec_op (OpSetExpected 5 2) new_map = Done (tt, s1) /\
    map_wf s1 /\
    forall j, j <> op_imm (OpSetExpected 5 2) ->
      get j s1 = get j new_map /\ get_expected j s1 = get_expected j new_map.
Proof.
  eexists. split; [reflexivity|].
  apply (imm_map_ops_independent new_map (OpSetExpected 5 2)); [apply new_map_wf|reflexivity].
Defined.
