(* ===== verification/Sharding.v ===== *)
(** * Sharding a transfer over domains

    The pure helpers at the end of [fabric-lib/src/domain_group.rs]: [divide_evenly] (pages
    and peers), [round_up] and [shard_single_transfer] (bytes). *)
From stdpp Require Import prelude gmap strings list.
From S2P Require Import Prelude.
Local Open Scope Z_scope.

(** ** [divide_evenly] *)
Fixpoint divide_loop (k step beg remainder : nat) : list (nat * nat) :=
  match k with
  | O => []
  | S k =>
      let chunk := Nat.min remainder step in
      if decide (chunk = 0%nat) then []
      else (beg, beg + chunk)%nat :: divide_loop k step (beg + chunk) (remainder - chunk)
  end.

Definition divide_evenly {St} (n k : nat) : M St (list (nat * nat)) :=
  if decide (k = 0%nat) then panic "attempt to divide by zero"
  else ret (divide_loop k (nat_div_ceil n k) 0 n).

(** ** [round_up] and [shard_single_transfer] *)
Definition round_up (value multiple : Z) : Z := u64_mul (div_ceil value multiple) multiple.

Definition MIN_SIZE : Z := 8192.

Fixpoint shard_loop (k : nat) (base total offset : Z) : list (Z * Z) :=
  match k with
  | O => []
  | S k =>
      let len := Z.min base (total - offset) in
      if decide (len > 0)
      then (offset, len) :: shard_loop k base total (offset + len)
      else (0, 0) :: shard_loop k base total offset
  end.

Definition shard_single_transfer {St} (total_size : Z) (num_shards : nat) : M St (list (Z * Z)) :=
  if decide (num_shards = 0%nat) then panic "attempt to divide by zero"
  else
    let base := round_up (total_size / Z.of_nat num_shards) MIN_SIZE in
    ret (shard_loop num_shards base total_size 0).

(** ** Tilings *)

(** [tiles a b l]: the half-open segments of [l] are non-empty, consecutive and cover
    [[a, b)] exactly. *)
Fixpoint tiles (a b : nat) (l : list (nat * nat)) : Prop :=
  match l with
  | [] => a = b
  | (x, y) :: l => x = a /\ (a < y)%nat /\ tiles y b l
  end.

Lemma tiles_le a b l : tiles a b l -> (a <= b)%nat.
Proof. revert a. induction l as [|[x y] l IH]; simpl; [lia|]. intros a (-> & ? & ?%IH). lia. Qed.

Lemma tiles_bounds a b l x y : tiles a b l -> (x, y) ∈ l -> (a <= x < y /\ y <= b)%nat.
Proof.
  revert a. induction l as [|[x' y'] l IH]; simpl; intros a; [set_solver|].
  intros (-> & Hlt & Ht) [Heq|Hin]%elem_of_cons.
  - simplify_eq. pose proof (tiles_le _ _ _ Ht). lia.
  - pose proof (IH _ Ht Hin). lia.
Qed.

(** Every index of a tiling lies in exactly one segment. *)
Lemma tiles_unique a b l i :
  tiles a b l -> (a <= i < b)%nat ->
  exists! j, exists x y, l !! j = Some (x, y) /\ (x <= i < y)%nat.
Proof.
  revert a. induction l as [|[x y] l IH]; simpl; intros a; [lia|].
  intros (-> & Hlt & Ht) Hi. destruct (decide (i < y)%nat) as [Hiy|Hiy].
  - exists 0%nat. split; [exists a, y; split; [done|lia]|].
    intros [|j] (x' & y' & Hj & Hb); [done|]. simpl in Hj.
    pose proof (tiles_bounds _ _ _ x' y' Ht (list_elem_of_lookup_2 _ _ _ Hj)). lia.
  - destruct (IH y Ht ltac:(lia)) as (j & (x' & y' & Hj & Hb) & Hu).
    exists (S j). split; [exists x', y'; done|].
    intros [|j'] (x'' & y'' & Hj' & Hb'); simpl in Hj'; [simplify_eq; lia|].
    f_equal. apply Hu. exists x'', y''. done.
Qed.

Lemma divide_loop_tiles k step beg rem :
  (0 < step -> rem <= k * step)%nat -> (step = 0 -> rem = 0)%nat ->
  tiles beg (beg + rem) (divide_loop k step beg rem).
Proof.
  revert beg rem. induction k as [|k IH]; intros beg rem H1 H2; simpl.
  - destruct (decide (step = 0)%nat); [|nia]. specialize (H2 e). lia.
  - case_decide as Hc; simpl; [lia|].
    split; [done|]. split; [lia|].
    replace (beg + rem)%nat with (beg + Nat.min rem step + (rem - Nat.min rem step))%nat by lia.
    apply IH; nia.
Qed.

Lemma divide_loop_length k step beg rem : (length (divide_loop k step beg rem) <= k)%nat.
Proof.
  revert beg rem. induction k as [|k IH]; intros; simpl; [lia|].
  case_decide; simpl; [lia|]. apply le_n_S, IH.
Qed.

Lemma divide_loop_chunk k step beg rem x y :
  (x, y) ∈ divide_loop k step beg rem -> (x < y <= x + step)%nat.
Proof.
  revert beg rem. induction k as [|k IH]; intros beg rem; simpl; [set_solver|].
  case_decide; [set_solver|]. intros [?|?]%elem_of_cons; [simplify_eq; lia|eauto].
Qed.

Definition divide (n k : nat) : list (nat * nat) := divide_loop k (nat_div_ceil n k) 0 n.

Lemma divide_evenly_run {St} n k (s : St) :
  (0 < k)%nat -> divide_evenly n k s = Done (divide n k, s).
Proof. intros. unfold divide_evenly. by rewrite decide_False by lia. Qed.

Lemma divide_tiles n k : (0 < k)%nat -> tiles 0 n (divide n k).
Proof.
  intros Hk. apply (divide_loop_tiles k _ 0 n).
  - pose proof (nat_div_ceil_bounds n k Hk). lia.
  - by apply nat_div_ceil_zero_iff.
Qed.

#[export] Hint Resolve divide_tiles : rust.

(** [divide_evenly(n, k)] is an even partition: for [k > 0] it returns at most [k]
    non-empty consecutive ranges that cover [0..n] exactly (so the [debug_assert!] on the
    remainder holds), none longer than [ceil(n / k)], and every item is in exactly one. *)
Theorem divide_evenly_partitions {St} n k (s : St) :
  (0 < k)%nat ->
  exists l, divide_evenly n k s = Done (l, s) /\ (length l <= k)%nat /\ tiles 0 n l /\
    (forall x y, (x, y) ∈ l -> (0 < y - x <= nat_div_ceil n k)%nat) /\
    (forall i, (i < n)%nat -> exists! j, exists x y, l !! j = Some (x, y) /\ (x <= i < y)%nat).
Proof.
  intros Hk. exists (divide n k). rewrite divide_evenly_run by done.
  split; [done|]. split; [apply divide_loop_length|]. split; [by apply divide_tiles|]. split.
  - intros x y Hin%divide_loop_chunk. lia.
  - intros i Hi. eapply tiles_unique; [by apply divide_tiles|lia].
Qed.

Lemma divide_evenly_partitions_witness :
  exists l, divide_evenly 10 4 tt = Done (l, tt) /\ (length l <= 4)%nat /\ tiles 0 10 l /\
    (forall x y, (x, y) ∈ l -> (0 < y - x <= nat_div_ceil 10 4)%nat) /\
    (forall i, (i < 10)%nat -> exists! j, exists x y, l !! j = Some (x, y) /\ (x <= i < y)%nat).
Proof. apply (divide_evenly_partitions 10 4 tt). lia. Defined.

(** ** Byte shards *)

(** [ztiles a b l]: the (offset, length) shards of [l] with a positive length are consecutive
    and cover [[a, b)]; the others are [(0, 0)]. *)
Fixpoint ztiles (a b : Z) (l : list (Z * Z)) : Prop :=
  match l with
  | [] => a = b
  | (off, len) :: l =>
      (len = 0 /\ off = 0 /\ ztiles a b l) \/ (0 < len /\ off = a /\ ztiles (a + len) b l)
  end.

Lemma shard_loop_tiles k base total offset :
  0 <= base -> 0 <= offset <= total ->
  ztiles offset (Z.min total (offset + Z.of_nat k * base)) (shard_loop k base total offset).
Proof.
  revert offset. induction k as [|k IH]; intros offset Hb Ho; simpl.
  - lia.
  - case_decide as Hl; simpl.
    + right. split; [lia|]. split; [done|].
      specialize (IH (offset + Z.min base (total - offset)) Hb ltac:(lia)).
      replace (Z.min total (offset + Z.of_nat (S k) * base)) with
        (Z.min total (offset + Z.min base (total - offset) + Z.of_nat k * base)) by nia.
      exact IH.
    + left. split; [done|]. split; [done|].
      specialize (IH offset Hb Ho).
      replace (Z.min total (offset + Z.of_nat (S k) * base)) with
        (Z.min total (offset + Z.of_nat k * base)) by nia.
      exact IH.
Qed.

Lemma shard_loop_length k base total offset : length (shard_loop k base total offset) = k.
Proof.
  revert offset. induction k as [|k IH]; intros; simpl; [done|].
  case_decide; simpl; by rewrite IH.
Qed.

Lemma ztiles_sum a b l : ztiles a b l -> sum_list_Z (snd <$> l) = b - a.
Proof.
  revert a. induction l as [|[off len] l IH]; intros a.
  - intros ->. unfold sum_list_Z; simpl. lia.
  - change (sum_list_Z (snd <$> _ :: l)) with (len + sum_list_Z (snd <$> l)).
    intros [(-> & -> & H%IH)|(? & -> & H%IH)]; rewrite H; lia.
Qed.

Lemma ztiles_nonneg a b l : ztiles a b l -> a <= b.
Proof.
  revert a. induction l as [|[off len] l IH]; simpl; intros a; [lia|].
  intros [(-> & -> & ?%IH)|(? & -> & ?%IH)]; lia.
Qed.

Lemma ztiles_bounds a b l off len :
  ztiles a b l -> (off, len) ∈ l -> (len = 0 /\ off = 0) \/ (0 < len /\ a <= off /\ off + len <= b).
Proof.
  revert a. induction l as [|[off' len'] l IH]; simpl; intros a; [set_solver|].
  intros Ht [Heq|Hin]%elem_of_cons.
  - simplify_eq. destruct Ht as [(-> & -> & Ht)|(? & -> & Ht)]; [by left|right].
    pose proof (ztiles_nonneg _ _ _ Ht). lia.
  - destruct Ht as [(-> & -> & Ht)|(? & -> & Ht)]; pose proof (IH _ Ht Hin); lia.
Qed.

Lemma round_up_bounds v m :
  0 < m -> 0 <= v -> v + m <= 2 ^ 64 -> v <= round_up v m < v + m /\ round_up v m mod m = 0.
Proof.
  intros Hm Hv Hw. unfold round_up, u64_mul. pose proof (div_ceil_bounds v m Hm).
  rewrite wrapu_small by (split; lia). split; [lia|]. apply Z.mod_mul. lia.
Qed.

Lemma round_up_exact v m : 0 < m -> 0 <= v -> v + m <= 2 ^ 64 -> (round_up v m = v <-> v mod m = 0).
Proof.
  intros Hm Hv Hw. destruct (round_up_bounds v m Hm Hv Hw) as [Hb Hd]. split; [congruence|].
  intros Hz. unfold round_up, div_ceil, u64_mul. rewrite decide_True by done.
  rewrite Z.mul_comm, <- Z_div_exact_full_2 by lia. apply wrapu_small. split; lia.
Qed.

(** The bytes a call of [shard_single_transfer] leaves out. *)
Definition dropped_bytes (total : Z) (num_shards : nat) : Z :=
  if decide ((total / Z.of_nat num_shards) mod MIN_SIZE = 0) then total mod Z.of_nat num_shards
  else 0.

Lemma shard_covered total k :
  (0 < k)%nat -> 0 <= total < 2 ^ 63 ->
  Z.min total (Z.of_nat k * round_up (total / Z.of_nat k) MIN_SIZE) =
  total - dropped_bytes total k.
Proof.
  intros Hk Ht. unfold dropped_bytes, MIN_SIZE.
  pose proof (Z.div_mod total (Z.of_nat k) ltac:(lia)) as Hdm.
  pose proof (Z.mod_pos_bound total (Z.of_nat k) ltac:(lia)) as Hmod.
  assert (0 <= total / Z.of_nat k <= total) as Hq
    by (split; [apply Z.div_pos; lia|apply Z.div_le_upper_bound; nia]).
  destruct (round_up_bounds (total / Z.of_nat k) 8192) as [Hb _]; [lia..|].
  pose proof (round_up_exact (total / Z.of_nat k) 8192 ltac:(lia) ltac:(lia) ltac:(lia)) as Hex.
  case_decide as Hd.
  - apply Hex in Hd. rewrite Hd. lia.
  - assert (round_up (total / Z.of_nat k) 8192 <> total / Z.of_nat k) by tauto. nia.
Qed.

Lemma shard_single_run {St} total k (s : St) :
  (0 < k)%nat -> 0 <= total < 2 ^ 63 ->
  exists l, shard_single_transfer total k s = Done (l, s) /\ length l = k /\
    ztiles 0 (total - dropped_bytes total k) l.
Proof.
  intros Hk Ht. unfold shard_single_transfer. rewrite decide_False by lia.
  eexists. split; [done|]. split; [apply shard_loop_length|].
  rewrite <- shard_covered by done. rewrite <- (Z.add_0_l (Z.of_nat k * _)).
  apply shard_loop_tiles; [|lia]. assert (0 <= total / Z.of_nat k <= total)
    by (split; [apply Z.div_pos; lia|apply Z.div_le_upper_bound; nia]).
  destruct (round_up_bounds (total / Z.of_nat k) MIN_SIZE) as [Hb _]; unfold MIN_SIZE in *; lia.
Qed.

(** [shard_single_transfer] splits a write over [num_shards] domains: one shard per domain,
    the non-empty ones disjoint, consecutive from byte 0 and inside the transfer, the empty
    ones at offset 0.  The whole transfer is covered when [num_shards] divides its length or
    the per-shard quotient is not a multiple of [MIN_SIZE]. *)
Theorem shard_single_transfer_covers {St} total k (s : St) :
  (0 < k)%nat -> 0 <= total < 2 ^ 63 ->
  total mod Z.of_nat k = 0 \/ (total / Z.of_nat k) mod MIN_SIZE <> 0 ->
  exists l, shard_single_transfer total k s = Done (l, s) /\ length l = k /\
    ztiles 0 total l /\ sum_list_Z (snd <$> l) = total /\
    (forall off len, (off, len) ∈ l -> 0 <= off /\ 0 <= len /\ off + len <= total).
Proof.
  intros Hk Ht Hd. destruct (shard_single_run total k s Hk Ht) as (l & Hrun & Hlen & Hz).
  replace (total - dropped_bytes total k) with total in Hz
    by (unfold dropped_bytes; case_decide; destruct Hd; lia).
  exists l. split; [done|]. split; [done|]. split; [done|]. split.
  - rewrite (ztiles_sum _ _ _ Hz). lia.
  - intros off len Hin. destruct (ztiles_bounds _ _ _ _ _ Hz Hin); lia.
Qed.

Lemma shard_single_transfer_covers_witness :
  exists l, shard_single_transfer 20000 2 tt = Done (l, tt) /\ length l = 2%nat /\
    ztiles 0 20000 l /\ sum_list_Z (snd <$> l) = 20000 /\
    (forall off len, (off, len) ∈ l -> 0 <= off /\ 0 <= len /\ off + len <= 20000).
Proof. apply (shard_single_transfer_covers 20000 2 tt); [lia|lia|right; done]. Defined.

(** In the remaining case (the quotient [total / num_shards] is a multiple of 8192 and
    the division has a remainder, which includes every transfer of fewer bytes than shards) the
    last [total mod num_shards] bytes are in no shard: the transfer completes without them. *)
Theorem shard_single_transfer_drops_tail {St} total k (s : St) :
  (0 < k)%nat -> 0 <= total < 2 ^ 63 ->
  total mod Z.of_nat k <> 0 -> (total / Z.of_nat k) mod MIN_SIZE = 0 ->
  exists l, shard_single_transfer total k s = Done (l, s) /\
    sum_list_Z (snd <$> l) = total - total mod Z.of_nat k /\
    (forall off len, (off, len) ∈ l -> off + len <= total - total mod Z.of_nat k).
Proof.
  intros Hk Ht Hm Hd. destruct (shard_single_run total k s Hk Ht) as (l & Hrun & Hlen & Hz).
  unfold dropped_bytes in Hz. rewrite decide_True in Hz by done.
  exists l. split; [done|]. split; [rewrite (ztiles_sum _ _ _ Hz); lia|].
  intros off len Hin. destruct (ztiles_bounds _ _ _ _ _ Hz Hin); [|lia].
  pose proof (ztiles_nonneg _ _ _ Hz). lia.
Qed.

Lemma shard_single_transfer_drops_tail_witness :
  exists l, shard_single_transfer 16385 2 tt = Done (l, tt) /\
    sum_list_Z (snd <$> l) = 16385 - 16385 mod Z.of_nat 2 /\
    (forall off len, (off, len) ∈ l -> off + len <= 16385 - 16385 mod Z.of_nat 2).
Proof. apply (shard_single_transfer_drops_tail 16385 2 tt); [lia|lia|done|done]. Defined.
