(* ===== verification/Provider.v ===== *)
(** * The provider interface

    The trait [RdmaDomain] of [fabric-lib/src/provider.rs]: what a [DomainGroup] asks of one
    NIC.  [RdmaDomain] lists the trait's methods; [RdmaDomainLaws] states what the group relies
    on, and the providers' files discharge it. *)
From stdpp Require Import prelude gmap strings list.
From S2P Require Import Prelude Api ImmCount.
Local Open Scope Z_scope.

(** Methods that take [&mut self] are [M D]; [poll_progress] also increments the counters of
    the [Arc<ImmCountMap>] the domain was opened with. *)
Class RdmaDomain (D : Type) := {
  link_speed : D -> Z;
  addr : D -> DomainAddress;
  register_mr_local : MemoryRegion -> M D (res unit);
  register_mr_allow_remote : MemoryRegion -> M D (res MemoryRegionRemoteKey);
  unregister_mr : Z -> M D unit;
  get_mem_desc : Z -> D -> res MemoryRegionLocalDescriptor;
  submit_recv : TransferId -> RecvOp -> M D unit;
  submit_send : TransferId -> DomainAddress -> SendOp -> M D unit;
  submit_write : TransferId -> DomainAddress -> WriteOp -> M D unit;
  add_peer_group : PeerGroupHandle -> list DomainAddress -> M D (res unit);
  submit_group_write : TransferId -> option PeerGroupHandle -> GroupWriteOp -> M D unit;
  poll_progress : M (Shared * D) unit;
  get_completion : M D (option DomainCompletionEntry);
}.

(** The contract: [get_completion] pops a queue, and submitting a write does not change the
    local descriptors. *)
Class RdmaDomainLaws (D : Type) `{RdmaDomain D} := {
  completions_of : D -> list DomainCompletionEntry;
  get_completion_pops : forall d,
    match completions_of d with
    | [] => get_completion d = Done (None, d)
    | c :: cs => exists d', get_completion d = Done (Some c, d') /\ completions_of d' = cs
    end;
  submit_write_mem_desc : forall tid a op d d' p,
    submit_write tid a op d = Done (tt, d') -> get_mem_desc p d' = get_mem_desc p d;
}.

(** What the completions of one fully posted write make a domain report: [rs] has the outcome of
    each message in the order they complete, [b] says that an error was reported before.  Both
    providers report the first error only, and the transfer when the last message completes
    successfully. *)
Fixpoint write_reports (tid : TransferId) (b : bool) (rs : list (option FabricLibError)) :
    list DomainCompletionEntry :=
  match rs with
  | [] => []
  | None :: rest => match rest with [] => [DcTransfer tid] | _ => [] end ++ write_reports tid b rest
  | Some e :: rest => (if b then [] else [DcError tid e]) ++ write_reports tid true rest
  end.

Definition is_error (c : DomainCompletionEntry) : bool :=
  match c with DcError _ _ => true | _ => false end.

Lemma write_reports_success tid rs :
  rs <> [] -> Forall (fun r => r = None) rs -> write_reports tid false rs = [DcTransfer tid].
Proof.
  intros Hne. induction 1 as [|r rs -> Hall IH]; [done|]. simpl. destruct rs; [done|]. by apply IH.
Qed.

Lemma write_reports_errors tid b rs :
  length (filter is_error (write_reports tid b rs)) =
  if b then 0%nat else if decide (Forall (fun r => r = None) rs) then 0%nat else 1%nat.
Proof.
  revert b. induction rs as [|[e|] rs IH]; intros b; cbn [write_reports]; [by destruct b|..];
    rewrite filter_app, length_app, IH.
  - destruct b; [done|]. rewrite decide_False; [done|]. intros Hf. inversion Hf. done.
  - assert (filter is_error (match rs with [] => [DcTransfer tid] | _ :: _ => [] end) = []) as ->
      by (by destruct rs). simpl. destruct b; [done|].
    destruct (decide (Forall _ rs)) as [Hf|Hf]; destruct (decide (Forall _ (None :: rs))) as [Hf'|Hf'];
      try done; exfalso; [apply Hf'; by constructor|inversion Hf'; done].
Qed.
