(* ===== verification/DomainGroup.v ===== *)
(** * Domain groups

    [fabric-lib/src/domain_group.rs]: the [N] domains (NICs) of one GPU.  A transfer request
    is sharded over the domains, and its completion is reported when every domain that took
    part has completed.  The file is generic in the domain, as the source is: definitions use
    the class [RdmaDomain] and the theorems its laws. *)
From stdpp Require Import prelude gmap strings list.
From S2P Require Import Prelude Api ImmCount Sharding Provider.
Local Open Scope Z_scope.

Record WriteOpContext := {
  num_used_domains : nat;
  cnt_domain_completion : nat;
  woc_tx_counter : option TransferCounter;
}.

Record PeerGroup := { pg_addrs : list (list DomainAddress) }.

Record DomainGroup (D : Type) := {
  domains : list D;
  write_ops : gmap Z WriteOpContext;
  rr_next : nat;
  next_peer_group_handle : Z;
  peer_groups : gmap Z PeerGroup;
}.
Arguments domains {D}.
Arguments write_ops {D}.
Arguments rr_next {D}.
Arguments next_peer_group_handle {D}.
Arguments peer_groups {D}.
Arguments Build_DomainGroup {D}.

Section Operations.
Context {D : Type} `{RdmaDomain D}.
Implicit Types g : DomainGroup D.

Definition new (ds : list D) : DomainGroup D :=
  {| domains := ds; write_ops := ∅; rr_next := 0; next_peer_group_handle := 0;
     peer_groups := ∅ |}.

Definition set_domains (ds : list D) g : DomainGroup D :=
  Build_DomainGroup ds (write_ops g) (rr_next g) (next_peer_group_handle g) (peer_groups g).
Definition set_write_ops (w : gmap Z WriteOpContext) g : DomainGroup D :=
  Build_DomainGroup (domains g) w (rr_next g) (next_peer_group_handle g) (peer_groups g).
Definition set_rr_next (i : nat) g : DomainGroup D :=
  Build_DomainGroup (domains g) (write_ops g) i (next_peer_group_handle g) (peer_groups g).
Definition set_peer_groups (h : Z) (p : gmap Z PeerGroup) g : DomainGroup D :=
  Build_DomainGroup (domains g) (write_ops g) (rr_next g) h p.

(** [&mut self.domains[i]]. *)
Definition on_domain {A} (i : nat) (m : M D A) : M (DomainGroup D) A := fun g =>
  match domains g !! i with
  | None => Panic "index out of bounds"
  | Some d =>
      match m d with
      | Done (a, d') => Done (a, set_domains (<[i := d']> (domains g)) g)
      | Panic why => Panic why
      | OutOfFuel => OutOfFuel
      end
  end.

(** [self.domains.iter_mut()]: the indices of the array. *)
Definition indices g : list nat := seq 0 (length (domains g)).

Definition num_domains : M (DomainGroup D) nat := gets (fun g => length (domains g)).

Definition insert_write_op (tid : TransferId) (ctx : WriteOpContext) : M (DomainGroup D) unit :=
  modify (fun g => set_write_ops (<[tid := ctx]> (write_ops g)) g).

(** [WriteOpContext { num_used_domains: n, cnt_domain_completion: 0, tx_counter }]. *)
Definition new_ctx (n : nat) (tx : option TransferCounter) : WriteOpContext :=
  {| num_used_domains := n; cnt_domain_completion := 0; woc_tx_counter := tx |}.

Definition aggregate_link_speed g : Z :=
  foldl u64_add 0 (link_speed <$> domains g).

Definition group_register_mr_allow_remote (region : MemoryRegion) :
    M (DomainGroup D) (res (MemoryRegionHandle * MemoryRegionDescriptor)) :=
  let! idx := gets indices in
  let? addr_rkey_list := try_map idx (fun i => on_domain i (
    let? rkey := register_mr_allow_remote region in
    gets (fun d => Ok (addr d, rkey)))) in
  ret (Ok (mr_ptr region,
    {| mrd_ptr := mr_ptr region; addr_rkey_list := addr_rkey_list |})).

Definition group_register_mr_local (region : MemoryRegion) :
    M (DomainGroup D) (res MemoryRegionHandle) :=
  let! idx := gets indices in
  let? _ := try_for_each idx (fun i => on_domain i (register_mr_local region)) in
  ret (Ok (mr_ptr region)).

Definition group_unregister_mr (ptr : Z) : M (DomainGroup D) unit :=
  let! idx := gets indices in
  for_each idx (fun i => on_domain i (unregister_mr ptr)).

(** The iteration order of the [HashMap] is that of [map_to_list]. *)
Definition find_peer_group (addrs : list (list DomainAddress)) g : option Z :=
  match list_find (fun hg => pg_addrs hg.2 = addrs) (map_to_list (peer_groups g)) with
  | Some (_, (handle, _)) => Some handle
  | None => None
  end.

Definition group_add_peer_group (addrs : list (list DomainAddress)) :
    M (DomainGroup D) (res PeerGroupHandle) :=
  let! found := gets (find_peer_group addrs) in
  match found with
  | Some handle => ret (Ok handle)
  | None =>
      let! handle := gets next_peer_group_handle in
      modify (fun g => set_peer_groups (u32_add handle 1)
                (<[handle := {| pg_addrs := addrs |}]> (peer_groups g)) g) ;;;
      let! idx := gets indices in
      let? _ := try_for_each idx (fun i =>
        let! domain_addrs := unwrap (mapM (fun a => a !! i) addrs) "index out of bounds" in
        on_domain i (add_peer_group handle domain_addrs)) in
      ret (Ok handle)
  end.

(** ** Immediate and barrier requests *)
Definition mismatch {A} : res A :=
  Err (Custom "Number of target addresses must match the number of domains").

Definition submit_imm_to (tid : TransferId) (imm_data : Z) (i dom : nat)
    (dst_mr : MemoryRegionDescriptor) : M (DomainGroup D) unit :=
  let! dst := unwrap (addr_rkey_list dst_mr !! i) "index out of bounds" in
  on_domain dom (submit_write tid dst.1
    (WImm {| iw_imm_data := imm_data; iw_dst_ptr := mrd_ptr dst_mr; iw_dst_rkey := dst.2 |})).

Definition submit_imm_transfer_request (tid : TransferId) (imm_data : Z)
    (dst_mrs : list MemoryRegionDescriptor) (domain : DomainGroupRouting)
    (tx : option TransferCounter) : M (DomainGroup D) (res unit) :=
  let! n := num_domains in
  if negb (forallb (fun mr => length (addr_rkey_list mr) =? n)%nat dst_mrs) then ret mismatch else
  insert_write_op tid (new_ctx (length dst_mrs) tx) ;;;
  let? routing :=
    match domain with
    | RoundRobinSharded num_shards =>
        if negb (num_shards =? 1) then
          ret (Err (Custom "DomainGroupRouting::RoundRobinSharded should have num_shards = 1 for BarrierTransferRequest"))
        else
          let! first_domain := gets rr_next in
          let! rr := usize_rem (first_domain + Nat.min n (length dst_mrs)) n in
          modify (set_rr_next rr) ;;;
          ret (Ok (first_domain, nat_div_ceil (length dst_mrs) n))
    | Pinned domain_idx =>
        if Z.of_nat n <=? domain_idx then
          ret (Err (Custom "DomainGroupRouting::Pinned.domain_idx is out of bounds"))
        else ret (Ok (Z.to_nat domain_idx, length dst_mrs))
    end in
  let! parts := chunks routing.2 dst_mrs in
  for_each (enumerate parts) (fun '(i, part) =>
    let! dom := usize_rem (routing.1 + i) n in
    for_each part (submit_imm_to tid imm_data i dom)) ;;;
  ret (Ok tt).

(** ** Single requests *)

(** [let ret = self.rr_next; self.rr_next = (self.rr_next + 1) % N; ret]. *)
Definition next_rr (n : nat) : M (DomainGroup D) nat :=
  let! i := gets rr_next in
  let! rr := usize_rem (i + 1) n in
  modify (set_rr_next rr) ;;; ret i.

Definition domain_mem_desc (i : nat) (ptr : Z) : M (DomainGroup D) (res Z) :=
  on_domain i (gets (get_mem_desc ptr)).

Definition build_single_op (r : SingleTransferRequest) (n : nat) (range : Z * Z) :
    M (DomainGroup D) (res (WriteOp * DomainAddress)) :=
  let! i := match sr_domain r with
            | RoundRobinSharded _ => next_rr n
            | Pinned domain_idx => ret (Z.to_nat domain_idx)
            end in
  let! dst := unwrap (addr_rkey_list (sr_dst_mr r) !! i) "index out of bounds" in
  let? src_desc := domain_mem_desc i (sr_src_mr r) in
  ret (Ok (WSingle {|
    sw_src_ptr := sr_src_mr r; sw_src_desc := src_desc;
    sw_src_offset := u64_add (sr_src_offset r) range.1;
    sw_length := range.2; sw_imm_data := sr_imm_data r;
    sw_dst_ptr := mrd_ptr (sr_dst_mr r); sw_dst_rkey := dst.2;
    sw_dst_offset := u64_add (sr_dst_offset r) range.1 |}, dst.1)).

Definition submit_single_transfer_request (tid : TransferId) (r : SingleTransferRequest)
    (tx : option TransferCounter) : M (DomainGroup D) (res unit) :=
  let! n := num_domains in
  if negb (length (addr_rkey_list (sr_dst_mr r)) =? n)%nat then ret mismatch else
  let? num_shards :=
    match sr_domain r with
    | RoundRobinSharded num_shards =>
        if Z.of_nat n <? num_shards then
          ret (Err (Custom "DomainGroupRouting::RoundRobinSharded.num_shards is greater than the number of domains"))
        else ret (Ok (Z.to_nat num_shards))
    | Pinned domain_idx =>
        if Z.of_nat n <=? domain_idx then
          ret (Err (Custom "DomainGroupRouting::Pinned.domain_idx is out of bounds"))
        else ret (Ok 1%nat)
    end in
  let! ranges := shard_single_transfer (sr_length r) num_shards in
  let? rdma_ops := try_map ranges (build_single_op r n) in
  insert_write_op tid (new_ctx (length rdma_ops) tx) ;;;
  for_each (zip (seq 0 n) rdma_ops) (fun '(k, (rdma_op, dst_addr)) =>
    on_domain k (submit_write tid dst_addr rdma_op)) ;;;
  ret (Ok tt).

(** ** Paged requests *)
Definition paged_op (r : PagedTransferRequest) (range : nat * nat) (src_desc rkey : Z) : WriteOp :=
  WPaged {|
    pw_src_page_indices := pr_src_page_indices r; pw_dst_page_indices := pr_dst_page_indices r;
    pw_page_indices_beg := range.1; pw_page_indices_end := range.2;
    pw_length := pr_length r;
    pw_src_ptr := pr_src_mr r; pw_src_desc := src_desc;
    pw_src_stride := pr_src_stride r; pw_src_offset := pr_src_offset r;
    pw_dst_ptr := mrd_ptr (pr_dst_mr r); pw_dst_rkey := rkey;
    pw_dst_stride := pr_dst_stride r; pw_dst_offset := pr_dst_offset r;
    pw_imm_data := pr_imm_data r |}.

Definition submit_page_range (tid : TransferId) (r : PagedTransferRequest) (n : nat)
    (range : nat * nat) : M (DomainGroup D) (res unit) :=
  let! i := next_rr n in
  let! dst := unwrap (addr_rkey_list (pr_dst_mr r) !! i) "index out of bounds" in
  let? src_desc := domain_mem_desc i (pr_src_mr r) in
  on_domain i (submit_write tid dst.1 (paged_op r range src_desc dst.2)) ;;;
  ret (Ok tt).

Definition submit_paged_transfer_request (tid : TransferId) (r : PagedTransferRequest)
    (tx : option TransferCounter) : M (DomainGroup D) (res unit) :=
  let! n := num_domains in
  if negb (length (addr_rkey_list (pr_dst_mr r)) =? n)%nat then ret mismatch else
  if negb (length (pr_src_page_indices r) =? length (pr_dst_page_indices r))%nat then
    ret (Err (Custom "Length of source and destination page indices must match"))
  else
  let! page_range := divide_evenly (length (pr_src_page_indices r)) n in
  insert_write_op tid (new_ctx (length page_range) tx) ;;;
  try_for_each page_range (submit_page_range tid r n).

(** ** Scatter requests *)
Definition scatter_op (r : ScatterTransferRequest) (i : nat) (src_desc : Z) (beg end_ : nat)
    (byte_shards byte_shard_idx : Z) : GroupWriteOp :=
  GScatter {|
    sg_domain_idx := i; sg_src_ptr := xr_src_mr r; sg_src_desc := src_desc;
    sg_imm_data := xr_imm_data r; sg_dsts := xr_dsts r;
    sg_dst_beg := beg; sg_dst_end := end_;
    sg_byte_shards := byte_shards; sg_byte_shard_idx := byte_shard_idx |}.

Definition build_scatter_ops (r : ScatterTransferRequest) (n : nat) :
    M (DomainGroup D) (res (list (nat * GroupWriteOp))) :=
  let op_for (i beg end_ : nat) (shards idx : Z) : M (DomainGroup D) (res (nat * GroupWriteOp)) :=
    let? src_desc := domain_mem_desc i (xr_src_mr r) in
    ret (Ok (i, scatter_op r i src_desc beg end_ shards idx)) in
  match xr_domain r with
  | AllDomainsShardPeers =>
      let! dst_range := divide_evenly (length (xr_dsts r)) n in
      try_map (zip (seq 0 n) dst_range) (fun '(i, (beg, end_)) => op_for i beg end_ 1 0)
  | AllDomainsShardBytes =>
      try_map (seq 0 n) (fun i =>
        op_for i 0%nat (length (xr_dsts r)) (as_u32 (Z.of_nat n)) (as_u32 (Z.of_nat i)))
  | SingleDomain domain_idx =>
      try_map [Z.to_nat domain_idx] (fun i => op_for i 0%nat (length (xr_dsts r)) 1 0)
  end.

Definition check_peer_group (r : ScatterTransferRequest) g : res unit :=
  match xr_dst_handle r with
  | None => Ok tt
  | Some dst_handle =>
      match peer_groups g !! dst_handle with
      | None => Err (Custom "PeerGroupHandle not found")
      | Some group =>
          if negb (length (xr_dsts r) =? length (pg_addrs group))%nat then
            Err (Custom "Number of scatter targets must match the number of peer group addresses")
          else Ok tt
      end
  end.

Definition submit_scatter_transfer_request (tid : TransferId) (r : ScatterTransferRequest)
    (tx : option TransferCounter) : M (DomainGroup D) (res unit) :=
  if (length (xr_dsts r) =? 0)%nat then ret (Err (Custom "Empty scatter targets")) else
  let? _ := gets (check_peer_group r) in
  let! n := num_domains in
  let? rdma_ops := build_scatter_ops r n in
  insert_write_op tid (new_ctx (length rdma_ops) tx) ;;;
  for_each rdma_ops (fun '(i, rdma_op) =>
    on_domain i (submit_group_write tid (xr_dst_handle r) rdma_op)) ;;;
  ret (Ok tt).

Definition submit_transfer_request (tid : TransferId) (request : TransferRequest)
    (tx : option TransferCounter) : M (DomainGroup D) (res unit) :=
  match request with
  | ReqImm r => submit_imm_transfer_request tid (ir_imm_data r) [ir_dst_mr r] (ir_domain r) tx
  | ReqBarrier r => submit_imm_transfer_request tid (br_imm_data r) (br_dst_mrs r) (br_domain r) tx
  | ReqSingle r => submit_single_transfer_request tid r tx
  | ReqPaged r => submit_paged_transfer_request tid r tx
  | ReqScatter r => submit_scatter_transfer_request tid r tx
  end.

(** ** Send, receive and progress *)
Definition group_submit_send (tid : TransferId) (mr ptr len : Z) (dest : DomainAddress) :
    M (DomainGroup D) (res unit) :=
  let? desc := domain_mem_desc 0 mr in
  on_domain 0 (submit_send tid dest {| so_ptr := ptr; so_len := len; so_desc := desc |}) ;;;
  ret (Ok tt).

Definition group_submit_recv (tid : TransferId) (mr ptr len : Z) : M (DomainGroup D) (res unit) :=
  let? desc := domain_mem_desc 0 mr in
  on_domain 0 (submit_recv tid {| ro_ptr := ptr; ro_len := len; ro_desc := desc |}) ;;;
  ret (Ok tt).

(** Methods that also touch the shared counters. *)
Definition on_group {A} (m : M (DomainGroup D) A) : M (Shared * DomainGroup D) A :=
  on_state snd (fun g s => (s.1, g)) m.
Definition on_counters (m : M Heap unit) : M (Shared * DomainGroup D) unit :=
  on_state fst (fun sh s => (sh, s.2)) (on_heap m).

Definition group_poll_progress : M (Shared * DomainGroup D) unit := fun s =>
  for_each (indices s.2) (fun i s =>
    match domains s.2 !! i with
    | None => Panic "index out of bounds"
    | Some d =>
        match poll_progress (s.1, d) with
        | Done (_, (sh, d')) => Done (tt, (sh, set_domains (<[i := d']> (domains s.2)) s.2))
        | Panic why => Panic why
        | OutOfFuel => OutOfFuel
        end
    end) s.

(** The body of the loop for one entry: [Some r] returns [r], [None] goes to the next
    domain. *)
Definition dispatch_completion (c : DomainCompletionEntry) :
    M (Shared * DomainGroup D) (option (option DomainCompletionEntry)) :=
  match c with
  | DcError tid err =>
      let! ctx := gets (fun s => write_ops s.2 !! tid) in
      modify (fun s => (s.1, set_write_ops (delete tid (write_ops s.2)) s.2)) ;;;
      match ctx with
      | Some ctx =>
          match woc_tx_counter ctx with Some tx => on_counters (tx_error tx) | None => ret tt end
      | None => ret tt
      end ;;;
      ret (Some (Some (DcError tid err)))
  | DcTransfer tid =>
      let! ctx := gets (fun s => write_ops s.2 !! tid) in
      match ctx with
      | None => ret None
      | Some ctx =>
          let cnt := S (cnt_domain_completion ctx) in
          if (num_used_domains ctx =? cnt)%nat then
            modify (fun s => (s.1, set_write_ops (delete tid (write_ops s.2)) s.2)) ;;;
            match woc_tx_counter ctx with
            | Some tx => on_counters (tx_done tx) ;;; ret (Some None)
            | None => ret (Some (Some (DcTransfer tid)))
            end
          else
            modify (fun s => (s.1, set_write_ops (<[tid := {|
              num_used_domains := num_used_domains ctx; cnt_domain_completion := cnt;
              woc_tx_counter := woc_tx_counter ctx |}]> (write_ops s.2)) s.2)) ;;;
            ret None
      end
  | DcImmData imm => ret (Some (Some (DcImmData imm)))
  | DcRecv tid len => ret (Some (Some (DcRecv tid len)))
  | DcSend tid => ret (Some (Some (DcSend tid)))
  | DcImmCountReached imm => ret (Some (Some (DcImmCountReached imm)))
  end.

Fixpoint get_completion_from (idx : list nat) :
    M (Shared * DomainGroup D) (option DomainCompletionEntry) :=
  match idx with
  | [] => ret None
  | i :: idx =>
      let! c := on_group (on_domain i get_completion) in
      match c with
      | None => get_completion_from idx
      | Some c =>
          let! r := dispatch_completion c in
          match r with Some r => ret r | None => get_completion_from idx end
      end
  end.

Definition group_get_completion : M (Shared * DomainGroup D) (option DomainCompletionEntry) :=
  let! idx := gets (fun s => indices s.2) in get_completion_from idx.

End Operations.
