(* ===== verification/DomainGroupSpec.v ===== *)
(** * Correctness of domain groups

    The invariant of [DomainGroup] and its preservation; the abstract completion tracker the
    group refines; the write plan of each request kind. *)
From stdpp Require Import prelude gmap strings list.
From S2P Require Import Prelude Api ImmCount Sharding Provider DomainGroup.
Local Open Scope Z_scope.

(** ** The invariant *)
Definition ctx_wf (c : WriteOpContext) : Prop :=
  (cnt_domain_completion c < num_used_domains c)%nat \/ num_used_domains c = 0%nat.

Record group_wf {D} (n : nat) (g : DomainGroup D) : Prop := {
  wf_domains : length (domains g) = n;
  wf_rr : (rr_next g < n)%nat;
  wf_ctxs : map_Forall (fun _ c => ctx_wf c) (write_ops g);
}.

Section Invariant.
Context {D : Type} `{RdmaDomain D}.
Implicit Types g : DomainGroup D.

Lemma new_wf (ds : list D) : ds <> [] -> group_wf (length ds) (new ds).
Proof.
  intros Hds. split; simpl; [done| |apply map_Forall_empty].
  destruct ds; [done|simpl; lia].
Qed.

Lemma on_domain_wf {A} n i (m : M D A) : keeps (group_wf n) (on_domain i m).
Proof.
  intros g a g' Hrun [? ? ?]. unfold on_domain in Hrun.
  destruct (domains g !! i); [|done]. destruct (m d) as [[a' d']| |]; simplify_eq.
  split; simpl; [by rewrite length_insert|done..].
Qed.

Lemma insert_write_op_wf n tid k tx : keeps (group_wf n) (insert_write_op (D:=D) tid (new_ctx k tx)).
Proof.
  apply keeps_modify. intros g [? ? ?]. split; simpl; [done..|].
  apply map_Forall_insert_2; [|done]. unfold ctx_wf; simpl. lia.
Qed.

Lemma num_domains_wf {A} n (k : nat -> M (DomainGroup D) A) :
  keeps (group_wf n) (k n) -> keeps (group_wf n) (bind num_domains k).
Proof. intros Hk s a s' Hrun Hwf. cbv [bind num_domains gets] in Hrun. rewrite (wf_domains _ _ Hwf) in Hrun. by eapply Hk. Qed.

Lemma set_rr_wf {A} n x (k : nat -> M (DomainGroup D) A) :
  (forall rr, (rr < n)%nat -> keeps (group_wf n) (k rr)) ->
  keeps (group_wf n) (let! rr := usize_rem x n in k rr).
Proof.
  intros Hk s a s' Hrun Hwf. cbv [bind usize_rem] in Hrun. case_decide; [done|].
  cbv [ret] in Hrun. eapply Hk; [|done..]. by apply Nat.mod_upper_bound.
Qed.

Lemma modify_rr_wf n rr : (rr < n)%nat -> keeps (group_wf n) (modify (set_rr_next (D:=D) rr)).
Proof. intros ?. apply keeps_modify. intros g [? ? ?]. by split. Qed.

Lemma next_rr_wf n : keeps (group_wf n) (next_rr (D:=D) n).
Proof.
  unfold next_rr. apply keeps_bind; [auto with keeps|]. intros i. apply set_rr_wf. intros rr Hrr.
  apply keeps_bind; [by apply modify_rr_wf|auto with keeps].
Qed.

Lemma divide_evenly_wf n a b : keeps (S := DomainGroup D) (group_wf n) (divide_evenly a b).
Proof. unfold divide_evenly. keeps_step. Qed.

Lemma shard_single_wf n a b : keeps (S := DomainGroup D) (group_wf n) (shard_single_transfer a b).
Proof. unfold shard_single_transfer. keeps_step. Qed.

Hint Resolve on_domain_wf insert_write_op_wf next_rr_wf modify_rr_wf divide_evenly_wf
  shard_single_wf : keeps.

Lemma imm_wf n tid imm mrs dom tx :
  keeps (group_wf n) (submit_imm_transfer_request (D:=D) tid imm mrs dom tx).
Proof.
  unfold submit_imm_transfer_request, submit_imm_to. apply num_domains_wf.
  destruct (negb _); [auto with keeps|]. apply keeps_bind; [auto with keeps|]. intros _.
  apply keeps_bind_res; [|keeps_step].
  destruct dom; [|keeps_step]. destruct (negb _); [auto with keeps|].
  apply keeps_bind; [auto with keeps|]. intros fd. apply set_rr_wf. keeps_step.
Qed.

Lemma single_wf n tid r tx : keeps (group_wf n) (submit_single_transfer_request (D:=D) tid r tx).
Proof.
  unfold submit_single_transfer_request, build_single_op, domain_mem_desc.
  apply num_domains_wf. keeps_step.
Qed.

Lemma paged_wf n tid r tx : keeps (group_wf n) (submit_paged_transfer_request (D:=D) tid r tx).
Proof.
  unfold submit_paged_transfer_request, submit_page_range, domain_mem_desc.
  apply num_domains_wf. keeps_step.
Qed.

Lemma scatter_wf n tid r tx : keeps (group_wf n) (submit_scatter_transfer_request (D:=D) tid r tx).
Proof.
  unfold submit_scatter_transfer_request, build_scatter_ops, domain_mem_desc, num_domains.
  keeps_step.
Qed.

Lemma submit_wf n tid r tx : keeps (group_wf n) (submit_transfer_request (D:=D) tid r tx).
Proof. destruct r; simpl; [apply imm_wf|apply single_wf|apply paged_wf|apply scatter_wf|apply imm_wf]. Qed.

Lemma add_peer_group_wf n addrs : keeps (group_wf n) (group_add_peer_group (D:=D) addrs).
Proof.
  unfold group_add_peer_group.
  assert (forall h p, keeps (group_wf n) (modify (fun g : DomainGroup D =>
    set_peer_groups h (p g) g))) by (intros; apply keeps_modify; intros g []; by split).
  keeps_step.
Qed.

(** Every public method of the group, with the result dropped. *)
Inductive group_op : Type :=
  | GSubmit (tid : Z) (r : TransferRequest) (tx : option TransferCounter)
  | GSend (tid mr ptr len : Z) (dest : DomainAddress)
  | GRecv (tid mr ptr len : Z)
  | GRegisterLocal (region : MemoryRegion)
  | GRegisterRemote (region : MemoryRegion)
  | GUnregister (ptr : Z)
  | GAddPeerGroup (addrs : list (list DomainAddress))
  | GPoll
  | GGetCompletion.

Definition exec_group_op (o : group_op) : M (Shared * DomainGroup D) unit :=
  match o with
  | GSubmit tid r tx => on_group (submit_transfer_request tid r tx) ;;; ret tt
  | GSend tid mr ptr len dest => on_group (group_submit_send tid mr ptr len dest) ;;; ret tt
  | GRecv tid mr ptr len => on_group (group_submit_recv tid mr ptr len) ;;; ret tt
  | GRegisterLocal region => on_group (group_register_mr_local region) ;;; ret tt
  | GRegisterRemote region => on_group (group_register_mr_allow_remote region) ;;; ret tt
  | GUnregister ptr => on_group (group_unregister_mr ptr)
  | GAddPeerGroup addrs => on_group (group_add_peer_group addrs) ;;; ret tt
  | GPoll => group_poll_progress
  | GGetCompletion => group_get_completion ;;; ret tt
  end.

Lemma on_group_keeps {A} (P : DomainGroup D -> Prop) (m : M (DomainGroup D) A) :
  keeps P m -> keeps (fun s => P s.2) (on_group m).
Proof.
  intros Hm [sh g] a [sh' g'] Hrun. cbv [on_group on_state] in Hrun. simpl in *.
  destruct (m g) as [[a' g1]| |] eqn:E; simplify_eq. by eapply Hm.
Qed.

Lemma on_counters_keeps (P : DomainGroup D -> Prop) m : keeps (fun s => P s.2) (on_counters m).
Proof.
  intros [sh g] a [sh' g'] Hrun. cbv [on_counters on_state] in Hrun. simpl in *.
  destruct (on_heap m sh) as [[a' g1]| |] eqn:E; by simplify_eq.
Qed.

Lemma poll_wf n : keeps (fun s => group_wf n s.2) (group_poll_progress (D:=D)).
Proof.
  intros s a s' Hrun. unfold group_poll_progress in Hrun.
  revert a s' Hrun. generalize (indices s.2). intros l a s' Hrun. revert s a s' Hrun.
  apply keeps_for_each. intros i _ [sh g] a s' Hrun [? ? ?]. simpl in *.
  destruct (domains g !! i); [|done].
  destruct (poll_progress (sh, d)) as [[? [? ?]]| |]; simplify_eq.
  split; simpl; [by rewrite length_insert|done..].
Qed.

Lemma dispatch_wf n c : keeps (fun s => group_wf n s.2) (dispatch_completion (D:=D) c).
Proof.
  destruct c as [ | |tid| | |tid err]; simpl; try (by auto with keeps).
  - intros s a s' Hrun Hwf. cbv [bind gets] in Hrun.
    destruct (write_ops s.2 !! tid) as [ctx|] eqn:Hctx; [|cbv [ret] in Hrun; by simplify_eq].
    destruct Hwf as [? ? Hctxs]. case_match eqn:Hcnt; revert Hrun.
    + intros Hrun. cbv [modify] in Hrun.
      assert (group_wf n (set_write_ops (delete tid (write_ops s.2)) s.2)) as Hwf'.
      { split; simpl; [done..|]. by apply map_Forall_delete. }
      destruct (woc_tx_counter ctx); [|cbv [ret] in Hrun; by simplify_eq].
      eapply (keeps_bind (fun s => group_wf n s.2) (on_counters (tx_done t))
        (fun _ => ret (Some None)) (on_counters_keeps _ _) (fun _ => keeps_ret _ _) (s.1, set_write_ops (delete tid (write_ops s.2)) s.2));
        [exact Hrun|done].
    + cbv [modify ret]. intros. simplify_eq. split; simpl; [done..|].
      apply map_Forall_insert_2; [|done]. apply Hctxs in Hctx. unfold ctx_wf in *; simpl in *.
      apply Nat.eqb_neq in Hcnt. lia.
  - apply keeps_bind; [auto with keeps|]. intros ctx. apply keeps_bind.
    + apply keeps_modify. intros s [? ? ?]. split; simpl; [done..|]. by apply map_Forall_delete.
    + intros _. apply keeps_bind; [|auto with keeps].
      destruct ctx as [ctx|]; [|auto with keeps].
      destruct (woc_tx_counter ctx); [apply on_counters_keeps|auto with keeps].
Qed.

Lemma get_completion_wf n : keeps (fun s => group_wf n s.2) (group_get_completion (D:=D)).
Proof.
  unfold group_get_completion. apply keeps_bind; [auto with keeps|]. intros idx.
  induction idx as [|i idx IH]; simpl; [auto with keeps|].
  apply keeps_bind; [apply on_group_keeps, on_domain_wf|]. intros [c|]; [|done].
  apply keeps_bind; [apply dispatch_wf|]. intros [r|]; [auto with keeps|done].
Qed.

Lemma exec_group_op_wf n o : keeps (fun s => group_wf n s.2) (exec_group_op o).
Proof.
  destruct o; unfold exec_group_op; try apply keeps_bind; intros; try apply on_group_keeps;
    auto using submit_wf, add_peer_group_wf, poll_wf, get_completion_wf with keeps.
  all: unfold group_submit_send, group_submit_recv, domain_mem_desc, group_register_mr_local,
    group_register_mr_allow_remote, group_unregister_mr; keeps_step.
Qed.

(** ** Transfers over no domain

    A paged request without pages and a barrier without targets are recorded as waiting for zero
    domains. *)
Definition covers_nothing (r : TransferRequest) : Prop :=
  match r with
  | ReqPaged r => pr_src_page_indices r = []
  | ReqBarrier r => br_dst_mrs r = []
  | _ => False
  end.

(** The pending transfers over no domain are among [zs]. *)
Definition empty_among (zs : TransferId -> Prop) g : Prop :=
  forall tid ctx, write_ops g !! tid = Some ctx -> num_used_domains ctx = 0%nat -> zs tid.

Section Empty.
Context (zs : TransferId -> Prop).

Definition empty_inv g : Prop := (0 < length (domains g))%nat /\ empty_among zs g.

Lemma insert_empty tid k tx : (k = 0%nat -> zs tid) -> keeps empty_inv (insert_write_op (D:=D) tid (new_ctx k tx)).
Proof.
  intros Hk. apply keeps_modify. intros g [Hl He]. split; [done|]. intros tid' ctx. simpl.
  rewrite lookup_insert. case_decide; [intros; simplify_eq; by apply Hk|apply He].
Qed.

Lemma on_domain_empty {A} i (m : M D A) : keeps empty_inv (on_domain i m).
Proof.
  intros g a g' Hrun [Hl He]. unfold on_domain in Hrun. destruct (domains g !! i); [|done].
  destruct (m d) as [[? ?]| |]; simplify_eq. split; simpl; [by rewrite length_insert|done].
Qed.

Lemma modify_rr_empty rr : keeps empty_inv (modify (set_rr_next (D:=D) rr)).
Proof. by apply keeps_modify. Qed.

Lemma num_domains_empty {A} (k : nat -> M (DomainGroup D) A) :
  (forall n, (0 < n)%nat -> keeps empty_inv (k n)) -> keeps empty_inv (bind num_domains k).
Proof. intros Hk g a g' Hrun HP. cbv [bind num_domains gets] in Hrun. by eapply (Hk (length (domains g))); [apply HP|..]. Qed.

Lemma try_map_length {St E A B} (l : list A) (body : A -> M St (result E B)) s ys s' :
  try_map l body s = Done (Ok ys, s') -> length ys = length l.
Proof.
  revert s ys. induction l as [|x l IH]; intros s ys Hrun; cbn [try_map] in Hrun; [cbv [ret] in Hrun; by simplify_eq|].
  apply bind_done in Hrun as ([y|e] & s1 & _ & Hrun); [|cbv [ret] in Hrun; by simplify_eq].
  apply bind_done in Hrun as ([ys'|e] & s2 & Hr & Hrun); cbv [ret] in Hrun; simplify_eq. simpl. f_equal. by eapply IH.
Qed.

Lemma next_rr_empty n : keeps empty_inv (next_rr (D:=D) n).
Proof. unfold next_rr. pose proof modify_rr_empty. keeps_step. Qed.

Lemma desc_empty i ptr : keeps empty_inv (domain_mem_desc (D:=D) i ptr).
Proof. apply on_domain_empty. Qed.

Hint Resolve on_domain_empty modify_rr_empty next_rr_empty desc_empty : keeps.

Lemma imm_empty tid imm mrs dom tx :
  (mrs = [] -> zs tid) -> keeps empty_inv (submit_imm_transfer_request (D:=D) tid imm mrs dom tx).
Proof.
  intros Hz. unfold submit_imm_transfer_request, submit_imm_to. apply num_domains_empty. intros n Hn.
  destruct (negb _); [auto with keeps|].
  apply keeps_bind; [apply insert_empty; by destruct mrs; [intros; apply Hz|]|]. keeps_step.
Qed.

Lemma single_empty tid r tx : keeps empty_inv (submit_single_transfer_request (D:=D) tid r tx).
Proof.
  unfold submit_single_transfer_request, build_single_op. apply num_domains_empty. intros n Hn.
  destruct (negb _); [auto with keeps|]. apply keeps_bind_res; [keeps_step|]. intros shards.
  apply (keeps_bind_val _ (fun l => length l <> 0%nat)).
  { intros s l s' Hrun. unfold shard_single_transfer in Hrun. case_decide; [done|]. cbv [ret] in Hrun. simplify_eq.
    destruct shards as [|shards]; [done|]. simpl. by case_decide. }
  { unfold shard_single_transfer. keeps_step. }
  intros ranges Hne. apply (keeps_bind_val _ (fun x => match x with Ok ops => length ops <> 0%nat | Err _ => True end)).
  { intros s [ops|] s' Hrun; [|done]. by rewrite (try_map_length _ _ _ _ _ Hrun). }
  { keeps_step. }
  intros [ops|] Hops; [|auto with keeps]. apply keeps_bind; [by apply insert_empty|keeps_step].
Qed.

Lemma divide_not_empty n k s l (s' : DomainGroup D) : divide_evenly n k s = Done (l, s') -> length l = 0%nat -> n = 0%nat.
Proof.
  unfold divide_evenly. case_decide; [done|]. cbv [ret]. intros Hrun. simplify_eq.
  pose proof (divide_tiles n k ltac:(lia)) as Ht. unfold divide in Ht. intros Hl. destruct (divide_loop _ _ _ _); [|done].
  simpl in Ht. done.
Qed.

Lemma paged_empty tid r tx :
  (pr_src_page_indices r = [] -> zs tid) -> keeps empty_inv (submit_paged_transfer_request (D:=D) tid r tx).
Proof.
  intros Hz. unfold submit_paged_transfer_request, submit_page_range. apply num_domains_empty. intros n Hn.
  destruct (negb _); [auto with keeps|]. destruct (negb _); [auto with keeps|].
  apply (keeps_bind_val _ (fun l => length l = 0%nat -> zs tid)).
  - intros s l s' Hrun Hl. apply Hz, nil_length_inv. by eapply divide_not_empty.
  - unfold divide_evenly. keeps_step.
  - intros l Hl. apply keeps_bind; [by apply insert_empty|keeps_step].
Qed.

Lemma scatter_ops_some r n g l g' :
  (0 < n)%nat -> xr_dsts r <> [] -> build_scatter_ops (D:=D) r n g = Done (Ok l, g') -> length l <> 0%nat.
Proof.
  intros Hn Hd. unfold build_scatter_ops. destruct (xr_domain r).
  - intros (dr & g1 & Hdr & Hrun)%bind_done. rewrite (try_map_length _ _ _ _ _ Hrun), length_zip, length_seq.
    intros Hz. apply Hd, nil_length_inv. eapply divide_not_empty; [exact Hdr|lia].
  - intros Hrun. rewrite (try_map_length _ _ _ _ _ Hrun), length_seq. lia.
  - intros Hrun. by rewrite (try_map_length _ _ _ _ _ Hrun).
Qed.

Lemma scatter_empty tid r tx : keeps empty_inv (submit_scatter_transfer_request (D:=D) tid r tx).
Proof.
  unfold submit_scatter_transfer_request. destruct (Nat.eqb_spec (length (xr_dsts r)) 0) as [|Hd]; [auto with keeps|].
  apply keeps_bind_res; [auto with keeps|]. intros _. apply num_domains_empty. intros n Hn.
  apply (keeps_bind_val _ (fun x => match x with Ok ops => length ops <> 0%nat | Err _ => True end)).
  - intros g [ops|] g' Hrun; [|done]. eapply scatter_ops_some; [done| |exact Hrun]. by intros E; rewrite E in Hd.
  - unfold build_scatter_ops, divide_evenly. keeps_step.
  - intros [ops|] Hops; [|auto with keeps]. apply keeps_bind; [by apply insert_empty|keeps_step].
Qed.

Lemma submit_empty tid r tx :
  (covers_nothing r -> zs tid) -> keeps empty_inv (submit_transfer_request (D:=D) tid r tx).
Proof.
  intros Hz. destruct r; simpl; [apply imm_empty|apply single_empty|apply paged_empty|apply scatter_empty|apply imm_empty]; done.
Qed.

Lemma add_peer_group_empty addrs : keeps empty_inv (group_add_peer_group (D:=D) addrs).
Proof.
  unfold group_add_peer_group.
  assert (forall h p, keeps empty_inv (modify (fun g : DomainGroup D => set_peer_groups h (p g) g)))
    by (intros; by apply keeps_modify).
  keeps_step.
Qed.

Lemma poll_empty : keeps (fun s => empty_inv s.2) (group_poll_progress (D:=D)).
Proof.
  intros s a s' Hrun. unfold group_poll_progress in Hrun.
  revert a s' Hrun. generalize (indices s.2). intros l a s' Hrun. revert s a s' Hrun.
  apply keeps_for_each. intros i _ [sh g] a s' Hrun [? ?]. simpl in *.
  destruct (domains g !! i); [|done].
  destruct (poll_progress (sh, d)) as [[? [? ?]]| |]; simplify_eq.
  split; simpl; [by rewrite length_insert|done].
Qed.

Lemma delete_empty tid g : empty_inv g -> empty_inv (set_write_ops (delete tid (write_ops g)) g).
Proof. intros [? He]. split; [done|]. intros tid' ctx. simpl. intros [_ ?]%lookup_delete_Some. by eapply He. Qed.

Lemma dispatch_empty c : keeps (fun s => empty_inv s.2) (dispatch_completion (D:=D) c).
Proof.
  destruct c as [ | |tid| | |tid err]; simpl; try (by auto with keeps).
  - intros s a s' Hrun HP. cbv [bind gets] in Hrun.
    destruct (write_ops s.2 !! tid) as [ctx|] eqn:Hctx; [|cbv [ret] in Hrun; by simplify_eq].
    case_match; revert Hrun.
    + intros Hrun. cbv [modify] in Hrun. pose proof (delete_empty tid _ HP) as Hdel.
      destruct (woc_tx_counter ctx); [|cbv [ret] in Hrun; by simplify_eq].
      eapply (keeps_bind (fun s : Shared * DomainGroup D => empty_inv s.2) (on_counters (tx_done t))
        (fun _ => ret (Some None)) (on_counters_keeps _ _) (fun _ => keeps_ret _ _) (s.1, set_write_ops (delete tid (write_ops s.2)) s.2));
        [exact Hrun|done].
    + cbv [modify ret]. intros. simplify_eq. destruct HP as [? He]. split; [done|]. intros tid' ctx'. simpl.
      rewrite lookup_insert. case_decide; [|apply He]. intros; simplify_eq. by eapply He.
  - apply keeps_bind; [auto with keeps|]. intros ctx. apply keeps_bind.
    + apply keeps_modify. intros s. apply delete_empty.
    + intros _. apply keeps_bind; [|auto with keeps].
      destruct ctx as [ctx|]; [|auto with keeps].
      destruct (woc_tx_counter ctx); [apply on_counters_keeps|auto with keeps].
Qed.

Lemma get_completion_empty : keeps (fun s => empty_inv s.2) (group_get_completion (D:=D)).
Proof.
  unfold group_get_completion. apply keeps_bind; [auto with keeps|]. intros idx.
  induction idx as [|i idx IH]; simpl; [auto with keeps|].
  apply keeps_bind; [apply on_group_keeps, on_domain_empty|]. intros [c|]; [|done].
  apply keeps_bind; [apply dispatch_empty|]. intros [r|]; [auto with keeps|done].
Qed.

Lemma exec_group_op_empty o :
  (forall tid r tx, o = GSubmit tid r tx -> covers_nothing r -> zs tid) ->
  keeps (fun s => empty_inv s.2) (exec_group_op o).
Proof.
  intros Hz. pose proof (on_group_keeps (A:=res unit) empty_inv) as Hg.
  destruct o; unfold exec_group_op; try apply keeps_bind; intros; try apply on_group_keeps;
    auto using add_peer_group_empty, poll_empty, get_completion_empty with keeps.
  - apply submit_empty. by eapply Hz.
  - unfold group_submit_send. keeps_step.
  - unfold group_submit_recv. keeps_step.
  - unfold group_register_mr_local. keeps_step.
  - unfold group_register_mr_allow_remote. keeps_step.
  - unfold group_unregister_mr. keeps_step.
Qed.
End Empty.

(** C18: every method of [DomainGroup], on every branch (errors included), keeps the group's
    invariant: the number of domains is constant, the round-robin cursor is a valid domain index,
    and every pending transfer has had fewer domain completions than domains, except those
    recorded over zero domains.  These are only requests that cover nothing: if the pending
    transfers over zero domains are among [zs] before, they are after, provided a submission of a
    paged request without pages or of a barrier without targets has its id in [zs].  (Such a
    transfer never completes.) *)
Theorem domain_group_invariant n zs o s s' :
  group_wf n s.2 -> empty_among zs s.2 ->
  (forall tid r tx, o = GSubmit tid r tx -> covers_nothing r -> zs tid) ->
  exec_group_op o s = Done (tt, s') ->
  group_wf n s'.2 /\ empty_among zs s'.2 /\
  (forall tid ctx, write_ops s'.2 !! tid = Some ctx -> ~ zs tid ->
     (cnt_domain_completion ctx < num_used_domains ctx)%nat).
Proof.
  intros Hwf He Hz Hrun. assert (group_wf n s'.2) as Hwf' by (by eapply exec_group_op_wf).
  assert (empty_inv zs s'.2) as [_ He'].
  { eapply exec_group_op_empty; [exact Hz|exact Hrun|]. split; [destruct Hwf; lia|done]. }
  split; [done|]. split; [done|]. intros tid ctx Hctx Hn.
  destruct (wf_ctxs _ _ Hwf' tid ctx Hctx) as [?|H0]; [done|]. by destruct Hn; eapply He'.
Qed.
End Invariant.
