(* ===== verification/Loopback.v ===== *)
(** * A loopback domain

    The smallest implementation of the provider interface: it accepts every write and
    queues its completion at once, and rejects a peer group with an empty address.  It shows that the laws of
    [RdmaDomainLaws] can hold, and the witnesses of the generic theorems run on it. *)
From stdpp Require Import prelude gmap strings list.
From S2P Require Import Prelude Api ImmCount Provider.
Local Open Scope Z_scope.

Inductive logged : Type :=
  | LWrite (tid : Z) (dest : DomainAddress) (op : WriteOp)
  | LGroup (tid : Z) (op : GroupWriteOp)
  | LSend (tid : Z) (dest : DomainAddress)
  | LRecv (tid : Z).

Record Loopback := {
  lb_name : Z;
  lb_mrs : gmap Z Z;
  lb_log : list logged;
  lb_queue : list DomainCompletionEntry;
}.

Definition lb_open (name : Z) : Loopback :=
  {| lb_name := name; lb_mrs := ∅; lb_log := []; lb_queue := [] |}.

Definition lb_register (region : MemoryRegion) (d : Loopback) : Loopback :=
  {| lb_name := lb_name d; lb_mrs := <[mr_ptr region := lb_name d + 100]> (lb_mrs d);
     lb_log := lb_log d; lb_queue := lb_queue d |}.

Definition lb_post (l : logged) (c : DomainCompletionEntry) (d : Loopback) : Loopback :=
  {| lb_name := lb_name d; lb_mrs := lb_mrs d; lb_log := lb_log d ++ [l];
     lb_queue := lb_queue d ++ [c] |}.

#[export] Instance loopback_domain : RdmaDomain Loopback := {|
  link_speed := fun _ => 100;
  addr := fun d => {| addr_bytes := [lb_name d] |};
  register_mr_local := fun region => modify (lb_register region) ;;; ret (Ok tt);
  register_mr_allow_remote := fun region =>
    modify (lb_register region) ;;; gets (fun d => Ok (lb_name d + 200));
  unregister_mr := fun ptr => modify (fun d =>
    {| lb_name := lb_name d; lb_mrs := delete ptr (lb_mrs d); lb_log := lb_log d;
       lb_queue := lb_queue d |});
  get_mem_desc := fun ptr d =>
    match lb_mrs d !! ptr with
    | Some desc => Ok desc
    | None => Err (Custom "Memory region not registered")
    end;
  submit_recv := fun tid op => modify (lb_post (LRecv tid) (DcRecv tid (ro_len op)));
  submit_send := fun tid dest _ => modify (lb_post (LSend tid dest) (DcSend tid));
  submit_write := fun tid dest op => modify (lb_post (LWrite tid dest op) (DcTransfer tid));
  add_peer_group := fun _ addrs =>
    if existsb (fun a => bool_decide (addr_bytes a = [])) addrs
    then ret (Err (Custom "Invalid address")) else ret (Ok tt);
  submit_group_write := fun tid _ op => modify (lb_post (LGroup tid op) (DcTransfer tid));
  poll_progress := ret tt;
  get_completion := fun d =>
    match lb_queue d with
    | [] => Done (None, d)
    | c :: cs => Done (Some c, {| lb_name := lb_name d; lb_mrs := lb_mrs d;
                                  lb_log := lb_log d; lb_queue := cs |})
    end;
|}.

#[export] Program Instance loopback_laws : RdmaDomainLaws Loopback := {|
  completions_of := lb_queue;
|}.
Next Obligation. intros d. simpl. destruct (lb_queue d) eqn:E; simpl; rewrite ?E; eauto. Qed.
Next Obligation. intros tid a op d d' p. cbv [submit_write loopback_domain modify]. intros. by simplify_eq. Qed.

(** A group of two loopback domains with the region at [4096] registered. *)
Definition lb_region : MemoryRegion := {| mr_ptr := 4096; mr_len := 65536; mr_mapping := MapHost |}.
Definition lb_two : list Loopback := [lb_register lb_region (lb_open 0); lb_register lb_region (lb_open 1)].
Definition lb_remote : MemoryRegionDescriptor :=
  {| mrd_ptr := 1048576;
     addr_rkey_list := [({| addr_bytes := [10] |}, 210); ({| addr_bytes := [11] |}, 211)] |}.
