(* ===== verification/Completion.v ===== *)
(** * Completions of a domain group

    An abstract completion tracker, the refinement of [DomainGroup::get_completion] to it, and
    what it promises: a transfer is reported exactly once, when the last of its domains is
    done, and never after an error; a [TransferCounter] is advanced exactly once per
    transfer. *)
From stdpp Require Import prelude gmap strings list.
From S2P Require Import Prelude Api ImmCount Sharding Provider DomainGroup DomainGroupSpec Loopback.
Local Open Scope Z_scope.

(** ** The abstract tracker: each pending transfer with the number of domains it waits for *)
Record Tracker := {
  tk_shared : Shared;
  tk_pending : gmap Z (nat * option TransferCounter);
}.

Definition tk_set (f : gmap Z (nat * option TransferCounter) -> gmap Z (nat * option TransferCounter)) :
    M Tracker unit :=
  modify (fun t => {| tk_shared := tk_shared t; tk_pending := f (tk_pending t) |}).

Definition tk_count (m : M Heap unit) : M Tracker unit :=
  on_state tk_shared (fun sh t => {| tk_shared := sh; tk_pending := tk_pending t |}) (on_heap m).

Definition track (c : DomainCompletionEntry) : M Tracker (option DomainCompletionEntry) :=
  match c with
  | DcError tid _ =>
      let! p := gets (fun t => tk_pending t !! tid) in
      tk_set (delete tid) ;;;
      match p with Some (_, Some tx) => tk_count (tx_error tx) | _ => ret tt end ;;;
      ret (Some c)
  | DcTransfer tid =>
      let! p := gets (fun t => tk_pending t !! tid) in
      match p with
      | Some (S (S left_), tx) => tk_set <[tid := (S left_, tx)]> ;;; ret None
      | Some (1%nat, Some tx) => tk_set (delete tid) ;;; tk_count (tx_done tx) ;;; ret None
      | Some (1%nat, None) => tk_set (delete tid) ;;; ret (Some c)
      | _ => ret None
      end
  | _ => ret (Some c)
  end.

Fixpoint track_all (cs : list DomainCompletionEntry) : M Tracker (list DomainCompletionEntry) :=
  match cs with
  | [] => ret []
  | c :: cs =>
      let! o := track c in
      let! out := track_all cs in
      ret (option_list o ++ out)
  end.

(** ** The tracker never panics *)
Lemma tk_count_run m t :
  (exists h, m (heap (tk_shared t)) = Done (tt, h)) ->
  exists sh, tk_count m t = Done (tt, {| tk_shared := sh; tk_pending := tk_pending t |}).
Proof.
  intros (h & Hm). cbv [tk_count on_state on_heap]. rewrite Hm. eauto.
Qed.

Lemma tx_done_run tx h : exists h', tx_done tx h = Done (tt, h').
Proof. cbv [tx_done fetch_add load store gets modify bind ret]. eauto. Qed.

Lemma tx_error_run tx h : exists h', tx_error tx h = Done (tt, h').
Proof. cbv [tx_error fetch_add load store gets modify bind ret]. eauto. Qed.

(** What one entry does to the pending map, and what is emitted. *)
Definition emits (p : option (nat * option TransferCounter)) (c : DomainCompletionEntry) :
    option DomainCompletionEntry :=
  match c with
  | DcTransfer _ => match p with Some (1%nat, None) => Some c | _ => None end
  | _ => Some c
  end.

Definition pending_after (c : DomainCompletionEntry)
    (m : gmap Z (nat * option TransferCounter)) : gmap Z (nat * option TransferCounter) :=
  match c with
  | DcError tid _ => delete tid m
  | DcTransfer tid =>
      match m !! tid with
      | Some (S (S left_), tx) => <[tid := (S left_, tx)]> m
      | Some (1%nat, _) => delete tid m
      | _ => m
      end
  | _ => m
  end.

Definition entry_tid (c : DomainCompletionEntry) : option Z :=
  match c with DcTransfer tid => Some tid | DcError tid _ => Some tid | _ => None end.

Lemma track_run c t :
  exists sh, track c t =
    Done (emits (entry_tid c ≫= fun tid => tk_pending t !! tid) c,
          {| tk_shared := sh; tk_pending := pending_after c (tk_pending t) |}).
Proof.
  destruct t as [sh m].
  destruct c as [ | |tid| | |tid err]; try (exists sh; done); cbn -[tk_count].
  - cbv [bind gets]. cbn -[tk_count]. destruct (m !! tid) as [[[|[|k]] [tx|]]|];
      try (exists sh; done).
    cbv [tk_set modify]. cbn -[tk_count].
    destruct (tk_count_run (tx_done tx) {| tk_shared := sh; tk_pending := delete tid m |})
      as (sh' & Hrun); [apply tx_done_run|]. rewrite Hrun. by exists sh'.
  - cbv [bind gets tk_set modify]. cbn -[tk_count].
    destruct (m !! tid) as [[k [tx|]]|]; try (exists sh; done).
    destruct (tk_count_run (tx_error tx) {| tk_shared := sh; tk_pending := delete tid m |})
      as (sh' & Hrun); [apply tx_error_run|]. rewrite Hrun. by exists sh'.
Qed.

Lemma track_all_run cs t : exists out t', track_all cs t = Done (out, t').
Proof.
  revert t. induction cs as [|c cs IH]; intros t; [by exists [], t|].
  destruct (track_run c t) as (sh & Hc). simpl. unfold bind. rewrite Hc.
  edestruct IH as (out & t' & ->). eauto.
Qed.

Lemma track_all_cons c cs t out t' :
  track_all (c :: cs) t = Done (out, t') ->
  exists sh out', out = option_list (emits (entry_tid c ≫= fun tid => tk_pending t !! tid) c) ++ out' /\
    track_all cs {| tk_shared := sh; tk_pending := pending_after c (tk_pending t) |} = Done (out', t').
Proof.
  destruct (track_run c t) as (sh & Hc). simpl. unfold bind. rewrite Hc.
  destruct (track_all cs _) as [[o t1]| |] eqn:E; [|done|done].
  cbv [ret]. intros. simplify_eq. eauto.
Qed.

(** ** Counting the reports of one transfer *)
Definition reports (tid : Z) (l : list DomainCompletionEntry) : nat :=
  length (filter (fun c => c = DcTransfer tid) l).
Definition is_error_of (tid : Z) (c : DomainCompletionEntry) : Prop := exists e, c = DcError tid e.
Definition not_transfer (c : DomainCompletionEntry) : bool :=
  match c with DcTransfer _ => false | _ => true end.

Lemma reports_app tid l1 l2 : reports tid (l1 ++ l2) = (reports tid l1 + reports tid l2)%nat.
Proof. unfold reports. by rewrite filter_app, length_app. Qed.

Lemma reports_cons tid c l :
  reports tid (c :: l) = ((if decide (c = DcTransfer tid) then 1 else 0) + reports tid l)%nat.
Proof. unfold reports. rewrite filter_cons. by case_decide. Qed.

Lemma reports_emits tid p c :
  reports tid (option_list (emits p c)) =
  (if decide (c = DcTransfer tid) then
     if decide (p = Some (1%nat, None)) then 1 else 0 else 0)%nat.
Proof.
  unfold emits. destruct c; simpl; rewrite ?reports_cons; try (by case_decide).
  destruct p as [[[|[|k]] [tx|]]|]; simpl; rewrite ?reports_cons; repeat case_decide;
    simplify_eq; done.
Qed.

Lemma pending_after_other c m tid :
  c <> DcTransfer tid -> ~ is_error_of tid c -> pending_after c m !! tid = m !! tid.
Proof.
  intros Ht He. destruct c as [ | |tid'| | |tid' e]; try done; simpl.
  - assert (tid' <> tid) by congruence.
    destruct (m !! tid') as [[[|[|k]] tx]|]; simpl; [done|by rewrite lookup_delete_ne|
      by rewrite lookup_insert_ne|done].
  - rewrite lookup_delete_ne; [done|]. intros ->. apply He. by exists e.
Qed.

(** A transfer that is not pending is never reported again. *)
Lemma track_all_unknown tid cs t out t' :
  tk_pending t !! tid = None -> track_all cs t = Done (out, t') -> reports tid out = 0%nat.
Proof.
  revert t out. induction cs as [|c cs IH]; intros t out Hp Hrun.
  { simpl in Hrun. cbv [ret] in Hrun. by simplify_eq. }
  apply track_all_cons in Hrun as (sh & out' & -> & Hrun).
  rewrite reports_app, reports_emits. apply IH in Hrun; simpl.
  - rewrite Hrun. destruct (decide (c = DcTransfer tid)) as [->|]; [|lia]. simpl. rewrite Hp.
    by case_decide.
  - destruct (decide (c = DcTransfer tid)) as [->|Hc]; [by simpl; rewrite Hp|].
    destruct c as [ | |tid'| | |tid' e]; try done; simpl.
    + assert (tid' <> tid) by congruence. destruct (tk_pending t !! tid') as [[[|[|k]] tx]|]; simpl;
        [done|by rewrite lookup_delete_ne|by rewrite lookup_insert_ne|done].
    + destruct (decide (tid' = tid)) as [->|]; [by rewrite lookup_delete_eq|by rewrite lookup_delete_ne].
Qed.

Lemma track_all_reports tid cs k t out t' :
  tk_pending t !! tid = Some (S k, None) -> (forall c, c ∈ cs -> ~ is_error_of tid c) ->
  track_all cs t = Done (out, t') ->
  reports tid out = (if decide (S k <= reports tid cs)%nat then 1 else 0)%nat.
Proof.
  revert k t out. induction cs as [|c cs IH]; intros k t out Hp Hne Hrun.
  { simpl in Hrun. cbv [ret] in Hrun. by simplify_eq. }
  apply track_all_cons in Hrun as (sh & out' & -> & Hrun).
  rewrite reports_app, reports_emits, reports_cons.
  destruct (decide (c = DcTransfer tid)) as [->|Hc]; simpl in *.
  - rewrite Hp. destruct k as [|k].
    + apply track_all_unknown with (tid := tid) in Hrun;
        [|by simpl; rewrite Hp, lookup_delete_eq].
      rewrite Hrun. repeat case_decide; simplify_eq; lia.
    + apply (IH k) in Hrun; [|by simpl; rewrite Hp, lookup_insert_eq|set_solver].
      rewrite Hrun. repeat case_decide; simplify_eq; lia.
  - apply (IH k) in Hrun; [done| |set_solver]. simpl.
    rewrite pending_after_other; [done..|]. apply Hne. set_solver.
Qed.

Lemma track_all_app cs1 cs2 t out t' :
  track_all (cs1 ++ cs2) t = Done (out, t') ->
  exists o1 o2 t1, out = o1 ++ o2 /\ track_all cs1 t = Done (o1, t1) /\
    track_all cs2 t1 = Done (o2, t').
Proof.
  revert t out. induction cs1 as [|c cs1 IH]; intros t out; simpl; [by eexists [], out, t|].
  unfold bind. destruct (track c t) as [[o t1]| |]; [|done|done].
  destruct (track_all (cs1 ++ cs2) t1) as [[o' t2]| |] eqn:E; [|done|done].
  cbv [ret]. intros. simplify_eq. apply IH in E as (o1 & o2 & t3 & -> & -> & ?).
  eexists _, o2, t3. by rewrite (assoc_L (++)).
Qed.

Lemma track_all_error tid e cs1 cs2 k t out t' :
  tk_pending t !! tid = Some (S k, None) -> (forall c, c ∈ cs1 -> ~ is_error_of tid c) ->
  (reports tid cs1 < S k)%nat ->
  track_all (cs1 ++ DcError tid e :: cs2) t = Done (out, t') ->
  reports tid out = 0%nat /\ DcError tid e ∈ out.
Proof.
  intros Hp Hne Hlt Hrun. apply track_all_app in Hrun as (o1 & o2 & t1 & -> & H1 & H2).
  pose proof (track_all_reports _ _ _ _ _ _ Hp Hne H1) as Hr1. rewrite decide_False in Hr1 by lia.
  apply track_all_cons in H2 as (sh & o3 & -> & H3). simpl.
  pose proof (track_all_unknown tid _ _ _ _ (lookup_delete_eq _ _) H3) as Hr3.
  split; [|set_solver]. rewrite !reports_app, Hr1. simpl. rewrite reports_cons, Hr3.
  by case_decide.
Qed.

Lemma track_all_forwards cs t out t' :
  track_all cs t = Done (out, t') -> filter not_transfer out = filter not_transfer cs.
Proof.
  revert t out. induction cs as [|c cs IH]; intros t out Hrun.
  { simpl in Hrun. cbv [ret] in Hrun. by simplify_eq. }
  apply track_all_cons in Hrun as (sh & out' & -> & Hrun). apply IH in Hrun.
  rewrite filter_app, Hrun. destruct c; simpl; try done.
  destruct (tk_pending t !! transfer_id) as [[[|[|]] [|]]|]; done.
Qed.

(** A sequence without an error of [tid], or its first one. *)
Lemma first_error_split tid cs :
  (forall c, c ∈ cs -> ~ is_error_of tid c) \/
  exists cs1 e cs2, cs = cs1 ++ DcError tid e :: cs2 /\ forall c, c ∈ cs1 -> ~ is_error_of tid c.
Proof.
  induction cs as [|c cs IH]; [left; set_solver|].
  destruct (decide (entry_tid c = Some tid /\ not_transfer c = true)) as [Herr|Hnerr].
  { right. destruct c; simpl in Herr; destruct Herr; simplify_eq. eexists [], _, cs. split; [done|set_solver]. }
  assert (~ is_error_of tid c) as Hc by (intros [e' ->]; by apply Hnerr).
  destruct IH as [IH|(cs1 & e & cs2 & -> & IH)]; [left; set_solver|].
  right. exists (c :: cs1), e, cs2. split; [done|set_solver].
Qed.

(** Fewer completions than a transfer waits for never report it, errors or not. *)
Lemma track_all_below tid cs k t out t' :
  tk_pending t !! tid = Some (S k, None) -> (reports tid cs < S k)%nat ->
  track_all cs t = Done (out, t') -> reports tid out = 0%nat.
Proof.
  intros Hp Hlt Hrun. destruct (first_error_split tid cs) as [Hn|(cs1 & e & cs2 & -> & Hn)].
  - rewrite (track_all_reports _ _ _ _ _ _ Hp Hn Hrun). by rewrite decide_False by lia.
  - rewrite reports_app in Hlt. eapply (track_all_error tid e cs1 cs2 k); [done..|lia|done].
Qed.

Lemma track_all_error_forwarded tid e cs t out t' :
  track_all cs t = Done (out, t') -> DcError tid e ∈ cs -> DcError tid e ∈ out.
Proof.
  intros Hrun Hin. assert (DcError tid e ∈ filter not_transfer out) as Hf;
    [|by apply list_elem_of_filter in Hf as [_ Hf]].
  rewrite (track_all_forwards _ _ _ _ Hrun). by apply list_elem_of_filter.
Qed.

(** ** Refinement *)
Definition abs_ctx (c : WriteOpContext) : nat * option TransferCounter :=
  ((num_used_domains c - cnt_domain_completion c)%nat, woc_tx_counter c).

(** Popping [cs], in this order, off the domains' queues. *)
Inductive pops : list (list DomainCompletionEntry) -> list DomainCompletionEntry ->
    list (list DomainCompletionEntry) -> Prop :=
  | pops_nil qs : pops qs [] qs
  | pops_cons qs i c q cs qs' :
      qs !! i = Some (c :: q) -> pops (<[i := q]> qs) cs qs' -> pops qs (c :: cs) qs'.

Lemma pops_app qs1 cs1 qs2 cs2 qs3 :
  pops qs1 cs1 qs2 -> pops qs2 cs2 qs3 -> pops qs1 (cs1 ++ cs2) qs3.
Proof. induction 1; simpl; [done|]. intros. econstructor; eauto. Qed.

Lemma concat_insert_head qs i c (q : list DomainCompletionEntry) :
  qs !! i = Some (c :: q) -> concat qs ≡ₚ c :: concat (<[i := q]> qs).
Proof.
  revert i. induction qs as [|q' qs IH]; intros [|i]; simpl; intros Hi; simplify_eq; [done|].
  rewrite (IH i Hi). by rewrite <- Permutation_middle.
Qed.

Lemma pops_perm qs cs qs' : pops qs cs qs' -> concat qs ≡ₚ cs ++ concat qs'.
Proof.
  induction 1 as [|qs i c q cs qs' Hi _ IH]; [done|].
  rewrite (concat_insert_head _ _ _ _ Hi), IH. done.
Qed.

Lemma reports_perm tid l1 l2 : l1 ≡ₚ l2 -> reports tid l1 = reports tid l2.
Proof. intros Hp. unfold reports. by rewrite Hp. Qed.

(** *** Entries of one transfer spread over the queues *)
Lemma reports_concat_insert tid i (qs : list (list DomainCompletionEntry)) q :
  qs !! i = Some q -> reports tid (concat qs) = (reports tid q + reports tid (concat (<[i := []]> qs)))%nat.
Proof.
  revert i. induction qs as [|q' qs IH]; intros [|i]; simpl; intros Hi; simplify_eq;
    rewrite !reports_app; [done|]. rewrite (IH i Hi). lia.
Qed.

Lemma reports_concat_none tid (qs : list (list DomainCompletionEntry)) :
  (forall i q, qs !! i = Some q -> reports tid q = 0%nat) -> reports tid (concat qs) = 0%nat.
Proof.
  induction qs as [|q qs IH]; intros Hz; [done|]. simpl. rewrite reports_app, (Hz 0%nat q) by done.
  apply IH. intros i. apply (Hz (S i)).
Qed.

(** The transfers reported by the queues at the positions [ps], when no other queue has any. *)
Lemma reports_concat_at tid (ps : list nat) (qs : list (list DomainCompletionEntry)) :
  NoDup ps -> (forall i q, i ∉ ps -> qs !! i = Some q -> reports tid q = 0%nat) ->
  reports tid (concat qs) = sum_list ((fun i => reports tid (qs !!! i)) <$> ps).
Proof.
  revert qs. induction ps as [|i ps IH]; intros qs Hnd Hz.
  { apply reports_concat_none. intros i q. apply Hz. set_solver. }
  apply NoDup_cons in Hnd as [Hi Hnd]. rewrite fmap_cons. simpl.
  rewrite list_lookup_total_alt. destruct (qs !! i) as [q|] eqn:Hq; simpl.
  - rewrite (reports_concat_insert tid i qs q Hq), (IH (<[i := []]> qs) Hnd).
    + f_equal. f_equal. apply list_fmap_ext. intros _ j Hj%list_elem_of_lookup_2.
      by rewrite list_lookup_total_insert_ne by set_solver.
    + intros j q' Hj. rewrite list_lookup_insert. case_decide as Hc; [by intros; simplify_eq|].
      apply Hz. intros [->|?]%elem_of_cons; [|done]. apply Hc. split; [done|].
      by apply lookup_lt_Some in Hq.
  - rewrite (IH qs Hnd); [done|]. intros j q' Hj Hl. apply (Hz j); [|done]. set_solver.
Qed.

Lemma sum_list_at_most {A} (f : A -> nat) (l : list A) :
  (forall x, x ∈ l -> f x <= 1)%nat -> (sum_list (f <$> l) <= length l)%nat.
Proof.
  induction l as [|x l IH]; intros Hf; [done|]. rewrite fmap_cons. simpl.
  pose proof (Hf x ltac:(set_solver)). specialize (IH ltac:(set_solver)). lia.
Qed.

Lemma sum_list_ones {A} (f : A -> nat) (l : list A) :
  (forall x, x ∈ l -> f x = 1)%nat -> sum_list (f <$> l) = length l.
Proof.
  induction l as [|x l IH]; intros Hf; [done|]. rewrite fmap_cons. simpl.
  by rewrite (Hf x), IH by set_solver.
Qed.

Lemma sum_list_below {A} (f : A -> nat) (l : list A) y :
  (forall x, x ∈ l -> f x <= 1)%nat -> y ∈ l -> f y = 0%nat -> (sum_list (f <$> l) < length l)%nat.
Proof.
  intros Hf Hy Hz. apply list_elem_of_split in Hy as (l1 & l2 & ->).
  pose proof (sum_list_at_most f l1 ltac:(set_solver)). pose proof (sum_list_at_most f l2 ltac:(set_solver)).
  rewrite fmap_app, fmap_cons, sum_list_with_app, length_app. simpl. lia.
Qed.

(** A queue in which the first entry of [tid] is an error. *)
Definition error_first (tid : Z) (q : list DomainCompletionEntry) : Prop :=
  exists pre e post, q = pre ++ DcError tid e :: post /\ reports tid pre = 0%nat.

(** What the completions of a write put in a queue. *)
Lemma write_reports_at_most tid b rs : (reports tid (write_reports tid b rs) <= 1)%nat.
Proof.
  revert b. induction rs as [|[e|] rs IH]; intros b; simpl; [apply Nat.le_0_l|..]; rewrite reports_app.
  - destruct b; apply IH.
  - destruct rs; [|apply IH]. rewrite reports_cons, decide_True by done. done.
Qed.

Lemma write_reports_error_first tid rs :
  ~ Forall (fun r => r = None) rs -> error_first tid (write_reports tid false rs).
Proof.
  induction rs as [|[e|] rs IH]; intros Hf; [by destruct Hf|by exists [], e, (write_reports tid true rs)|].
  simpl. destruct rs as [|r rs]; [by destruct Hf; constructor|]. apply IH. intros Hall. apply Hf. by constructor.
Qed.

Lemma error_first_app tid q1 q2 : reports tid q1 = 0%nat -> error_first tid q2 -> error_first tid (q1 ++ q2).
Proof.
  intros H1 (pre & e & post & -> & Hpre). exists (q1 ++ pre), e, post. rewrite reports_app, <- (assoc_L (++)).
  split; [done|lia].
Qed.

(** Then whatever order the queues are popped in, the completions of [tid] before its first error
    come from the other queues. *)
Lemma pops_error_first tid i qs cs qs' q :
  pops qs cs qs' -> concat qs' = [] -> qs !! i = Some q -> error_first tid q ->
  exists cs1 e cs2, cs = cs1 ++ DcError tid e :: cs2 /\ (forall c, c ∈ cs1 -> ~ is_error_of tid c) /\
    (reports tid cs1 <= reports tid (concat (<[i := []]> qs)))%nat.
Proof.
  intros Hp. revert q. induction Hp as [qs|qs j c q0 cs qs' Hj Hp IH]; intros q Hempty Hi (pre & e & post & -> & Hpre).
  { exfalso. apply list_elem_of_lookup_2, list_elem_of_split in Hi as (l1 & l2 & ->).
    rewrite concat_app in Hempty. apply app_eq_nil in Hempty as [_ Hempty]. simpl in Hempty. by destruct pre. }
  destruct (decide (entry_tid c = Some tid /\ not_transfer c = true)) as [Herr|Hnerr].
  { destruct c; simpl in Herr; destruct Herr; simplify_eq. eexists [], _, cs. split; [done|]. split; [set_solver|].
    apply Nat.le_0_l. }
  assert (~ is_error_of tid c) as Hc by (intros [e' ->]; by apply Hnerr).
  destruct (decide (j = i)) as [->|Hne].
  - rewrite Hi in Hj. destruct pre as [|c' pre]; simpl in Hj; injection Hj as <- <-; [by destruct Hc; eexists|].
    simpl in Hi. rewrite reports_cons in Hpre.
    destruct (IH (pre ++ DcError tid e :: post)) as (cs1 & e1 & cs2 & -> & Hn & Hr);
      [done|apply list_lookup_insert_eq; by eapply lookup_lt_Some|exists pre, e, post; split; [done|lia]|].
    exists (c' :: cs1), e1, cs2. split; [done|]. split; [set_solver|].
    rewrite list_insert_insert_eq in Hr. rewrite reports_cons. lia.
  - destruct (IH (pre ++ DcError tid e :: post)) as (cs1 & e1 & cs2 & -> & Hn & Hr);
      [done|by rewrite list_lookup_insert_ne|by exists pre, e, post|].
    exists (c :: cs1), e1, cs2. split; [done|]. split; [set_solver|].
    rewrite (reports_perm tid _ _ (concat_insert_head (<[i := []]> qs) j c q0
      ltac:(by rewrite list_lookup_insert_ne))), !reports_cons, list_insert_insert_ne by done. lia.
Qed.

Section Refinement.
Context {D : Type} `{RdmaDomainLaws D}.
Implicit Types s : Shared * DomainGroup D.

Definition abs s : Tracker :=
  {| tk_shared := s.1; tk_pending := abs_ctx <$> write_ops s.2 |}.

Definition queues s : list (list DomainCompletionEntry) := completions_of <$> domains s.2.

Lemma dispatch_transfer_refines n tid s :
  group_wf n s.2 ->
  exists r s', dispatch_completion (DcTransfer tid) s = Done (r, s') /\
    track (DcTransfer tid) (abs s) = Done (mjoin r, abs s') /\ domains s'.2 = domains s.2.
Proof.
  intros [_ _ Hwf]. cbn. cbv [bind gets]. cbn. rewrite lookup_fmap.
  destruct (write_ops s.2 !! tid) as [ctx|] eqn:Hctx; cbn; [|by exists None, s].
  apply Hwf in Hctx as Hc. unfold ctx_wf in Hc.
  destruct (num_used_domains ctx =? S (cnt_domain_completion ctx))%nat eqn:Heq.
  - apply Nat.eqb_eq in Heq. rewrite Heq.
    replace (S _ - _)%nat with 1%nat by lia. cbv [modify tk_set].
    destruct (woc_tx_counter ctx) as [tx|]; [eexists (Some None), _|eexists (Some (Some _)), _];
      (split; [done|]); (split; [|done]); unfold abs; cbn; by rewrite fmap_delete.
  - apply Nat.eqb_neq in Heq. eexists None, _. split; [done|]. split; [|done].
    assert (num_used_domains ctx - cnt_domain_completion ctx = 0 \/
      exists k, num_used_domains ctx - cnt_domain_completion ctx = S (S k))%nat as [Hz|(k & Hk)].
    { destruct (num_used_domains ctx - cnt_domain_completion ctx)%nat as [|[|k]] eqn:E; [by left|lia|].
      right; by exists k. }
    + rewrite Hz. unfold abs; cbn. f_equal. f_equal. f_equal.
      rewrite fmap_insert, insert_id; [done|]. rewrite lookup_fmap, Hctx. unfold abs_ctx; cbn.
      by replace (num_used_domains ctx - S _)%nat with (num_used_domains ctx - cnt_domain_completion ctx)%nat by lia.
    + rewrite Hk. unfold abs; cbn. cbv [tk_set modify ret]. cbn. f_equal. f_equal. f_equal.
      rewrite fmap_insert. unfold abs_ctx at 2; cbn.
      by replace (num_used_domains ctx - S _)%nat with (S k) by lia.
Qed.

Lemma dispatch_refines n c s :
  group_wf n s.2 ->
  exists r s', dispatch_completion c s = Done (r, s') /\
    track c (abs s) = Done (mjoin r, abs s') /\ domains s'.2 = domains s.2.
Proof.
  intros Hwf. destruct c as [ | |tid| | |tid err]; try (by eexists (Some (Some _)), s).
  { by eapply dispatch_transfer_refines. }
  cbn. cbv [bind gets modify tk_set]. cbn. rewrite lookup_fmap.
  destruct (write_ops s.2 !! tid) as [ctx|]; cbn; [destruct (woc_tx_counter ctx) as [tx|]|];
    eexists (Some (Some _)), _; (split; [done|]); (split; [|done]); unfold abs; cbn;
    by rewrite fmap_delete.
Qed.

(** Popping one domain's queue. *)
Lemma pop_domain n i s :
  group_wf n s.2 -> (i < n)%nat ->
  exists d, domains s.2 !! i = Some d /\
  match completions_of d with
  | [] => on_group (on_domain i get_completion) s = Done (None, s)
  | c :: q => exists s', on_group (on_domain i get_completion) s = Done (Some c, s') /\
      abs s' = abs s /\ group_wf n s'.2 /\ queues s !! i = Some (c :: q) /\
      queues s' = <[i := q]> (queues s)
  end.
Proof.
  intros Hwf Hi. destruct s as [sh g]; simpl in *. pose proof Hwf as [Hlen Hrr Hctx].
  destruct (lookup_lt_is_Some_2 (domains g) i ltac:(lia)) as (d & Hd). exists d.
  split; [done|]. pose proof (get_completion_pops d) as Hp.
  cbv [on_group on_state on_domain]. simpl. rewrite Hd.
  destruct (completions_of d) as [|c q] eqn:Hq.
  - rewrite Hp. rewrite list_insert_id by done. by destruct g.
  - destruct Hp as (d' & -> & Hd'). eexists. split; [done|]. split; [done|]. split.
    + split; simpl; [by rewrite length_insert|done..].
    + unfold queues; simpl. rewrite list_lookup_fmap, Hd, list_fmap_insert, Hd'. simpl. by rewrite Hq.
Qed.

Lemma dispatch_group_wf n c s r s' :
  dispatch_completion c s = Done (r, s') -> group_wf n s.2 -> group_wf n s'.2.
Proof. apply (dispatch_wf n c). Qed.

Definition has_entry (s : Shared * DomainGroup D) (i : nat) : Prop :=
  exists c q, queues s !! i = Some (c :: q).

Lemma get_completion_from_refines n idx s :
  group_wf n s.2 -> (forall i, i ∈ idx -> (i < n)%nat) ->
  exists r s' cs, get_completion_from idx s = Done (r, s') /\ group_wf n s'.2 /\
    pops (queues s) cs (queues s') /\ track_all cs (abs s) = Done (option_list r, abs s') /\
    (forall i, i ∈ idx -> has_entry s i -> cs <> []).
Proof.
  revert s. induction idx as [|i idx IH]; intros s Hwf Hidx.
  { exists None, s, []. split; [done|]. split; [done|]. split; [constructor|].
    split; [done|set_solver]. }
  destruct (pop_domain n i s Hwf (Hidx i ltac:(set_solver))) as (d & Hd & Hpop).
  assert (forall j, j ∈ idx -> (j < n)%nat) as Hidx' by set_solver.
  cbn [get_completion_from]. unfold bind at 1.
  destruct (completions_of d) as [|c q] eqn:Hq.
  - rewrite Hpop. destruct (IH s Hwf Hidx') as (r & s' & cs & Hrun & Hwf' & Hpops & Htr & Hne).
    exists r, s', cs. repeat (split; [done|]).
    intros j [->|Hj]%elem_of_cons; [|by apply Hne]. intros (c & q & Hcq). exfalso.
    unfold queues in Hcq. rewrite list_lookup_fmap, Hd in Hcq. simpl in Hcq. congruence.
  - destruct Hpop as (s1 & -> & Habs1 & Hwf1 & Hq1 & Hqs1).
    destruct (dispatch_refines n c s1 Hwf1) as (r & s2 & Hdisp & Htr & Hdom).
    pose proof (dispatch_group_wf _ _ _ _ _ Hdisp Hwf1) as Hwf2.
    assert (queues s2 = queues s1) as Hqs2 by (unfold queues; by rewrite Hdom).
    unfold bind at 1. rewrite Hdisp. destruct r as [r|].
    + exists r, s2, [c]. split; [done|]. split; [done|]. split; [|split].
      * econstructor; [done|]. rewrite Hqs2, Hqs1. constructor.
      * cbn [track_all]. unfold bind. rewrite <- Habs1, Htr. cbv [ret]. simpl. by rewrite app_nil_r.
      * done.
    + destruct (IH s2 Hwf2 Hidx') as (r & s' & cs & Hrun & Hwf' & Hpops & Htr' & _).
      exists r, s', (c :: cs). split; [done|]. split; [done|]. split; [|split].
      * econstructor; [done|]. by rewrite <- Hqs1, <- Hqs2.
      * cbn [track_all]. unfold bind. rewrite <- Habs1, Htr, Htr'. done.
      * done.
Qed.

Lemma get_completion_refines n s :
  group_wf n s.2 ->
  exists r s' cs, group_get_completion s = Done (r, s') /\ group_wf n s'.2 /\
    pops (queues s) cs (queues s') /\ track_all cs (abs s) = Done (option_list r, abs s') /\
    (concat (queues s) <> [] -> cs <> []).
Proof.
  intros Hwf. pose proof (wf_domains _ _ Hwf) as Hlen.
  destruct (get_completion_from_refines n (indices s.2) s Hwf) as (r & s' & cs & H1 & H2 & H3 & H4 & H5).
  { intros i Hi. unfold indices in Hi. apply elem_of_seq in Hi. lia. }
  exists r, s', cs. repeat (split; [done|]). intros Hne.
  destruct (concat (queues s)) as [|c l] eqn:Hc; [done|].
  assert (c ∈ concat (queues s)) as Hin by (rewrite Hc; set_solver).
  apply list_elem_of_In, in_concat in Hin as (q & Hq & Hcq).
  apply list_elem_of_In, list_elem_of_lookup in Hq as (i & Hi).
  apply (H5 i).
  - apply elem_of_seq. apply lookup_lt_Some in Hi. unfold queues in Hi.
    rewrite length_fmap in Hi. lia.
  - destruct q as [|c' q]; [done|]. by exists c', q.
Qed.

Lemma drain_refines n k s :
  group_wf n s.2 -> (length (concat (queues s)) <= k)%nat ->
  exists rs s' cs, times k group_get_completion s = Done (rs, s') /\ concat (queues s') = [] /\
    pops (queues s) cs (queues s') /\ track_all cs (abs s) = Done (omap id rs, abs s').
Proof.
  revert s. induction k as [|k IH]; intros s Hwf Hk.
  - exists [], s, []. split; [done|]. split; [apply length_zero_iff_nil; lia|].
    split; [constructor|done].
  - destruct (get_completion_refines n s Hwf) as (r & s1 & cs1 & Hrun1 & Hwf1 & Hp1 & Ht1 & Hne).
    pose proof (pops_perm _ _ _ Hp1) as Hperm. apply Permutation_length in Hperm.
    rewrite length_app in Hperm.
    destruct (IH s1 Hwf1) as (rs & s' & cs & Hrun & Hempty & Hp & Ht).
    { destruct (concat (queues s)) eqn:E; [simpl in *; lia|].
      destruct cs1; [exfalso; by apply Hne|simpl in *; lia]. }
    exists (r :: rs), s', (cs1 ++ cs). split; [|split; [done|split; [by eapply pops_app|]]].
    + cbn [times]. unfold bind. by rewrite Hrun1, Hrun.
    + destruct (track_all_run (cs1 ++ cs) (abs s)) as (out & t' & Hall).
      pose proof Hall as (o1 & o2 & t1 & -> & Ha & Hb)%track_all_app.
      rewrite Ht1 in Ha. simplify_eq. rewrite Ht in Hb. simplify_eq. rewrite Hall.
      destruct r; done.
Qed.

(** A transfer pending on the domains [ps]: it is returned once when each of them reports it and
    none fails, and never when one of them reports an error first or does not report it; the errors
    are forwarded. *)
Lemma drain_spread n k s tid ps :
  group_wf n s.2 -> (length (concat (queues s)) <= k)%nat ->
  write_ops s.2 !! tid = Some (new_ctx (length ps) None) -> ps <> [] -> NoDup ps ->
  (forall i q, i ∉ ps -> queues s !! i = Some q -> reports tid q = 0%nat) ->
  (forall i, i ∈ ps -> reports tid (queues s !!! i) <= 1)%nat ->
  exists rs s', times k group_get_completion s = Done (rs, s') /\ concat (queues s') = [] /\
    ((forall i, i ∈ ps -> reports tid (queues s !!! i) = 1%nat) ->
     (forall c, c ∈ concat (queues s) -> ~ is_error_of tid c) -> reports tid (omap id rs) = 1%nat) /\
    ((exists i, i ∈ ps /\ error_first tid (queues s !!! i)) -> reports tid (omap id rs) = 0%nat) /\
    ((exists i, i ∈ ps /\ reports tid (queues s !!! i) = 0%nat) -> reports tid (omap id rs) = 0%nat) /\
    (forall e, DcError tid e ∈ concat (queues s) -> DcError tid e ∈ omap id rs).
Proof.
  intros Hwf Hk Hctx Hne Hnd Hout Hin.
  destruct (drain_refines n k s Hwf Hk) as (rs & s' & cs & Hrun & Hempty & Hp & Ht).
  destruct (length ps) as [|m] eqn:Hm; [by destruct ps|].
  assert (tk_pending (abs s) !! tid = Some (S m, None)) as Hpend.
  { unfold abs; simpl. by rewrite lookup_fmap, Hctx. }
  pose proof (pops_perm _ _ _ Hp) as Hperm. rewrite Hempty, app_nil_r in Hperm.
  exists rs, s'. split; [done|]. split; [done|]. split; [|split; [|split]].
  - intros Hone Herr. rewrite (track_all_reports tid cs m _ _ _ Hpend ltac:(intros c Hc; apply Herr; by rewrite Hperm) Ht).
    rewrite decide_True; [done|]. rewrite <- (reports_perm tid _ _ Hperm), (reports_concat_at tid ps) by done.
    rewrite (sum_list_ones _ ps Hone). lia.
  - intros (i & Hi & Hfirst).
    assert (exists q, queues s !! i = Some q) as [q Hq].
    { destruct (queues s !! i) eqn:E; [by eexists|]. rewrite list_lookup_total_alt, E in Hfirst.
      destruct Hfirst as (pre & e & post & Heq & _). by destruct pre. }
    assert (queues s !!! i = q) as Hq' by (by rewrite list_lookup_total_alt, Hq). rewrite Hq' in Hfirst.
    destruct (pops_error_first tid i _ _ _ q Hp Hempty Hq Hfirst) as (cs1 & e & cs2 & -> & Hn & Hr).
    assert (reports tid cs1 < S m)%nat as Hlt.
    { eapply Nat.le_lt_trans; [exact Hr|]. rewrite <- Hm, (reports_concat_at tid ps) by
        (done || (intros j q' Hj; rewrite list_lookup_insert_ne by set_solver; by apply Hout)).
      apply (sum_list_below _ ps i); [intros j Hj|done|].
      - destruct (decide (i = j)) as [<-|Hij]; [|rewrite list_lookup_total_insert_ne by done; by apply Hin].
        rewrite list_lookup_total_insert_eq by (by eapply lookup_lt_Some). apply Nat.le_0_l.
      - by rewrite list_lookup_total_insert_eq by (by eapply lookup_lt_Some). }
    by destruct (track_all_error tid e cs1 cs2 m _ _ _ Hpend Hn Hlt Ht).
  - intros (i & Hi & Hz). eapply (track_all_below tid cs m); [exact Hpend| |exact Ht].
    rewrite <- (reports_perm tid _ _ Hperm), (reports_concat_at tid ps), <- Hm by done.
    apply (sum_list_below _ ps i); [done..|lia].
  - intros e He. eapply track_all_error_forwarded; [done|]. by rewrite <- Hperm.
Qed.

(** C1: [DomainGroup::get_completion] implements the abstract tracker.  From every well-formed
    group, calling it as often as there are entries in the domains' queues empties the queues
    without a panic, and what it returns is exactly what the tracker emits on some order of the
    entries that respects each domain's queue; the group's bookkeeping and the shared counters
    end in the tracker's state. *)
Theorem get_completion_refines_tracker n k s :
  group_wf n s.2 -> (length (concat (queues s)) <= k)%nat ->
  exists rs s' cs, times k group_get_completion s = Done (rs, s') /\ concat (queues s') = [] /\
    pops (queues s) cs (queues s') /\ track_all cs (abs s) = Done (omap id rs, abs s').
Proof. apply drain_refines. Qed.

(** C2: a transfer without a [TransferCounter] is reported exactly once, when the last of the
    domains it was sharded over is done.  Draining a well-formed group whose queues hold no
    error of [tid] returns [Transfer(tid)] once if the queues hold at least as many
    completions of [tid] as it still waits for, and not at all otherwise. *)
Theorem transfer_reported_exactly_once n k s tid ctx :
  group_wf n s.2 -> (length (concat (queues s)) <= k)%nat ->
  write_ops s.2 !! tid = Some ctx -> num_used_domains ctx <> 0%nat -> woc_tx_counter ctx = None ->
  (forall c, c ∈ concat (queues s) -> ~ is_error_of tid c) ->
  exists rs s', times k group_get_completion s = Done (rs, s') /\
    reports tid (omap id rs) =
      (if decide (num_used_domains ctx - cnt_domain_completion ctx <= reports tid (concat (queues s)))
       then 1 else 0)%nat.
Proof.
  intros Hwf Hk Hctx Hnz Htx Hne.
  destruct (drain_refines n k s Hwf Hk) as (rs & s' & cs & Hrun & Hempty & Hp & Ht).
  exists rs, s'. split; [done|]. apply pops_perm in Hp. rewrite Hempty, app_nil_r in Hp.
  apply (wf_ctxs _ _ Hwf) in Hctx as Hcw. unfold ctx_wf in Hcw.
  rewrite (reports_perm _ _ _ Hp).
  destruct (num_used_domains ctx - cnt_domain_completion ctx)%nat as [|m] eqn:Hm; [lia|].
  eapply track_all_reports; [|intros c Hc; apply Hne; by rewrite Hp|exact Ht].
  unfold abs; simpl. rewrite lookup_fmap, Hctx. simpl. unfold abs_ctx. by rewrite Hm, Htx.
Qed.

(** The entries [cs] handled one after the other. *)
Fixpoint dispatch_all (cs : list DomainCompletionEntry) :
    M (Shared * DomainGroup D) (list DomainCompletionEntry) :=
  match cs with
  | [] => ret []
  | c :: cs =>
      let! r := dispatch_completion c in
      let! out := dispatch_all cs in
      ret (option_list (mjoin r) ++ out)
  end.

Lemma dispatch_all_refines n cs s :
  group_wf n s.2 ->
  exists out s', dispatch_all cs s = Done (out, s') /\ track_all cs (abs s) = Done (out, abs s').
Proof.
  revert s. induction cs as [|c cs IH]; intros s Hwf; [by exists [], s|].
  destruct (dispatch_refines n c s Hwf) as (r & s1 & Hd & Ht & _).
  destruct (IH s1) as (out & s' & Hd' & Ht').
  { by eapply dispatch_group_wf. }
  eexists _, s'. cbn [dispatch_all track_all]. unfold bind. by rewrite Hd, Hd', Ht, Ht'.
Qed.

(** After a failure a transfer is never reported complete.  If [Error(tid, e)] is handled
    before [tid] has all its domain completions, then over every later sequence of entries no
    [Transfer(tid)] is returned, the error is delivered, and every entry that is not a
    [Transfer] is forwarded in order. *)
Theorem no_report_after_error n s tid ctx e cs1 cs2 :
  group_wf n s.2 -> write_ops s.2 !! tid = Some ctx -> num_used_domains ctx <> 0%nat ->
  woc_tx_counter ctx = None -> (forall c, c ∈ cs1 -> ~ is_error_of tid c) ->
  (reports tid cs1 < num_used_domains ctx - cnt_domain_completion ctx)%nat ->
  exists out s', dispatch_all (cs1 ++ DcError tid e :: cs2) s = Done (out, s') /\
    reports tid out = 0%nat /\ DcError tid e ∈ out /\
    filter not_transfer out = filter not_transfer (cs1 ++ DcError tid e :: cs2).
Proof.
  intros Hwf Hctx Hnz Htx Hne Hlt.
  destruct (dispatch_all_refines n (cs1 ++ DcError tid e :: cs2) s Hwf) as (out & s' & Hrun & Ht).
  exists out, s'. split; [done|].
  destruct (num_used_domains ctx - cnt_domain_completion ctx)%nat as [|m] eqn:Hm; [lia|].
  destruct (track_all_error tid e cs1 cs2 m (abs s) out (abs s')) as [? ?]; [|done..|].
  - unfold abs; simpl. rewrite lookup_fmap, Hctx. simpl. unfold abs_ctx. by rewrite Hm, Htx.
  - repeat (split; [done|]). by eapply track_all_forwards.
Qed.
End Refinement.

(** ** Conservation of transfer counters *)

(** The pending transfers whose [TransferCounter] is at location [l]. *)
Definition waiting (l : nat) (m : gmap Z (nat * option TransferCounter)) : nat :=
  size (filter (fun x => tx_counter_loc <$> x.2.2 = Some l) m).

Definition counter_value (l : nat) (t : Tracker) : Z := cell (heap (tk_shared t)) l.

Record counters_ok (l : nat) (t : Tracker) : Prop := {
  ok_err : forall tid k tx, tk_pending t !! tid = Some (k, Some tx) -> tx_err_counter_loc tx <> l;
  ok_lo : - 2 ^ 63 <= counter_value l t;
  ok_hi : counter_value l t + Z.of_nat (waiting l (tk_pending t)) < 2 ^ 63;
}.

Lemma waiting_delete l m tid p :
  m !! tid = Some p ->
  waiting l m = (waiting l (delete tid m) + if decide (tx_counter_loc <$> p.2 = Some l) then 1 else 0)%nat.
Proof.
  intros Hm. unfold waiting. rewrite map_filter_delete. case_decide as Hp.
  - rewrite map_size_delete_Some; [|exists p; by apply map_lookup_filter_Some].
    assert (size (filter (fun x => tx_counter_loc <$> x.2.2 = Some l) m) <> 0%nat); [|lia].
    intros Hz%map_size_empty_inv.
    assert (filter (fun x => tx_counter_loc <$> x.2.2 = Some l) m !! tid = Some p) as Hl
      by by apply map_lookup_filter_Some.
    by rewrite Hz, lookup_empty in Hl.
  - rewrite map_size_delete_None; [lia|]. apply map_lookup_filter_None. right. intros x ?.
    by simplify_eq.
Qed.

Lemma waiting_insert l m tid k k' tx :
  m !! tid = Some (k, tx) -> waiting l (<[tid := (k', tx)]> m) = waiting l m.
Proof.
  intros Hm. rewrite (waiting_delete l m tid _ Hm).
  rewrite (waiting_delete l (<[tid := (k', tx)]> m) tid (k', tx)) by apply lookup_insert_eq.
  by rewrite delete_insert_eq.
Qed.

(** What [done] and [error] do to the cell at [l]. *)
Lemma tk_count_done tx l t :
  (tx_counter_loc tx = l -> in_i64 (counter_value l t + 1)) ->
  exists t', tk_count (tx_done tx) t = Done (tt, t') /\ tk_pending t' = tk_pending t /\
    counter_value l t' = counter_value l t + if decide (tx_counter_loc tx = l) then 1 else 0.
Proof.
  intros Hr. eexists. split; [done|]. split; [done|]. unfold counter_value in *; simpl.
  rewrite cell_insert. case_decide as Hl; [|lia]. specialize (Hr Hl). subst. by rewrite wrap_i64_small.
Qed.

Lemma tk_count_error tx l t :
  (tx_counter_loc tx = l -> in_i64 (counter_value l t + 1)) -> tx_err_counter_loc tx <> l ->
  exists t', tk_count (tx_error tx) t = Done (tt, t') /\ tk_pending t' = tk_pending t /\
    counter_value l t' = counter_value l t + if decide (tx_counter_loc tx = l) then 1 else 0.
Proof.
  intros Hr Hne. eexists. split; [done|]. split; [done|]. unfold counter_value in *; simpl.
  rewrite !cell_insert. rewrite (decide_False _ _ Hne).
  case_decide as Hl; [|lia]. specialize (Hr Hl). subst. by rewrite (decide_False _ _ Hne), wrap_i64_small.
Qed.

(** Removing a pending transfer and advancing its counter conserves the sum. *)
Lemma finish_conserves l tid k otx t t' :
  counters_ok l t -> tk_pending t !! tid = Some (k, otx) ->
  tk_pending t' = delete tid (tk_pending t) ->
  counter_value l t' =
    counter_value l t + (if decide (tx_counter_loc <$> otx = Some l) then 1 else 0) ->
  counters_ok l t' /\
  counter_value l t' + Z.of_nat (waiting l (tk_pending t')) =
  counter_value l t + Z.of_nat (waiting l (tk_pending t)).
Proof.
  intros [He Hlo Hhi] Hp Hd Hv. pose proof (waiting_delete l _ _ _ Hp) as Hw. simpl in Hw.
  assert (counter_value l t' + Z.of_nat (waiting l (tk_pending t')) =
    counter_value l t + Z.of_nat (waiting l (tk_pending t))) as Hsum.
  { rewrite Hd, Hv, Hw. case_decide; lia. }
  split; [|done]. split; [|rewrite Hv; case_decide; lia|lia].
  intros tid' k' tx'. rewrite Hd. intros [_ ?]%lookup_delete_Some. eauto.
Qed.

Lemma counter_room l tid k tx t :
  counters_ok l t -> tk_pending t !! tid = Some (k, Some tx) -> tx_counter_loc tx = l ->
  in_i64 (counter_value l t + 1).
Proof.
  intros [_ Hlo Hhi] Hp Hl. rewrite (waiting_delete l _ _ _ Hp) in Hhi. simpl in Hhi.
  rewrite decide_True in Hhi by congruence. unfold in_i64. lia.
Qed.

Lemma track_conserves l c t o t' :
  counters_ok l t -> track c t = Done (o, t') ->
  counters_ok l t' /\
  counter_value l t' + Z.of_nat (waiting l (tk_pending t')) =
  counter_value l t + Z.of_nat (waiting l (tk_pending t)).
Proof.
  intros Hok. pose proof Hok as [He Hlo Hhi].
  destruct c as [ | |tid| | |tid err]; try (cbv [track ret]; intros; by simplify_eq);
    unfold track; cbv [bind gets]; destruct (tk_pending t !! tid) as [[k otx]|] eqn:Hp.
  - destruct k as [|[|k]]; [cbv [ret]; by intros; simplify_eq| |].
    + cbv [tk_set modify]. destruct otx as [tx|].
      * destruct (tk_count_done tx l {| tk_shared := tk_shared t; tk_pending := delete tid (tk_pending t) |})
          as (t1 & -> & Hp1 & Hv1); [exact (counter_room l tid _ tx t Hok Hp)|].
        cbv [ret]. intros; simplify_eq. eapply finish_conserves; [done|done|done|].
        rewrite Hv1. simpl. do 2 case_decide; simplify_eq; done.
      * cbv [ret]. intros; simplify_eq. eapply finish_conserves; [done|done|done|]. simpl.
        unfold counter_value; simpl. lia.
    + cbv [tk_set modify ret]. intros; simplify_eq. simpl.
      rewrite (waiting_insert l _ tid (S (S k)) (S k) otx) by done. split; [|done]. split; simpl;
        [|done|by rewrite (waiting_insert l _ tid (S (S k)) (S k) otx)].
      intros tid' k' tx'. rewrite lookup_insert. case_decide; [|apply He].
      intros; simplify_eq. by eapply He.
  - cbv [ret]. by intros; simplify_eq.
  - cbv [tk_set modify]. destruct otx as [tx|].
    + destruct (tk_count_error tx l {| tk_shared := tk_shared t; tk_pending := delete tid (tk_pending t) |})
        as (t1 & -> & Hp1 & Hv1); [exact (counter_room l tid _ tx t Hok Hp)|by eapply He|].
      cbv [ret]. intros; simplify_eq. eapply finish_conserves; [done|done|done|].
      rewrite Hv1. simpl. do 2 case_decide; simplify_eq; done.
    + cbv [ret]. intros; simplify_eq. eapply finish_conserves; [done|done|done|]. simpl.
      unfold counter_value; simpl. lia.
  - cbv [tk_set modify ret]. intros; simplify_eq. rewrite delete_id by done. simpl.
    split; [|done]. by split.
Qed.

Lemma track_all_conserves l cs t out t' :
  counters_ok l t -> track_all cs t = Done (out, t') ->
  counters_ok l t' /\
  counter_value l t' + Z.of_nat (waiting l (tk_pending t')) =
  counter_value l t + Z.of_nat (waiting l (tk_pending t)).
Proof.
  revert t out. induction cs as [|c cs IH]; intros t out Hok Hrun.
  { cbv [track_all ret] in Hrun. by simplify_eq. }
  cbn [track_all] in Hrun. unfold bind in Hrun.
  destruct (track c t) as [[o t1]| |] eqn:E; [|done|done].
  destruct (track_all cs t1) as [[o' t2]| |] eqn:E2; [|done|done]. cbv [ret] in Hrun. simplify_eq.
  destruct (track_conserves _ _ _ _ _ Hok E) as [Hok1 Hs1].
  destruct (IH _ _ Hok1 E2) as [Hok2 Hs2]. split; [done|lia].
Qed.

(** C33: a [TransferCounter] is advanced exactly once per transfer submitted with it.  Draining
    the queues conserves, for every counter, its value plus the number of pending transfers
    that hold it (also when transfers fail); when none is left the counter has advanced by the
    number of transfers that were pending. *)
Theorem transfer_counter_conserved {D} `{RdmaDomainLaws D} n k (s : Shared * DomainGroup D) l :
  group_wf n s.2 -> (length (concat (queues s)) <= k)%nat -> counters_ok l (abs s) ->
  exists rs s', times k group_get_completion s = Done (rs, s') /\
    counter_value l (abs s') + Z.of_nat (waiting l (tk_pending (abs s'))) =
      counter_value l (abs s) + Z.of_nat (waiting l (tk_pending (abs s))) /\
    (waiting l (tk_pending (abs s')) = 0%nat ->
     counter_value l (abs s') = counter_value l (abs s) + Z.of_nat (waiting l (tk_pending (abs s)))).
Proof.
  intros Hwf Hk Hok. destruct (drain_refines n k s Hwf Hk) as (rs & s' & cs & Hrun & _ & _ & Ht).
  destruct (track_all_conserves l _ _ _ _ Hok Ht) as [_ Hs].
  exists rs, s'. split; [done|]. split; [done|lia].
Qed.

(** ** Witnesses on two loopback domains *)
Definition paged_req : PagedTransferRequest := {|
  pr_length := 256; pr_src_mr := 4096; pr_src_page_indices := [0; 1; 2]; pr_src_stride := 256;
  pr_src_offset := 0; pr_dst_mr := lb_remote; pr_dst_page_indices := [5; 6; 7];
  pr_dst_stride := 256; pr_dst_offset := 0; pr_imm_data := Some 9 |}.

Definition example_counter : TransferCounter := {| tx_counter_loc := 0; tx_err_counter_loc := 1 |}.

Definition run_state {S} (m : M S unit) (s : S) : S :=
  match m s with Done (_, s') => s' | _ => s end.

Definition submitted (tx : option TransferCounter) : Shared * DomainGroup Loopback :=
  run_state (exec_group_op (GSubmit 7 (ReqPaged paged_req) tx)) (new_map, new lb_two).

Lemma lb_two_wf : group_wf 2 (new lb_two).
Proof. apply (new_wf lb_two). done. Qed.

Lemma domain_group_invariant_witness :
  exec_group_op (GSubmit 7 (ReqPaged paged_req) None) (new_map, new lb_two)
    = Done (tt, submitted None) /\ group_wf 2 (submitted None).2 /\
  (forall tid ctx, write_ops (submitted None).2 !! tid = Some ctx ->
     (cnt_domain_completion ctx < num_used_domains ctx)%nat).
Proof.
  destruct (domain_group_invariant 2 (fun _ => False) (GSubmit 7 (ReqPaged paged_req) None) (new_map, new lb_two)
    (submitted None)) as (H1 & _ & H3); [apply lb_two_wf|intros tid ctx; cbn; by rewrite lookup_empty| | |].
  - intros tid r tx [= <- <- <-]. discriminate.
  - vm_compute. reflexivity.
  - split; [vm_compute; reflexivity|]. split; [exact H1|]. intros tid ctx Hc. apply (H3 tid ctx Hc). tauto.
Defined.

Lemma submitted_wf tx : group_wf 2 (submitted tx).2.
Proof.
  split; [reflexivity|vm_compute; lia|].
  change (write_ops (submitted tx).2) with (<[7 := new_ctx 2 tx]> (∅ : gmap Z WriteOpContext)).
  apply map_Forall_insert_2; [|apply map_Forall_empty]. left. simpl. lia.
Qed.

Lemma get_completion_refines_tracker_witness :
  exists rs s' cs, times 2 group_get_completion (submitted None) = Done (rs, s') /\
    concat (queues s') = [] /\ pops (queues (submitted None)) cs (queues s') /\
    track_all cs (abs (submitted None)) = Done (omap id rs, abs s').
Proof.
  apply (get_completion_refines_tracker 2 2 (submitted None)); [apply submitted_wf|].
  vm_compute. lia.
Defined.

Lemma transfer_reported_exactly_once_witness :
  exists rs s', times 2 group_get_completion (submitted None) = Done (rs, s') /\
    reports 7 (omap id rs) = 1%nat.
Proof.
  destruct (transfer_reported_exactly_once 2 2 (submitted None) 7 (new_ctx 2 None))
    as (rs & s' & Hrun & Hr); [apply submitted_wf|vm_compute; lia|reflexivity|done|done| |].
  - intros c Hc [e ->]. vm_compute in Hc. set_solver.
  - exists rs, s'. split; [exact Hrun|]. rewrite Hr. rewrite decide_True; [done|vm_compute; lia].
Defined.

Lemma no_report_after_error_witness :
  exists out s', dispatch_all ([DcTransfer 7] ++ DcError 7 (Custom "down") :: [DcTransfer 7])
      (submitted None) = Done (out, s') /\
    reports 7 out = 0%nat /\ DcError 7 (Custom "down") ∈ out /\
    filter not_transfer out =
      filter not_transfer ([DcTransfer 7] ++ DcError 7 (Custom "down") :: [DcTransfer 7]).
Proof.
  apply (no_report_after_error 2 (submitted None) 7 (new_ctx 2 None) (Custom "down")
           [DcTransfer 7] [DcTransfer 7]); [apply submitted_wf|reflexivity|done|done| |].
  - intros c Hc [e ->]. set_solver.
  - vm_compute. lia.
Defined.

Lemma transfer_counter_conserved_witness :
  exists rs s', times 2 group_get_completion (submitted (Some example_counter)) = Done (rs, s') /\
    counter_value 0 (abs s') + Z.of_nat (waiting 0 (tk_pending (abs s'))) = 0 + Z.of_nat 1 /\
    (waiting 0 (tk_pending (abs s')) = 0%nat -> counter_value 0 (abs s') = 0 + Z.of_nat 1).
Proof.
  apply (transfer_counter_conserved 2 2 (submitted (Some example_counter)) 0);
    [apply submitted_wf|vm_compute; lia|].
  split; [|vm_compute; congruence..]. intros tid k tx.
  change (tk_pending _) with ({[7 := (2%nat, Some example_counter)]} : gmap Z _).
  intros [_ Heq]%lookup_singleton_Some. simplify_eq. done.
Defined.
