(* ===== verification/WritePlan.v ===== *)
(** * The writes of a transfer request

    What each request kind posts, as an explicit plan: which domain gets which operation.  The
    theorems equate the method with running its plan (on every outcome of the domain) and state
    what the plan covers. *)
From stdpp Require Import prelude gmap strings list.
From S2P Require Import Prelude Api ImmCount Sharding Provider DomainGroup DomainGroupSpec.
From S2P Require Import Loopback Completion.
Local Open Scope Z_scope.

(** ** Loops over chunks *)
Lemma for_each_concat {S A} (ls : list (list A)) (body : A -> M S unit) s :
  for_each (concat ls) body s = for_each ls (fun l => for_each l body) s.
Proof.
  revert s. induction ls as [|l ls IH]; intros s; simpl; [done|].
  rewrite for_each_app. unfold bind. destruct (for_each l body s) as [[? ?]| |]; [apply IH|done|done].
Qed.

Lemma for_each_fmap {S A B} (f : A -> B) (l : list A) (body : B -> M S unit) s :
  for_each (f <$> l) body s = for_each l (fun x => body (f x)) s.
Proof.
  revert s. induction l as [|x l IH]; intros s; simpl; [done|].
  unfold bind. destruct (body (f x) s) as [[? ?]| |]; [apply IH|done|done].
Qed.

Lemma for_each_ext {S A} (l : list A) (b1 b2 : A -> M S unit) s :
  (forall x s, x ∈ l -> b1 x s = b2 x s) -> for_each l b1 s = for_each l b2 s.
Proof.
  revert s. induction l as [|x l IH]; intros s Hb; simpl; [done|].
  unfold bind. rewrite Hb by set_solver. destruct (b2 x s) as [[? ?]| |]; [|done|done].
  apply IH. intros ? ? ?. apply Hb. set_solver.
Qed.

(** Element [k] of a list cut in chunks of [per] is in chunk [k / per]. *)
Lemma chunks_flatten {A} fuel per c (l : list A) :
  (0 < per)%nat -> (length l <= fuel)%nat ->
  concat (imap (fun i part => (fun x => ((c + i)%nat, x)) <$> part) (chunks_aux fuel per l)) =
  imap (fun k x => ((c + k / per)%nat, x)) l.
Proof.
  intros Hper. revert c l. induction fuel as [|fuel IH]; intros c l Hl.
  { destruct l; [done|simpl in Hl; lia]. }
  destruct l as [|x l]; [done|]. cbn [chunks_aux]. set (l0 := x :: l) in *.
  cbn [imap concat]. rewrite <- (take_drop per l0) at 3. rewrite imap_app. f_equal.
  - rewrite <- imap_const. apply imap_ext. intros k y Hk%lookup_lt_Some.
    rewrite length_take in Hk. rewrite Nat.div_small by lia. done.
  - trans (concat (imap (fun i part => (fun x => ((S c + i)%nat, x)) <$> part)
      (chunks_aux fuel per (drop per l0)))).
    { f_equal. apply imap_ext. intros i part _. apply list_fmap_ext. intros _ y _. f_equal. lia. }
    rewrite IH by (rewrite length_drop; unfold l0; simpl in *; lia).
    apply imap_ext. intros k y Hk%lookup_lt_Some. rewrite length_drop in Hk.
    rewrite length_take. replace (Nat.min per (length l0) + k)%nat with (1 * per + k)%nat by lia.
    rewrite Nat.div_add_l by lia. f_equal. lia.
Qed.

Section Plans.
Context {D : Type} `{RdmaDomainLaws D}.
Implicit Types g : DomainGroup D.

(** The local descriptor of the region at [ptr] on every domain. *)
Definition descs_are (ptr : Z) (desc : nat -> Z) g : Prop :=
  forall i d, domains g !! i = Some d -> get_mem_desc ptr d = Ok (desc i).

Lemma domain_mem_desc_run ptr desc g i :
  descs_are ptr desc g -> (i < length (domains g))%nat ->
  domain_mem_desc i ptr g = Done (Ok (desc i), g).
Proof.
  intros Hd Hi. destruct (lookup_lt_is_Some_2 _ _ Hi) as (d & Hl).
  cbv [domain_mem_desc on_domain gets]. rewrite Hl, (Hd i d Hl), list_insert_id by done.
  by destruct g.
Qed.

Lemma on_domain_set_rr {A} i (m : M D A) rr g :
  on_domain i m (set_rr_next rr g) =
  match on_domain i m g with
  | Done (a, g') => Done (a, set_rr_next rr g')
  | Panic why => Panic why
  | OutOfFuel => OutOfFuel
  end.
Proof. cbv [on_domain]. simpl. destruct (domains g !! i); [|done]. by destruct (m d) as [[? ?]| |]. Qed.

Lemma on_domain_done {A} i (m : M D A) g a g' :
  on_domain i m g = Done (a, g') ->
  exists d d', domains g !! i = Some d /\ m d = Done (a, d') /\
    g' = set_domains (<[i := d']> (domains g)) g.
Proof.
  cbv [on_domain]. destruct (domains g !! i) as [d|]; [|done].
  destruct (m d) as [[? ?]| |] eqn:E; [|done|done]. intros; simplify_eq. eauto.
Qed.

Lemma submit_write_descs i tid a op ptr desc g g' :
  on_domain i (submit_write tid a op) g = Done (tt, g') ->
  descs_are ptr desc g -> descs_are ptr desc g' /\ length (domains g') = length (domains g) /\
  rr_next g' = rr_next g.
Proof.
  intros (d & d' & Hd & Hw & ->)%on_domain_done Hdesc. split; [|by simpl; rewrite length_insert].
  intros j e. simpl. rewrite list_lookup_insert. case_decide as Hc.
  - intros ?; simplify_eq. destruct Hc as [<- _]. rewrite (submit_write_mem_desc _ _ _ _ _ _ Hw). eauto.
  - eauto.
Qed.

(** ** Paged requests *)
Definition page_plan (n rr : nat) (ranges : list (nat * nat)) : list (nat * (nat * nat)) :=
  imap (fun j range => (((rr + j) mod n)%nat, range)) ranges.

Definition post_page (tid : Z) (r : PagedTransferRequest) (desc : nat -> Z)
    (w : nat * (nat * nat)) : M (DomainGroup D) unit :=
  let! dst := unwrap (addr_rkey_list (pr_dst_mr r) !! w.1) "index out of bounds" in
  on_domain w.1 (submit_write tid dst.1 (paged_op r w.2 (desc w.1) dst.2)).

Lemma next_rr_run n g :
  (0 < n)%nat -> next_rr n g = Done (rr_next g, set_rr_next ((rr_next g + 1) mod n) g).
Proof. intros Hn. cbv [next_rr bind gets usize_rem modify ret]. by rewrite decide_False by lia. Qed.

Lemma post_page_set_rr tid r desc w rr g :
  post_page tid r desc w (set_rr_next rr g) =
  match post_page tid r desc w g with
  | Done (a, g') => Done (a, set_rr_next rr g')
  | Panic why => Panic why
  | OutOfFuel => OutOfFuel
  end.
Proof. cbv [post_page bind unwrap]. destruct (_ !! _); [apply on_domain_set_rr|done]. Qed.

Lemma page_plan_cons n rr range ranges :
  (0 < n)%nat -> (rr < n)%nat ->
  page_plan n rr (range :: ranges) = (rr, range) :: page_plan n ((rr + 1) mod n) ranges.
Proof.
  intros Hn Hrr. unfold page_plan. simpl. rewrite Nat.add_0_r, Nat.mod_small by done. f_equal.
  apply imap_ext. intros j x _. simpl. f_equal.
  rewrite Nat.Div0.add_mod_idemp_l. f_equal. lia.
Qed.

Lemma submit_page_range_run tid r desc n range g :
  length (domains g) = n -> (rr_next g < n)%nat -> descs_are (pr_src_mr r) desc g ->
  submit_page_range tid r n range g =
  match post_page tid r desc (rr_next g, range) g with
  | Done (_, g1) => Done (Ok tt, set_rr_next ((rr_next g + 1) mod n) g1)
  | Panic why => Panic why
  | OutOfFuel => OutOfFuel
  end.
Proof.
  intros Hn Hrr Hd. unfold submit_page_range, post_page. cbn [fst snd].
  unfold bind at 1. rewrite next_rr_run by lia.
  unfold bind at 1 3. destruct (addr_rkey_list (pr_dst_mr r) !! rr_next g) as [dst|]; cbn [unwrap];
    [|done]. cbv [ret]. cbn iota beta. unfold bind_res, bind.
  rewrite (domain_mem_desc_run _ desc) by (simpl; done || lia).
  rewrite on_domain_set_rr. by destruct (on_domain (rr_next g) _ g) as [[[] g1]| |].
Qed.

Lemma page_loop_plan tid r desc n ranges g :
  length (domains g) = n -> (rr_next g < n)%nat -> descs_are (pr_src_mr r) desc g ->
  try_for_each ranges (submit_page_range tid r n) g =
  (for_each (page_plan n (rr_next g) ranges) (post_page tid r desc) ;;; ret (Ok tt))
    (set_rr_next ((rr_next g + length ranges) mod n) g).
Proof.
  revert g. induction ranges as [|range ranges IH]; intros g Hn Hrr Hd.
  { cbn. cbv [bind ret]. rewrite Nat.add_0_r, Nat.mod_small by done. by destruct g. }
  rewrite page_plan_cons by lia. cbn [try_for_each for_each]. cbv [bind_res bind].
  rewrite (submit_page_range_run _ _ desc) by done. rewrite post_page_set_rr.
  destruct (post_page tid r desc (rr_next g, range) g) as [[[] g1]| |] eqn:Hw; [|done|done].
  cbv [post_page bind unwrap] in Hw. destruct (_ !! _) as [dst|]; [|done]. cbv [ret] in Hw.
  destruct (submit_write_descs _ _ _ _ _ desc _ _ Hw Hd) as (Hd1 & Hn1 & Hr1).
  assert ((rr_next g + 1) mod n < n)%nat by (apply Nat.mod_upper_bound; lia).
  rewrite (IH (set_rr_next ((rr_next g + 1) mod n) g1)); simpl; [|congruence|done|done].
  rewrite Nat.Div0.add_mod_idemp_l.
  replace (rr_next g + 1 + length ranges)%nat with (rr_next g + S (length ranges))%nat by lia.
  cbv [bind]. done.
Qed.

Lemma page_plan_range n rr ranges i range :
  (0 < n)%nat -> (i, range) ∈ page_plan n rr ranges -> (i < n)%nat.
Proof.
  intros Hn Hin. unfold page_plan in Hin. apply list_elem_of_lookup in Hin as (j & Hj).
  rewrite list_lookup_imap in Hj. destruct (ranges !! j); simplify_eq/=. apply Nat.mod_upper_bound. lia.
Qed.

Lemma mod_shift_inj n rr j k :
  (j < n)%nat -> (k < n)%nat -> ((rr + j) mod n = (rr + k) mod n)%nat -> j = k.
Proof.
  intros Hj Hk He. pose proof (Nat.div_mod_eq (rr + j) n). pose proof (Nat.div_mod_eq (rr + k) n).
  rewrite He in *. set (q1 := ((rr + j) / n)%nat) in *. set (q2 := ((rr + k) / n)%nat) in *.
  destruct (lt_eq_lt_dec q1 q2) as [[Hq|Hq]|Hq]; [|rewrite Hq in *; lia|].
  - pose proof (Nat.mul_le_mono_l (S q1) q2 n Hq). lia.
  - pose proof (Nat.mul_le_mono_l (S q2) q1 n Hq). lia.
Qed.

Lemma page_plan_nodup n rr ranges :
  (length ranges <= n)%nat -> NoDup (page_plan n rr ranges).*1.
Proof.
  intros Hl. apply NoDup_alt. intros j k i. unfold page_plan.
  rewrite !list_lookup_fmap, !list_lookup_imap.
  destruct (ranges !! j) eqn:Ej; destruct (ranges !! k) eqn:Ek; simpl; intros; simplify_eq.
  apply lookup_lt_Some in Ej, Ek. eapply mod_shift_inj; [| |done]; lia.
Qed.

Lemma page_plan_snd n rr ranges : (page_plan n rr ranges).*2 = ranges.
Proof.
  apply list_eq. intros j. unfold page_plan. rewrite list_lookup_fmap, list_lookup_imap.
  by destruct (ranges !! j).
Qed.

(** The method as the run of its plan. *)
Lemma paged_request_run tid r tx n desc g :
  group_wf n g -> descs_are (pr_src_mr r) desc g ->
  length (addr_rkey_list (pr_dst_mr r)) = n ->
  length (pr_src_page_indices r) = length (pr_dst_page_indices r) ->
  let plan := page_plan n (rr_next g) (divide (length (pr_src_page_indices r)) n) in
  submit_paged_transfer_request tid r tx g =
    (for_each plan (post_page tid r desc) ;;; ret (Ok tt))
      (set_rr_next ((rr_next g + length plan) mod n)
        (set_write_ops (<[tid := new_ctx (length plan) tx]> (write_ops g)) g)).
Proof.
  intros [Hn Hrr Hctx] Hd Hl Hp plan.
  assert (length plan = length (divide (length (pr_src_page_indices r)) n)) as Hlen
    by (unfold plan, page_plan; by rewrite length_imap).
  unfold submit_paged_transfer_request. cbv [bind num_domains gets]. rewrite Hn, Hl, Hp.
  rewrite !Nat.eqb_refl. cbn [negb]. rewrite divide_evenly_run by lia. cbv [insert_write_op modify].
  rewrite (page_loop_plan _ _ desc) by done. simpl. rewrite <- Hp, Hlen. done.
Qed.

(** Its writes go to different domains, and their ranges cover the pages. *)
Lemma page_plan_ok n rr pages :
  (0 < n)%nat ->
  let plan := page_plan n rr (divide pages n) in
  (length plan <= n)%nat /\ NoDup plan.*1 /\ (forall i range, (i, range) ∈ plan -> (i < n)%nat) /\
  tiles 0 pages plan.*2.
Proof.
  intros Hn plan. split; [|split; [|split]].
  - unfold plan, page_plan. rewrite length_imap. apply divide_loop_length.
  - apply page_plan_nodup, divide_loop_length.
  - intros i range. by apply page_plan_range.
  - unfold plan. rewrite page_plan_snd. by apply divide_tiles.
Qed.

(** C5: a paged request writes every page exactly once.  On a well-formed group whose domains
    all have the source region registered, [submit_paged_transfer_request] records the transfer
    with the number of writes it makes and then posts the plan: one write per non-empty page
    range, each to a different domain, with the local descriptor, remote address and remote key
    of that same domain; the page ranges are consecutive and cover all the pages.  The equation
    holds for every outcome of the domains' [submit_write]. *)
Theorem paged_request_writes_each_page_once tid r tx n desc g :
  group_wf n g -> descs_are (pr_src_mr r) desc g ->
  length (addr_rkey_list (pr_dst_mr r)) = n ->
  length (pr_src_page_indices r) = length (pr_dst_page_indices r) ->
  let pages := length (pr_src_page_indices r) in
  exists plan,
    submit_paged_transfer_request tid r tx g =
      (for_each plan (post_page tid r desc) ;;; ret (Ok tt))
        (set_rr_next ((rr_next g + length plan) mod n)
          (set_write_ops (<[tid := new_ctx (length plan) tx]> (write_ops g)) g)) /\
    (length plan <= n)%nat /\ NoDup plan.*1 /\ (forall i range, (i, range) ∈ plan -> (i < n)%nat) /\
    tiles 0 pages plan.*2.
Proof.
  intros Hwf Hd Hl Hp pages. eexists. split; [by apply paged_request_run|].
  apply page_plan_ok. pose proof (wf_rr _ _ Hwf). lia.
Qed.

(** ** Immediate and barrier requests *)
Definition imm_first (d : DomainGroupRouting) (rr : nat) : nat :=
  match d with RoundRobinSharded _ => rr | Pinned i => Z.to_nat i end.
Definition imm_per (d : DomainGroupRouting) (n len : nat) : nat :=
  match d with RoundRobinSharded _ => nat_div_ceil len n | Pinned _ => len end.
Definition imm_rr (d : DomainGroupRouting) (n rr len : nat) : nat :=
  match d with RoundRobinSharded _ => (rr + Nat.min n len) mod n | Pinned _ => rr end.
Definition imm_routing_ok (d : DomainGroupRouting) (n : nat) : Prop :=
  match d with RoundRobinSharded k => k = 1 | Pinned i => 0 <= i < Z.of_nat n end.

(** Destination [k], with the index of its address and the domain that posts the write. *)
Definition imm_plan (n first per : nat) (mrs : list MemoryRegionDescriptor) :
    list (nat * nat * MemoryRegionDescriptor) :=
  imap (fun k mr => ((k / per)%nat, ((first + k / per) mod n)%nat, mr)) mrs.

Lemma imm_per_pos d n len : (0 < n)%nat -> (0 < len)%nat -> (0 < imm_per d n len)%nat.
Proof.
  intros Hn Hl. destruct d; simpl; [|done]. pose proof (nat_div_ceil_bounds len n Hn). nia.
Qed.

Lemma imm_chunk_lt d n len k :
  (0 < n)%nat -> (k < len)%nat -> (k / imm_per d n len < n)%nat.
Proof.
  intros Hn Hk. pose proof (imm_per_pos d n len Hn ltac:(lia)). apply Nat.Div0.div_lt_upper_bound.
  destruct d; simpl in *; [|nia]. pose proof (nat_div_ceil_bounds len n Hn). nia.
Qed.

Lemma imm_loop_plan tid imm n first per mrs g :
  (0 < n)%nat -> (0 < per)%nat ->
  for_each (enumerate (chunks_aux (length mrs) per mrs)) (fun '(i, part) =>
    let! dom := usize_rem (first + i) n in for_each part (submit_imm_to (D:=D) tid imm i dom)) g =
  for_each (imm_plan n first per mrs) (fun '(i, dom, mr) => submit_imm_to tid imm i dom mr) g.
Proof.
  intros Hn Hper.
  trans (for_each (imap (fun k x => ((k / per)%nat, x)) mrs)
    (fun '(i, mr) => submit_imm_to tid imm i ((first + i) mod n) mr) g).
  - pose proof (chunks_flatten (length mrs) per 0 mrs Hper ltac:(lia)) as Hf. cbn [Nat.add] in Hf.
    rewrite <- Hf, for_each_concat.
    trans (for_each ((fun ip : nat * list MemoryRegionDescriptor => pair ip.1 <$> ip.2) <$>
      enumerate (chunks_aux (length mrs) per mrs))
      (fun l => for_each l (fun '(i, mr) => submit_imm_to tid imm i ((first + i) mod n) mr)) g);
      [|unfold enumerate; by rewrite fmap_imap].
    rewrite for_each_fmap.
    apply for_each_ext. intros [i part] s _. cbv [bind usize_rem]. rewrite decide_False by lia.
    cbv [ret]. by rewrite for_each_fmap.
  - unfold imm_plan.
    trans (for_each ((fun im : nat * MemoryRegionDescriptor => (im.1, ((first + im.1) mod n)%nat, im.2)) <$>
      imap (fun k mr => ((k / per)%nat, mr)) mrs)
      (fun '(i, dom, mr) => submit_imm_to tid imm i dom mr) g); [|by rewrite fmap_imap].
    rewrite for_each_fmap. apply for_each_ext. by intros [].
Qed.

(** An immediate or barrier request posts exactly one immediate write per destination.
    With a valid routing and at least one destination, [submit_imm_transfer_request] records the
    transfer with the number of destinations and runs the plan that posts destination [k] from
    domain [(first + k / per) mod N]; every domain and address index of the plan is in range
    (so no index panics). *)
Theorem imm_request_one_write_per_target tid imm mrs d tx n g :
  group_wf n g -> mrs <> [] -> imm_routing_ok d n ->
  Forall (fun mr => length (addr_rkey_list mr) = n) mrs ->
  let per := imm_per d n (length mrs) in
  let plan := imm_plan n (imm_first d (rr_next g)) per mrs in
  submit_imm_transfer_request tid imm mrs d tx g =
    (for_each plan (fun '(i, dom, mr) => submit_imm_to tid imm i dom mr) ;;; ret (Ok tt))
      (set_rr_next (imm_rr d n (rr_next g) (length mrs))
        (set_write_ops (<[tid := new_ctx (length mrs) tx]> (write_ops g)) g)) /\
  plan.*2 = mrs /\
  (forall i dom mr, (i, dom, mr) ∈ plan -> (i < n)%nat /\ (dom < n)%nat).
Proof.
  intros [Hn Hrr Hctx] Hne Hd Hl per plan.
  assert (0 < length mrs)%nat by (destruct mrs; [done|simpl; lia]).
  assert (0 < per)%nat by (apply imm_per_pos; lia). split; [|split].
  - unfold submit_imm_transfer_request. cbv [bind num_domains gets]. rewrite Hn.
    assert (forallb (fun mr => length (addr_rkey_list mr) =? n)%nat mrs = true) as ->.
    { apply forallb_forall. intros mr Hin. rewrite Forall_forall in Hl.
      apply Nat.eqb_eq, Hl, list_elem_of_In, Hin. }
    cbn [negb]. cbv [insert_write_op modify].
    destruct d as [k|i]; simpl in Hd.
    + subst k. cbv [bind_res bind gets usize_rem]. cbn [negb Z.eqb Pos.eqb].
      rewrite decide_False by lia. cbv [modify ret chunks]. cbn [fst snd].
      rewrite decide_False by (subst per; simpl in *; lia). unfold plan. rewrite <- imm_loop_plan by (done || lia). done.
    + cbv [bind_res bind]. assert ((Z.of_nat n <=? i) = false) as -> by lia.
      cbv [ret chunks]. cbn [fst snd]. rewrite decide_False by lia.
      unfold plan. rewrite <- imm_loop_plan by (done || lia). done.
  - apply list_eq. intros k. unfold plan, imm_plan. rewrite list_lookup_fmap, list_lookup_imap.
    by destruct (mrs !! k).
  - intros i dom mr Hin. apply list_elem_of_lookup in Hin as (k & Hk). unfold plan, imm_plan in Hk.
    rewrite list_lookup_imap in Hk. destruct (mrs !! k) eqn:E; simplify_eq/=.
    apply lookup_lt_Some in E. split; [apply imm_chunk_lt; lia|apply Nat.mod_upper_bound; lia].
Qed.

(** ** Single requests *)

(** The domain whose descriptor, address and key shard [k] is built with. *)
Definition single_src (d : DomainGroupRouting) (n rr k : nat) : nat :=
  match d with RoundRobinSharded _ => (rr + k) mod n | Pinned i => Z.to_nat i end.
Definition single_rr (d : DomainGroupRouting) (n rr len : nat) : nat :=
  match d with RoundRobinSharded _ => (rr + len) mod n | Pinned _ => rr end.
Definition single_shards (d : DomainGroupRouting) : nat :=
  match d with RoundRobinSharded k => Z.to_nat k | Pinned _ => 1%nat end.
Definition single_routing_ok (d : DomainGroupRouting) (n : nat) : Prop :=
  match d with RoundRobinSharded k => 1 <= k <= Z.of_nat n | Pinned i => 0 <= i < Z.of_nat n end.

Definition single_op (r : SingleTransferRequest) (desc rkey : Z) (range : Z * Z) : WriteOp :=
  WSingle {|
    sw_src_ptr := sr_src_mr r; sw_src_desc := desc;
    sw_src_offset := u64_add (sr_src_offset r) range.1; sw_length := range.2;
    sw_imm_data := sr_imm_data r; sw_dst_ptr := mrd_ptr (sr_dst_mr r); sw_dst_rkey := rkey;
    sw_dst_offset := u64_add (sr_dst_offset r) range.1 |}.

Definition single_ops (r : SingleTransferRequest) (desc : nat -> Z)
    (dst : nat -> DomainAddress * Z) (n rr : nat) (ranges : list (Z * Z)) :
    list (WriteOp * DomainAddress) :=
  imap (fun k range => let i := single_src (sr_domain r) n rr k in
                       (single_op r (desc i) (dst i).2 range, (dst i).1)) ranges.

Lemma build_single_run r desc dst n range g :
  length (domains g) = n -> (rr_next g < n)%nat -> descs_are (sr_src_mr r) desc g ->
  (forall i, (i < n)%nat -> addr_rkey_list (sr_dst_mr r) !! i = Some (dst i)) ->
  single_routing_ok (sr_domain r) n ->
  let i := single_src (sr_domain r) n (rr_next g) 0 in
  build_single_op r n range g =
  Done (Ok (single_op r (desc i) (dst i).2 range, (dst i).1),
        set_rr_next (single_rr (sr_domain r) n (rr_next g) 1) g).
Proof.
  intros Hn Hrr Hd Hdst Hok i. unfold build_single_op. cbv [bind].
  destruct (sr_domain r) as [k|p]; simpl in Hok.
  - rewrite next_rr_run by lia. subst i. simpl. rewrite Nat.add_0_r, (Nat.mod_small (rr_next g)) by done.
    rewrite Hdst by done. simpl. cbv [ret bind_res bind].
    by rewrite (domain_mem_desc_run _ desc) by (simpl; done || lia).
  - cbv [ret]. rewrite Hdst by lia. simpl. cbv [ret bind_res bind].
    rewrite (domain_mem_desc_run _ desc) by (simpl; done || lia). by destruct g.
Qed.

Lemma single_src_shift d n rr k : single_src d n (single_rr d n rr 1) k = single_src d n rr (S k).
Proof.
  destruct d; simpl; [|done]. rewrite Nat.Div0.add_mod_idemp_l. f_equal. lia.
Qed.

Lemma build_single_plan r desc dst n ranges g :
  length (domains g) = n -> (rr_next g < n)%nat -> descs_are (sr_src_mr r) desc g ->
  (forall i, (i < n)%nat -> addr_rkey_list (sr_dst_mr r) !! i = Some (dst i)) ->
  single_routing_ok (sr_domain r) n ->
  try_map ranges (build_single_op r n) g =
  Done (Ok (single_ops r desc dst n (rr_next g) ranges),
        set_rr_next (single_rr (sr_domain r) n (rr_next g) (length ranges)) g).
Proof.
  intros Hn Hrr Hd Hdst Hok. revert g Hn Hrr Hd.
  induction ranges as [|range ranges IH]; intros g Hn Hrr Hd.
  { cbn. cbv [ret]. destruct g; simpl in *. unfold set_rr_next; simpl.
    destruct (sr_domain r); simpl; [|done]. by rewrite Nat.add_0_r, Nat.mod_small. }
  cbn [try_map]. cbv [bind_res bind]. rewrite (build_single_run _ desc dst) by done.
  assert (single_rr (sr_domain r) n (rr_next g) 1 < n)%nat.
  { destruct (sr_domain r); simpl; [apply Nat.mod_upper_bound; lia|done]. }
  rewrite IH by done. cbv [ret]. f_equal. f_equal.
  - f_equal. unfold single_ops. simpl. f_equal. apply imap_ext. intros k x _. simpl.
    by rewrite single_src_shift.
  - cbn. unfold set_rr_next; simpl. f_equal. destruct (sr_domain r); simpl; [|done].
    rewrite Nat.Div0.add_mod_idemp_l. f_equal. lia.
Qed.

Lemma single_request_run tid r tx n desc dst g :
  group_wf n g -> descs_are (sr_src_mr r) desc g ->
  length (addr_rkey_list (sr_dst_mr r)) = n ->
  (forall i, (i < n)%nat -> addr_rkey_list (sr_dst_mr r) !! i = Some (dst i)) ->
  single_routing_ok (sr_domain r) n -> 0 <= sr_length r < 2 ^ 63 ->
  exists ranges,
    shard_single_transfer (sr_length r) (single_shards (sr_domain r)) g = Done (ranges, g) /\
    length ranges = single_shards (sr_domain r) /\
    submit_single_transfer_request tid r tx g =
      (for_each (zip (seq 0 n) (single_ops r desc dst n (rr_next g) ranges)) (fun '(k, (op, a)) =>
         on_domain k (submit_write tid a op)) ;;; ret (Ok tt))
        (set_write_ops (<[tid := new_ctx (length ranges) tx]> (write_ops g))
          (set_rr_next (single_rr (sr_domain r) n (rr_next g) (length ranges)) g)).
Proof.
  intros [Hn Hrr Hctx] Hd Hl Hdst Hok Hlen.
  assert (0 < single_shards (sr_domain r))%nat as Hs by (destruct (sr_domain r); simpl in *; lia).
  destruct (shard_single_run (sr_length r) (single_shards (sr_domain r)) g Hs Hlen)
    as (ranges & Hrun & Hlr & _). exists ranges. split; [done|]. split; [done|].
  unfold submit_single_transfer_request. cbv [bind num_domains gets]. rewrite Hn, Hl, Nat.eqb_refl.
  cbn [negb].
  assert (forall A (k : nat -> M (DomainGroup D) (res A)),
    bind_res (match sr_domain r with
      | RoundRobinSharded num_shards =>
        if Z.of_nat n <? num_shards then
          ret (Err (Custom "DomainGroupRouting::RoundRobinSharded.num_shards is greater than the number of domains"))
        else ret (Ok (Z.to_nat num_shards))
      | Pinned domain_idx =>
        if Z.of_nat n <=? domain_idx then
          ret (Err (Custom "DomainGroupRouting::Pinned.domain_idx is out of bounds"))
        else ret (Ok 1%nat)
      end) k g = k (single_shards (sr_domain r)) g) as Hroute.
  { intros A k. destruct (sr_domain r); simpl in *; [assert ((Z.of_nat n <? num_shards) = false) as -> by lia
      |assert ((Z.of_nat n <=? domain_idx) = false) as -> by lia]; done. }
  rewrite Hroute. rewrite Hrun. unfold bind_res, bind. rewrite (build_single_plan _ desc dst) by done.
  cbv [insert_write_op modify].
  assert (length (single_ops r desc dst n (rr_next g) ranges) = length ranges) as ->
    by (unfold single_ops; by rewrite length_imap). done.
Qed.

(** What a single request posts.  With a valid routing the transfer is cut by
    [shard_single_transfer] in one shard per used domain, the transfer is recorded with that
    number, and shard [k] is posted through domain [k], carrying the descriptor, address and
    key of domain [single_src k]: the pinned domain, or the [k]-th after the round-robin
    cursor. *)
Theorem single_request_plan tid r tx n desc dst g :
  group_wf n g -> descs_are (sr_src_mr r) desc g ->
  length (addr_rkey_list (sr_dst_mr r)) = n ->
  (forall i, (i < n)%nat -> addr_rkey_list (sr_dst_mr r) !! i = Some (dst i)) ->
  single_routing_ok (sr_domain r) n -> 0 <= sr_length r < 2 ^ 63 ->
  exists ranges,
    shard_single_transfer (sr_length r) (single_shards (sr_domain r)) g = Done (ranges, g) /\
    length ranges = single_shards (sr_domain r) /\
    submit_single_transfer_request tid r tx g =
      (for_each (zip (seq 0 n) (single_ops r desc dst n (rr_next g) ranges)) (fun '(k, (op, a)) =>
         on_domain k (submit_write tid a op)) ;;; ret (Ok tt))
        (set_write_ops (<[tid := new_ctx (length ranges) tx]> (write_ops g))
          (set_rr_next (single_rr (sr_domain r) n (rr_next g) (length ranges)) g)).
Proof. apply single_request_run. Qed.

(** A single request pinned to a domain is not posted through it.  The one shard of a
    request with [Pinned { domain_idx: i }], [i > 0], is posted through domain 0 with the local
    descriptor (the lkey) of domain [i]; domain [i] itself is left untouched. *)
Theorem pinned_single_uses_wrong_domain tid r tx n i desc dst g g' :
  group_wf n g -> descs_are (sr_src_mr r) desc g ->
  length (addr_rkey_list (sr_dst_mr r)) = n ->
  (forall i, (i < n)%nat -> addr_rkey_list (sr_dst_mr r) !! i = Some (dst i)) ->
  0 <= sr_length r < 2 ^ 63 ->
  sr_domain r = Pinned (Z.of_nat i) -> (0 < i < n)%nat ->
  submit_single_transfer_request tid r tx g = Done (Ok tt, g') ->
  domains g' !! i = domains g !! i /\
  exists d0 d0' range,
    domains g !! 0%nat = Some d0 /\ domains g' !! 0%nat = Some d0' /\
    submit_write tid (dst i).1 (single_op r (desc i) (dst i).2 range) d0 = Done (tt, d0').
Proof.
  intros Hwf Hd Hl Hdst Hlen Hp Hi Hrun.
  destruct (single_request_run tid r tx n desc dst g Hwf Hd Hl Hdst) as (ranges & _ & Hlr & Hplan);
    [rewrite Hp; simpl; lia|done|].
  rewrite Hplan in Hrun. clear Hplan. rewrite Hp in Hlr. simpl in Hlr.
  destruct ranges as [|range [|]]; simpl in Hlr; [lia| |lia].
  unfold single_ops in Hrun. rewrite Hp in Hrun. simpl in Hrun. rewrite Nat2Z.id in Hrun.
  destruct n as [|n]; [lia|]. cbn [seq zip zip_with for_each] in Hrun.
  replace (zip_with pair (seq 1 n) []) with ([] : list (nat * (WriteOp * DomainAddress))) in Hrun
    by by destruct n.
  apply bind_done in Hrun as ([] & g1 & Hrun & Hret). cbv [ret] in Hret. simplify_eq.
  apply bind_done in Hrun as ([] & g2 & Hrun & Hret). cbn in Hret. cbv [ret] in Hret. simplify_eq.
  apply on_domain_done in Hrun as (d0 & d0' & Hd0 & Hw & ->). simpl in *.
  split; [rewrite list_lookup_insert_ne by lia; done|].
  exists d0, d0', range. split; [done|]. split; [|done].
  rewrite list_lookup_insert_eq; [done|]. by apply lookup_lt_Some in Hd0.
Qed.

(** ** Scatter requests *)

(** One group write of the plan: the domain, its target range and its byte shard. *)
Record scatter_write := {
  sp_domain : nat; sp_beg : nat; sp_end : nat; sp_shards : Z; sp_shard_idx : Z;
}.

Definition scatter_plan (r : ScatterTransferRequest) (n : nat) : list scatter_write :=
  let len := length (xr_dsts r) in
  match xr_domain r with
  | AllDomainsShardPeers =>
      imap (fun i range => Build_scatter_write i range.1 range.2 1 0) (divide len n)
  | AllDomainsShardBytes =>
      (fun i => Build_scatter_write i 0 len (Z.of_nat n) (Z.of_nat i)) <$> seq 0 n
  | SingleDomain i => [Build_scatter_write (Z.to_nat i) 0 len 1 0]
  end.

Definition scatter_group_op (r : ScatterTransferRequest) (desc : nat -> Z) (w : scatter_write) :
    GroupWriteOp :=
  scatter_op r (sp_domain w) (desc (sp_domain w)) (sp_beg w) (sp_end w) (sp_shards w) (sp_shard_idx w).

Definition post_scatter (tid : Z) (r : ScatterTransferRequest) (desc : nat -> Z)
    (w : scatter_write) : M (DomainGroup D) unit :=
  on_domain (sp_domain w) (submit_group_write tid (xr_dst_handle r) (scatter_group_op r desc w)).

Lemma try_map_pure {A B} (l : list A) (body : A -> M (DomainGroup D) (res B)) (f : A -> B) g :
  (forall x, x ∈ l -> body x g = Done (Ok (f x), g)) ->
  try_map l body g = Done (Ok (f <$> l), g).
Proof.
  intros Hb. induction l as [|x l IH]; [done|]. cbn [try_map]. cbv [bind_res bind].
  rewrite Hb by set_solver. rewrite IH by set_solver. done.
Qed.

Lemma zip_seq_imap {A B} (f : nat * A -> B) (l : list A) a n :
  (length l <= n)%nat -> f <$> zip (seq a n) l = imap (fun i x => f ((a + i)%nat, x)) l.
Proof.
  revert a n. induction l as [|x l IH]; intros a n Hl; [by destruct n|].
  destruct n as [|n]; [simpl in Hl; lia|]. simpl. rewrite Nat.add_0_r. f_equal.
  rewrite IH by (simpl in Hl; lia). apply imap_ext. intros. simpl. do 2 f_equal. lia.
Qed.

Lemma build_scatter_plan r n desc g :
  length (domains g) = n -> (0 < n)%nat -> Z.of_nat n < 2 ^ 32 -> descs_are (xr_src_mr r) desc g ->
  (forall i, xr_domain r = SingleDomain i -> 0 <= i < Z.of_nat n) ->
  build_scatter_ops r n g =
  Done (Ok ((fun w => (sp_domain w, scatter_group_op r desc w)) <$> scatter_plan r n), g).
Proof.
  intros Hn Hpos Hn32 Hd Hs. unfold build_scatter_ops, scatter_plan.
  destruct (xr_domain r) as [| |p].
  - cbv [bind]. rewrite divide_evenly_run by done.
    rewrite (try_map_pure _ _ (fun '(i, (beg, end_)) => (i, scatter_op r i (desc i) beg end_ 1 0))).
    + f_equal. f_equal. f_equal. rewrite zip_seq_imap by apply divide_loop_length.
      rewrite fmap_imap. apply imap_ext. by intros i [].
    + intros [i [b e]] Hin%elem_of_zip_l. apply elem_of_seq in Hin. cbv [bind_res bind].
      by rewrite (domain_mem_desc_run _ desc) by (done || lia).
  - rewrite (try_map_pure _ _ (fun i => (i, scatter_op r i (desc i) 0 (length (xr_dsts r))
      (Z.of_nat n) (Z.of_nat i)))).
    + by rewrite <- list_fmap_compose.
    + intros i Hin. apply elem_of_seq in Hin. cbv [bind_res bind].
      rewrite (domain_mem_desc_run _ desc) by (done || lia). cbv [ret].
      unfold as_u32. rewrite !wrapu_small by (unfold in_u; lia). done.
  - specialize (Hs p eq_refl).
    rewrite (try_map_pure _ _ (fun i => (i, scatter_op r i (desc i) 0 (length (xr_dsts r)) 1 0))); [done|].
    intros i ->%list_elem_of_singleton. cbv [bind_res bind].
    by rewrite (domain_mem_desc_run _ desc) by (done || lia).
Qed.

(** The byte-shard indices of the writes that reach target [k]. *)
Definition shards_of_target (k : nat) (plan : list scatter_write) : list Z :=
  sp_shard_idx <$> filter (fun w => (sp_beg w <= k < sp_end w)%nat) plan.

Lemma tiles_covers_once a b l k c :
  tiles a b l -> (a <= k < b)%nat ->
  shards_of_target k (imap (fun i range => Build_scatter_write (c + i) range.1 range.2 1 0) l) = [0].
Proof.
  unfold shards_of_target. revert a c. induction l as [|[x y] l IH]; intros a c; simpl; [lia|].
  intros (-> & Hlt & Ht) Hk. rewrite filter_cons. simpl.
  rewrite (imap_ext ((fun i range => Build_scatter_write (c + i) range.1 range.2 1 0) ∘ S)
    (fun i range => Build_scatter_write (S c + i) range.1 range.2 1 0)) by (intros; simpl; f_equal; lia).
  case_decide as Hc.
  - rewrite filter_none; [done|]. intros w (i & Hi)%list_elem_of_lookup.
    rewrite list_lookup_imap in Hi. destruct (l !! i) as [[x' y']|] eqn:E; simplify_eq/=.
    apply list_elem_of_lookup_2 in E. pose proof (tiles_bounds _ _ _ _ _ Ht E). lia.
  - apply (IH y); [done|lia].
Qed.

(** The number of byte shards of a target. *)
Definition target_shards (r : ScatterTransferRequest) (n : nat) : nat :=
  match xr_domain r with AllDomainsShardBytes => n | _ => 1%nat end.

(** Every target gets every byte shard exactly once. *)
Lemma scatter_plan_covers r n k :
  (0 < n)%nat -> (k < length (xr_dsts r))%nat ->
  Forall (fun w => sp_shards w = Z.of_nat (target_shards r n)) (scatter_plan r n) /\
  shards_of_target k (scatter_plan r n) = Z.of_nat <$> seq 0 (target_shards r n).
Proof.
  intros Hn Hk. unfold scatter_plan, target_shards. destruct (xr_domain r) as [| |p].
  - split.
    + apply Forall_forall. intros w (i & Hi)%list_elem_of_lookup.
      rewrite list_lookup_imap in Hi. by destruct (_ !! _); simplify_eq/=.
    + apply (tiles_covers_once 0 (length (xr_dsts r)) _ k 0); [by apply divide_tiles|lia].
  - split; [by apply Forall_fmap, Forall_true|].
    unfold shards_of_target. rewrite filter_all; [by rewrite <- list_fmap_compose|].
    intros w (i & -> & _)%list_elem_of_fmap. simpl. lia.
  - split; [by repeat constructor|]. unfold shards_of_target.
    rewrite filter_cons_True by (simpl; lia). done.
Qed.

(** C34: a scatter request delivers to every target exactly once.  With a non-empty target list,
    a matching peer group and valid routing, [submit_scatter_transfer_request] records the
    transfer with the number of group writes and posts the plan; every target is covered by
    exactly one group write (sharding by peers, single domain), or by exactly one per byte
    shard [0 .. N-1] (sharding by bytes), each built with its own domain's descriptor. *)
Theorem scatter_request_covers_targets tid r tx n desc g :
  group_wf n g -> Z.of_nat n < 2 ^ 32 -> descs_are (xr_src_mr r) desc g ->
  xr_dsts r <> [] -> check_peer_group r g = Ok tt ->
  (forall i, xr_domain r = SingleDomain i -> 0 <= i < Z.of_nat n) ->
  let plan := scatter_plan r n in
  submit_scatter_transfer_request tid r tx g =
    (for_each plan (post_scatter tid r desc) ;;; ret (Ok tt))
      (set_write_ops (<[tid := new_ctx (length plan) tx]> (write_ops g)) g) /\
  (forall k, (k < length (xr_dsts r))%nat ->
    Forall (fun w => sp_shards w = Z.of_nat (target_shards r n)) plan /\
    shards_of_target k plan = Z.of_nat <$> seq 0 (target_shards r n)).
Proof.
  intros [Hn Hrr Hctx] Hn32 Hd Hne Hc Hs plan. split; [|intros k; apply scatter_plan_covers; lia].
  unfold submit_scatter_transfer_request.
  assert ((length (xr_dsts r) =? 0)%nat = false) as -> by (by destruct (xr_dsts r)).
  cbv [bind_res bind gets num_domains]. rewrite Hc, Hn.
  rewrite (build_scatter_plan r n desc) by (done || lia). cbv [insert_write_op modify].
  rewrite length_fmap. fold plan. rewrite for_each_fmap. done.
Qed.

(** ** Peer groups *)
Record peers_wf g : Prop := {
  pw_fresh : forall h p, peer_groups g !! h = Some p -> h < next_peer_group_handle g;
  pw_inj : forall h h' p, peer_groups g !! h = Some p -> peer_groups g !! h' = Some p -> h = h';
  pw_room : 0 <= next_peer_group_handle g < 2 ^ 32 - 1;
}.

Lemma find_peer_group_some addrs h g :
  find_peer_group addrs g = Some h -> peer_groups g !! h = Some {| pg_addrs := addrs |}.
Proof.
  unfold find_peer_group. destruct (list_find _ _) as [[i [h' p]]|] eqn:E; [|done].
  intros; simplify_eq. apply list_find_Some in E as (Hl & Hp & _). simpl in Hp.
  apply elem_of_map_to_list, list_elem_of_lookup. exists i. rewrite Hl. by destruct p; simplify_eq/=.
Qed.

Lemma find_peer_group_none addrs h p g :
  find_peer_group addrs g = None -> peer_groups g !! h = Some p -> pg_addrs p <> addrs.
Proof.
  unfold find_peer_group. destruct (list_find _ _) as [[i [h' p']]|] eqn:E; [done|]. intros _ Hp.
  apply list_find_None in E. rewrite Forall_forall in E.
  exact (E (h, p) (proj2 (elem_of_map_to_list _ _ _) Hp)).
Qed.

Lemma find_peer_group_lookup addrs h g :
  peers_wf g -> peer_groups g !! h = Some {| pg_addrs := addrs |} -> find_peer_group addrs g = Some h.
Proof.
  intros Hwf Hp. destruct (find_peer_group addrs g) as [h'|] eqn:E.
  - apply find_peer_group_some in E. f_equal. by eapply pw_inj.
  - exfalso. by apply (find_peer_group_none _ _ _ _ E Hp).
Qed.

Definition peers_are (h : Z) (p : gmap Z PeerGroup) g : Prop :=
  next_peer_group_handle g = h /\ peer_groups g = p.

Lemma on_domain_peers {A} h p i (m : M D A) : keeps (peers_are h p) (on_domain i m).
Proof. intros g a g' (d & d' & _ & _ & ->)%on_domain_done [? ?]. done. Qed.

Lemma add_peer_group_registers addrs g r g' :
  find_peer_group addrs g = None -> group_add_peer_group addrs g = Done (r, g') ->
  peer_groups g' = <[next_peer_group_handle g := {| pg_addrs := addrs |}]> (peer_groups g) /\
  next_peer_group_handle g' = u32_add (next_peer_group_handle g) 1 /\
  (forall h, r = Ok h -> h = next_peer_group_handle g).
Proof.
  intros Hf Hrun. unfold group_add_peer_group in Hrun. cbv [bind gets modify] in Hrun.
  rewrite Hf in Hrun. unfold bind_res in Hrun. apply bind_done in Hrun as (a & g1 & Hloop & Hr).
  assert (g1 = g' /\ forall h, r = Ok h -> h = next_peer_group_handle g) as [-> Hh].
  { destruct a; cbv [ret] in Hr; simplify_eq; split; try done; intros; by simplify_eq. }
  refine (let Hk := keeps_try_for_each (peers_are (u32_add (next_peer_group_handle g) 1)
    (<[next_peer_group_handle g := {| pg_addrs := addrs |}]> (peer_groups g))) _ _ _ _ _ _ Hloop _ in _).
  Unshelve.
  - destruct Hk as [? ?]. done.
  - intros i _. apply keeps_bind; [apply keeps_unwrap|]. intros l. apply on_domain_peers.
  - done.
Qed.

(** Peer-group handles.  [add_peer_group] keeps the handles well formed (each below the
    counter, no address list under two handles) on success and on error; a returned handle
    denotes exactly the requested address list, the other groups are unchanged, and adding the
    same list again returns the same handle without changing the group. *)
Theorem add_peer_group_handles addrs g r g' :
  peers_wf g -> next_peer_group_handle g < 2 ^ 32 - 2 ->
  group_add_peer_group addrs g = Done (r, g') ->
  peers_wf g' /\
  (forall h p, peer_groups g !! h = Some p -> peer_groups g' !! h = Some p) /\
  (forall h, r = Ok h -> peer_groups g' !! h = Some {| pg_addrs := addrs |} /\
     group_add_peer_group addrs g' = Done (Ok h, g')).
Proof.
  intros Hwf Hroom Hrun. pose proof Hwf as [Hfr Hinj Hrm].
  destruct (find_peer_group addrs g) as [h0|] eqn:Hf.
  { unfold group_add_peer_group in Hrun. cbv [bind gets] in Hrun. rewrite Hf in Hrun.
    cbv [ret] in Hrun. simplify_eq. split; [done|]. split; [done|]. intros h ?; simplify_eq.
    split; [by apply find_peer_group_some|]. unfold group_add_peer_group. cbv [bind gets].
    by rewrite Hf. }
  destruct (add_peer_group_registers _ _ _ _ Hf Hrun) as (Hp & Hn & Hh).
  assert (u32_add (next_peer_group_handle g) 1 = next_peer_group_handle g + 1) as Hinc
    by (apply wrapu_small; unfold in_u; lia). rewrite Hinc in Hn.
  assert (peers_wf g') as Hwf'.
  { split; rewrite ?Hp, ?Hn; [| |lia].
    - intros h p. rewrite lookup_insert. case_decide; [intros; lia|]. intros ?%Hfr. lia.
    - intros h h' p. rewrite !lookup_insert. repeat case_decide; intros Hl Hl'; simplify_eq; eauto.
      + exfalso. by apply (find_peer_group_none _ _ _ _ Hf Hl').
      + exfalso. by apply (find_peer_group_none _ _ _ _ Hf Hl). }
  split; [done|]. split.
  - intros h p Hl. rewrite Hp, lookup_insert_ne; [done|]. apply Hfr in Hl. lia.
  - intros h Hr. rewrite (Hh h Hr) in *.
    assert (peer_groups g' !! next_peer_group_handle g = Some {| pg_addrs := addrs |}) as Hl
      by (by rewrite Hp, lookup_insert_eq).
    split; [done|]. unfold group_add_peer_group. cbv [bind gets].
    by rewrite (find_peer_group_lookup _ _ _ Hwf' Hl).
Qed.

(** A failed [add_peer_group] is not undone.  When a domain rejects the group the error is
    returned, but the handle stays registered: the retry returns [Ok] without calling any
    domain. *)
Theorem add_peer_group_retry_hides_error addrs g e g' :
  peers_wf g -> next_peer_group_handle g < 2 ^ 32 - 2 ->
  group_add_peer_group addrs g = Done (Err e, g') ->
  exists h, peer_groups g !! h = None /\ group_add_peer_group addrs g' = Done (Ok h, g').
Proof.
  intros Hwf Hroom Hrun.
  assert (find_peer_group addrs g = None) as Hf.
  { destruct (find_peer_group addrs g) eqn:Hf; [|done]. unfold group_add_peer_group in Hrun.
    cbv [bind gets] in Hrun. rewrite Hf in Hrun. done. }
  destruct (add_peer_group_registers _ _ _ _ Hf Hrun) as (Hp & Hn & _).
  exists (next_peer_group_handle g). split.
  - destruct (_ !! _) eqn:E; [|done]. apply (pw_fresh _ Hwf) in E. lia.
  - unfold group_add_peer_group. cbv [bind gets].
    destruct (find_peer_group addrs g') as [h|] eqn:Hf'.
    + apply find_peer_group_some in Hf'. rewrite Hp, lookup_insert in Hf'. case_decide; [by subst|].
      exfalso. by apply (find_peer_group_none _ _ _ _ Hf Hf').
    + exfalso. apply (find_peer_group_none _ (next_peer_group_handle g) {| pg_addrs := addrs |} _ Hf');
        [by rewrite Hp, lookup_insert_eq|done].
Qed.

(** ** Empty paged requests *)
Lemma track_all_zero tid tx cs t out t' :
  tk_pending t !! tid = Some (0%nat, tx) -> (forall c, c ∈ cs -> ~ is_error_of tid c) ->
  track_all cs t = Done (out, t') ->
  reports tid out = 0%nat /\ tk_pending t' !! tid = Some (0%nat, tx).
Proof.
  revert t out. induction cs as [|c cs IH]; intros t out Hp Hne Hrun.
  { cbv [track_all ret] in Hrun. by simplify_eq. }
  apply track_all_cons in Hrun as (sh & out' & -> & Hrun). rewrite reports_app, reports_emits.
  apply IH in Hrun as [-> ?]; [|simpl|set_solver].
  - split; [|done]. destruct (decide (c = DcTransfer tid)) as [->|]; [|done]. simpl. rewrite Hp.
    by case_decide.
  - destruct (decide (c = DcTransfer tid)) as [->|]; [by simpl; rewrite Hp|].
    rewrite pending_after_other; [done..|]. apply Hne. set_solver.
Qed.

(** A paged request with no pages never completes.  It is accepted, posts nothing and is
    recorded as waiting for zero domains; whatever completions are handled afterwards (short of
    an error for it), it is never reported and stays recorded. *)
Theorem empty_paged_request_never_completes tid r tx n sh g cs :
  group_wf n g -> length (addr_rkey_list (pr_dst_mr r)) = n ->
  pr_src_page_indices r = [] -> pr_dst_page_indices r = [] ->
  (forall c, c ∈ cs -> ~ is_error_of tid c) ->
  exists g' out s', submit_paged_transfer_request tid r tx g = Done (Ok tt, g') /\
    domains g' = domains g /\
    dispatch_all cs (sh, g') = Done (out, s') /\ reports tid out = 0%nat /\
    is_Some (write_ops s'.2 !! tid).
Proof.
  intros Hwf Hl Hs Hd Hne. pose proof Hwf as [Hn Hrr Hctx].
  assert (submit_paged_transfer_request tid r tx g =
    Done (Ok tt, set_write_ops (<[tid := new_ctx 0 tx]> (write_ops g)) g)) as Hrun.
  { unfold submit_paged_transfer_request. cbv [bind num_domains gets]. rewrite Hn, Hl, Hs, Hd.
    rewrite Nat.eqb_refl. cbn [negb Nat.eqb length]. rewrite divide_evenly_run by lia.
    assert (divide 0 n = []) as -> by (destruct n; [lia|done]). done. }
  destruct (dispatch_all_refines n cs (sh, set_write_ops (<[tid := new_ctx 0 tx]> (write_ops g)) g))
    as (out & s' & Hall & Ht); [exact (paged_wf n tid r tx _ _ _ Hrun Hwf)|].
  eexists _, out, s'. split; [exact Hrun|]. split; [done|]. split; [done|].
  eapply track_all_zero in Ht as [Hr Hp]; [split; [done|]| |done].
  - unfold abs in Hp. simpl in Hp. rewrite lookup_fmap in Hp.
    destruct (write_ops s'.2 !! tid); [eauto|done].
  - simpl. rewrite lookup_fmap, lookup_insert_eq. done.
Qed.
End Plans.

(** ** Witnesses *)
Definition lb_desc (i : nat) : Z := Z.of_nat i + 100.
Definition lb_dst (i : nat) : DomainAddress * Z := ({| addr_bytes := [10 + Z.of_nat i] |}, 210 + Z.of_nat i).

Lemma lb_descs : descs_are 4096 lb_desc (new lb_two).
Proof. intros [|[|i]] d Hd; simpl in Hd; simplify_eq; reflexivity. Qed.

Lemma lb_dsts i : (i < 2)%nat -> addr_rkey_list lb_remote !! i = Some (lb_dst i).
Proof. destruct i as [|[|i]]; [done|done|lia]. Qed.

Lemma paged_request_writes_each_page_once_witness :
  exists plan,
    submit_paged_transfer_request 7 paged_req None (new lb_two) =
      (for_each plan (post_page 7 paged_req lb_desc) ;;; ret (Ok tt))
        (set_rr_next ((0 + length plan) mod 2)
          (set_write_ops (<[7 := new_ctx (length plan) None]> ∅) (new lb_two))) /\
    (length plan <= 2)%nat /\ NoDup plan.*1 /\ (forall i range, (i, range) ∈ plan -> (i < 2)%nat) /\
    tiles 0 3 plan.*2.
Proof.
  apply (paged_request_writes_each_page_once 7 paged_req None 2 lb_desc (new lb_two));
    [apply lb_two_wf|apply lb_descs|reflexivity|reflexivity].
Defined.

Lemma imm_request_one_write_per_target_witness :
  let plan := imm_plan 2 0 2 [lb_remote; lb_remote; lb_remote] in
  plan.*2 = [lb_remote; lb_remote; lb_remote] /\
  (forall i dom mr, (i, dom, mr) ∈ plan -> (i < 2)%nat /\ (dom < 2)%nat).
Proof.
  refine (proj2 (imm_request_one_write_per_target 3 9 [lb_remote; lb_remote; lb_remote]
    (RoundRobinSharded 1) None 2 (new lb_two) _ _ _ _));
    [apply lb_two_wf|done|reflexivity|repeat constructor].
Defined.

Definition single_req (d : DomainGroupRouting) : SingleTransferRequest := {|
  sr_src_mr := 4096; sr_src_offset := 0; sr_length := 20000; sr_imm_data := None;
  sr_dst_mr := lb_remote; sr_dst_offset := 64; sr_domain := d |}.

Lemma single_request_plan_witness :
  exists ranges,
    shard_single_transfer 20000 2 (new lb_two) = Done (ranges, new lb_two) /\
    length ranges = 2%nat /\
    submit_single_transfer_request 7 (single_req (RoundRobinSharded 2)) None (new lb_two) =
      (for_each (zip (seq 0 2) (single_ops (single_req (RoundRobinSharded 2)) lb_desc lb_dst 2 0 ranges))
         (fun '(k, (op, a)) => on_domain k (submit_write 7 a op)) ;;; ret (Ok tt))
        (set_write_ops (<[7 := new_ctx (length ranges) None]> ∅)
          (set_rr_next ((0 + length ranges) mod 2) (new lb_two))).
Proof.
  apply (single_request_plan 7 (single_req (RoundRobinSharded 2)) None 2 lb_desc lb_dst (new lb_two));
    [apply lb_two_wf|apply lb_descs|reflexivity|apply lb_dsts|simpl; lia|simpl; lia].
Defined.

Definition group_of {A} (r : outcome (A * DomainGroup Loopback)) : DomainGroup Loopback :=
  match r with Done (_, g) => g | _ => new [] end.

Lemma pinned_single_uses_wrong_domain_witness :
  let g' := group_of (submit_single_transfer_request 7 (single_req (Pinned 1)) None (new lb_two)) in
  domains g' !! 1%nat = domains (new lb_two) !! 1%nat.
Proof.
  intros g'.
  refine (proj1 (pinned_single_uses_wrong_domain 7 (single_req (Pinned 1)) None 2 1 lb_desc lb_dst
    (new lb_two) g' _ _ _ _ _ _ _ _));
    [apply lb_two_wf|apply lb_descs|reflexivity|apply lb_dsts|simpl; lia|reflexivity|lia|
     vm_compute; reflexivity].
Defined.

Definition scatter_req : ScatterTransferRequest := {|
  xr_src_mr := 4096; xr_dst_handle := None;
  xr_dsts := [Build_ScatterTarget lb_remote 64 0 0; Build_ScatterTarget lb_remote 64 64 64];
  xr_imm_data := Some 1; xr_domain := AllDomainsShardBytes |}.

Lemma scatter_request_covers_targets_witness :
  Forall (fun w => sp_shards w = 2) (scatter_plan scatter_req 2) /\
    shards_of_target 1 (scatter_plan scatter_req 2) = [0; 1].
Proof.
  refine (proj2 (scatter_request_covers_targets 7 scatter_req None 2 lb_desc (new lb_two)
    _ _ _ _ _ _) 1%nat _);
    [apply lb_two_wf|lia|apply lb_descs|done|reflexivity|done|simpl; lia].
Defined.

Lemma lb_peers_wf : peers_wf (new lb_two).
Proof. split; simpl; [|..|lia]; intros *; by rewrite lookup_empty. Qed.

Definition peer_addrs (b : list Z) : list (list DomainAddress) :=
  [[{| addr_bytes := [1] |}; {| addr_bytes := b |}]].

Lemma add_peer_group_handles_witness :
  let g' := group_of (group_add_peer_group (peer_addrs [2]) (new lb_two)) in
  peers_wf g' /\ group_add_peer_group (peer_addrs [2]) g' = Done (Ok 0, g').
Proof.
  intros g'. destruct (add_peer_group_handles (peer_addrs [2]) (new lb_two) (Ok 0) g')
    as (Hwf & _ & Hok); [apply lb_peers_wf|simpl; lia|vm_compute; reflexivity|].
  split; [exact Hwf|apply (Hok 0); reflexivity].
Defined.

Lemma add_peer_group_retry_hides_error_witness :
  let g' := group_of (group_add_peer_group (peer_addrs []) (new lb_two)) in
  exists h, peer_groups (new lb_two) !! h = None /\
    group_add_peer_group (peer_addrs []) g' = Done (Ok h, g').
Proof.
  intros g'.
  apply (add_peer_group_retry_hides_error (peer_addrs []) (new lb_two) (Custom "Invalid address") g');
    [apply lb_peers_wf|simpl; lia|vm_compute; reflexivity].
Defined.

Definition empty_paged_req : PagedTransferRequest := {|
  pr_length := 256; pr_src_mr := 4096; pr_src_page_indices := []; pr_src_stride := 256;
  pr_src_offset := 0; pr_dst_mr := lb_remote; pr_dst_page_indices := []; pr_dst_stride := 256;
  pr_dst_offset := 0; pr_imm_data := None |}.

Lemma empty_paged_request_never_completes_witness :
  exists g' out s', submit_paged_transfer_request 7 empty_paged_req None (new lb_two) = Done (Ok tt, g') /\
    domains g' = domains (new lb_two) /\
    dispatch_all [DcTransfer 7] (new_map, g') = Done (out, s') /\ reports 7 out = 0%nat /\
    is_Some (write_ops s'.2 !! 7).
Proof.
  apply (empty_paged_request_never_completes 7 empty_paged_req None 2 new_map (new lb_two) [DcTransfer 7]);
    [apply lb_two_wf|reflexivity|reflexivity|reflexivity|].
  intros c ->%list_elem_of_singleton [e He]. done.
Defined.
