(* ===== verification/GroupShares.v ===== *)
(** * The shares of a request

    A request of the group is split into shares, one per domain of its plan.  What is common to
    the two providers: a loop over different domains changes each of them once; a paged request
    gives each domain of its plan its pages; and when these domains have reported their shares,
    the group reports the request once. *)
From stdpp Require Import prelude gmap strings list.
From S2P Require Import Prelude Api ImmCount Sharding Provider DomainGroup DomainGroupSpec Completion WritePlan.
Local Open Scope Z_scope.

(** ** One operation per domain *)
Lemma set_domains_self {D} (g : DomainGroup D) : set_domains (domains g) g = g.
Proof. by destruct g. Qed.

(** A loop over different domains changes each of them once, from its state before the loop. *)
Lemma for_each_domains {D X} (plan : list (nat * X)) (body : nat * X -> M (DomainGroup D) unit)
    (post : nat * X -> D -> D -> Prop) (g : DomainGroup D) :
  NoDup plan.*1 -> (forall w, w ∈ plan -> is_Some (domains g !! w.1)) ->
  (forall w g0 d, w ∈ plan -> domains g !! w.1 = Some d -> domains g0 !! w.1 = Some d ->
    exists d', body w g0 = Done (tt, set_domains (<[w.1 := d']> (domains g0)) g0) /\ post w d d') ->
  exists ds, for_each plan body g = Done (tt, set_domains ds g) /\
    (forall w, w ∈ plan -> exists d d', domains g !! w.1 = Some d /\ ds !! w.1 = Some d' /\ post w d d') /\
    (forall i, i ∉ plan.*1 -> ds !! i = domains g !! i).
Proof.
  revert g. induction plan as [|w plan IH]; intros g Hnd Hdom Hbody.
  - exists (domains g). rewrite set_domains_self. split; [done|]. split; [set_solver|done].
  - rewrite fmap_cons, NoDup_cons in Hnd. destruct Hnd as [Hw Hnd].
    destruct (Hdom w) as [d Hd]; [set_solver|].
    destruct (Hbody w g d) as (d' & Hrun & Hpost); [set_solver|done..|].
    assert (forall v, v ∈ plan -> <[w.1 := d']> (domains g) !! v.1 = domains g !! v.1) as Hsame.
    { intros v Hv. apply list_lookup_insert_ne. intros Heq. apply Hw, list_elem_of_fmap. by exists v. }
    destruct (IH (set_domains (<[w.1 := d']> (domains g)) g) Hnd) as (ds & Hrest & Hin & Hout).
    { intros v Hv. cbn. rewrite Hsame by done. apply Hdom. set_solver. }
    { intros v g0 e Hv He He0. cbn in He. rewrite Hsame in He by done. apply Hbody; [set_solver|done..]. }
    exists ds. split; [cbn [for_each]; unfold bind; by rewrite Hrun, Hrest|]. split.
    + intros v [->|Hv]%elem_of_cons.
      * exists d, d'. split; [done|]. split; [|done]. rewrite Hout by done. cbn.
        apply list_lookup_insert_eq. by apply lookup_lt_Some in Hd.
      * destruct (Hin v Hv) as (e & e' & He & He' & Hp). exists e, e'. cbn in He. by rewrite Hsame in He.
    + intros i Hi. rewrite fmap_cons, not_elem_of_cons in Hi. rewrite Hout by set_solver. cbn.
      apply list_lookup_insert_ne. intros Heq. by destruct Hi as [[] _].
Qed.

(** ** Paged requests *)
Definition page_share (r : PagedTransferRequest) (range : nat * nat) (src_desc rkey : Z) : PagedWriteOp := {|
  pw_src_page_indices := pr_src_page_indices r; pw_dst_page_indices := pr_dst_page_indices r;
  pw_page_indices_beg := range.1; pw_page_indices_end := range.2; pw_length := pr_length r;
  pw_src_ptr := pr_src_mr r; pw_src_desc := src_desc;
  pw_src_stride := pr_src_stride r; pw_src_offset := pr_src_offset r;
  pw_dst_ptr := mrd_ptr (pr_dst_mr r); pw_dst_rkey := rkey;
  pw_dst_stride := pr_dst_stride r; pw_dst_offset := pr_dst_offset r; pw_imm_data := pr_imm_data r |}.

(** Replacing the domains at the positions [ps]. *)
Lemma replace_domains {D} (R : nat -> D -> Prop) (ps : list nat) (ds0 : list D) :
  (forall i, i ∈ ps -> (i < length ds0)%nat /\ exists d, R i d) ->
  exists ds, length ds = length ds0 /\ (forall i, i ∈ ps -> exists d, ds !! i = Some d /\ R i d) /\
    (forall i, i ∉ ps -> ds !! i = ds0 !! i).
Proof.
  induction ps as [|i ps IH]; intros Hps; [exists ds0; set_solver|].
  destruct IH as (ds & Hlen & Hin & Hout); [intros; apply Hps; set_solver|].
  destruct (Hps i) as [Hi [d Hd]]; [set_solver|]. exists (<[i := d]> ds). split; [by rewrite length_insert|]. split.
  - intros j Hj. destruct (decide (i = j)) as [<-|Hne].
    + exists d. split; [|done]. apply list_lookup_insert_eq. lia.
    + rewrite list_lookup_insert_ne by done. apply Hin. set_solver.
  - intros j Hj. rewrite list_lookup_insert_ne by set_solver. apply Hout. set_solver.
Qed.

(** Choosing for each of finitely many positions. *)
Lemma choose_each {A} (P : nat -> A -> Prop) (a0 : A) (ps : list nat) :
  (forall i, i ∈ ps -> exists a, P i a) -> exists f, forall i, i ∈ ps -> P i (f i).
Proof.
  induction ps as [|i ps IH]; intros Hps; [by exists (fun _ => a0); intros i ?%not_elem_of_nil|].
  destruct IH as [f Hf]; [intros; apply Hps; set_solver|]. destruct (Hps i) as [a Ha]; [set_solver|].
  exists (fun j => if decide (j = i) then a else f j). intros j Hj. case_decide as E; [by subst|]. apply Hf. set_solver.
Qed.

Lemma NoDup_fmap_fst_inj {A B} (l : list (A * B)) a b b' : NoDup l.*1 -> (a, b) ∈ l -> (a, b') ∈ l -> b = b'.
Proof.
  induction l as [|[x y] l IH]; [by intros _ ?%not_elem_of_nil|]. rewrite fmap_cons, NoDup_cons, !elem_of_cons.
  intros [Hx Hn] [[= -> ->]|H1] [[= ->]|H2]; [done| | |by apply IH];
    exfalso; apply Hx, list_elem_of_fmap; [by exists (x, b')|by exists (x, b)].
Qed.

Definition no_entry_of (tid : TransferId) (cs : list DomainCompletionEntry) : Prop :=
  forall c, c ∈ cs -> entry_tid c <> Some tid.

Lemma no_entry_reports tid cs : no_entry_of tid cs -> reports tid cs = 0%nat.
Proof.
  intros Hn. induction cs as [|c cs IH]; [done|]. rewrite reports_cons, IH by (intros c' ?; apply Hn; set_solver).
  rewrite decide_False; [done|]. intros ->. by eapply (Hn (DcTransfer tid)); [set_solver|].
Qed.

Lemma no_entry_error tid cs c : no_entry_of tid cs -> c ∈ cs -> ~ is_error_of tid c.
Proof. intros Hn Hc [e ->]. by eapply (Hn _ Hc). Qed.

Section Shares.
Context {D : Type} `{RdmaDomainLaws D}.

(** The domains a paged request is split over, with their page ranges. *)
Definition request_plan (n : nat) (r : PagedTransferRequest) (g : DomainGroup D) :
    list (nat * (nat * nat)) :=
  page_plan n (rr_next g) (divide (length (pr_src_page_indices r)) n).

(** What the plan of the request makes of the group, when submitting the share of a domain returns
    with [post]. *)
Lemma paged_request_posted (post : DomainAddress -> PagedWriteOp -> D -> D -> Prop) tid r tx n desc (g : DomainGroup D) :
  group_wf n g -> descs_are (pr_src_mr r) desc g ->
  length (addr_rkey_list (pr_dst_mr r)) = n ->
  length (pr_src_page_indices r) = length (pr_dst_page_indices r) ->
  (forall i d dst range, domains g !! i = Some d -> addr_rkey_list (pr_dst_mr r) !! i = Some dst ->
    (range.1 < range.2)%nat -> (range.2 <= length (pr_src_page_indices r))%nat ->
    let op := page_share r range (desc i) dst.2 in
    exists d', submit_write tid dst.1 (WPaged op) d = Done (tt, d') /\ post dst.1 op d d') ->
  let plan := request_plan n r g in
  exists ds, submit_paged_transfer_request tid r tx g = Done (Ok tt, set_domains ds
      (set_rr_next ((rr_next g + length plan) mod n)
        (set_write_ops (<[tid := new_ctx (length plan) tx]> (write_ops g)) g))) /\
    (forall i range, (i, range) ∈ plan -> exists d d' dst, domains g !! i = Some d /\ ds !! i = Some d' /\
      addr_rkey_list (pr_dst_mr r) !! i = Some dst /\ post dst.1 (page_share r range (desc i) dst.2) d d') /\
    (forall i, i ∉ plan.*1 -> ds !! i = domains g !! i).
Proof.
  intros Hwf Hd Hl Hp Hshare.
  pose proof (paged_request_run tid r tx n desc g Hwf Hd Hl Hp) as Hrun.
  destruct (page_plan_ok n (rr_next g) (length (pr_src_page_indices r))) as (_ & Hnd & Hlt & Htiles);
    [pose proof (wf_rr _ _ Hwf); lia|].
  intros plan. change (page_plan _ _ _) with plan in *. rewrite Hrun. set (g0 := set_rr_next _ _).
  destruct (for_each_domains plan (post_page tid r desc) (fun w d d' => exists dst,
    addr_rkey_list (pr_dst_mr r) !! w.1 = Some dst /\ post dst.1 (page_share r w.2 (desc w.1) dst.2) d d') g0 Hnd)
    as (ds & Hloop & Hin & Hout).
  - intros [i range] Hw. apply lookup_lt_is_Some. cbn. rewrite (wf_domains _ _ Hwf). by eapply Hlt.
  - intros [i range] g1 d Hw Hdi Hd1. cbn [fst snd] in *.
    destruct (lookup_lt_is_Some_2 (addr_rkey_list (pr_dst_mr r)) i) as [dst Hdst]; [rewrite Hl; by eapply Hlt|].
    assert ((range.1 < range.2)%nat /\ (range.2 <= length (pr_src_page_indices r))%nat) as [Hr1 Hr2].
    { destruct range as [x y]. destruct (tiles_bounds _ _ _ x y Htiles); [|cbn; lia].
      apply list_elem_of_fmap. by exists (i, (x, y)). }
    destruct (Hshare i d dst range Hdi Hdst Hr1 Hr2) as (d' & Hsub & Hpost).
    exists d'. split; [|by exists dst]. unfold post_page. cbn [fst snd]. rewrite Hdst. cbv [unwrap bind ret on_domain].
    rewrite Hd1. change (paged_op r range (desc i) dst.2) with (WPaged (page_share r range (desc i) dst.2)). by rewrite Hsub.
  - exists ds. unfold bind. rewrite Hloop. split; [done|]. split.
    + intros i range Hw. destruct (Hin _ Hw) as (d & d' & Hdi & Hdi' & dst & Hdst & Hpost). by exists d, d', dst.
    + intros i Hi. by apply Hout.
Qed.

(** What a domain whose share failed has queued: its first entry of the transfer is an error, or it
    has not reported the transfer. *)
Definition failed_part (tid : TransferId) (part : list DomainCompletionEntry) : Prop :=
  (reports tid part <= 1)%nat /\ (error_first tid part \/ reports tid part = 0%nat).

(** The outcome when the domains [ps] have queued [part i] for their shares, behind entries of other
    transfers, and the other domains have no entry of the transfer. *)
Lemma parts_drained n k sh tid (part : nat -> list DomainCompletionEntry) (good : nat -> Prop) ps (g' : DomainGroup D) :
  group_wf n g' -> (length (concat (queues (sh, g'))) <= k)%nat ->
  write_ops g' !! tid = Some (new_ctx (length ps) None) -> ps <> [] -> NoDup ps ->
  (forall i, i ∈ ps -> (good i /\ part i = [DcTransfer tid]) \/ (~ good i /\ failed_part tid (part i))) ->
  (forall i, i ∈ ps -> exists d'' old, domains g' !! i = Some d'' /\ no_entry_of tid old /\
    completions_of d'' = old ++ part i) ->
  (forall i d, i ∉ ps -> domains g' !! i = Some d -> no_entry_of tid (completions_of d)) ->
  exists rs s', times k group_get_completion (sh, g') = Done (rs, s') /\
    ((forall i, i ∈ ps -> good i) -> reports tid (omap id rs) = 1%nat) /\
    ((exists i, i ∈ ps /\ ~ good i) -> reports tid (omap id rs) = 0%nat) /\
    (forall i e, i ∈ ps -> DcError tid e ∈ part i -> DcError tid e ∈ omap id rs).
Proof.
  intros Hwf Hk Hctx Hne Hnd Hpart Hin Hout.
  assert (forall i, i ∈ ps -> exists old, queues (sh, g') !! i = Some (old ++ part i) /\
    queues (sh, g') !!! i = old ++ part i /\ no_entry_of tid old /\ reports tid old = 0%nat) as Hq.
  { intros i Hi. destruct (Hin i Hi) as (d'' & old & Hd'' & Hold & Hcomp). exists old.
    assert (queues (sh, g') !! i = Some (old ++ part i)) as Hl.
    { unfold queues. simpl. rewrite list_lookup_fmap, Hd''. simpl. by rewrite Hcomp. }
    split; [done|]. split; [by rewrite list_lookup_total_alt, Hl|]. split; [done|by apply no_entry_reports]. }
  assert (reports tid [DcTransfer tid] = 1%nat) as Hr1 by (by rewrite reports_cons, decide_True).
  destruct (drain_spread n k (sh, g') tid ps) as (rs & s' & Hrun & _ & Hgood & Hfirst & Hnone & Hfwd); [done..| | |].
  - intros i q Hi. unfold queues. simpl. rewrite list_lookup_fmap.
    destruct (domains g' !! i) eqn:Hd; intros; simplify_eq/=. by eapply no_entry_reports, Hout.
  - intros i Hi. destruct (Hq i Hi) as (old & _ & -> & _ & Hz). rewrite reports_app, Hz.
    destruct (Hpart i Hi) as [[_ ->]|[_ [? _]]]; [by rewrite Hr1|done].
  - exists rs, s'. split; [done|]. split; [|split].
    + intros Hall.
      assert (forall i, i ∈ ps -> part i = [DcTransfer tid]) as Hone.
      { intros i Hi. destruct (Hpart i Hi) as [[_ ?]|[Hn _]]; [done|by destruct Hn; apply Hall]. }
      apply Hgood.
      * intros i Hi. destruct (Hq i Hi) as (old & _ & -> & _ & Hz). by rewrite reports_app, Hz, Hone.
      * intros c (q & Hl%list_elem_of_In & Hc%list_elem_of_In)%list_elem_of_In%in_concat.
        apply list_elem_of_lookup_1 in Hl as [i Hl].
        destruct (decide (i ∈ ps)) as [Hi|Hi].
        { destruct (Hq i Hi) as (old & Hl' & _ & Hold & _). rewrite Hl in Hl'. simplify_eq.
          rewrite (Hone i Hi) in Hc. apply elem_of_app in Hc as [Hc|Hc%list_elem_of_singleton];
            [by eapply no_entry_error|intros [e ->]; done]. }
        unfold queues in Hl. simpl in Hl. rewrite list_lookup_fmap in Hl.
        destruct (domains g' !! i) as [d|] eqn:Hd; simplify_eq/=. by eapply no_entry_error; [apply (Hout i d Hi Hd)|].
    + intros (i & Hi & Hn). destruct (Hq i Hi) as (old & _ & Hqi & _ & Hz).
      destruct (Hpart i Hi) as [[? _]|[_ [_ [He|He]]]]; [done|apply Hfirst|apply Hnone]; exists i; rewrite Hqi;
        (split; [done|]); [by apply error_first_app|by rewrite reports_app, Hz].
    + intros i e Hi He. apply Hfwd. destruct (Hq i Hi) as (old & Hl & _).
      apply list_elem_of_In, in_concat. exists (old ++ part i). split; apply list_elem_of_In; [by eapply list_elem_of_lookup_2|].
      apply elem_of_app. by right.
Qed.

(** The outcome when the domains [ps] have reported their shares, whose messages completed with
    the outcomes [vs]. *)
Lemma shares_drained n k sh tid (vs : nat -> list (option FabricLibError)) ps (g' : DomainGroup D) :
  group_wf n g' -> (length (concat (queues (sh, g'))) <= k)%nat ->
  write_ops g' !! tid = Some (new_ctx (length ps) None) -> ps <> [] -> NoDup ps ->
  (forall i, i ∈ ps -> vs i <> [] /\ exists d'' old, domains g' !! i = Some d'' /\ no_entry_of tid old /\
    completions_of d'' = old ++ write_reports tid false (vs i)) ->
  (forall i d, i ∉ ps -> domains g' !! i = Some d -> no_entry_of tid (completions_of d)) ->
  exists rs s', times k group_get_completion (sh, g') = Done (rs, s') /\
    ((forall i, i ∈ ps -> Forall (fun v => v = None) (vs i)) -> reports tid (omap id rs) = 1%nat) /\
    ((exists i, i ∈ ps /\ ~ Forall (fun v => v = None) (vs i)) ->
     reports tid (omap id rs) = 0%nat /\ exists e, DcError tid e ∈ omap id rs).
Proof.
  intros Hwf Hk Hctx Hne Hnd Hin Hout.
  destruct (parts_drained n k sh tid (fun i => write_reports tid false (vs i))
    (fun i => Forall (fun v => v = None) (vs i)) ps g') as (rs & s' & Hrun & Hgood & Hbad & Hfwd);
    [done..| |intros i Hi; apply (Hin i Hi)|done|].
  - intros i Hi. destruct (decide (Forall (fun v => v = None) (vs i))) as [Hall|Hn]; [left|right]; (split; [done|]).
    + apply write_reports_success; [by apply Hin|done].
    + split; [apply write_reports_at_most|]. left. by apply write_reports_error_first.
  - exists rs, s'. split; [done|]. split; [done|]. intros (i & Hi & Hn). split; [by apply Hbad; exists i|].
    destruct (write_reports_error_first tid (vs i) Hn) as (pre & e & post & Heq & _).
    exists e. apply (Hfwd i); [done|]. rewrite Heq. set_solver.
Qed.
End Shares.
