(* ===== verification/Utils.v ===== *)
(** * Pools, hex and addresses

    [fabric-lib/src/utils/memory.rs], [obj_pool.rs], [defer.rs] and [hex.rs], the [FromStr] and
    [Display] of [DomainAddress] ([api.rs]), and the byte encoding of
    [verbs/verbs_address.rs]. *)
From Stdlib Require Import Lia.
From stdpp Require Import prelude gmap strings list.
From S2P Require Import Prelude Api.
Local Open Scope Z_scope.

(** ** [MemoryPool]: fixed-size chunks of one buffer.  A [Vec] used as a stack has its top at
    the head of the list. *)
Record MemoryPool := {
  mp_chunk_size : Z;
  mp_num_chunks : nat;
  mp_buffer : Z;
  mp_free_list : list Z;
}.

(** [buffer] is the address the allocator returned. *)
Definition mp_new (buffer chunk_size : Z) (num_chunks : nat) : MemoryPool :=
  {| mp_chunk_size := chunk_size; mp_num_chunks := num_chunks; mp_buffer := buffer;
     mp_free_list := reverse ((fun i => buffer + Z.of_nat i * chunk_size) <$> seq 0 num_chunks) |}.

Definition mp_buffer_len (p : MemoryPool) : Z := Z.of_nat (mp_num_chunks p) * mp_chunk_size p.

Definition mp_set_free (l : list Z) (p : MemoryPool) : MemoryPool :=
  {| mp_chunk_size := mp_chunk_size p; mp_num_chunks := mp_num_chunks p;
     mp_buffer := mp_buffer p; mp_free_list := l |}.

Definition mp_alloc : M MemoryPool (option Z) := fun p =>
  match mp_free_list p with
  | [] => Done (None, p)
  | ptr :: l => Done (Some ptr, mp_set_free l p)
  end.

Definition mp_free (ptr : Z) : M MemoryPool unit :=
  modify (fun p => mp_set_free (ptr :: mp_free_list p) p).

(** ** [ObjectPool]: slots of growing chunks.  A slot is [chunk * chunk_size + index]. *)
Record ObjectPool := {
  op_chunks : nat;
  op_chunk_size : nat;
  next_in_last : nat;
  op_free_list : list nat;
}.

Definition with_chunk_size (chunk_size : nat) : outcome ObjectPool :=
  if (chunk_size =? 0)%nat then Panic "chunk_size must be > 0"
  else Done {| op_chunks := 0; op_chunk_size := chunk_size; next_in_last := 0; op_free_list := [] |}.

Definition alloc_uninit : M ObjectPool nat := fun p =>
  match op_free_list p with
  | a :: l =>
      Done (a, {| op_chunks := op_chunks p; op_chunk_size := op_chunk_size p;
                  next_in_last := next_in_last p; op_free_list := l |})
  | [] =>
      let grow := (op_chunks p =? 0)%nat || (next_in_last p =? op_chunk_size p)%nat in
      let chunks := if grow then S (op_chunks p) else op_chunks p in
      let s := if grow then 0%nat else next_in_last p in
      Done (((chunks - 1) * op_chunk_size p + s)%nat,
            {| op_chunks := chunks; op_chunk_size := op_chunk_size p;
               next_in_last := S s; op_free_list := [] |})
  end.

Definition free_and_drop (a : nat) : M ObjectPool unit :=
  modify (fun p => {| op_chunks := op_chunks p; op_chunk_size := op_chunk_size p;
                      next_in_last := next_in_last p; op_free_list := a :: op_free_list p |}).

(** ** [Defer]: run the cleanup on drop unless cancelled *)
Record Defer := { canceled : bool }.
Definition defer_new : Defer := {| canceled := false |}.
Definition defer_cancel (d : Defer) : Defer := {| canceled := true |}.
Definition defer_drop {S} (f : M S unit) (d : Defer) : M S unit :=
  if negb (canceled d) then f else ret tt.

(** ** Hex strings: a [str] is its UTF-8 bytes *)
Definition hex_digit (d : Z) : Z := if d <? 10 then 48 + d else 87 + d.

Definition fmt_hex (bytes : list Z) : list Z :=
  concat ((fun x => [hex_digit (x / 16); hex_digit (x mod 16)]) <$> bytes).

(** [char::to_digit(16)]. *)
Definition digit_of (c : Z) : option Z :=
  if (48 <=? c) && (c <=? 57) then Some (c - 48)
  else if (97 <=? c) && (c <=? 102) then Some (c - 87)
  else if (65 <=? c) && (c <=? 70) then Some (c - 55)
  else None.

(** [u8::from_str_radix(&s[i..i + 2], 16)]: a leading [+] is accepted. *)
Definition from_str_radix_16 (a b : Z) : option Z :=
  if a =? 43 then digit_of b
  else
    match digit_of a, digit_of b with
    | Some x, Some y => Some (16 * x + y)
    | _, _ => None
    end.

(** [str::is_char_boundary] of what is left of the string. *)
Definition at_boundary (rest : list Z) : bool :=
  match rest with
  | [] => true
  | c :: _ => negb ((128 <=? c) && (c <? 192))
  end.

Inductive ParseIntError : Type := InvalidDigit.

(** Slicing off a character boundary, or past the end, panics. *)
Fixpoint from_hex (s : list Z) : outcome (result ParseIntError (list Z)) :=
  match s with
  | [] => Done (Ok [])
  | [_] => Panic "byte index is out of bounds"
  | a :: b :: rest =>
      if negb (at_boundary rest) then Panic "byte index is not a char boundary" else
      match from_str_radix_16 a b with
      | None => Done (Err InvalidDigit)
      | Some x =>
          match from_hex rest with
          | Done (Ok l) => Done (Ok (x :: l))
          | r => r
          end
      end
  end.

Definition address_display (a : DomainAddress) : list Z := fmt_hex (addr_bytes a).

Definition address_from_str (s : list Z) : outcome (res DomainAddress) :=
  if negb (Nat.even (length s)) || (length s =? 0)%nat then
    Done (Err (Custom "Invalid address length"))
  else
    match from_hex s with
    | Done (Ok b) => Done (Ok {| addr_bytes := b |})
    | Done (Err _) => Done (Err (Custom "Invalid address"))
    | Panic why => Panic why
    | OutOfFuel => OutOfFuel
    end.

(** ** Memory as a function of addresses *)
Definition Bytes : Type := Z -> Z.
Definition write_bytes (p : Z) (data : list Z) (m : Bytes) : Bytes := fun a =>
  if (p <=? a) && (a <? p + Z.of_nat (length data)) then nth (Z.to_nat (a - p)) data 0 else m a.
Definition read_bytes (p : Z) (n : nat) (m : Bytes) : list Z := (fun i => m (p + Z.of_nat i)) <$> seq 0 n.

(** ** [VerbsUDAddress] *)
Record VerbsUDAddress := { ud_gid : list Z; ud_lid : Z; ud_qp_num : Z; ud_qkey : Z }.
Record VerbsRCAddress := { rc_gid : list Z; rc_lid : Z; rc_qp_num : Z; rc_psn : Z }.

#[export] Instance VerbsUDAddress_eq_dec : EqDecision VerbsUDAddress.
Proof. solve_decision. Defined.

Definition BYTES : nat := 26.

Fixpoint to_le_bytes (n : nat) (v : Z) : list Z :=
  match n with
  | O => []
  | S n => v mod 256 :: to_le_bytes n (v / 256)
  end.

Fixpoint from_le_bytes (l : list Z) : Z :=
  match l with
  | [] => 0
  | b :: l => b + 256 * from_le_bytes l
  end.

Definition to_bytes (a : VerbsUDAddress) : list Z :=
  ud_gid a ++ to_le_bytes 2 (ud_lid a) ++ to_le_bytes 4 (ud_qp_num a) ++ to_le_bytes 4 (ud_qkey a).

Definition from_bytes (bytes : list Z) : option VerbsUDAddress :=
  if negb (length bytes =? BYTES)%nat then None
  else Some {| ud_gid := take 16 bytes;
               ud_lid := from_le_bytes (take 2 (drop 16 bytes));
               ud_qp_num := from_le_bytes (take 4 (drop 18 bytes));
               ud_qkey := from_le_bytes (take 4 (drop 22 bytes)) |}.

Definition address_of_ud (a : VerbsUDAddress) : DomainAddress := {| addr_bytes := to_bytes a |}.

(** ** Round trips *)
Definition is_byte (b : Z) : Prop := 0 <= b < 256.

Lemma read_write_same p data m : read_bytes p (length data) (write_bytes p data m) = data.
Proof.
  apply list_eq. intros i. unfold read_bytes. rewrite list_lookup_fmap.
  destruct (decide (i < length data)%nat) as [Hi|Hi].
  - rewrite lookup_seq_lt by done. destruct (lookup_lt_is_Some_2 data i Hi) as [x Hx]. rewrite Hx. simpl. f_equal.
    unfold write_bytes. destruct (Z.leb_spec p (p + Z.of_nat i)); [|lia].
    destruct (Z.ltb_spec (p + Z.of_nat i) (p + Z.of_nat (length data))); [|lia]. simpl.
    replace (Z.to_nat (p + Z.of_nat i - p)) with i by lia. by apply nth_lookup_Some.
  - rewrite lookup_seq_ge, lookup_ge_None_2 by lia. done.
Qed.

Definition apart (p n q k : Z) : Prop := p + n <= q \/ q + k <= p.

Lemma read_write_apart p n q data m :
  apart p (Z.of_nat n) q (Z.of_nat (length data)) -> read_bytes p n (write_bytes q data m) = read_bytes p n m.
Proof.
  intros Ha. unfold read_bytes. apply list_fmap_ext. intros i x [-> Hx]%lookup_seq. simpl. unfold write_bytes.
  unfold apart in Ha. destruct (Z.leb_spec q (p + Z.of_nat i)); [|done].
  destruct (Z.ltb_spec (p + Z.of_nat i) (q + Z.of_nat (length data))); [lia|done].
Qed.

Lemma to_le_bytes_length n v : length (to_le_bytes n v) = n.
Proof. revert v. induction n; intros; simpl; auto. Qed.

Lemma le_bytes_roundtrip n v : 0 <= v < 256 ^ Z.of_nat n -> from_le_bytes (to_le_bytes n v) = v.
Proof.
  revert v. induction n as [|n IH]; intros v Hv; simpl; [simpl in Hv; lia|].
  rewrite Nat2Z.inj_succ, Z.pow_succ_r in Hv by lia.
  rewrite IH by (split; [apply Z.div_pos; lia|apply Z.div_lt_upper_bound; lia]).
  pose proof (Z.div_mod v 256 ltac:(lia)). lia.
Qed.

Lemma le_bytes_inverse l : Forall is_byte l -> to_le_bytes (length l) (from_le_bytes l) = l.
Proof.
  induction 1 as [|b l Hb Hl IH]; simpl; [done|]. unfold is_byte in Hb. f_equal.
  - rewrite Z.mul_comm, Z.mod_add by lia. apply Z.mod_small. lia.
  - rewrite Z.mul_comm, Z.div_add by lia. rewrite Z.div_small by lia. by rewrite Z.add_0_l.
Qed.

Lemma hex_digit_roundtrip d :
  0 <= d < 16 -> digit_of (hex_digit d) = Some d /\ hex_digit d <> 43 /\ hex_digit d < 128.
Proof.
  intros Hd. unfold hex_digit, digit_of. destruct (Z.ltb_spec d 10).
  - assert (((48 <=? 48 + d) && (48 + d <=? 57)) = true) as -> by lia.
    split; [f_equal; lia|lia].
  - assert (((48 <=? 87 + d) && (87 + d <=? 57)) = false) as -> by lia.
    assert (((97 <=? 87 + d) && (87 + d <=? 102)) = true) as -> by lia.
    split; [f_equal; lia|lia].
Qed.

Lemma fmt_hex_boundary bytes : Forall is_byte bytes -> at_boundary (fmt_hex bytes) = true.
Proof.
  intros [|x l Hx Hl]; [done|]. unfold is_byte in Hx.
  change (fmt_hex (x :: l)) with (hex_digit (x / 16) :: hex_digit (x mod 16) :: fmt_hex l).
  assert (0 <= x / 16 < 16) as Hd
    by (split; [apply Z.div_pos; lia|apply Z.div_lt_upper_bound; lia]).
  destruct (hex_digit_roundtrip (x / 16) Hd) as (_ & _ & Hlt). unfold at_boundary.
  destruct (Z.leb_spec 128 (hex_digit (x / 16))); [lia|done].
Qed.

Lemma from_hex_fmt bytes : Forall is_byte bytes -> from_hex (fmt_hex bytes) = Done (Ok bytes).
Proof.
  induction 1 as [|x l Hx Hl IH]; [done|]. unfold is_byte in Hx.
  change (fmt_hex (x :: l)) with (hex_digit (x / 16) :: hex_digit (x mod 16) :: fmt_hex l).
  cbn [from_hex]. rewrite (fmt_hex_boundary l Hl). cbn [negb].
  assert (0 <= x / 16 < 16) as Hd
    by (split; [apply Z.div_pos; lia|apply Z.div_lt_upper_bound; lia]).
  destruct (hex_digit_roundtrip (x / 16) Hd) as (H1 & Hne & _).
  destruct (hex_digit_roundtrip (x mod 16)) as (H2 & _); [apply Z.mod_pos_bound; lia|].
  unfold from_str_radix_16. rewrite (proj2 (Z.eqb_neq _ _) Hne), H1, H2, IH.
  pose proof (Z.div_mod x 16 ltac:(lia)). do 3 f_equal. lia.
Qed.

Lemma fmt_hex_length bytes : length (fmt_hex bytes) = (2 * length bytes)%nat.
Proof.
  induction bytes as [|x l IH]; [done|].
  change (length (fmt_hex (x :: l))) with (S (S (length (fmt_hex l)))). rewrite IH. simpl. lia.
Qed.

(** Printing and parsing a [DomainAddress] are inverse: for every non-empty byte string,
    [from_str] of its [Display] is [Ok] of the same address. *)
Theorem address_display_roundtrip a :
  Forall is_byte (addr_bytes a) -> addr_bytes a <> [] ->
  address_from_str (address_display a) = Done (Ok a).
Proof.
  intros Hb Hne. unfold address_from_str, address_display. rewrite fmt_hex_length, from_hex_fmt by done.
  assert (Nat.even (2 * length (addr_bytes a)) = true) as -> by (apply Nat.even_spec; by exists (length (addr_bytes a))).
  destruct (addr_bytes a) eqn:E; [done|]. simpl. destruct a. simpl in E. by subst.
Qed.

Lemma address_display_roundtrip_witness :
  address_from_str (address_display {| addr_bytes := [0; 26; 255] |}) = Done (Ok {| addr_bytes := [0; 26; 255] |}).
Proof.
  apply (address_display_roundtrip {| addr_bytes := [0; 26; 255] |}); [|done].
  repeat constructor; unfold is_byte; lia.
Defined.

Record ud_ok (a : VerbsUDAddress) : Prop := {
  ok_gid : length (ud_gid a) = 16%nat;
  ok_gid_bytes : Forall is_byte (ud_gid a);
  ok_lid : 0 <= ud_lid a < 2 ^ 16;
  ok_qp_num : 0 <= ud_qp_num a < 2 ^ 32;
  ok_qkey : 0 <= ud_qkey a < 2 ^ 32;
}.

Lemma ud_from_to a : ud_ok a -> from_bytes (to_bytes a) = Some a.
Proof.
  intros []. destruct a as [gid lid qpn qkey]. cbn [ud_gid ud_lid ud_qp_num ud_qkey] in *.
  unfold from_bytes, to_bytes. cbn [ud_gid ud_lid ud_qp_num ud_qkey].
  rewrite !length_app, !to_le_bytes_length, ok_gid0. cbn [Nat.add Nat.eqb BYTES negb].
  rewrite take_app_length' by done. f_equal. f_equal.
  - rewrite drop_app_length' by done. rewrite take_app_length' by (by rewrite to_le_bytes_length).
    apply le_bytes_roundtrip. simpl. lia.
  - rewrite (drop_app_ge gid) by lia. rewrite ok_gid0. simpl (18 - 16)%nat.
    rewrite drop_app_length' by (by rewrite to_le_bytes_length).
    rewrite take_app_length' by (by rewrite to_le_bytes_length).
    apply le_bytes_roundtrip. simpl. lia.
  - rewrite (drop_app_ge gid) by lia. rewrite ok_gid0. simpl (22 - 16)%nat.
    rewrite drop_app_ge by (rewrite to_le_bytes_length; lia). rewrite to_le_bytes_length.
    simpl (6 - 2)%nat. rewrite drop_app_length' by (by rewrite to_le_bytes_length).
    rewrite take_ge by (rewrite to_le_bytes_length; lia). apply le_bytes_roundtrip. simpl. lia.
Qed.

Lemma ud_to_from bytes a : Forall is_byte bytes -> from_bytes bytes = Some a -> to_bytes a = bytes.
Proof.
  intros Hb. unfold from_bytes. destruct (Nat.eqb_spec (length bytes) BYTES) as [Hl|]; [|done].
  cbn [negb]. intros; simplify_eq. unfold to_bytes. cbn [ud_gid ud_lid ud_qp_num ud_qkey].
  unfold BYTES in Hl.
  assert (forall n o, (o + n <= 26)%nat -> to_le_bytes n (from_le_bytes (take n (drop o bytes))) = take n (drop o bytes)) as Hle.
  { intros n o Ho. rewrite <- (le_bytes_inverse (take n (drop o bytes))) at 2 by (by apply Forall_take, Forall_drop).
    rewrite length_take, length_drop. by replace (n `min` (length bytes - o))%nat with n by lia. }
  rewrite !Hle by lia. symmetry.
  transitivity (take 16 bytes ++ drop 16 bytes); [by rewrite take_drop|]. f_equal.
  transitivity (take 2 (drop 16 bytes) ++ drop 2 (drop 16 bytes)); [by rewrite take_drop|].
  f_equal. rewrite drop_drop. simpl (16 + 2)%nat.
  transitivity (take 4 (drop 18 bytes) ++ drop 4 (drop 18 bytes)); [by rewrite take_drop|].
  f_equal. rewrite drop_drop. simpl (18 + 4)%nat.
  rewrite take_ge; [done|]. rewrite length_drop. lia.
Qed.

(** The 26-byte encoding of a [VerbsUDAddress] is a bijection: decoding an encoded address
    gives it back, and every 26-byte string that decodes re-encodes to itself; any other length
    is rejected. *)
Theorem ud_address_roundtrip a bytes :
  ud_ok a -> Forall is_byte bytes ->
  from_bytes (to_bytes a) = Some a /\
  (from_bytes bytes = Some a -> to_bytes a = bytes) /\
  (length bytes = BYTES <-> is_Some (from_bytes bytes)).
Proof.
  intros Ha Hb. split; [by apply ud_from_to|]. split; [by apply ud_to_from|].
  unfold from_bytes. destruct (Nat.eqb_spec (length bytes) BYTES); cbn [negb].
  - split; [eauto|done].
  - split; [done|]. by intros [? ?].
Qed.

Definition example_ud : VerbsUDAddress :=
  {| ud_gid := replicate 16 7; ud_lid := 258; ud_qp_num := 65537; ud_qkey := 286331153 |}.

Lemma example_ud_ok : ud_ok example_ud.
Proof. split; simpl; try lia. repeat constructor; unfold is_byte; lia. Qed.

Lemma ud_address_roundtrip_witness :
  from_bytes (to_bytes example_ud) = Some example_ud /\
  (from_bytes [1; 2] = Some example_ud -> to_bytes example_ud = [1; 2]) /\
  (length [1; 2] = BYTES <-> is_Some (from_bytes [1; 2])).
Proof.
  apply (ud_address_roundtrip example_ud [1; 2]); [apply example_ud_ok|].
  repeat constructor; unfold is_byte; lia.
Defined.

(** ** Pools never hand out an object that is in use *)

(** The addresses an [ObjectPool] has carved out so far. *)
Definition carved (p : ObjectPool) : nat :=
  match op_chunks p with O => 0%nat | S c => (c * op_chunk_size p + next_in_last p)%nat end.

(** [live] is what the client holds. *)
Record pool_ok (p : ObjectPool) (live : list nat) : Prop := {
  pool_size : (0 < op_chunk_size p)%nat;
  pool_next : (next_in_last p <= op_chunk_size p)%nat;
  pool_nodup : NoDup (live ++ op_free_list p);
  pool_range : forall a, a ∈ live ++ op_free_list p <-> (a < carved p)%nat;
}.

Lemma with_chunk_size_ok n : (0 < n)%nat -> exists p, with_chunk_size n = Done p /\ pool_ok p [].
Proof.
  intros Hn. unfold with_chunk_size. rewrite (proj2 (Nat.eqb_neq _ _)) by lia.
  eexists. split; [done|]. split; simpl; [done|lia|constructor|]. intros a. unfold carved; simpl.
  split; [set_solver|lia].
Qed.

Lemma alloc_fresh_ok p live :
  pool_ok p live -> op_free_list p = [] ->
  exists p', alloc_uninit p = Done (carved p, p') /\ carved p' = S (carved p) /\
    op_free_list p' = [] /\ op_chunk_size p' = op_chunk_size p /\
    (next_in_last p' <= op_chunk_size p')%nat.
Proof.
  intros [Hs Hn _ _] Hf. unfold alloc_uninit, carved. rewrite Hf.
  destruct (op_chunks p) as [|c] eqn:Hc; cbn [Nat.eqb orb].
  - eexists. split; [done|]. simpl. split; [lia|]. split; [done|]. split; [done|lia].
  - destruct (Nat.eqb_spec (next_in_last p) (op_chunk_size p)) as [He|He].
    + exists {| op_chunks := S (S c); op_chunk_size := op_chunk_size p; next_in_last := 1;
                op_free_list := [] |}.
      replace ((S (S c) - 1) * op_chunk_size p + 0)%nat with (c * op_chunk_size p + next_in_last p)%nat by nia.
      split; [done|]. simpl. split; [nia|]. split; [done|]. split; [done|lia].
    + exists {| op_chunks := S c; op_chunk_size := op_chunk_size p;
                next_in_last := S (next_in_last p); op_free_list := [] |}.
      replace (S c - 1)%nat with c by lia.
      split; [done|]. simpl. split; [lia|]. split; [done|]. split; [done|lia].
Qed.

Lemma alloc_uninit_ok p live :
  pool_ok p live -> exists a p', alloc_uninit p = Done (a, p') /\ (a ∉ live) /\ pool_ok p' (a :: live).
Proof.
  intros Hok. pose proof Hok as [Hs Hn Hnd Hr]. destruct (op_free_list p) as [|a l] eqn:Hf.
  - destruct (alloc_fresh_ok p live Hok Hf) as (p' & Hrun & Hc & Hf' & Hs' & Hn').
    exists (carved p), p'. split; [done|].
    assert (carved p ∉ live) as Hni.
    { intros Hin. assert (carved p < carved p)%nat; [|lia]. apply Hr. set_solver. }
    split; [done|]. split; [lia|done| |].
    + rewrite Hf'. rewrite app_nil_r in *. by constructor.
    + intros b. rewrite Hf', Hc, app_nil_r, elem_of_cons. rewrite app_nil_r in Hr. rewrite Hr. lia.
  - exists a. unfold alloc_uninit. rewrite Hf. eexists. split; [done|].
    assert (a ∉ live) as Hni by (intros Hin; apply NoDup_app in Hnd as (_ & Hd & _); apply (Hd a); set_solver).
    split; [done|]. assert ((a :: live) ++ l ≡ₚ live ++ a :: l) as Hperm by (simpl; by rewrite Permutation_middle).
    split; simpl; [done|done| |].
    + change (NoDup ((a :: live) ++ l)). by rewrite Hperm.
    + intros b. change (b ∈ (a :: live) ++ l <-> (b < carved p)%nat). rewrite Hperm. apply Hr.
Qed.

Lemma free_and_drop_ok p live a :
  pool_ok p (a :: live) -> exists p', free_and_drop a p = Done (tt, p') /\ pool_ok p' live.
Proof.
  intros [Hs Hn Hnd Hr]. eexists. split; [done|].
  assert (live ++ a :: op_free_list p ≡ₚ (a :: live) ++ op_free_list p) as Hperm
    by (simpl; by rewrite Permutation_middle).
  split; simpl; [done|done| |].
  - by rewrite Hperm.
  - intros b. rewrite Hperm. apply Hr.
Qed.

Lemma pool_ok_perm p l l' : l ≡ₚ l' -> pool_ok p l -> pool_ok p l'.
Proof.
  intros Hp [Hs Hn Hnd Hr]. split; [done|done|by rewrite <- Hp|]. intros a. rewrite <- Hp. apply Hr.
Qed.

(** A client that frees only what it holds: [None] allocates, [Some i] frees the [i]-th object
    held. *)
Fixpoint pool_client (script : list (option nat)) (p : ObjectPool) (live : list nat) :
    outcome (ObjectPool * list nat) :=
  match script with
  | [] => Done (p, live)
  | None :: script =>
      match alloc_uninit p with
      | Done (a, p) => pool_client script p (a :: live)
      | Panic why => Panic why
      | OutOfFuel => OutOfFuel
      end
  | Some i :: script =>
      match live !! i with
      | None => pool_client script p live
      | Some a =>
          match free_and_drop a p with
          | Done (_, p) => pool_client script p (delete i live)
          | Panic why => Panic why
          | OutOfFuel => OutOfFuel
          end
      end
  end.

(** An [ObjectPool] never hands out an object that is in use.  From a new pool, after every
    sequence of allocations and frees by a client that frees only what it holds, the objects
    held are pairwise distinct, none is on the free list, and together with the free list they
    are exactly the slots carved out of the chunks (no slot is lost). *)
Theorem object_pool_no_aliasing n script :
  (0 < n)%nat ->
  exists p0 p live, with_chunk_size n = Done p0 /\ pool_client script p0 [] = Done (p, live) /\
    pool_ok p live.
Proof.
  intros Hn. destruct (with_chunk_size_ok n Hn) as (p0 & H0 & Hok0). exists p0.
  cut (forall p live, pool_ok p live -> exists p' live', pool_client script p live = Done (p', live') /\ pool_ok p' live').
  { intros Hc. destruct (Hc p0 [] Hok0) as (p & live & ? & ?). by exists p, live. }
  clear p0 H0 Hok0. induction script as [|[i|] script IH]; intros p live Hok; cbn [pool_client].
  - by exists p, live.
  - destruct (live !! i) as [a|] eqn:Hi; [|by apply IH].
    destruct (free_and_drop_ok p (delete i live) a) as (p' & -> & Hok'); [|by apply IH].
    eapply pool_ok_perm; [by apply delete_Permutation|done].
  - destruct (alloc_uninit_ok p live Hok) as (a & p' & -> & _ & Hok'). by apply IH.
Qed.

Lemma object_pool_no_aliasing_witness :
  exists p0 p live, with_chunk_size 2 = Done p0 /\
    pool_client [None; None; None; Some 1%nat; None; Some 0%nat] p0 [] = Done (p, live) /\ pool_ok p live.
Proof. apply (object_pool_no_aliasing 2). lia. Defined.
