(* ===== verification/VerbsRdmaOp.v ===== *)
(** * Verbs work requests

    [fabric-lib/src/verbs/verbs_rdma_op.rs]: turning an operation into [ibv_send_wr] chains.
    A chain buffer is owned by the iterator that points to it, so it is a field here.  The
    buffer is allocated uninitialised: its initial contents are an argument. *)
From Stdlib Require Import Lia ZifyNat.
From stdpp Require Import prelude gmap strings list.
From S2P Require Import Prelude Api.
Local Open Scope Z_scope.

Definition WR_CHAIN_LEN : nat := 4.

Inductive ibv_wr_opcode : Type := IBV_WR_RDMA_WRITE | IBV_WR_RDMA_WRITE_WITH_IMM | IBV_WR_SEND.

#[export] Instance ibv_wr_opcode_eq_dec : EqDecision ibv_wr_opcode.
Proof. solve_decision. Defined.

Record ibv_sge := { sge_addr : Z; sge_length : Z; sge_lkey : Z }.

(** A send work request.  [wr_next] is the chain's [next] pointer as a slot of the buffer;
    [wr_num_sge = 1] means [sg_list] points to the slot's own [ibv_sge]; every request of the
    library is [IBV_SEND_SIGNALED]. *)
Record ibv_send_wr := {
  wr_id : Z;
  wr_next : option nat;
  wr_num_sge : Z;
  wr_opcode : ibv_wr_opcode;
  wr_imm_data : Z;
  wr_remote_addr : Z;
  wr_rkey : Z;
}.

Record wr_slot := { slot_wr : ibv_send_wr; slot_sge : ibv_sge }.

Abbreviation WrChainBuffer := (list wr_slot) (only parsing).
Abbreviation qp := Z (only parsing).

Definition opcode_imm (imm_data : option Z) : ibv_wr_opcode * Z :=
  match imm_data with
  | Some imm_data => (IBV_WR_RDMA_WRITE_WITH_IMM, imm_data)
  | None => (IBV_WR_RDMA_WRITE, 0)
  end.

(** ** [SingleWriteOpIter] *)
Record SingleWriteOpIter := { si_rma_qp : qp; si_buf : WrChainBuffer; si_done : bool }.

Definition new_single (op : SingleWriteOp) (rma_qp : qp) (buf : WrChainBuffer) (context : Z) :
    SingleWriteOpIter :=
  let sge := {| sge_addr := u64_add (sw_src_ptr op) (sw_src_offset op);
                sge_length := as_u32 (sw_length op); sge_lkey := as_u32 (sw_src_desc op) |} in
  let wr := {| wr_id := context; wr_next := None; wr_num_sge := 1;
               wr_opcode := (opcode_imm (sw_imm_data op)).1;
               wr_imm_data := (opcode_imm (sw_imm_data op)).2;
               wr_remote_addr := u64_add (sw_dst_ptr op) (sw_dst_offset op);
               wr_rkey := as_u32 (sw_dst_rkey op) |} in
  {| si_rma_qp := rma_qp; si_buf := <[0%nat := {| slot_wr := wr; slot_sge := sge |}]> buf;
     si_done := false |}.

(** [new_imm] leaves the slot's scatter entry as it is ([num_sge] is 0). *)
Definition new_imm (op : ImmWriteOp) (rma_qp : qp) (buf : WrChainBuffer) (context : Z) :
    SingleWriteOpIter :=
  let wr := {| wr_id := context; wr_next := None; wr_num_sge := 0;
               wr_opcode := IBV_WR_RDMA_WRITE_WITH_IMM; wr_imm_data := iw_imm_data op;
               wr_remote_addr := iw_dst_ptr op; wr_rkey := as_u32 (iw_dst_rkey op) |} in
  {| si_rma_qp := rma_qp;
     si_buf := alter (fun s => {| slot_wr := wr; slot_sge := slot_sge s |}) 0%nat buf;
     si_done := false |}.

(** [peek] returns the queue pair, the slot of the first request (null is [None]) and the
    number of chained requests. *)
Definition single_peek (it : SingleWriteOpIter) : option qp * option nat * nat :=
  if si_done it then (Some (si_rma_qp it), None, 0%nat)
  else (Some (si_rma_qp it), Some 0%nat, 1%nat).

Definition mark_done (it : SingleWriteOpIter) : SingleWriteOpIter :=
  {| si_rma_qp := si_rma_qp it; si_buf := si_buf it; si_done := true |}.

(** ** [PagedWriteOpIter] *)
Record PagedWriteOpIter := {
  pi_rma_qp : qp;
  pi_buf : WrChainBuffer;
  i_wr_head : nat;
  i_wr_tail : nat;
  wr_len : nat;
  pi_src_page_indices : list Z;
  pi_dst_page_indices : list Z;
  pi_beg : nat;
  pi_end : nat;
  pi_src_ptr : Z;
  pi_src_stride : Z;
  pi_dst_ptr : Z;
  pi_dst_stride : Z;
  i_page : nat;
}.

Definition pi_set (it : PagedWriteOpIter) (buf : WrChainBuffer) (head tail len page : nat) :
    PagedWriteOpIter :=
  {| pi_rma_qp := pi_rma_qp it; pi_buf := buf; i_wr_head := head; i_wr_tail := tail;
     wr_len := len; pi_src_page_indices := pi_src_page_indices it;
     pi_dst_page_indices := pi_dst_page_indices it; pi_beg := pi_beg it; pi_end := pi_end it;
     pi_src_ptr := pi_src_ptr it; pi_src_stride := pi_src_stride it; pi_dst_ptr := pi_dst_ptr it;
     pi_dst_stride := pi_dst_stride it; i_page := page |}.

Definition set_next (n : option nat) (s : wr_slot) : wr_slot :=
  let wr := slot_wr s in
  {| slot_wr := {| wr_id := wr_id wr; wr_next := n; wr_num_sge := wr_num_sge wr;
                   wr_opcode := wr_opcode wr; wr_imm_data := wr_imm_data wr;
                   wr_remote_addr := wr_remote_addr wr; wr_rkey := wr_rkey wr |};
     slot_sge := slot_sge s |}.

Definition set_addrs (src dst : Z) (s : wr_slot) : wr_slot :=
  let wr := slot_wr s in
  {| slot_wr := {| wr_id := wr_id wr; wr_next := wr_next wr; wr_num_sge := wr_num_sge wr;
                   wr_opcode := wr_opcode wr; wr_imm_data := wr_imm_data wr;
                   wr_remote_addr := dst; wr_rkey := wr_rkey wr |};
     slot_sge := {| sge_addr := src; sge_length := sge_length (slot_sge s);
                    sge_lkey := sge_lkey (slot_sge s) |} |}.

Definition fill_wr : M PagedWriteOpIter unit := fun it =>
  let prev := ((i_wr_tail it + WR_CHAIN_LEN - 1) mod WR_CHAIN_LEN)%nat in
  let buf := alter (set_next (Some (i_wr_tail it))) prev (pi_buf it) in
  let buf := alter (set_next None) (i_wr_tail it) buf in
  match pi_src_page_indices it !! i_page it, pi_dst_page_indices it !! i_page it with
  | Some src_page_idx, Some dst_page_idx =>
      let src := u64_add (pi_src_ptr it) (u64_mul (pi_src_stride it) src_page_idx) in
      let dst := u64_add (pi_dst_ptr it) (u64_mul (pi_dst_stride it) dst_page_idx) in
      Done (tt, pi_set it (alter (set_addrs src dst) (i_wr_tail it) buf) (i_wr_head it)
        ((i_wr_tail it + 1) mod WR_CHAIN_LEN) (wr_len it + 1) (i_page it + 1))
  | _, _ => Panic "index out of bounds"
  end.

(** [while i_page < end && wr_len < WR_CHAIN_LEN { fill_wr() }]: at most [WR_CHAIN_LEN]
    rounds, since each one extends the chain. *)
Fixpoint fill_while (fuel : nat) : M PagedWriteOpIter unit := fun it =>
  if (i_page it <? pi_end it)%nat && (wr_len it <? WR_CHAIN_LEN)%nat then
    match fuel with
    | O => OutOfFuel
    | S fuel => (fill_wr ;;; fill_while fuel) it
    end
  else Done (tt, it).

(** The templates written to the first [chain_len] slots. *)
Definition paged_template (op : PagedWriteOp) (context : Z) : wr_slot :=
  {| slot_wr := {| wr_id := context; wr_next := None; wr_num_sge := 1;
                   wr_opcode := (opcode_imm (pw_imm_data op)).1;
                   wr_imm_data := (opcode_imm (pw_imm_data op)).2;
                   wr_remote_addr := 0; wr_rkey := as_u32 (pw_dst_rkey op) |};
     slot_sge := {| sge_addr := 0; sge_length := as_u32 (pw_length op);
                    sge_lkey := as_u32 (pw_src_desc op) |} |}.

Definition paged_new (op : PagedWriteOp) (rma_qp : qp) (buf : WrChainBuffer) (context : Z) :
    outcome PagedWriteOpIter :=
  if negb (pw_page_indices_beg op <? pw_page_indices_end op)%nat then
    Panic "assertion failed: op.page_indices_beg < op.page_indices_end"
  else if negb (length (pw_src_page_indices op) =? length (pw_dst_page_indices op))%nat then
    Panic "assertion failed: op.src_page_indices.len() == op.dst_page_indices.len()"
  else if negb (pw_page_indices_end op <=? length (pw_src_page_indices op))%nat then
    Panic "assertion failed: op.page_indices_end <= op.src_page_indices.len()"
  else
  let chain_len := Nat.min (pw_page_indices_end op - pw_page_indices_beg op) WR_CHAIN_LEN in
  let buf := imap (fun i s => if (i <? chain_len)%nat then paged_template op context else s) buf in
  let slf := {|
    pi_rma_qp := rma_qp; pi_buf := buf; i_wr_head := 0; i_wr_tail := 0; wr_len := 0;
    pi_src_page_indices := pw_src_page_indices op; pi_dst_page_indices := pw_dst_page_indices op;
    pi_beg := pw_page_indices_beg op; pi_end := pw_page_indices_end op;
    pi_src_ptr := u64_add (pw_src_ptr op) (pw_src_offset op); pi_src_stride := pw_src_stride op;
    pi_dst_ptr := u64_add (pw_dst_ptr op) (pw_dst_offset op); pi_dst_stride := pw_dst_stride op;
    i_page := pw_page_indices_beg op |} in
  match fill_while WR_CHAIN_LEN slf with
  | Done (_, it) => Done it
  | Panic why => Panic why
  | OutOfFuel => OutOfFuel
  end.

Definition paged_total_ops (it : PagedWriteOpIter) : nat := (pi_end it - pi_beg it)%nat.

Definition paged_peek (it : PagedWriteOpIter) : option qp * option nat * nat :=
  if (wr_len it =? 0)%nat then (None, None, 0%nat)
  else (Some (pi_rma_qp it), Some (i_wr_head it), wr_len it).

(** An underflow of [wr_len] is a panic here (release builds wrap). *)
Definition paged_advance (n : nat) : M PagedWriteOpIter unit := fun it =>
  if (wr_len it <? n)%nat then Panic "attempt to subtract with overflow" else
  fill_while WR_CHAIN_LEN
    (pi_set it (pi_buf it) ((i_wr_head it + n) mod WR_CHAIN_LEN) (i_wr_tail it)
      (wr_len it - n) (i_page it)).

(** ** [ScatterWriteOpIter] *)
Record ScatterWriteOpIter := {
  sc_qp_list : list qp;
  sc_buf : WrChainBuffer;
  sc_domain_idx : nat;
  sc_src_ptr : Z;
  sc_dsts : list ScatterTarget;
  sc_dst_beg : nat;
  sc_dst_end : nat;
  sc_byte_shards : Z;
  sc_byte_shard_idx : Z;
  i_dst : nat;
}.

Definition sc_set (it : ScatterWriteOpIter) (buf : WrChainBuffer) (i : nat) : ScatterWriteOpIter :=
  {| sc_qp_list := sc_qp_list it; sc_buf := buf; sc_domain_idx := sc_domain_idx it;
     sc_src_ptr := sc_src_ptr it; sc_dsts := sc_dsts it; sc_dst_beg := sc_dst_beg it;
     sc_dst_end := sc_dst_end it; sc_byte_shards := sc_byte_shards it;
     sc_byte_shard_idx := sc_byte_shard_idx it; i_dst := i |}.

Definition set_scatter (src len dst rkey : Z) (s : wr_slot) : wr_slot :=
  let wr := slot_wr s in
  {| slot_wr := {| wr_id := wr_id wr; wr_next := wr_next wr; wr_num_sge := wr_num_sge wr;
                   wr_opcode := wr_opcode wr; wr_imm_data := wr_imm_data wr;
                   wr_remote_addr := dst; wr_rkey := rkey |};
     slot_sge := {| sge_addr := src; sge_length := len; sge_lkey := sge_lkey (slot_sge s) |} |}.

Definition shard_len (length byte_shards : Z) : Z := as_u32 length / byte_shards.

Definition scatter_fill_wr : M ScatterWriteOpIter unit := fun it =>
  match sc_dsts it !! i_dst it with
  | None => Panic "index out of bounds"
  | Some dst =>
      if sc_byte_shards it =? 0 then Panic "attempt to divide by zero" else
      let len := shard_len (st_length dst) (sc_byte_shards it) in
      let offset := u32_mul len (sc_byte_shard_idx it) in
      match addr_rkey_list (st_dst_mr dst) !! sc_domain_idx it with
      | None => Panic "index out of bounds"
      | Some (_, rkey) =>
          Done (tt, sc_set it (alter (set_scatter
            (u64_add (sc_src_ptr it) (u64_add (st_src_offset dst) offset)) len
            (u64_add (u64_add (mrd_ptr (st_dst_mr dst)) (st_dst_offset dst)) offset)
            (as_u32 rkey)) 0%nat (sc_buf it)) (i_dst it))
      end
  end.

Definition scatter_new (op : ScatterGroupWriteOp) (qp_list : list qp) (buf : WrChainBuffer)
    (context : Z) : outcome ScatterWriteOpIter :=
  if negb (sg_dst_beg op <? sg_dst_end op)%nat then
    Panic "assertion failed: op.dst_beg < op.dst_end"
  else if negb (sg_dst_end op <=? length (sg_dsts op))%nat then
    Panic "assertion failed: op.dst_end <= op.dsts.len()"
  else if negb (length qp_list =? length (sg_dsts op))%nat then
    Panic "assertion failed: qp_list.len() == op.dsts.len()"
  else
  let template := {|
    slot_wr := {| wr_id := context; wr_next := None; wr_num_sge := 1;
                  wr_opcode := (opcode_imm (sg_imm_data op)).1;
                  wr_imm_data := (opcode_imm (sg_imm_data op)).2;
                  wr_remote_addr := 0; wr_rkey := 0 |};
    slot_sge := {| sge_addr := 0; sge_length := 0; sge_lkey := as_u32 (sg_src_desc op) |} |} in
  match scatter_fill_wr {|
      sc_qp_list := qp_list; sc_buf := <[0%nat := template]> buf;
      sc_domain_idx := sg_domain_idx op; sc_src_ptr := sg_src_ptr op; sc_dsts := sg_dsts op;
      sc_dst_beg := sg_dst_beg op; sc_dst_end := sg_dst_end op;
      sc_byte_shards := sg_byte_shards op; sc_byte_shard_idx := sg_byte_shard_idx op;
      i_dst := sg_dst_beg op |} with
  | Done (_, it) => Done it
  | Panic why => Panic why
  | OutOfFuel => OutOfFuel
  end.

Definition scatter_total_ops (it : ScatterWriteOpIter) : nat := (sc_dst_end it - sc_dst_beg it)%nat.

Definition scatter_peek (it : ScatterWriteOpIter) : option qp * option nat * nat :=
  if (i_dst it =? sc_dst_end it)%nat then (None, None, 0%nat)
  else (sc_qp_list it !! i_dst it, Some 0%nat, 1%nat).

Definition advance_one : M ScatterWriteOpIter unit := fun it =>
  let it := sc_set it (sc_buf it) (i_dst it + 1) in
  if negb (i_dst it =? sc_dst_end it)%nat then scatter_fill_wr it else Done (tt, it).

(** ** [WriteOpIter] *)
Inductive WriteOpIter : Type :=
  | ISingle (it : SingleWriteOpIter)
  | IPaged (it : PagedWriteOpIter)
  | IScatter (it : ScatterWriteOpIter).

Definition total_ops (w : WriteOpIter) : nat :=
  match w with
  | ISingle _ => 1%nat
  | IPaged it => paged_total_ops it
  | IScatter it => scatter_total_ops it
  end.

Definition peek (w : WriteOpIter) : option qp * option nat * nat :=
  match w with
  | ISingle it => single_peek it
  | IPaged it => paged_peek it
  | IScatter it => scatter_peek it
  end.

Definition iter_buf (w : WriteOpIter) : WrChainBuffer :=
  match w with ISingle it => si_buf it | IPaged it => pi_buf it | IScatter it => sc_buf it end.

Definition advance (n : nat) (w : WriteOpIter) : outcome WriteOpIter :=
  match w with
  | ISingle it =>
      if negb (n =? 1)%nat then Panic "assertion failed: n == 1" else Done (ISingle (mark_done it))
  | IPaged it =>
      match paged_advance n it with
      | Done (_, it) => Done (IPaged it)
      | Panic why => Panic why
      | OutOfFuel => OutOfFuel
      end
  | IScatter it =>
      if negb (n =? 1)%nat then Panic "assertion failed: n == 1" else
      match advance_one it with
      | Done (_, it) => Done (IScatter it)
      | Panic why => Panic why
      | OutOfFuel => OutOfFuel
      end
  end.

(** ** Send and receive requests *)
Definition fill_send_op (op : SendOp) (context : Z) : wr_slot :=
  {| slot_wr := {| wr_id := context; wr_next := None; wr_num_sge := 1; wr_opcode := IBV_WR_SEND;
                   wr_imm_data := 0; wr_remote_addr := 0; wr_rkey := 0 |};
     slot_sge := {| sge_addr := so_ptr op; sge_length := as_u32 (so_len op);
                    sge_lkey := as_u32 (so_desc op) |} |}.

Record ibv_recv_wr := { rwr_id : Z; rwr_sge : option ibv_sge }.

Definition fill_recv_op (op : RecvOp) (context : Z) : ibv_recv_wr :=
  {| rwr_id := context;
     rwr_sge := Some {| sge_addr := ro_ptr op; sge_length := as_u32 (ro_len op);
                        sge_lkey := as_u32 (ro_desc op) |} |}.

(** ** What the device sees

    [ibv_post_send] follows the [next] pointers from the given request. *)
Definition slot_view (s : wr_slot) : wr_slot := set_next None s.

Fixpoint chain (fuel : nat) (buf : WrChainBuffer) (cur : option nat) : list wr_slot :=
  match fuel, cur with
  | S fuel, Some i =>
      match buf !! i with
      | Some s => slot_view s :: chain fuel buf (wr_next (slot_wr s))
      | None => []
      end
  | _, _ => []
  end.

(** ** The ring of a paged write *)

(** Arithmetic with the remainders of the ring. *)
Ltac ring_lia := unfold WR_CHAIN_LEN in *; zify; Z.to_euclidean_division_equations; lia.

#[local] Arguments Nat.modulo : simpl never.

Section Ring.
Context (op : PagedWriteOp) (context : Z).

Definition page_src (k : nat) : Z :=
  u64_add (u64_add (pw_src_ptr op) (pw_src_offset op))
    (u64_mul (pw_src_stride op) (default 0 (pw_src_page_indices op !! k))).
Definition page_dst (k : nat) : Z :=
  u64_add (u64_add (pw_dst_ptr op) (pw_dst_offset op))
    (u64_mul (pw_dst_stride op) (default 0 (pw_dst_page_indices op !! k))).

(** The request of page [k], as the device sees it. *)
Definition page_wr (k : nat) : wr_slot :=
  set_addrs (page_src k) (page_dst k) (paged_template op context).

Definition first_pending (it : PagedWriteOpIter) : nat := (i_page it - wr_len it)%nat.

Definition slot_of (k : nat) : nat := ((k - pw_page_indices_beg op) mod WR_CHAIN_LEN)%nat.

Definition paged_op_ok : Prop :=
  (pw_page_indices_beg op < pw_page_indices_end op)%nat /\
  length (pw_src_page_indices op) = length (pw_dst_page_indices op) /\
  (pw_page_indices_end op <= length (pw_src_page_indices op))%nat.

Definition chain_len : nat :=
  Nat.min (pw_page_indices_end op - pw_page_indices_beg op) WR_CHAIN_LEN.

Record ring_ok (it : PagedWriteOpIter) : Prop := {
  r_src : pi_src_page_indices it = pw_src_page_indices op;
  r_dst : pi_dst_page_indices it = pw_dst_page_indices op;
  r_beg : pi_beg it = pw_page_indices_beg op;
  r_end : pi_end it = pw_page_indices_end op;
  r_srcp : pi_src_ptr it = u64_add (pw_src_ptr op) (pw_src_offset op);
  r_srcs : pi_src_stride it = pw_src_stride op;
  r_dstp : pi_dst_ptr it = u64_add (pw_dst_ptr op) (pw_dst_offset op);
  r_dsts : pi_dst_stride it = pw_dst_stride op;
  r_buf : length (pi_buf it) = WR_CHAIN_LEN;
  r_lo : (pw_page_indices_beg op + wr_len it <= i_page it)%nat;
  r_hi : (i_page it <= pw_page_indices_end op)%nat;
  r_len : (wr_len it <= WR_CHAIN_LEN)%nat;
  r_head : i_wr_head it = slot_of (first_pending it);
  r_tail : i_wr_tail it = slot_of (i_page it);
  r_static : forall i s, (i < chain_len)%nat -> pi_buf it !! i = Some s ->
    set_next None (set_addrs 0 0 s) = paged_template op context;
  r_slots : forall k, (first_pending it <= k < i_page it)%nat ->
    exists s, pi_buf it !! slot_of k = Some s /\ slot_view s = page_wr k /\
      wr_next (slot_wr s) = if (S k <? i_page it)%nat then Some (slot_of (S k)) else None;
}.

Lemma slot_ne k j :
  (pw_page_indices_beg op <= k < j)%nat -> (j < k + WR_CHAIN_LEN)%nat -> slot_of k <> slot_of j.
Proof. unfold slot_of. intros. ring_lia. Qed.

Lemma slot_succ k :
  (pw_page_indices_beg op <= k)%nat -> ((slot_of k + 1) mod WR_CHAIN_LEN)%nat = slot_of (k + 1).
Proof. unfold slot_of. intros. rewrite Nat.Div0.add_mod_idemp_l. f_equal. lia. Qed.

Lemma slot_pred k :
  (pw_page_indices_beg op < k)%nat ->
  ((slot_of k + WR_CHAIN_LEN - 1) mod WR_CHAIN_LEN)%nat = slot_of (k - 1).
Proof.
  unfold slot_of, WR_CHAIN_LEN. intros. replace (k - pw_page_indices_beg op)%nat
    with (S (k - 1 - pw_page_indices_beg op)) by lia.
  generalize (k - 1 - pw_page_indices_beg op)%nat. intros a. ring_lia.
Qed.

Lemma slot_prev_ne k : ((slot_of k + WR_CHAIN_LEN - 1) mod WR_CHAIN_LEN)%nat <> slot_of k.
Proof. unfold slot_of. generalize (k - pw_page_indices_beg op)%nat. intros a. ring_lia. Qed.

Lemma static_set_addrs s src dst :
  set_next None (set_addrs 0 0 s) = paged_template op context ->
  set_next None (set_addrs src dst s) = set_addrs src dst (paged_template op context).
Proof. intros <-. by destruct s as [[] []]. Qed.

Lemma alter_lookup_cases {A} (f : A -> A) (l : list A) i j x :
  alter f i l !! j = Some x ->
  (i = j /\ exists y, l !! i = Some y /\ x = f y) \/ (i <> j /\ l !! j = Some x).
Proof.
  destruct (decide (i = j)) as [->|Hne].
  - rewrite list_lookup_alter_eq. intros (y & Hy & ->)%fmap_Some. left. eauto.
  - rewrite list_lookup_alter_ne by done. auto.
Qed.

Lemma fill_wr_static (buf : list wr_slot) (t prev : nat) src dst i s :
  (forall i s, (i < chain_len)%nat -> buf !! i = Some s ->
    set_next None (set_addrs 0 0 s) = paged_template op context) ->
  (i < chain_len)%nat ->
  alter (set_addrs src dst) t (alter (set_next None) t (alter (set_next (Some t)) prev buf)) !! i
    = Some s ->
  set_next None (set_addrs 0 0 s) = paged_template op context.
Proof.
  intros Hst Hi Hs.
  apply alter_lookup_cases in Hs as [(-> & y & Hs & ->)|[_ Hs]];
  apply alter_lookup_cases in Hs as [(? & z & Hs & ->)|[? Hs]]; subst; try done;
  apply alter_lookup_cases in Hs as [(? & w & Hs & ->)|[? Hs]]; subst;
  specialize (Hst _ _ Hi Hs); rewrite <- Hst;
  by repeat match goal with x : wr_slot |- _ => destruct x as [[] []] end.
Qed.

Lemma fill_wr_ok it :
  paged_op_ok -> ring_ok it -> (i_page it < pi_end it)%nat -> (wr_len it < WR_CHAIN_LEN)%nat ->
  exists it', fill_wr it = Done (tt, it') /\ ring_ok it' /\ i_page it' = S (i_page it) /\
    wr_len it' = S (wr_len it) /\ pi_rma_qp it' = pi_rma_qp it.
Proof.
  intros (Hbe & Hl & Hle) [] Hpage Hlen. rewrite r_end0 in Hpage.
  destruct (lookup_lt_is_Some_2 (pw_src_page_indices op) (i_page it) ltac:(lia)) as (sp & Hsp).
  destruct (lookup_lt_is_Some_2 (pw_dst_page_indices op) (i_page it) ltac:(lia)) as (dp & Hdp).
  unfold fill_wr. rewrite r_src0, r_dst0, Hsp, Hdp. eexists. split; [done|].
  assert (u64_add (pi_src_ptr it) (u64_mul (pi_src_stride it) sp) = page_src (i_page it)) as ->
    by (unfold page_src; by rewrite Hsp, r_srcp0, r_srcs0).
  assert (u64_add (pi_dst_ptr it) (u64_mul (pi_dst_stride it) dp) = page_dst (i_page it)) as ->
    by (unfold page_dst; by rewrite Hdp, r_dstp0, r_dsts0).
  set (prev := ((i_wr_tail it + WR_CHAIN_LEN - 1) mod WR_CHAIN_LEN)%nat).
  assert (i_wr_tail it < WR_CHAIN_LEN)%nat as Ht by (rewrite r_tail0; apply Nat.mod_upper_bound; done).
  assert (prev <> i_wr_tail it) as Hprev by (subst prev; rewrite r_tail0; apply slot_prev_ne).
  split; [|by repeat split; simpl; lia].
  split; unfold first_pending in *; simpl; try done; try lia.
  - by rewrite !length_alter.
  - rewrite r_head0. f_equal. lia.
  - rewrite r_tail0. apply slot_succ. lia.
  - intros i s. by apply fill_wr_static.
  - intros k Hk. destruct (decide (k = i_page it)) as [->|Hne].
    + destruct (lookup_lt_is_Some_2 (pi_buf it) (i_wr_tail it) ltac:(lia)) as (s & Hs).
      rewrite <- r_tail0. rewrite list_lookup_alter_eq, list_lookup_alter_eq, list_lookup_alter_ne by done.
      rewrite Hs. simpl. eexists. split; [done|]. split; [|simpl; by rewrite (proj2 (Nat.ltb_ge _ _)) by lia].
      assert (set_next None (set_addrs 0 0 s) = paged_template op context) as Hst.
      { eapply r_static0; [|done]. unfold chain_len. rewrite r_tail0. unfold slot_of. ring_lia. }
      unfold page_wr. rewrite <- (static_set_addrs s _ _ Hst). by destruct s as [[] []].
    + destruct (r_slots0 k ltac:(lia)) as (s & Hs & Hv & Hn).
      assert (slot_of k <> i_wr_tail it) by (rewrite r_tail0; apply slot_ne; lia).
      rewrite !list_lookup_alter_ne by done.
      destruct (decide (k = i_page it - 1)%nat) as [->|Hk2].
      * assert (prev = slot_of (i_page it - 1)) as -> by (subst prev; rewrite r_tail0; apply slot_pred; lia).
        rewrite list_lookup_alter_eq, Hs. simpl. eexists. split; [done|].
        split; [by destruct s as [[] []]|]. simpl. rewrite (proj2 (Nat.ltb_lt _ _)) by lia.
        rewrite r_tail0. do 2 f_equal. lia.
      * assert (slot_of k <> prev).
        { subst prev. rewrite r_tail0, slot_pred by lia. apply slot_ne; lia. }
        rewrite list_lookup_alter_ne by done. exists s. split; [done|]. split; [done|].
        rewrite Hn. rewrite !(proj2 (Nat.ltb_lt _ _)) by lia. done.
Qed.

(** The chain is as long as the buffer and the remaining pages allow. *)
Definition full (it : PagedWriteOpIter) : Prop :=
  wr_len it = WR_CHAIN_LEN \/ i_page it = pw_page_indices_end op.

Lemma fill_while_ok fuel it :
  paged_op_ok -> ring_ok it -> (WR_CHAIN_LEN <= fuel + wr_len it)%nat ->
  exists it', fill_while fuel it = Done (tt, it') /\ ring_ok it' /\ full it' /\
    first_pending it' = first_pending it /\ pi_rma_qp it' = pi_rma_qp it.
Proof.
  intros Hop. revert it. induction fuel as [|fuel IH]; intros it Hr Hf; cbn [fill_while];
    pose proof Hr as Hr'; destruct Hr'.
  - exists it. destruct (Nat.ltb_spec (i_page it) (pi_end it)); simpl;
      [destruct (Nat.ltb_spec (wr_len it) WR_CHAIN_LEN); [lia|]|]; unfold full;
      (split; [done|]); (split; [done|]); (split; [lia|done]).
  - destruct (Nat.ltb_spec (i_page it) (pi_end it)) as [Hp|Hp]; simpl;
      [destruct (Nat.ltb_spec (wr_len it) WR_CHAIN_LEN) as [Hl|Hl]|]; try (exists it; unfold full;
      (split; [done|]); (split; [done|]); (split; [lia|done])).
    destruct (fill_wr_ok it Hop Hr Hp Hl) as (it1 & Hrun & Hr1 & Hp1 & Hl1 & Hq1).
    destruct (IH it1 Hr1 ltac:(lia)) as (it2 & Hrun2 & Hr2 & Hf2 & Hfp2 & Hq2).
    exists it2. unfold bind. rewrite Hrun, Hrun2. split; [done|]. split; [done|]. split; [done|].
    split; [|congruence]. rewrite Hfp2. unfold first_pending. lia.
Qed.

Lemma paged_new_ok qp buf :
  paged_op_ok -> length buf = WR_CHAIN_LEN ->
  exists it, paged_new op qp buf context = Done it /\ ring_ok it /\ full it /\
    first_pending it = pw_page_indices_beg op /\ pi_rma_qp it = qp.
Proof.
  intros Hop Hb. pose proof Hop as (Hbe & Hl & Hle). unfold paged_new.
  rewrite (proj2 (Nat.ltb_lt _ _) Hbe), (proj2 (Nat.eqb_eq _ _) Hl), (proj2 (Nat.leb_le _ _) Hle).
  cbn [negb]. match goal with |- context [fill_while WR_CHAIN_LEN ?x] => set (it0 := x) end.
  destruct (fill_while_ok WR_CHAIN_LEN it0 Hop) as (it & Hrun & Hr & Hf & Hfp & Hq).
  - split; unfold first_pending; simpl; try done; try lia.
    + by rewrite length_imap.
    + unfold slot_of. by replace (_ - _ - _)%nat with 0%nat by lia.
    + unfold slot_of. by replace (_ - _)%nat with 0%nat by lia.
    + intros i s Hi. rewrite list_lookup_imap. unfold chain_len in Hi.
      destruct (buf !! i); simpl; [|done]. rewrite (proj2 (Nat.ltb_lt _ _) Hi). intros; by simplify_eq.
  - lia.
  - rewrite Hrun. exists it. split; [done|]. split; [done|]. split; [done|]. split; [|done].
    rewrite Hfp. unfold first_pending; simpl. lia.
Qed.

Lemma paged_advance_ok n it :
  paged_op_ok -> ring_ok it -> (n <= wr_len it)%nat ->
  exists it', paged_advance n it = Done (tt, it') /\ ring_ok it' /\ full it' /\
    first_pending it' = (first_pending it + n)%nat /\ pi_rma_qp it' = pi_rma_qp it.
Proof.
  intros Hop Hr Hn. unfold paged_advance. rewrite (proj2 (Nat.ltb_ge _ _) Hn).
  pose proof Hr as Hr'. destruct Hr'.
  destruct (fill_while_ok WR_CHAIN_LEN (pi_set it (pi_buf it) ((i_wr_head it + n) mod WR_CHAIN_LEN)
    (i_wr_tail it) (wr_len it - n) (i_page it)) Hop) as (it' & Hrun & Hr2 & Hf & Hfp & Hq).
  - split; unfold first_pending in *; simpl; try done; try lia.
    + rewrite r_head0. unfold slot_of. rewrite Nat.Div0.add_mod_idemp_l. f_equal. lia.
    + intros k Hk. apply r_slots0. lia.
  - lia.
  - exists it'. split; [done|]. split; [done|]. split; [done|]. split; [|done].
    rewrite Hfp. unfold first_pending; simpl. lia.
Qed.

Lemma chain_from it fuel k :
  ring_ok it -> (first_pending it <= k < i_page it)%nat -> (i_page it - k <= fuel)%nat ->
  chain fuel (pi_buf it) (Some (slot_of k)) = page_wr <$> seq k (i_page it - k).
Proof.
  intros Hr. revert k. induction fuel as [|fuel IH]; intros k Hk Hf; [lia|].
  destruct (r_slots _ Hr k Hk) as (s & Hs & Hv & Hn). cbn [chain]. rewrite Hs, Hv, Hn.
  replace (i_page it - k)%nat with (S (i_page it - S k)) by lia. cbn [seq]. csimpl. f_equal.
  destruct (Nat.ltb_spec (S k) (i_page it)).
  - apply IH; lia.
  - replace (i_page it - S k)%nat with 0%nat by lia. by destruct fuel.
Qed.

Lemma peek_chain it fuel :
  ring_ok it -> full it -> (WR_CHAIN_LEN <= fuel)%nat ->
  let left_ := (pw_page_indices_end op - first_pending it)%nat in
  (paged_peek it).2 = Nat.min WR_CHAIN_LEN left_ /\
  chain fuel (pi_buf it) (paged_peek it).1.2 =
    page_wr <$> seq (first_pending it) (Nat.min WR_CHAIN_LEN left_).
Proof.
  intros Hr Hf Hfuel left_. pose proof Hr as Hr'. destruct Hr'. unfold first_pending in *.
  assert (wr_len it = Nat.min WR_CHAIN_LEN left_) as Hwl
    by (unfold full, left_ in *; unfold first_pending; destruct Hf; lia).
  unfold paged_peek. destruct (Nat.eqb_spec (wr_len it) 0) as [Hz|Hz]; cbn [fst snd].
  - rewrite Hz in Hwl. split; [done|]. fold left_. rewrite <- Hwl. by destruct fuel.
  - split; [done|]. rewrite r_head0, chain_from by (unfold first_pending; done || lia).
    unfold first_pending. rewrite <- Hwl. do 2 f_equal. lia.
Qed.
End Ring.

(** A sequence of [advance]s the device can ask for, [left_] pages being left. *)
Fixpoint steps_ok (left_ : nat) (ns : list nat) : Prop :=
  match ns with
  | [] => True
  | n :: ns => (n <= Nat.min WR_CHAIN_LEN left_)%nat /\ steps_ok (left_ - n) ns
  end.

Lemma advances_ok op context ns it :
  paged_op_ok op -> ring_ok op context it -> full op it ->
  steps_ok (pw_page_indices_end op - first_pending it) ns ->
  exists it', for_each ns paged_advance it = Done (tt, it') /\ ring_ok op context it' /\ full op it' /\
    first_pending it' = (first_pending it + sum_list ns)%nat /\ pi_rma_qp it' = pi_rma_qp it.
Proof.
  intros Hop. revert it. induction ns as [|n ns IH]; intros it Hr Hf Hs; simpl.
  { exists it. split; [done|]. split; [done|]. split; [done|]. split; [lia|done]. }
  destruct Hs as [Hn Hs].
  destruct (peek_chain op context it WR_CHAIN_LEN Hr Hf (le_n _)) as [Hpl _].
  assert (n <= wr_len it)%nat as Hn'.
  { unfold paged_peek in Hpl. destruct (Nat.eqb_spec (wr_len it) 0); cbn [fst snd] in Hpl;
      unfold WR_CHAIN_LEN in *; lia. }
  destruct (paged_advance_ok op context n it Hop Hr Hn') as (it1 & Hrun & Hr1 & Hf1 & Hfp1 & Hq1).
  destruct (IH it1 Hr1 Hf1) as (it2 & Hrun2 & Hr2 & Hf2 & Hfp2 & Hq2).
  { rewrite Hfp1. by replace (pw_page_indices_end op - (first_pending it + n))%nat with
      (pw_page_indices_end op - first_pending it - n)%nat by lia. }
  exists it2. unfold bind. rewrite Hrun, Hrun2. split; [done|]. split; [done|]. split; [done|].
  split; [|congruence]. rewrite Hfp2, Hfp1. lia.
Qed.

(** The ring buffer of a paged write posts every page exactly once, in order.  For a valid
    operation and any uninitialised buffer, after any sequence of partial posts ([advance(n)]
    with [n] at most the chain returned by [peek]) the next chain, followed through the [next]
    pointers exactly as the device does, consists of the requests of the next (at most
    [WR_CHAIN_LEN]) pages after those already posted, null-terminated, and [peek] reports its
    length; it is empty only when all pages have been posted. *)
Theorem paged_ring_posts_each_page_once op qp buf context ns fuel :
  paged_op_ok op -> length buf = WR_CHAIN_LEN -> (WR_CHAIN_LEN <= fuel)%nat ->
  let total := (pw_page_indices_end op - pw_page_indices_beg op)%nat in
  steps_ok total ns ->
  exists it0 it, paged_new op qp buf context = Done it0 /\
    for_each ns paged_advance it0 = Done (tt, it) /\
    let next := Nat.min WR_CHAIN_LEN (total - sum_list ns) in
    (paged_peek it).2 = next /\
    chain fuel (pi_buf it) (paged_peek it).1.2 =
      page_wr op context <$> seq (pw_page_indices_beg op + sum_list ns) next.
Proof.
  intros Hop Hb Hfuel total Hs.
  destruct (paged_new_ok op context qp buf Hop Hb) as (it0 & Hrun0 & Hr0 & Hf0 & Hfp0 & _).
  destruct (advances_ok op context ns it0 Hop Hr0 Hf0) as (it & Hrun & Hr & Hf & Hfp & _).
  { by rewrite Hfp0. }
  exists it0, it. split; [done|]. split; [done|]. simpl.
  destruct (peek_chain op context it fuel Hr Hf Hfuel) as [Hp Hc]. rewrite Hfp, Hfp0 in *.
  replace (total - sum_list ns)%nat with
    (pw_page_indices_end op - (pw_page_indices_beg op + sum_list ns))%nat by (unfold total; lia).
  done.
Qed.

(** ** Scatter writes *)
Section Scatter.
Context (op : ScatterGroupWriteOp) (qps : list qp) (context : Z).

Definition scatter_op_ok : Prop :=
  (sg_dst_beg op < sg_dst_end op)%nat /\ (sg_dst_end op <= length (sg_dsts op))%nat /\
  length qps = length (sg_dsts op) /\ 0 < sg_byte_shards op /\
  Forall (fun dst => (sg_domain_idx op < length (addr_rkey_list (st_dst_mr dst)))%nat) (sg_dsts op).

(** The request of target [dst], as the device sees it. *)
Definition target_wr (dst : ScatterTarget) : wr_slot :=
  let len := shard_len (st_length dst) (sg_byte_shards op) in
  let offset := u32_mul len (sg_byte_shard_idx op) in
  {| slot_wr := {| wr_id := context; wr_next := None; wr_num_sge := 1;
                   wr_opcode := (opcode_imm (sg_imm_data op)).1;
                   wr_imm_data := (opcode_imm (sg_imm_data op)).2;
                   wr_remote_addr := u64_add (u64_add (mrd_ptr (st_dst_mr dst)) (st_dst_offset dst)) offset;
                   wr_rkey := as_u32 (default 0 (snd <$> addr_rkey_list (st_dst_mr dst) !! sg_domain_idx op)) |};
     slot_sge := {| sge_addr := u64_add (sg_src_ptr op) (u64_add (st_src_offset dst) offset);
                    sge_length := len; sge_lkey := as_u32 (sg_src_desc op) |} |}.

(** Between steps the iterator has the request of target [i_dst] in slot 0. *)
Record scatter_ok (it : ScatterWriteOpIter) : Prop := {
  s_fixed : it = {| sc_qp_list := qps; sc_buf := sc_buf it; sc_domain_idx := sg_domain_idx op;
    sc_src_ptr := sg_src_ptr op; sc_dsts := sg_dsts op; sc_dst_beg := sg_dst_beg op;
    sc_dst_end := sg_dst_end op; sc_byte_shards := sg_byte_shards op;
    sc_byte_shard_idx := sg_byte_shard_idx op; i_dst := i_dst it |};
  s_slot : exists s, sc_buf it !! 0%nat = Some s /\
    set_scatter 0 0 0 0 s = set_scatter 0 0 0 0 (target_wr (Build_ScatterTarget (Build_MemoryRegionDescriptor 0 []) 0 0 0)) /\
    (forall dst, (i_dst it < sg_dst_end op)%nat -> sg_dsts op !! i_dst it = Some dst -> s = target_wr dst);
}.

Lemma scatter_fill_ok it s :
  scatter_op_ok -> (i_dst it < sg_dst_end op)%nat ->
  it = {| sc_qp_list := qps; sc_buf := sc_buf it; sc_domain_idx := sg_domain_idx op;
    sc_src_ptr := sg_src_ptr op; sc_dsts := sg_dsts op; sc_dst_beg := sg_dst_beg op;
    sc_dst_end := sg_dst_end op; sc_byte_shards := sg_byte_shards op;
    sc_byte_shard_idx := sg_byte_shard_idx op; i_dst := i_dst it |} ->
  sc_buf it !! 0%nat = Some s ->
  set_scatter 0 0 0 0 s = set_scatter 0 0 0 0 (target_wr (Build_ScatterTarget (Build_MemoryRegionDescriptor 0 []) 0 0 0)) ->
  exists it', scatter_fill_wr it = Done (tt, it') /\ scatter_ok it' /\ i_dst it' = i_dst it.
Proof.
  intros (Hbe & Hel & Hq & Hsh & Hall) Hi Hit Hs Hst.
  destruct (lookup_lt_is_Some_2 (sg_dsts op) (i_dst it) ltac:(lia)) as (dst & Hdst).
  rewrite Forall_lookup in Hall. specialize (Hall _ _ Hdst).
  destruct (lookup_lt_is_Some_2 _ _ Hall) as ([a rkey] & Hk).
  unfold scatter_fill_wr. rewrite Hit. cbn [sc_dsts i_dst sc_byte_shards sc_domain_idx].
  rewrite Hdst, Hk. rewrite (proj2 (Z.eqb_neq _ _)) by lia. eexists. split; [done|].
  split; [|done]. split; [done|]. cbn [sc_set sc_buf i_dst].
  rewrite list_lookup_alter_eq, Hs. eexists. split; [done|]. split.
  - rewrite <- Hst. by destruct s as [[] []].
  - intros dst' _ ?. simplify_eq. unfold target_wr. rewrite Hk. cbn [fmap option_fmap option_map snd default from_option].
    destruct s as [[] []]. unfold set_scatter in *. simpl in *. by simplify_eq.
Qed.

Lemma scatter_new_ok buf :
  scatter_op_ok -> (0 < length buf)%nat ->
  exists it, scatter_new op qps buf context = Done it /\ scatter_ok it /\ i_dst it = sg_dst_beg op.
Proof.
  intros Hop Hb. pose proof Hop as (Hbe & Hel & Hq & Hsh & Hall). unfold scatter_new.
  rewrite (proj2 (Nat.ltb_lt _ _) Hbe), (proj2 (Nat.leb_le _ _) Hel), (proj2 (Nat.eqb_eq _ _) Hq).
  cbn [negb]. match goal with |- context [scatter_fill_wr ?x] => set (it0 := x) end.
  destruct (scatter_fill_ok it0 {|
    slot_wr := {| wr_id := context; wr_next := None; wr_num_sge := 1;
                  wr_opcode := (opcode_imm (sg_imm_data op)).1;
                  wr_imm_data := (opcode_imm (sg_imm_data op)).2;
                  wr_remote_addr := 0; wr_rkey := 0 |};
    slot_sge := {| sge_addr := 0; sge_length := 0; sge_lkey := as_u32 (sg_src_desc op) |} |} Hop)
    as (it & Hrun & Hok & Hi); [done|done|by apply list_lookup_insert_eq|done|].
  rewrite Hrun. by exists it.
Qed.

Lemma advance_one_ok it :
  scatter_op_ok -> scatter_ok it -> (i_dst it < sg_dst_end op)%nat ->
  exists it', advance_one it = Done (tt, it') /\ scatter_ok it' /\ i_dst it' = S (i_dst it).
Proof.
  intros Hop [Hf (s & Hs & Hst & _)] Hi. unfold advance_one. cbn [sc_set i_dst].
  assert (sc_dst_end (sc_set it (sc_buf it) (i_dst it + 1)) = sg_dst_end op) as ->
    by (rewrite Hf; done).
  destruct (Nat.eqb_spec (i_dst it + 1) (sg_dst_end op)) as [He|He]; cbn [negb].
  - eexists. split; [done|]. split; [|simpl; lia]. split; [rewrite Hf at 1; done|].
    exists s. split; [done|]. split; [done|]. simpl. lia.
  - destruct (scatter_fill_ok (sc_set it (sc_buf it) (i_dst it + 1)) s Hop) as (it' & Hrun & Hok & Hi').
    + simpl. lia.
    + rewrite Hf at 1. done.
    + done.
    + done.
    + exists it'. split; [done|]. split; [done|]. rewrite Hi'. simpl. lia.
Qed.

Lemma advance_one_times buf j :
  scatter_op_ok -> (0 < length buf)%nat -> (j <= sg_dst_end op - sg_dst_beg op)%nat ->
  exists it0 it, scatter_new op qps buf context = Done it0 /\
    for_each (replicate j tt) (fun _ => advance_one) it0 = Done (tt, it) /\
    scatter_ok it /\ i_dst it = (sg_dst_beg op + j)%nat.
Proof.
  intros Hop Hb. destruct (scatter_new_ok buf Hop Hb) as (it0 & Hrun0 & Hok0 & Hi0). intros Hj.
  exists it0. cut (exists it, for_each (replicate j tt) (fun _ => advance_one) it0 = Done (tt, it) /\
    scatter_ok it /\ i_dst it = (i_dst it0 + j)%nat).
  { intros (it & ? & ? & ?). exists it. by rewrite <- Hi0. }
  pose proof Hop as (Hbe & _). assert (i_dst it0 + j <= sg_dst_end op)%nat as Hle by lia. clear Hrun0 Hi0 Hj.
  revert it0 Hok0 Hle. induction j as [|j IH]; intros it0 Hok0 Hle.
  { exists it0. split; [done|]. split; [done|lia]. }
  destruct (advance_one_ok it0 Hop Hok0) as (it1 & Hrun1 & Hok1 & Hi1); [lia|].
  destruct (IH it1 Hok1) as (it2 & Hrun2 & Hok2 & Hi2); [lia|].
  exists it2. cbn [replicate for_each]. unfold bind. rewrite Hrun1, Hrun2.
  split; [done|]. split; [done|lia].
Qed.
End Scatter.

(** A scatter iterator posts every target of its range exactly once, in order.  After [j]
    posts, [peek] returns the queue pair of target [beg + j] and the request built for that
    target, and nothing once the range is exhausted. *)
Theorem scatter_iter_posts_each_target op qps buf context j fuel :
  scatter_op_ok op qps -> (0 < length buf)%nat -> (j <= sg_dst_end op - sg_dst_beg op)%nat ->
  (0 < fuel)%nat ->
  exists it0 it, scatter_new op qps buf context = Done it0 /\
    for_each (replicate j tt) (fun _ => advance_one) it0 = Done (tt, it) /\
    let next := (sg_dst_beg op + j)%nat in
    if (next =? sg_dst_end op)%nat then scatter_peek it = (None, None, 0%nat)
    else exists dst, sg_dsts op !! next = Some dst /\
      scatter_peek it = (qps !! next, Some 0%nat, 1%nat) /\ is_Some (qps !! next) /\
      chain fuel (sc_buf it) (Some 0%nat) = [target_wr op context dst].
Proof.
  intros Hop Hb Hj Hfuel.
  destruct (advance_one_times op qps context buf j Hop Hb Hj) as (it0 & it & H0 & Hrun & [Hf Hs] & Hi).
  exists it0, it. split; [done|]. split; [done|]. destruct Hop as (Hbe & Hel & Hq & _). simpl.
  unfold scatter_peek. rewrite Hf, Hi. cbn [sc_dst_end i_dst sc_qp_list sc_buf].
  destruct (Nat.eqb_spec (sg_dst_beg op + j) (sg_dst_end op)) as [He|He]; [done|].
  destruct (lookup_lt_is_Some_2 (sg_dsts op) (sg_dst_beg op + j) ltac:(lia)) as (dst & Hdst).
  exists dst. split; [done|]. split; [done|]. split; [apply lookup_lt_is_Some_2; lia|].
  destruct Hs as (s & Hs & _ & Hv). rewrite Hi in Hv. specialize (Hv dst ltac:(lia) Hdst). subst s.
  destruct fuel; [lia|]. cbn [chain]. rewrite Hs. cbn. by destruct fuel.
Qed.

(** The byte shards of a scatter target.  With [n] shards of a target of [len] bytes
    ([len < 2^32]), shard [i] is the [len / n] bytes at offset [i * (len / n)] of both source
    and destination: the shards are adjacent and cover the first [len - len mod n] bytes; the
    last [len mod n] bytes are written by no shard. *)
Theorem scatter_shards_adjacent op context dst i :
  0 <= st_length dst < 2 ^ 32 -> 0 < sg_byte_shards op < 2 ^ 32 ->
  0 <= i < sg_byte_shards op -> sg_byte_shard_idx op = i ->
  0 <= sg_src_ptr op -> 0 <= st_src_offset dst ->
  sg_src_ptr op + st_src_offset dst + st_length dst < 2 ^ 64 ->
  0 <= mrd_ptr (st_dst_mr dst) -> 0 <= st_dst_offset dst ->
  mrd_ptr (st_dst_mr dst) + st_dst_offset dst + st_length dst < 2 ^ 64 ->
  let n := sg_byte_shards op in
  let len := st_length dst / n in
  let s := target_wr op context dst in
  sge_length (slot_sge s) = len /\
  sge_addr (slot_sge s) = sg_src_ptr op + st_src_offset dst + i * len /\
  wr_remote_addr (slot_wr s) = mrd_ptr (st_dst_mr dst) + st_dst_offset dst + i * len /\
  (i = n - 1 -> i * len + len = st_length dst - st_length dst mod n).
Proof.
  intros Hl Hn Hi Hidx Hs0 Hs1 Hs2 Hd0 Hd1 Hd2 n len s. subst i.
  assert (0 <= len /\ sg_byte_shard_idx op * len + len <= st_length dst) as [Hlen Hle].
  { subst len. split; [apply Z.div_pos; lia|].
    pose proof (Z.mul_div_le (st_length dst) n ltac:(lia)). subst n. nia. }
  assert (as_u32 (st_length dst) = st_length dst) as Hu by (apply wrapu_small; unfold in_u; lia).
  assert (u32_mul len (sg_byte_shard_idx op) = sg_byte_shard_idx op * len) as Hm.
  { unfold u32_mul. rewrite wrapu_small by (unfold in_u; nia). lia. }
  unfold s, target_wr, shard_len. cbn [slot_sge slot_wr sge_length sge_addr wr_remote_addr].
  rewrite Hu. fold n. fold len. rewrite Hm. unfold u64_add.
  rewrite !wrapu_small by (unfold in_u; rewrite ?wrapu_small by (unfold in_u; nia); nia).
  split; [done|]. split; [lia|]. split; [lia|]. intros ->.
  pose proof (Z.div_mod (st_length dst) n ltac:(lia)). fold len in H. nia.
Qed.

(** ** Witnesses *)
Definition blank_slot : wr_slot :=
  {| slot_wr := {| wr_id := 0; wr_next := None; wr_num_sge := 0; wr_opcode := IBV_WR_SEND;
                   wr_imm_data := 0; wr_remote_addr := 0; wr_rkey := 0 |};
     slot_sge := {| sge_addr := 0; sge_length := 0; sge_lkey := 0 |} |}.

Definition six_pages : PagedWriteOp := {|
  pw_src_page_indices := [0; 1; 2; 3; 4; 5; 6; 7]; pw_dst_page_indices := [7; 6; 5; 4; 3; 2; 1; 0];
  pw_page_indices_beg := 1; pw_page_indices_end := 7; pw_length := 64; pw_src_ptr := 4096;
  pw_src_desc := 3; pw_src_stride := 64; pw_src_offset := 0; pw_dst_ptr := 8192; pw_dst_rkey := 4;
  pw_dst_stride := 64; pw_dst_offset := 128; pw_imm_data := None |}.

Lemma paged_ring_posts_each_page_once_witness :
  exists it0 it, paged_new six_pages 5 (replicate 4 blank_slot) 77 = Done it0 /\
    for_each [1; 2]%nat paged_advance it0 = Done (tt, it) /\
    (paged_peek it).2 = 3%nat /\
    chain 4 (pi_buf it) (paged_peek it).1.2 = page_wr six_pages 77 <$> seq 4 3.
Proof.
  apply (paged_ring_posts_each_page_once six_pages 5 (replicate 4 blank_slot) 77 [1; 2]%nat 4);
    [repeat split; simpl; lia|reflexivity|unfold WR_CHAIN_LEN; lia|repeat split; simpl; lia].
Defined.

Definition two_targets : ScatterGroupWriteOp := {|
  sg_domain_idx := 0; sg_src_ptr := 4096; sg_src_desc := 3; sg_imm_data := Some 9;
  sg_dsts := [Build_ScatterTarget (Build_MemoryRegionDescriptor 8192 [(Build_DomainAddress [1], 21)]) 65 0 0;
              Build_ScatterTarget (Build_MemoryRegionDescriptor 16384 [(Build_DomainAddress [2], 22)]) 64 65 0];
  sg_dst_beg := 0; sg_dst_end := 2; sg_byte_shards := 2; sg_byte_shard_idx := 1 |}.

Lemma scatter_iter_posts_each_target_witness :
  exists it0 it, scatter_new two_targets [5; 6] [blank_slot] 77 = Done it0 /\
    for_each (replicate 1 tt) (fun _ => advance_one) it0 = Done (tt, it) /\
    exists dst, sg_dsts two_targets !! 1%nat = Some dst /\
      scatter_peek it = ([5; 6] !! 1%nat, Some 0%nat, 1%nat) /\ is_Some ([5; 6] !! 1%nat) /\
      chain 1 (sc_buf it) (Some 0%nat) = [target_wr two_targets 77 dst].
Proof.
  apply (scatter_iter_posts_each_target two_targets [5; 6] [blank_slot] 77 1 1);
    [|simpl; lia|simpl; lia|lia].
  split; [simpl; lia|]. split; [simpl; lia|]. split; [done|]. split; [simpl; lia|].
  repeat constructor; simpl; lia.
Defined.

Lemma scatter_shards_adjacent_witness :
  let dst := Build_ScatterTarget (Build_MemoryRegionDescriptor 8192 [(Build_DomainAddress [1], 21)]) 65 0 0 in
  sge_length (slot_sge (target_wr two_targets 77 dst)) = 65 / 2 /\
  (1 = 2 - 1 -> 1 * (65 / 2) + 65 / 2 = 65 - 65 mod 2).
Proof.
  intros dst. destruct (scatter_shards_adjacent two_targets 77 dst 1) as (H1 & _ & _ & H4);
    [simpl; lia|simpl; lia|simpl; lia|reflexivity|simpl; lia|simpl; lia|simpl; lia|simpl; lia|
     simpl; lia|simpl; lia|].
  split; [exact H1|exact H4].
Defined.
