(* ===== verification/VerbsQp.v ===== *)
(** * The verbs library and queue pairs

    [VerbsHw] is the part of libibverbs and the device the provider calls: a parameter of the
    model.  A call is a function of the device state [H].  The definitions are those of
    [fabric-lib/src/verbs/verbs_qp.rs]. *)
From stdpp Require Import prelude gmap strings list.
From S2P Require Import Prelude Api Utils VerbsRdmaOp.
Local Open Scope Z_scope.

Inductive ibv_qp_state : Type := IBV_QPS_INIT | IBV_QPS_RTR | IBV_QPS_RTS.
Inductive ibv_qp_type : Type := IBV_QPT_RC | IBV_QPT_UD.
Inductive ibv_access : Type :=
  IBV_ACCESS_LOCAL_WRITE | IBV_ACCESS_REMOTE_READ | IBV_ACCESS_REMOTE_WRITE
  | IBV_ACCESS_RELAXED_ORDERING.

(** The attribute mask of [ibv_modify_qp]. *)
Inductive qp_flag : Type :=
  IBV_QP_STATE | IBV_QP_PKEY_INDEX | IBV_QP_PORT | IBV_QP_QKEY | IBV_QP_SQ_PSN
  | IBV_QP_ACCESS_FLAGS | IBV_QP_AV | IBV_QP_PATH_MTU | IBV_QP_DEST_QPN | IBV_QP_RQ_PSN
  | IBV_QP_MAX_DEST_RD_ATOMIC | IBV_QP_MIN_RNR_TIMER | IBV_QP_TIMEOUT | IBV_QP_RETRY_CNT
  | IBV_QP_RNR_RETRY | IBV_QP_MAX_QP_RD_ATOMIC.

Record ibv_ah_attr := {
  ah_dgid : list Z; ah_hop_limit : Z; ah_sgid_index : Z; ah_dlid : Z; ah_is_global : Z;
  ah_port_num : Z;
}.

Record ibv_qp_attr := {
  qa_state : ibv_qp_state; qa_pkey_index : Z; qa_port_num : Z; qa_qkey : Z;
  qa_access : list ibv_access; qa_path_mtu : Z; qa_dest_qp_num : Z; qa_rq_psn : Z;
  qa_sq_psn : Z; qa_max_dest_rd_atomic : Z; qa_min_rnr_timer : Z; qa_timeout : Z;
  qa_retry_cnt : Z; qa_rnr_retry : Z; qa_max_rd_atomic : Z; qa_ah : ibv_ah_attr;
}.

Definition default_ah : ibv_ah_attr :=
  {| ah_dgid := replicate 16 0; ah_hop_limit := 0; ah_sgid_index := 0; ah_dlid := 0;
     ah_is_global := 0; ah_port_num := 0 |}.

(** [ibv_qp_attr { qp_state, ..Default::default() }]. *)
Definition default_attr (st : ibv_qp_state) : ibv_qp_attr := {|
  qa_state := st; qa_pkey_index := 0; qa_port_num := 0; qa_qkey := 0; qa_access := [];
  qa_path_mtu := 0; qa_dest_qp_num := 0; qa_rq_psn := 0; qa_sq_psn := 0;
  qa_max_dest_rd_atomic := 0; qa_min_rnr_timer := 0; qa_timeout := 0; qa_retry_cnt := 0;
  qa_rnr_retry := 0; qa_max_rd_atomic := 0; qa_ah := default_ah |}.

(** [qi_cq] is both the [send_cq] and the [recv_cq]. *)
Record ibv_qp_init_attr := {
  qi_type : ibv_qp_type; qi_cq : Z; qi_srq : option Z; qi_max_send_wr : Z; qi_max_recv_wr : Z;
}.

Record ibv_mr := { lkey : Z; rkey : Z }.

Inductive ibv_wc_opcode : Type :=
  | IBV_WC_SEND | IBV_WC_RDMA_WRITE | IBV_WC_RECV | IBV_WC_RECV_RDMA_WITH_IMM
  | IBV_WC_OTHER (code : Z).

Record ibv_wc := {
  wc_wr_id : Z; wc_status : Z; wc_opcode : ibv_wc_opcode; wc_byte_len : Z; wc_imm_data : Z;
  wc_qp_num : Z;
}.

Definition IBV_WC_SUCCESS : Z := 0.
Definition ENOMEM : Z := 12.

(** A datagram send: the request with its address handle and destination queue pair. *)
Record ud_send_wr := {
  us_wr_id : Z; us_addr : Z; us_length : Z; us_lkey : Z; us_ah : Z; us_remote_qpn : Z;
  us_remote_qkey : Z;
}.

(** Message of the RC handshake ([PeerHandshakeInfo] of [verbs_domain.rs]). *)
Record PeerHandshakeInfo := {
  hi_ud_addr : VerbsUDAddress; hi_lid : Z; hi_gid : list Z; hi_msg_qp_num : Z; hi_msg_psn : Z;
  hi_rma_qp_num : Z; hi_rma_psn : Z;
}.

(** [ibv_post_send] is given the chain it reaches through the [next] pointers and returns the
    code and the position of [bad_wr] in the chain; the calls that return null on failure
    return [None], and those that create something in a protection domain take it first;
    [postcard_*] stand for the serialisation crate on the buffer at an
    address. *)
Class VerbsHw (H : Type) := {
  ibv_post_send : qp -> list wr_slot -> H -> Z * nat * H;
  ibv_post_send_ud : qp -> ud_send_wr -> H -> Z * H;
  ibv_post_srq_recv : Z -> ibv_recv_wr -> H -> Z * H;
  ibv_post_recv : qp -> ibv_recv_wr -> H -> Z * H;
  ibv_poll_cq : nat -> H -> Z * list ibv_wc * H;
  ibv_reg_mr : Z -> MemoryRegion -> list ibv_access -> H -> option ibv_mr * H;
  ibv_dereg_mr : ibv_mr -> H -> H;
  ibv_create_qp : Z -> ibv_qp_init_attr -> H -> option (qp * Z) * H;
  ibv_modify_qp : qp -> ibv_qp_attr -> list qp_flag -> H -> Z * H;
  ibv_create_ah : Z -> ibv_ah_attr -> H -> option Z * H;
  last_os_error : H -> Z;
  wc_status_str : Z -> string;
  postcard_to_slice : PeerHandshakeInfo -> Z -> Z -> H -> option Z * H;
  postcard_from_bytes : Z -> Z -> H -> option PeerHandshakeInfo;
}.

Section Qp.
Context {H : Type} `{VerbsHw H}.

(** [NonNull::new(p).ok_or_else(|| VerbsError::with_last_os_error(what))?]. *)
Definition nonnull {A} (f : H -> option A * H) (what : string) : M H (res A) :=
  let! r := call f in
  let! code := gets last_os_error in
  ret (match r with Some a => Ok a | None => Err (Verbs code what) end).

(** [if ec != 0 { return Err(VerbsError::with_code(ec, what)) }]. *)
Definition check_ec (f : H -> Z * H) (what : string) : M H (res unit) :=
  let! ec := call f in
  ret (if ec =? 0 then Ok tt else Err (Verbs ec what)).

Record UDQueuePair := { ud_addr : VerbsUDAddress; ud_qp : qp }.

Definition ud_new (cq pd : Z) (gid : list Z) (lid qkey max_wr : Z) : M H (res UDQueuePair) :=
  let? q := nonnull (ibv_create_qp pd {| qi_type := IBV_QPT_UD; qi_cq := cq; qi_srq := None;
      qi_max_send_wr := max_wr; qi_max_recv_wr := max_wr |}) "ibv_create_qp: UD" in
  ret (Ok {| ud_addr := {| ud_gid := gid; ud_lid := lid; ud_qp_num := q.2; ud_qkey := qkey |};
             ud_qp := q.1 |}).

Definition ud_reset_to_init (u : UDQueuePair) (pkey_index port_num : Z) : M H (res unit) :=
  let d := default_attr IBV_QPS_INIT in
  check_ec (ibv_modify_qp (ud_qp u) {|
    qa_state := qa_state d; qa_pkey_index := pkey_index; qa_port_num := port_num;
    qa_qkey := ud_qkey (ud_addr u); qa_access := []; qa_path_mtu := 0; qa_dest_qp_num := 0;
    qa_rq_psn := 0; qa_sq_psn := 0; qa_max_dest_rd_atomic := 0; qa_min_rnr_timer := 0;
    qa_timeout := 0; qa_retry_cnt := 0; qa_rnr_retry := 0; qa_max_rd_atomic := 0;
    qa_ah := default_ah |}
    [IBV_QP_STATE; IBV_QP_PKEY_INDEX; IBV_QP_PORT; IBV_QP_QKEY]) "ibv_modify_qp: ud_reset_to_init".

Definition ud_init_to_rtr (u : UDQueuePair) : M H (res unit) :=
  check_ec (ibv_modify_qp (ud_qp u) (default_attr IBV_QPS_RTR) [IBV_QP_STATE])
    "ibv_modify_qp: ud_init_to_rtr".

Definition ud_rtr_to_rts (u : UDQueuePair) : M H (res unit) :=
  check_ec (ibv_modify_qp (ud_qp u) (default_attr IBV_QPS_RTS) [IBV_QP_STATE; IBV_QP_SQ_PSN])
    "ibv_modify_qp: ud_rtr_to_rts".

Record RCQueuePair := { rc_addr : VerbsRCAddress; rc_qp : qp }.

Definition rc_new (cq pd srq : Z) (gid : list Z) (lid max_wr psn : Z) : M H (res RCQueuePair) :=
  let? q := nonnull (ibv_create_qp pd {| qi_type := IBV_QPT_RC; qi_cq := cq; qi_srq := Some srq;
      qi_max_send_wr := max_wr; qi_max_recv_wr := 0 |}) "ibv_create_qp" in
  ret (Ok {| rc_addr := {| rc_gid := gid; rc_lid := lid; rc_qp_num := q.2; rc_psn := psn |};
             rc_qp := q.1 |}).

Definition rc_reset_to_init (r : RCQueuePair) (port_num pkey_index : Z) : M H (res unit) :=
  check_ec (ibv_modify_qp (rc_qp r) {|
    qa_state := IBV_QPS_INIT; qa_pkey_index := pkey_index; qa_port_num := port_num; qa_qkey := 0;
    qa_access := [IBV_ACCESS_LOCAL_WRITE; IBV_ACCESS_REMOTE_READ; IBV_ACCESS_REMOTE_WRITE];
    qa_path_mtu := 0; qa_dest_qp_num := 0; qa_rq_psn := 0; qa_sq_psn := 0;
    qa_max_dest_rd_atomic := 0; qa_min_rnr_timer := 0; qa_timeout := 0; qa_retry_cnt := 0;
    qa_rnr_retry := 0; qa_max_rd_atomic := 0; qa_ah := default_ah |}
    [IBV_QP_STATE; IBV_QP_PKEY_INDEX; IBV_QP_PORT; IBV_QP_ACCESS_FLAGS])
    "ibv_modify_qp: rc_reset_to_init".

Definition rc_init_to_rtr (r : RCQueuePair) (is_infiniband : bool)
    (gid_index port_num path_mtu peer_qp_num peer_psn peer_lid : Z) (peer_gid : list Z) :
    M H (res unit) :=
  check_ec (ibv_modify_qp (rc_qp r) {|
    qa_state := IBV_QPS_RTR; qa_pkey_index := 0; qa_port_num := 0; qa_qkey := 0; qa_access := [];
    qa_path_mtu := path_mtu; qa_dest_qp_num := peer_qp_num; qa_rq_psn := peer_psn; qa_sq_psn := 0;
    qa_max_dest_rd_atomic := 1; qa_min_rnr_timer := 12; qa_timeout := 0; qa_retry_cnt := 0;
    qa_rnr_retry := 0; qa_max_rd_atomic := 0;
    qa_ah :=
      if is_infiniband
      then {| ah_dgid := replicate 16 0; ah_hop_limit := 0; ah_sgid_index := 0; ah_dlid := peer_lid;
              ah_is_global := 0; ah_port_num := port_num |}
      else {| ah_dgid := peer_gid; ah_hop_limit := 64; ah_sgid_index := gid_index; ah_dlid := 0;
              ah_is_global := 1; ah_port_num := port_num |} |}
    [IBV_QP_STATE; IBV_QP_AV; IBV_QP_PATH_MTU; IBV_QP_DEST_QPN; IBV_QP_RQ_PSN;
     IBV_QP_MAX_DEST_RD_ATOMIC; IBV_QP_MIN_RNR_TIMER])
    "ibv_modify_qp: rc_init_to_rtr".

Definition rc_rtr_to_rts (r : RCQueuePair) (peer_psn : Z) : M H (res unit) :=
  check_ec (ibv_modify_qp (rc_qp r) {|
    qa_state := IBV_QPS_RTS; qa_pkey_index := 0; qa_port_num := 0; qa_qkey := 0; qa_access := [];
    qa_path_mtu := 0; qa_dest_qp_num := 0; qa_rq_psn := 0; qa_sq_psn := peer_psn;
    qa_max_dest_rd_atomic := 0; qa_min_rnr_timer := 0; qa_timeout := 14; qa_retry_cnt := 7;
    qa_rnr_retry := 7; qa_max_rd_atomic := 1; qa_ah := default_ah |}
    [IBV_QP_STATE; IBV_QP_TIMEOUT; IBV_QP_RETRY_CNT; IBV_QP_RNR_RETRY; IBV_QP_SQ_PSN;
     IBV_QP_MAX_QP_RD_ATOMIC])
    "ibv_modify_qp: rc_rtr_to_rts".

End Qp.
