(* ===== verification/VerbsDomain.v ===== *)
(** * The verbs domain

    [fabric-lib/src/verbs/verbs_domain.rs]: one InfiniBand/RoCE device.  Peers are connected on
    demand by a handshake over a datagram queue pair; operations for a peer that is still
    connecting are queued; writes are posted as chains and tracked by heap-allocated contexts
    whose address is the [wr_id] of their requests.

    The contexts live in maps from slots of their [ObjectPool] (a freed or uninitialised slot is
    absent: reading it is a panic in the model); a context's address as a [wr_id] is the slot
    plus one.  The device is the parameter [VerbsHw]. *)
From stdpp Require Import prelude gmap strings list pretty.
From S2P Require Import Prelude Api ImmCount Utils Provider VerbsRdmaOp VerbsQp.
Local Open Scope Z_scope.

Definition MAX_OPS : nat := 1024.
Definition NUM_IMM_RECVS : nat := 128.
Definition GRH_BYTES : Z := 40.
Definition NUM_UD_RECVS : nat := 128.
Definition READ_COUNT : nat := 16.

Inductive OutboundOp : Type := OSend (op : SendOp) | OWrite (op : WriteOp).

Inductive PeerState : Type :=
  | Connecting (pending_submits : list (TransferId * OutboundOp))
      (pending_group_write_ops : list nat)
  | Established.

Record Peer := {
  peer_ud_addr : VerbsUDAddress;
  peer_ah : Z;
  msg_rc : RCQueuePair;
  rma_rc : RCQueuePair;
  peer_state : PeerState;
}.

Record PendingGroupWriteOp := {
  pg_transfer_id : TransferId;
  pg_op : option GroupWriteOp;
  pg_rma_qps : list qp;
  pg_pending_peers : gset Z;
}.

Record ConnectingPeerGroup := {
  cg_rma_qps : list qp;
  cg_pending_peers : gset Z;
  cg_pending_group_ops : list (TransferId * GroupWriteOp);
}.

Record RecvOpContext := { rc_transfer_id : TransferId; rc_op : RecvOp }.
Record SendOpContext := { sc_transfer_id : TransferId; sc_msg_qp : qp; sc_op : SendOp }.

Record WriteOpContext := {
  transfer_id : TransferId;
  rdma_op_iter : WriteOpIter;
  wr_chain_buffer : nat;
  ctx_total_ops : nat;
  cnt_posted_ops : nat;
  cnt_finished_ops : nat;
  in_queue : bool;
  bad : bool;
}.

(** The fields that do not change after [open]. *)
Record VerbsConf := {
  vc_name : string; vc_port_num : Z; vc_gid_index : Z; vc_lid : Z; vc_gid : list Z; vc_mtu : Z;
  vc_is_infiniband : bool; vc_link_speed : Z; vc_pd : Z; vc_cq : Z; vc_msg_srq : Z; vc_rma_srq : Z;
  vc_ud : UDQueuePair; vc_addr : DomainAddress;
}.

Section Domain.
Context {H : Type} `{VerbsHw H}.

Record VerbsDomain := {
  conf : VerbsConf;
  vd_hw : H;
  vd_peers : gmap DomainAddress Peer;
  connecting_peer_groups : gmap Z ConnectingPeerGroup;
  vd_peer_groups : gmap Z (list qp);
  local_mr_map : gmap Z ibv_mr;
  objpool_write_op : ObjectPool;
  objpool_wr : ObjectPool;
  objpool_pending : ObjectPool;
  write_ctxs : gmap nat WriteOpContext;
  pending_ctxs : gmap nat PendingGroupWriteOp;
  recv_ops : list RecvOpContext;
  send_ops : list SendOpContext;
  vd_write_ops : list nat;
  completions : list DomainCompletionEntry;
  ud_mempool : MemoryPool;
  ud_mempool_lkey : Z;
}.

Definition set_hw (v : H) (d : VerbsDomain) : VerbsDomain :=
  Build_VerbsDomain (conf d) v (vd_peers d) (connecting_peer_groups d) (vd_peer_groups d) (local_mr_map d) (objpool_write_op d) (objpool_wr d) (objpool_pending d) (write_ctxs d) (pending_ctxs d) (recv_ops d) (send_ops d) (vd_write_ops d) (completions d) (ud_mempool d) (ud_mempool_lkey d).
Definition set_peers (v : gmap DomainAddress Peer) (d : VerbsDomain) : VerbsDomain :=
  Build_VerbsDomain (conf d) (vd_hw d) v (connecting_peer_groups d) (vd_peer_groups d) (local_mr_map d) (objpool_write_op d) (objpool_wr d) (objpool_pending d) (write_ctxs d) (pending_ctxs d) (recv_ops d) (send_ops d) (vd_write_ops d) (completions d) (ud_mempool d) (ud_mempool_lkey d).
Definition set_connecting_peer_groups (v : gmap Z ConnectingPeerGroup) (d : VerbsDomain) : VerbsDomain :=
  Build_VerbsDomain (conf d) (vd_hw d) (vd_peers d) v (vd_peer_groups d) (local_mr_map d) (objpool_write_op d) (objpool_wr d) (objpool_pending d) (write_ctxs d) (pending_ctxs d) (recv_ops d) (send_ops d) (vd_write_ops d) (completions d) (ud_mempool d) (ud_mempool_lkey d).
Definition set_peer_groups (v : gmap Z (list qp)) (d : VerbsDomain) : VerbsDomain :=
  Build_VerbsDomain (conf d) (vd_hw d) (vd_peers d) (connecting_peer_groups d) v (local_mr_map d) (objpool_write_op d) (objpool_wr d) (objpool_pending d) (write_ctxs d) (pending_ctxs d) (recv_ops d) (send_ops d) (vd_write_ops d) (completions d) (ud_mempool d) (ud_mempool_lkey d).
Definition set_local_mr_map (v : gmap Z ibv_mr) (d : VerbsDomain) : VerbsDomain :=
  Build_VerbsDomain (conf d) (vd_hw d) (vd_peers d) (connecting_peer_groups d) (vd_peer_groups d) v (objpool_write_op d) (objpool_wr d) (objpool_pending d) (write_ctxs d) (pending_ctxs d) (recv_ops d) (send_ops d) (vd_write_ops d) (completions d) (ud_mempool d) (ud_mempool_lkey d).
Definition set_objpool_write_op (v : ObjectPool) (d : VerbsDomain) : VerbsDomain :=
  Build_VerbsDomain (conf d) (vd_hw d) (vd_peers d) (connecting_peer_groups d) (vd_peer_groups d) (local_mr_map d) v (objpool_wr d) (objpool_pending d) (write_ctxs d) (pending_ctxs d) (recv_ops d) (send_ops d) (vd_write_ops d) (completions d) (ud_mempool d) (ud_mempool_lkey d).
Definition set_objpool_wr (v : ObjectPool) (d : VerbsDomain) : VerbsDomain :=
  Build_VerbsDomain (conf d) (vd_hw d) (vd_peers d) (connecting_peer_groups d) (vd_peer_groups d) (local_mr_map d) (objpool_write_op d) v (objpool_pending d) (write_ctxs d) (pending_ctxs d) (recv_ops d) (send_ops d) (vd_write_ops d) (completions d) (ud_mempool d) (ud_mempool_lkey d).
Definition set_objpool_pending (v : ObjectPool) (d : VerbsDomain) : VerbsDomain :=
  Build_VerbsDomain (conf d) (vd_hw d) (vd_peers d) (connecting_peer_groups d) (vd_peer_groups d) (local_mr_map d) (objpool_write_op d) (objpool_wr d) v (write_ctxs d) (pending_ctxs d) (recv_ops d) (send_ops d) (vd_write_ops d) (completions d) (ud_mempool d) (ud_mempool_lkey d).
Definition set_write_ctxs (v : gmap nat WriteOpContext) (d : VerbsDomain) : VerbsDomain :=
  Build_VerbsDomain (conf d) (vd_hw d) (vd_peers d) (connecting_peer_groups d) (vd_peer_groups d) (local_mr_map d) (objpool_write_op d) (objpool_wr d) (objpool_pending d) v (pending_ctxs d) (recv_ops d) (send_ops d) (vd_write_ops d) (completions d) (ud_mempool d) (ud_mempool_lkey d).
Definition set_pending_ctxs (v : gmap nat PendingGroupWriteOp) (d : VerbsDomain) : VerbsDomain :=
  Build_VerbsDomain (conf d) (vd_hw d) (vd_peers d) (connecting_peer_groups d) (vd_peer_groups d) (local_mr_map d) (objpool_write_op d) (objpool_wr d) (objpool_pending d) (write_ctxs d) v (recv_ops d) (send_ops d) (vd_write_ops d) (completions d) (ud_mempool d) (ud_mempool_lkey d).
Definition set_recv_ops (v : list RecvOpContext) (d : VerbsDomain) : VerbsDomain :=
  Build_VerbsDomain (conf d) (vd_hw d) (vd_peers d) (connecting_peer_groups d) (vd_peer_groups d) (local_mr_map d) (objpool_write_op d) (objpool_wr d) (objpool_pending d) (write_ctxs d) (pending_ctxs d) v (send_ops d) (vd_write_ops d) (completions d) (ud_mempool d) (ud_mempool_lkey d).
Definition set_send_ops (v : list SendOpContext) (d : VerbsDomain) : VerbsDomain :=
  Build_VerbsDomain (conf d) (vd_hw d) (vd_peers d) (connecting_peer_groups d) (vd_peer_groups d) (local_mr_map d) (objpool_write_op d) (objpool_wr d) (objpool_pending d) (write_ctxs d) (pending_ctxs d) (recv_ops d) v (vd_write_ops d) (completions d) (ud_mempool d) (ud_mempool_lkey d).
Definition set_write_ops (v : list nat) (d : VerbsDomain) : VerbsDomain :=
  Build_VerbsDomain (conf d) (vd_hw d) (vd_peers d) (connecting_peer_groups d) (vd_peer_groups d) (local_mr_map d) (objpool_write_op d) (objpool_wr d) (objpool_pending d) (write_ctxs d) (pending_ctxs d) (recv_ops d) (send_ops d) v (completions d) (ud_mempool d) (ud_mempool_lkey d).
Definition set_completions (v : list DomainCompletionEntry) (d : VerbsDomain) : VerbsDomain :=
  Build_VerbsDomain (conf d) (vd_hw d) (vd_peers d) (connecting_peer_groups d) (vd_peer_groups d) (local_mr_map d) (objpool_write_op d) (objpool_wr d) (objpool_pending d) (write_ctxs d) (pending_ctxs d) (recv_ops d) (send_ops d) (vd_write_ops d) v (ud_mempool d) (ud_mempool_lkey d).
Definition set_ud_mempool (v : MemoryPool) (d : VerbsDomain) : VerbsDomain :=
  Build_VerbsDomain (conf d) (vd_hw d) (vd_peers d) (connecting_peer_groups d) (vd_peer_groups d) (local_mr_map d) (objpool_write_op d) (objpool_wr d) (objpool_pending d) (write_ctxs d) (pending_ctxs d) (recv_ops d) (send_ops d) (vd_write_ops d) (completions d) v (ud_mempool_lkey d).
Definition set_ud_mempool_lkey (v : Z) (d : VerbsDomain) : VerbsDomain :=
  Build_VerbsDomain (conf d) (vd_hw d) (vd_peers d) (connecting_peer_groups d) (vd_peer_groups d) (local_mr_map d) (objpool_write_op d) (objpool_wr d) (objpool_pending d) (write_ctxs d) (pending_ctxs d) (recv_ops d) (send_ops d) (vd_write_ops d) (completions d) (ud_mempool d) v.

(** ** Small helpers *)
Definition dev {A} (m : M H A) : M VerbsDomain A :=
  on_state vd_hw set_hw m.

Definition push_completion (c : DomainCompletionEntry) : M VerbsDomain unit :=
  modify (fun d => set_completions (completions d ++ [c]) d).

(** The pointer to a context, as a [wr_id], and back ([as_mut] on a raw pointer). *)
Definition rawctx (a : nat) : Z := Z.of_nat a + 1.
Definition ctx_of_wr_id (w : Z) : option nat := if w =? 0 then None else Some (Z.to_nat (w - 1)).

Definition read_ctx (a : nat) : M VerbsDomain WriteOpContext :=
  let! o := gets (fun d => write_ctxs d !! a) in unwrap o "use of a freed WriteOpContext".
Definition write_ctx (a : nat) (c : WriteOpContext) : M VerbsDomain unit :=
  modify (fun d => set_write_ctxs (<[a := c]> (write_ctxs d)) d).

Definition ctx_set (c : WriteOpContext) (it : WriteOpIter) (posted finished : nat) (q b : bool) :
    WriteOpContext :=
  {| transfer_id := transfer_id c; rdma_op_iter := it; wr_chain_buffer := wr_chain_buffer c;
     ctx_total_ops := ctx_total_ops c; cnt_posted_ops := posted; cnt_finished_ops := finished;
     in_queue := q; bad := b |}.

(** ** Receives for datagrams and immediates *)
Definition post_ud_recv (buf : Z) : M VerbsDomain (res unit) := fun d =>
  dev (check_ec (ibv_post_recv (ud_qp (vc_ud (conf d)))
    {| rwr_id := buf;
       rwr_sge := Some {| sge_addr := buf; sge_length := as_u32 (mp_chunk_size (ud_mempool d));
                          sge_lkey := as_u32 (ud_mempool_lkey d) |} |})
    "ibv_post_recv: UD RECV") d.

Definition post_imm_recv : M VerbsDomain (res unit) := fun d =>
  dev (check_ec (ibv_post_srq_recv (vc_rma_srq (conf d)) {| rwr_id := 0; rwr_sge := None |})
    "ibv_post_srq_recv: IMM RECV") d.

(** ** Peers *)
Definition ud_send (peer_addr : VerbsUDAddress) (ah buf : Z) (msg : PeerHandshakeInfo) :
    M VerbsDomain (res unit) := fun d =>
  (let! l := dev (call (postcard_to_slice msg buf (mp_chunk_size (ud_mempool d)))) in
   match l with
   | None => ret (Err (Custom "Failed to serialize UD message"))
   | Some length =>
       dev (check_ec (ibv_post_send_ud (ud_qp (vc_ud (conf d)))
         {| us_wr_id := buf; us_addr := buf; us_length := as_u32 length;
            us_lkey := as_u32 (ud_mempool_lkey d); us_ah := ah;
            us_remote_qpn := ud_qp_num peer_addr; us_remote_qkey := ud_qkey peer_addr |})
         "ibv_post_send: UD SEND")
   end) d.

Definition create_peer (peer_addr : DomainAddress)
    (pending_submits : list (TransferId * OutboundOp)) (pending_group_write_ops : list nat) :
    M VerbsDomain (res Peer) := fun d =>
  let cf := conf d in
  match from_bytes (addr_bytes peer_addr) with
  | None => Done (Err (Custom "Invalid peer address"), d)
  | Some peer_ud =>
      (let? msg := dev (rc_new (vc_cq cf) (vc_pd cf) (vc_msg_srq cf) (vc_gid cf) (vc_lid cf) (Z.of_nat MAX_OPS) 123) in
       let? rma := dev (rc_new (vc_cq cf) (vc_pd cf) (vc_rma_srq cf) (vc_gid cf) (vc_lid cf) (Z.of_nat MAX_OPS) 456) in
       let? ah := dev (nonnull (ibv_create_ah (vc_pd cf)
         {| ah_dgid := ud_gid peer_ud; ah_hop_limit := 64; ah_sgid_index := vc_gid_index cf;
            ah_dlid := ud_lid peer_ud; ah_is_global := if vc_is_infiniband cf then 0 else 1;
            ah_port_num := vc_port_num cf |}) "ibv_create_ah") in
       ret (Ok {| peer_ud_addr := peer_ud; peer_ah := ah; msg_rc := msg; rma_rc := rma;
                  peer_state := Connecting pending_submits pending_group_write_ops |})) d
  end.

Definition connect_peer (peer : Peer) (ud_buf : Z) : M VerbsDomain (res unit) := fun d =>
  let cf := conf d in
  ud_send (peer_ud_addr peer) (peer_ah peer) ud_buf
    {| hi_ud_addr := ud_addr (vc_ud cf); hi_lid := vc_lid cf; hi_gid := vc_gid cf;
       hi_msg_qp_num := rc_qp_num (rc_addr (msg_rc peer));
       hi_msg_psn := rc_psn (rc_addr (msg_rc peer));
       hi_rma_qp_num := rc_qp_num (rc_addr (rma_rc peer));
       hi_rma_psn := rc_psn (rc_addr (rma_rc peer)) |} d.

Definition insert_peer (a : DomainAddress) (p : Peer) : M VerbsDomain unit :=
  modify (fun d => set_peers (<[a := p]> (vd_peers d)) d).

(** The sequence shared by every caller: create the peer, insert it, allocate a datagram
    buffer, send the handshake. *)
Definition initiate_peer (a : DomainAddress) (pending : list (TransferId * OutboundOp))
    (pending_groups : list nat) : M VerbsDomain (res Peer) :=
  let? peer := create_peer a pending pending_groups in
  insert_peer a peer ;;;
  let! buf := on_state ud_mempool set_ud_mempool mp_alloc in
  match buf with
  | None => ret (Err (Custom "Failed to allocate UD message buffer"))
  | Some buf =>
      let? _ := connect_peer peer buf in
      ret (Ok peer)
  end.

(** ** Posting writes *)

(** The loop of [progress_rdma_write_op_context]: it ends because every round but the last
    posts at least one of the remaining requests; the fuel is their number plus one. *)
Fixpoint post_loop (fuel : nat) (c : WriteOpContext) : M H WriteOpContext :=
  let '(rma_qp, wr, wr_len) := peek (rdma_op_iter c) in
  if (wr_len =? 0)%nat then ret c
  else
    match fuel with
    | O => fun _ => OutOfFuel
    | S fuel =>
        let! rq := call (ibv_post_send (default 0 rma_qp) (chain (S WR_CHAIN_LEN) (iter_buf (rdma_op_iter c)) wr)) in
        let '(r, cnt) := rq in
        if r =? 0 then
          match advance wr_len (rdma_op_iter c) with
          | Done it => post_loop fuel (ctx_set c it (cnt_posted_ops c + wr_len)
                         (cnt_finished_ops c) (in_queue c) (bad c))
          | Panic why => panic why
          | OutOfFuel => fun _ => OutOfFuel
          end
        else if r =? ENOMEM then
          match advance cnt (rdma_op_iter c) with
          | Done it => ret (ctx_set c it (cnt_posted_ops c + cnt) (cnt_finished_ops c)
                         (in_queue c) (bad c))
          | Panic why => panic why
          | OutOfFuel => fun _ => OutOfFuel
          end
        else panic "ibv_post_send returned undocumented error"
    end.

Definition progress_rdma_write_op_context (a : nat) : M VerbsDomain unit :=
  let! c := read_ctx a in
  if bad c then ret tt
  else
    let! c := dev (post_loop (S (ctx_total_ops c)) c) in
    write_ctx a c.

Definition do_submit_write (tid : TransferId)
    (construct_rdma_op_iter : Z -> WrChainBuffer -> outcome WriteOpIter) : M VerbsDomain unit :=
  let! a := on_state objpool_write_op set_objpool_write_op alloc_uninit in
  let! b := on_state objpool_wr set_objpool_wr alloc_uninit in
  match construct_rdma_op_iter (rawctx a) (replicate WR_CHAIN_LEN blank_slot) with
  | Panic why => panic why
  | OutOfFuel => fun _ => OutOfFuel
  | Done it =>
      write_ctx a {| transfer_id := tid; rdma_op_iter := it; wr_chain_buffer := b;
                     ctx_total_ops := total_ops it; cnt_posted_ops := 0; cnt_finished_ops := 0;
                     in_queue := false; bad := false |} ;;;
      progress_rdma_write_op_context a ;;;
      let! c := read_ctx a in
      if negb (cnt_posted_ops c =? ctx_total_ops c)%nat then
        modify (fun d => set_write_ops (vd_write_ops d ++ [a]) d) ;;;
        write_ctx a (ctx_set c (rdma_op_iter c) (cnt_posted_ops c) (cnt_finished_ops c) true (bad c))
      else ret tt
  end.

Definition do_submit_outbound_op (tid : TransferId) (op : OutboundOp) (msg_qp rma_qp : qp) :
    M VerbsDomain unit :=
  match op with
  | OSend op =>
      modify (fun d => set_send_ops
        (send_ops d ++ [{| sc_transfer_id := tid; sc_msg_qp := msg_qp; sc_op := op |}]) d)
  | OWrite op =>
      do_submit_write tid (fun ctx buf =>
        match op with
        | WSingle op => Done (ISingle (new_single op rma_qp buf ctx))
        | WImm op => Done (ISingle (new_imm op rma_qp buf ctx))
        | WPaged op => out_map IPaged (paged_new op rma_qp buf ctx)
        end)
  end.

Definition do_submit_group_write (tid : TransferId) (rma_qps : list qp) (op : GroupWriteOp) :
    M VerbsDomain unit :=
  do_submit_write tid (fun ctx buf =>
    match op with GScatter op => out_map IScatter (scatter_new op rma_qps buf ctx) end).

(** [format!("Failed to create peer: {}. Reason: {}", ..)], the text abbreviated. *)
Definition peer_error (a : DomainAddress) (e : FabricLibError) : FabricLibError :=
  Domain "Failed to create peer".

Definition submit_outbound_op (tid : TransferId) (dest_addr : DomainAddress) (op : OutboundOp) :
    M VerbsDomain unit :=
  let! known := gets (fun d => vd_peers d !! dest_addr) in
  match known with
  | Some peer =>
      match peer_state peer with
      | Established => do_submit_outbound_op tid op (rc_qp (msg_rc peer)) (rc_qp (rma_rc peer))
      | Connecting pending_submits pending_groups =>
          insert_peer dest_addr {| peer_ud_addr := peer_ud_addr peer; peer_ah := peer_ah peer;
            msg_rc := msg_rc peer; rma_rc := rma_rc peer;
            peer_state := Connecting (pending_submits ++ [(tid, op)]) pending_groups |}
      end
  | None =>
      let! r := initiate_peer dest_addr [(tid, op)] [] in
      match r with
      | Ok _ => ret tt
      | Err e => push_completion (DcError tid (peer_error dest_addr e))
      end
  end.

(** ** The handshake *)
Definition set_peer_state (p : Peer) (st : PeerState) : Peer :=
  {| peer_ud_addr := peer_ud_addr p; peer_ah := peer_ah p; msg_rc := msg_rc p; rma_rc := rma_rc p;
     peer_state := st |}.

(** Bringing both queue pairs of a peer from RESET to RTS. *)
Definition activate_qps (peer : Peer) (info : PeerHandshakeInfo) : M VerbsDomain (res unit) :=
  let! cf := gets conf in
  let? _ := dev (rc_reset_to_init (msg_rc peer) (vc_port_num cf) 0) in
  let? _ := dev (rc_reset_to_init (rma_rc peer) (vc_port_num cf) 0) in
  let? _ := dev (rc_init_to_rtr (msg_rc peer) (vc_is_infiniband cf) (vc_gid_index cf)
    (vc_port_num cf) (vc_mtu cf) (hi_msg_qp_num info) (hi_msg_psn info) (hi_lid info) (hi_gid info)) in
  let? _ := dev (rc_init_to_rtr (rma_rc peer) (vc_is_infiniband cf) (vc_gid_index cf)
    (vc_port_num cf) (vc_mtu cf) (hi_rma_qp_num info) (hi_rma_psn info) (hi_lid info) (hi_gid info)) in
  let? _ := dev (rc_rtr_to_rts (msg_rc peer) (hi_msg_psn info)) in
  dev (rc_rtr_to_rts (rma_rc peer) (hi_rma_psn info)).

Definition drop_pending (q : qp) (g : ConnectingPeerGroup) : ConnectingPeerGroup :=
  {| cg_rma_qps := cg_rma_qps g; cg_pending_peers := cg_pending_peers g ∖ {[q]};
     cg_pending_group_ops := cg_pending_group_ops g |}.

(** [pending.remove(&q) && pending.is_empty()]. *)
Definition last_pending (q : qp) (s : gset Z) : bool :=
  bool_decide (q ∈ s) && bool_decide (s ∖ {[q]} = ∅).

Definition connected_groups (q : qp) (m : gmap Z ConnectingPeerGroup) : list Z :=
  (filter (fun hg => last_pending q (cg_pending_peers hg.2)) (map_to_list m)).*1.

Definition finish_group (handle : Z) : M VerbsDomain unit :=
  let! g := gets (fun d => connecting_peer_groups d !! handle) in
  let! g := unwrap g "unreachable" in
  modify (fun d => set_connecting_peer_groups (delete handle (connecting_peer_groups d)) d) ;;;
  modify (fun d => set_peer_groups (<[handle := cg_rma_qps g]> (vd_peer_groups d)) d) ;;;
  for_each (cg_pending_group_ops g) (fun '(tid, op) => do_submit_group_write tid (cg_rma_qps g) op).

Definition check_pending_group_write (rma_qp : qp) (a : nat) : M VerbsDomain unit :=
  let! o := gets (fun d => pending_ctxs d !! a) in
  let! op := unwrap o "use of an uninitialised PendingGroupWriteOp" in
  let pending := pg_pending_peers op ∖ {[rma_qp]} in
  if last_pending rma_qp (pg_pending_peers op) then
    match pg_op op with
    | Some gop => do_submit_group_write (pg_transfer_id op) (pg_rma_qps op) gop
    | None => ret tt
    end ;;;
    modify (fun d => set_pending_ctxs (delete a (pending_ctxs d)) d) ;;;
    on_state objpool_pending set_objpool_pending (free_and_drop a)
  else
    modify (fun d => set_pending_ctxs (<[a := {| pg_transfer_id := pg_transfer_id op;
      pg_op := pg_op op; pg_rma_qps := pg_rma_qps op; pg_pending_peers := pending |}]>
      (pending_ctxs d)) d).

(** From [Connecting] to [Established]: flush what was queued for the peer. *)
Definition establish_peer (peer_addr : DomainAddress) (peer : Peer) : M VerbsDomain unit :=
  match peer_state peer with
  | Established => panic "Peer should not be in established state"
  | Connecting pending_submits pending_group_write_ops =>
      insert_peer peer_addr (set_peer_state peer Established) ;;;
      let msg_qp := rc_qp (msg_rc peer) in
      let rma_qp := rc_qp (rma_rc peer) in
      for_each pending_submits (fun '(tid, op) => do_submit_outbound_op tid op msg_qp rma_qp) ;;;
      let! groups := gets connecting_peer_groups in
      let connected := connected_groups rma_qp groups in
      modify (fun d => set_connecting_peer_groups (drop_pending rma_qp <$> groups) d) ;;;
      for_each connected finish_group ;;;
      for_each pending_group_write_ops (check_pending_group_write rma_qp)
  end.

Definition handle_peer_handshake (info : PeerHandshakeInfo) : M VerbsDomain (res unit) :=
  let peer_addr := address_of_ud (hi_ud_addr info) in
  let! known := gets (fun d => vd_peers d !! peer_addr) in
  let? peer :=
    match known with
    | Some peer => ret (Ok peer)
    | None => initiate_peer peer_addr [] []
    end in
  match known, peer_state peer with
  | Some _, Established => ret (Ok tt)
  | _, _ =>
      let? _ := activate_qps peer info in
      establish_peer peer_addr peer ;;;
      ret (Ok tt)
  end.

(** ** Memory regions *)
Definition register_mr (region : MemoryRegion) (allow_remote : bool) :
    M VerbsDomain (res MemoryRegionRemoteKey) :=
  let! known := gets (fun d => local_mr_map d !! mr_ptr region) in
  match known with
  | Some mr => ret (Ok (rkey mr))
  | None =>
      let access := [IBV_ACCESS_LOCAL_WRITE; IBV_ACCESS_RELAXED_ORDERING] ++
        (if allow_remote then [IBV_ACCESS_REMOTE_READ; IBV_ACCESS_REMOTE_WRITE] else []) in
      let fname := match mr_mapping region with
                   | MapDevice _ (Some _) => "ibv_reg_dmabuf_mr"%string
                   | _ => "ibv_reg_mr"%string
                   end in
      let! pd := gets (fun d => vc_pd (conf d)) in
      let? mr := dev (nonnull (ibv_reg_mr pd region access) fname) in
      modify (fun d => set_local_mr_map (<[mr_ptr region := mr]> (local_mr_map d)) d) ;;;
      ret (Ok (rkey mr))
  end.

Definition vd_unregister_mr (ptr : Z) : M VerbsDomain unit :=
  let! mr := gets (fun d => local_mr_map d !! ptr) in
  match mr with
  | Some mr =>
      modify (fun d => set_local_mr_map (delete ptr (local_mr_map d)) d) ;;;
      dev (modify (ibv_dereg_mr mr))
  | None => ret tt
  end.

Definition vd_get_mem_desc (ptr : Z) (d : VerbsDomain) : res MemoryRegionLocalDescriptor :=
  match local_mr_map d !! ptr with
  | None => Err (Custom "Local MR not found")
  | Some mr => Ok (lkey mr)
  end.

(** [post_init] registers the datagram buffers and posts the receives. *)
Definition post_init : M VerbsDomain (res unit) :=
  let! pool := gets ud_mempool in
  let? _ := register_mr {| mr_ptr := mp_buffer pool; mr_len := mp_buffer_len pool;
                           mr_mapping := MapHost |} true in
  let? lk := gets (vd_get_mem_desc (mp_buffer pool)) in
  modify (set_ud_mempool_lkey lk) ;;;
  let? _ := try_for_each (seq 0 NUM_UD_RECVS) (fun _ =>
    let! ptr := on_state ud_mempool set_ud_mempool mp_alloc in
    let! ptr := unwrap ptr "unwrap_unchecked" in
    post_ud_recv ptr) in
  try_for_each (seq 0 NUM_IMM_RECVS) (fun _ => post_imm_recv).

(** ** Progress *)
Fixpoint progress_recv_loop (fuel : nat) : M VerbsDomain unit := fun d =>
  match recv_ops d with
  | [] => Done (tt, d)
  | ctx :: rest =>
      match fuel with
      | O => OutOfFuel
      | S fuel =>
          (let! r := dev (call (ibv_post_srq_recv (vc_msg_srq (conf d))
             (fill_recv_op (rc_op ctx) (rc_transfer_id ctx)))) in
           if r =? 0 then modify (set_recv_ops rest) ;;; progress_recv_loop fuel
           else if r =? ENOMEM then ret tt
           else panic "ibv_post_srq_recv returned undocumented error") d
      end
  end.

Definition progress_rdma_recv_ops : M VerbsDomain unit := fun d =>
  progress_recv_loop (length (recv_ops d)) d.

Fixpoint progress_send_loop (fuel : nat) : M VerbsDomain unit := fun d =>
  match send_ops d with
  | [] => Done (tt, d)
  | ctx :: rest =>
      match fuel with
      | O => OutOfFuel
      | S fuel =>
          (let! r := dev (call (ibv_post_send (sc_msg_qp ctx) [fill_send_op (sc_op ctx) (sc_transfer_id ctx)])) in
           if r.1 =? 0 then modify (set_send_ops rest) ;;; progress_send_loop fuel
           else if r.1 =? ENOMEM then ret tt
           else panic "ibv_post_send returned undocumented error") d
      end
  end.

Definition progress_rdma_send_ops : M VerbsDomain unit := fun d =>
  progress_send_loop (length (send_ops d)) d.

Definition maybe_drop_write_op_context (a : nat) : M VerbsDomain unit :=
  let! c := read_ctx a in
  if negb (cnt_finished_ops c =? cnt_posted_ops c)%nat then ret tt
  else if in_queue c then ret tt
  else
    on_state objpool_wr set_objpool_wr (free_and_drop (wr_chain_buffer c)) ;;;
    modify (fun d => set_write_ctxs (delete a (write_ctxs d)) d) ;;;
    on_state objpool_write_op set_objpool_write_op (free_and_drop a).

Fixpoint progress_write_loop (fuel : nat) : M VerbsDomain unit := fun d =>
  match vd_write_ops d with
  | [] => Done (tt, d)
  | a :: rest =>
      match fuel with
      | O => OutOfFuel
      | S fuel =>
          (let! c := read_ctx a in
           assert_ (cnt_finished_ops c <=? cnt_posted_ops c)%nat
             "Invariant: context in queue should have more ops to post" ;;;
           if bad c then
             write_ctx a (ctx_set c (rdma_op_iter c) (cnt_posted_ops c) (cnt_finished_ops c) false true) ;;;
             modify (set_write_ops rest) ;;;
             maybe_drop_write_op_context a ;;;
             progress_write_loop fuel
           else
             progress_rdma_write_op_context a ;;;
             let! c := read_ctx a in
             if negb (cnt_posted_ops c =? ctx_total_ops c)%nat then ret tt
             else modify (set_write_ops rest) ;;; progress_write_loop fuel) d
      end
  end.

Definition progress_rdma_write_ops : M VerbsDomain unit := fun d =>
  progress_write_loop (length (vd_write_ops d)) d.

Definition progress_ops : M VerbsDomain unit :=
  progress_rdma_recv_ops ;;; progress_rdma_send_ops ;;; progress_rdma_write_ops.

(** ** Completions *)
Definition on_vd {A} (m : M VerbsDomain A) : M (Shared * VerbsDomain) A :=
  on_state snd (fun d s => (s.1, d)) m.
Definition on_imm {A} (m : M Shared A) : M (Shared * VerbsDomain) A :=
  on_state fst (fun sh s => (sh, s.2)) m.

Definition handle_ud_cqe (wc : ibv_wc) : M VerbsDomain unit :=
  if negb (wc_status wc =? IBV_WC_SUCCESS) then panic "TODO: handle UD errors" else
  match wc_opcode wc with
  | IBV_WC_RECV =>
      let! msg := dev (gets (postcard_from_bytes (wc_wr_id wc + GRH_BYTES) (wc_byte_len wc - GRH_BYTES))) in
      let! msg := unwrap msg "TODO: handle UD error" in
      let! r := handle_peer_handshake msg in
      let! _ := expect r "TODO: handle UD error" in
      let! r := post_ud_recv (wc_wr_id wc) in
      expect r "TODO: handle UD error"
  | IBV_WC_SEND => on_state ud_mempool set_ud_mempool (mp_free (wc_wr_id wc))
  | _ => ret tt
  end.

(** The failed-completion branch: the transfer to report, if any. *)
Definition handle_error_cqe (wc : ibv_wc) : M VerbsDomain (option TransferId) :=
  match wc_opcode wc with
  | IBV_WC_RECV | IBV_WC_SEND => ret (Some (wc_wr_id wc))
  | IBV_WC_RDMA_WRITE =>
      match ctx_of_wr_id (wc_wr_id wc) with
      | None => ret None
      | Some a =>
          let! c := read_ctx a in
          let r := if bad c then None else Some (transfer_id c) in
          write_ctx a (ctx_set c (rdma_op_iter c) (cnt_posted_ops c) (S (cnt_finished_ops c))
            (in_queue c) true) ;;;
          maybe_drop_write_op_context a ;;;
          ret r
      end
  | _ => ret None
  end.

Definition handle_write_cqe (wc : ibv_wc) : M VerbsDomain (option DomainCompletionEntry) :=
  match ctx_of_wr_id (wc_wr_id wc) with
  | None => ret None
  | Some a =>
      let! c := read_ctx a in
      write_ctx a (ctx_set c (rdma_op_iter c) (cnt_posted_ops c) (S (cnt_finished_ops c))
        (in_queue c) (bad c)) ;;;
      if (S (cnt_finished_ops c) <? ctx_total_ops c)%nat then ret None
      else
        maybe_drop_write_op_context a ;;;
        ret (Some (DcTransfer (transfer_id c)))
  end.

Definition handle_cqe (wc : ibv_wc) : M (Shared * VerbsDomain) (option DomainCompletionEntry) :=
  let! ud := gets (fun s => vc_ud (conf s.2)) in
  if wc_qp_num wc =? ud_qp_num (ud_addr ud) then on_vd (handle_ud_cqe wc) ;;; ret None
  else if negb (wc_status wc =? IBV_WC_SUCCESS) then
    let! tid := on_vd (handle_error_cqe wc) in
    ret (match tid with
         | Some tid => Some (DcError tid (VerbsCompletionError (wc_status_str (wc_status wc))))
         | None => None
         end)
  else
    match wc_opcode wc with
    | IBV_WC_RECV => ret (Some (DcRecv (wc_wr_id wc) (wc_byte_len wc)))
    | IBV_WC_SEND => ret (Some (DcSend (wc_wr_id wc)))
    | IBV_WC_RDMA_WRITE => on_vd (handle_write_cqe wc)
    | IBV_WC_RECV_RDMA_WITH_IMM =>
        let! r := on_vd post_imm_recv in
        let! _ := expect r "TODO: handle error. maybe make ImmRecv a Op" in
        let! st := on_imm (inc (wc_imm_data wc)) in
        ret (match st with
             | Vacant => Some (DcImmData (wc_imm_data wc))
             | NotReached => None
             | Reached => Some (DcImmCountReached (wc_imm_data wc))
             end)
    | IBV_WC_OTHER _ => ret None
    end.

Definition handle_and_push (wc : ibv_wc) : M (Shared * VerbsDomain) unit :=
  let! c := handle_cqe wc in
  match c with Some c => on_vd (push_completion c) | None => ret tt end.

(** The device decides how many batches it delivers before the queue is empty; [fuel] bounds
    them. *)
Fixpoint poll_cq (fuel : nat) : M (Shared * VerbsDomain) unit :=
  match fuel with
  | O => fun _ => OutOfFuel
  | S fuel =>
      let! r := on_vd (dev (call (ibv_poll_cq READ_COUNT))) in
      if 0 <? r.1 then
        for_each (take (Z.to_nat r.1) r.2) handle_and_push ;;;
        poll_cq fuel
      else if r.1 =? 0 then ret tt
      else panic "ibv_poll_cq returned undocumented error"
  end.

(** ** The provider's methods *)
Definition vd_submit_recv (tid : TransferId) (op : RecvOp) : M VerbsDomain unit :=
  modify (fun d => set_recv_ops (recv_ops d ++ [{| rc_transfer_id := tid; rc_op := op |}]) d).

Fixpoint group_peers (addrs : list DomainAddress) (rma_qps : list qp) (pending : gset Z) :
    M VerbsDomain (res (list qp * gset Z)) :=
  match addrs with
  | [] => ret (Ok (rma_qps, pending))
  | a :: addrs =>
      let! known := gets (fun d => vd_peers d !! a) in
      match known with
      | Some peer => group_peers addrs (rma_qps ++ [rc_qp (rma_rc peer)]) pending
      | None =>
          let? peer := initiate_peer a [] [] in
          group_peers addrs (rma_qps ++ [rc_qp (rma_rc peer)]) ({[rc_qp (rma_rc peer)]} ∪ pending)
      end
  end.

Definition vd_add_peer_group (handle : PeerGroupHandle) (addrs : list DomainAddress) :
    M VerbsDomain (res unit) :=
  let! known := gets (fun d => (connecting_peer_groups d !! handle, vd_peer_groups d !! handle)) in
  match known with
  | (Some _, _) | (None, Some _) => ret (Ok tt)
  | (None, None) =>
      let? r := group_peers addrs [] ∅ in
      if bool_decide (r.2 = ∅) then
        modify (fun d => set_peer_groups (<[handle := r.1]> (vd_peer_groups d)) d) ;;; ret (Ok tt)
      else
        modify (fun d => set_connecting_peer_groups (<[handle := {| cg_rma_qps := r.1;
          cg_pending_peers := r.2; cg_pending_group_ops := [] |}]> (connecting_peer_groups d)) d) ;;;
        ret (Ok tt)
  end.

(** The peers of a group write without a handle; the pending context is allocated at the first
    unknown peer.  [Err] has the completion's error, pushed by the caller. *)
Fixpoint scatter_peers (addrs : list (option DomainAddress)) (rma_qps : list qp) (pending : gset Z)
    (ctx : option nat) : M VerbsDomain (res (list qp * gset Z * option nat)) :=
  match addrs with
  | [] => ret (Ok (rma_qps, pending, ctx))
  | oa :: addrs =>
      let! a := unwrap oa "index out of bounds" in
      let! known := gets (fun d => vd_peers d !! a) in
      match known with
      | Some peer => scatter_peers addrs (rma_qps ++ [rc_qp (rma_rc peer)]) pending ctx
      | None =>
          let! ctx_ptr := match ctx with
                          | Some p => ret p
                          | None => on_state objpool_pending set_objpool_pending alloc_uninit
                          end in
          let! r := initiate_peer a [] [ctx_ptr] in
          match r with
          | Err e => ret (Err (peer_error a e))
          | Ok peer =>
              scatter_peers addrs (rma_qps ++ [rc_qp (rma_rc peer)])
                ({[rc_qp (rma_rc peer)]} ∪ pending) (Some ctx_ptr)
          end
      end
  end.

Definition vd_submit_group_write (tid : TransferId) (handle : option PeerGroupHandle)
    (op : GroupWriteOp) : M VerbsDomain unit :=
  match handle with
  | Some handle =>
      let! known := gets (fun d => (connecting_peer_groups d !! handle, vd_peer_groups d !! handle)) in
      match known with
      | (Some g, _) =>
          modify (fun d => set_connecting_peer_groups (<[handle := {| cg_rma_qps := cg_rma_qps g;
            cg_pending_peers := cg_pending_peers g;
            cg_pending_group_ops := cg_pending_group_ops g ++ [(tid, op)] |}]>
            (connecting_peer_groups d)) d)
      | (None, None) => push_completion (DcError tid (Custom "Peer group not found"))
      | (None, Some rma_qps) => do_submit_group_write tid rma_qps op
      end
  | None =>
      let! r := scatter_peers (peer_addr_iter op) [] ∅ None in
      match r with
      | Err e => push_completion (DcError tid e)
      | Ok (rma_qps, pending, ctx) =>
          if bool_decide (pending = ∅) then do_submit_group_write tid rma_qps op
          else
            let! ptr := unwrap ctx "called `Option::unwrap()` on a `None` value" in
            modify (fun d => set_pending_ctxs (<[ptr := {| pg_transfer_id := tid; pg_op := Some op;
              pg_rma_qps := rma_qps; pg_pending_peers := pending |}]> (pending_ctxs d)) d)
      end
  end.

Definition vd_poll_progress (fuel : nat) : M (Shared * VerbsDomain) unit :=
  poll_cq fuel ;;; on_vd progress_ops.

Definition vd_get_completion : M VerbsDomain (option DomainCompletionEntry) := fun d =>
  match completions d with
  | [] => Done (None, d)
  | c :: cs => Done (Some c, set_completions cs d)
  end.

Definition verbs_domain (fuel : nat) : RdmaDomain VerbsDomain := {|
  link_speed := fun d => vc_link_speed (conf d);
  addr := fun d => vc_addr (conf d);
  register_mr_local := fun region => let? _ := register_mr region false in ret (Ok tt);
  register_mr_allow_remote := fun region => register_mr region true;
  unregister_mr := vd_unregister_mr;
  get_mem_desc := vd_get_mem_desc;
  submit_recv := vd_submit_recv;
  submit_send := fun tid a op => submit_outbound_op tid a (OSend op);
  submit_write := fun tid a op => submit_outbound_op tid a (OWrite op);
  add_peer_group := vd_add_peer_group;
  submit_group_write := vd_submit_group_write;
  poll_progress := vd_poll_progress fuel;
  get_completion := vd_get_completion;
|}.

End Domain.
