(* ===== verification/VerbsSpec.v ===== *)
(** * Correctness of the verbs domain

    The verbs domain satisfies the provider contract; a paged write posts each of its pages
    exactly once whatever the send queue accepts; the life of a write context; what happens to
    operations for a peer that is still connecting. *)
From stdpp Require Import prelude gmap strings list.
From S2P Require Import Prelude Api ImmCount Utils Provider VerbsRdmaOp VerbsQp VerbsDomain.
Local Open Scope Z_scope.

(** ** The provider contract *)
Section Laws.
Context {H : Type} `{VerbsHw H}.

Definition mrs_are (m : gmap Z ibv_mr) (d : VerbsDomain (H:=H)) : Prop := local_mr_map d = m.

Lemma dev_mrs m {A} (f : M H A) : keeps (mrs_are m) (dev f).
Proof. by apply keeps_on_state. Qed.

Hint Resolve dev_mrs : keeps.
Hint Extern 1 (keeps (mrs_are _) (modify _)) => (apply keeps_modify; by intros) : keeps.
Hint Extern 1 (keeps (mrs_are _) (on_state _ _ _)) => (apply keeps_on_state; by intros) : keeps.

Lemma ud_send_mrs m a ah buf msg : keeps (mrs_are m) (ud_send a ah buf msg).
Proof. unfold ud_send. keeps_at keeps_step. Qed.

Lemma create_peer_mrs m a ps pg : keeps (mrs_are m) (create_peer a ps pg).
Proof.
  unfold create_peer. destruct (from_bytes (addr_bytes a)) as [ud|].
  - keeps_at keeps_step.
  - intros d r d' Hrun. by simplify_eq.
Qed.

Lemma connect_peer_mrs m p buf : keeps (mrs_are m) (connect_peer p buf).
Proof. unfold connect_peer. keeps_at ltac:(apply ud_send_mrs). Qed.

Hint Resolve create_peer_mrs connect_peer_mrs : keeps.

Lemma initiate_peer_mrs m a ps pg : keeps (mrs_are m) (initiate_peer a ps pg).
Proof. unfold initiate_peer, insert_peer. keeps_step. Qed.

Lemma do_submit_write_mrs m tid f : keeps (mrs_are m) (do_submit_write tid f).
Proof.
  unfold do_submit_write, write_ctx, read_ctx, progress_rdma_write_op_context, read_ctx, write_ctx.
  keeps_step.
Qed.

Hint Resolve initiate_peer_mrs do_submit_write_mrs : keeps.

(** A write neither reports anything nor changes the configuration when it is submitted. *)
Definition silent (cs : list DomainCompletionEntry) (cf : VerbsConf) (d : VerbsDomain (H:=H)) : Prop :=
  completions d = cs /\ conf d = cf.

Hint Extern 1 (keeps (silent _ _) (modify _)) => (apply keeps_modify; by intros) : keeps.
Hint Extern 1 (keeps (silent _ _) (on_state _ _ _)) => (apply keeps_on_state; by intros) : keeps.
Hint Extern 1 (keeps (silent _ _) (dev _)) => (apply keeps_on_state; by intros) : keeps.

Lemma do_submit_write_silent cs cf tid f : keeps (silent cs cf) (do_submit_write tid f).
Proof.
  unfold do_submit_write, write_ctx, read_ctx, progress_rdma_write_op_context, read_ctx, write_ctx.
  keeps_step.
Qed.

Lemma submit_outbound_mrs m tid a op : keeps (mrs_are m) (submit_outbound_op tid a op).
Proof.
  unfold submit_outbound_op, insert_peer, push_completion, do_submit_outbound_op.
  keeps_step.
Qed.
End Laws.

(** The implementation discharges the contract of [RdmaDomainLaws]. *)
#[export] Program Instance verbs_laws {H} `{VerbsHw H} (fuel : nat) :
    @RdmaDomainLaws (VerbsDomain (H:=H)) (verbs_domain fuel) := {|
  completions_of := completions;
|}.
Next Obligation.
  intros H HW fuel d. simpl. unfold vd_get_completion. destruct (completions d) eqn:E; [done|].
  eexists. done.
Qed.
Next Obligation.
  intros H HW fuel tid a op d d' p Hrun. simpl in *. unfold vd_get_mem_desc.
  by rewrite (submit_outbound_mrs (local_mr_map d) _ _ _ _ _ _ Hrun eq_refl).
Qed.

(** ** Posting *)

(** What [ibv_post_send] documents: on success the whole chain is queued on the queue pair; when
    it returns [ENOMEM] (the send queue is full or the resources are missing), the requests
    before [bad_wr] are queued and [bad_wr] is one of the chain.  [accepted] is the sequence of
    requests the device has queued, each with its queue pair; [no_room q h] is the condition
    [ENOMEM] stands for, which holds when the call returns, and when it was made if nothing of
    the chain was queued. *)
Class VerbsHwLaws (H : Type) `{VerbsHw H} := {
  accepted : H -> list (qp * wr_slot);
  no_room : qp -> H -> Prop;
  post_send_documented : forall q l h r cnt h',
    ibv_post_send q l h = (r, cnt, h') ->
    (r = 0 /\ accepted h' = accepted h ++ (pair q <$> l)) \/
    (r = ENOMEM /\ (cnt < length l)%nat /\ accepted h' = accepted h ++ (pair q <$> take cnt l) /\
     no_room q h' /\ (cnt = 0%nat -> no_room q h));
}.

Section Posting.
Context {H : Type} `{VerbsHwLaws H}.

(** The requests of [n] pages from [b] on, on the queue pair [q]. *)
Definition pages_on (q : qp) (op : PagedWriteOp) (a : nat) (b n : nat) : list (qp * wr_slot) :=
  pair q <$> (page_wr op (rawctx a) <$> seq b n).

Lemma pages_on_app q op a b n m : pages_on q op a b (n + m) = pages_on q op a b n ++ pages_on q op a (b + n) m.
Proof. unfold pages_on. by rewrite seq_app, !fmap_app. Qed.

(** A paged write context for the queue pair [rq]: the pages before [beg + cnt_posted_ops] have
    been posted. *)
Record paged_ctx (op : PagedWriteOp) (rq : qp) (a : nat) (c : WriteOpContext) (it : PagedWriteOpIter) : Prop := {
  pc_iter : rdma_op_iter c = IPaged it;
  pc_qp : pi_rma_qp it = rq;
  pc_op : paged_op_ok op;
  pc_ring : ring_ok op (rawctx a) it;
  pc_full : full op it;
  pc_first : first_pending it = (pw_page_indices_beg op + cnt_posted_ops c)%nat;
  pc_total : ctx_total_ops c = (pw_page_indices_end op - pw_page_indices_beg op)%nat;
}.

Lemma paged_ctx_le op rq a c it : paged_ctx op rq a c it -> (cnt_posted_ops c <= ctx_total_ops c)%nat.
Proof.
  intros [_ _ (? & _) [] _ Hf Ht]. unfold first_pending in Hf. lia.
Qed.

Lemma paged_ctx_advance op rq a c it n :
  paged_ctx op rq a c it -> (n <= wr_len it)%nat ->
  exists it', advance n (IPaged it) = Done (IPaged it') /\
    paged_ctx op rq a (ctx_set c (IPaged it') (cnt_posted_ops c + n) (cnt_finished_ops c) (in_queue c)
      (bad c)) it'.
Proof.
  intros [Hi Hq Hop Hr Hf Hfp Ht] Hn.
  destruct (paged_advance_ok op (rawctx a) n it Hop Hr Hn) as (it' & Hrun & Hr' & Hf' & Hfp' & Hq').
  exists it'. unfold advance. rewrite Hrun. split; [done|]. split; simpl; try done; [congruence|lia].
Qed.

Lemma take_fmap_seq {A} (f : nat -> A) n k b :
  (n <= k)%nat -> take n (f <$> seq b k) = f <$> seq b n.
Proof. intros Hn. rewrite <- fmap_take, take_seq. by rewrite Nat.min_l by lia. Qed.

(** What a run of the loop leaves: the context has advanced by the pages queued, in order, on its
    queue pair, and it stops at the end of the range or because there is no room.  It advances
    when it starts with room and pages are left. *)
Record posted_from (op : PagedWriteOp) (rq : qp) (a : nat) (c : WriteOpContext) (h : H)
    (c' : WriteOpContext) (it' : PagedWriteOpIter) (h' : H) : Prop := {
  pf_ctx : paged_ctx op rq a c' it';
  pf_mono : (cnt_posted_ops c <= cnt_posted_ops c')%nat;
  pf_same : c' = ctx_set c (IPaged it') (cnt_posted_ops c') (cnt_finished_ops c) (in_queue c) (bad c);
  pf_accepted : accepted h' = accepted h ++
    pages_on rq op a (pw_page_indices_beg op + cnt_posted_ops c) (cnt_posted_ops c' - cnt_posted_ops c);
  pf_stop : cnt_posted_ops c' = ctx_total_ops c' \/ no_room rq h';
  pf_progress : no_room rq h \/ cnt_posted_ops c = ctx_total_ops c \/ (cnt_posted_ops c < cnt_posted_ops c')%nat;
}.

Lemma posted_none op rq a c it h :
  paged_ctx op rq a c it -> cnt_posted_ops c = ctx_total_ops c -> posted_from op rq a c h c it h.
Proof.
  intros Hc He. split; [done|done| | |by left|by right; left].
  - destruct Hc as [Hi _ _ _ _ _ _]. destruct c; simpl in *; by subst.
  - rewrite Nat.sub_diag. unfold pages_on. simpl. by rewrite app_nil_r.
Qed.

Lemma post_loop_paged op rq a fuel c it h :
  paged_ctx op rq a c it -> (ctx_total_ops c - cnt_posted_ops c <= fuel)%nat ->
  exists c' it' h', post_loop fuel c h = Done (c', h') /\ posted_from op rq a c h c' it' h'.
Proof.
  revert c it h. induction fuel as [|fuel IH]; intros c it h Hc Hfuel;
    pose proof (paged_ctx_le _ _ _ _ _ Hc) as Hle; pose proof Hc as [Hi Hq Hop Hr Hf Hfp Ht];
    destruct (peek_chain op (rawctx a) it (S WR_CHAIN_LEN) Hr Hf ltac:(lia)) as [Hlen Hch];
    rewrite Hfp in Hlen, Hch; cbn [post_loop]; rewrite Hi; cbn [peek iter_buf];
    destruct (paged_peek it) as [[q w] n] eqn:Hpeek; cbn [fst snd] in Hlen, Hch;
    rewrite <- Hlen in Hch.
  - assert (n = 0%nat) as -> by (unfold WR_CHAIN_LEN in Hlen; lia). cbn [Nat.eqb].
    exists c, it, h. split; [done|]. apply posted_none; [done|lia].
  - destruct (Nat.eqb_spec n 0) as [->|Hn0].
    { exists c, it, h. split; [done|]. apply posted_none; [done|unfold WR_CHAIN_LEN in Hlen; lia]. }
    assert (n = wr_len it /\ q = Some rq) as [Hnw ->].
    { unfold paged_peek in Hpeek. destruct (wr_len it =? 0)%nat; by simplify_eq. }
    unfold bind, call. change (default 0 (Some rq)) with rq.
    destruct (ibv_post_send rq _ h) as [[r cnt] h1] eqn:Hsend.
    destruct (post_send_documented _ _ _ _ _ _ Hsend) as [[-> Hacc]|(-> & Hcnt & Hacc & Hno & Hno0)].
    + cbn [Z.eqb]. destruct (paged_ctx_advance op rq a c it n Hc) as (it1 & Hadv & Hc1); [lia|].
      rewrite Hadv.
      destruct (IH _ it1 h1 Hc1) as (c2 & it2 & h2 & Hrun & [Hc2 Hmono Heq Hacc2 Hstop _]).
      { simpl. lia. }
      exists c2, it2, h2. simpl in Hmono. split; [done|]. split; [done|lia|by rewrite Heq| |done|right; right; lia].
      rewrite Hacc2, Hacc, Hch, <- (assoc_L (++)). simpl. f_equal.
      replace (cnt_posted_ops c2 - cnt_posted_ops c)%nat with (n + (cnt_posted_ops c2 - (cnt_posted_ops c + n)))%nat by lia.
      rewrite pages_on_app. do 2 f_equal. lia.
    + cbn [Z.eqb ENOMEM]. rewrite Hch, length_fmap, length_seq in Hcnt.
      destruct (paged_ctx_advance op rq a c it cnt Hc) as (it1 & Hadv & Hc1); [lia|].
      cbn -[advance]. rewrite Hadv. cbv [ret].
      eexists _, it1, h1. split; [done|]. split; [exact Hc1|simpl; lia|done| |by right|].
      * rewrite Hacc, Hch, take_fmap_seq by lia. unfold pages_on. simpl. do 4 f_equal. lia.
      * simpl. destruct cnt; [left; by apply Hno0|right; right; lia].
Qed.

Lemma read_ctx_run (d : VerbsDomain (H:=H)) a c : write_ctxs d !! a = Some c -> read_ctx a d = Done (c, d).
Proof. intros Hc. cbv [read_ctx bind gets unwrap ret]. by rewrite Hc. Qed.

(** A context none of whose requests has completed, in the queue of writes to progress when [q]. *)
Definition fresh_ctx (tid : TransferId) (q : bool) (c : WriteOpContext) : Prop :=
  transfer_id c = tid /\ in_queue c = q /\ cnt_finished_ops c = 0%nat /\ bad c = false.

(** A context and the pages of it the device has queued since it had [acc0]. *)
Record paged_at (tid : TransferId) (q : bool) (op : PagedWriteOp) (rq : qp) (a : nat)
    (acc0 : list (qp * wr_slot)) (d : VerbsDomain (H:=H)) (c : WriteOpContext) : Prop := {
  pa_ctx : write_ctxs d !! a = Some c;
  pa_fresh : fresh_ctx tid q c;
  pa_paged : exists it, paged_ctx op rq a c it;
  pa_accepted : accepted (vd_hw d) = acc0 ++ pages_on rq op a (pw_page_indices_beg op) (cnt_posted_ops c);
}.

Lemma paged_at_total tid q op rq a acc0 d c :
  paged_at tid q op rq a acc0 d c ->
  ctx_total_ops c = (pw_page_indices_end op - pw_page_indices_beg op)%nat /\
  (cnt_posted_ops c <= ctx_total_ops c)%nat.
Proof. intros [_ _ (it & Hp) _]. split; [by destruct Hp|by eapply paged_ctx_le]. Qed.

(** One run of [progress_rdma_write_op_context]. *)
Lemma progress_paged_at tid q op rq a acc0 d c :
  paged_at tid q op rq a acc0 d c ->
  exists d' c', progress_rdma_write_op_context a d = Done (tt, d') /\ paged_at tid q op rq a acc0 d' c' /\
    vd_write_ops d' = vd_write_ops d /\
    (cnt_posted_ops c' = ctx_total_ops c' \/ no_room rq (vd_hw d')) /\
    (cnt_posted_ops c <= cnt_posted_ops c')%nat /\
    (no_room rq (vd_hw d) \/ cnt_posted_ops c = ctx_total_ops c \/ (cnt_posted_ops c < cnt_posted_ops c')%nat).
Proof.
  intros [Hc (Ht & Hq & Hf & Hb) (it & Hp) Hacc].
  destruct (post_loop_paged op rq a (S (ctx_total_ops c)) c it (vd_hw d) Hp ltac:(lia))
    as (c' & it' & h' & Hrun & [Hp' Hmono Heq Hacc' Hstop Hprog]).
  cbv [progress_rdma_write_op_context bind dev on_state]. rewrite (read_ctx_run d a c Hc), Hb, Hrun.
  eexists _, c'. split; [done|]. split; [|done]. split; simpl; [apply lookup_insert_eq|by rewrite Heq|by exists it'|].
  rewrite Hacc', Hacc, <- (assoc_L (++)). f_equal.
  replace (cnt_posted_ops c') with (cnt_posted_ops c + (cnt_posted_ops c' - cnt_posted_ops c))%nat at 2 by lia.
  by rewrite pages_on_app.
Qed.

(** A paged write between two calls of the domain: posted to its end, or out of room and waiting in
    the queue of writes to progress, behind [ahead]. *)
Record posting (tid : TransferId) (op : PagedWriteOp) (rq : qp) (a : nat) (acc0 : list (qp * wr_slot))
    (ahead : list nat) (d : VerbsDomain (H:=H)) (c : WriteOpContext) : Prop := {
  ps_at : exists q, paged_at tid q op rq a acc0 d c;
  ps_wait : (cnt_posted_ops c = ctx_total_ops c /\ vd_write_ops d = ahead) \/
    ((cnt_posted_ops c < ctx_total_ops c)%nat /\ no_room rq (vd_hw d) /\ vd_write_ops d = ahead ++ [a]);
}.

Lemma submit_paged_at tid op mq rq d a p :
  paged_op_ok op -> alloc_uninit (objpool_write_op d) = Done (a, p) ->
  exists d' c, do_submit_outbound_op tid (OWrite (WPaged op)) mq rq d = Done (tt, d') /\
    paged_at tid (negb (cnt_posted_ops c =? ctx_total_ops c)%nat) op rq a (accepted (vd_hw d)) d' c /\
    posting tid op rq a (accepted (vd_hw d)) (vd_write_ops d) d' c.
Proof.
  intros Hop Ha. cbn [do_submit_outbound_op]. unfold do_submit_write.
  unfold bind at 1, on_state at 1. rewrite Ha.
  assert (exists b q, alloc_uninit (objpool_wr (set_objpool_write_op p d)) = Done (b, q)) as (b & q & Hb).
  { unfold alloc_uninit. destruct (op_free_list _); eauto. }
  unfold bind at 1, on_state at 1. rewrite Hb.
  destruct (paged_new_ok op (rawctx a) rq (replicate WR_CHAIN_LEN blank_slot) Hop) as
    (it & Hnew & Hr & Hf & Hfp & Hq); [done|].
  rewrite Hnew. cbn [out_map]. unfold bind at 1, write_ctx at 1, modify at 1. cbn beta iota.
  match goal with |- exists d' c, (_ ;;; _) ?x = _ /\ _ => set (d1 := x) end.
  eassert (paged_at tid false op rq a (accepted (vd_hw d)) d1 _) as Hat.
  { split; [apply lookup_insert_eq|done| |].
    - exists it. split; simpl; try done; try lia. unfold paged_total_ops. by rewrite (r_end _ _ _ Hr), (r_beg _ _ _ Hr).
    - unfold pages_on. simpl. by rewrite app_nil_r. }
  destruct (progress_paged_at _ _ _ _ _ _ _ _ Hat) as (d2 & c2 & Hrun & Hat2 & Hwo & Hstop & _).
  pose proof (paged_at_total _ _ _ _ _ _ _ _ Hat2) as [_ Hle].
  unfold bind. rewrite Hrun, (read_ctx_run d2 a c2) by apply Hat2.
  destruct (cnt_posted_ops c2 =? ctx_total_ops c2)%nat eqn:Heqb; cbn [negb];
    [apply Nat.eqb_eq in Heqb as Hall|apply Nat.eqb_neq in Heqb as Hmore].
  - exists d2, c2. rewrite Heqb. split; [done|]. split; [done|]. split; [by exists false|]. by left.
  - eexists _, (ctx_set c2 (rdma_op_iter c2) (cnt_posted_ops c2) (cnt_finished_ops c2) true (bad c2)).
    cbn [cnt_posted_ops ctx_total_ops ctx_set]. rewrite Heqb. split; [done|].
    match goal with |- ?P /\ _ => assert P as Hat3 end.
    { destruct Hat2 as [_ (? & ? & ? & ?) (it2 & []) Hacc2]. split; [apply lookup_insert_eq|done| |done].
      exists it2. by split. }
    split; [done|]. split; [by eexists|]. right. destruct Hstop; [done|]. split; [simpl; lia|]. split; [done|].
    simpl. by rewrite Hwo.
Qed.

(** ** Rounds of progress *)

(** The device moves on ([ev]: requests leave the send queue, nothing else is posted), then the
    domain makes progress on its writes. *)
Definition write_round (ev : H -> H) : M (VerbsDomain (H:=H)) unit :=
  dev (modify ev) ;;; progress_rdma_write_ops.

Definition device_move (ev : H -> H) : Prop := forall h, accepted (ev h) = accepted h.
Definition makes_room (q : qp) (ev : H -> H) : Prop := forall h, ~ no_room q (ev h).

Lemma round_posting tid op rq a acc0 d c ev :
  posting tid op rq a acc0 [] d c -> device_move ev ->
  exists d' c', write_round ev d = Done (tt, d') /\ posting tid op rq a acc0 [] d' c' /\
    (cnt_posted_ops c <= cnt_posted_ops c')%nat /\
    (makes_room rq ev -> (cnt_posted_ops c < ctx_total_ops c -> cnt_posted_ops c < cnt_posted_ops c')%nat).
Proof.
  intros [(q & Hat) Hw] Hev.
  assert (paged_at tid q op rq a acc0 (set_hw (ev (vd_hw d)) d) c) as Hat1.
  { destruct Hat. split; [done..|]. simpl. by rewrite Hev. }
  unfold write_round. cbv [bind dev on_state modify]. unfold progress_rdma_write_ops. simpl (vd_write_ops _).
  destruct Hw as [[Hall Hq]|(Hlt & _ & Hq)].
  - rewrite Hq. cbn [length progress_write_loop]. simpl (vd_write_ops _). rewrite Hq.
    eexists _, c. split; [done|]. split; [|lia]. split; [by exists q|by left].
  - rewrite Hq. cbn [length app progress_write_loop]. simpl (vd_write_ops _). rewrite Hq. cbn [app].
    destruct (progress_paged_at _ _ _ _ _ _ _ _ Hat1) as (d2 & c2 & Hrun & Hat2 & Hwo & Hstop & Hmono & Hprog).
    pose proof (paged_at_total _ _ _ _ _ _ _ _ Hat2) as [Ht2 Hle2].
    pose proof (paged_at_total _ _ _ _ _ _ _ _ Hat1) as [Ht1 _].
    destruct Hat1 as [Hc1 (_ & _ & Hf1 & Hb1) _ _].
    unfold bind. rewrite (read_ctx_run _ a c Hc1), Hf1, Hb1. cbn [Nat.leb assert_]. cbv [ret].
    rewrite Hrun, (read_ctx_run d2 a c2) by apply Hat2. cbn [vd_hw set_hw] in Hprog.
    destruct (Nat.eqb_spec (cnt_posted_ops c2) (ctx_total_ops c2)) as [He|He]; cbn [negb].
    + eexists _, c2. split; [done|]. split; [split; [exists q|by left]|lia].
      destruct Hat2. by split.
    + exists d2, c2. split; [done|]. split.
      * split; [by exists q|]. right. destruct Hstop; [done|]. split; [lia|]. split; [done|].
        rewrite Hwo. by simpl.
      * split; [done|]. intros Hr _. destruct Hprog as [Hn|[?|?]]; [by apply Hr in Hn|lia|done].
Qed.

Lemma rounds_posting tid op rq a acc0 evs d c :
  posting tid op rq a acc0 [] d c -> Forall device_move evs ->
  exists d' c', for_each evs write_round d = Done (tt, d') /\ posting tid op rq a acc0 [] d' c' /\
    (Forall (makes_room rq) evs -> (ctx_total_ops c - cnt_posted_ops c <= length evs)%nat ->
     cnt_posted_ops c' = ctx_total_ops c').
Proof.
  revert d c. induction evs as [|ev evs IH]; intros d c Hp Hevs.
  { exists d, c. split; [done|]. split; [done|]. intros _. destruct Hp as [(q & Hat) _].
    pose proof (paged_at_total _ _ _ _ _ _ _ _ Hat). simpl. lia. }
  apply Forall_cons_1 in Hevs as [Hev Hevs].
  destruct (round_posting _ _ _ _ _ _ _ _ Hp Hev) as (d1 & c1 & Hrun & Hp1 & Hmono & Hprog).
  destruct (IH d1 c1 Hp1 Hevs) as (d2 & c2 & Hrun2 & Hp2 & Hend).
  exists d2, c2. cbn [for_each]. unfold bind. rewrite Hrun. split; [done|]. split; [done|].
  intros [Hr Hrs]%Forall_cons_1 Hlen. apply Hend; [done|].
  destruct Hp as [(q & Hat) _], Hp1 as [(q1 & Hat1) _].
  pose proof (paged_at_total _ _ _ _ _ _ _ _ Hat). pose proof (paged_at_total _ _ _ _ _ _ _ _ Hat1).
  simpl in Hlen. specialize (Hprog Hr). lia.
Qed.

(** C14: the verbs domain posts every page of a paged write exactly once and in order, however
    the send queue fills up.  A domain without waiting writes submits a paged write on the queue
    pair [rq] and then makes progress on its writes any number of times, the device moving on
    in any way in between.  No call panics or loops.  The device has then queued on [rq], beyond
    what it had, exactly the requests of the first [cnt_posted_ops] pages of the range, in page
    order, each carrying the context's [wr_id]; either these are all the pages and no write
    waits, or the device has no room for the next one and the write waits in the domain's queue.
    As many rounds as there are pages, each finding some room, post them all. *)
Theorem paged_write_posts_each_page_once tid op mq rq d a p evs :
  paged_op_ok op -> alloc_uninit (objpool_write_op d) = Done (a, p) -> vd_write_ops d = [] ->
  Forall device_move evs ->
  let pages := (pw_page_indices_end op - pw_page_indices_beg op)%nat in
  exists d' c,
    (do_submit_outbound_op tid (OWrite (WPaged op)) mq rq ;;; for_each evs write_round) d = Done (tt, d') /\
    write_ctxs d' !! a = Some c /\
    accepted (vd_hw d') = accepted (vd_hw d) ++ pages_on rq op a (pw_page_indices_beg op) (cnt_posted_ops c) /\
    ((cnt_posted_ops c = pages /\ vd_write_ops d' = []) \/
     ((cnt_posted_ops c < pages)%nat /\ no_room rq (vd_hw d') /\ vd_write_ops d' = [a])) /\
    (Forall (makes_room rq) evs -> (pages <= length evs)%nat -> cnt_posted_ops c = pages).
Proof.
  intros Hop Ha Hnone Hevs pages. destruct (submit_paged_at tid op mq rq d a p Hop Ha) as (d1 & c1 & Hrun1 & Hat1 & Hp1).
  rewrite Hnone in Hp1.
  destruct (rounds_posting _ _ _ _ _ _ _ _ Hp1 Hevs) as (d2 & c2 & Hrun2 & [(q & Hat2) Hw] & Hend).
  pose proof (paged_at_total _ _ _ _ _ _ _ _ Hat2) as [Ht2 _]. pose proof (paged_at_total _ _ _ _ _ _ _ _ Hat1) as [Ht1 _].
  exists d2, c2. unfold bind. rewrite Hrun1. split; [done|]. fold pages in Ht1, Ht2. rewrite Ht2 in Hw, Hend.
  destruct Hat2 as [Hc _ _ Hacc]. split; [done|]. split; [done|]. split; [done|].
  intros Hr Hl. apply Hend; [done|lia].
Qed.
End Posting.

(** A full send queue makes a single write panic.  When [ibv_post_send] refuses the only
    request of a single (or immediate) write with [ENOMEM], zero requests were posted and
    [advance(0)] fails its assertion [n == 1]: the worker thread panics instead of retrying. *)
Theorem single_write_enomem_panics {H} `{VerbsHw H} tid op mq rq (d : VerbsDomain (H:=H)) h' :
  (forall w, ibv_post_send rq [w] (vd_hw d) = (ENOMEM, 0%nat, h')) ->
  do_submit_outbound_op tid (OWrite (WSingle op)) mq rq d = Panic "assertion failed: n == 1".
Proof.
  intros Hfull. cbn [do_submit_outbound_op]. unfold do_submit_write.
  assert (forall p, exists b q, alloc_uninit p = Done (b, q)) as Halloc.
  { intros p. unfold alloc_uninit. destruct (op_free_list p); eauto. }
  destruct (Halloc (objpool_write_op d)) as (a & p & Ha).
  unfold bind at 1, on_state at 1. rewrite Ha.
  destruct (Halloc (objpool_wr (set_objpool_write_op p d))) as (b & q & Hb).
  unfold bind at 1, on_state at 1. rewrite Hb. unfold bind at 1, write_ctx at 1, modify at 1. cbn beta iota.
  unfold bind at 1, progress_rdma_write_op_context, bind at 1.
  erewrite read_ctx_run; [|simpl; apply lookup_insert_eq]. cbn [bad].
  cbv [dev on_state bind]. cbn [post_loop rdma_op_iter peek single_peek new_single si_done].
  cbn. rewrite Hfull. done.
Qed.

(** ** The life of a write context *)
Section Completions.
Context {H : Type} `{VerbsHw H}.
Implicit Types d : VerbsDomain (H:=H).

(** The completion of one request of the context in slot [a].  [ibv_poll_cq] documents the opcode
    for successful completions only. *)
Definition any_wc (a : nat) (qpn : Z) (x : Z * ibv_wc_opcode) : ibv_wc :=
  {| wc_wr_id := rawctx a; wc_status := x.1; wc_opcode := x.2; wc_byte_len := 0;
     wc_imm_data := 0; wc_qp_num := qpn |}.

Definition write_wc (a : nat) (qpn status : Z) : ibv_wc := any_wc a qpn (status, IBV_WC_RDMA_WRITE).

Lemma ctx_of_rawctx a : ctx_of_wr_id (rawctx a) = Some a.
Proof.
  unfold ctx_of_wr_id, rawctx. rewrite (proj2 (Z.eqb_neq _ _)) by lia. f_equal. lia.
Qed.

(** [finish c b]: one more request of [c] has completed. *)
Definition finish (c : WriteOpContext) (b : bool) : WriteOpContext :=
  ctx_set c (rdma_op_iter c) (cnt_posted_ops c) (S (cnt_finished_ops c)) (in_queue c) b.

Lemma maybe_drop_keep d a c :
  write_ctxs d !! a = Some c -> cnt_finished_ops c <> cnt_posted_ops c \/ in_queue c = true ->
  maybe_drop_write_op_context a d = Done (tt, d).
Proof.
  intros Hc Hk. cbv [maybe_drop_write_op_context bind]. rewrite (read_ctx_run d a c Hc).
  destruct (Nat.eqb_spec (cnt_finished_ops c) (cnt_posted_ops c)); cbn [negb]; [|done].
  destruct Hk as [Hk| ->]; done.
Qed.

Lemma maybe_drop_free d a c :
  write_ctxs d !! a = Some c -> cnt_finished_ops c = cnt_posted_ops c -> in_queue c = false ->
  exists d', maybe_drop_write_op_context a d = Done (tt, d') /\
    write_ctxs d' = delete a (write_ctxs d) /\ completions d' = completions d /\ conf d' = conf d /\
    op_free_list (objpool_write_op d') = a :: op_free_list (objpool_write_op d) /\
    op_free_list (objpool_wr d') = wr_chain_buffer c :: op_free_list (objpool_wr d).
Proof.
  intros Hc He Hq. cbv [maybe_drop_write_op_context bind]. rewrite (read_ctx_run d a c Hc).
  rewrite (proj2 (Nat.eqb_eq _ _) He), Hq. cbn [negb]. by eexists.
Qed.

(** One completion, while the context stays allocated. *)
Lemma write_cqe_step sh d a c qpn st :
  qpn <> ud_qp_num (ud_addr (vc_ud (conf d))) -> write_ctxs d !! a = Some c ->
  (S (cnt_finished_ops c) < ctx_total_ops c)%nat ->
  S (cnt_finished_ops c) <> cnt_posted_ops c \/ in_queue c = true ->
  let out := if st =? 0 then []
             else if bad c then []
             else [DcError (transfer_id c) (VerbsCompletionError (wc_status_str st))] in
  let d' := set_completions (completions d ++ out)
    (set_write_ctxs (<[a := finish c (negb (st =? 0) || bad c)]> (write_ctxs d)) d) in
  handle_and_push (write_wc a qpn st) (sh, d) = Done (tt, (sh, d')).
Proof.
  intros Hq Hc Hlt Hk. cbv [handle_and_push handle_cqe bind gets on_vd on_state]. cbn [snd fst].
  cbn [write_wc any_wc fst snd wc_qp_num wc_status wc_opcode]. rewrite (proj2 (Z.eqb_neq _ _) Hq).
  unfold IBV_WC_SUCCESS.
  destruct (Z.eqb_spec st 0) as [->|Hst]; cbn [negb orb].
  - cbv [handle_write_cqe bind]. cbn [write_wc any_wc fst snd wc_wr_id snd fst]. rewrite ctx_of_rawctx.
    rewrite (read_ctx_run d a c Hc), (proj2 (Nat.ltb_lt _ _) Hlt). cbn.
    rewrite app_nil_r. by destruct d.
  - cbv [handle_error_cqe bind]. cbn [write_wc any_wc fst snd wc_wr_id wc_opcode snd fst]. rewrite ctx_of_rawctx.
    rewrite (read_ctx_run d a c Hc). cbn.
    erewrite maybe_drop_keep; [|simpl; apply lookup_insert_eq|exact Hk]. cbn.
    destruct (bad c); cbn; [rewrite app_nil_r|]; by destruct d.
Qed.

(** The last completion of a context that is not queued frees it. *)
Lemma write_cqe_last sh d a c qpn st :
  qpn <> ud_qp_num (ud_addr (vc_ud (conf d))) -> write_ctxs d !! a = Some c ->
  S (cnt_finished_ops c) = ctx_total_ops c -> cnt_posted_ops c = ctx_total_ops c ->
  in_queue c = false ->
  let out := if st =? 0 then [DcTransfer (transfer_id c)]
             else if bad c then []
             else [DcError (transfer_id c) (VerbsCompletionError (wc_status_str st))] in
  exists d', handle_and_push (write_wc a qpn st) (sh, d) = Done (tt, (sh, d')) /\
    write_ctxs d' = delete a (write_ctxs d) /\ completions d' = completions d ++ out /\
    op_free_list (objpool_write_op d') = a :: op_free_list (objpool_write_op d).
Proof.
  intros Hq Hc Hlast Hpost Hin. cbv [handle_and_push handle_cqe bind gets on_vd on_state]. cbn [snd fst].
  cbn [write_wc any_wc fst snd wc_qp_num wc_status wc_opcode]. rewrite (proj2 (Z.eqb_neq _ _) Hq).
  unfold IBV_WC_SUCCESS.
  destruct (Z.eqb_spec st 0) as [->|Hst]; cbn [negb].
  - cbv [handle_write_cqe bind]. cbn [write_wc any_wc fst snd wc_wr_id snd fst]. rewrite ctx_of_rawctx.
    rewrite (read_ctx_run d a c Hc), (proj2 (Nat.ltb_ge _ _)) by lia.
    destruct (maybe_drop_free (set_write_ctxs (<[a := finish c (bad c)]> (write_ctxs d)) d) a (finish c (bad c)))
      as (d' & Hrun & Hw & Hcomp & _ & Hfree & _); [apply lookup_insert_eq|simpl; lia|done|].
    change (write_ctx a _ d) with (Done (tt, set_write_ctxs (<[a := finish c (bad c)]> (write_ctxs d)) d)).
    cbn iota beta. rewrite Hrun. cbn. eexists. split; [done|]. cbn. rewrite Hw, Hcomp. cbn.
    split; [by rewrite delete_insert_eq|done].
  - cbv [handle_error_cqe bind]. cbn [write_wc any_wc fst snd wc_wr_id wc_opcode snd fst]. rewrite ctx_of_rawctx.
    rewrite (read_ctx_run d a c Hc).
    destruct (maybe_drop_free (set_write_ctxs (<[a := finish c true]> (write_ctxs d)) d) a (finish c true))
      as (d' & Hrun & Hw & Hcomp & _ & Hfree & _); [apply lookup_insert_eq|simpl; lia|done|].
    change (write_ctx a _ d) with (Done (tt, set_write_ctxs (<[a := finish c true]> (write_ctxs d)) d)).
    cbn iota beta. rewrite Hrun. cbn. destruct (bad c); cbn; eexists; (split; [done|]); cbn;
      rewrite Hw, Hcomp; cbn; rewrite delete_insert_eq, ?app_nil_r; done.
Qed.

(** The outcome a completion status stands for. *)
Definition verdict (st : Z) : option FabricLibError :=
  if st =? 0 then None else Some (VerbsCompletionError (wc_status_str st)).

Lemma write_cqes sh d a c qpn sts :
  qpn <> ud_qp_num (ud_addr (vc_ud (conf d))) -> write_ctxs d !! a = Some c -> sts <> [] ->
  (cnt_finished_ops c + length sts)%nat = ctx_total_ops c -> cnt_posted_ops c = ctx_total_ops c ->
  in_queue c = false ->
  exists d', for_each (write_wc a qpn <$> sts) handle_and_push (sh, d) = Done (tt, (sh, d')) /\
    write_ctxs d' = delete a (write_ctxs d) /\
    completions d' = completions d ++ write_reports (transfer_id c) (bad c) (verdict <$> sts) /\
    op_free_list (objpool_write_op d') = a :: op_free_list (objpool_write_op d).
Proof.
  revert d c. induction sts as [|st [|st2 sts] IH]; intros d c Hq Hc Hne Hlen Hpost Hin; [done| |].
  - cbn [fmap list_fmap for_each]. unfold bind.
    destruct (write_cqe_last sh d a c qpn st) as (d' & -> & ? & Hcomp & ?);
      [done..|simpl in Hlen; lia|done|done|].
    exists d'. split; [done|]. split; [done|]. split; [|done]. rewrite Hcomp. simpl.
    unfold verdict. destruct (st =? 0); by rewrite ?app_nil_r.
  - assert (S (cnt_finished_ops c) < ctx_total_ops c)%nat by (simpl in Hlen; lia).
    rewrite fmap_cons. cbn [for_each]. unfold bind at 1.
    rewrite (write_cqe_step sh d a c qpn st) by (done || (left; lia)).
    cbn iota beta.
    match goal with |- exists d', for_each _ _ (sh, ?x) = _ /\ _ => set (d1 := x) end.
    destruct (IH d1 (finish c (negb (st =? 0) || bad c))) as (d' & Hrun & Hw & Hcomp & Hfree);
      [done|apply lookup_insert_eq|done|simpl in *; lia|done|done|].
    exists d'. split; [exact Hrun|]. split; [|split; [|done]].
    + rewrite Hw. unfold d1; simpl. by rewrite delete_insert_eq.
    + rewrite Hcomp. unfold d1; simpl. rewrite <- (assoc_L (++)). f_equal.
      destruct (st =? 0) eqn:Es; (eassert (verdict st = _) as -> by (unfold verdict; rewrite Es; reflexivity)); done.
Qed.

(** A completion as [ibv_poll_cq] documents it: the opcode of a successful one is the request's. *)
Definition opcode_documented (x : Z * ibv_wc_opcode) : Prop := x.1 = IBV_WC_SUCCESS -> x.2 = IBV_WC_RDMA_WRITE.

Definition is_write_op (x : Z * ibv_wc_opcode) : bool :=
  match x.2 with IBV_WC_RDMA_WRITE => true | _ => false end.

Lemma is_write_op_spec x : is_write_op x = true /\ x.2 = IBV_WC_RDMA_WRITE \/
  is_write_op x = false /\ x.2 <> IBV_WC_RDMA_WRITE.
Proof. destruct x as [st []]; (by left) || (by right). Qed.

(** A failed completion that carries another opcode is not counted: the context is unchanged, and
    at most an error for the "transfer" that is the context's address is reported. *)
Lemma other_opcode_step sh d a qpn x :
  qpn <> ud_qp_num (ud_addr (vc_ud (conf d))) -> opcode_documented x -> x.2 <> IBV_WC_RDMA_WRITE ->
  exists out, handle_and_push (any_wc a qpn x) (sh, d) = Done (tt, (sh, set_completions (completions d ++ out) d)) /\
    (out = [] \/ exists e, out = [DcError (rawctx a) e]).
Proof.
  intros Hq Hdoc Hne. destruct x as [st o]. unfold opcode_documented in Hdoc. simpl in *.
  cbv [handle_and_push handle_cqe bind gets on_vd on_state]. cbn [snd fst].
  cbn [any_wc wc_qp_num wc_status wc_opcode fst snd]. rewrite (proj2 (Z.eqb_neq _ _) Hq).
  destruct (Z.eqb_spec st IBV_WC_SUCCESS) as [Hst|Hst]; [by destruct Hne; apply Hdoc|].
  destruct o; cbn; first [done|by eexists [_]; split; [reflexivity|right; eexists]|exists []; split; [|by left]];
    rewrite app_nil_r; by destruct d.
Qed.

(** Completions of a fully posted context of which fewer than [total] carry the opcode of a write:
    the transfer is not reported, and an error is only if a failure carries that opcode. *)
Lemma miscounted_cqes sh d a c qpn l :
  qpn <> ud_qp_num (ud_addr (vc_ud (conf d))) -> write_ctxs d !! a = Some c ->
  Forall opcode_documented l -> cnt_posted_ops c = ctx_total_ops c ->
  (cnt_finished_ops c + length (filter is_write_op l) < ctx_total_ops c)%nat ->
  exists d' outs, for_each (any_wc a qpn <$> l) handle_and_push (sh, d) = Done (tt, (sh, d')) /\
    completions d' = completions d ++ outs /\ (forall tid, DcTransfer tid ∉ outs) /\
    (bad c = false -> Exists (fun x => x.1 <> 0 /\ x.2 = IBV_WC_RDMA_WRITE) l ->
     exists e, DcError (transfer_id c) e ∈ outs).
Proof.
  revert d c. induction l as [|[st o] l IH]; intros d c Hq Hc Hdoc Hpost Hlt.
  { exists d, []. rewrite app_nil_r. split; [done|]. split; [done|]. split; [set_solver|].
    intros _ He. inversion He. }
  apply Forall_cons_1 in Hdoc as [Hx Hdoc]. rewrite fmap_cons. cbn [for_each]. unfold bind at 1.
  rewrite filter_cons in Hlt.
  destruct (is_write_op_spec (st, o)) as [[Hw Ho]|[Hw Hne]]; rewrite Hw in Hlt.
  - simpl in Ho. subst o. rewrite decide_True in Hlt by done.
    fold (write_wc a qpn st). rewrite (write_cqe_step sh d a c qpn st) by (done || (simpl in Hlt; lia) || (left; simpl in Hlt; lia)).
    cbn iota beta. match goal with |- context [for_each _ _ (sh, ?x)] => set (d1 := x) end.
    destruct (IH d1 (finish c (negb (st =? 0) || bad c))) as (d' & outs & Hrun & Hcomp & Hnt & Herr);
      [done|apply lookup_insert_eq|done|done|simpl in *; lia|].
    eexists d', _. split; [exact Hrun|]. rewrite Hcomp. simpl. rewrite <- (assoc_L (++)). split; [done|].
    split; [destruct (st =? 0); [|destruct (bad c)]; set_solver|]. intros Hb He. rewrite Hb in *.
    destruct (Z.eqb_spec st 0) as [->|Hst]; [|eexists; apply list_elem_of_here].
    destruct Herr as [e He']; [done|by apply Exists_cons in He as [[? _]|He]|]. exists e. exact He'.
  - rewrite decide_False in Hlt by (by intros []).
    destruct (other_opcode_step sh d a qpn (st, o) Hq Hx Hne) as (out & -> & Hout). cbn iota beta.
    destruct (IH (set_completions (completions d ++ out) d) c) as (d' & outs & Hrun & Hcomp & Hnt & Herr); [done..|].
    exists d', (out ++ outs). split; [exact Hrun|]. rewrite Hcomp. simpl. rewrite <- (assoc_L (++)). split; [done|].
    split; [destruct Hout as [->|[e ->]]; set_solver|]. intros Hb He.
    destruct Herr as [e He']; [done|by apply Exists_cons in He as [[_ ?]|He]|]. exists e. set_solver.
Qed.

(** A failed write whose completion does not carry the opcode of a write is lost.  However many of
    them arrive, the context stays as it was (it is neither marked bad nor freed) and its transfer
    is not reported: nothing is, or, for the opcodes of sends and receives, an error for a
    "transfer" whose id is the context's address. *)
Theorem failed_opcode_misreported sh d a qpn st o n :
  qpn <> ud_qp_num (ud_addr (vc_ud (conf d))) -> st <> IBV_WC_SUCCESS -> o <> IBV_WC_RDMA_WRITE ->
  for_each (any_wc a qpn <$> replicate n (st, o)) handle_and_push (sh, d) = Done (tt, (sh,
    set_completions (completions d ++ match o with
      | IBV_WC_SEND | IBV_WC_RECV => replicate n (DcError (rawctx a) (VerbsCompletionError (wc_status_str st)))
      | _ => []
      end) d)).
Proof.
  intros Hq Hst Ho. revert d Hq. induction n as [|n IH]; intros d Hq.
  { cbn. destruct o; rewrite app_nil_r; by destruct d. }
  cbn [replicate]. rewrite fmap_cons. cbn [for_each]. unfold bind at 1.
  assert (handle_and_push (any_wc a qpn (st, o)) (sh, d) = Done (tt, (sh, set_completions (completions d ++ match o with
      | IBV_WC_SEND | IBV_WC_RECV => [DcError (rawctx a) (VerbsCompletionError (wc_status_str st))]
      | _ => []
      end) d))) as ->.
  { cbv [handle_and_push handle_cqe bind gets on_vd on_state]. cbn [snd fst].
    cbn [any_wc wc_qp_num wc_status wc_opcode fst snd].
    rewrite (proj2 (Z.eqb_neq _ _) Hq), (proj2 (Z.eqb_neq _ _) Hst).
    destruct o; cbn; rewrite ?app_nil_r; by destruct d. }
  cbn iota beta. rewrite IH by done. simpl. destruct o; rewrite <- ?(assoc_L (++)); done.
Qed.

Lemma verdicts_success sts : Forall (fun r => r = None) (verdict <$> sts) <-> Forall (fun st => st = 0) sts.
Proof.
  rewrite Forall_fmap. apply Forall_iff. intros st. unfold verdict. simpl. destruct (Z.eqb_spec st 0); naive_solver.
Qed.

(** The completions of a fully posted write.  When the [total] requests of a context complete
    (with any mix of success and failure), handling them never touches freed memory and ends
    with the context returned to its pool; if all succeed the transfer is reported exactly once,
    with the last one; otherwise exactly one error is reported for it, however many requests
    fail. *)
Theorem write_context_completes sh d a c qpn sts :
  qpn <> ud_qp_num (ud_addr (vc_ud (conf d))) -> write_ctxs d !! a = Some c -> sts <> [] ->
  cnt_finished_ops c = 0%nat -> length sts = ctx_total_ops c -> cnt_posted_ops c = ctx_total_ops c ->
  in_queue c = false -> bad c = false ->
  exists d' outs, for_each (write_wc a qpn <$> sts) handle_and_push (sh, d) = Done (tt, (sh, d')) /\
    write_ctxs d' = delete a (write_ctxs d) /\ completions d' = completions d ++ outs /\
    op_free_list (objpool_write_op d') = a :: op_free_list (objpool_write_op d) /\
    (Forall (fun st => st = 0) sts -> outs = [DcTransfer (transfer_id c)]) /\
    (~ Forall (fun st => st = 0) sts -> length (filter is_error outs) = 1%nat).
Proof.
  intros Hq Hc Hne Hf Hlen Hpost Hin Hb.
  destruct (write_cqes sh d a c qpn sts) as (d' & Hrun & Hw & Hcomp & Hfree); [done..|lia|done|done|].
  exists d', (write_reports (transfer_id c) (bad c) (verdict <$> sts)). rewrite Hb in *. repeat (split; [done|]). split.
  - intros Hall. apply write_reports_success; [by destruct sts|by apply verdicts_success].
  - intros Hn. rewrite write_reports_errors. by rewrite decide_False by by rewrite verdicts_success.
Qed.

(** Success completions of a context that still says it is queued. *)
Lemma queued_cqes sh d a c qpn n :
  qpn <> ud_qp_num (ud_addr (vc_ud (conf d))) -> write_ctxs d !! a = Some c ->
  (cnt_finished_ops c + S n)%nat = ctx_total_ops c -> in_queue c = true -> bad c = false ->
  exists d' c', for_each (write_wc a qpn <$> replicate (S n) 0) handle_and_push (sh, d) = Done (tt, (sh, d')) /\
    write_ctxs d' !! a = Some c' /\ in_queue c' = true /\
    completions d' = completions d ++ [DcTransfer (transfer_id c)] /\
    op_free_list (objpool_write_op d') = op_free_list (objpool_write_op d) /\
    vd_write_ops d' = vd_write_ops d.
Proof.
  revert d c. induction n as [|n IH]; intros d c Hq Hc Hlen Hin Hb.
  - cbn [replicate fmap list_fmap for_each]. unfold bind.
    cbv [handle_and_push handle_cqe bind gets on_vd on_state]. cbn [snd fst].
    cbn [write_wc any_wc fst snd wc_qp_num wc_status wc_opcode]. rewrite (proj2 (Z.eqb_neq _ _) Hq).
    unfold IBV_WC_SUCCESS. cbn [Z.eqb negb]. cbv [handle_write_cqe bind].
    cbn [write_wc any_wc fst snd wc_wr_id snd fst]. rewrite ctx_of_rawctx.
    rewrite (read_ctx_run d a c Hc), (proj2 (Nat.ltb_ge _ _)) by lia.
    change (write_ctx a _ d) with (Done (tt, set_write_ctxs (<[a := finish c (bad c)]> (write_ctxs d)) d)).
    cbn iota beta. erewrite maybe_drop_keep; [|simpl; apply lookup_insert_eq|by right].
    eexists _, (finish c (bad c)). split; [done|]. simpl. rewrite lookup_insert_eq. done.
  - change (replicate (S (S n)) 0) with (0 :: replicate (S n) 0). rewrite fmap_cons.
    cbn [for_each]. unfold bind at 1.
    rewrite (write_cqe_step sh d a c qpn 0) by (done || lia || by right). cbn [Z.eqb negb orb].
    cbn iota beta.
    match goal with |- exists d' c', for_each _ _ (sh, ?x) = _ /\ _ => set (d1 := x) end.
    destruct (IH d1 (finish c (bad c))) as (d' & c' & Hrun & Hw & Hi & Hcomp & Hfree & Hwo);
      [done|apply lookup_insert_eq|simpl; lia|done|done|].
    exists d', c'. split; [exact Hrun|]. split; [done|]. split; [done|].
    split; [|by split]. rewrite Hcomp. unfold d1; simpl. by rewrite app_nil_r.
Qed.

(** A write that had to wait in the queue is never freed.  If a queued context is fully posted
    by [progress_rdma_write_ops], it is removed from the queue with [in_queue] still set; when
    all its requests then complete successfully the transfer is reported, but the context and
    its chain buffer stay allocated for ever. *)
Theorem queued_write_context_leaks sh d a c d1 c1 qpn n :
  vd_write_ops d = [a] -> write_ctxs d !! a = Some c -> in_queue c = true -> bad c = false ->
  (cnt_finished_ops c <= cnt_posted_ops c)%nat ->
  progress_rdma_write_op_context a d = Done (tt, d1) -> write_ctxs d1 !! a = Some c1 ->
  vd_write_ops d1 = [a] -> in_queue c1 = true -> bad c1 = false ->
  cnt_posted_ops c1 = ctx_total_ops c1 -> (cnt_finished_ops c1 + S n)%nat = ctx_total_ops c1 ->
  qpn <> ud_qp_num (ud_addr (vc_ud (conf d1))) ->
  exists d2 d3 c3, progress_rdma_write_ops d = Done (tt, d2) /\ vd_write_ops d2 = [] /\
    for_each (write_wc a qpn <$> replicate (S n) 0) handle_and_push (sh, d2) = Done (tt, (sh, d3)) /\
    completions d3 = completions d2 ++ [DcTransfer (transfer_id c1)] /\
    write_ctxs d3 !! a = Some c3 /\ vd_write_ops d3 = [] /\
    op_free_list (objpool_write_op d3) = op_free_list (objpool_write_op d2).
Proof.
  intros Hq Hc Hin Hb Hle Hrun Hc1 Hq1 Hin1 Hb1 Hpost Hlen Hqpn.
  assert (progress_rdma_write_ops d = Done (tt, set_write_ops [] d1)) as Hpr.
  { unfold progress_rdma_write_ops. rewrite Hq. cbn [length progress_write_loop]. rewrite Hq.
    unfold bind at 1. rewrite (read_ctx_run d a c Hc). unfold bind at 1.
    rewrite (proj2 (Nat.leb_le _ _) Hle). cbn [assert_]. cbv [ret]. rewrite Hb.
    unfold bind. rewrite Hrun, (read_ctx_run d1 a c1 Hc1), Hpost, Nat.eqb_refl. done. }
  destruct (queued_cqes sh (set_write_ops [] d1) a c1 qpn n) as (d3 & c3 & Hrun3 & Hc3 & _ & Hcomp & Hfree & Hwo);
    [done..|].
  exists (set_write_ops [] d1), d3, c3. done.
Qed.
End Completions.

(** ** Peers that are still connecting *)
Section Connecting.
Context {H : Type} `{VerbsHw H}.
Implicit Types d : VerbsDomain (H:=H).

Lemma submit_connecting tid op a d peer ps pg :
  vd_peers d !! a = Some peer -> peer_state peer = Connecting ps pg ->
  submit_outbound_op tid a op d =
    Done (tt, set_peers (<[a := set_peer_state peer (Connecting (ps ++ [(tid, op)]) pg)]> (vd_peers d)) d).
Proof. intros Hp Hs. cbv [submit_outbound_op bind gets]. by rewrite Hp, Hs. Qed.

Lemma set_peers_twice (m m' : gmap DomainAddress Peer) d : set_peers m (set_peers m' d) = set_peers m d.
Proof. by destruct d. Qed.

Lemma submits_connecting ops a d peer ps pg :
  vd_peers d !! a = Some peer -> peer_state peer = Connecting ps pg ->
  for_each ops (fun '(tid, op) => submit_outbound_op tid a op) d =
    Done (tt, set_peers (<[a := set_peer_state peer (Connecting (ps ++ ops) pg)]> (vd_peers d)) d).
Proof.
  revert d peer ps. induction ops as [|[tid op] ops IH]; intros d peer ps Hp Hs.
  - cbn [for_each]. cbv [ret]. rewrite app_nil_r. rewrite insert_id; [by destruct d|].
    rewrite Hp. f_equal. destruct peer; simpl in *. by subst.
  - cbn [for_each]. unfold bind. rewrite (submit_connecting _ _ _ _ _ _ _ Hp Hs). cbn iota beta.
    erewrite IH; [|simpl; apply lookup_insert_eq|done]. rewrite set_peers_twice. simpl.
    rewrite insert_insert_eq, <- (assoc_L (++)). done.
Qed.

(** Operations for a peer that is still connecting are neither lost nor reordered.  Submitting
    [ops] to a connecting peer only queues them (nothing is posted and no completion is
    produced), behind what was queued before; when the handshake completes, exactly the queued
    operations are submitted, in submission order, on the peer's queue pairs. *)
Theorem connecting_submissions_flushed_in_order ops a d peer ps :
  vd_peers d !! a = Some peer -> peer_state peer = Connecting ps [] -> connecting_peer_groups d = ∅ ->
  exists d', for_each ops (fun '(tid, op) => submit_outbound_op tid a op) d = Done (tt, d') /\
    vd_hw d' = vd_hw d /\ completions d' = completions d /\ vd_write_ops d' = vd_write_ops d /\
    exists peer', vd_peers d' !! a = Some peer' /\
    (forall d2, for_each (ps ++ ops) (fun '(tid, op) =>
        do_submit_outbound_op tid op (rc_qp (msg_rc peer)) (rc_qp (rma_rc peer)))
        (set_peers (<[a := set_peer_state peer Established]> (vd_peers d)) d) = Done (tt, d2) ->
      connecting_peer_groups d2 = ∅ ->
      establish_peer a peer' d' = Done (tt, d2)).
Proof.
  intros Hp Hs Hg. eexists. split; [by apply submits_connecting with (pg := [])|].
  split; [done|]. split; [done|]. split; [done|]. eexists. split; [simpl; apply lookup_insert_eq|].
  intros d2 Hrun Hg2. cbv [establish_peer insert_peer bind modify gets]. cbn [set_peer_state peer_state].
  rewrite set_peers_twice. simpl. rewrite insert_insert_eq.
  change (set_peer_state (set_peer_state peer (Connecting (ps ++ ops) [])) Established)
    with (set_peer_state peer Established).
  rewrite Hrun, Hg2. unfold connected_groups. rewrite map_to_list_empty. cbn.
  cbv [ret]. rewrite fmap_empty. destruct d2; simpl in *; by subst.
Qed.

Lemma scatter_peers_known addrs qps pending ctx d :
  Forall2 (fun a q => exists addr peer, a = Some addr /\ vd_peers d !! addr = Some peer /\
    rc_qp (rma_rc peer) = q) addrs qps ->
  forall acc, scatter_peers addrs acc pending ctx d = Done (Ok (acc ++ qps, pending, ctx), d).
Proof.
  induction 1 as [|a q addrs qps (addr & peer & -> & Hp & Hq) _ IH]; intros acc; simpl.
  - by rewrite app_nil_r.
  - cbv [bind unwrap ret gets]. rewrite Hp, IH, Hq. by rewrite <- (assoc_L (++)).
Qed.

(** A group write does not wait for known peers that are still connecting.  When every target
    of a group write without a handle is a known peer, whatever its state, the write is posted
    at once on the peers' queue pairs, while a single write to the same connecting peer is
    queued until the handshake completes. *)
Theorem group_write_ignores_connecting tid op qps addr d peer ps pg w :
  Forall2 (fun a q => exists addr peer, a = Some addr /\ vd_peers d !! addr = Some peer /\
    rc_qp (rma_rc peer) = q) (peer_addr_iter op) qps ->
  Some addr ∈ peer_addr_iter op -> vd_peers d !! addr = Some peer ->
  peer_state peer = Connecting ps pg ->
  vd_submit_group_write tid None op d = do_submit_group_write tid qps op d /\
  (exists d', submit_outbound_op tid addr (OWrite w) d = Done (tt, d') /\ vd_hw d' = vd_hw d).
Proof.
  intros Hall _ Hp Hs. split.
  - cbn [vd_submit_group_write]. unfold bind at 1.
    rewrite (scatter_peers_known _ qps) by done. cbn. by rewrite bool_decide_eq_true_2 by done.
  - eexists. split; [by apply submit_connecting|done].
Qed.
End Connecting.

(** ** A device for the witnesses

    A send queue of bounded room, a bounded number of queue pairs, and datagram buffers that hold
    the messages received. *)
Record Toy := {
  t_room : nat; t_accepted : list (qp * wr_slot); t_next : Z; t_qps : nat; t_cq : list ibv_wc;
  t_msgs : gmap Z PeerHandshakeInfo;
}.

Definition toy_use_qp (t : Toy) : Toy :=
  {| t_room := t_room t; t_accepted := t_accepted t; t_next := t_next t + 1;
     t_qps := pred (t_qps t); t_cq := t_cq t; t_msgs := t_msgs t |}.

Definition toy_accept (n : nat) (l : list (qp * wr_slot)) (t : Toy) : Toy :=
  {| t_room := t_room t - n; t_accepted := t_accepted t ++ l; t_next := t_next t; t_qps := t_qps t;
     t_cq := t_cq t; t_msgs := t_msgs t |}.

#[export] Instance toy_hw : VerbsHw Toy := {|
  ibv_post_send := fun q l t =>
    if (length l <=? t_room t)%nat then (0, 0%nat, toy_accept (length l) (pair q <$> l) t)
    else (ENOMEM, t_room t, toy_accept (t_room t) (pair q <$> take (t_room t) l) t);
  ibv_post_send_ud := fun _ _ t => (0, t);
  ibv_post_srq_recv := fun _ _ t => (0, t);
  ibv_post_recv := fun _ _ t => (0, t);
  ibv_poll_cq := fun n t =>
    (Z.of_nat (length (take n (t_cq t))), take n (t_cq t),
     {| t_room := t_room t; t_accepted := t_accepted t; t_next := t_next t; t_qps := t_qps t;
        t_cq := drop n (t_cq t); t_msgs := t_msgs t |});
  ibv_reg_mr := fun _ _ _ t => (Some {| lkey := 11; rkey := 12 |}, t);
  ibv_dereg_mr := fun _ t => t;
  ibv_create_qp := fun _ _ t =>
    match t_qps t with O => (None, t) | S _ => (Some (t_next t, t_next t), toy_use_qp t) end;
  ibv_modify_qp := fun _ _ _ t => (0, t);
  ibv_create_ah := fun _ _ t => (Some 1, t);
  last_os_error := fun _ => 12;
  wc_status_str := fun _ => "error"%string;
  postcard_to_slice := fun _ _ _ t => (Some 64, t);
  postcard_from_bytes := fun ptr _ t => t_msgs t !! ptr;
|}.

#[export] Program Instance toy_laws : VerbsHwLaws Toy := {|
  accepted := t_accepted;
  no_room := fun _ t => t_room t = 0%nat;
|}.
Next Obligation.
  intros q l h r cnt h'. simpl. destruct (Nat.leb_spec (length l) (t_room h)); intros; simplify_eq.
  - by left.
  - right. split; [done|]. split; [lia|]. simpl. split; [done|]. split; [lia|done].
Qed.

(** The device has finished [n] requests. *)
Definition toy_drain (n : nat) (t : Toy) : Toy :=
  {| t_room := t_room t + n; t_accepted := t_accepted t; t_next := t_next t; t_qps := t_qps t;
     t_cq := t_cq t; t_msgs := t_msgs t |}.

Definition toy_domain (room qps : nat) : VerbsDomain (H:=Toy) := {|
  conf := {| vc_name := "mlx5_0"; vc_port_num := 1; vc_gid_index := 3; vc_lid := 7;
             vc_gid := replicate 16 0; vc_mtu := 4096; vc_is_infiniband := true;
             vc_link_speed := 400; vc_pd := 3; vc_cq := 4; vc_msg_srq := 1; vc_rma_srq := 2;
             vc_ud := {| ud_addr := example_ud; ud_qp := 99 |};
             vc_addr := address_of_ud example_ud |};
  vd_hw := {| t_room := room; t_accepted := []; t_next := 200; t_qps := qps; t_cq := [];
              t_msgs := ∅ |};
  vd_peers := ∅; connecting_peer_groups := ∅; vd_peer_groups := ∅; local_mr_map := ∅;
  objpool_write_op := {| op_chunks := 0; op_chunk_size := 1024; next_in_last := 0; op_free_list := [] |};
  objpool_wr := {| op_chunks := 0; op_chunk_size := 1024; next_in_last := 0; op_free_list := [] |};
  objpool_pending := {| op_chunks := 0; op_chunk_size := 1024; next_in_last := 0; op_free_list := [] |};
  write_ctxs := ∅; pending_ctxs := ∅; recv_ops := []; send_ops := []; vd_write_ops := [];
  completions := []; ud_mempool := mp_new 65536 4096 4; ud_mempool_lkey := 11 |}.

Lemma six_pages_ok : paged_op_ok six_pages.
Proof. repeat split; simpl; lia. Qed.

(** Six pages on a send queue with room for two, one request finishing before each round. *)
Lemma paged_write_posts_each_page_once_witness :
  exists d', (do_submit_outbound_op 7 (OWrite (WPaged six_pages)) 5 6 ;;;
     for_each (replicate 6 (toy_drain 1)) write_round) (toy_domain 2 2) = Done (tt, d') /\
    t_accepted (vd_hw d') = pages_on 6 six_pages 0 1 6 /\ vd_write_ops d' = [].
Proof.
  destruct (paged_write_posts_each_page_once 7 six_pages 5 6 (toy_domain 2 2) 0
    {| op_chunks := 1; op_chunk_size := 1024; next_in_last := 1; op_free_list := [] |} (replicate 6 (toy_drain 1)))
    as (d' & c & Hrun & Hc & Hacc & Hw & Hend);
    [apply six_pages_ok|reflexivity|reflexivity|by apply Forall_replicate|].
  cbn [pw_page_indices_end pw_page_indices_beg six_pages] in *.
  assert (cnt_posted_ops c = 6%nat) as He.
  { apply Hend; [apply Forall_replicate; intros h; simpl; lia|simpl; lia]. }
  rewrite He in Hacc, Hw. exists d'. split; [exact Hrun|]. split; [exact Hacc|]. destruct Hw as [[_ ?]|[? _]]; [done|lia].
Defined.

Definition one_write : SingleWriteOp := {|
  sw_src_ptr := 4096; sw_src_desc := 3; sw_src_offset := 0; sw_length := 64; sw_imm_data := None;
  sw_dst_ptr := 8192; sw_dst_rkey := 4; sw_dst_offset := 0 |}.

Lemma single_write_enomem_panics_witness :
  do_submit_outbound_op 7 (OWrite (WSingle one_write)) 5 6 (toy_domain 0 2) =
    Panic "assertion failed: n == 1".
Proof.
  apply (single_write_enomem_panics 7 one_write 5 6 (toy_domain 0 2) (vd_hw (toy_domain 0 2))). reflexivity.
Defined.

Definition submitted (room : nat) : VerbsDomain (H:=Toy) :=
  state_of (toy_domain 0 0) (do_submit_outbound_op 7 (OWrite (WPaged six_pages)) 5 6 (toy_domain room 2)).

Lemma write_context_completes_witness :
  exists d' outs, for_each (write_wc 0 300 <$> [0; 5; 0; 5; 0; 0]) handle_and_push
      (new_map, submitted 100) = Done (tt, (new_map, d')) /\
    write_ctxs d' = delete 0%nat (write_ctxs (submitted 100)) /\ completions d' = [] ++ outs /\
    op_free_list (objpool_write_op d') = [0%nat] /\ length (filter is_error outs) = 1%nat.
Proof.
  destruct (write_context_completes new_map (submitted 100) 0
    (default {| transfer_id := 0; rdma_op_iter := ISingle (new_single one_write 0 [] 0);
       wr_chain_buffer := 0; ctx_total_ops := 0; cnt_posted_ops := 0; cnt_finished_ops := 0;
       in_queue := false; bad := false |} (write_ctxs (submitted 100) !! 0%nat)) 300 [0; 5; 0; 5; 0; 0])
    as (d' & outs & H1 & H2 & H3 & H4 & _ & H6);
    [vm_compute; congruence|vm_compute; reflexivity|done|vm_compute; reflexivity..|].
  exists d', outs. repeat (split; [first [exact H1|exact H2|exact H3|exact H4]|]).
  apply H6. intros Hall. repeat (apply Forall_cons_1 in Hall as [? Hall]). done.
Defined.

Lemma failed_opcode_misreported_witness :
  for_each (any_wc 0 300 <$> replicate 6 (5, IBV_WC_OTHER 1)) handle_and_push (new_map, submitted 100) =
    Done (tt, (new_map, set_completions [] (submitted 100))).
Proof.
  apply (failed_opcode_misreported new_map (submitted 100) 0 300 5 (IBV_WC_OTHER 1) 6);
    [vm_compute; congruence|discriminate|discriminate].
Defined.

Definition blank_ctx : WriteOpContext :=
  {| transfer_id := 0; rdma_op_iter := ISingle (new_single one_write 0 [] 0); wr_chain_buffer := 0;
     ctx_total_ops := 0; cnt_posted_ops := 0; cnt_finished_ops := 0; in_queue := false; bad := false |}.

(** A submission that filled the queue, after which the device has room again. *)
Definition queued : VerbsDomain (H:=Toy) := set_hw (vd_hw (toy_domain 100 0)) (submitted 4).
Definition unqueued : VerbsDomain (H:=Toy) :=
  state_of (toy_domain 0 0) (progress_rdma_write_op_context 0 queued).

Lemma queued_write_context_leaks_witness :
  exists d2 d3 c3, progress_rdma_write_ops queued = Done (tt, d2) /\ vd_write_ops d2 = [] /\
    for_each (write_wc 0 300 <$> replicate 6 0) handle_and_push (new_map, d2) = Done (tt, (new_map, d3)) /\
    completions d3 = completions d2 ++ [DcTransfer 7] /\ write_ctxs d3 !! 0%nat = Some c3 /\
    vd_write_ops d3 = [] /\ op_free_list (objpool_write_op d3) = op_free_list (objpool_write_op d2).
Proof.
  assert (transfer_id (default blank_ctx (write_ctxs unqueued !! 0%nat)) = 7) as <- by reflexivity.
  apply (queued_write_context_leaks new_map queued 0 (default blank_ctx (write_ctxs queued !! 0%nat))
    unqueued (default blank_ctx (write_ctxs unqueued !! 0%nat)) 300 5);
    try (vm_compute; reflexivity); [vm_compute; lia|vm_compute; congruence].
Defined.

(** Two peers the domain has not connected to yet. *)
Definition peer_a : DomainAddress := address_of_ud example_ud.
Definition peer_b : DomainAddress := address_of_ud
  {| ud_gid := ud_gid example_ud; ud_lid := 9; ud_qp_num := 33; ud_qkey := 44 |}.

Definition connecting : VerbsDomain (H:=Toy) :=
  state_of (toy_domain 0 0) (submit_outbound_op 7 peer_a (OWrite (WSingle one_write)) (toy_domain 10 4)).
Definition connecting_peer : Peer :=
  default {| peer_ud_addr := example_ud; peer_ah := 0;
             msg_rc := {| rc_addr := {| rc_gid := []; rc_lid := 0; rc_qp_num := 0; rc_psn := 0 |}; rc_qp := 0 |};
             rma_rc := {| rc_addr := {| rc_gid := []; rc_lid := 0; rc_qp_num := 0; rc_psn := 0 |}; rc_qp := 0 |};
             peer_state := Established |} (vd_peers connecting !! peer_a).

Lemma connecting_submissions_flushed_in_order_witness :
  exists d', for_each [(8, OWrite (WSingle one_write))] (fun '(tid, op) => submit_outbound_op tid peer_a op)
      connecting = Done (tt, d') /\
    vd_hw d' = vd_hw connecting /\ completions d' = [] /\
    exists peer', vd_peers d' !! peer_a = Some peer' /\ is_Some (match establish_peer peer_a peer' d' with
      | Done (_, d2) => Some (t_accepted (vd_hw d2)) | _ => None end).
Proof.
  destruct (connecting_submissions_flushed_in_order [(8, OWrite (WSingle one_write))] peer_a connecting
    connecting_peer [(7, OWrite (WSingle one_write))]) as (d' & H1 & H2 & H3 & _ & peer' & H4 & H5);
    [vm_compute; reflexivity..|].
  exists d'. split; [exact H1|]. split; [exact H2|]. split; [exact H3|]. exists peer'. split; [exact H4|].
  eassert (for_each _ _ _ = Done (tt, _)) as Hrun; [|rewrite (H5 _ Hrun); [by eexists|]].
  - vm_compute. reflexivity.
  - vm_compute. reflexivity.
Defined.

Definition scatter_to (l : list DomainAddress) : GroupWriteOp := GScatter {|
  sg_domain_idx := 0; sg_src_ptr := 4096; sg_src_desc := 3; sg_imm_data := None;
  sg_dsts := (fun a => Build_ScatterTarget (Build_MemoryRegionDescriptor 8192 [(a, 21)]) 64 0 0) <$> l;
  sg_dst_beg := 0; sg_dst_end := length l; sg_byte_shards := 1; sg_byte_shard_idx := 0 |}.

Lemma group_write_ignores_connecting_witness :
  vd_submit_group_write 9 None (scatter_to [peer_a]) connecting =
    do_submit_group_write 9 [rc_qp (rma_rc connecting_peer)] (scatter_to [peer_a]) connecting /\
  exists d', submit_outbound_op 9 peer_a (OWrite (WSingle one_write)) connecting = Done (tt, d') /\
    vd_hw d' = vd_hw connecting.
Proof.
  apply (group_write_ignores_connecting 9 (scatter_to [peer_a]) [rc_qp (rma_rc connecting_peer)]
    peer_a connecting connecting_peer [(7, OWrite (WSingle one_write))] []).
  - constructor; [|constructor]. exists peer_a, connecting_peer. split; [reflexivity|].
    split; [vm_compute; reflexivity|reflexivity].
  - apply list_elem_of_here.
  - vm_compute; reflexivity.
  - vm_compute; reflexivity.
Defined.

(** A group write that fails half way leaves a dangling reference.  Two unknown peers are
    addressed and the device has queue pairs for the first only: the write is reported as
    failed, but the first peer keeps a pointer to the context that was allocated and never
    initialised, and the handshake of that peer reads it. *)
Theorem failed_group_write_leaves_uninit_context :
  exists d, vd_submit_group_write 9 None (scatter_to [peer_a; peer_b]) (toy_domain 10 3) = Done (tt, d) /\
    (exists e, completions d = [DcError 9 e]) /\ pending_ctxs d = ∅ /\
    forall msg_qpn msg_psn rma_qpn rma_psn,
    handle_peer_handshake {| hi_ud_addr := example_ud; hi_lid := 7; hi_gid := replicate 16 0;
        hi_msg_qp_num := msg_qpn; hi_msg_psn := msg_psn; hi_rma_qp_num := rma_qpn;
        hi_rma_psn := rma_psn |} d = Panic "use of an uninitialised PendingGroupWriteOp".
Proof.
  eexists. split; [vm_compute; reflexivity|]. split; [by eexists|]. split; [reflexivity|].
  intros. vm_compute. reflexivity.
Qed.
