(* ===== verification/VerbsGroup.v ===== *)
(** * A domain group of verbs domains

    The plans of the group composed with what each verbs domain does with its share: what a
    paged request makes the cards post, and what the group reports when they complete it. *)
From stdpp Require Import prelude gmap strings list.
From S2P Require Import Prelude Api ImmCount Sharding Provider DomainGroup DomainGroupSpec Completion WritePlan GroupShares.
From S2P Require Import Utils VerbsRdmaOp VerbsQp VerbsDomain VerbsSpec.
Local Open Scope Z_scope.

Section Cards.
Context {H : Type} `{VerbsHwLaws H} (fuel : nat).
#[local] Instance card_domain : RdmaDomain (VerbsDomain (H:=H)) := verbs_domain fuel.
#[local] Instance card_laws : RdmaDomainLaws (VerbsDomain (H:=H)) := verbs_laws fuel.

Definition op_pages (op : PagedWriteOp) : nat := (pw_page_indices_end op - pw_page_indices_beg op)%nat.

(** The share of a domain: its card has queued, on the queue pair [q], the first pages of the share
    in order, in a context that no completion has touched.  Posting stopped at the end of the
    share, or because the card has no room, and then the context waits among those the domain
    progresses.  Nothing is reported yet. *)
Record share_on (tid : TransferId) (q : qp) (op : PagedWriteOp) (a : nat) (c : WriteOpContext)
    (d d' : VerbsDomain (H:=H)) : Prop := {
  sh_ctx : write_ctxs d' !! a = Some c;
  sh_total : ctx_total_ops c = op_pages op;
  sh_fresh : fresh_ctx tid (negb (cnt_posted_ops c =? op_pages op)%nat) c;
  sh_accepted : accepted (vd_hw d') = accepted (vd_hw d) ++
    pages_on q op a (pw_page_indices_beg op) (cnt_posted_ops c);
  sh_stop : (cnt_posted_ops c = op_pages op /\ vd_write_ops d' = vd_write_ops d) \/
    ((cnt_posted_ops c < op_pages op)%nat /\ no_room q (vd_hw d') /\ vd_write_ops d' = vd_write_ops d ++ [a]);
  sh_silent : completions d' = completions d /\ conf d' = conf d;
}.

(** When no other write waits, rounds of progress that find room on the card, as many as the share
    has pages, queue all of it. *)
Definition share_finishes (q : qp) (op : PagedWriteOp) (a : nat) (d d' : VerbsDomain (H:=H)) : Prop :=
  forall evs, vd_write_ops d = [] -> Forall device_move evs -> Forall (makes_room q) evs ->
    (op_pages op <= length evs)%nat ->
    exists d'', for_each evs write_round d' = Done (tt, d'') /\ vd_write_ops d'' = [] /\
      accepted (vd_hw d'') = accepted (vd_hw d) ++ pages_on q op a (pw_page_indices_beg op) (op_pages op).

Definition share_posted (tid : TransferId) (dst : DomainAddress) (op : PagedWriteOp) (d d' : VerbsDomain (H:=H)) : Prop :=
  exists peer a c, vd_peers d !! dst = Some peer /\
    share_on tid (rc_qp (rma_rc peer)) op a c d d' /\ share_finishes (rc_qp (rma_rc peer)) op a d d'.

(** The domain has a queue pair connected to [a]. *)
Definition connected_to (a : DomainAddress) (d : VerbsDomain (H:=H)) : Prop :=
  exists peer, vd_peers d !! a = Some peer /\ peer_state peer = Established.

Lemma submit_share tid a op d :
  connected_to a d -> paged_op_ok op ->
  exists d', submit_outbound_op tid a (OWrite (WPaged op)) d = Done (tt, d') /\ share_posted tid a op d d'.
Proof.
  intros (peer & Hpeer & Hst) Hop. unfold submit_outbound_op. cbv [bind gets]. rewrite Hpeer, Hst.
  assert (exists b p, alloc_uninit (objpool_write_op d) = Done (b, p)) as (b & p & Ha)
    by (unfold alloc_uninit; destruct (op_free_list _); eauto).
  destruct (submit_paged_at tid op (rc_qp (msg_rc peer)) (rc_qp (rma_rc peer)) d b p Hop Ha)
    as (d' & c & Hrun & Hat & Hpost).
  assert (silent (completions d) (conf d) d') as [? ?] by (by eapply do_submit_write_silent).
  pose proof (paged_at_total _ _ _ _ _ _ _ _ Hat) as [Ht _]. fold (op_pages op) in Ht.
  exists d'. split; [done|]. exists peer, b, c. split; [done|]. split.
  - destruct Hat as [Hc Hf _ Hacc], Hpost as [_ Hw]. rewrite Ht in *. by split.
  - intros evs Hnone Hm Hr Hl. rewrite Hnone in Hpost.
    destruct (rounds_posting _ _ _ _ _ _ _ _ Hpost Hm) as (d'' & c'' & Hrun'' & [(q & Hat'') Hw] & Hend).
    pose proof (paged_at_total _ _ _ _ _ _ _ _ Hat'') as [Ht'' _]. fold (op_pages op) in Ht''.
    assert (cnt_posted_ops c'' = op_pages op) as He by (rewrite <- Ht''; apply Hend; [done|lia]).
    exists d''. split; [done|]. split; [destruct Hw as [[_ ?]|[? _]]; [done|lia]|].
    by rewrite (pa_accepted _ _ _ _ _ _ _ _ Hat''), He.
Qed.

(** The plan of a request reaches the cards. *)
Lemma paged_shares_posted tid r tx n desc (g : DomainGroup (VerbsDomain (H:=H))) :
  group_wf n g -> descs_are (pr_src_mr r) desc g ->
  length (addr_rkey_list (pr_dst_mr r)) = n ->
  length (pr_src_page_indices r) = length (pr_dst_page_indices r) ->
  (forall i d dst, domains g !! i = Some d -> addr_rkey_list (pr_dst_mr r) !! i = Some dst -> connected_to dst.1 d) ->
  let plan := request_plan n r g in
  exists ds, submit_paged_transfer_request tid r tx g = Done (Ok tt, set_domains ds
      (set_rr_next ((rr_next g + length plan) mod n)
        (DomainGroup.set_write_ops (<[tid := new_ctx (length plan) tx]> (write_ops g)) g))) /\
    (forall i range, (i, range) ∈ plan -> exists d d' dst, domains g !! i = Some d /\ ds !! i = Some d' /\
      addr_rkey_list (pr_dst_mr r) !! i = Some dst /\ share_posted tid dst.1 (page_share r range (desc i) dst.2) d d') /\
    (forall i, i ∉ plan.*1 -> ds !! i = domains g !! i).
Proof.
  intros Hwf Hd Hl Hp Hcon. apply (paged_request_posted (share_posted tid)); [done..|].
  intros i d dst range Hdi Hdst Hr1 Hr2 op. apply submit_share; [by eapply Hcon|done].
Qed.

(** C6: a paged request makes the cards post every page exactly once.  On a well-formed group
    of verbs domains that have the source region registered and are connected to their
    counterparts, the submission succeeds and splits the pages into consecutive ranges, one per
    domain of the plan.  The card of each of these domains has queued, after what it had and on
    the queue pair of its own counterpart, the writes of the first pages of the range in order,
    with its own local descriptor and the key of the counterpart; it stopped at the end of the
    range, or because it has no room, and then the write waits in the domain's queue.  If no
    other write waits there, rounds of progress that find room, as many as the range has pages,
    post the whole range.  The other domains are unchanged, and the group expects one report per
    domain of the plan. *)
Theorem paged_request_reaches_cards tid r tx n desc (g : DomainGroup (VerbsDomain (H:=H))) :
  group_wf n g -> descs_are (pr_src_mr r) desc g ->
  length (addr_rkey_list (pr_dst_mr r)) = n ->
  length (pr_src_page_indices r) = length (pr_dst_page_indices r) ->
  (forall i d dst, domains g !! i = Some d -> addr_rkey_list (pr_dst_mr r) !! i = Some dst -> connected_to dst.1 d) ->
  exists plan g', submit_paged_transfer_request tid r tx g = Done (Ok tt, g') /\
    NoDup plan.*1 /\ tiles 0 (length (pr_src_page_indices r)) plan.*2 /\
    write_ops g' = <[tid := new_ctx (length plan) tx]> (write_ops g) /\
    (forall i range, (i, range) ∈ plan -> exists d d' dst, domains g !! i = Some d /\ domains g' !! i = Some d' /\
      addr_rkey_list (pr_dst_mr r) !! i = Some dst /\ share_posted tid dst.1 (page_share r range (desc i) dst.2) d d') /\
    (forall i, i ∉ plan.*1 -> domains g' !! i = domains g !! i).
Proof.
  intros Hwf Hd Hl Hp Hcon.
  destruct (paged_shares_posted tid r tx n desc g Hwf Hd Hl Hp Hcon) as (ds & Hrun & Hin & Hout).
  destruct (page_plan_ok n (rr_next g) (length (pr_src_page_indices r))) as (_ & Hnd & _ & Htiles);
    [pose proof (wf_rr _ _ Hwf); lia|].
  eexists (request_plan n r g), _. repeat (split; [done|]). done.
Qed.

(** *** Completions *)

(** The completions of the requests that the card has queued between [d] and [d'], with the given
    statuses and opcodes. *)
Definition answers (qpn : Z) (d d' : VerbsDomain (H:=H)) (xs : list (Z * ibv_wc_opcode)) : list ibv_wc :=
  zip_with (fun w x => {| wc_wr_id := wr_id (slot_wr w.2); wc_status := x.1; wc_opcode := x.2;
      wc_byte_len := 0; wc_imm_data := 0; wc_qp_num := qpn |})
    (drop (length (accepted (vd_hw d))) (accepted (vd_hw d'))) xs.

Lemma answers_of_share q op a qpn (d d' : VerbsDomain (H:=H)) xs :
  accepted (vd_hw d') = accepted (vd_hw d) ++ pages_on q op a (pw_page_indices_beg op) (length xs) ->
  answers qpn d d' xs = any_wc a qpn <$> xs.
Proof.
  intros Hacc. unfold answers. rewrite Hacc, drop_app_length. clear Hacc. unfold pages_on.
  generalize (pw_page_indices_beg op).
  induction xs as [|x xs IH]; intros b; [done|]. cbn [length seq fmap list_fmap zip_with snd]. f_equal. apply IH.
Qed.

(** All the requests succeeded. *)
Definition all_ok (xs : list (Z * ibv_wc_opcode)) : Prop := Forall (fun x => x.1 = IBV_WC_SUCCESS) xs.

(** A request failed and its completion has the opcode of a write. *)
Definition seen_failure (xs : list (Z * ibv_wc_opcode)) : Prop :=
  Exists (fun x => x.1 <> IBV_WC_SUCCESS /\ x.2 = IBV_WC_RDMA_WRITE) xs.

(** What the domain queues for its share. *)
Definition share_outcome (tid : TransferId) (xs : list (Z * ibv_wc_opcode)) (part : list DomainCompletionEntry) : Prop :=
  ((all_ok xs /\ part = [DcTransfer tid]) \/ (~ all_ok xs /\ failed_part tid part)) /\
  (seen_failure xs -> exists e, DcError tid e ∈ part).

Lemma no_transfer_reports tid outs : DcTransfer tid ∉ outs -> reports tid outs = 0%nat.
Proof.
  induction outs as [|c outs IH]; [done|]. intros Hn. rewrite reports_cons, IH by set_solver.
  rewrite decide_False; [done|]. intros ->. set_solver.
Qed.

(** Either every completion has the opcode of a write, or some has not. *)
Lemma opcodes_cases xs :
  xs = (fun st => (st, IBV_WC_RDMA_WRITE)) <$> xs.*1 \/
  ((length (filter is_write_op xs) < length xs)%nat /\ (Forall opcode_documented xs -> ~ all_ok xs)).
Proof.
  induction xs as [|x xs IH]; [by left|]. rewrite filter_cons.
  pose proof (length_filter is_write_op xs) as Hl.
  destruct (is_write_op_spec x) as [[Hw Hx]|[Hw Hx]]; rewrite Hw.
  - rewrite decide_True by done. destruct IH as [IH|[IH1 IH2]].
    + left. rewrite !fmap_cons, <- IH. f_equal. destruct x; simpl in *; by subst.
    + right. split; [simpl; lia|]. intros [_ Hd]%Forall_cons_1 [_ Ho]%Forall_cons_1. by apply IH2.
  - right. rewrite decide_False by (by intros []). split; [simpl; lia|].
    intros [Hd _]%Forall_cons_1 [Ho _]%Forall_cons_1. by apply Hx, Hd.
Qed.

(** The completions of a share that is fully posted. *)
Lemma share_answered tid dst op qpn xs sh (d d' : VerbsDomain (H:=H)) :
  share_posted tid dst op d d' -> (0 < op_pages op)%nat -> length xs = op_pages op ->
  length (accepted (vd_hw d')) = (length (accepted (vd_hw d)) + op_pages op)%nat ->
  qpn <> ud_qp_num (ud_addr (vc_ud (conf d))) -> Forall opcode_documented xs ->
  exists d'' part, for_each (answers qpn d d' xs) handle_and_push (sh, d') = Done (tt, (sh, d'')) /\
    completions d'' = completions d ++ part /\ share_outcome tid xs part.
Proof.
  intros (peer & a & c & _ & [Hc Ht (Hid & Hin & Hfin & Hbad) Hacc _ [Hcomp Hconf]] & _) Hpos Hlen Hall Hq Hdoc.
  unfold pages_on in Hacc. rewrite Hacc, length_app, !length_fmap, length_seq in Hall. fold (pages_on (rc_qp (rma_rc peer)) op a) in Hacc.
  assert (cnt_posted_ops c = op_pages op) as Hposted by lia. rewrite Hposted, Nat.eqb_refl in Hin.
  rewrite (answers_of_share (rc_qp (rma_rc peer)) op a) by (rewrite Hlen, <- Hposted; exact Hacc).
  destruct (opcodes_cases xs) as [Hxs|[Hlt Hno]].
  - assert (length xs.*1 = op_pages op) as Hl1 by (by rewrite length_fmap).
    destruct (write_cqes sh d' a c qpn xs.*1) as (d'' & Hrun & _ & Hd'' & _);
      [by rewrite Hconf|done|intros E; rewrite E in Hl1; simpl in Hl1; lia|lia|lia|done|].
    exists d'', (write_reports tid false (verdict <$> xs.*1)). split; [by rewrite Hxs, <- list_fmap_compose|].
    split; [by rewrite Hd'', Hcomp, Hid, Hbad|].
    assert (all_ok xs <-> Forall (fun r => r = None) (verdict <$> xs.*1)) as Hok
      by (rewrite verdicts_success, Forall_fmap; done).
    split; [destruct (decide (Forall (fun r => r = None) (verdict <$> xs.*1))) as [Hg|Hg]; [left|right]|].
    + split; [by apply Hok|]. apply write_reports_success; [|done]. intros E%fmap_nil_inv. rewrite E in Hl1. simpl in Hl1. lia.
    + split; [by rewrite Hok|]. split; [apply write_reports_at_most|]. left. by apply write_reports_error_first.
    + intros Hs. destruct (write_reports_error_first tid (verdict <$> xs.*1)) as (pre & e & post & -> & _); [|exists e; set_solver].
      rewrite <- Hok. intros Hg. unfold all_ok, seen_failure in *. rewrite Exists_exists in Hs. rewrite Forall_forall in Hg.
      destruct Hs as (x & Hx & Hx1 & _). by apply Hx1, Hg.
  - destruct (miscounted_cqes sh d' a c qpn xs) as (d'' & outs & Hrun & Hd'' & Hnt & Herr);
      [by rewrite Hconf|done|done|lia|lia|].
    exists d'', outs. split; [done|]. split; [by rewrite Hd'', Hcomp|]. specialize (Hnt tid).
    apply no_transfer_reports in Hnt. split; [right; split; [by apply Hno|split; [lia|by right]]|].
    intros Hs. rewrite Hid in Herr. by apply Herr.
Qed.

(** The completions of all the shares of a plan. *)
Lemma shares_answered tid r desc qpn xs sh pages (plan : list (nat * (nat * nat))) :
  tiles 0 pages plan.*2 -> forall (ds0 ds' : list (VerbsDomain (H:=H))),
  (forall i range, (i, range) ∈ plan -> exists d d' dst, ds0 !! i = Some d /\ ds' !! i = Some d' /\
    addr_rkey_list (pr_dst_mr r) !! i = Some dst /\ share_posted tid dst.1 (page_share r range (desc i) dst.2) d d') ->
  (forall i range d d', (i, range) ∈ plan -> ds0 !! i = Some d -> ds' !! i = Some d' ->
    length (accepted (vd_hw d')) = (length (accepted (vd_hw d)) + (range.2 - range.1))%nat /\
    length (xs i) = (range.2 - range.1)%nat /\ Forall opcode_documented (xs i) /\
    qpn i <> ud_qp_num (ud_addr (vc_ud (conf d)))) ->
  exists ds part, length ds = length ds' /\
    (forall i, i ∈ plan.*1 -> share_outcome tid (xs i) (part i) /\ exists d d' d'',
      ds0 !! i = Some d /\ ds' !! i = Some d' /\ ds !! i = Some d'' /\
      for_each (answers (qpn i) d d' (xs i)) handle_and_push (sh, d') = Done (tt, (sh, d'')) /\
      completions d'' = completions d ++ part i) /\
    (forall i, i ∉ plan.*1 -> ds !! i = ds' !! i).
Proof.
  intros Htiles ds0 ds' Hin Hfull.
  destruct (replace_domains (fun i d'' => exists part, share_outcome tid (xs i) part /\ exists d d',
    ds0 !! i = Some d /\ ds' !! i = Some d' /\
    for_each (answers (qpn i) d d' (xs i)) handle_and_push (sh, d') = Done (tt, (sh, d'')) /\
    completions d'' = completions d ++ part) plan.*1 ds') as (ds & Hlen & Hds & Hrest).
  - intros i ([j range] & -> & Hi)%list_elem_of_fmap. cbn [fst].
    destruct (Hin j range Hi) as (d & d' & dst & Hdj & Hdj' & _ & Hpost).
    destruct (Hfull j range d d' Hi Hdj Hdj') as (Hacc & Hs & Hdoc & Hq).
    assert (range.1 < range.2)%nat.
    { destruct range as [x y]. apply (tiles_bounds _ _ _ x y Htiles), list_elem_of_fmap. by exists (j, (x, y)). }
    split; [by eapply lookup_lt_Some|].
    destruct (share_answered tid _ _ (qpn j) (xs j) sh d d' Hpost) as (d'' & part & Hd'' & Hc & Ho);
      [unfold op_pages; cbn; lia|exact Hs|exact Hacc|exact Hq|exact Hdoc|].
    exists d'', part. split; [done|]. by exists d, d'.
  - destruct (choose_each (fun i part => share_outcome tid (xs i) part /\ exists d d' d'',
      ds0 !! i = Some d /\ ds' !! i = Some d' /\ ds !! i = Some d'' /\
      for_each (answers (qpn i) d d' (xs i)) handle_and_push (sh, d') = Done (tt, (sh, d'')) /\
      completions d'' = completions d ++ part) [] plan.*1) as [f Hf].
    { intros i Hi. destruct (Hds i Hi) as (d'' & ? & part & ? & d & d' & ? & ? & ? & ?). exists part.
      split; [done|]. by exists d, d', d''. }
    exists ds, f. done.
Qed.

(** C7: a paged request is reported to the engine exactly once if it succeeds, and never if it
    fails.  Let the cards of a group have queued all their shares of a paged request.  When each
    card completes the requests of its share, with any statuses and, for the failed ones, any
    opcodes (the opcode of a failed completion is not documented), every domain of the plan
    handles the completions without a panic.  Draining the group's queues then returns
    [Transfer] of the request exactly once if all the requests of all the cards succeeded; if any
    failed it never does, in whatever order the queues are popped, and it returns an error of the
    request if one of the failed completions has the opcode of a write. *)
Theorem paged_request_reported_once tid r n desc qpn xs sh (g g' : DomainGroup (VerbsDomain (H:=H))) :
  group_wf n g -> descs_are (pr_src_mr r) desc g ->
  length (addr_rkey_list (pr_dst_mr r)) = n ->
  length (pr_src_page_indices r) = length (pr_dst_page_indices r) -> pr_src_page_indices r <> [] ->
  (forall i d dst, domains g !! i = Some d -> addr_rkey_list (pr_dst_mr r) !! i = Some dst -> connected_to dst.1 d) ->
  (forall i d, domains g !! i = Some d -> no_entry_of tid (completions d)) ->
  submit_paged_transfer_request tid r None g = Done (Ok tt, g') ->
  (forall i range d d', (i, range) ∈ request_plan n r g -> domains g !! i = Some d -> domains g' !! i = Some d' ->
    length (accepted (vd_hw d')) = (length (accepted (vd_hw d)) + (range.2 - range.1))%nat /\
    length (xs i) = (range.2 - range.1)%nat /\ Forall opcode_documented (xs i) /\
    qpn i <> ud_qp_num (ud_addr (vc_ud (conf d)))) ->
  let cards := (request_plan n r g).*1 in
  exists ds, (forall i, i ∈ cards -> exists d d' d'',
      domains g !! i = Some d /\ domains g' !! i = Some d' /\ ds !! i = Some d'' /\
      for_each (answers (qpn i) d d' (xs i)) handle_and_push (sh, d') = Done (tt, (sh, d''))) /\
    (forall i, i ∉ cards -> ds !! i = domains g' !! i) /\
    forall k, (length (concat (queues (sh, set_domains ds g'))) <= k)%nat ->
      exists rs s', times k group_get_completion (sh, set_domains ds g') = Done (rs, s') /\
        ((forall i, i ∈ cards -> all_ok (xs i)) -> reports tid (omap id rs) = 1%nat) /\
        ((exists i, i ∈ cards /\ ~ all_ok (xs i)) -> reports tid (omap id rs) = 0%nat) /\
        ((exists i, i ∈ cards /\ seen_failure (xs i)) -> exists e, DcError tid e ∈ omap id rs).
Proof.
  intros Hwf Hd Hl Hp Hne Hcon Hold Hsub Hfull cards.
  destruct (paged_shares_posted tid r None n desc g Hwf Hd Hl Hp Hcon) as (ds' & Hrun & Hin & Hout).
  rewrite Hrun in Hsub. simplify_eq Hsub. intros Hg'.
  destruct (page_plan_ok n (rr_next g) (length (pr_src_page_indices r))) as (_ & Hnd & Hlt & Htiles);
    [pose proof (wf_rr _ _ Hwf); lia|]. fold (request_plan n r g) in *.
  assert (length ds' = n) as Hlen'.
  { rewrite <- (wf_domains _ _ (paged_wf n tid r None g _ _ Hrun Hwf)). done. }
  subst g'. destruct (shares_answered tid r desc qpn xs sh _ _ Htiles _ _ Hin) as (ds & part & Hlen & Hds & Hrest);
    [by intros i range d d' Hi Hdi Hdi'; apply (Hfull i range)|].
  exists ds. cbn [domains set_domains]. split; [|split; [done|]].
  { intros i Hi. destruct (Hds i Hi) as (_ & d & d' & d'' & ? & ? & ? & ? & _). by exists d, d', d''. }
  intros k Hk. destruct (parts_drained n k sh tid part (fun i => all_ok (xs i)) cards (set_domains ds
    (set_rr_next ((rr_next g + length (request_plan n r g)) mod n) (DomainGroup.set_write_ops
      (<[tid := new_ctx (length (request_plan n r g)) None]> (write_ops g)) g)))) as (rs & s' & Hpop & Hgood & Hbad & Hfwd);
    [|exact Hk|..|exists rs, s'; split; [done|]].
  - destruct (paged_wf n tid r None g _ _ Hrun Hwf) as [_ ? ?]. split; [cbn; lia|done..].
  - cbn. rewrite lookup_insert_eq. unfold cards. by rewrite length_fmap.
  - unfold cards. intros E. apply fmap_nil_inv in E. rewrite E in Htiles. cbn in Htiles.
    by destruct (pr_src_page_indices r).
  - done.
  - intros i Hi. by destruct (Hds i Hi) as ([? _] & _).
  - intros i Hi. destruct (Hds i Hi) as (_ & d & d' & d'' & Hdi & ? & ? & ? & ?).
    exists d'', (completions d). split; [done|]. split; [by eapply Hold|done].
  - intros i d Hi. cbn. rewrite Hrest, Hout by done. apply Hold.
  - split; [done|]. split; [done|]. intros (i & Hi & Hs).
    destruct (Hds i Hi) as ([_ Herr] & _). destruct (Herr Hs) as [e He]. exists e. by apply (Hfwd i).
Qed.
End Cards.

(** ** Witness: two cards, the first with room for two requests *)
Module VerbsGroupWitness.

Definition far_rc (q : Z) : RCQueuePair :=
  {| rc_addr := {| rc_gid := []; rc_lid := 0; rc_qp_num := q; rc_psn := 0 |}; rc_qp := q |}.
Definition far_peer : Peer :=
  {| peer_ud_addr := example_ud; peer_ah := 1; msg_rc := far_rc 5; rma_rc := far_rc 6; peer_state := Established |}.
Definition card (room : nat) (id : Z) : VerbsDomain (H:=Toy) :=
  set_local_mr_map {[4096 := {| lkey := 40 + id; rkey := 50 + id |}]}
    (set_peers {[{| addr_bytes := [id] |} := far_peer]} (toy_domain room 2)).
Definition cards : DomainGroup (VerbsDomain (H:=Toy)) := DomainGroup.new [card 2 1; card 100 2].

Definition seven_pages : PagedTransferRequest := {|
  pr_length := 64; pr_src_mr := 4096; pr_src_page_indices := [0; 1; 2; 3; 4; 5; 6]; pr_src_stride := 64;
  pr_src_offset := 0;
  pr_dst_mr := {| mrd_ptr := 8192; addr_rkey_list := [({| addr_bytes := [1] |}, 61); ({| addr_bytes := [2] |}, 62)] |};
  pr_dst_page_indices := [6; 5; 4; 3; 2; 1; 0]; pr_dst_stride := 64; pr_dst_offset := 0; pr_imm_data := None |}.

Lemma cards_wf : group_wf 2 cards.
Proof. split; [done|cbn; lia|apply map_Forall_empty]. Qed.

Lemma paged_request_reaches_cards_witness :
  exists g', @submit_paged_transfer_request _ (verbs_domain 9) 7 seven_pages None cards = Done (Ok tt, g') /\
    exists d1 d2 b, domains g' !! 0%nat = Some d1 /\ domains g' !! 1%nat = Some d2 /\
      length (t_accepted (vd_hw d1)) = 2%nat /\ vd_write_ops d1 = [b] /\ length (t_accepted (vd_hw d2)) = 3%nat.
Proof.
  destruct (paged_request_reaches_cards (H:=Toy) 9 7 seven_pages None 2
    (fun i => 41 + Z.of_nat i) cards) as (plan & g' & Hrun & _).
  - apply cards_wf.
  - intros [|[|i]] d Hd; cbn in Hd; simplify_eq; reflexivity.
  - reflexivity.
  - reflexivity.
  - intros [|[|i]] d dst Hd Hdst; cbn in Hd, Hdst; simplify_eq; exists far_peer; split; reflexivity.
  - exists g'. split; [exact Hrun|]. vm_compute in Hrun. injection Hrun as <-.
    eexists _, _, _. split; [reflexivity|]. split; [reflexivity|]. split; [reflexivity|]. split; reflexivity.
Defined.

(** Two cards with room for all the pages, which all succeed. *)
Definition roomy : DomainGroup (VerbsDomain (H:=Toy)) := DomainGroup.new [card 100 1; card 100 2].
Definition posted : DomainGroup (VerbsDomain (H:=Toy)) :=
  state_of roomy (@submit_paged_transfer_request _ (verbs_domain 9) 7 seven_pages None roomy).
Definition statuses (i : nat) : list (Z * ibv_wc_opcode) :=
  replicate (if (i =? 0)%nat then 4 else 3)%nat (0, IBV_WC_RDMA_WRITE).

Lemma paged_request_reported_once_witness :
  exists ds k rs s', @times _ _ k (@group_get_completion _ (verbs_domain 9)) (new_map, set_domains ds posted) = Done (rs, s') /\
    reports 7 (omap id rs) = 1%nat.
Proof.
  destruct (paged_request_reported_once (H:=Toy) 9 7 seven_pages 2 (fun i => 41 + Z.of_nat i) (fun _ => 300)
    statuses new_map roomy posted) as (ds & _ & _ & Hdrain).
  - split; [done|cbn; lia|apply map_Forall_empty].
  - intros [|[|i]] d Hd; cbn in Hd; simplify_eq; reflexivity.
  - reflexivity.
  - reflexivity.
  - discriminate.
  - intros [|[|i]] d dst Hd Hdst; cbn in Hd, Hdst; simplify_eq; exists far_peer; split; reflexivity.
  - intros [|[|i]] d Hd; cbn in Hd; simplify_eq; intros c Hc; set_solver.
  - vm_compute. reflexivity.
  - change (request_plan 2 seven_pages roomy) with [(0, (0, 4)); (1, (4, 7))]%nat.
    intros i range d d' [Heq|[Heq|[]%not_elem_of_nil]%elem_of_cons]%elem_of_cons; simplify_eq;
      intros Hd Hd'; vm_compute in Hd, Hd'; injection Hd as <-; injection Hd' as <-;
      (split; [reflexivity|split; [reflexivity|split; [repeat constructor|vm_compute; congruence]]]).
  - destruct (Hdrain _ (le_n _)) as (rs & s' & Hrun & Hgood & _). eexists ds, _, rs, s'. split; [exact Hrun|].
    apply Hgood. change (request_plan 2 seven_pages roomy).*1 with [0; 1]%nat.
    intros i [->|[->|[]%not_elem_of_nil]%elem_of_cons]%elem_of_cons; repeat constructor.
Defined.
End VerbsGroupWitness.
