(* ===== verification/Worker.v ===== *)
(** * The worker threads

    [fabric-lib/src/worker.rs]: the thread that owns a [DomainGroup] and serves the calls and
    commands of the engine ([worker_step]), the thread that watches memory written by the GPU
    ([uwm_worker_step]), and how a worker is started.

    A channel is what the thread sees of it: [try_recv] answers [Received], [Empty] or
    [Disconnected]; a [oneshot] sender knows whether its receiver still exists; the completion
    channel is the sequence sent so far and whether the receiver still exists (a [send] on a
    full channel returns when the engine has made room). *)
From stdpp Require Import prelude gmap strings list.
From S2P Require Import Prelude Api ImmCount Sharding Provider DomainGroup.
Local Open Scope Z_scope.

Inductive TryRecv (A : Type) : Type := Received (a : A) | Empty | Disconnected.
Arguments Received {A} a.
Arguments Empty {A}.
Arguments Disconnected {A}.

Record Oneshot := { os_id : nat; os_open : bool }.

Inductive WorkerCommand : Type :=
  | SubmitTransfer (transfer_id : TransferId) (request : TransferRequest) (tx_counter : option TransferCounter)
  | SubmitSend (transfer_id : TransferId) (mr : MemoryRegionHandle) (ptr len : Z) (dest : DomainAddress)
  | SubmitRecv (transfer_id : TransferId) (mr : MemoryRegionHandle) (ptr len : Z).

Inductive WorkerCall : Type :=
  | RegisterMRLocal (region : MemoryRegion) (ret_ : Oneshot)
  | RegisterMRAllowRemote (region : MemoryRegion) (ret_ : Oneshot)
  | UnregisterMR (ptr : Z) (ret_ : Oneshot)
  | AddPeerGroup (addrs : list (list DomainAddress)) (ret_ : Oneshot).

Inductive UvmWatcherCall : Type :=
  | AcquireUvmWatcher (ret_ : Oneshot)
  | ReleaseUvmWatcher (watcher : Z) (ret_ : Oneshot).

(** What the threads answer on a [oneshot]. *)
Inductive Reply : Type :=
  | RMrLocal (r : res MemoryRegionHandle)
  | RMrRemote (r : res (MemoryRegionHandle * MemoryRegionDescriptor))
  | RUnit
  | RPeerGroup (r : res PeerGroupHandle)
  | RWatcher (r : option Z).

(** The channels a thread sends to. *)
Record Chans := {
  cq_open : bool;
  cq_sent : list TransferCompletionEntry;
  answered : list (nat * Reply);
}.

(** [ret.send(x).map_err(|_| ())] and [cq_tx.send(x).map_err(|_| ())]. *)
Definition answer (o : Oneshot) (r : Reply) : M Chans (result unit unit) := fun c =>
  if os_open o then
    Done (Ok tt, {| cq_open := cq_open c; cq_sent := cq_sent c; answered := answered c ++ [(os_id o, r)] |})
  else Done (Err tt, c).

Definition cq_send (e : TransferCompletionEntry) : M Chans (result unit unit) := fun c =>
  if cq_open c then
    Done (Ok tt, {| cq_open := cq_open c; cq_sent := cq_sent c ++ [e]; answered := answered c |})
  else Done (Err tt, c).

(** The completion the engine sees for a domain's completion. *)
Definition tx_comp (c : DomainCompletionEntry) : TransferCompletionEntry :=
  match c with
  | DcRecv transfer_id data_len => TcRecv transfer_id data_len
  | DcSend transfer_id => TcSend transfer_id
  | DcTransfer transfer_id => TcTransfer transfer_id
  | DcImmData imm => TcImmData imm
  | DcImmCountReached imm => TcImmCountReached imm
  | DcError transfer_id err => TcError transfer_id err
  end.

(** ** The domain worker *)
Section DomainWorker.
Context {D : Type} `{RdmaDomain D}.

Record WorkerState := { w_group : Shared * DomainGroup D; w_chans : Chans }.

Definition on_w {A} (m : M (Shared * DomainGroup D) A) : M WorkerState A :=
  on_state w_group (fun g w => {| w_group := g; w_chans := w_chans w |}) m.
Definition on_chans {A} (m : M Chans A) : M WorkerState A :=
  on_state w_chans (fun c w => {| w_group := w_group w; w_chans := c |}) m.

Definition process_call (call : TryRecv WorkerCall) : M WorkerState (result unit unit) :=
  match call with
  | Received (RegisterMRLocal region o) =>
      let! r := on_w (on_group (group_register_mr_local region)) in
      on_chans (answer o (RMrLocal r))
  | Received (RegisterMRAllowRemote region o) =>
      let! r := on_w (on_group (group_register_mr_allow_remote region)) in
      on_chans (answer o (RMrRemote r))
  | Received (UnregisterMR ptr o) =>
      on_w (on_group (group_unregister_mr ptr)) ;;;
      on_chans (answer o RUnit)
  | Received (AddPeerGroup addrs o) =>
      let! r := on_w (on_group (group_add_peer_group addrs)) in
      on_chans (answer o (RPeerGroup r))
  | Disconnected => ret (Err tt)
  | Empty => ret (Ok tt)
  end.

(** [if let Err(e) = result { cq_tx.send(Error(transfer_id, e))? }]. *)
Definition report_error (tid : TransferId) (r : res unit) : M WorkerState (result unit unit) :=
  match r with
  | Ok _ => ret (Ok tt)
  | Err e => on_chans (cq_send (TcError tid e))
  end.

Definition process_command (cmd : TryRecv WorkerCommand) : M WorkerState (result unit unit) :=
  match cmd with
  | Received (SubmitTransfer tid request tx_counter) =>
      let! r := on_w (on_group (submit_transfer_request tid request tx_counter)) in
      report_error tid r
  | Received (SubmitSend tid mr ptr len dest) =>
      let! r := on_w (on_group (group_submit_send tid mr ptr len dest)) in
      report_error tid r
  | Received (SubmitRecv tid mr ptr len) =>
      let! r := on_w (on_group (group_submit_recv tid mr ptr len)) in
      report_error tid r
  | Disconnected => ret (Err tt)
  | Empty => ret (Ok tt)
  end.

(** [while let Some(comp) = group.get_completion()]; each round consumes an entry of a domain's
    queue, so the number of queued entries plus one is enough fuel. *)
Fixpoint send_completions (fuel : nat) : M WorkerState (result unit unit) :=
  match fuel with
  | O => fun _ => OutOfFuel
  | S fuel =>
      let! c := on_w group_get_completion in
      match c with
      | None => ret (Ok tt)
      | Some c =>
          let? _ := on_chans (cq_send (tx_comp c)) in
          send_completions fuel
      end
  end.

Definition worker_step (fuel : nat) (call : TryRecv WorkerCall) (cmd : TryRecv WorkerCommand) :
    M WorkerState (result unit unit) :=
  let? _ := process_call call in
  let? _ := process_command cmd in
  on_w group_poll_progress ;;;
  send_completions fuel.

(** The main loop over what [stop_signal] and the channels show at each iteration. *)
Fixpoint worker_main (fuel : nat) (inputs : list (bool * TryRecv WorkerCall * TryRecv WorkerCommand)) :
    M WorkerState unit :=
  match inputs with
  | [] => ret tt
  | (stop, call, cmd) :: inputs =>
      if stop then ret tt
      else
        let! r := worker_step fuel call cmd in
        match r with
        | Err _ => panic "fabric-lib internal error: Worker step failed"
        | Ok _ => worker_main fuel inputs
        end
  end.

(** ** Starting a domain worker

    [pin_cpu] (an errno on failure) and opening a device are parameters. *)
Section Init.
Context {I W : Type} (pin_cpu : Z -> option Z) (open : I -> M W (res D)).

Record InitializedWorker := {
  iw_aggregated_link_speed : Z;
  iw_address_list : list DomainAddress;
  iw_group : DomainGroup D;
}.

(** The part of [rdma_worker_thread] before the loop: what is sent on [init_tx].  [n] is the
    const generic [N]. *)
Definition rdma_worker_init (n : nat) (domain_list : list I) (maybe_pin_cpu : option Z) :
    M W (res InitializedWorker) :=
  match maybe_pin_cpu ≫= pin_cpu with
  | Some e => ret (Err (Errno e))
  | None =>
      let? domains := try_map domain_list open in
      assert_ (length domains =? n)%nat
        "The number of domains mismatch the const generic N" ;;;
      let group := new domains in
      ret (Ok {| iw_aggregated_link_speed := aggregate_link_speed group;
                 iw_address_list := addr <$> domains; iw_group := group |})
  end.
End Init.
End DomainWorker.

(** ** Spawning: [Worker::spawn] and [wait_init] *)
Inductive DomainInfo (E V : Type) : Type := InfoEfa (info : E) | InfoVerbs (info : V).
Arguments InfoEfa {E V} info.
Arguments InfoVerbs {E V} info.

(** The instance of [rdma_worker_thread] to run. *)
Inductive WorkerThread (E V : Type) : Type :=
  | EfaThread (n : nat) (domain_list : list E)
  | VerbsThread (n : nat) (domain_list : list V).
Arguments EfaThread {E V} n domain_list.
Arguments VerbsThread {E V} n domain_list.

Definition efa_infos {E V} (l : list (DomainInfo E V)) : list E :=
  omap (fun i => match i with InfoEfa e => Some e | InfoVerbs _ => None end) l.
Definition verbs_infos {E V} (l : list (DomainInfo E V)) : list V :=
  omap (fun i => match i with InfoEfa _ => None | InfoVerbs v => Some v end) l.

(** [worker_ok] and [uvm_ok]: whether the system starts the threads. *)
Definition spawn {E V} (domain_list : list (DomainInfo E V)) (worker_ok uvm_ok : bool) :
    res (WorkerThread E V) :=
  let total_domains := length domain_list in
  let efa := efa_infos domain_list in
  let verbs := verbs_infos domain_list in
  let thread :=
    if (length efa =? total_domains)%nat then
      match length efa with
      | 1%nat => Ok (EfaThread 1 efa)
      | 2%nat => Ok (EfaThread 2 efa)
      | 4%nat => Ok (EfaThread 4 efa)
      | _ => Err (Custom "Only support 1, 2, or 4 domains per GPU for EFA")
      end
    else if (length verbs =? total_domains)%nat then
      match length verbs with
      | 1%nat => Ok (VerbsThread 1 verbs)
      | 2%nat => Ok (VerbsThread 2 verbs)
      | _ => Err (Custom "Only support 1 or 2 domains per GPU for Verbs")
      end
    else Err (Custom "Cannot mix EFA and Verbs domains") in
  match thread with
  | Err e => Err e
  | Ok t =>
      if negb worker_ok then Err (Custom "Failed to spawn worker thread")
      else if negb uvm_ok then Err (Custom "Failed to spawn UVM worker thread")
      else Ok t
  end.

(** [wait_init]: the answers of the two threads ([None]: the sender was dropped).  [Blocks] is
    a [join] of a thread that was started successfully and has not been told to stop. *)
Inductive Waited (A : Type) : Type := WReady (a : A) | WErr (e : FabricLibError) | Blocks.
Arguments WReady {A} a.
Arguments WErr {A} e.
Arguments Blocks {A}.

Definition wait_init {A B} (init_worker : option (res A)) (init_uvm : option (res B)) :
    Waited (A * B) :=
  match init_worker, init_uvm with
  | None, _ => WErr (Custom "Failed to receive worker init")
  | Some _, None => WErr (Custom "Failed to receive UVM watcher init")
  | Some (Err e), Some _ => WErr e
  | Some (Ok _), Some (Err _) => Blocks
  | Some (Ok a), Some (Ok b) => WReady (a, b)
  end.

(** ** The UVM watcher *)

(** [uvm_memory] is a buffer of [u64] slots the GPU writes; the vector [free_slots] is kept with
    its last element, the one [pop] takes, first. *)
Record UvmWatcherContext := {
  uvm_ptr : Z;
  uvm_memory : list Z;
  last_values : list Z;
  free_slots : list nat;
  used_slots : gset nat;
}.

Definition NUM_SLOTS : nat := 512.   (* 4096 / size_of::<u64>() *)
Definition uvm_size (c : UvmWatcherContext) : Z := 8 * Z.of_nat (length (uvm_memory c)).

(** [ptr] is what [CudaHostMemory::alloc] returns; the memory is zeroed. *)
Definition uvm_new (ptr : Z) : UvmWatcherContext :=
  {| uvm_ptr := ptr; uvm_memory := replicate NUM_SLOTS 0; last_values := replicate NUM_SLOTS 0;
     free_slots := seq 0 NUM_SLOTS; used_slots := ∅ |}.

Definition slot_to_id (c : UvmWatcherContext) (slot : nat) : Z := uvm_ptr c + 8 * Z.of_nat slot.

Definition acquire : M UvmWatcherContext (option Z) := fun c =>
  match free_slots c with
  | slot :: rest =>
      Done (Some (slot_to_id c slot),
            {| uvm_ptr := uvm_ptr c; uvm_memory := uvm_memory c; last_values := last_values c;
               free_slots := rest; used_slots := {[slot]} ∪ used_slots c |})
  | [] => Done (None, c)
  end.

Definition release (id : Z) : M UvmWatcherContext unit := fun c =>
  if (id <? uvm_ptr c) || (uvm_ptr c + uvm_size c <=? id) then Panic "UvmWatcherId out of bounds"
  else
    let slot := Z.to_nat ((id - uvm_ptr c) / 8) in
    if decide (slot ∈ used_slots c) then
      Done (tt, {| uvm_ptr := uvm_ptr c; uvm_memory := <[slot := 0]> (uvm_memory c);
                   last_values := <[slot := 0]> (last_values c);
                   free_slots := slot :: free_slots c; used_slots := used_slots c ∖ {[slot]} |})
    else Done (tt, c).

Record UvmState := { us_ctx : option UvmWatcherContext; us_chans : Chans }.

Definition on_uvm_chans {A} (m : M Chans A) : M UvmState A :=
  on_state us_chans (fun c s => {| us_ctx := us_ctx s; us_chans := c |}) m.
Definition set_ctx (c : UvmWatcherContext) : M UvmState unit :=
  modify (fun s => {| us_ctx := Some c; us_chans := us_chans s |}).

Section UvmWorker.
(** [iter]: the order in which the [HashSet] is traversed; [host_ptr]: the address of the
    buffer. *)
Context (iter : gset nat -> list nat) (host_ptr : Z).

Definition uvm_process_call (call : TryRecv UvmWatcherCall) : M UvmState (result unit unit) :=
  match call with
  | Received (AcquireUvmWatcher o) =>
      let! c := gets us_ctx in
      match acquire (default (uvm_new host_ptr) c) with
      | Done (r, c) => set_ctx c ;;; on_uvm_chans (answer o (RWatcher r))
      | Panic why => panic why
      | OutOfFuel => fun _ => OutOfFuel
      end
  | Received (ReleaseUvmWatcher watcher o) =>
      let! c := gets us_ctx in
      match c with
      | Some c =>
          match release watcher c with
          | Done (_, c) => set_ctx c
          | Panic why => panic why
          | OutOfFuel => fun _ => OutOfFuel
          end
      | None => ret tt
      end ;;;
      on_uvm_chans (answer o RUnit)
  | Disconnected => ret (Err tt)
  | Empty => ret (Ok tt)
  end.

(** The body of the watch loop for one slot. *)
Definition watch_slot (slot : nat) : M UvmState (result unit unit) :=
  let! c := gets us_ctx in
  match c with
  | None => ret (Ok tt)
  | Some c =>
      let! value := unwrap (uvm_memory c !! slot) "read outside the UVM buffer" in
      let! old := unwrap (last_values c !! slot) "index out of bounds" in
      if value =? old then ret (Ok tt)
      else
        set_ctx {| uvm_ptr := uvm_ptr c; uvm_memory := uvm_memory c;
                   last_values := <[slot := value]> (last_values c);
                   free_slots := free_slots c; used_slots := used_slots c |} ;;;
        on_uvm_chans (cq_send (TcUvmWatch (slot_to_id c slot) old value))
  end.

Definition uwm_worker_step (call : TryRecv UvmWatcherCall) : M UvmState (result unit unit) :=
  let? _ := uvm_process_call call in
  let! c := gets us_ctx in
  match c with
  | None => ret (Ok tt)
  | Some c => try_for_each (iter (used_slots c)) watch_slot
  end.

(** The main loop of [uvm_worker_thread] over what [stop_signal] and the channel show at each
    iteration. *)
Fixpoint uvm_worker_main (inputs : list (bool * TryRecv UvmWatcherCall)) : M UvmState unit :=
  match inputs with
  | [] => ret tt
  | (stop, call) :: inputs =>
      if stop then ret tt
      else
        let! r := uwm_worker_step call in
        match r with
        | Err _ => panic "fabric-lib internal error: Worker step failed"
        | Ok _ => uvm_worker_main inputs
        end
  end.

(** [uvm_worker_thread]: pinning, the message on [init_tx], the loop.  The answer is what was sent;
    [listening] says that [wait_init] still waits for it. *)
Definition uvm_worker_thread (pin_cpu : Z -> option Z) (maybe_pin_cpu : option Z) (listening : bool)
    (inputs : list (bool * TryRecv UvmWatcherCall)) : M UvmState (res unit) :=
  match maybe_pin_cpu ≫= pin_cpu with
  | Some e => ret (Err (Errno e))
  | None => if listening then uvm_worker_main inputs ;;; ret (Ok tt) else ret (Ok tt)
  end.
End UvmWorker.

(** [WorkerHandle::join]: how the two threads ended. *)
Definition join (worker_handle uvm_handle : outcome unit) : outcome unit :=
  match worker_handle with
  | Panic _ => Panic "Failed to join worker thread"
  | OutOfFuel => OutOfFuel
  | Done _ =>
      match uvm_handle with
      | Panic _ => Panic "Failed to join UVM watcher thread"
      | OutOfFuel => OutOfFuel
      | Done _ => Done tt
      end
  end.
