(* ===== verification/WorkerSpec.v ===== *)
(** * Correctness of the worker threads

    A worker step hands the engine exactly what the completion tracker of the domain group
    emits; UVM watchers are handed out exclusively and report every change once. *)
From stdpp Require Import prelude gmap strings list.
From S2P Require Import Prelude Api ImmCount Sharding Provider DomainGroup DomainGroupSpec Loopback Completion Worker.
Local Open Scope Z_scope.

(** ** The domain worker *)
Section Delivery.
Context {D : Type} `{RdmaDomainLaws D}.
Implicit Types w : WorkerState (D:=D).

Lemma keeps_drop {S A} (P : S -> Prop) (m : M S A) : keeps P (m ;;; ret tt) -> keeps P m.
Proof. intros Hm s a s' Hrun. apply (Hm s tt). unfold bind. by rewrite Hrun. Qed.

Definition w_wf (n : nat) w : Prop := group_wf n (w_group w).2.

Lemma on_w_wf {A} n (m : M (Shared * DomainGroup D) A) :
  keeps (fun s => group_wf n s.2) m -> keeps (w_wf n) (on_w m).
Proof.
  intros Hm w a w' Hrun Hwf. cbv [on_w on_state] in Hrun.
  destruct (m (w_group w)) as [[? g]| |] eqn:E; simplify_eq. by eapply Hm.
Qed.

Lemma on_chans_wf {A} n (m : M Chans A) : keeps (w_wf n) (on_chans m).
Proof.
  intros w a w' Hrun Hwf. cbv [on_chans on_state] in Hrun.
  destruct (m (w_chans w)) as [[? g]| |] eqn:E; by simplify_eq.
Qed.

Lemma group_method_wf {A} n (m : M (Shared * DomainGroup D) A) o :
  (forall s, exec_group_op o s = (m ;;; ret tt) s) -> keeps (w_wf n) (on_w m).
Proof.
  intros Ho. apply on_w_wf, keeps_drop. intros s a s'. rewrite <- Ho. apply exec_group_op_wf.
Qed.

Lemma unregister_unit ptr s :
  exec_group_op (GUnregister ptr) s = (on_group (group_unregister_mr (D:=D) ptr) ;;; ret tt) s.
Proof. cbn. unfold bind. by destruct (on_group _ s) as [[[] ?]| |]. Qed.

Lemma process_call_wf n call : keeps (w_wf n) (process_call call).
Proof.
  destruct call as [[region o|region o|ptr o|addrs o]| |]; cbn [process_call];
    try (by auto with keeps); apply keeps_bind; intros; try apply on_chans_wf.
  - by eapply (group_method_wf n _ (GRegisterLocal region)).
  - by eapply (group_method_wf n _ (GRegisterRemote region)).
  - eapply (group_method_wf n _ (GUnregister ptr)), unregister_unit.
  - by eapply (group_method_wf n _ (GAddPeerGroup addrs)).
Qed.

Lemma report_error_wf n tid r : keeps (w_wf n) (report_error tid r).
Proof. destruct r; [apply keeps_ret|apply on_chans_wf]. Qed.

Lemma process_command_wf n cmd : keeps (w_wf n) (process_command cmd).
Proof.
  destruct cmd as [[tid r tx|tid mr ptr len dest|tid mr ptr len]| |]; cbn [process_command];
    try (by auto with keeps); (apply keeps_bind; intros; [|apply report_error_wf]).
  - by eapply (group_method_wf n _ (GSubmit tid r tx)).
  - by eapply (group_method_wf n _ (GSend tid mr ptr len dest)).
  - by eapply (group_method_wf n _ (GRecv tid mr ptr len)).
Qed.

(** What a command makes of the group, and its result. *)
Definition run_command (cmd : TryRecv WorkerCommand) :
    M (Shared * DomainGroup D) (option (TransferId * res unit)) :=
  match cmd with
  | Received (SubmitTransfer tid request tx) =>
      let! r := on_group (submit_transfer_request tid request tx) in ret (Some (tid, r))
  | Received (SubmitSend tid mr ptr len dest) =>
      let! r := on_group (group_submit_send tid mr ptr len dest) in ret (Some (tid, r))
  | Received (SubmitRecv tid mr ptr len) =>
      let! r := on_group (group_submit_recv tid mr ptr len) in ret (Some (tid, r))
  | _ => ret None
  end.

(** The entry that reports a rejected command. *)
Definition rejection (o : option (TransferId * res unit)) : list TransferCompletionEntry :=
  match o with Some (tid, Err e) => [TcError tid e] | _ => [] end.

Lemma on_w_chans {A} (m : M (Shared * DomainGroup D) A) w a w' :
  on_w m w = Done (a, w') -> w_chans w' = w_chans w.
Proof.
  cbv [on_w on_state]. destruct (m (w_group w)) as [[? ?]| |]; intros; by simplify_eq.
Qed.

Lemma answer_sent o r w a w' :
  on_chans (answer o r) w = Done (a, w') ->
  cq_sent (w_chans w') = cq_sent (w_chans w) /\ cq_open (w_chans w') = cq_open (w_chans w).
Proof. cbv [on_chans on_state answer]. destruct (os_open o); intros; by simplify_eq. Qed.

Lemma process_call_sent call w r w' :
  process_call call w = Done (r, w') ->
  cq_sent (w_chans w') = cq_sent (w_chans w) /\ cq_open (w_chans w') = cq_open (w_chans w).
Proof.
  destruct call as [[]| |]; cbn [process_call]; intros Hrun; run_inv Hrun; try done;
    match goal with Hw : on_w _ _ = Done _ |- _ => rewrite <- (on_w_chans _ _ _ _ Hw) end;
    by eapply answer_sent.
Qed.

Lemma process_command_sent cmd w w' :
  cq_open (w_chans w) = true -> process_command cmd w = Done (Ok tt, w') ->
  exists o, run_command cmd (w_group w) = Done (o, w_group w') /\
    cq_sent (w_chans w') = cq_sent (w_chans w) ++ rejection o /\ cq_open (w_chans w') = true.
Proof.
  intros Ho. assert (forall (m : M (Shared * DomainGroup D) (res unit)) tid,
    (let! r := on_w m in report_error tid r) w = Done (Ok tt, w') ->
    exists o, (let! r := m in ret (Some (tid, r))) (w_group w) = Done (o, w_group w') /\
      cq_sent (w_chans w') = cq_sent (w_chans w) ++ rejection o /\ cq_open (w_chans w') = true) as Hm.
  { intros m tid. cbv [bind on_w on_state ret]. destruct (m (w_group w)) as [[r g]| |]; [|done|done].
    intros Hrun. exists (Some (tid, r)). destruct r as [[]|e]; cbv [report_error ret on_chans on_state cq_send] in Hrun;
      cbn [w_chans w_group] in Hrun; [|rewrite Ho in Hrun]; simplify_eq; cbn; rewrite ?app_nil_r; done. }
  destruct cmd as [[]| |]; cbn [process_command run_command]; try (by apply Hm).
  - cbv [ret]. intros. simplify_eq. exists None. by rewrite app_nil_r.
  - done.
Qed.

(** The drain loop: everything emitted is sent, in order. *)
Lemma send_completions_refines n fuel w :
  w_wf n w -> cq_open (w_chans w) = true ->
  (length (concat (queues (w_group w))) < fuel)%nat ->
  exists w' cs out, send_completions fuel w = Done (Ok tt, w') /\
    pops (queues (w_group w)) cs (queues (w_group w')) /\
    track_all cs (abs (w_group w)) = Done (out, abs (w_group w')) /\
    cq_sent (w_chans w') = cq_sent (w_chans w) ++ (tx_comp <$> out) /\
    (concat (queues (w_group w)) <> [] -> cs <> []).
Proof.
  revert w. induction fuel as [|fuel IH]; intros w Hwf Ho Hk; [lia|].
  destruct (get_completion_refines n (w_group w) Hwf) as (r & g1 & cs1 & Hrun & Hwf1 & Hp1 & Ht1 & Hne).
  cbn [send_completions]. unfold bind at 1, on_w at 1, on_state at 1. rewrite Hrun.
  destruct r as [c|].
  - unfold bind_res, bind. cbv [on_chans on_state cq_send]. simpl. rewrite Ho.
    match goal with |- context [send_completions fuel ?x] => set (w1 := x) end.
    assert (cs1 <> []) as Hcs1 by (intros ->; cbv [track_all ret] in Ht1; by simplify_eq).
    pose proof (pops_perm _ _ _ Hp1) as Hperm. apply Permutation_length in Hperm.
    rewrite length_app in Hperm. destruct cs1 as [|c1 cs1]; [done|]. simpl in Hperm.
    destruct (IH w1) as (w' & cs & out & Hrun' & Hp & Ht & Hs & _); [done|by simpl|simpl; lia|].
    exists w', ((c1 :: cs1) ++ cs), (c :: out). split; [exact Hrun'|].
    split; [by eapply pops_app|]. split; [|split; [|done]].
    + destruct (track_all_run ((c1 :: cs1) ++ cs) (abs (w_group w))) as (o & t' & Hall).
      pose proof Hall as (o1 & o2 & t1 & -> & Ha & Hb)%track_all_app.
      rewrite Ht1 in Ha. simplify_eq. simpl in Ht. rewrite Ht in Hb. simplify_eq. exact Hall.
    + rewrite Hs. unfold w1; simpl. by rewrite <- (assoc_L (++)).
  - eexists _, cs1, []. split; [done|]. simpl. split; [done|]. split; [done|].
    split; [by rewrite app_nil_r|done].
Qed.

(** The phases of a step before the completions are sent. *)
Definition step_front (call : TryRecv WorkerCall) (cmd : TryRecv WorkerCommand) :
    M (WorkerState (D:=D)) (result unit unit) :=
  let? _ := process_call call in
  let? _ := process_command cmd in
  on_w group_poll_progress ;;; ret (Ok tt).

(** C17: one iteration of the domain worker delivers completions faithfully.  When the call, the
    command and the providers' polling go through (reaching [w1]), the step succeeds and what
    it adds to the engine's channel is: the error of the command if the group rejected it
    (nothing otherwise), then exactly what the completion tracker emits, in order, for the
    entries taken off the domains' queues, of which there is at least one unless all queues are
    empty.  No completion is lost, repeated or invented. *)
Theorem worker_step_delivers n fuel call cmd w w1 :
  w_wf n w -> cq_open (w_chans w) = true -> step_front call cmd w = Done (Ok tt, w1) ->
  (length (concat (queues (w_group w1))) < fuel)%nat ->
  exists w' wa g o cs out, worker_step fuel call cmd w = Done (Ok tt, w') /\
    process_call call w = Done (Ok tt, wa) /\ run_command cmd (w_group wa) = Done (o, g) /\
    pops (queues (w_group w1)) cs (queues (w_group w')) /\
    track_all cs (abs (w_group w1)) = Done (out, abs (w_group w')) /\
    cq_sent (w_chans w') = cq_sent (w_chans w) ++ rejection o ++ (tx_comp <$> out) /\
    (concat (queues (w_group w1)) <> [] -> cs <> []).
Proof.
  intros Hwf Ho Hfront Hfuel. unfold step_front in Hfront.
  apply bind_res_done in Hfront as [([] & wa & Ha & Hfront)|(? & _ & ?)]; [|done].
  apply bind_res_done in Hfront as [([] & wb & Hb & Hfront)|(? & _ & ?)]; [|done].
  apply bind_done in Hfront as ([] & wc & Hc & Hret). cbv [ret] in Hret. simplify_eq.
  destruct (process_call_sent _ _ _ _ Ha) as [Hsa Hoa].
  destruct (process_command_sent cmd wa wb) as (o & Hcmd & Hsb & Hob); [by rewrite Hoa|done|].
  pose proof (on_w_chans _ _ _ _ Hc) as Hch.
  destruct (send_completions_refines n fuel w1) as (w' & cs & out & Hrun & Hp & Ht & Hs & Hne).
  - eapply (on_w_wf n _ (poll_wf n)); [exact Hc|]. eapply process_command_wf; [exact Hb|].
    by eapply process_call_wf.
  - by rewrite Hch.
  - done.
  - exists w', wa, (w_group wb), o, cs, out. split; [|split; [done|split; [done|split; [done|split; [done|split; [|done]]]]]].
    + unfold worker_step, bind_res, bind. by rewrite Ha, Hb, Hc.
    + by rewrite Hs, Hch, Hsb, Hsa, (assoc_L (++)).
Qed.
End Delivery.

(** ** The UVM watcher *)

#[local] Opaque NUM_SLOTS.

(** The slots are partitioned in free and used ones. *)
Record uvm_wf (c : UvmWatcherContext) : Prop := {
  uw_mem : length (uvm_memory c) = NUM_SLOTS;
  uw_last : length (last_values c) = NUM_SLOTS;
  uw_free : NoDup (free_slots c);
  uw_part : forall s, (s < NUM_SLOTS)%nat <-> s ∈ free_slots c \/ s ∈ used_slots c;
  uw_disj : forall s, s ∈ free_slots c -> s ∉ used_slots c;
}.

Definition id_slot (c : UvmWatcherContext) (id : Z) : nat := Z.to_nat ((id - uvm_ptr c) / 8).

Lemma id_slot_to_id c s : id_slot c (slot_to_id c s) = s.
Proof.
  unfold id_slot, slot_to_id. replace (_ + _ - _) with (Z.of_nat s * 8) by lia.
  rewrite Z.div_mul by lia. lia.
Qed.

Lemma uvm_new_wf ptr : uvm_wf (uvm_new ptr).
Proof.
  split; simpl.
  - by rewrite length_replicate.
  - by rewrite length_replicate.
  - apply NoDup_seq.
  - intros s. rewrite elem_of_seq. set_solver by lia.
  - set_solver.
Qed.

Lemma acquire_wf c slot rest :
  uvm_wf c -> free_slots c = slot :: rest ->
  uvm_wf {| uvm_ptr := uvm_ptr c; uvm_memory := uvm_memory c; last_values := last_values c;
            free_slots := rest; used_slots := {[slot]} ∪ used_slots c |}.
Proof.
  intros [Hm Hl Hf Hp Hd] E. rewrite E in *. apply NoDup_cons in Hf as [Hn Hf].
  split; simpl; try done.
  - intros s. rewrite Hp. set_solver.
  - intros s Hs. specialize (Hd s). set_solver.
Qed.

Lemma release_wf c slot :
  uvm_wf c -> slot ∈ used_slots c ->
  uvm_wf {| uvm_ptr := uvm_ptr c; uvm_memory := <[slot := 0]> (uvm_memory c);
            last_values := <[slot := 0]> (last_values c);
            free_slots := slot :: free_slots c; used_slots := used_slots c ∖ {[slot]} |}.
Proof.
  intros [Hm Hl Hf Hp Hd] Hs. split; simpl.
  - by rewrite length_insert.
  - by rewrite length_insert.
  - apply NoDup_cons. split; [|done]. intros Hin. by apply (Hd slot).
  - intros s. rewrite Hp. destruct (decide (s = slot)) as [->|]; set_solver.
  - intros s [->|Hin]%elem_of_cons; [set_solver|]. specialize (Hd s Hin). set_solver.
Qed.

(** What a client and the GPU do: acquire, release the [k]-th watcher it holds, write memory. *)
Inductive uvm_op : Type := UAcquire | URelease (k : nat) | UWrite (slot : nat) (v : Z).

Definition uvm_exec (o : uvm_op) : M (UvmWatcherContext * list Z) unit := fun '(c, held) =>
  match o with
  | UAcquire =>
      match acquire c with
      | Done (Some id, c) => Done (tt, (c, id :: held))
      | Done (None, c) => Done (tt, (c, held))
      | Panic why => Panic why
      | OutOfFuel => OutOfFuel
      end
  | URelease k =>
      match held !! k with
      | None => Done (tt, (c, held))
      | Some id =>
          match release id c with
          | Done (_, c) => Done (tt, (c, delete k held))
          | Panic why => Panic why
          | OutOfFuel => OutOfFuel
          end
      end
  | UWrite slot v =>
      Done (tt, ({| uvm_ptr := uvm_ptr c; uvm_memory := <[slot := v]> (uvm_memory c);
                    last_values := last_values c; free_slots := free_slots c;
                    used_slots := used_slots c |}, held))
  end.

(** The watchers held are exactly the used slots. *)
Record held_ok (c : UvmWatcherContext) (held : list Z) : Prop := {
  ho_wf : uvm_wf c;
  ho_nodup : NoDup held;
  ho_ids : forall id, id ∈ held <-> exists s, s ∈ used_slots c /\ id = slot_to_id c s;
}.

Lemma slot_to_id_inj c s s' : slot_to_id c s = slot_to_id c s' -> s = s'.
Proof. unfold slot_to_id. lia. Qed.

Lemma release_held c held k id :
  held_ok c held -> held !! k = Some id ->
  exists c', release id c = Done (tt, c') /\ held_ok c' (delete k held) /\
    uvm_memory c' !! id_slot c id = Some 0 /\ id_slot c id ∈ free_slots c'.
Proof.
  intros [Hwf Hnd Hids] Hk.
  assert (id ∈ held) as Hin by (by eapply list_elem_of_lookup_2).
  apply Hids in Hin as (s & Hs & ->). rewrite id_slot_to_id.
  assert (s < NUM_SLOTS)%nat as Hlt by (apply (uw_part _ Hwf); by right).
  unfold release. assert (Z.to_nat ((slot_to_id c s - uvm_ptr c) / 8) = s) as -> by apply id_slot_to_id.
  unfold uvm_size. rewrite (uw_mem _ Hwf).
  rewrite (proj2 (Z.ltb_ge _ _)) by (unfold slot_to_id; lia).
  rewrite (proj2 (Z.leb_gt _ _)) by (unfold slot_to_id; lia). cbn [orb].
  rewrite decide_True by done. eexists. split; [done|]. split; [|split].
  - split; [by apply release_wf| |].
    + eapply sublist_NoDup; [exact Hnd|]. apply sublist_delete.
    + intros id. simpl. assert (held ≡ₚ slot_to_id c s :: delete k held) as Hperm.
      { by apply delete_Permutation. }
      rewrite Hperm in Hnd. apply NoDup_cons in Hnd as [Hnot _].
      split.
      * intros Hid. assert (id ∈ held) as (s' & Hs' & ->)%Hids by (rewrite Hperm; set_solver).
        exists s'. split; [|done]. destruct (decide (s' = s)) as [->|]; [done|set_solver].
      * intros (s' & Hs' & ->). assert (slot_to_id c s' ∈ held) as Hi.
        { apply Hids. exists s'. split; [set_solver|done]. }
        rewrite Hperm in Hi. apply elem_of_cons in Hi as [Heq|]; [|done].
        apply slot_to_id_inj in Heq. set_solver.
  - simpl. apply list_lookup_insert_eq. rewrite (uw_mem _ Hwf). done.
  - simpl. set_solver.
Qed.

Lemma acquire_held c held :
  held_ok c held ->
  match acquire c with
  | Done (Some id, c') => id ∉ held /\ held_ok c' (id :: held)
  | Done (None, c') => c' = c /\ length held = NUM_SLOTS
  | _ => False
  end.
Proof.
  intros [Hwf Hnd Hids]. unfold acquire. destruct (free_slots c) as [|s rest] eqn:E.
  - split; [done|]. assert (held ≡ₚ slot_to_id c <$> seq 0 NUM_SLOTS) as ->.
    { apply NoDup_Permutation; [done| |].
      - apply NoDup_fmap_2; [intros ? ?; apply slot_to_id_inj|apply NoDup_seq].
      - intros id. rewrite Hids, list_elem_of_fmap. split; intros (s & Hs & Hid).
        + exists s. subst. split; [done|]. apply elem_of_seq. split; [lia|]. apply (uw_part _ Hwf). by right.
        + exists s. split; [|done]. assert (s < NUM_SLOTS)%nat as Hlt by (apply elem_of_seq in Hid; lia).
          apply (uw_part _ Hwf) in Hlt as [Hlt|]; [rewrite E in Hlt; set_solver|done]. }
    by rewrite length_fmap, length_seq.
  - assert (slot_to_id c s ∉ held) as Hnew.
    { intros (s' & Hs' & Heq)%Hids. apply slot_to_id_inj in Heq as ->.
      eapply (uw_disj _ Hwf); [|exact Hs']. rewrite E. set_solver. }
    split; [done|]. split; [by apply acquire_wf|by apply NoDup_cons|].
    intros id. rewrite elem_of_cons, Hids. simpl. unfold slot_to_id; simpl. set_solver.
Qed.

Lemma write_held c held slot v :
  held_ok c held ->
  held_ok {| uvm_ptr := uvm_ptr c; uvm_memory := <[slot := v]> (uvm_memory c);
             last_values := last_values c; free_slots := free_slots c;
             used_slots := used_slots c |} held.
Proof. intros [[] ? ?]. split; [split|..]; simpl; rewrite ?length_insert; done. Qed.

(** C36: UVM watchers are exclusive.  Over any sequence of acquisitions, releases of held watchers
    and GPU writes, no operation panics, the watchers held at any time are pairwise distinct,
    and a further acquisition returns a watcher nobody holds, or [None] exactly when all 512
    are held. *)
Theorem uvm_watchers_exclusive ptr ops :
  exists c held, for_each ops uvm_exec (uvm_new ptr, []) = Done (tt, (c, held)) /\ NoDup held /\
    match acquire c with
    | Done (Some id, _) => id ∉ held /\ (length held < NUM_SLOTS)%nat
    | Done (None, _) => length held = NUM_SLOTS
    | _ => False
    end.
Proof.
  assert (forall c held, held_ok c held -> exists c' held',
    for_each ops uvm_exec (c, held) = Done (tt, (c', held')) /\ held_ok c' held') as Hrun.
  { induction ops as [|o ops IH]; intros c held Hok; [by exists c, held|].
    cbn [for_each]. unfold bind. destruct o as [|k|slot v]; cbn [uvm_exec].
    - pose proof (acquire_held _ _ Hok) as Ha.
      destruct (acquire c) as [[[id|] c']| |]; [apply IH, Ha| |done|done].
      destruct Ha as [-> _]. by apply IH.
    - destruct (held !! k) as [id|] eqn:Hk; [|by apply IH].
      destruct (release_held _ _ _ _ Hok Hk) as (c' & -> & Hok' & _). by apply IH.
    - by apply IH, write_held. }
  destruct (Hrun (uvm_new ptr) []) as (c & held & Hr & Hok).
  { split; [apply uvm_new_wf|constructor|]. intros id. simpl. set_solver. }
  exists c, held. split; [done|]. split; [apply Hok|]. pose proof (acquire_held _ _ Hok) as Ha.
  destruct (acquire c) as [[[id|] c']| |]; [|by destruct Ha|done|done].
  split; [by destruct Ha|]. destruct Ha as [_ [Hwf Hnd Hids]].
  assert (length (id :: held) <= length (slot_to_id c' <$> seq 0 NUM_SLOTS))%nat as Hlen.
  { apply submseteq_length, NoDup_submseteq; [done|]. intros x (s & Hs & ->)%Hids.
    apply list_elem_of_fmap. exists s. split; [done|]. apply elem_of_seq. split; [lia|].
    apply (uw_part _ Hwf). by right. }
  rewrite length_fmap, length_seq in Hlen. simpl in Hlen. lia.
Qed.

(** The watcher thread ends at the first iteration that sees the stop signal, in the state it has
    then; what arrives later is not looked at. *)
Lemma uvm_thread_stops iter ptr pin_cpu maybe_pin_cpu pre last post s s' :
  maybe_pin_cpu ≫= pin_cpu = None -> Forall (fun i => i.1 = false) pre ->
  uvm_worker_main iter ptr pre s = Done (tt, s') ->
  uvm_worker_thread iter ptr pin_cpu maybe_pin_cpu true (pre ++ (true, last) :: post) s = Done (Ok tt, s').
Proof.
  intros Hpin Hpre Hrun. unfold uvm_worker_thread. rewrite Hpin.
  assert (uvm_worker_main iter ptr (pre ++ (true, last) :: post) s = Done (tt, s')) as Hmain; [|unfold bind; by rewrite Hmain].
  revert s Hrun. induction Hpre as [|[stop call] pre Hs _ IH]; intros s; cbn [uvm_worker_main app]; [done|].
  cbn in Hs. subst stop. rewrite !bind_done. intros ([r|e] & s1 & H1 & H2); [|done]. exists (Ok r), s1. auto.
Qed.

(** The entry a watch pass sends for a slot. *)
Definition changed (c : UvmWatcherContext) (slot : nat) : option TransferCompletionEntry :=
  match uvm_memory c !! slot, last_values c !! slot with
  | Some value, Some old => if value =? old then None else Some (TcUvmWatch (slot_to_id c slot) old value)
  | _, _ => None
  end.

(** [c] with the last values of the slots [l] brought up to date. *)
Definition seen (l : list nat) (c : UvmWatcherContext) : UvmWatcherContext :=
  {| uvm_ptr := uvm_ptr c; uvm_memory := uvm_memory c;
     last_values := imap (fun i v => if decide (i ∈ l) then default v (uvm_memory c !! i) else v) (last_values c);
     free_slots := free_slots c; used_slots := used_slots c |}.

Lemma seen_nil c : seen [] c = c.
Proof.
  destruct c as [p m l f u]. unfold seen; simpl. f_equal. apply list_eq. intros i.
  rewrite list_lookup_imap. by destruct (l !! i).
Qed.

Lemma watch_slot_run c ch slot :
  uvm_wf c -> (slot < NUM_SLOTS)%nat -> cq_open ch = true ->
  exists ch', watch_slot slot {| us_ctx := Some c; us_chans := ch |} =
      Done (Ok tt, {| us_ctx := Some (seen [slot] c); us_chans := ch' |}) /\
    cq_open ch' = true /\ cq_sent ch' = cq_sent ch ++ option_list (changed c slot).
Proof.
  intros Hwf Hs Ho.
  destruct (lookup_lt_is_Some_2 (uvm_memory c) slot) as (v & Hv); [rewrite (uw_mem _ Hwf); lia|].
  destruct (lookup_lt_is_Some_2 (last_values c) slot) as (o & Hl); [rewrite (uw_last _ Hwf); lia|].
  cbv [watch_slot bind gets unwrap ret changed]. simpl. rewrite Hv, Hl.
  assert (last_values (seen [slot] c) = <[slot := v]> (last_values c)) as Hseen.
  { simpl. apply list_eq. intros i. rewrite list_lookup_imap. destruct (decide (i = slot)) as [->|Hne].
    - rewrite Hl. simpl. rewrite decide_True by set_solver. rewrite Hv. simpl.
      rewrite list_lookup_insert_eq; [done|]. by eapply lookup_lt_Some.
    - rewrite list_lookup_insert_ne by done. destruct (last_values c !! i); [|done]. simpl.
      by rewrite decide_False by set_solver. }
  destruct (Z.eqb_spec v o) as [->|Hne].
  - exists ch. split; [|by rewrite app_nil_r]. do 3 f_equal.
    rewrite list_insert_id in Hseen by done. destruct c; simpl in *. unfold seen; simpl. by rewrite Hseen.
  - cbv [set_ctx modify on_uvm_chans on_state cq_send]. simpl. rewrite Ho. unfold seen in *. simpl in *.
    rewrite Hseen. eexists. split; [done|]. done.
Qed.

Lemma seen_wf l c : uvm_wf c -> uvm_wf (seen l c).
Proof. intros []. split; simpl; rewrite ?length_imap; done. Qed.

Lemma seen_changed s s' c : s <> s' -> changed (seen [s] c) s' = changed c s'.
Proof.
  intros Hne. unfold changed, seen; simpl. rewrite list_lookup_imap.
  destruct (last_values c !! s') eqn:E; simpl; [|done]. by rewrite decide_False by set_solver.
Qed.

Lemma seen_seen s l c : seen l (seen [s] c) = seen (s :: l) c.
Proof.
  unfold seen; simpl. f_equal. apply list_eq. intros i. rewrite !list_lookup_imap.
  destruct (last_values c !! i); simpl; [|done]. f_equal. repeat case_decide; try set_solver.
  by destruct (uvm_memory c !! i).
Qed.

Lemma watch_all c ch l :
  uvm_wf c -> NoDup l -> (forall s, s ∈ l -> (s < NUM_SLOTS)%nat) -> cq_open ch = true ->
  exists ch', try_for_each l watch_slot {| us_ctx := Some c; us_chans := ch |} =
      Done (Ok tt, {| us_ctx := Some (seen l c); us_chans := ch' |}) /\
    cq_sent ch' = cq_sent ch ++ omap (changed c) l.
Proof.
  revert c ch. induction l as [|s l IH]; intros c ch Hwf Hnd Hin Ho.
  - exists ch. simpl. cbv [ret]. by rewrite seen_nil, app_nil_r.
  - apply NoDup_cons in Hnd as [Hs Hnd]. cbn [try_for_each]. unfold bind_res, bind.
    destruct (watch_slot_run c ch s Hwf) as (ch1 & -> & Ho1 & Hs1); [set_solver|done|].
    destruct (IH (seen [s] c) ch1) as (ch' & Hrun & Hs'); [by apply seen_wf|done|set_solver|done|].
    exists ch'. rewrite Hrun, seen_seen. split; [done|]. rewrite Hs', Hs1, <- (assoc_L (++)). f_equal.
    assert (omap (changed (seen [s] c)) l = omap (changed c) l) as ->.
    { apply list_omap_ext, Forall_Forall2_diag, Forall_forall.
      intros x Hx. apply seen_changed. intros ->. done. }
    simpl. by destruct (changed c s).
Qed.

(** A pass of the UVM watcher reports each change once.  Whatever order the set of used slots
    is traversed in, the pass sends exactly one entry, with the previous and the new value, for
    each used slot whose memory differs from the value last seen, nothing for any other slot,
    and records the values seen; a pass that follows without a GPU write sends nothing. *)
Theorem uvm_pass_reports_changes iter ptr c ch :
  uvm_wf c -> cq_open ch = true -> (forall s, iter s ≡ₚ elements s) ->
  exists ch', uwm_worker_step iter ptr Empty {| us_ctx := Some c; us_chans := ch |} =
      Done (Ok tt, {| us_ctx := Some (seen (elements (used_slots c)) c); us_chans := ch' |}) /\
    cq_sent ch' = cq_sent ch ++ omap (changed c) (iter (used_slots c)) /\
    omap (changed (seen (elements (used_slots c)) c)) (iter (used_slots c)) = [] /\
    (forall s, s ∉ used_slots c -> last_values (seen (elements (used_slots c)) c) !! s = last_values c !! s).
Proof.
  intros Hwf Ho Hiter. pose proof (Hiter (used_slots c)) as Hp.
  destruct (watch_all c ch (iter (used_slots c))) as (ch' & Hrun & Hsent); [done|..|done|].
  { rewrite Hp. apply NoDup_elements. }
  { intros s Hs. rewrite Hp in Hs. apply (uw_part _ Hwf). right. set_solver. }
  assert (seen (iter (used_slots c)) c = seen (elements (used_slots c)) c) as Heq.
  { unfold seen. f_equal. apply list_eq. intros i. rewrite !list_lookup_imap.
    destruct (last_values c !! i); simpl; [|done]. f_equal. repeat case_decide; [done|..|done];
    match goal with H1 : _ ∈ _, H2 : _ ∉ _ |- _ => exfalso; apply H2; revert H1 end; by rewrite Hp. }
  exists ch'. split; [|split; [done|split]].
  - unfold uwm_worker_step, bind_res, bind. cbn. by rewrite Hrun, Heq.
  - rewrite <- Heq. assert (forall l, (forall s, s ∈ l -> changed (seen (iter (used_slots c)) c) s = None) ->
      omap (changed (seen (iter (used_slots c)) c)) l = []) as Hnone.
    { induction l as [|s l IH]; intros Hl; [done|]. simpl. rewrite (Hl s) by set_solver. apply IH. set_solver. }
    apply Hnone. intros s Hs. unfold changed, seen; simpl. rewrite list_lookup_imap.
    destruct (uvm_memory c !! s) eqn:Hm; [|done]. destruct (last_values c !! s); simpl; [|done].
    rewrite decide_True by done. by rewrite Z.eqb_refl.
  - intros s Hs. unfold seen; simpl. rewrite list_lookup_imap. destruct (last_values c !! s); simpl; [|done].
    rewrite decide_False by set_solver. done.
Qed.

(** ** Witnesses *)
Definition idle_chans : Chans := {| cq_open := true; cq_sent := []; answered := [] |}.

Definition lb_worker : WorkerState (D:=Loopback) :=
  {| w_group := (new_map, new lb_two); w_chans := idle_chans |}.

Definition lb_barrier : TryRecv WorkerCommand := Received (SubmitTransfer 9 (ReqBarrier {|
  br_imm_data := 5; br_dst_mrs := [lb_remote; lb_remote]; br_domain := RoundRobinSharded 1 |}) None).

Lemma worker_step_delivers_witness :
  exists w1, step_front Empty lb_barrier lb_worker = Done (Ok tt, w1) /\
  exists w' wa g o cs out, worker_step 10 Empty lb_barrier lb_worker = Done (Ok tt, w') /\
    process_call Empty lb_worker = Done (Ok tt, wa) /\ run_command lb_barrier (w_group wa) = Done (o, g) /\
    pops (queues (w_group w1)) cs (queues (w_group w')) /\
    track_all cs (abs (w_group w1)) = Done (out, abs (w_group w')) /\
    cq_sent (w_chans w') = [] ++ rejection o ++ (tx_comp <$> out) /\ cs <> [].
Proof.
  eexists. split; [reflexivity|].
  edestruct (worker_step_delivers 2 10 Empty lb_barrier lb_worker)
    as (w' & wa & g & o & cs & out & H1 & H2 & H3 & H4 & H5 & H6 & H7);
    [apply (new_wf lb_two); done|reflexivity|reflexivity|vm_compute; lia|].
  exists w', wa, g, o, cs, out. split; [exact H1|]. split; [exact H2|]. split; [exact H3|].
  split; [exact H4|]. split; [exact H5|]. split; [exact H6|]. apply H7. vm_compute. intros E. discriminate E.
Defined.

Definition watched : UvmWatcherContext :=
  match for_each [UAcquire; UAcquire; UWrite 1 7] uvm_exec (uvm_new 4096, []) with
  | Done (_, (c, _)) => c
  | _ => uvm_new 0
  end.

Lemma watched_wf : uvm_wf watched.
Proof.
  assert (held_ok (uvm_new 4096) []) as H0.
  { split; [apply uvm_new_wf|constructor|]. intros id. simpl. set_solver. }
  assert (forall c held, held_ok c held -> free_slots c <> [] ->
    exists c' id, uvm_exec UAcquire (c, held) = Done (tt, (c', id :: held)) /\ held_ok c' (id :: held)) as Ha.
  { intros c held Hok Hf. pose proof (acquire_held _ _ Hok) as Hacq. cbn [uvm_exec].
    unfold acquire in *. destruct (free_slots c); [done|]. eexists _, _. split; [done|apply Hacq]. }
  unfold watched. cbn [for_each]. unfold bind.
  destruct (Ha _ _ H0) as (c1 & id1 & H1 & Hok1); [done|]. rewrite H1.
  destruct (Ha _ _ Hok1) as (c2 & id2 & H2 & Hok2); [injection H1 as <- <-; done|]. rewrite H2.
  cbn [uvm_exec]. cbv [ret]. apply (write_held c2 _ 1 7 Hok2).
Qed.

Lemma uvm_pass_reports_changes_witness :
  exists ch', uwm_worker_step elements 4096 Empty {| us_ctx := Some watched; us_chans := idle_chans |} =
      Done (Ok tt, {| us_ctx := Some (seen (elements (used_slots watched)) watched); us_chans := ch' |}) /\
    cq_sent ch' = [TcUvmWatch 4104 0 7].
Proof.
  destruct (uvm_pass_reports_changes elements 4096 watched idle_chans) as (ch' & H1 & H2 & _);
    [apply watched_wf|reflexivity|reflexivity|].
  exists ch'. split; [exact H1|]. rewrite H2. vm_compute. reflexivity.
Defined.
