(* ===== verification/A2aWorker.v ===== *)
(** * The all-to-all worker

    [p2p-all-to-all/src/a2a_worker.rs]: the host side of the expert-parallel all-to-all.  Each
    rank tells every other how many tokens it routes to each expert; from that table the worker
    computes where each received token lies and where it goes, and which byte ranges to write to
    which peers.

    [usize] quantities that index are [nat]; counts and offsets ([u32], [u64]) are [Z] with
    their wrap-around.  The table [tbl] is the content of the [num_routed] buffer, row [g] being
    the counts of data-parallel group [g].  Reading outside it, writing past the end of a device
    vector and indexing out of range are panics of the model. *)
From stdpp Require Import prelude strings list.
From S2P Require Import Prelude Api.
Local Open Scope Z_scope.

Record AllToAllRankHandle := {
  rh_address : DomainAddress;
  num_routed_desc : MemoryRegionDescriptor;
  recv_buffer_desc : MemoryRegionDescriptor;
}.

(** The fields of [WorkerState] that do not change after [new]. *)
Record A2aState := {
  max_recv_tokens : nat;
  max_private_tokens : nat;
  hidden_dim : Z;
  hidden_dim_scale : Z;
  in_elemsize : Z;
  out_elemsize : Z;
  scale_elemsize : Z;
  num_experts : nat;
  expert_padding : Z;
  rank : nat;
  dp_rank : nat;
  dp_group : nat;
  dp_size : nat;
  node_size : nat;
  world_size : nat;
  rank_handles : list AllToAllRankHandle;
  nets_per_gpu : Z;
  dispatch_imm : Z;
  combine_imm : Z;
  route_imm : Z;
  dispatch_barrier_imm : Z;
  combine_barrier_imm : Z;
  num_routed_mr : MemoryRegionHandle;
  send_buffer_mr : MemoryRegionHandle;
  route_write_op : TransferRequest;
  dispatch_barrier_write_op : TransferRequest;
  combine_barrier_write_op : TransferRequest;
}.

(** The five [GdrFlag]s the worker waits for, and those it sets. *)
Inductive Flag : Type :=
  | dispatch_route_done | dispatch_send_done | dispatch_recv_done | combine_send_done
  | combine_recv_done | num_recv_tokens_flag | combine_recv_flag | tx_ready.

(** What the worker does to its environment, in order: wait for a flag (and clear it), set one,
    submit a transfer counted by [tx_counter], wait for immediates, wait until the transfers
    submitted have completed ([fetch_sub] of [tx_counter], then wait until it is not
    negative). *)
Inductive Action : Type :=
  | AWait (f : Flag)
  | ASet (f : Flag) (v : bool)
  | ASubmit (r : TransferRequest)
  | AWaitImm (imm n : Z)
  | AWaitGdr (imm n : Z)
  | AWaitTx (num_tx : Z).

(** ** Vectors and integers *)

(** [v[i]], [v[i] = x] and [a / b]. *)
Definition vget {S A} (v : list A) (i : nat) : M S A := unwrap (v !! i) "index out of bounds".
Definition vset {S A} (v : list A) (i : nat) (x : A) : M S (list A) :=
  if (i <? length v)%nat then ret (<[i := x]> v) else panic "index out of bounds".
Definition usize_div {S} (a b : nat) : M S nat :=
  if (b =? 0)%nat then panic "attempt to divide by zero" else ret (a / b)%nat.
Definition usize_sub {S} (a b : nat) : M S nat :=
  if (a <? b)%nat then panic "attempt to subtract with overflow" else ret (a - b)%nat.

(** [a..b]. *)
Definition range (a b : nat) : list nat := seq a (b - a).

(** [GdrVec::copy] into a vector of [cap] elements. *)
Definition gdr_copy {S} (cap : nat) (v : list Z) : M S (list Z) :=
  if (length v <=? cap)%nat then ret v else panic "copy past the end of a GdrVec".

Definition round16 (z : Z) : Z := div_ceil z 16 * 16.

Section Worker.
Context (c : A2aState).

Definition get_dispatch_token_dim : Z :=
  round16 (hidden_dim c * in_elemsize c) + round16 (hidden_dim_scale c * scale_elemsize c) + 16.

Definition get_combine_token_dim : Z := round16 (hidden_dim c * out_elemsize c).

Definition get_num_routed {S} (tbl : list Z) (g e : nat) : M S Z :=
  assert_ (g <? world_size c / dp_size c)%nat "assertion failed: dp_group < self.world_size / self.dp_size" ;;;
  assert_ (e <? num_experts c)%nat "assertion failed: expert < self.num_experts" ;;;
  unwrap (tbl !! (g * num_experts c + e)%nat) "read outside num_routed".

Definition experts_per_rank : nat := nat_div_ceil (num_experts c) (world_size c).

(** ** The first transfers: [dispatch_initial_routes] *)

(** [tokens_on_rank += num_routed] over the experts of a rank. *)
Fixpoint count_tokens {S} (tbl : list Z) (g : nat) (experts : list nat) (tokens_on_rank : Z) : M S Z :=
  match experts with
  | [] => ret tokens_on_rank
  | e :: experts => let! n := get_num_routed tbl g e in count_tokens tbl g experts (tokens_on_rank + n)
  end.

Definition rank_experts (r : nat) : list nat :=
  range (r * experts_per_rank) (Nat.min (S r * experts_per_rank) (num_experts c)).

(** The first loop: [tokens_per_rank], [rank_offset] and the running offset. *)
Definition initial_counts (tbl : list Z) : M (list Z * list Z * Z) unit :=
  for_each (seq 0 (world_size c)) (fun peer_rank s =>
    let '(tokens_per_rank, rank_offset, offset) := s in
    (let! n := count_tokens tbl (dp_group c) (rank_experts peer_rank) 0 in
     let! t := vset tokens_per_rank peer_rank n in
     let! o := vset rank_offset peer_rank offset in
     fun _ => Done (tt, (t, o, offset + n))) s).

(** [((rank_node + peer_node) * node_size + index) % world_size]. *)
Definition remote_rank {S} (peer_node index : nat) : M S nat :=
  let! rank_node := usize_div (rank c) (node_size c) in
  usize_rem ((rank_node + peer_node) * node_size c + index) (world_size c).

Definition initial_target {S} (tokens_per_rank rank_offset : list Z) (peer_node index : nat) :
    M S ScatterTarget :=
  let token_dim := get_dispatch_token_dim in
  let! peer_rank := remote_rank peer_node index in
  let! n := vget tokens_per_rank peer_rank in
  let num_tokens := Z.min n (Z.of_nat (max_private_tokens c)) in
  let! handle := vget (rank_handles c) peer_rank in
  let! off := vget rank_offset peer_rank in
  ret {| st_dst_mr := recv_buffer_desc handle; st_length := as_u64 (token_dim * num_tokens);
         st_src_offset := as_u64 (token_dim * off);
         st_dst_offset := as_u64 (token_dim * Z.of_nat (dp_group c * max_private_tokens c)) |}.

(** The nested loops over remote nodes and the given indices within a node, pushing what
    [body] gives. *)
Fixpoint collect {S A B} (l : list A) (body : A -> M S (list B)) : M S (list B) :=
  match l with
  | [] => ret []
  | x :: l => let! y := body x in let! ys := collect l body in ret (y ++ ys)
  end.

Definition dispatch_initial_routes {S} (tbl : list Z) : M S (list ScatterTarget) := fun s =>
  match initial_counts tbl (replicate (world_size c) 0, replicate (world_size c) 0, 0) with
  | Panic why => Panic why
  | OutOfFuel => OutOfFuel
  | Done (_, (tokens_per_rank, rank_offset, _)) =>
      (let! num_nodes := usize_div (world_size c) (node_size c) in
       collect (range 1 num_nodes) (fun peer_node =>
         collect (seq 0 (node_size c)) (fun index =>
           let! t := initial_target tokens_per_rank rank_offset peer_node index in ret [t]))) s
  end.

(** ** [process_routing_info]: counting *)

(** What the first loop computes from this rank's own row, and from the rows of all groups. *)
Record SendSide := {
  rank_off : Z;
  source_expert_offset : list Z;
  tokens_to_rank : list Z;
  dispatch_src_offset : list Z;
}.

Record RecvSide := {
  tokens_from_group : list Z;
  src_group_offset : list Z;
  dst_group_offset : list Z;
  tokens_per_expert : list Z;
  num_recv_tokens : Z;
  num_recv_tx : Z;
}.

Definition send_expert (tbl : list Z) (r expert : nat) : M SendSide unit := fun s =>
  (let! n := get_num_routed tbl (dp_group c) expert in
   let! seo := vset (source_expert_offset s) expert (rank_off s) in
   let! old := vget (tokens_to_rank s) r in
   let! ttr := vset (tokens_to_rank s) r (u32_add old n) in
   fun _ => Done (tt, {| rank_off := u32_add (rank_off s) n; source_expert_offset := seo;
     tokens_to_rank := ttr; dispatch_src_offset := dispatch_src_offset s |})) s.

Definition send_rank (tbl : list Z) (r : nat) : M SendSide unit :=
  (fun s => (let! dso := vset (dispatch_src_offset s) r (rank_off s) in
   fun _ => Done (tt, {| rank_off := rank_off s; source_expert_offset := source_expert_offset s;
     tokens_to_rank := tokens_to_rank s; dispatch_src_offset := dso |})) s) ;;;
  let first_expert := (r * experts_per_rank)%nat in
  let last_expert := Nat.min (first_expert + experts_per_rank) (num_experts c) in
  for_each (range first_expert last_expert) (send_expert tbl r).

Definition first_local_expert : nat := rank c * experts_per_rank.
Definition last_local_expert : nat := Nat.min (first_local_expert + experts_per_rank) (num_experts c).

(** [offset += self.get_num_routed(g, expert)] in [u32]. *)
Fixpoint sum_u32 {S} (tbl : list Z) (g : nat) (experts : list nat) (offset : Z) : M S Z :=
  match experts with
  | [] => ret offset
  | e :: experts => let! n := get_num_routed tbl g e in sum_u32 tbl g experts (u32_add offset n)
  end.

(** The loop over local experts: [num_tokens] and [tokens_per_expert]. *)
Fixpoint count_local {S} (tbl : list Z) (g : nat) (experts : list nat) (num_tokens : Z)
    (per_expert : list Z) : M S (Z * list Z) :=
  match experts with
  | [] => ret (num_tokens, per_expert)
  | e :: experts =>
      let! n := get_num_routed tbl g e in
      let! old := vget per_expert (e - first_local_expert) in
      let! per_expert := vset per_expert (e - first_local_expert) (u32_add old n) in
      count_local tbl g experts (num_tokens + n) per_expert
  end.

Definition recv_group (tbl : list Z) (rank_node groups_per_node g : nat) : M RecvSide unit := fun s =>
  (let! group_node := usize_div g groups_per_node in
   let! offset := sum_u32 tbl g (range 0 first_local_expert) 0 in
   let! dgo := vset (dst_group_offset s) g offset in
   let! cl := count_local tbl g (range first_local_expert last_local_expert) 0 (tokens_per_expert s) in
   let '(num_tokens, tpe) := cl in
   let! old := vget (tokens_from_group s) g in
   let! tfg := vset (tokens_from_group s) g (u32_add old (as_u32 num_tokens)) in
   let! sgo := vset (src_group_offset s) g (as_u32 (num_recv_tokens s)) in
   let tx :=
     if negb (g =? dp_group c)%nat && negb (group_node =? rank_node)%nat then
       u32_add (u32_add (num_recv_tx s) 1)
         (if Z.of_nat (max_private_tokens c) <? num_tokens then nets_per_gpu c else 0)
     else num_recv_tx s in
   fun _ => Done (tt, {| tokens_from_group := tfg; src_group_offset := sgo; dst_group_offset := dgo;
     tokens_per_expert := tpe; num_recv_tokens := num_recv_tokens s + num_tokens;
     num_recv_tx := tx |})) s.

(** The whole first loop. *)
Definition on_send {A} (m : M SendSide A) : M (SendSide * RecvSide) A :=
  on_state fst (fun x s => (x, s.2)) m.
Definition on_recv {A} (m : M RecvSide A) : M (SendSide * RecvSide) A :=
  on_state snd (fun x s => (s.1, x)) m.

Definition count_group (tbl : list Z) (rank_node groups_per_node g : nat) : M (SendSide * RecvSide) unit :=
  for_each (seq 0 (dp_size c)) (fun i => on_send (send_rank tbl (g * dp_size c + i))) ;;;
  on_recv (recv_group tbl rank_node groups_per_node g).

(** [padded_offset]: the padded counts, summed. *)
Fixpoint pad_experts {S} (base : Z) (counts : list Z) : M S (list Z) :=
  match counts with
  | [] => ret []
  | n :: counts =>
      if expert_padding c =? 0 then panic "attempt to divide by zero"
      else
        let! rest := pad_experts (u32_add base (as_u32 (div_ceil n (expert_padding c) * expert_padding c))) counts in
        ret (base :: rest)
  end.

(** ** [process_routing_info]: the order of the tokens *)
Record Shuffle := {
  last : nat;
  src_dispatch_count : list Z;
  src_combine_count : list Z;
  expert_count : list Z;
  sh_source_expert_offset : list Z;
  source_dispatch_offset : list Z;
  combine_send_offset : list Z;
  source_rank : list Z;
  padded_index : list Z;
}.

Section RouteGroup.
Context (sgo dgo padded_offset : list Z) (base_offset : Z) (rank_node : nat).

(** The first half of the body: where the token is read from.  The result is the new
    [source_expert_offset], [src_dispatch_count], the dispatch offset and, for a local token,
    the combine offset. *)
Definition dispatch_source {S} (peer_group expert : nat) (s : Shuffle) : M S (list Z * list Z * Z * option Z) :=
  let peer_rank := (peer_group * dp_size c + dp_rank c)%nat in
  let private_offset := as_u32 (Z.of_nat (max_private_tokens c * peer_group)) in
  let! src_offset := vget sgo peer_group in
  let! dst_offset := vget dgo peer_group in
  if (peer_rank =? rank c)%nat then
    let! local_offset := vget (sh_source_expert_offset s) expert in
    let! seo := vset (sh_source_expert_offset s) expert (u32_add local_offset 1) in
    ret (seo, src_dispatch_count s, local_offset, Some local_offset)
  else
    let! index_on_rank := vget (src_dispatch_count s) peer_group in
    let! sdc := vset (src_dispatch_count s) peer_group (u32_add index_on_rank 1) in
    let! peer_node := usize_div peer_rank (node_size c) in
    let off :=
      if index_on_rank <? Z.of_nat (max_private_tokens c) then u32_add private_offset index_on_rank
      else if (peer_node =? rank_node)%nat then Z.lor (u32_add dst_offset index_on_rank) (Z.shiftl 1 31)
      else u32_add (u32_add src_offset index_on_rank)
             (wrapu 32 (as_u32 base_offset - as_u32 (Z.of_nat (max_private_tokens c)))) in
    ret (sh_source_expert_offset s, sdc, off, None).

(** The second half: where the result is sent back from. *)
Definition combine_source {S} (peer_group : nat) (s : Shuffle) : M S (list Z * option Z) :=
  let peer_rank := (peer_group * dp_size c + dp_rank c)%nat in
  if negb (peer_rank =? rank c)%nat || (1 <? dp_size c)%nat then
    let! src_offset := vget sgo peer_group in
    let! dst_offset := vget dgo peer_group in
    let! combine_index := vget (src_combine_count s) peer_group in
    let! scc := vset (src_combine_count s) peer_group (u32_add combine_index 1) in
    let! peer_node := usize_div peer_rank (node_size c) in
    ret (scc, Some (if (peer_node =? rank_node)%nat then u32_add dst_offset combine_index
                    else u32_add src_offset combine_index))
  else ret (src_combine_count s, None).

Definition vset_opt {S} (v : list Z) (i : nat) (x : option Z) : M S (list Z) :=
  match x with Some x => vset v i x | None => ret v end.

(** One token of [expert] from [peer_group]. *)
Definition route_token (peer_group expert : nat) : M Shuffle unit := fun s =>
  (let peer_rank := (peer_group * dp_size c + dp_rank c)%nat in
   let local_expert := (expert - first_local_expert)%nat in
   let! ds := dispatch_source peer_group expert s in
   let '(seo, sdc, off, local) := ds in
   let! sdo := vset (source_dispatch_offset s) (last s) off in
   let! cso := vset_opt (combine_send_offset s) (last s) local in
   let! cs := combine_source peer_group s in
   let '(scc, send) := cs in
   let! cso := vset_opt cso (last s) send in
   let! sr := vset (source_rank s) (last s) (as_u32 (Z.of_nat peer_rank)) in
   let! po := vget padded_offset local_expert in
   let! ec := vget (expert_count s) local_expert in
   let! pi := vset (padded_index s) (last s) (u32_add po (as_u32 ec)) in
   let! ecs := vset (expert_count s) local_expert (ec + 1) in
   fun _ => Done (tt, {| last := S (last s); src_dispatch_count := sdc; src_combine_count := scc;
     expert_count := ecs; sh_source_expert_offset := seo; source_dispatch_offset := sdo;
     combine_send_offset := cso; source_rank := sr; padded_index := pi |})) s.

(** The closure [route_group]; it returns the number of tokens. *)
Fixpoint route_experts (tbl : list Z) (peer_group : nat) (experts : list nat) (num_routed : Z) : M Shuffle Z :=
  match experts with
  | [] => ret num_routed
  | expert :: experts =>
      let! routed := get_num_routed tbl peer_group expert in
      for_each (replicate (Z.to_nat routed) tt) (fun _ => route_token peer_group expert) ;;;
      route_experts tbl peer_group experts (num_routed + routed)
  end.

Definition route_group (tbl : list Z) (peer_group : nat) : M Shuffle Z :=
  route_experts tbl peer_group (range first_local_expert last_local_expert) 0.

Fixpoint route_groups (tbl : list Z) (groups : list nat) : M Shuffle Z :=
  match groups with
  | [] => ret 0
  | g :: groups =>
      let! n := route_group tbl g in
      let! m := route_groups tbl groups in
      ret (n + m)
  end.
End RouteGroup.

(** The order in which groups are routed: remote ones, those on this node, this one. *)
Definition remote_groups (rank_node groups_per_node num_nodes : nat) : list nat :=
  concat ((fun i => (fun j => ((rank_node + i) mod num_nodes * groups_per_node + j)%nat) <$>
    seq 0 groups_per_node) <$> range 1 num_nodes).
Definition node_groups (rank_node groups_per_node : nat) : list nat :=
  (fun k => (rank_node * groups_per_node + (dp_group c + k) mod groups_per_node)%nat) <$>
    range 1 groups_per_node.

(** ** [process_routing_info]: the ranges to write *)

(** [(a..b).step_by(k)]. *)
Definition step_by (a b k : nat) : list nat :=
  (fun i => (a + i * k)%nat) <$> seq 0 (nat_div_ceil (b - a) k).

Definition dispatch_range {S} (tbl : list Z) (snd_ : SendSide) (base_offset : Z) (peer_node index : nat) :
    M S (list ScatterTarget) :=
  let! peer_rank := remote_rank peer_node index in
  let! handle := vget (rank_handles c) peer_rank in
  let! num_tokens := vget (tokens_to_rank snd_) peer_rank in
  if num_tokens <=? Z.of_nat (max_private_tokens c) then ret []
  else
    let! counts := collect (seq 0 (dp_group c)) (fun g =>
      let! n := count_tokens tbl g (rank_experts peer_rank) 0 in ret [n]) in
    let dst_offset := as_u64 (sum_list_Z counts) in
    let token_dim := get_dispatch_token_dim in
    let! dso := vget (dispatch_src_offset snd_) peer_rank in
    let src_offset := Z.of_nat (max_private_tokens c) + dso in
    ret [{| st_dst_mr := recv_buffer_desc handle;
            st_length := as_u64 (token_dim * (num_tokens - Z.of_nat (max_private_tokens c)));
            st_src_offset := as_u64 (src_offset * token_dim);
            st_dst_offset := as_u64 ((base_offset + dst_offset) * token_dim) |}].

Definition combine_range {S} (rcv : RecvSide) (num_dp_groups groups_per_node rank_node peer_node index : nat) :
    M S (list ScatterTarget) :=
  let! peer_group := usize_rem ((rank_node + peer_node) * groups_per_node + index) num_dp_groups in
  collect (seq 0 (dp_size c)) (fun i =>
    let token_dim := get_combine_token_dim in
    let peer_rank := (peer_group * dp_size c + i)%nat in
    let! n := vget (tokens_from_group rcv) peer_group in
    let! so := vget (src_group_offset rcv) peer_group in
    let! do_ := vget (dst_group_offset rcv) peer_group in
    let! handle := vget (rank_handles c) peer_rank in
    ret [{| st_dst_mr := recv_buffer_desc handle; st_length := as_u64 (token_dim * n);
            st_src_offset := as_u64 (so * token_dim); st_dst_offset := as_u64 (do_ * token_dim) |}]).

(** What [process_routing_info] returns and copies to the device. *)
Record Routing := {
  ri_num_recv_tx : Z;
  dispatch_ranges : list ScatterTarget;
  combine_ranges : list ScatterTarget;
  dev_tokens_per_expert : list Z;
  dev_padded_index : list Z;
  dev_source_rank : list Z;
  dev_source_dispatch_offset : list Z;
  dev_combine_send_offset : list Z;
  dev_num_recv_tokens : list Z;
}.

Definition run {S T A} (m : M T A) (t : T) : M S (A * T) := fun s =>
  match m t with Done r => Done (r, s) | Panic why => Panic why | OutOfFuel => OutOfFuel end.

Definition process_routing_info {S} (tbl : list Z) : M S Routing :=
  let! num_dp_groups := usize_div (world_size c) (dp_size c) in
  let! num_local_experts := usize_sub last_local_expert first_local_expert in
  let! rank_node := usize_div (rank c) (node_size c) in
  let! groups_per_node := usize_div (node_size c) (dp_size c) in
  let! num_nodes := usize_div (world_size c) (node_size c) in
  let zeros n := replicate n 0 in
  let! counted := run (for_each (seq 0 num_dp_groups) (count_group tbl rank_node groups_per_node))
    ({| rank_off := 0; source_expert_offset := zeros (num_experts c);
        tokens_to_rank := zeros (world_size c); dispatch_src_offset := zeros (world_size c) |},
     {| tokens_from_group := zeros num_dp_groups; src_group_offset := zeros num_dp_groups;
        dst_group_offset := zeros num_dp_groups; tokens_per_expert := zeros experts_per_rank;
        num_recv_tokens := 0; num_recv_tx := 0 |}) in
  let '(_, (snd_, rcv)) := counted in
  let! dev_tpe := gdr_copy experts_per_rank (tokens_per_expert rcv) in
  let! padded_offset := pad_experts 0 (tokens_per_expert rcv) in
  let n := Z.to_nat (num_recv_tokens rcv) in
  let base_offset := as_u64 (Z.of_nat (max_private_tokens c * num_dp_groups)) in
  let sh0 := {| last := 0; src_dispatch_count := zeros num_dp_groups;
    src_combine_count := zeros num_dp_groups; expert_count := zeros num_local_experts;
    sh_source_expert_offset := source_expert_offset snd_; source_dispatch_offset := zeros n;
    combine_send_offset := zeros n; source_rank := zeros n; padded_index := zeros n |} in
  let groups := route_groups (src_group_offset rcv) (dst_group_offset rcv) padded_offset base_offset rank_node tbl in
  let! shuffled := run (
    let! efa := groups (remote_groups rank_node groups_per_node num_nodes) in
    let! _ := groups (node_groups rank_node groups_per_node) in
    let! _ := groups [dp_group c] in
    ret efa) sh0 in
  let '(num_recv_efa_tokens, sh) := shuffled in
  let! dev_pi := gdr_copy (max_recv_tokens c) (padded_index sh) in
  let! dev_sr := gdr_copy (max_recv_tokens c) (source_rank sh) in
  let! dev_sdo := gdr_copy (max_recv_tokens c) (source_dispatch_offset sh) in
  let! dev_cso := gdr_copy (max_recv_tokens c) (combine_send_offset sh) in
  let! dev_n := gdr_copy 3 [as_u32 (num_recv_tokens rcv); as_u32 num_recv_efa_tokens] in
  let! dr := collect (range 1 num_nodes) (fun peer_node =>
    collect (step_by (dp_rank c) (node_size c) (dp_size c)) (dispatch_range tbl snd_ base_offset peer_node)) in
  let! cr := collect (range 1 num_nodes) (fun peer_node =>
    collect (seq 0 groups_per_node) (combine_range rcv num_dp_groups groups_per_node rank_node peer_node)) in
  ret {| ri_num_recv_tx := num_recv_tx rcv; dispatch_ranges := dr; combine_ranges := cr;
         dev_tokens_per_expert := dev_tpe; dev_padded_index := dev_pi; dev_source_rank := dev_sr;
         dev_source_dispatch_offset := dev_sdo; dev_combine_send_offset := dev_cso;
         dev_num_recv_tokens := dev_n |}.

(** ** [barrier] and [step] *)
Definition emit (a : Action) : M (list Action) unit := modify (fun l => l ++ [a]).

(** [stop] raises every flag the worker may be waiting for; [stop_flag] itself is what the next
    [is_running] sees. *)
Definition stop : M (list Action) unit :=
  for_each [dispatch_route_done; dispatch_send_done; dispatch_recv_done; combine_send_done;
            combine_recv_done] (fun f => emit (ASet f true)).

Definition barrier (request : TransferRequest) (imm : Z) (num_tx : Z) : M (list Action) unit :=
  emit (ASubmit request) ;;;
  emit (AWaitImm imm (as_u32 (Z.of_nat (world_size c) - 1))) ;;;
  emit (AWaitTx num_tx) ;;;
  emit (ASet tx_ready true).

Definition scatter (dsts : list ScatterTarget) (imm : Z) (routing : GroupTransferRouting) : TransferRequest :=
  ReqScatter {| xr_src_mr := send_buffer_mr c; xr_dst_handle := None; xr_dsts := dsts;
                xr_imm_data := Some imm; xr_domain := routing |}.

Definition bool_Z (b : bool) : Z := if b then 1 else 0.
Definition is_nil {A} (l : list A) : bool := match l with [] => true | _ => false end.

(** One step; [running k] is what [is_running] sees the [k]-th time, [tbl0] and [tbl] are the
    table before and after the routing information of the other groups has arrived. *)
Definition step (running : nat -> bool) (tbl0 tbl : list Z) : M (list Action) unit :=
  emit (AWait dispatch_route_done) ;;;
  if negb (running 0%nat) then ret tt else
  emit (ASubmit (route_write_op c)) ;;;
  emit (AWait dispatch_send_done) ;;;
  emit (ASet tx_ready false) ;;;
  if negb (running 1%nat) then ret tt else
  let! initial := dispatch_initial_routes tbl0 in
  (if is_nil initial then ret tt
   else emit (ASubmit (scatter initial (dispatch_imm c) AllDomainsShardPeers))) ;;;
  emit (AWaitImm (route_imm c) (wrapu 32 (as_u32 (Z.of_nat (world_size c / dp_size c)) - 1))) ;;;
  let! route := process_routing_info tbl in
  emit (ASet num_recv_tokens_flag true) ;;;
  let num_dispatch_tx := 1 + bool_Z (negb (is_nil initial)) + bool_Z (negb (is_nil (dispatch_ranges route))) in
  let num_combine_tx := 1 + bool_Z (node_size c <? world_size c)%nat in
  let num_combine_imm := u32_mul (as_u32 (Z.of_nat (world_size c) - Z.of_nat (node_size c))) (nets_per_gpu c) in
  (if is_nil (dispatch_ranges route) then ret tt
   else emit (ASubmit (scatter (dispatch_ranges route) (dispatch_imm c) AllDomainsShardBytes))) ;;;
  emit (AWaitGdr (dispatch_imm c) (ri_num_recv_tx route)) ;;;
  emit (AWait dispatch_recv_done) ;;;
  barrier (dispatch_barrier_write_op c) (dispatch_barrier_imm c) num_dispatch_tx ;;;
  emit (AWait combine_send_done) ;;;
  if negb (running 2%nat) then ret tt else
  (if is_nil (combine_ranges route) then ret tt
   else emit (ASubmit (scatter (combine_ranges route) (combine_imm c) AllDomainsShardBytes))) ;;;
  emit (AWaitImm (combine_imm c) num_combine_imm) ;;;
  emit (ASet combine_recv_flag true) ;;;
  emit (AWait combine_recv_done) ;;;
  barrier (combine_barrier_write_op c) (combine_barrier_imm c) num_combine_tx.

(** The loop from its [k]-th round on; [alive k] is what [is_running] sees before the round,
    [running k], [tbl0 k] and [tbl k] are what its step sees. *)
Fixpoint main_loop (fuel : nat) (alive : nat -> bool) (running : nat -> nat -> bool) (tbl0 tbl : nat -> list Z)
    (k : nat) : M (list Action) unit :=
  match fuel with
  | O => fun _ => OutOfFuel
  | S fuel =>
      if alive k then step (running k) (tbl0 k) (tbl k) ;;; main_loop fuel alive running tbl0 tbl (S k)
      else ret tt
  end.
End Worker.

(** ** [WorkerState::new]: the reusable requests *)

(** The targets of the routing information: the ranks of other groups with this [dp_rank]. *)
Definition route_targets {S} (rank dp_size dp_rank dp_group world_size num_experts : nat)
    (rank_handles : list AllToAllRankHandle) : M S (list ScatterTarget) :=
  collect (range 1 world_size) (fun i =>
    let! peer_rank := usize_rem (rank + i) world_size in
    let! peer_group := usize_div peer_rank dp_size in
    let! peer_dp_rank := usize_rem peer_rank dp_size in
    if (peer_group =? dp_group)%nat || negb (peer_dp_rank =? dp_rank)%nat then ret []
    else
      let! handle := vget rank_handles peer_rank in
      let length := as_u64 (Z.of_nat (num_experts * 4)) in
      let offset := u64_mul (Z.of_nat dp_group) length in
      ret [{| st_dst_mr := num_routed_desc handle; st_length := length;
              st_src_offset := offset; st_dst_offset := offset |}]).

Definition barrier_mrs {S} (rank world_size : nat) (rank_handles : list AllToAllRankHandle) :
    M S (list MemoryRegionDescriptor) :=
  collect (range 1 world_size) (fun i =>
    let! peer_rank := usize_rem (rank + i) world_size in
    if (peer_rank =? rank)%nat then ret []
    else let! handle := vget rank_handles peer_rank in ret [recv_buffer_desc handle]).

Definition extract_addrs (mr : MemoryRegionDescriptor) : list DomainAddress := fst <$> addr_rkey_list mr.

(** The arguments of [new] that only fill fields. *)
Record A2aArgs := {
  a_hidden_dim : Z; a_hidden_dim_scale : Z; a_in_elemsize : Z; a_out_elemsize : Z;
  a_scale_elemsize : Z; a_max_recv_tokens : nat; a_max_private_tokens : nat; a_num_experts : nat;
  a_expert_padding : Z; a_rank : nat; a_dp_size : nat; a_node_size : nat; a_world_size : nat;
  a_num_routed_mr : Z; a_send_buffer_mr : Z; a_imm_base : Z; a_rank_handles : list AllToAllRankHandle;
  a_nets_per_gpu : Z;
}.

(** [add_peer_group] is the engine's; allocating the device flags and vectors is left out. *)
Definition a2a_new {S} (a : A2aArgs) (add_peer_group : list (list DomainAddress) -> M S (res PeerGroupHandle)) :
    M S (res A2aState) :=
  let! dp_rank := usize_rem (a_rank a) (a_dp_size a) in
  let! dp_group := usize_div (a_rank a) (a_dp_size a) in
  let imm k := u32_add (a_imm_base a) k in
  let! dsts := route_targets (a_rank a) (a_dp_size a) dp_rank dp_group (a_world_size a)
    (a_num_experts a) (a_rank_handles a) in
  let? dst_handle := add_peer_group ((fun d => extract_addrs (st_dst_mr d)) <$> dsts) in
  let! dst_mrs := barrier_mrs (a_rank a) (a_world_size a) (a_rank_handles a) in
  ret (Ok {| max_recv_tokens := a_max_recv_tokens a; max_private_tokens := a_max_private_tokens a;
    hidden_dim := a_hidden_dim a; hidden_dim_scale := a_hidden_dim_scale a;
    in_elemsize := a_in_elemsize a; out_elemsize := a_out_elemsize a;
    scale_elemsize := a_scale_elemsize a; num_experts := a_num_experts a;
    expert_padding := a_expert_padding a; rank := a_rank a; dp_rank := dp_rank; dp_group := dp_group;
    dp_size := a_dp_size a; node_size := a_node_size a; world_size := a_world_size a;
    rank_handles := a_rank_handles a; nets_per_gpu := a_nets_per_gpu a;
    route_imm := imm 0; dispatch_imm := imm 1; combine_imm := imm 2; dispatch_barrier_imm := imm 3;
    combine_barrier_imm := imm 4; num_routed_mr := a_num_routed_mr a; send_buffer_mr := a_send_buffer_mr a;
    route_write_op := ReqScatter {| xr_src_mr := a_num_routed_mr a; xr_dst_handle := Some dst_handle;
      xr_dsts := dsts; xr_imm_data := Some (imm 0); xr_domain := AllDomainsShardPeers |};
    dispatch_barrier_write_op := ReqBarrier {| br_imm_data := imm 3; br_dst_mrs := dst_mrs; br_domain := Pinned 0 |};
    combine_barrier_write_op := ReqBarrier {| br_imm_data := imm 4; br_dst_mrs := dst_mrs; br_domain := Pinned 0 |} |}).
