(* ===== verification/A2aCounts.v ===== *)
(** * The counts of the all-to-all worker

    The first loop of [process_routing_info] computes, for every group, expert and rank, prefix
    sums of the routing table; this file gives their closed forms, which the theorems on the
    token order and on the addresses of the transfers use. *)
From stdpp Require Import prelude strings list.
From S2P Require Import Prelude Api A2aWorker.
Local Open Scope Z_scope.

(** ** Vectors given by a function *)
Definition tab {A} (n : nat) (f : nat -> A) : list A := f <$> seq 0 n.

Lemma tab_length {A} n (f : nat -> A) : length (tab n f) = n.
Proof. unfold tab. by rewrite length_fmap, length_seq. Qed.

Lemma tab_lookup {A} n (f : nat -> A) i : (i < n)%nat -> tab n f !! i = Some (f i).
Proof. intros Hi. unfold tab. rewrite list_lookup_fmap, lookup_seq_lt by done. done. Qed.

Lemma tab_ext {A} n (f g : nat -> A) : (forall i, (i < n)%nat -> f i = g i) -> tab n f = tab n g.
Proof.
  intros Hfg. unfold tab. apply list_fmap_ext. intros i j Hj. apply lookup_seq in Hj as [-> ?].
  by apply Hfg.
Qed.

Lemma tab_zeros n : replicate n 0 = tab n (fun _ => 0).
Proof.
  unfold tab. generalize 0%nat. induction n as [|n IH]; intros a; [done|].
  simpl. by rewrite (IH (S a)).
Qed.

Definition upd {A} (f : nat -> A) (i : nat) (x : A) (j : nat) : A := if (j =? i)%nat then x else f j.

Lemma tab_insert {A} n (f : nat -> A) i x : <[i := x]> (tab n f) = tab n (upd f i x).
Proof.
  apply list_eq. intros j. destruct (decide (j < n)%nat).
  - rewrite tab_lookup by done. unfold upd. destruct (Nat.eqb_spec j i) as [->|].
    + rewrite list_lookup_insert_eq; [done|by rewrite tab_length].
    + rewrite list_lookup_insert_ne by done. by apply tab_lookup.
  - rewrite !(proj2 (lookup_ge_None _ _)); [done|..]; rewrite ?length_insert, tab_length; lia.
Qed.

Lemma vget_tab {S A} n (f : nat -> A) i (s : S) : (i < n)%nat -> vget (tab n f) i s = Done (f i, s).
Proof. intros Hi. unfold vget. by rewrite tab_lookup. Qed.

Lemma vset_tab {S A} n (f : nat -> A) i x (s : S) :
  (i < n)%nat -> vset (tab n f) i x s = Done (tab n (upd f i x), s).
Proof.
  intros Hi. unfold vset. rewrite tab_length, (proj2 (Nat.ltb_lt _ _) Hi). by rewrite tab_insert.
Qed.

(** The vector filled up to index [k]. *)
Definition below (k : nat) (f : nat -> Z) (j : nat) : Z := if (j <? k)%nat then f j else 0.

Lemma upd_below k f j : upd (below k f) k (f k) j = below (S k) f j.
Proof.
  unfold upd, below. destruct (Nat.eqb_spec j k) as [->|]; [by rewrite (proj2 (Nat.ltb_lt _ _)) by lia|].
  destruct (Nat.ltb_spec j k), (Nat.ltb_spec j (S k)); lia || done.
Qed.

Lemma below_all n k f j : (n <= k)%nat -> (j < n)%nat -> below k f j = f j.
Proof. intros. unfold below. by rewrite (proj2 (Nat.ltb_lt _ _)) by lia. Qed.

(** ** Loops over a range *)
Lemma for_each_seq {S} (f : nat -> S) (body : nat -> M S unit) a n :
  (forall i, (a <= i < a + n)%nat -> body i (f i) = Done (tt, f (Datatypes.S i))) ->
  for_each (seq a n) body (f a) = Done (tt, f (a + n)%nat).
Proof.
  revert a. induction n as [|n IH]; intros a Hb; simpl.
  - cbv [ret]. by rewrite Nat.add_0_r.
  - unfold bind. rewrite Hb by lia. rewrite (IH (Datatypes.S a)); [by rewrite Nat.add_succ_r|].
    intros i Hi. apply Hb. lia.
Qed.

Lemma bind_run {S A B} (m : M S A) (k : A -> M S B) s a s' :
  m s = Done (a, s') -> bind m k s = k a s'.
Proof. intros Hm. unfold bind. by rewrite Hm. Qed.

(** ** Prefix sums *)
Definition sumf (n : nat) (f : nat -> Z) : Z := sum_list_Z (f <$> seq 0 n).

Lemma sumf_S n f : sumf (S n) f = sumf n f + f n.
Proof. unfold sumf. rewrite seq_S, fmap_app, sum_list_Z_app. simpl. lia. Qed.

Lemma sumf_0 f : sumf 0 f = 0.
Proof. done. Qed.

Lemma sumf_ext n f g : (forall i, (i < n)%nat -> f i = g i) -> sumf n f = sumf n g.
Proof.
  induction n as [|n IH]; intros Hfg; [done|]. rewrite !sumf_S, IH by (intros; apply Hfg; lia).
  by rewrite Hfg by lia.
Qed.

Lemma sumf_nonneg n f : (forall i, (i < n)%nat -> 0 <= f i) -> 0 <= sumf n f.
Proof.
  induction n as [|n IH]; intros Hf; [done|]. rewrite sumf_S.
  pose proof (Hf n ltac:(lia)). assert (0 <= sumf n f) by (apply IH; intros; apply Hf; lia). lia.
Qed.

Lemma sumf_mono n m f : (n <= m)%nat -> (forall i, (i < m)%nat -> 0 <= f i) -> sumf n f <= sumf m f.
Proof.
  induction m as [|m IH]; intros Hle Hf; [by replace n with 0%nat by lia|].
  destruct (decide (n = S m)) as [->|]; [lia|]. rewrite sumf_S.
  pose proof (Hf m ltac:(lia)). assert (sumf n f <= sumf m f) by (apply IH; [lia|intros; apply Hf; lia]). lia.
Qed.

Lemma sumf_le n f g : (forall i, (i < n)%nat -> f i <= g i) -> sumf n f <= sumf n g.
Proof.
  induction n as [|n IH]; intros Hfg; [done|]. rewrite !sumf_S. pose proof (Hfg n ltac:(lia)).
  assert (sumf n f <= sumf n g) by (apply IH; intros; apply Hfg; lia). lia.
Qed.

Lemma sumf_elem n f i : (i < n)%nat -> (forall j, (j < n)%nat -> 0 <= f j) -> f i <= sumf n f.
Proof.
  intros Hi Hf. transitivity (sumf (S i) f).
  - rewrite sumf_S. assert (0 <= sumf i f) by (apply sumf_nonneg; intros; apply Hf; lia). lia.
  - apply sumf_mono; [lia|done].
Qed.

Lemma sumf_plus n f g : sumf n (fun i => f i + g i) = sumf n f + sumf n g.
Proof. induction n as [|n IH]; [done|]. rewrite !sumf_S, IH. lia. Qed.

Lemma u32_add_small a b : 0 <= a -> 0 <= b -> a + b < 2 ^ 32 -> u32_add a b = a + b.
Proof. intros. apply wrapu_small. unfold in_u. lia. Qed.

Lemma as_u32_small a : 0 <= a < 2 ^ 32 -> as_u32 a = a.
Proof. apply wrapu_small. Qed.

(** ** Well-formed configurations *)
Section Counts.
Context (c : A2aState) (tbl : list Z).

Definition num_groups : nat := (world_size c / dp_size c)%nat.
Definition num_nodes : nat := (world_size c / node_size c)%nat.
Definition groups_per_node : nat := (node_size c / dp_size c)%nat.
Definition rank_node : nat := (rank c / node_size c)%nat.
Definition R (g e : nat) : Z := default 0 (tbl !! (g * num_experts c + e)%nat).

(** The tokens of group [g] for the experts before [e]. *)
Definition pre (g e : nat) : Z := sumf e (R g).
Definition total : Z := sumf num_groups (fun g => pre g (num_experts c)).

(** Nodes are whole and made of whole groups; the rank's experts exist; the table is complete
    and small enough for the [u32] offsets (the top bit of an offset marks NVLink peers). *)
Record a2a_ok : Prop := {
  ok_dp : (0 < dp_size c)%nat;
  ok_gpn : (0 < groups_per_node)%nat;
  ok_node : node_size c = (groups_per_node * dp_size c)%nat;
  ok_world : world_size c = (num_nodes * node_size c)%nat;
  ok_rank : (rank c < world_size c)%nat;
  ok_world32 : Z.of_nat (world_size c) < 2 ^ 32;
  ok_dp_rank : dp_rank c = (rank c mod dp_size c)%nat;
  ok_dp_group : dp_group c = (rank c / dp_size c)%nat;
  ok_experts : (first_local_expert c <= num_experts c)%nat;
  ok_tbl : length tbl = (num_groups * num_experts c)%nat;
  ok_nonneg : Forall (fun n => 0 <= n) tbl;
  ok_total : total + Z.of_nat (max_private_tokens c * num_groups) < 2 ^ 31;
  ok_pad : 0 < expert_padding c;
  ok_padded : total + Z.of_nat (experts_per_rank c) * expert_padding c < 2 ^ 32;
  ok_recv : total <= Z.of_nat (max_recv_tokens c);
  ok_handles : length (rank_handles c) = world_size c;
  ok_dims : 0 <= get_dispatch_token_dim c < 2 ^ 32 /\ 0 <= get_combine_token_dim c < 2 ^ 32;
  ok_nets : 0 <= nets_per_gpu c /\ Z.of_nat num_groups * (1 + nets_per_gpu c) < 2 ^ 32;
}.

Context (Hok : a2a_ok).

Lemma R_nonneg g e : 0 <= R g e.
Proof.
  unfold R. destruct (tbl !! _) eqn:E; simpl; [|lia].
  by apply (Forall_lookup_1 _ _ _ _ (ok_nonneg Hok) E).
Qed.

Lemma get_num_routed_run {S} g e (s : S) :
  (g < num_groups)%nat -> (e < num_experts c)%nat -> get_num_routed c tbl g e s = Done (R g e, s).
Proof.
  intros Hg He. unfold get_num_routed, bind, assert_. fold num_groups.
  rewrite (proj2 (Nat.ltb_lt _ _) Hg), (proj2 (Nat.ltb_lt _ _) He). cbv [ret unwrap R].
  destruct (lookup_lt_is_Some_2 tbl (g * num_experts c + e)%nat) as (n & Hn); [|by rewrite Hn].
  rewrite (ok_tbl Hok). nia.
Qed.

Lemma pre_S g e : pre g (S e) = pre g e + R g e.
Proof. apply sumf_S. Qed.

Lemma pre_mono g e e' : (e <= e')%nat -> pre g e <= pre g e'.
Proof. intros. apply sumf_mono; [done|]. intros. apply R_nonneg. Qed.

Lemma pre_nonneg g e : 0 <= pre g e.
Proof. apply sumf_nonneg. intros. apply R_nonneg. Qed.

Lemma pre_total g e : (g < num_groups)%nat -> (e <= num_experts c)%nat -> pre g e <= total.
Proof.
  intros Hg He. transitivity (pre g (num_experts c)); [by apply pre_mono|].
  apply (sumf_elem num_groups (fun g => pre g (num_experts c))); [done|]. intros. apply pre_nonneg.
Qed.

Lemma total_small : 0 <= total < 2 ^ 31.
Proof.
  pose proof (ok_total Hok). split; [|lia]. apply sumf_nonneg. intros. apply pre_nonneg.
Qed.

Lemma groups_nodes : num_groups = (num_nodes * groups_per_node)%nat.
Proof.
  pose proof (ok_world Hok) as Hw. pose proof (ok_node Hok) as Hn. pose proof (ok_dp Hok).
  unfold num_groups. symmetry. apply Nat.div_unique_exact; [lia|]. rewrite Hw at 1. rewrite Hn at 1. lia.
Qed.

Lemma world_groups : world_size c = (num_groups * dp_size c)%nat.
Proof. rewrite groups_nodes, (ok_world Hok) at 1. rewrite (ok_node Hok) at 1. lia. Qed.

Lemma dp_group_lt : (dp_group c < num_groups)%nat.
Proof.
  rewrite (ok_dp_group Hok). pose proof world_groups. pose proof (ok_rank Hok). pose proof (ok_dp Hok).
  apply Nat.Div0.div_lt_upper_bound. lia.
Qed.

(** The experts of the ranks before [r]. *)
Definition cap (r : nat) : nat := Nat.min (r * experts_per_rank c) (num_experts c).

Lemma cap_le r : (cap r <= num_experts c)%nat.
Proof. unfold cap. lia. Qed.

(** ** The sender's side *)
Definition my (e : nat) : Z := pre (dp_group c) e.
Definition to_rank (r : nat) : Z := my (cap (S r)) - my (cap r).

Definition send_state (r : nat) : SendSide := {|
  rank_off := my (cap r);
  source_expert_offset := tab (num_experts c) (below (cap r) my);
  tokens_to_rank := tab (world_size c) (below r to_rank);
  dispatch_src_offset := tab (world_size c) (below r (fun r => my (cap r)));
|}.

(** Inside the experts of rank [r]. *)
Definition send_state_at (r e : nat) : SendSide := {|
  rank_off := my e;
  source_expert_offset := tab (num_experts c) (below e my);
  tokens_to_rank := tab (world_size c) (upd (below r to_rank) r (my e - my (cap r)));
  dispatch_src_offset := tab (world_size c) (below (S r) (fun r => my (cap r)));
|}.

Lemma my_bounds e : (e <= num_experts c)%nat -> 0 <= my e < 2 ^ 31.
Proof.
  intros He. pose proof (pre_nonneg (dp_group c) e). pose proof (pre_total (dp_group c) e dp_group_lt He).
  pose proof total_small. unfold my. lia.
Qed.

Lemma send_expert_run r e :
  (r < world_size c)%nat -> (cap r <= e < num_experts c)%nat ->
  send_expert c tbl r e (send_state_at r e) = Done (tt, send_state_at r (S e)).
Proof.
  intros Hr He. unfold send_expert. assert (e < num_experts c)%nat as He' by lia.
  rewrite (bind_run _ _ _ _ _ (get_num_routed_run (dp_group c) e _ dp_group_lt He')).
  cbn [source_expert_offset tokens_to_rank rank_off dispatch_src_offset send_state_at].
  rewrite (bind_run _ _ _ _ _ (vset_tab _ _ _ _ _ He')).
  rewrite (bind_run _ _ _ _ _ (vget_tab _ _ _ _ Hr)).
  rewrite (bind_run _ _ _ _ _ (vset_tab _ _ _ _ _ Hr)).
  pose proof (my_bounds (S e) ltac:(lia)) as Hb. pose proof (my_bounds e ltac:(lia)).
  pose proof (my_bounds (cap r) (cap_le r)). pose proof (pre_mono (dp_group c) (cap r) e ltac:(lia)) as Hm.
  pose proof (R_nonneg (dp_group c) e). unfold my in *. rewrite pre_S in Hb. fold (my e) (my (cap r)) in *.
  do 2 f_equal. unfold send_state_at. f_equal.
  - rewrite u32_add_small by lia. unfold my. by rewrite pre_S.
  - apply tab_ext. intros j Hj. apply upd_below.
  - apply tab_ext. intros j Hj. unfold upd. destruct (Nat.eqb_spec j r) as [->|]; [|done].
    rewrite Nat.eqb_refl, u32_add_small by lia. unfold my. rewrite pre_S. lia.
Qed.

Lemma send_rank_run r :
  (r < world_size c)%nat -> send_rank c tbl r (send_state r) = Done (tt, send_state (S r)).
Proof.
  intros Hr. unfold send_rank.
  erewrite bind_run; [|cbn [dispatch_src_offset send_state];
    rewrite (bind_run _ _ _ _ _ (vset_tab _ _ _ _ _ Hr)); reflexivity].
  cbn [rank_off source_expert_offset tokens_to_rank send_state].
  assert ({| rank_off := my (cap r); source_expert_offset := tab (num_experts c) (below (cap r) my);
     tokens_to_rank := tab (world_size c) (below r to_rank);
     dispatch_src_offset := tab (world_size c) (upd (below r (fun r0 : nat => my (cap r0))) r (my (cap r))) |}
     = send_state_at r (cap r)) as ->.
  { unfold send_state_at. f_equal.
    - apply tab_ext. intros j Hj. unfold upd, below. destruct (Nat.eqb_spec j r) as [->|]; [|done].
      rewrite (proj2 (Nat.ltb_ge _ _)) by lia. lia.
    - apply tab_ext. intros j Hj. apply (upd_below r (fun r => my (cap r))). }
  assert (send_state_at r (cap (S r)) = send_state (S r)) as <-.
  { unfold send_state_at, send_state. f_equal. apply tab_ext. intros j Hj. apply upd_below. }
  unfold range. replace (Nat.min (r * experts_per_rank c + experts_per_rank c) (num_experts c))
    with (cap (S r)) by (unfold cap; lia).
  destruct (decide (r * experts_per_rank c <= num_experts c)%nat) as [Hle|Hgt].
  - replace (r * experts_per_rank c)%nat with (cap r) at 1 2 by (unfold cap; lia).
    rewrite (for_each_seq (send_state_at r)); [|].
    + do 3 f_equal. unfold cap. lia.
    + intros e He. apply send_expert_run; [done|]. pose proof (cap_le (S r)). unfold cap in *. lia.
  - replace (cap (S r) - r * experts_per_rank c)%nat with 0%nat by (unfold cap; lia).
    simpl. cbv [ret]. do 3 f_equal. unfold cap. lia.
Qed.

(** ** The receiver's side *)
Definition fst_ : nat := first_local_expert c.
Definition lst_ : nat := last_local_expert c.

(** The tokens of group [g] for this rank. *)
Definition T (g : nat) : Z := pre g lst_ - pre g fst_.
Definition per_expert (k j : nat) : Z :=
  if (j <? lst_ - fst_)%nat then sumf k (fun g => R g (fst_ + j)) else 0.
(** The immediates this rank expects from group [g]. *)
Definition txs (g : nat) : Z :=
  if negb (g =? dp_group c)%nat && negb (g / groups_per_node =? rank_node)%nat then
    1 + (if Z.of_nat (max_private_tokens c) <? T g then nets_per_gpu c else 0)
  else 0.

Definition recv_state (k : nat) : RecvSide := {|
  tokens_from_group := tab num_groups (below k T);
  src_group_offset := tab num_groups (below k (fun g => sumf g T));
  dst_group_offset := tab num_groups (below k (fun g => pre g fst_));
  tokens_per_expert := tab (experts_per_rank c) (per_expert k);
  num_recv_tokens := sumf k T;
  num_recv_tx := sumf k txs;
|}.

Lemma local_bounds : (fst_ <= lst_ <= num_experts c)%nat /\ (lst_ - fst_ <= experts_per_rank c)%nat.
Proof. pose proof (ok_experts Hok). unfold lst_, fst_, last_local_expert in *. lia. Qed.

Lemma T_nonneg g : 0 <= T g.
Proof. unfold T. pose proof local_bounds. pose proof (pre_mono g fst_ lst_ ltac:(lia)). lia. Qed.

Lemma T_le g : T g <= pre g (num_experts c).
Proof.
  unfold T. pose proof local_bounds. pose proof (pre_nonneg g fst_).
  pose proof (pre_mono g lst_ (num_experts c) ltac:(lia)). lia.
Qed.

Lemma sum_T_total k : (k <= num_groups)%nat -> 0 <= sumf k T <= total.
Proof.
  intros Hk. split; [apply sumf_nonneg; intros; apply T_nonneg|].
  transitivity (sumf num_groups T).
  - apply sumf_mono; [done|]. intros. apply T_nonneg.
  - apply sumf_le. intros. apply T_le.
Qed.

Lemma per_expert_bounds k j : (k <= num_groups)%nat -> 0 <= per_expert k j <= total.
Proof.
  intros Hk. unfold per_expert. pose proof total_small. pose proof local_bounds.
  destruct (Nat.ltb_spec j (lst_ - fst_)); [|lia].
  split; [apply sumf_nonneg; intros; apply R_nonneg|].
  transitivity (sumf k (fun g => pre g (num_experts c))).
  - apply sumf_le. intros g Hg. apply (sumf_elem (num_experts c) (R g)); [lia|]. intros. apply R_nonneg.
  - apply sumf_mono; [done|]. intros. apply pre_nonneg.
Qed.

Lemma sum_u32_run {St} g a n acc (s : St) :
  (g < num_groups)%nat -> (a + n <= num_experts c)%nat -> 0 <= acc ->
  acc + (pre g (a + n) - pre g a) < 2 ^ 32 ->
  sum_u32 c tbl g (seq a n) acc s = Done (acc + (pre g (a + n) - pre g a), s).
Proof.
  intros Hg. revert a acc. induction n as [|n IH]; intros a acc Hn Ha Hb; simpl.
  - cbv [ret]. do 2 f_equal. rewrite Nat.add_0_r. lia.
  - assert (a < num_experts c)%nat as Hlt by lia.
    rewrite (bind_run _ _ _ _ _ (get_num_routed_run g a s Hg Hlt)).
    replace (a + S n)%nat with (S a + n)%nat in * by lia.
    pose proof (pre_S g a). pose proof (R_nonneg g a). pose proof (pre_mono g (S a) (S a + n) ltac:(lia)).
    rewrite u32_add_small by lia. rewrite IH by lia. do 2 f_equal. lia.
Qed.

Lemma count_tokens_run {St} g a n acc (s : St) :
  (g < num_groups)%nat -> (a + n <= num_experts c)%nat ->
  count_tokens c tbl g (seq a n) acc s = Done (acc + (pre g (a + n) - pre g a), s).
Proof.
  intros Hg. revert a acc. induction n as [|n IH]; intros a acc Hn; simpl.
  - cbv [ret]. do 2 f_equal. rewrite Nat.add_0_r. lia.
  - assert (a < num_experts c)%nat as Hlt by lia.
    rewrite (bind_run _ _ _ _ _ (get_num_routed_run g a s Hg Hlt)).
    replace (a + S n)%nat with (S a + n)%nat in * by lia.
    pose proof (pre_S g a). rewrite IH by lia. do 2 f_equal. lia.
Qed.

Lemma count_local_run {St} g a n acc f (s : St) :
  (g < num_groups)%nat -> (fst_ <= a)%nat -> (a + n <= lst_)%nat ->
  (forall j, (a - fst_ <= j < lst_ - fst_)%nat -> 0 <= f j /\ f j + R g (fst_ + j) < 2 ^ 32) ->
  count_local c tbl g (seq a n) acc (tab (experts_per_rank c) f) s =
  Done ((acc + (pre g (a + n) - pre g a),
         tab (experts_per_rank c) (fun j => if ((a - fst_ <=? j) && (j <? a + n - fst_))%nat
                                            then f j + R g (fst_ + j) else f j)), s).
Proof.
  intros Hg. revert a acc f. induction n as [|n IH]; intros a acc f Ha Hn Hf; simpl.
  - cbv [ret]. do 3 f_equal; [rewrite Nat.add_0_r; lia|]. apply tab_ext. intros j Hj.
    destruct (Nat.leb_spec (a - fst_) j), (Nat.ltb_spec j (a + 0 - fst_)); simpl; lia.
  - pose proof local_bounds. assert (a < num_experts c)%nat as Hlt by lia.
    assert (a - fst_ < experts_per_rank c)%nat as Hj by lia.
    rewrite (bind_run _ _ _ _ _ (get_num_routed_run g a s Hg Hlt)). fold fst_.
    rewrite (bind_run _ _ _ _ _ (vget_tab _ _ _ _ Hj)), (bind_run _ _ _ _ _ (vset_tab _ _ _ _ _ Hj)).
    destruct (Hf (a - fst_)%nat ltac:(lia)) as [Hf0 Hf1].
    replace (fst_ + (a - fst_))%nat with a in Hf1 by lia. pose proof (R_nonneg g a).
    rewrite u32_add_small by lia. rewrite IH; [|lia|lia|].
    + replace (S a + n)%nat with (a + S n)%nat by lia. pose proof (pre_S g a). do 3 f_equal; [lia|].
      apply tab_ext. intros j Hjn. unfold upd.
      destruct (Nat.leb_spec (S a - fst_) j), (Nat.ltb_spec j (a + S n - fst_)), (Nat.leb_spec (a - fst_) j),
        (Nat.eqb_spec j (a - fst_)); simpl; try lia; try (subst j); try lia;
        replace (fst_ + (a - fst_))%nat with a by lia; lia.
    + intros j Hjn. unfold upd. rewrite (proj2 (Nat.eqb_neq _ _)) by lia. apply Hf. lia.
Qed.

Lemma txs_bounds g : 0 <= txs g <= 1 + nets_per_gpu c.
Proof. unfold txs. destruct (ok_nets Hok). repeat destruct_match; lia. Qed.

Lemma txs_sum k : (k <= num_groups)%nat -> 0 <= sumf k txs < 2 ^ 32.
Proof.
  intros Hk. destruct (ok_nets Hok) as [Hn Hb]. split; [apply sumf_nonneg; intros; apply txs_bounds|].
  assert (sumf k txs <= Z.of_nat k * (1 + nets_per_gpu c)); [|nia].
  clear Hk. induction k as [|k IH]; [done|]. rewrite sumf_S. pose proof (txs_bounds k). lia.
Qed.

Lemma recv_group_run g :
  (g < num_groups)%nat ->
  recv_group c tbl rank_node groups_per_node g (recv_state g) = Done (tt, recv_state (S g)).
Proof.
  intros Hg. pose proof local_bounds as [Hloc Hle]. pose proof total_small as Ht.
  pose proof (ok_gpn Hok) as Hgpn. unfold recv_group.
  cbn [recv_state tokens_from_group src_group_offset dst_group_offset tokens_per_expert num_recv_tokens num_recv_tx].
  erewrite bind_run by (unfold usize_div; rewrite (proj2 (Nat.eqb_neq _ _)) by lia; reflexivity).
  pose proof (pre_total g fst_ Hg ltac:(lia)). pose proof (pre_nonneg g fst_).
  assert (pre g 0 = 0) as Hp0 by done.
  erewrite bind_run by (unfold range; rewrite Nat.sub_0_r; fold fst_; apply sum_u32_run; simpl; lia).
  rewrite (bind_run _ _ _ _ _ (vset_tab _ _ _ _ _ Hg)).
  erewrite bind_run.
  2:{ unfold range. fold fst_ lst_. apply count_local_run; [done|lia|lia|]. intros j Hj.
      pose proof (per_expert_bounds (S g) j ltac:(lia)) as Hb. pose proof (per_expert_bounds g j ltac:(lia)).
      unfold per_expert in *. rewrite (proj2 (Nat.ltb_lt _ _)) in * by lia. rewrite sumf_S in Hb. lia. }
  replace (fst_ + (lst_ - fst_))%nat with lst_ by lia. cbn beta iota.
  replace (0 + (pre g lst_ - pre g fst_)) with (T g) by (unfold T; lia).
  rewrite (bind_run _ _ _ _ _ (vget_tab _ _ _ _ Hg)), (bind_run _ _ _ _ _ (vset_tab _ _ _ _ _ Hg)).
  rewrite (bind_run _ _ _ _ _ (vset_tab _ _ _ _ _ Hg)).
  pose proof (T_nonneg g). pose proof (sum_T_total g ltac:(lia)). pose proof (sum_T_total (S g) ltac:(lia)) as HS.
  rewrite sumf_S in HS. do 2 f_equal. unfold recv_state. f_equal.
  - apply tab_ext. intros j Hj. rewrite <- upd_below. f_equal. unfold below.
    rewrite (proj2 (Nat.ltb_ge _ _)) by lia. rewrite (as_u32_small (T g)) by lia. rewrite u32_add_small; lia.
  - apply tab_ext. intros j Hj. rewrite (as_u32_small (sumf g T)) by lia. apply (upd_below g (fun g => sumf g T)).
  - apply tab_ext. intros j Hj. rewrite <- (upd_below g (fun g => pre g fst_)). f_equal. simpl. lia.
  - apply tab_ext. intros j Hj. unfold per_expert.
    rewrite Nat.sub_diag. destruct (Nat.leb_spec 0 j); [|lia]. cbn [andb].
    destruct (Nat.ltb_spec j (lst_ - fst_)); [|done]. by rewrite sumf_S.
  - rewrite sumf_S. lia.
  - rewrite sumf_S. pose proof (txs_sum g ltac:(lia)). pose proof (txs_sum (S g) ltac:(lia)) as HtS.
    rewrite sumf_S in HtS. unfold txs in *. fold (T g).
    destruct (ok_nets Hok).
    repeat destruct_match; rewrite ?u32_add_small; try lia; rewrite ?u32_add_small; lia.
Qed.

Lemma on_send_run {A} (m : M SendSide A) a r a' x :
  m a = Done (x, a') -> on_send m (a, r) = Done (x, (a', r)).
Proof. intros Hm. cbv [on_send on_state]. simpl. by rewrite Hm. Qed.

(** The whole first loop. *)
Lemma counting_run :
  for_each (seq 0 num_groups) (count_group c tbl rank_node groups_per_node)
    (send_state 0, recv_state 0) = Done (tt, (send_state (world_size c), recv_state num_groups)).
Proof.
  rewrite world_groups.
  apply (for_each_seq (fun g => (send_state (g * dp_size c), recv_state g))). intros g Hg.
  unfold count_group.
  erewrite bind_run.
  2:{ pose proof (for_each_seq (fun i => (send_state (g * dp_size c + i), recv_state g))
        (fun i => on_send (send_rank c tbl (g * dp_size c + i))) 0 (dp_size c)) as Hl.
      cbn beta in Hl. rewrite Nat.add_0_r in Hl. apply Hl. intros i Hi. rewrite Nat.add_succ_r.
      apply on_send_run, send_rank_run. rewrite world_groups. nia. }
  cbv [on_recv on_state]. cbn [snd fst]. rewrite recv_group_run by lia.
  replace (g * dp_size c + (0 + dp_size c))%nat with (S g * dp_size c)%nat by lia. done.
Qed.

(** The initial state of the loop. *)
Lemma send_state_0 :
  {| rank_off := 0; source_expert_offset := replicate (num_experts c) 0;
     tokens_to_rank := replicate (world_size c) 0;
     dispatch_src_offset := replicate (world_size c) 0 |} = send_state 0.
Proof. unfold send_state. rewrite !tab_zeros. f_equal. Qed.

Lemma recv_state_0 :
  {| tokens_from_group := replicate num_groups 0; src_group_offset := replicate num_groups 0;
     dst_group_offset := replicate num_groups 0; tokens_per_expert := replicate (experts_per_rank c) 0;
     num_recv_tokens := 0; num_recv_tx := 0 |} = recv_state 0.
Proof.
  unfold recv_state. rewrite !tab_zeros. f_equal. apply tab_ext. intros j _. unfold per_expert.
  by destruct_match.
Qed.

(** ** The initial transfers *)
Lemma rank_experts_run {St} g r acc (s : St) :
  (g < num_groups)%nat ->
  count_tokens c tbl g (rank_experts c r) acc s = Done (acc + (pre g (cap (S r)) - pre g (cap r)), s).
Proof.
  intros Hg. unfold rank_experts, range.
  replace (Nat.min (S r * experts_per_rank c) (num_experts c)) with (cap (S r)) by done.
  destruct (decide (r * experts_per_rank c <= num_experts c)%nat) as [Hle|Hgt].
  - replace (r * experts_per_rank c)%nat with (cap r) by (unfold cap; lia).
    pose proof (cap_le (S r)). assert (cap r <= cap (S r))%nat by (unfold cap; lia).
    rewrite count_tokens_run by lia. by replace (cap r + (cap (S r) - cap r))%nat with (cap (S r)) by lia.
  - replace (cap (S r) - r * experts_per_rank c)%nat with 0%nat by (unfold cap; lia). simpl. cbv [ret].
    replace (cap (S r)) with (cap r) by (unfold cap; lia). do 2 f_equal. lia.
Qed.

Lemma initial_counts_run :
  initial_counts c tbl (replicate (world_size c) 0, replicate (world_size c) 0, 0) =
  Done (tt, (tab (world_size c) to_rank, tab (world_size c) (fun r => my (cap r)), my (cap (world_size c)))).
Proof.
  unfold initial_counts. rewrite tab_zeros.
  pose proof (for_each_seq (fun r => (tab (world_size c) (below r to_rank),
    tab (world_size c) (below r (fun r => my (cap r))), my (cap r)))) as Hl.
  match goal with |- for_each _ ?b _ = _ => specialize (Hl b 0%nat (world_size c)) end.
  replace (0 + world_size c)%nat with (world_size c) in Hl by lia.
  etransitivity; [apply Hl|].
  2:{ assert (forall f, tab (world_size c) (below (world_size c) f) = tab (world_size c) f) as Hall
        by (intros f; apply tab_ext; intros; by apply (below_all (world_size c))).
      by rewrite !Hall. }
  - intros r Hr. cbn beta iota.
    rewrite (bind_run _ _ _ _ _ (rank_experts_run (dp_group c) r 0 _ dp_group_lt)).
    rewrite (bind_run _ _ _ _ _ (vset_tab _ _ _ _ _ (proj2 Hr))).
    rewrite (bind_run _ _ _ _ _ (vset_tab _ _ _ _ _ (proj2 Hr))).
    do 2 f_equal. f_equal; [f_equal|].
    + apply tab_ext. intros j Hj. rewrite <- upd_below. f_equal.
    + apply tab_ext. intros j Hj. apply (upd_below r (fun r => my (cap r))).
    + unfold my. lia.
Qed.
End Counts.
