(* ===== verification/A2aRouting.v ===== *)
(** * The token order of the all-to-all worker

    [route_group] walks the tokens of the groups in the order of their copying cost.  The
    triple loop is a single pass over the list [all] of received tokens; every vector it fills
    is given entry by entry by the tokens that precede. *)
From stdpp Require Import prelude strings list.
From S2P Require Import Prelude Api A2aWorker A2aCounts.
Local Open Scope Z_scope.

(** ** Counting in lists *)
Fixpoint cnt {A} (p : A -> bool) (l : list A) : Z :=
  match l with
  | [] => 0
  | x :: l => (if p x then 1 else 0) + cnt p l
  end.

Lemma cnt_app {A} p (l1 l2 : list A) : cnt p (l1 ++ l2) = cnt p l1 + cnt p l2.
Proof. induction l1; simpl; lia. Qed.

Lemma cnt_nonneg {A} p (l : list A) : 0 <= cnt p l.
Proof. induction l as [|x l IH]; simpl; [lia|]. destruct (p x); lia. Qed.

Lemma cnt_le {A} (p q : A -> bool) (l : list A) :
  (forall x, p x = true -> q x = true) -> cnt p l <= cnt q l.
Proof.
  intros Hpq. induction l as [|x l IH]; simpl; [lia|].
  destruct (p x) eqn:Hp; [rewrite (Hpq _ Hp); lia|]. destruct (q x); lia.
Qed.

Lemma cnt_perm {A} p (l1 l2 : list A) : l1 ≡ₚ l2 -> cnt p l1 = cnt p l2.
Proof. induction 1; simpl; lia. Qed.

Lemma cnt_replicate {A} p n (x : A) : cnt p (replicate n x) = if p x then Z.of_nat n else 0.
Proof. induction n as [|n IH]; simpl; destruct (p x); lia. Qed.

Lemma cnt_bind_seq {A} p n (f : nat -> list A) : cnt p (seq 0 n ≫= f) = sumf n (fun i => cnt p (f i)).
Proof.
  induction n as [|n IH]; [done|]. rewrite seq_S, bind_app, cnt_app, IH, sumf_S. simpl.
  by rewrite app_nil_r.
Qed.

Lemma sumf_shift n k f : sumf n (fun i => f (k + i)%nat) = sumf (k + n) f - sumf k f.
Proof.
  induction n as [|n IH]; [rewrite Nat.add_0_r, sumf_0; lia|].
  rewrite Nat.add_succ_r, !sumf_S, IH. lia.
Qed.

Lemma sumf_const_0 n : sumf n (fun _ => 0) = 0.
Proof. induction n; [done|]. rewrite sumf_S. lia. Qed.

Lemma sumf_pick n i f : (i < n)%nat -> sumf n (fun j => if (j =? i)%nat then f j else 0) = f i.
Proof.
  induction n as [|n IH]; [lia|]. intros Hi. rewrite sumf_S. destruct (decide (i = n)) as [->|].
  - rewrite Nat.eqb_refl. rewrite (sumf_ext n _ (fun _ => 0)).
    + rewrite sumf_const_0. lia.
    + intros j Hj. by rewrite (proj2 (Nat.eqb_neq _ _)) by lia.
  - rewrite IH by lia. rewrite (proj2 (Nat.eqb_neq _ _)) by lia. lia.
Qed.

Lemma sumf_swap n m (f : nat -> nat -> Z) :
  sumf n (fun i => sumf m (f i)) = sumf m (fun j => sumf n (fun i => f i j)).
Proof.
  induction n as [|n IH].
  - rewrite (sumf_ext m _ (fun _ => 0)) by done. by rewrite sumf_const_0.
  - rewrite sumf_S, IH, <- sumf_plus. apply sumf_ext. intros j Hj. by rewrite sumf_S.
Qed.

(** ** Entries that depend on the preceding elements *)
Definition scan {A B} (f : list A -> A -> B) (l : list A) : list B := imap (fun i x => f (take i l) x) l.

Lemma scan_length {A B} (f : list A -> A -> B) l : length (scan f l) = length l.
Proof. apply length_imap. Qed.

Lemma scan_snoc {A B} (f : list A -> A -> B) l x : scan f (l ++ [x]) = scan f l ++ [f l x].
Proof.
  unfold scan. rewrite imap_app. f_equal.
  - apply imap_ext. intros i y Hi. f_equal. apply lookup_lt_Some in Hi. by rewrite take_app_le by lia.
  - simpl. rewrite Nat.add_0_r. by rewrite take_app_length.
Qed.

Lemma scan_lookup {A B} (f : list A -> A -> B) l i x : l !! i = Some x -> scan f l !! i = Some (f (take i l) x).
Proof. intros Hi. unfold scan. by rewrite list_lookup_imap, Hi. Qed.

(** A vector of length [n] whose first entries are [l]. *)
Definition filled (n : nat) (l : list Z) : list Z := l ++ replicate (n - length l) 0.

Lemma vset_filled {St} n l x (s : St) :
  (length l < n)%nat -> vset (filled n l) (length l) x s = Done (filled n (l ++ [x]), s).
Proof.
  intros Hn. unfold vset, filled. rewrite length_app, length_replicate.
  rewrite (proj2 (Nat.ltb_lt _ _)) by lia. cbv [ret]. do 2 f_equal.
  rewrite length_app. simpl. replace (n - length l)%nat with (S (n - (length l + 1))) by lia.
  simpl. rewrite insert_app_r_alt, Nat.sub_diag by lia. simpl. by rewrite <- (assoc_L (++)).
Qed.

Lemma filled_full n l : length l = n -> filled n l = l.
Proof. intros <-. unfold filled. by rewrite Nat.sub_diag, app_nil_r. Qed.

(** ** Rotations *)
Lemma seq_rotate x n : (0 < n)%nat -> (fun i => ((x + i) mod n)%nat) <$> seq 0 n ≡ₚ seq 0 n.
Proof.
  intros Hn. pose proof (Nat.mod_upper_bound x n ltac:(lia)) as Hx.
  assert (((fun i => ((x + i) mod n)%nat) <$> seq 0 n) =
    seq (x mod n) (n - x mod n) ++ seq 0 (x mod n)) as ->.
  { set (y := (x mod n)%nat) in *. assert (forall i, (x + i) mod n = (y + i) mod n)%nat as Hm.
    { intros i. unfold y. by rewrite Nat.Div0.add_mod_idemp_l. }
    assert (seq 0 n = seq 0 (n - y) ++ seq (n - y) y) as -> by (rewrite <- seq_app; f_equal; lia).
    rewrite fmap_app. f_equal.
    - apply list_eq. intros i. rewrite list_lookup_fmap. destruct (decide (i < n - y)%nat).
      + rewrite !lookup_seq_lt by lia. simpl. rewrite Hm, Nat.mod_small by lia. done.
      + rewrite !lookup_seq_ge by lia. done.
    - apply list_eq. intros i. rewrite list_lookup_fmap. destruct (decide (i < y)%nat).
      + rewrite !lookup_seq_lt by lia. simpl. rewrite Hm.
        replace (y + (n - y + i))%nat with (i + 1 * n)%nat by lia.
        rewrite Nat.Div0.mod_add, Nat.mod_small by lia. done.
      + rewrite !lookup_seq_ge by lia. done. }
  rewrite Permutation_app_comm. apply Permutation_refl'.
  replace (x mod n)%nat with (0 + x mod n)%nat at 2 by lia. rewrite <- seq_app. f_equal. lia.
Qed.

Lemma seq_blocks n k : (seq 0 n ≫= fun i => (fun j => (i * k + j)%nat) <$> seq 0 k) = seq 0 (n * k).
Proof.
  induction n as [|n IH]; [done|]. rewrite seq_S, bind_app, IH. simpl. rewrite app_nil_r.
  replace (k + n * k)%nat with (n * k + k)%nat by lia. rewrite seq_app. f_equal. simpl.
  apply list_eq. intros i. rewrite list_lookup_fmap. destruct (decide (i < k)%nat).
  - by rewrite !lookup_seq_lt by lia.
  - by rewrite !lookup_seq_ge by lia.
Qed.

Lemma seq_head n : (0 < n)%nat -> seq 0 n = 0%nat :: range 1 n.
Proof. intros Hn. unfold range. destruct n; [lia|]. simpl. by rewrite Nat.sub_0_r. Qed.

(** The blocks of [k] of the other nodes, in rotated order, and the block of node [a]. *)
Lemma remote_groups_perm a k n :
  (a < n)%nat -> ((fun j => (a * k + j)%nat) <$> seq 0 k) ++ remote_groups a k n ≡ₚ seq 0 (n * k).
Proof.
  intros Ha. rewrite <- seq_blocks.
  assert (remote_groups a k n =
    (((fun i => (a + i) mod n)%nat <$> range 1 n) ≫= fun i => (fun j => (i * k + j)%nat) <$> seq 0 k)) as ->.
  { unfold remote_groups. induction (range 1 n) as [|i l IH]; [done|]. cbn. f_equal. apply IH. }
  rewrite <- (seq_rotate a n ltac:(lia)), (seq_head n ltac:(lia)). simpl.
  by rewrite Nat.add_0_r, Nat.mod_small by done.
Qed.

(** The steps from [a] to every other index. *)
Lemma rotation_reaches a b n :
  (a < n)%nat -> (b < n)%nat -> a <> b -> exists k, k ∈ range 1 n /\ ((a + k) mod n = b)%nat.
Proof.
  intros Ha Hb Hne. exists (if (a <? b)%nat then b - a else b + n - a)%nat.
  unfold range. rewrite elem_of_seq. destruct (Nat.ltb_spec a b); (split; [lia|]).
  - replace (a + (b - a))%nat with b by lia. by apply Nat.mod_small.
  - replace (a + (b + n - a))%nat with (b + 1 * n)%nat by lia. by rewrite Nat.Div0.mod_add, Nat.mod_small by lia.
Qed.

Section Routing.
Context (c : A2aState) (tbl : list Z) (Hok : a2a_ok c tbl).
Local Abbreviation G := (num_groups c).
Local Abbreviation gpn := (groups_per_node c).
Local Abbreviation R := (R c tbl).
Local Abbreviation T := (T c tbl).
Local Abbreviation pre := (pre c tbl).
Local Abbreviation fst_ := (fst_ c).
Local Abbreviation lst_ := (lst_ c).
Local Abbreviation total := (total c tbl).

(** ** The order of the groups *)
Definition visit : list nat :=
  remote_groups (rank_node c) gpn (num_nodes c) ++ node_groups c (rank_node c) gpn ++ [dp_group c].

Lemma nodes_pos : (0 < num_nodes c)%nat /\ (rank_node c < num_nodes c)%nat.
Proof.
  pose proof (ok_world _ _ Hok) as Hw. pose proof (ok_rank _ _ Hok). unfold rank_node.
  assert (0 < num_nodes c)%nat by nia. split; [done|]. apply Nat.Div0.div_lt_upper_bound. lia.
Qed.

Lemma group_node : rank_node c = (dp_group c / gpn)%nat.
Proof.
  pose proof (ok_dp _ _ Hok). pose proof (ok_gpn _ _ Hok). unfold rank_node.
  rewrite (ok_dp_group _ _ Hok), (ok_node _ _ Hok), Nat.mul_comm. by rewrite Nat.Div0.div_div.
Qed.

(** Every group is visited exactly once. *)
Lemma visit_perm : visit ≡ₚ seq 0 G.
Proof.
  destruct nodes_pos as [Hnn Hrn]. pose proof (ok_gpn _ _ Hok) as Hg.
  assert (node_groups c (rank_node c) gpn ++ [dp_group c] ≡ₚ
    (fun j => (rank_node c * gpn + j)%nat) <$> seq 0 gpn) as Hnode.
  { rewrite <- (seq_rotate (dp_group c) gpn Hg), (seq_head gpn Hg). simpl.
    rewrite Nat.add_0_r, group_node. rewrite Permutation_app_comm. simpl.
    replace (dp_group c / gpn * gpn + dp_group c mod gpn)%nat with (dp_group c)
      by (pose proof (Nat.div_mod_eq (dp_group c) gpn); lia).
    unfold node_groups. by rewrite <- list_fmap_compose. }
  unfold visit. rewrite Hnode, Permutation_app_comm, (groups_nodes _ _ Hok). by apply remote_groups_perm.
Qed.

Lemma visit_lt g : g ∈ visit -> (g < G)%nat.
Proof. rewrite visit_perm, elem_of_seq. lia. Qed.

(** ** The tokens received *)
Definition tokens (g : nat) : list (nat * nat) :=
  seq fst_ (lst_ - fst_) ≫= fun e => replicate (Z.to_nat (R g e)) (g, e).
Definition all : list (nat * nat) := visit ≫= tokens.

Lemma all_perm : all ≡ₚ seq 0 G ≫= tokens.
Proof. unfold all. by rewrite visit_perm. Qed.

Lemma cnt_expert_blocks p g n :
  cnt p (seq fst_ n ≫= fun e => replicate (Z.to_nat (R g e)) (g, e)) =
  sumf n (fun j => if p (g, (fst_ + j)%nat) then R g (fst_ + j) else 0).
Proof.
  induction n as [|n IH]; [done|]. rewrite seq_S, bind_app, cnt_app, IH, sumf_S. simpl.
  rewrite app_nil_r, cnt_replicate, Z2Nat.id by (apply R_nonneg; done). done.
Qed.

Lemma cnt_tokens p g : cnt p (tokens g) =
  sumf (lst_ - fst_) (fun j => if p (g, (fst_ + j)%nat) then R g (fst_ + j) else 0).
Proof. apply cnt_expert_blocks. Qed.

Lemma cnt_all p : cnt p all = sumf G (fun g => cnt p (tokens g)).
Proof. rewrite (cnt_perm _ _ _ all_perm). apply cnt_bind_seq. Qed.

Lemma sum_local g : sumf (lst_ - fst_) (fun j => R g (fst_ + j)) = T g.
Proof.
  destruct (local_bounds _ _ Hok). rewrite (sumf_shift _ _ (R g)). unfold A2aCounts.T, A2aCounts.pre.
  by replace (fst_ + (lst_ - fst_))%nat with lst_ by lia.
Qed.

Definition of_group (g : nat) (t : nat * nat) : bool := (t.1 =? g)%nat.
Definition of_expert (e : nat) (t : nat * nat) : bool := (t.2 =? e)%nat.
Definition of_both (g e : nat) (t : nat * nat) : bool := (t.1 =? g)%nat && (t.2 =? e)%nat.

Lemma cnt_group_all g : (g < G)%nat -> cnt (of_group g) all = T g.
Proof.
  intros Hg. rewrite cnt_all, <- (sumf_pick G g T Hg). apply sumf_ext. intros j Hj.
  rewrite cnt_tokens. unfold of_group. simpl. destruct (Nat.eqb_spec j g) as [->|]; [apply sum_local|].
  apply sumf_const_0.
Qed.

Lemma cnt_expert_all j : (j < lst_ - fst_)%nat ->
  cnt (of_expert (fst_ + j)) all = per_expert c tbl G j.
Proof.
  intros Hj. rewrite cnt_all. unfold per_expert. rewrite (proj2 (Nat.ltb_lt _ _) Hj).
  apply sumf_ext. intros g Hg. rewrite cnt_tokens. unfold of_expert. simpl.
  rewrite (sumf_ext _ _ (fun i => if (i =? j)%nat then R g (fst_ + i) else 0)).
  - by apply (sumf_pick (lst_ - fst_) j (fun i => R g (fst_ + i))).
  - intros i Hi. destruct (Nat.eqb_spec (fst_ + i) (fst_ + j)), (Nat.eqb_spec i j); lia.
Qed.

Lemma all_length : Z.of_nat (length all) = sumf G T.
Proof.
  assert (Z.of_nat (length all) = cnt (fun _ => true) all) as ->.
  { induction all as [|x l IH]; simpl; lia. }
  rewrite cnt_all. apply sumf_ext. intros g Hg. rewrite cnt_tokens. apply sum_local.
Qed.

Lemma all_elem g e : (g, e) ∈ all -> (g < G)%nat /\ (fst_ <= e < lst_)%nat.
Proof.
  unfold all, tokens. rewrite list_elem_of_bind. intros (g' & Hin & Hg').
  apply list_elem_of_bind in Hin as (e' & Hin & He'). apply elem_of_replicate in Hin as [[= -> ->] _].
  split; [by apply visit_lt|]. apply elem_of_seq in He'. destruct (local_bounds _ _ Hok). lia.
Qed.

(** ** Padded offsets *)
Definition padded (j : nat) : Z := div_ceil (per_expert c tbl G j) (expert_padding c) * expert_padding c.
Definition padoff (j : nat) : Z := sumf j padded.

Lemma padded_bounds j :
  per_expert c tbl G j <= padded j < per_expert c tbl G j + expert_padding c.
Proof. unfold padded. apply div_ceil_bounds, (ok_pad _ _ Hok). Qed.

Lemma sum_per_expert_all : sumf (experts_per_rank c) (per_expert c tbl G) = sumf G T.
Proof.
  destruct (local_bounds _ _ Hok) as [_ Hle].
  assert (forall m, (lst_ - fst_ <= m)%nat ->
    sumf m (per_expert c tbl G) = sumf (lst_ - fst_) (per_expert c tbl G)) as Heq.
  { induction 1 as [|m Hm IH]; [done|]. rewrite sumf_S, IH. unfold per_expert at 2.
    rewrite (proj2 (Nat.ltb_ge _ _)) by lia. lia. }
  rewrite Heq by done.
  rewrite (sumf_ext _ _ (fun j => sumf G (fun g => R g (fst_ + j)))).
  - rewrite <- (sumf_swap G (lst_ - fst_) (fun g j => R g (fst_ + j))). apply sumf_ext. intros g Hg.
    apply sum_local.
  - intros j Hj. unfold per_expert. by rewrite (proj2 (Nat.ltb_lt _ _) Hj).
Qed.

Lemma sum_per_expert n : (n <= experts_per_rank c)%nat -> sumf n (per_expert c tbl G) <= total.
Proof.
  intros Hn. transitivity (sumf (experts_per_rank c) (per_expert c tbl G)).
  { apply sumf_mono; [done|]. intros. by apply per_expert_bounds. }
  rewrite sum_per_expert_all. by apply sum_T_total.
Qed.

Lemma padoff_bounds n : (n <= experts_per_rank c)%nat -> 0 <= padoff n < 2 ^ 32.
Proof.
  intros Hn. pose proof (sum_per_expert n Hn). pose proof (ok_padded _ _ Hok). pose proof (ok_pad _ _ Hok).
  assert (sumf n (per_expert c tbl G) <= padoff n <= sumf n (per_expert c tbl G) + Z.of_nat n * expert_padding c)
    as Hb; [|assert (0 <= sumf n (per_expert c tbl G)) by (apply sumf_nonneg; intros; by apply per_expert_bounds); nia].
  clear -Hok. unfold padoff. induction n as [|n IH]; [done|]. rewrite !sumf_S. pose proof (padded_bounds n). lia.
Qed.

Lemma pad_experts_run {St} a n (s : St) :
  (a + n <= experts_per_rank c)%nat ->
  pad_experts c (padoff a) (per_expert c tbl G <$> seq a n) s = Done (padoff <$> seq a n, s).
Proof.
  revert a. induction n as [|n IH]; intros a Hn; simpl; [done|].
  rewrite (proj2 (Z.eqb_neq _ _)) by (pose proof (ok_pad _ _ Hok); lia).
  assert (padoff (S a) = padoff a + padded a) as HS by apply sumf_S.
  pose proof (padoff_bounds (S a) ltac:(lia)). pose proof (padoff_bounds a ltac:(lia)).
  pose proof (padded_bounds a). pose proof (per_expert_bounds c tbl Hok G a ltac:(lia)).
  fold (padded a). rewrite (as_u32_small (padded a)) by lia. rewrite u32_add_small by lia.
  rewrite <- HS. rewrite (bind_run _ _ _ _ _ (IH (S a) ltac:(lia))). done.
Qed.

(** ** The entries of the vectors *)
Definition own (g : nat) : bool := (g * dp_size c + dp_rank c =? rank c)%nat.
Definition on_node (g : nat) : bool := ((g * dp_size c + dp_rank c) / node_size c =? rank_node c)%nat.
Local Abbreviation P := (Z.of_nat (max_private_tokens c)).

(** Where the [i]-th token of group [g], for expert [e], is read from; [k] tokens of this rank
    for [e] precede. *)
Definition dispatch_loc (g e : nat) (i k : Z) : Z :=
  if own g then my c tbl e + k
  else if i <? P then P * Z.of_nat g + i
  else if on_node g then Z.lor (pre g fst_ + i) (2 ^ 31)
  else sumf g T + i + (P * Z.of_nat G - P).
Definition combine_loc (g e : nat) (i k : Z) : Z :=
  if negb (own g) || (1 <? dp_size c)%nat then
    if on_node g then pre g fst_ + i else sumf g T + i
  else my c tbl e + k.

Definition dispatch_entry (done : list (nat * nat)) (t : nat * nat) : Z :=
  dispatch_loc t.1 t.2 (cnt (of_group t.1) done) (cnt (of_both t.1 t.2) done).
Definition combine_entry (done : list (nat * nat)) (t : nat * nat) : Z :=
  combine_loc t.1 t.2 (cnt (of_group t.1) done) (cnt (of_both t.1 t.2) done).
Definition rank_entry (done : list (nat * nat)) (t : nat * nat) : Z :=
  Z.of_nat (t.1 * dp_size c + dp_rank c).
Definition pad_entry (done : list (nat * nat)) (t : nat * nat) : Z :=
  padoff (t.2 - fst_) + cnt (of_expert t.2) done.

Definition N : nat := Z.to_nat (sumf G T).

Definition shuffle_at (done : list (nat * nat)) : Shuffle := {|
  last := length done;
  src_dispatch_count := tab G (fun g => if own g then 0 else cnt (of_group g) done);
  src_combine_count := tab G (fun g =>
    if negb (own g) || (1 <? dp_size c)%nat then cnt (of_group g) done else 0);
  expert_count := tab (lst_ - fst_) (fun j => cnt (of_expert (fst_ + j)) done);
  sh_source_expert_offset := tab (num_experts c) (fun e => my c tbl e + cnt (of_both (dp_group c) e) done);
  source_dispatch_offset := filled N (scan dispatch_entry done);
  combine_send_offset := filled N (scan combine_entry done);
  source_rank := filled N (scan rank_entry done);
  padded_index := filled N (scan pad_entry done);
|}.

Lemma own_iff g : own g = true <-> g = dp_group c.
Proof.
  unfold own. rewrite Nat.eqb_eq, (ok_dp_rank _ _ Hok), (ok_dp_group _ _ Hok).
  pose proof (ok_dp _ _ Hok). pose proof (Nat.div_mod_eq (rank c) (dp_size c)).
  pose proof (Nat.mod_upper_bound (rank c) (dp_size c) ltac:(lia)). split; [|intros ->; lia].
  intros Hg. apply (Nat.div_unique _ _ _ (rank c mod dp_size c)); lia.
Qed.

Lemma all_length_N : length all = N.
Proof. unfold N. rewrite <- all_length. lia. Qed.

Lemma of_group_eq g g' e : of_group g (g', e) = (g' =? g)%nat.
Proof. done. Qed.
Lemma of_expert_eq e g e' : of_expert e (g, e') = (e' =? e)%nat.
Proof. done. Qed.
Lemma of_both_eq g e g' e' : of_both g e (g', e') = ((g' =? g) && (e' =? e))%nat.
Proof. done. Qed.

(** What precedes a token of [all] is small. *)
Lemma preceding_bounds done g e rest :
  done ++ (g, e) :: rest = all ->
  (g < G)%nat /\ (fst_ <= e < lst_)%nat /\ (length done < N)%nat /\
  0 <= cnt (of_group g) done < T g /\
  0 <= cnt (of_expert e) done < per_expert c tbl G (e - fst_) /\
  0 <= cnt (of_both g e) done <= cnt (of_expert e) done.
Proof.
  intros Hall. assert ((g, e) ∈ all) as Hin by (rewrite <- Hall; set_solver).
  destruct (all_elem _ _ Hin) as [Hg He]. split; [done|]. split; [done|]. split.
  { rewrite <- all_length_N, <- Hall, length_app. simpl. lia. }
  pose proof (cnt_nonneg (of_group g) done). pose proof (cnt_nonneg (of_group g) rest).
  pose proof (cnt_nonneg (of_expert e) done). pose proof (cnt_nonneg (of_expert e) rest).
  split; [|split].
  - rewrite <- (cnt_group_all g Hg), <- Hall, cnt_app. cbn [cnt].
    rewrite of_group_eq, Nat.eqb_refl. lia.
  - rewrite <- cnt_expert_all by lia. replace (fst_ + (e - fst_))%nat with e by lia.
    rewrite <- Hall, cnt_app. cbn [cnt]. rewrite of_expert_eq, Nat.eqb_refl. lia.
  - split; [apply cnt_nonneg|]. apply cnt_le. intros [g' e']. unfold of_both, of_expert. simpl.
    rewrite andb_true_iff. tauto.
Qed.

Lemma cnt_snoc {A} p (l : list A) x : cnt p (l ++ [x]) = cnt p l + (if p x then 1 else 0).
Proof. rewrite cnt_app. simpl. lia. Qed.

(** The vectors at the end of the first loop. *)
Definition sgo : list Z := tab G (fun g => sumf g T).
Definition dgo : list Z := tab G (fun g => pre g fst_).
Definition po : list Z := tab (experts_per_rank c) padoff.
Definition base : Z := P * Z.of_nat G.

Lemma small_base : 0 <= base < 2 ^ 31 /\ P <= base /\ total + base < 2 ^ 31.
Proof.
  pose proof (ok_total _ _ Hok) as Ht. pose proof (total_small _ _ Hok). pose proof (dp_group_lt _ _ Hok).
  unfold base. rewrite Nat2Z.inj_mul in Ht. nia.
Qed.

Lemma done_quad {A B C D St} (a a' : A) (b b' : B) (x x' : C) (d d' : D) (s : St) :
  a = a' -> b = b' -> x = x' -> d = d' -> Done ((a, b, x, d), s) = Done ((a', b', x', d'), s).
Proof. by intros -> -> -> ->. Qed.

Lemma dispatch_source_run {St} done g e rest (s : St) :
  done ++ (g, e) :: rest = all ->
  dispatch_source c sgo dgo base (rank_node c) g e (shuffle_at done) s =
  Done ((sh_source_expert_offset (shuffle_at (done ++ [(g, e)])),
         src_dispatch_count (shuffle_at (done ++ [(g, e)])),
         dispatch_entry done (g, e),
         if own g then Some (my c tbl e + cnt (of_both g e) done) else None), s).
Proof.
  intros Hall. destruct (preceding_bounds _ _ _ _ Hall) as (Hg & He & _ & Hcg & Hce & Hcb).
  pose proof small_base as (Hb1 & Hb2 & Hb3). pose proof (total_small _ _ Hok) as Ht.
  pose proof (local_bounds _ _ Hok) as [Hloc _]. assert (e < num_experts c)%nat as He' by lia.
  pose proof (per_expert_bounds c tbl Hok G (e - fst_) ltac:(lia)).
  pose proof (my_bounds c tbl Hok e ltac:(lia)) as Hmy.
  pose proof (sum_T_total c tbl Hok g ltac:(lia)). pose proof (sum_T_total c tbl Hok (S g) ltac:(lia)) as HS.
  rewrite sumf_S in HS. pose proof (pre_nonneg c tbl Hok g fst_).
  pose proof (pre_total c tbl Hok g lst_ Hg ltac:(lia)) as Hpt.
  unfold dispatch_source, sgo, dgo. cbn [shuffle_at sh_source_expert_offset src_dispatch_count].
  rewrite (bind_run _ _ _ _ _ (vget_tab _ _ _ _ Hg)), (bind_run _ _ _ _ _ (vget_tab _ _ _ _ Hg)).
  fold (own g). destruct (own g) eqn:Hown.
  - pose proof (proj1 (own_iff g) Hown) as ->.
    rewrite (bind_run _ _ _ _ _ (vget_tab _ _ _ _ He')), (bind_run _ _ _ _ _ (vset_tab _ _ _ _ _ He')).
    cbv [ret]. apply done_quad; [..|done].
    + apply tab_ext. intros j Hj. unfold upd. rewrite cnt_snoc, of_both_eq.
      rewrite Nat.eqb_refl. cbn [andb]. destruct (Nat.eqb_spec j e) as [->|Hne].
      * rewrite Nat.eqb_refl, u32_add_small by lia. lia.
      * rewrite (proj2 (Nat.eqb_neq e j)) by lia. lia.
    + apply tab_ext. intros j Hj. destruct (own j) eqn:Hj'; [done|]. rewrite cnt_snoc, of_group_eq.
      rewrite (proj2 (Nat.eqb_neq _ _)); [lia|]. intros <-. congruence.
    + unfold dispatch_entry, dispatch_loc. simpl. by rewrite Hown.
  - assert (g <> dp_group c) as Hne by (intros Hx; apply own_iff in Hx; congruence).
    rewrite (bind_run _ _ _ _ _ (vget_tab _ _ _ _ Hg)), (bind_run _ _ _ _ _ (vset_tab _ _ _ _ _ Hg)).
    rewrite Hown.
    erewrite bind_run by (unfold usize_div; rewrite (proj2 (Nat.eqb_neq _ _))
      by (rewrite (ok_node _ _ Hok); pose proof (ok_dp _ _ Hok); pose proof (ok_gpn _ _ Hok); nia); reflexivity).
    cbv [ret]. fold (on_node g). apply done_quad; [..|done].
    + apply tab_ext. intros j Hj. rewrite cnt_snoc, of_both_eq.
      rewrite (proj2 (Nat.eqb_neq _ _) Hne). cbn [andb]. lia.
    + apply tab_ext. intros j Hj. unfold upd. rewrite cnt_snoc, of_group_eq.
      destruct (Nat.eqb_spec j g) as [->|Hjg].
      * rewrite Hown, Nat.eqb_refl, u32_add_small by lia. lia.
      * rewrite (proj2 (Nat.eqb_neq g j)) by lia. destruct (own j); lia.
    + unfold dispatch_entry, dispatch_loc. cbn [fst snd]. rewrite Hown.
      set (i := cnt (of_group g) done) in *.
      assert (P * Z.of_nat g <= base - P) as HPg by (unfold base; nia).
      destruct (Z.ltb_spec i P).
      * rewrite (as_u32_small (Z.of_nat (max_private_tokens c * g))) by lia. rewrite u32_add_small by lia. lia.
      * destruct (on_node g).
        -- assert (pre g fst_ + T g = pre g lst_) as HT by (unfold A2aCounts.T; lia).
           rewrite u32_add_small by lia. done.
        -- rewrite (as_u32_small base), (as_u32_small P) by lia.
           rewrite (wrapu_small 32 (base - P)) by (unfold in_u; lia).
           rewrite !u32_add_small by (rewrite ?u32_add_small; lia). done.
Qed.

Lemma combine_source_run {St} done g e rest (s : St) :
  done ++ (g, e) :: rest = all ->
  combine_source c sgo dgo (rank_node c) g (shuffle_at done) s =
  Done ((src_combine_count (shuffle_at (done ++ [(g, e)])),
         if negb (own g) || (1 <? dp_size c)%nat then Some (combine_entry done (g, e)) else None), s).
Proof.
  intros Hall. destruct (preceding_bounds _ _ _ _ Hall) as (Hg & He & _ & Hcg & _).
  pose proof (total_small _ _ Hok) as Ht. pose proof (local_bounds _ _ Hok) as [Hloc _].
  pose proof (sum_T_total c tbl Hok g ltac:(lia)). pose proof (sum_T_total c tbl Hok (S g) ltac:(lia)) as HS.
  rewrite sumf_S in HS. pose proof (pre_nonneg c tbl Hok g fst_).
  pose proof (pre_total c tbl Hok g lst_ Hg ltac:(lia)) as Hpt.
  unfold combine_source, sgo, dgo. fold (own g). cbn [shuffle_at src_combine_count].
  destruct (negb (own g) || (1 <? dp_size c)%nat) eqn:Hsend.
  - rewrite (bind_run _ _ _ _ _ (vget_tab _ _ _ _ Hg)), (bind_run _ _ _ _ _ (vget_tab _ _ _ _ Hg)),
      (bind_run _ _ _ _ _ (vget_tab _ _ _ _ Hg)), (bind_run _ _ _ _ _ (vset_tab _ _ _ _ _ Hg)), Hsend.
    erewrite bind_run by (unfold usize_div; rewrite (proj2 (Nat.eqb_neq _ _))
      by (rewrite (ok_node _ _ Hok); pose proof (ok_dp _ _ Hok); pose proof (ok_gpn _ _ Hok); nia); reflexivity).
    cbv [ret]. fold (on_node g). unfold combine_entry, combine_loc. cbn [fst snd]. rewrite Hsend.
    assert (forall a b : Z, a = b -> Some a = Some b) as HSome by congruence.
    assert (forall (a a' : list Z) (b b' : option Z), a = a' -> b = b' -> Done (a, b, s) = Done (a', b', s))
      as Hpair by congruence.
    apply Hpair.
    + apply tab_ext. intros j Hj. unfold upd. rewrite cnt_snoc, of_group_eq.
      destruct (Nat.eqb_spec j g) as [->|Hjg].
      * rewrite Hsend, Nat.eqb_refl, u32_add_small by lia. lia.
      * rewrite (proj2 (Nat.eqb_neq g j)) by lia. destruct (negb (own j) || (1 <? dp_size c)%nat); lia.
    + apply HSome. assert (pre g fst_ + T g = pre g lst_) as HT by (unfold A2aCounts.T; lia).
      destruct (on_node g); rewrite u32_add_small; lia.
  - cbv [ret]. do 3 f_equal. apply tab_ext. intros j Hj.
    destruct (negb (own j) || (1 <? dp_size c)%nat) eqn:Hj'; [|done]. rewrite cnt_snoc, of_group_eq.
    rewrite (proj2 (Nat.eqb_neq _ _)); [lia|]. intros <-. congruence.
Qed.

Lemma vset_scan {St} (f : list (nat * nat) -> nat * nat -> Z) done t (s : St) :
  (length done < N)%nat ->
  vset (filled N (scan f done)) (length done) (f done t) s = Done (filled N (scan f (done ++ [t])), s).
Proof.
  intros Hn. rewrite <- (scan_length f done). rewrite vset_filled by (by rewrite scan_length).
  by rewrite scan_snoc.
Qed.

(** The combine vector may be written twice at the same place; the last write counts. *)
Lemma vset_twice {St} (v : list Z) i x y (s : St) v1 :
  vset v i x s = Done (v1, s) -> vset v1 i y s = vset v i y s.
Proof.
  unfold vset. destruct (Nat.ltb_spec i (length v)); cbv [ret panic]; [|done].
  intros. simplify_eq. rewrite length_insert. rewrite (proj2 (Nat.ltb_lt _ _)) by done.
  by rewrite list_insert_insert_eq.
Qed.

Lemma route_token_run done g e rest :
  done ++ (g, e) :: rest = all ->
  route_token c sgo dgo po base (rank_node c) g e (shuffle_at done) = Done (tt, shuffle_at (done ++ [(g, e)])).
Proof.
  intros Hall. destruct (preceding_bounds _ _ _ _ Hall) as (Hg & He & Hn & Hcg & Hce & Hcb).
  pose proof (local_bounds _ _ Hok) as [Hloc Hle]. pose proof (total_small _ _ Hok).
  pose proof (per_expert_bounds c tbl Hok G (e - fst_) ltac:(lia)).
  assert (e - fst_ < experts_per_rank c)%nat as Hj by lia. assert (e - fst_ < lst_ - fst_)%nat as Hj' by lia.
  assert (g * dp_size c + dp_rank c < world_size c)%nat as Hrk.
  { rewrite (world_groups _ _ Hok), (ok_dp_rank _ _ Hok). pose proof (ok_dp _ _ Hok).
    pose proof (Nat.mod_upper_bound (rank c) (dp_size c) ltac:(lia)). nia. }
  unfold route_token. rewrite (bind_run _ _ _ _ _ (dispatch_source_run done g e rest _ Hall)). cbn iota beta.
  change (last (shuffle_at done)) with (length done).
  cbn [shuffle_at source_dispatch_offset combine_send_offset source_rank padded_index expert_count].
  rewrite (bind_run _ _ _ _ _ (vset_scan dispatch_entry done (g, e) _ Hn)).
  assert (exists v, vset_opt (filled N (scan combine_entry done)) (length done)
      (if own g then Some (my c tbl e + cnt (of_both g e) done) else None) (shuffle_at done) = Done (v, shuffle_at done) /\
    vset_opt v (length done) (if negb (own g) || (1 <? dp_size c)%nat then Some (combine_entry done (g, e)) else None)
      (shuffle_at done) = Done (filled N (scan combine_entry (done ++ [(g, e)])), shuffle_at done)) as (v & Hv1 & Hv2).
  { pose proof (vset_scan combine_entry done (g, e) (shuffle_at done) Hn) as Hset.
    destruct (own g) eqn:Hown; cbn [negb orb vset_opt].
    - assert (exists v, vset (filled N (scan combine_entry done)) (length done)
        (my c tbl e + cnt (of_both g e) done) (shuffle_at done) = Done (v, shuffle_at done)) as (v & Hv).
      { unfold vset in *. destruct (_ <? _)%nat; [by eexists|done]. }
      exists v. split; [done|]. destruct (1 <? dp_size c)%nat eqn:Hdp; cbn [vset_opt].
      + by rewrite (vset_twice _ _ _ _ _ _ Hv).
      + assert (combine_entry done (g, e) = my c tbl e + cnt (of_both g e) done) as He'
          by (unfold combine_entry, combine_loc; cbn [fst snd]; by rewrite Hown, Hdp).
        rewrite He', Hv in Hset. by simplify_eq.
    - eexists. by split. }
  rewrite (bind_run _ _ _ _ _ Hv1), (bind_run _ _ _ _ _ (combine_source_run done g e rest _ Hall)).
  cbn iota beta. rewrite (bind_run _ _ _ _ _ Hv2).
  rewrite (as_u32_small (Z.of_nat _)) by (pose proof (ok_world32 _ _ Hok); lia).
  rewrite (bind_run _ _ _ _ _ (vset_scan rank_entry done (g, e) _ Hn)).
  unfold po. fold fst_. rewrite (bind_run _ _ _ _ _ (vget_tab _ _ _ _ Hj)), (bind_run _ _ _ _ _ (vget_tab _ _ _ _ Hj')).
  replace (fst_ + (e - fst_))%nat with e by lia.
  assert (u32_add (padoff (e - fst_)) (as_u32 (cnt (of_expert e) done)) = pad_entry done (g, e)) as ->.
  { pose proof (padoff_bounds (e - fst_) ltac:(lia)). pose proof (padoff_bounds (S (e - fst_)) ltac:(lia)) as HS.
    pose proof (padded_bounds (e - fst_)). unfold padoff in HS. rewrite sumf_S in HS. fold (padoff (e - fst_)) in HS.
    rewrite (as_u32_small (cnt (of_expert e) done)) by lia. rewrite u32_add_small by lia. done. }
  rewrite (bind_run _ _ _ _ _ (vset_scan pad_entry done (g, e) _ Hn)).
  rewrite (bind_run _ _ _ _ _ (vset_tab _ _ _ _ _ Hj')).
  do 2 f_equal. unfold shuffle_at. f_equal.
  - rewrite length_app. simpl. lia.
  - apply tab_ext. intros j Hjj. unfold upd. rewrite cnt_snoc, of_expert_eq.
    destruct (Nat.eqb_spec j (e - fst_)) as [->|].
    + replace (fst_ + (e - fst_))%nat with e by lia. by rewrite Nat.eqb_refl.
    + rewrite (proj2 (Nat.eqb_neq _ _)) by lia. lia.
Qed.

(** ** The loops as one pass *)
Local Abbreviation token := (fun t : nat * nat => route_token c sgo dgo po base (rank_node c) t.1 t.2).

Lemma for_each_replicate {St A} n (x : A) (m : M St unit) s :
  for_each (replicate n tt) (fun _ => m) s = for_each (replicate n x) (fun _ => m) s.
Proof. revert s. induction n as [|n IH]; intros s; [done|]. simpl. unfold bind. by destruct (m s) as [[[] ?]| |]. Qed.

Lemma for_each_const {St A} n (x : A) (f : A -> M St unit) s :
  for_each (replicate n x) (fun _ => f x) s = for_each (replicate n x) f s.
Proof. revert s. induction n as [|n IH]; intros s; [done|]. simpl. unfold bind. by destruct (f x s) as [[[] ?]| |]. Qed.

(** [m] followed by returning [z]. *)
Definition giving {St} (m : outcome (unit * St)) (z : Z) : outcome (Z * St) :=
  match m with Done (_, s) => Done (z, s) | Panic why => Panic why | OutOfFuel => OutOfFuel end.

Lemma route_experts_flat g a n acc s :
  (g < G)%nat -> (a + n <= num_experts c)%nat ->
  route_experts c sgo dgo po base (rank_node c) tbl g (seq a n) acc s =
  giving (for_each (seq a n ≫= fun e => replicate (Z.to_nat (R g e)) (g, e)) token s)
    (acc + sumf n (fun j => R g (a + j))).
Proof.
  intros Hg. revert a acc s. induction n as [|n IH]; intros a acc s Hn.
  - simpl. cbv [ret]. by rewrite sumf_0, Z.add_0_r.
  - cbn [seq route_experts]. assert (a < num_experts c)%nat as Ha by lia.
    rewrite (bind_run _ _ _ _ _ (get_num_routed_run c tbl Hok g a s Hg Ha)).
    rewrite bind_cons, for_each_app. unfold bind.
    rewrite (for_each_replicate _ (g, a)), (for_each_const _ (g, a) token).
    destruct (for_each (replicate _ (g, a)) token s) as [[[] s']| |]; [|done|done].
    rewrite IH by lia. f_equal.
    assert (sumf (S n) (fun j => R g (a + j)) = R g a + sumf n (fun j => R g (S a + j))) as ->; [|lia].
    rewrite !(sumf_shift _ _ (R g)). replace (a + S n)%nat with (S a + n)%nat by lia. rewrite (sumf_S a). lia.
Qed.

Lemma route_group_flat g s :
  (g < G)%nat -> route_group c sgo dgo po base (rank_node c) tbl g s = giving (for_each (tokens g) token s) (T g).
Proof.
  intros Hg. pose proof (local_bounds _ _ Hok) as [Hloc _]. unfold route_group, range.
  change (first_local_expert c) with fst_. change (last_local_expert c) with lst_.
  rewrite route_experts_flat by (done || lia). unfold tokens. f_equal. by rewrite sum_local.
Qed.

Lemma route_groups_flat gs s :
  (forall g, g ∈ gs -> (g < G)%nat) ->
  route_groups c sgo dgo po base (rank_node c) tbl gs s =
  giving (for_each (gs ≫= tokens) token s) (sum_list_Z (T <$> gs)).
Proof.
  revert s. induction gs as [|g gs IH]; intros s Hgs; [done|].
  cbn [route_groups]. rewrite bind_cons, for_each_app. unfold bind.
  rewrite route_group_flat by (apply Hgs; set_solver). unfold giving.
  destruct (for_each (tokens g) token s) as [[[] s']| |]; [|done|done].
  rewrite IH by (intros; apply Hgs; set_solver). unfold giving.
  by destruct (for_each (gs ≫= tokens) token s') as [[[] s2]| |].
Qed.

Lemma tokens_run l done rest :
  done ++ l ++ rest = all -> for_each l token (shuffle_at done) = Done (tt, shuffle_at (done ++ l)).
Proof.
  revert done. induction l as [|[g e] l IH]; intros done Hall; simpl.
  - cbv [ret]. by rewrite app_nil_r.
  - unfold bind. cbn [fst snd]. rewrite (route_token_run done g e (l ++ rest)) by done.
    rewrite (IH (done ++ [(g, e)])); rewrite <- (assoc_L (++)); done.
Qed.

(** The three calls that route everything. *)
Definition efa_tokens : Z := sum_list_Z (T <$> remote_groups (rank_node c) gpn (num_nodes c)).

Lemma shuffle_run :
  (let! efa := route_groups c sgo dgo po base (rank_node c) tbl (remote_groups (rank_node c) gpn (num_nodes c)) in
   let! _ := route_groups c sgo dgo po base (rank_node c) tbl (node_groups c (rank_node c) gpn) in
   let! _ := route_groups c sgo dgo po base (rank_node c) tbl [dp_group c] in
   ret efa) (shuffle_at []) = Done (efa_tokens, shuffle_at all).
Proof.
  assert (forall g, g ∈ visit -> (g < G)%nat) as Hlt by apply visit_lt. unfold visit in Hlt.
  assert (all = (remote_groups (rank_node c) gpn (num_nodes c) ≫= tokens) ++
    (node_groups c (rank_node c) gpn ≫= tokens) ++ ([dp_group c] ≫= tokens)) as Hall.
  { unfold all, visit. by rewrite !bind_app. }
  unfold bind. rewrite route_groups_flat by set_solver.
  erewrite tokens_run by (by rewrite Hall). cbn [giving app].
  rewrite route_groups_flat by set_solver.
  erewrite tokens_run by (by rewrite Hall). cbn [giving].
  rewrite route_groups_flat by set_solver.
  erewrite (tokens_run _ _ []) by (by rewrite Hall, <- !(assoc_L (++)), app_nil_r). cbn [giving].
  cbv [ret]. by rewrite Hall, <- (assoc_L (++)).
Qed.

Lemma shuffle_at_nil :
  {| last := 0; src_dispatch_count := replicate G 0; src_combine_count := replicate G 0;
     expert_count := replicate (lst_ - fst_) 0;
     sh_source_expert_offset := source_expert_offset (send_state c tbl (world_size c));
     source_dispatch_offset := replicate N 0; combine_send_offset := replicate N 0;
     source_rank := replicate N 0; padded_index := replicate N 0 |} = shuffle_at [].
Proof.
  unfold shuffle_at, filled. cbn [scan length imap app]. rewrite Nat.sub_0_r, !tab_zeros. f_equal.
  - apply tab_ext. intros. by destruct_match.
  - apply tab_ext. intros. by destruct_match.
  - cbn [send_state source_expert_offset]. apply tab_ext. intros e He. rewrite (below_all (num_experts c)).
    + simpl. lia.
    + unfold cap. pose proof (ok_rank _ _ Hok).
      assert (num_experts c <= world_size c * experts_per_rank c)%nat; [|lia].
      unfold experts_per_rank. pose proof (nat_div_ceil_bounds (num_experts c) (world_size c) ltac:(lia)). lia.
    + done.
Qed.
End Routing.
