(* ===== verification/A2aSpec.v ===== *)
(** * Correctness of the all-to-all worker

    The routing computation does not panic on a well-formed configuration; every received token
    gets its own slot in its expert's padded region; a receiver reads each remote token where
    the sender wrote it; how many transfers a step counts. *)
From stdpp Require Import prelude strings list.
From S2P Require Import Prelude Api A2aWorker A2aCounts A2aRouting.
Local Open Scope Z_scope.

(** ** Collecting *)
Lemma collect_run {St A B} (l : list A) (body : A -> M St (list B)) (f : A -> list B) s :
  (forall x, x ∈ l -> body x s = Done (f x, s)) -> collect l body s = Done (l ≫= f, s).
Proof.
  induction l as [|x l IH]; intros Hb; [done|]. cbn [collect]. unfold bind.
  rewrite Hb by set_solver. rewrite IH by set_solver. done.
Qed.

Lemma bind_singleton {A B} (f : A -> B) (l : list A) : (l ≫= fun x => [f x]) = f <$> l.
Proof. induction l as [|x l IH]; [done|]. rewrite bind_cons, IH. done. Qed.

Section Ranges.
Context (c : A2aState) (tbl : list Z) (Hok : a2a_ok c tbl).

Definition no_handle : AllToAllRankHandle :=
  {| rh_address := {| addr_bytes := [] |};
     num_routed_desc := {| mrd_ptr := 0; addr_rkey_list := [] |};
     recv_buffer_desc := {| mrd_ptr := 0; addr_rkey_list := [] |} |}.
(** The receive buffer of rank [r]. *)
Definition recv_desc (r : nat) : MemoryRegionDescriptor :=
  recv_buffer_desc (default no_handle (rank_handles c !! r)).

(** The rank at [index] of the [n]-th next node. *)
Definition peer (n index : nat) : nat :=
  (((rank_node c + n) * node_size c + index) mod world_size c)%nat.

Local Abbreviation dim := (get_dispatch_token_dim c).
Local Abbreviation P := (Z.of_nat (max_private_tokens c)).

(** What is written to rank [r] first, and what does not fit the private buffer. *)
Definition initial_to (r : nat) : ScatterTarget :=
  {| st_dst_mr := recv_desc r; st_length := dim * Z.min (to_rank c tbl r) P;
     st_src_offset := dim * my c tbl (cap c r);
     st_dst_offset := dim * (Z.of_nat (dp_group c) * P) |}.
Definition overflow_to (r : nat) : list ScatterTarget :=
  if to_rank c tbl r <=? P then []
  else [{| st_dst_mr := recv_desc r; st_length := dim * (to_rank c tbl r - P);
           st_src_offset := (P + my c tbl (cap c r)) * dim;
           st_dst_offset := (base c + sumf (dp_group c) (fun g => pre c tbl g (cap c (S r)) - pre c tbl g (cap c r))) * dim |}].

Lemma world_pos : (0 < world_size c)%nat /\ (0 < node_size c)%nat /\ (0 < dp_size c)%nat.
Proof.
  pose proof (ok_rank _ _ Hok). pose proof (ok_dp _ _ Hok). pose proof (ok_gpn _ _ Hok).
  rewrite (ok_node _ _ Hok). nia.
Qed.

Lemma usize_div_run {St} a b (s : St) : (0 < b)%nat -> usize_div a b s = Done ((a / b)%nat, s).
Proof. intros Hb. unfold usize_div. by rewrite (proj2 (Nat.eqb_neq _ _)) by lia. Qed.

Lemma usize_rem_run {St} a b (s : St) : (0 < b)%nat -> usize_rem a b s = Done ((a mod b)%nat, s).
Proof. intros Hb. unfold usize_rem. by rewrite decide_False by lia. Qed.

Lemma remote_rank_run {St} n index (s : St) : remote_rank c n index s = Done (peer n index, s).
Proof.
  destruct world_pos as (Hw & Hn & _). unfold remote_rank.
  rewrite (bind_run _ _ _ _ _ (usize_div_run _ _ _ Hn)). by apply usize_rem_run.
Qed.

Lemma peer_lt n index : (peer n index < world_size c)%nat.
Proof. apply Nat.mod_upper_bound. destruct world_pos. lia. Qed.

Lemma handle_run {St} r (s : St) :
  (r < world_size c)%nat -> vget (rank_handles c) r s = Done (default no_handle (rank_handles c !! r), s).
Proof.
  intros Hr. unfold vget. destruct (lookup_lt_is_Some_2 (rank_handles c) r) as (h & Hh).
  { by rewrite (ok_handles _ _ Hok). }
  by rewrite Hh.
Qed.

Lemma to_rank_bounds r : 0 <= to_rank c tbl r /\ to_rank c tbl r + my c tbl (cap c r) <= total c tbl.
Proof.
  unfold to_rank. pose proof (cap_le c (S r)). assert (cap c r <= cap c (S r))%nat by (unfold cap; lia).
  pose proof (pre_mono c tbl Hok (dp_group c) (cap c r) (cap c (S r)) ltac:(lia)).
  pose proof (pre_total c tbl Hok (dp_group c) (cap c (S r)) (dp_group_lt _ _ Hok) ltac:(lia)).
  unfold my. lia.
Qed.

Lemma as_u64_small a : 0 <= a < 2 ^ 64 -> as_u64 a = a.
Proof. apply wrapu_small. Qed.

Lemma dim_small x : 0 <= x < 2 ^ 31 -> 0 <= dim * x < 2 ^ 64.
Proof.
  destruct (ok_dims _ _ Hok) as [Hd _]. intros Hx. split; [nia|].
  assert (dim * x <= 2 ^ 32 * 2 ^ 31) by (apply Z.mul_le_mono_nonneg; lia). lia.
Qed.

Lemma combine_dim_small x : 0 <= x < 2 ^ 31 -> 0 <= get_combine_token_dim c * x < 2 ^ 64.
Proof.
  destruct (ok_dims _ _ Hok) as [_ Hd]. intros Hx. split; [nia|].
  assert (get_combine_token_dim c * x <= 2 ^ 32 * 2 ^ 31) by (apply Z.mul_le_mono_nonneg; lia). lia.
Qed.

Lemma initial_run {St} (s : St) :
  dispatch_initial_routes c tbl s = Done (range 1 (num_nodes c) ≫= fun n =>
    (fun i => initial_to (peer n i)) <$> seq 0 (node_size c), s).
Proof.
  destruct world_pos as (Hw & Hn & _). unfold dispatch_initial_routes.
  rewrite (initial_counts_run c tbl Hok), (bind_run _ _ _ _ _ (usize_div_run _ _ _ Hn)).
  apply collect_run. intros n _.
  rewrite (collect_run _ _ (fun i => [initial_to (peer n i)])).
  - by rewrite bind_singleton.
  - intros i _. unfold initial_target. pose proof (peer_lt n i) as Hp. unfold bind at 1 2.
    rewrite remote_rank_run.
    rewrite (bind_run _ _ _ _ _ (vget_tab _ _ _ _ Hp)), (bind_run _ _ _ _ _ (handle_run _ _ Hp)),
      (bind_run _ _ _ _ _ (vget_tab _ _ _ _ Hp)). cbv [ret]. do 3 f_equal. unfold initial_to.
    pose proof (to_rank_bounds (peer n i)). pose proof (my_bounds c tbl Hok (cap c (peer n i)) (cap_le c _)).
    pose proof (total_small _ _ Hok). pose proof (small_base _ _ Hok) as (Hb & HP & Hs).
    pose proof (dp_group_lt _ _ Hok).
    assert (0 <= Z.of_nat (dp_group c) * P <= base c) by (unfold base; nia).
    rewrite Nat2Z.inj_mul. rewrite !as_u64_small; [done|apply dim_small; lia..].
Qed.

Lemma dispatch_range_run {St} n i (s : St) :
  dispatch_range c tbl (send_state c tbl (world_size c)) (base c) n i s = Done (overflow_to (peer n i), s).
Proof.
  pose proof (peer_lt n i) as Hp. set (r := peer n i) in *. unfold dispatch_range.
  rewrite (bind_run _ _ _ _ _ (remote_rank_run n i s)), (bind_run _ _ _ _ _ (handle_run _ _ Hp)).
  fold r. cbn [send_state tokens_to_rank dispatch_src_offset].
  rewrite (bind_run _ _ _ _ _ (vget_tab _ _ _ _ Hp)), (below_all (world_size c)) by done.
  unfold overflow_to. destruct (Z.leb_spec (to_rank c tbl r) P) as [Hle|Hgt]; [done|].
  erewrite bind_run.
  2:{ apply (collect_run _ _ (fun g => [pre c tbl g (cap c (S r)) - pre c tbl g (cap c r)])). intros g Hg.
      apply elem_of_seq in Hg. pose proof (dp_group_lt _ _ Hok).
      rewrite (bind_run _ _ _ _ _ (rank_experts_run c tbl Hok g r 0 s ltac:(lia))). done. }
  rewrite (bind_run _ _ _ _ _ (vget_tab _ _ _ _ Hp)), (below_all (world_size c)) by done.
  set (f := fun g => pre c tbl g (cap c (S r)) - pre c tbl g (cap c r)).
  rewrite (bind_singleton f). fold (sumf (dp_group c) f).
  assert (0 <= sumf (dp_group c) f /\ sumf (dp_group c) f <= total c tbl) as [Hf0 Hf1].
  { pose proof (cap_le c (S r)). assert (cap c r <= cap c (S r))%nat by (unfold cap; lia).
    pose proof (dp_group_lt _ _ Hok). split.
    - apply sumf_nonneg. intros g _. unfold f. pose proof (pre_mono c tbl Hok g _ _ H0). lia.
    - transitivity (sumf (dp_group c) (fun g => pre c tbl g (num_experts c))).
      + apply sumf_le. intros g _. unfold f. pose proof (pre_nonneg c tbl Hok g (cap c r)).
        pose proof (pre_mono c tbl Hok g _ _ H). lia.
      + apply sumf_mono; [lia|]. intros. by apply pre_nonneg. }
  pose proof (to_rank_bounds r). pose proof (my_bounds c tbl Hok (cap c r) (cap_le c _)).
  pose proof (total_small _ _ Hok). pose proof (small_base _ _ Hok) as (Hb & HP & Hs).
  cbv [ret]. do 2 f_equal. f_equal. f_equal.
  - apply as_u64_small, dim_small. lia.
  - rewrite Z.mul_comm. rewrite as_u64_small; [lia|]. apply dim_small. lia.
  - rewrite (as_u64_small (sumf _ _)) by lia. rewrite Z.mul_comm. rewrite as_u64_small; [lia|]. apply dim_small. lia.
Qed.

(** What is sent back to the ranks of group [g] in the combine phase. *)
Definition combine_to (g i : nat) : ScatterTarget :=
  {| st_dst_mr := recv_desc (g * dp_size c + i);
     st_length := get_combine_token_dim c * T c tbl g;
     st_src_offset := sumf g (T c tbl) * get_combine_token_dim c;
     st_dst_offset := pre c tbl g (fst_ c) * get_combine_token_dim c |}.
Definition peer_group (n index : nat) : nat :=
  (((rank_node c + n) * groups_per_node c + index) mod num_groups c)%nat.

Lemma combine_range_run {St} n index (s : St) :
  combine_range c (recv_state c tbl (num_groups c)) (num_groups c) (groups_per_node c) (rank_node c) n index s =
  Done (combine_to (peer_group n index) <$> seq 0 (dp_size c), s).
Proof.
  pose proof (dp_group_lt _ _ Hok) as HG. unfold combine_range.
  rewrite (bind_run _ _ _ _ _ (usize_rem_run ((rank_node c + n) * groups_per_node c + index) (num_groups c) s ltac:(lia))).
  fold (peer_group n index). set (g := peer_group n index).
  assert (g < num_groups c)%nat as Hg by (apply Nat.mod_upper_bound; lia).
  rewrite <- bind_singleton. apply collect_run. intros i Hi. apply elem_of_seq in Hi.
  assert (g * dp_size c + i < world_size c)%nat as Hr by (rewrite (world_groups _ _ Hok); nia).
  cbn [recv_state tokens_from_group src_group_offset dst_group_offset].
  rewrite !(bind_run _ _ _ _ _ (vget_tab _ _ _ _ Hg)), !(below_all (num_groups c)) by done.
  rewrite (bind_run _ _ _ _ _ (handle_run _ _ Hr)). cbv [ret]. unfold combine_to. do 3 f_equal.
  pose proof (total_small _ _ Hok). pose proof (sum_T_total c tbl Hok g ltac:(lia)).
  pose proof (sum_T_total c tbl Hok (S g) ltac:(lia)) as HS. rewrite sumf_S in HS.
  pose proof (T_nonneg c tbl Hok g). destruct (local_bounds _ _ Hok).
  pose proof (pre_nonneg c tbl Hok g (fst_ c)). pose proof (pre_total c tbl Hok g (fst_ c) Hg ltac:(lia)).
  rewrite !(Z.mul_comm _ (get_combine_token_dim c)).
  rewrite !as_u64_small; [done|apply combine_dim_small; lia..].
Qed.

Lemma tab_below n f : tab n (below n f) = tab n f.
Proof. apply tab_ext. intros i Hi. by apply (below_all n). Qed.

(** The results of [process_routing_info]. *)
Definition routing : Routing := {|
  ri_num_recv_tx := sumf (num_groups c) (txs c tbl);
  dispatch_ranges := range 1 (num_nodes c) ≫= fun n =>
    step_by (dp_rank c) (node_size c) (dp_size c) ≫= fun i => overflow_to (peer n i);
  combine_ranges := range 1 (num_nodes c) ≫= fun n =>
    seq 0 (groups_per_node c) ≫= fun i => combine_to (peer_group n i) <$> seq 0 (dp_size c);
  dev_tokens_per_expert := tab (experts_per_rank c) (per_expert c tbl (num_groups c));
  dev_padded_index := scan (pad_entry c tbl) (all c tbl);
  dev_source_rank := scan (rank_entry c) (all c tbl);
  dev_source_dispatch_offset := scan (dispatch_entry c tbl) (all c tbl);
  dev_combine_send_offset := scan (combine_entry c tbl) (all c tbl);
  dev_num_recv_tokens := [sumf (num_groups c) (T c tbl); as_u32 (efa_tokens c tbl)];
|}.

Lemma gdr_copy_run {St} n (v : list Z) (s : St) : (length v <= n)%nat -> gdr_copy n v s = Done (v, s).
Proof. intros Hv. unfold gdr_copy. by rewrite (proj2 (Nat.leb_le _ _) Hv). Qed.

Lemma scan_full f : filled (N c tbl) (scan f (all c tbl)) = scan f (all c tbl).
Proof. apply filled_full. rewrite scan_length. by apply all_length_N. Qed.

Lemma process_routing_info_run {St} (s : St) : process_routing_info c tbl s = Done (routing, s).
Proof.
  destruct world_pos as (Hw & Hn & Hd). pose proof (local_bounds _ _ Hok) as [[Hloc _] Hle].
  pose proof (total_small _ _ Hok) as Htot. pose proof (small_base _ _ Hok) as (Hb & _ & _).
  pose proof (sum_T_total c tbl Hok (num_groups c) ltac:(lia)) as HsT.
  assert (length (all c tbl) <= max_recv_tokens c)%nat as Hlen.
  { pose proof (ok_recv _ _ Hok). rewrite all_length_N by done. unfold N. lia. }
  unfold process_routing_info.
  rewrite (bind_run _ _ _ _ _ (usize_div_run _ _ _ Hd)). fold (num_groups c).
  erewrite bind_run by (unfold usize_sub; change (last_local_expert c) with (lst_ c);
    change (first_local_expert c) with (fst_ c); rewrite (proj2 (Nat.ltb_ge _ _)) by lia; reflexivity).
  rewrite (bind_run _ _ _ _ _ (usize_div_run _ _ _ Hn)), (bind_run _ _ _ _ _ (usize_div_run _ _ _ Hd)),
    (bind_run _ _ _ _ _ (usize_div_run _ _ _ Hn)).
  fold (rank_node c) (groups_per_node c) (num_nodes c). cbn zeta.
  rewrite (send_state_0 c tbl), (recv_state_0 c tbl).
  erewrite bind_run by (unfold run; rewrite (counting_run c tbl Hok); reflexivity). cbn iota beta.
  cbn [recv_state tokens_per_expert num_recv_tokens src_group_offset dst_group_offset num_recv_tx].
  rewrite !tab_below.
  rewrite (bind_run _ _ _ _ _ (gdr_copy_run _ _ _ (Nat.eq_le_incl _ _ (tab_length _ _)))).
  erewrite bind_run by (unfold tab; apply (pad_experts_run c tbl Hok 0 (experts_per_rank c)); lia).
  rewrite (as_u64_small (Z.of_nat _)) by (unfold base in Hb; rewrite Nat2Z.inj_mul; lia).
  replace (Z.of_nat (max_private_tokens c * num_groups c)) with (base c) by (unfold base; lia).
  fold (N c tbl). rewrite (shuffle_at_nil c tbl Hok).
  change (padoff c tbl <$> seq 0 (experts_per_rank c)) with (po c tbl).
  change (tab (num_groups c) (fun g => sumf g (T c tbl))) with (sgo c tbl).
  change (tab (num_groups c) (fun g => pre c tbl g (fst_ c))) with (dgo c tbl).
  erewrite bind_run by (unfold run; rewrite (shuffle_run c tbl Hok); reflexivity). cbn iota beta.
  cbn [shuffle_at padded_index source_rank source_dispatch_offset combine_send_offset].
  rewrite !scan_full.
  assert (forall f : list (nat * nat) -> nat * nat -> Z,
    (length (scan f (all c tbl)) <= max_recv_tokens c)%nat) as Hsc by (intros; by rewrite scan_length).
  rewrite !(bind_run _ _ _ _ _ (gdr_copy_run _ _ _ (Hsc _))).
  erewrite bind_run by (apply gdr_copy_run; simpl; lia).
  rewrite (as_u32_small (sumf _ _)) by lia.
  erewrite bind_run by (apply collect_run; intros n _; apply collect_run; intros i _; apply dispatch_range_run).
  erewrite bind_run by (apply collect_run; intros n _; apply collect_run; intros i _; apply combine_range_run).
  done.
Qed.
End Ranges.

(** ** The slots of the received tokens *)
Section Slots.
Context (c : A2aState) (tbl : list Z) (Hok : a2a_ok c tbl).

Lemma padoff_mono i j : (i <= j)%nat -> padoff c tbl i <= padoff c tbl j.
Proof.
  intros Hij. apply sumf_mono; [done|]. intros k _. pose proof (padded_bounds c tbl Hok k).
  pose proof (per_expert_bounds c tbl Hok (num_groups c) k ltac:(lia)). lia.
Qed.

(** The region of local expert [j], without its padding. *)
Definition in_region (j : nat) (x : Z) : Prop :=
  padoff c tbl j <= x < padoff c tbl j + per_expert c tbl (num_groups c) j.

Lemma regions_disjoint i j x y : (i < j)%nat -> in_region i x -> in_region j y -> x < y.
Proof.
  unfold in_region. intros Hij Hx Hy. pose proof (padoff_mono (S i) j ltac:(lia)) as Hm.
  unfold padoff in Hm at 1. rewrite sumf_S in Hm. fold (padoff c tbl i) in Hm.
  pose proof (padded_bounds c tbl Hok i). lia.
Qed.

Lemma pad_entry_region i g e :
  all c tbl !! i = Some (g, e) ->
  (e - fst_ c < lst_ c - fst_ c)%nat /\ in_region (e - fst_ c) (pad_entry c tbl (take i (all c tbl)) (g, e)).
Proof.
  intros Hi. apply take_drop_middle in Hi.
  destruct (preceding_bounds c tbl Hok _ _ _ _ Hi) as (_ & He & _ & _ & Hce & _).
  split; [lia|]. unfold in_region, pad_entry. cbn [snd]. lia.
Qed.

Lemma pad_entries_distinct i j g e g' e' :
  (i < j)%nat -> all c tbl !! i = Some (g, e) -> all c tbl !! j = Some (g', e') ->
  pad_entry c tbl (take i (all c tbl)) (g, e) <> pad_entry c tbl (take j (all c tbl)) (g', e').
Proof.
  intros Hij Hi Hj. destruct (pad_entry_region _ _ _ Hi) as [Hei Hri].
  destruct (pad_entry_region _ _ _ Hj) as [Hej Hrj].
  destruct (decide (e = e')) as [->|Hne].
  - unfold pad_entry. cbn [snd].
    assert (take j (all c tbl) = take i (all c tbl) ++ (g, e') :: drop (S i) (take j (all c tbl))) as ->.
    { assert (take i (all c tbl) = take i (take j (all c tbl))) as Ht
        by (rewrite take_take, Nat.min_l by lia; done).
      rewrite Ht. symmetry. apply take_drop_middle. by rewrite lookup_take_lt. }
    rewrite cnt_app. cbn [cnt]. rewrite of_expert_eq, Nat.eqb_refl.
    pose proof (cnt_nonneg (of_expert e') (drop (S i) (take j (all c tbl)))). lia.
  - assert (fst_ c <= e)%nat as He1.
    { apply list_elem_of_lookup_2 in Hi. apply all_elem in Hi; [lia|done]. }
    assert (fst_ c <= e')%nat as He2.
    { apply list_elem_of_lookup_2 in Hj. apply all_elem in Hj; [lia|done]. }
    destruct (decide (e < e')%nat).
    + pose proof (regions_disjoint (e - fst_ c) (e' - fst_ c) _ _ ltac:(lia) Hri Hrj). lia.
    + pose proof (regions_disjoint (e' - fst_ c) (e - fst_ c) _ _ ltac:(lia) Hrj Hri). lia.
Qed.

Lemma padoff_aligned j : (expert_padding c | padoff c tbl j).
Proof.
  induction j as [|j IH]; [apply Z.divide_0_r|]. unfold padoff. rewrite sumf_S.
  apply Z.divide_add_r; [done|]. unfold padded. apply Z.divide_factor_r.
Qed.

(** The slots are pairwise distinct. *)
Lemma padded_index_NoDup : NoDup (dev_padded_index (routing c tbl)).
Proof.
  apply NoDup_alt. intros i j x Hi Hj. destruct (decide (i = j)) as [|Hne]; [done|exfalso].
  cbn [routing dev_padded_index] in Hi, Hj. unfold scan in Hi, Hj. rewrite list_lookup_imap in Hi, Hj.
  destruct (all c tbl !! i) as [[g e]|] eqn:Ei; [|done]. destruct (all c tbl !! j) as [[g' e']|] eqn:Ej; [|done].
  simpl in Hi, Hj. simplify_eq. destruct (decide (i < j)%nat).
  - by apply (pad_entries_distinct i j g e g' e').
  - by apply (pad_entries_distinct j i g' e' g e); [lia|..].
Qed.

Lemma padded_index_length :
  Z.of_nat (length (dev_padded_index (routing c tbl))) = sum_list_Z (dev_tokens_per_expert (routing c tbl)).
Proof.
  cbn [routing dev_padded_index dev_tokens_per_expert]. rewrite scan_length, all_length by done. unfold tab.
  fold (sumf (experts_per_rank c) (per_expert c tbl (num_groups c))). by rewrite sum_per_expert_all.
Qed.

(** The region of local expert [j]: [n] slots from a multiple of [expert_padding] on, before the next
    region. *)
Lemma region_padded j :
  (j < lst_ c - fst_ c)%nat ->
  dev_tokens_per_expert (routing c tbl) !! j = Some (per_expert c tbl (num_groups c) j) /\
  (expert_padding c | padoff c tbl j) /\
  padoff c tbl j + per_expert c tbl (num_groups c) j <= padoff c tbl (S j).
Proof.
  intros Hj. pose proof (local_bounds _ _ Hok). split; [apply tab_lookup; lia|]. split; [apply padoff_aligned|].
  unfold padoff at 2. rewrite sumf_S. fold (padoff c tbl j). pose proof (padded_bounds c tbl Hok j). lia.
Qed.
End Slots.

(** ** Sender and receiver *)
Section Agreement.
Context (cs cq : A2aState) (tbl : list Z) (Hs : a2a_ok cs tbl) (Hq : a2a_ok cq tbl).

(** Two ranks of the same job. *)
Record same_job : Prop := {
  sj_dp : dp_size cs = dp_size cq;
  sj_node : node_size cs = node_size cq;
  sj_world : world_size cs = world_size cq;
  sj_experts : num_experts cs = num_experts cq;
  sj_private : max_private_tokens cs = max_private_tokens cq;
}.

Context (Hj : same_job).

Lemma pre_same g e : pre cs tbl g e = pre cq tbl g e.
Proof. unfold pre, R. by rewrite (sj_experts Hj). Qed.

Lemma cap_same r : cap cs r = cap cq r.
Proof. unfold cap, experts_per_rank. by rewrite (sj_experts Hj), (sj_world Hj). Qed.

Lemma groups_same : num_groups cs = num_groups cq.
Proof. unfold num_groups. by rewrite (sj_world Hj), (sj_dp Hj). Qed.

Lemma local_cap : fst_ cq = cap cq (rank cq) /\ lst_ cq = cap cq (S (rank cq)).
Proof.
  pose proof (ok_experts _ _ Hq). unfold fst_, lst_, last_local_expert, first_local_expert, cap in *. lia.
Qed.

Lemma T_cap g : T cq tbl g = pre cs tbl g (cap cs (S (rank cq))) - pre cs tbl g (cap cs (rank cq)).
Proof. destruct local_cap as [Hf Hl]. unfold T. by rewrite Hf, Hl, !pre_same, !cap_same. Qed.

Lemma mod_block a b k n : (b < k)%nat -> (0 < n)%nat -> ((a * k + b) mod (n * k) = a mod n * k + b)%nat.
Proof.
  intros Hb Hn. pose proof (Nat.div_mod_eq a n). pose proof (Nat.mod_upper_bound a n ltac:(lia)).
  symmetry. apply (Nat.mod_unique _ _ (a / n)); [nia|]. rewrite H at 1. lia.
Qed.

(** The sender reaches every rank of another node. *)
Lemma peer_reaches :
  rank_node cs <> rank_node cq ->
  exists n, n ∈ range 1 (num_nodes cs) /\ peer cs n (rank cq mod node_size cq) = rank cq.
Proof.
  intros Hne. destruct (nodes_pos _ _ Hs) as [Hnn Hrs]. destruct (nodes_pos _ _ Hq) as [_ Hrq].
  assert (num_nodes cq = num_nodes cs) as Heq by (unfold num_nodes; by rewrite (sj_world Hj), (sj_node Hj)).
  destruct (world_pos _ _ Hq) as (_ & Hnode & _).
  destruct (rotation_reaches (rank_node cs) (rank_node cq) (num_nodes cs)) as (n & Hn & Hr); [done|lia|done|].
  exists n. split; [done|]. unfold peer. rewrite (ok_world _ _ Hs), (sj_node Hj).
  rewrite mod_block, Hr by (try apply Nat.mod_upper_bound; lia).
  unfold rank_node. pose proof (Nat.div_mod_eq (rank cq) (node_size cq)). lia.
Qed.

(** The overflow transfers go to the ranks with the sender's [dp_rank]. *)
Lemma step_by_reaches :
  dp_rank cs = dp_rank cq ->
  (rank cq mod node_size cq)%nat ∈ step_by (dp_rank cs) (node_size cs) (dp_size cs).
Proof.
  intros Hdp. destruct (world_pos _ _ Hq) as (_ & Hnode & Hd). unfold step_by.
  rewrite Hdp, (sj_node Hj), (sj_dp Hj). apply list_elem_of_fmap.
  set (i := (rank cq mod node_size cq)%nat).
  assert (i mod dp_size cq = dp_rank cq)%nat as Hi.
  { unfold i. rewrite (ok_dp_rank _ _ Hq), (ok_node _ _ Hq), Nat.mul_comm.
    rewrite Nat.Div0.mod_mul_r, Nat.mul_comm, Nat.Div0.mod_add. by rewrite Nat.Div0.mod_mod. }
  assert (i < node_size cq)%nat as Hlt by (apply Nat.mod_upper_bound; lia).
  pose proof (Nat.div_mod_eq i (dp_size cq)). exists (i / dp_size cq)%nat. split; [lia|].
  apply elem_of_seq. split; [lia|]. pose proof (nat_div_ceil_bounds (node_size cq - dp_rank cq) (dp_size cq) ltac:(lia)).
  nia.
Qed.

Lemma sender_group : dp_rank cs = dp_rank cq -> rank cs = (dp_group cs * dp_size cq + dp_rank cq)%nat.
Proof.
  intros Hdp. rewrite <- Hdp, <- (sj_dp Hj), (ok_dp_group _ _ Hs), (ok_dp_rank _ _ Hs).
  pose proof (Nat.div_mod_eq (rank cs) (dp_size cs)). lia.
Qed.

(** The transfer, and the place in it, that carries the [i]-th token from [cs] to [cq]. *)
Definition carried (l : list ScatterTarget) (i o : Z) : Prop :=
  exists t k, t ∈ l /\ st_dst_mr t = recv_desc cs (rank cq) /\ 0 <= k /\
    (k + 1) * get_dispatch_token_dim cs <= st_length t /\
    st_src_offset t + k * get_dispatch_token_dim cs =
      (my cs tbl (cap cs (rank cq)) + i) * get_dispatch_token_dim cs /\
    st_dst_offset t + k * get_dispatch_token_dim cs = o * get_dispatch_token_dim cs.

Lemma initial_carries n i :
  n ∈ range 1 (num_nodes cs) -> peer cs n (rank cq mod node_size cq) = rank cq ->
  0 <= i < T cq tbl (dp_group cs) -> i < Z.of_nat (max_private_tokens cs) ->
  carried (range 1 (num_nodes cs) ≫= fun n => (fun i => initial_to cs tbl (peer cs n i)) <$> seq 0 (node_size cs))
    i (Z.of_nat (max_private_tokens cq) * Z.of_nat (dp_group cs) + i).
Proof.
  intros Hn Hp Hi HP. destruct (world_pos _ _ Hq) as (_ & Hnode & _). destruct (ok_dims _ _ Hs) as [Hd _].
  exists (initial_to cs tbl (rank cq)), i. split; [|split; [done|]].
  - apply list_elem_of_bind. exists n. split; [|done]. apply list_elem_of_fmap.
    exists (rank cq mod node_size cq)%nat. split; [by rewrite Hp|]. apply elem_of_seq.
    rewrite (sj_node Hj). pose proof (Nat.mod_upper_bound (rank cq) (node_size cq) ltac:(lia)). lia.
  - cbn [initial_to st_length st_src_offset st_dst_offset]. rewrite T_cap in Hi. fold (my cs tbl) in *.
    unfold to_rank, my. rewrite (sj_private Hj) in *. split; [lia|]. split; [|split; lia].
    rewrite Z.mul_comm. apply Z.mul_le_mono_nonneg_l; lia.
Qed.

Lemma overflow_carries n i :
  dp_rank cs = dp_rank cq -> n ∈ range 1 (num_nodes cs) -> peer cs n (rank cq mod node_size cq) = rank cq ->
  0 <= i < T cq tbl (dp_group cs) -> Z.of_nat (max_private_tokens cs) <= i ->
  carried (dispatch_ranges (routing cs tbl)) i
    (sumf (dp_group cs) (T cq tbl) + i + (base cq - Z.of_nat (max_private_tokens cq))).
Proof.
  intros Hdp Hn Hp Hi HP. destruct (ok_dims _ _ Hs) as [Hd _].
  assert (to_rank cs tbl (rank cq) = T cq tbl (dp_group cs)) as Hto by (rewrite T_cap; done).
  assert (overflow_to cs tbl (rank cq) <> []) as Hov.
  { unfold overflow_to. rewrite (proj2 (Z.leb_gt _ _)) by lia. done. }
  destruct (overflow_to cs tbl (rank cq)) as [|t l] eqn:Et; [done|].
  exists t, (i - Z.of_nat (max_private_tokens cs)). split.
  - cbn [routing dispatch_ranges]. apply list_elem_of_bind. exists n. split; [|done].
    apply list_elem_of_bind. exists (rank cq mod node_size cq)%nat.
    split; [|by apply step_by_reaches]. rewrite Hp, Et. set_solver.
  - unfold overflow_to in Et. rewrite (proj2 (Z.leb_gt _ _)) in Et by lia. simplify_eq.
    cbn [st_length st_src_offset st_dst_offset st_dst_mr].
    rewrite (sumf_ext (dp_group cs) (fun g => pre cs tbl g (cap cs (S (rank cq))) - pre cs tbl g (cap cs (rank cq)))
      (T cq tbl)) by (intros; by rewrite T_cap).
    assert (base cs = base cq) as -> by (unfold base; by rewrite (sj_private Hj), groups_same).
    rewrite (sj_private Hj) in *. split; [done|]. split; [lia|]. split; [|split; lia].
    rewrite Z.mul_comm. apply Z.mul_le_mono_nonneg_l; lia.
Qed.
End Agreement.

Lemma cnt_fmap {A B} (f : A -> B) p (l : list A) : cnt p (f <$> l) = cnt (fun x => p (f x)) l.
Proof. induction l as [|x l IH]; [done|]. rewrite fmap_cons. cbn [cnt]. by rewrite IH. Qed.

Lemma cnt_ext {A} (p q : A -> bool) (l : list A) : (forall x, p x = q x) -> cnt p l = cnt q l.
Proof. intros Hpq. induction l as [|x l IH]; simpl; [done|]. by rewrite IH, Hpq. Qed.

Lemma source_ranks c (l : list (nat * nat)) :
  scan (rank_entry c) l = (fun t => Z.of_nat (t.1 * dp_size c + dp_rank c)) <$> l.
Proof. unfold scan, rank_entry. apply list_eq. intros i. by rewrite list_lookup_imap, list_lookup_fmap. Qed.

Lemma carried_app cs cq tbl l1 l2 i o :
  carried cs cq tbl l1 i o \/ carried cs cq tbl l2 i o -> carried cs cq tbl (l1 ++ l2) i o.
Proof.
  intros [(t & k & Ht & Hrest)|(t & k & Ht & Hrest)]; exists t, k; (split; [|done]); set_solver.
Qed.

(** C10: a receiver reads every token from another node where its sender put it.  Let [cs] and [cq]
    be ranks of the same job on different nodes, with the same [dp_rank], that hold the same
    routing table.  Both compute their routing; wherever [cq] expects a token of [cs] (the
    [i]-th one, counting the earlier positions with that source), the offset it reads is the
    place in [cq]'s receive buffer to which one of the transfers [cs] submits, the initial one
    or the overflow one, copies the [i]-th token that [cs] holds for [cq]. *)
Theorem receiver_reads_what_sender_wrote {St} cs cq tbl (s : St) :
  a2a_ok cs tbl -> a2a_ok cq tbl -> same_job cs cq -> dp_rank cs = dp_rank cq ->
  rank_node cs <> rank_node cq ->
  exists rs rq ds, process_routing_info cs tbl s = Done (rs, s) /\
    process_routing_info cq tbl s = Done (rq, s) /\ dispatch_initial_routes cs tbl s = Done (ds, s) /\
    forall p o, dev_source_rank rq !! p = Some (Z.of_nat (rank cs)) ->
      dev_source_dispatch_offset rq !! p = Some o ->
      carried cs cq tbl (ds ++ dispatch_ranges rs)
        (cnt (Z.eqb (Z.of_nat (rank cs))) (take p (dev_source_rank rq))) o.
Proof.
  intros Hs Hq Hj Hdp Hne.
  eexists _, _, _. split; [by apply process_routing_info_run|]. split; [by apply process_routing_info_run|].
  split; [by apply initial_run|]. intros p o Hrank Ho.
  change (dev_source_rank (routing cq tbl)) with (scan (rank_entry cq) (all cq tbl)) in *.
  change (dev_source_dispatch_offset (routing cq tbl)) with (scan (dispatch_entry cq tbl) (all cq tbl)) in Ho.
  rewrite source_ranks in *. rewrite list_lookup_fmap in Hrank.
  destruct (all cq tbl !! p) as [[g e]|] eqn:Ep; [|done]. cbn [fmap option_fmap option_map fst] in Hrank.
  rewrite (scan_lookup _ _ _ _ Ep) in Ho. injection Hrank as Hrank. injection Ho as <-.
  pose proof (sender_group cs cq tbl Hs Hj Hdp) as Hsg. destruct (world_pos _ _ Hq) as (_ & _ & Hd).
  assert (g = dp_group cs) as -> by nia.
  rewrite <- fmap_take, cnt_fmap.
  rewrite (cnt_ext _ (of_group (dp_group cs))).
  2:{ intros [g' e']. unfold of_group. cbn [fst]. rewrite Hsg.
      destruct (Nat.eqb_spec g' (dp_group cs)) as [->|]; [by rewrite Z.eqb_refl|]. apply Z.eqb_neq. nia. }
  set (i := cnt (of_group (dp_group cs)) (take p (all cq tbl))).
  apply take_drop_middle in Ep. destruct (preceding_bounds cq tbl Hq _ _ _ _ Ep) as (_ & _ & _ & Hi & _).
  fold i in Hi. destruct (peer_reaches cs cq tbl Hs Hq Hj Hne) as (n & Hn & Hp).
  unfold dispatch_entry, dispatch_loc. cbn [fst snd]. fold i.
  assert (own cq (dp_group cs) = false) as ->.
  { unfold own. rewrite <- Hsg. apply Nat.eqb_neq. intros Heq. apply Hne. unfold rank_node.
    by rewrite Heq, (sj_node _ _ Hj). }
  assert (on_node cq (dp_group cs) = false) as ->.
  { unfold on_node. rewrite <- Hsg. apply Nat.eqb_neq. intros Heq. apply Hne. unfold rank_node at 1.
    by rewrite (sj_node _ _ Hj). }
  apply carried_app. destruct (Z.ltb_spec i (Z.of_nat (max_private_tokens cq))).
  - left. eapply initial_carries; eauto. by rewrite (sj_private _ _ Hj).
  - right. eapply overflow_carries; eauto. by rewrite (sj_private _ _ Hj).
Qed.

(** ** The actions of a step *)
Definition submit (c : A2aState) (dsts : list ScatterTarget) (imm : Z) (dom : GroupTransferRouting) : list Action :=
  if is_nil dsts then [] else [ASubmit (scatter c dsts imm dom)].

Definition initial_routes (c : A2aState) (tbl : list Z) : list ScatterTarget :=
  range 1 (num_nodes c) ≫= fun n => (fun i => initial_to c tbl (peer c n i)) <$> seq 0 (node_size c).

Definition barrier_actions (c : A2aState) (request : TransferRequest) (imm num_tx : Z) : list Action :=
  [ASubmit request; AWaitImm imm (as_u32 (Z.of_nat (world_size c) - 1)); AWaitTx num_tx; ASet tx_ready true].

Definition step_actions (c : A2aState) (tbl0 tbl : list Z) : list Action :=
  [AWait dispatch_route_done; ASubmit (route_write_op c); AWait dispatch_send_done; ASet tx_ready false] ++
  submit c (initial_routes c tbl0) (dispatch_imm c) AllDomainsShardPeers ++
  [AWaitImm (route_imm c) (wrapu 32 (as_u32 (Z.of_nat (num_groups c)) - 1)); ASet num_recv_tokens_flag true] ++
  submit c (dispatch_ranges (routing c tbl)) (dispatch_imm c) AllDomainsShardBytes ++
  [AWaitGdr (dispatch_imm c) (ri_num_recv_tx (routing c tbl)); AWait dispatch_recv_done] ++
  barrier_actions c (dispatch_barrier_write_op c) (dispatch_barrier_imm c)
    (1 + bool_Z (negb (is_nil (initial_routes c tbl0))) + bool_Z (negb (is_nil (dispatch_ranges (routing c tbl))))) ++
  [AWait combine_send_done] ++
  submit c (combine_ranges (routing c tbl)) (combine_imm c) AllDomainsShardBytes ++
  [AWaitImm (combine_imm c) (u32_mul (as_u32 (Z.of_nat (world_size c) - Z.of_nat (node_size c))) (nets_per_gpu c));
   ASet combine_recv_flag true; AWait combine_recv_done] ++
  barrier_actions c (combine_barrier_write_op c) (combine_barrier_imm c)
    (1 + bool_Z (node_size c <? world_size c)%nat).

Lemma step_run c running tbl0 tbl l :
  a2a_ok c tbl0 -> a2a_ok c tbl -> (forall k, running k = true) ->
  step c running tbl0 tbl l = Done (tt, l ++ step_actions c tbl0 tbl).
Proof.
  intros Hok0 Hok Hrun. unfold step. rewrite !Hrun. cbn [negb].
  cbv [emit barrier bind modify ret]. rewrite (initial_run c tbl0 Hok0). fold (initial_routes c tbl0).
  unfold step_actions, submit, barrier_actions.
  destruct (is_nil (initial_routes c tbl0)); cbn beta iota; rewrite (process_routing_info_run c tbl Hok);
    cbn beta iota; destruct (is_nil (dispatch_ranges _)); cbn beta iota;
    destruct (is_nil (combine_ranges _)); cbn [negb bool_Z app]; by rewrite <- !(assoc_L (++)).
Qed.

(** ** Counting the transfers of a step *)
Fixpoint submitted (l : list Action) : Z :=
  match l with
  | [] => 0
  | ASubmit _ :: l => 1 + submitted l
  | _ :: l => submitted l
  end.
Fixpoint waited_for (l : list Action) : Z :=
  match l with
  | [] => 0
  | AWaitTx n :: l => n + waited_for l
  | _ :: l => waited_for l
  end.

Lemma combine_ranges_nil c tbl :
  a2a_ok c tbl -> is_nil (combine_ranges (routing c tbl)) = negb (node_size c <? world_size c)%nat.
Proof.
  intros Hok. pose proof (ok_world _ _ Hok) as Hw. destruct (world_pos _ _ Hok) as (_ & Hn & Hd).
  pose proof (ok_gpn _ _ Hok) as Hg. destruct (nodes_pos _ _ Hok) as [Hnn _]. cbn [routing combine_ranges].
  destruct (num_nodes c) as [|[|k]] eqn:E; [lia| |].
  - rewrite (proj2 (Nat.ltb_ge _ _)) by lia. done.
  - rewrite (proj2 (Nat.ltb_lt _ _)) by nia.
    destruct (groups_per_node c) as [|m]; [lia|]. destruct (dp_size c) as [|d]; [lia|]. done.
Qed.

Lemma step_actions_surplus c tbl0 tbl :
  a2a_ok c tbl -> submitted (step_actions c tbl0 tbl) = waited_for (step_actions c tbl0 tbl) + 1.
Proof.
  intros Hok. unfold step_actions, submit. rewrite (combine_ranges_nil c tbl Hok).
  by destruct (is_nil (initial_routes c tbl0)), (is_nil (dispatch_ranges _)), (node_size c <? world_size c)%nat.
Qed.

(** The worker counts one transfer too few per step.  In every complete step the number of
    transfers submitted with [tx_counter] is one more than what the two barriers subtract from
    it: the transfer of the routing information is not accounted for.  So after [n] steps the
    counter is [n] too high, and a barrier stops waiting for the transfers of its step. *)
Theorem step_submits_one_more_than_it_waits_for c running tbl0 tbl l :
  a2a_ok c tbl0 -> a2a_ok c tbl -> (forall k, running k = true) ->
  exists acts, step c running tbl0 tbl l = Done (tt, l ++ acts) /\ submitted acts = waited_for acts + 1.
Proof.
  intros Hok0 Hok Hrun. exists (step_actions c tbl0 tbl). split; [by apply step_run|by apply step_actions_surplus].
Qed.

Lemma submitted_app l1 l2 : submitted (l1 ++ l2) = submitted l1 + submitted l2.
Proof. induction l1 as [|a l1 IH]; [done|]. destruct a; cbn; rewrite ?IH; lia. Qed.

Lemma waited_for_app l1 l2 : waited_for (l1 ++ l2) = waited_for l1 + waited_for l2.
Proof. induction l1 as [|a l1 IH]; [done|]. destruct a; cbn; rewrite ?IH; lia. Qed.

Section MainLoop.
Context (c : A2aState) (alive : nat -> bool) (running : nat -> nat -> bool) (tbl0 tbl : nat -> list Z).
Context (Hok0 : forall k, a2a_ok c (tbl0 k)) (Hok : forall k, a2a_ok c (tbl k)) (Hrun : forall k j, running k j = true).

Lemma main_loop_run n fuel k l :
  (n < fuel)%nat -> (forall i, (i < n)%nat -> alive (k + i)%nat = true) -> alive (k + n)%nat = false ->
  main_loop c fuel alive running tbl0 tbl k l =
    Done (tt, l ++ (seq k n ≫= fun i => step_actions c (tbl0 i) (tbl i))).
Proof.
  revert fuel k l. induction n as [|n IH]; intros [|fuel] k l Hf Ha Hend; [lia| |lia|]; cbn [main_loop].
  - rewrite Nat.add_0_r in Hend. rewrite Hend. cbv [ret]. cbn. by rewrite app_nil_r.
  - rewrite <- (Nat.add_0_r k), Ha by lia. unfold bind. rewrite Nat.add_0_r, step_run by auto.
    rewrite IH; [|lia|intros i Hi; rewrite Nat.add_succ_comm; apply Ha; lia|by rewrite Nat.add_succ_comm].
    cbn [seq]. by rewrite bind_cons, <- (assoc_L (++)).
Qed.

(** When [stop] is seen after [n] rounds the loop ends, with the surplus of [n] transfers in
    [tx_counter]. *)
Theorem main_loop_ends n fuel :
  (n < fuel)%nat -> (forall i, (i < n)%nat -> alive i = true) -> alive n = false ->
  exists acts, main_loop c fuel alive running tbl0 tbl 0 [] = Done (tt, acts) /\
    submitted acts = waited_for acts + Z.of_nat n.
Proof.
  intros Hf Ha Hend. eexists. split; [by apply main_loop_run|]. cbn [app]. clear Hf Ha Hend.
  induction n as [|n IH]; [done|]. rewrite seq_S, bind_app, submitted_app, waited_for_app, IH. cbn [mbind list_bind app].
  rewrite app_nil_r, step_actions_surplus by auto. lia.
Qed.
End MainLoop.

(** ** Witnesses: four ranks on two nodes, one expert each *)
Definition small_handle (r : nat) : AllToAllRankHandle :=
  {| rh_address := {| addr_bytes := [Z.of_nat r] |};
     num_routed_desc := {| mrd_ptr := 1000 + Z.of_nat r; addr_rkey_list := [] |};
     recv_buffer_desc := {| mrd_ptr := 2000 + Z.of_nat r; addr_rkey_list := [] |} |}.

Definition small_args (r : nat) : A2aArgs := {|
  a_hidden_dim := 64; a_hidden_dim_scale := 4; a_in_elemsize := 1; a_out_elemsize := 2;
  a_scale_elemsize := 4; a_max_recv_tokens := 64; a_max_private_tokens := 2; a_num_experts := 4;
  a_expert_padding := 4; a_rank := r; a_dp_size := 1; a_node_size := 2; a_world_size := 4;
  a_num_routed_mr := 100; a_send_buffer_mr := 200; a_imm_base := 10;
  a_rank_handles := small_handle <$> seq 0 4; a_nets_per_gpu := 2 |}.

Definition small_job (r : nat) : A2aState :=
  match a2a_new (small_args r) (fun _ => ret (Ok 1)) tt with
  | Done (Ok c, _) => c
  | _ => {| max_recv_tokens := 0; max_private_tokens := 0; hidden_dim := 0; hidden_dim_scale := 0;
            in_elemsize := 0; out_elemsize := 0; scale_elemsize := 0; num_experts := 0; expert_padding := 0;
            rank := 0; dp_rank := 0; dp_group := 0; dp_size := 0; node_size := 0; world_size := 0;
            rank_handles := []; nets_per_gpu := 0; dispatch_imm := 0; combine_imm := 0; route_imm := 0;
            dispatch_barrier_imm := 0; combine_barrier_imm := 0; num_routed_mr := 0; send_buffer_mr := 0;
            route_write_op := ReqBarrier {| br_imm_data := 0; br_dst_mrs := []; br_domain := Pinned 0 |};
            dispatch_barrier_write_op := ReqBarrier {| br_imm_data := 0; br_dst_mrs := []; br_domain := Pinned 0 |};
            combine_barrier_write_op := ReqBarrier {| br_imm_data := 0; br_dst_mrs := []; br_domain := Pinned 0 |} |}
  end.

Definition small_table : list Z := [1; 2; 5; 0;  3; 1; 1; 2;  0; 4; 2; 1;  2; 0; 3; 1].

Lemma small_ok r : (r < 4)%nat -> a2a_ok (small_job r) small_table.
Proof.
  intros Hr. assert (r = 0 \/ r = 1 \/ r = 2 \/ r = 3)%nat as [->|[->|[->| ->]]] by lia;
    (split; try (vm_compute; reflexivity); try (vm_compute; lia); repeat constructor; vm_compute; congruence).
Qed.

(** Rank 0 has five tokens for rank 2, two in the private buffer and three beyond. *)
Lemma receiver_reads_what_sender_wrote_witness :
  exists rs rq ds, process_routing_info (small_job 0) small_table tt = Done (rs, tt) /\
    process_routing_info (small_job 2) small_table tt = Done (rq, tt) /\
    dispatch_initial_routes (small_job 0) small_table tt = Done (ds, tt) /\
    (forall p o, dev_source_rank rq !! p = Some 0 -> dev_source_dispatch_offset rq !! p = Some o ->
      carried (small_job 0) (small_job 2) small_table (ds ++ dispatch_ranges rs)
        (cnt (Z.eqb 0) (take p (dev_source_rank rq))) o) /\
    dev_source_rank rq !! 4%nat = Some 0 /\ dev_source_dispatch_offset rq !! 4%nat = Some 10.
Proof.
  destruct (receiver_reads_what_sender_wrote (small_job 0) (small_job 2) small_table tt)
    as (rs & rq & ds & H1 & H2 & H3 & H4);
    [apply small_ok; lia|apply small_ok; lia|split; reflexivity|reflexivity|vm_compute; congruence|].
  exists rs, rq, ds. split; [exact H1|]. split; [exact H2|]. split; [exact H3|]. split; [exact H4|].
  vm_compute in H2. injection H2 as <-. split; reflexivity.
Defined.

Lemma step_submits_one_more_than_it_waits_for_witness :
  exists acts, step (small_job 0) (fun _ => true) small_table small_table [] = Done (tt, [] ++ acts) /\
    submitted acts = waited_for acts + 1 /\ submitted acts = 6.
Proof.
  destruct (step_submits_one_more_than_it_waits_for (small_job 0) (fun _ => true) small_table small_table [])
    as (acts & H1 & H2); [apply small_ok; lia|apply small_ok; lia|reflexivity|].
  exists acts. split; [exact H1|]. split; [exact H2|]. vm_compute in H1. injection H1 as <-. reflexivity.
Defined.
