(* ===== verification/A2aCombine.v ===== *)
(** * The combine phase of the all-to-all

    Each rank sends the results of its experts back to the ranks that own the tokens.  A rank
    reads the result of its [j]-th token for expert [e] at the slot (tokens for the experts
    before [e]) + [j] of its receive buffer: every one of these slots is filled, by the rank
    that holds the expert, from the token it belongs to, and by no other. *)
From stdpp Require Import prelude strings list.
From S2P Require Import Prelude Api A2aWorker A2aCounts A2aRouting A2aSpec.
Local Open Scope Z_scope.

(** ** Positions in lists *)
Lemma bind_split {A B} (f : A -> list B) gs d x r :
  gs ≫= f = d ++ x :: r -> exists g1 g g2 d' r',
    gs = g1 ++ g :: g2 /\ d = (g1 ≫= f) ++ d' /\ f g = d' ++ x :: r'.
Proof.
  revert d. induction gs as [|g gs IH]; intros d; cbn; [by destruct d|].
  intros Heq. apply app_eq_inv in Heq as [(k & Hfg & Hk)|(k & -> & Hk)].
  - destruct k as [|y k]; cbn in Hk.
    + destruct (IH [] (eq_sym Hk)) as (g1 & g' & g2 & d' & r' & -> & Hd & Hg').
      rewrite app_nil_r in Hfg. subst d. exists (g :: g1), g', g2, d', r'. split; [done|]. split; [|done].
      cbn. rewrite <- (assoc_L (++)), <- Hd. by rewrite app_nil_r.
    + injection Hk as <- ->. by exists [], g, gs, d, k.
  - destruct (IH k Hk) as (g1 & g' & g2 & d' & r' & -> & -> & Hg'). exists (g :: g1), g', g2, d', r'.
    split; [done|]. split; [|done]. cbn. by rewrite <- (assoc_L (++)).
Qed.

Lemma cnt_zero {A} p (l : list A) : (forall x, x ∈ l -> p x = false) -> cnt p l = 0.
Proof. intros Hp. induction l as [|x l IH]; [done|]. cbn. rewrite Hp by set_solver. rewrite IH by set_solver. done. Qed.

(** The element of [l] that [j] elements with [p] precede. *)
Lemma cnt_find {A} p (l : list A) j :
  0 <= j < cnt p l -> exists i x, l !! i = Some x /\ p x = true /\ cnt p (take i l) = j.
Proof.
  revert j. induction l as [|x l IH]; intros j Hj; cbn in Hj; [lia|]. destruct (p x) eqn:Hx.
  - destruct (decide (j = 0)) as [->|]; [by exists 0%nat, x|].
    destruct (IH (j - 1) ltac:(lia)) as (i & y & Hi & Hy & Hc). exists (S i), y. split_and!; [done..|].
    cbn. rewrite Hx. lia.
  - destruct (IH j ltac:(lia)) as (i & y & Hi & Hy & Hc). exists (S i), y. split_and!; [done..|].
    cbn. rewrite Hx. lia.
Qed.

Lemma cnt_unique {A} p (l : list A) i i' x x' :
  l !! i = Some x -> l !! i' = Some x' -> p x = true -> p x' = true ->
  cnt p (take i l) = cnt p (take i' l) -> i = i'.
Proof.
  revert i i'. induction l as [|y l IH]; intros i i'; [done|]. intros Hi Hi' Hx Hx'.
  destruct i as [|i], i' as [|i']; cbn in Hi, Hi' |- *; simplify_eq; intros Hc; [done|..].
  - rewrite Hx in Hc. pose proof (cnt_nonneg p (take i' l)). lia.
  - rewrite Hx' in Hc. pose proof (cnt_nonneg p (take i l)). lia.
  - f_equal. apply (IH i i'); [done..|lia].
Qed.

(** The step of a non-decreasing function that covers [x]. *)
Lemma step_cover (f : nat -> Z) n x : f 0%nat <= x < f n -> exists k, (k < n)%nat /\ f k <= x < f (S k).
Proof.
  induction n as [|n IH]; [lia|]. intros Hx. destruct (decide (x < f n)).
  - destruct IH as (k & Hk & Hf); [lia|]. exists k. split; [lia|done].
  - exists n. split; lia.
Qed.

Lemma step_unique (f : nat -> Z) k k' x :
  (forall i j, (i <= j)%nat -> f i <= f j) -> f k <= x < f (S k) -> f k' <= x < f (S k') -> k = k'.
Proof.
  intros Hm Hk Hk'. destruct (Nat.lt_trichotomy k k') as [Hlt|[|Hlt]]; [|done|].
  - pose proof (Hm (S k) k' ltac:(lia)). lia.
  - pose proof (Hm (S k') k ltac:(lia)). lia.
Qed.

(** ** Where a rank sends its results *)
Section Returns.
Context (c : A2aState) (tbl : list Z) (Hok : a2a_ok c tbl).
Local Abbreviation pre := (pre c tbl).
Local Abbreviation T := (T c tbl).
Local Abbreviation all := (all c tbl).
Local Abbreviation fst_ := (fst_ c).
Local Abbreviation lst_ := (lst_ c).
Local Abbreviation R := (R c tbl).

(** The tokens of a group come ordered by expert. *)
Lemma tokens_elem g x : x ∈ tokens c tbl g -> x.1 = g.
Proof.
  unfold tokens. rewrite list_elem_of_bind. intros (e & Hin & _). by apply elem_of_replicate in Hin as [-> _].
Qed.

Lemma replicate_prefix {A} n (x : A) d r : replicate n x = d ++ r -> d = replicate (length d) x.
Proof.
  intros Heq. symmetry. apply replicate_as_Forall. split; [done|]. apply Forall_forall. intros y Hy.
  assert (y ∈ replicate n x) as Hin by (rewrite Heq; set_solver). by apply elem_of_replicate in Hin as [-> _].
Qed.

Lemma seq_prefix a n d x r : seq a n = d ++ x :: r -> d = seq a (x - a) /\ (a <= x)%nat.
Proof.
  intros Heq. assert (seq a n !! length d = Some x) as Hl by (by rewrite Heq, list_lookup_middle).
  apply lookup_seq in Hl as [Hl1 Hl2]. split; [|lia].
  rewrite <- (take_app_length d (x :: r)), <- Heq, take_seq. f_equal. lia.
Qed.

Lemma tokens_prefix g d e r :
  tokens c tbl g = d ++ (g, e) :: r -> cnt (of_group g) d = pre g e - pre g fst_ + cnt (of_both g e) d.
Proof.
  intros Hd. apply bind_split in Hd as (e1 & e' & e2 & d' & r' & He & -> & Hd').
  assert ((g, e) ∈ replicate (Z.to_nat (R g e')) (g, e')) as Hin by (rewrite Hd'; set_solver).
  apply elem_of_replicate in Hin as [[= <-] _].
  apply seq_prefix in He as [-> Hle]. rewrite (replicate_prefix _ _ _ _ Hd').
  rewrite !cnt_app, !(cnt_expert_blocks c tbl Hok), !cnt_replicate, of_group_eq, of_both_eq, !Nat.eqb_refl. cbn [andb].
  rewrite (sumf_ext _ _ (fun j => R g (fst_ + j))) by (intros; by rewrite of_group_eq, Nat.eqb_refl).
  rewrite (sumf_shift _ _ (R g)). replace (fst_ + (e - fst_))%nat with e by lia.
  rewrite (sumf_ext _ (fun j => if of_both _ _ _ then _ else _) (fun _ => 0)).
  2:{ intros j Hj. rewrite of_both_eq, (proj2 (Nat.eqb_neq (fst_ + j) e)) by lia. by rewrite andb_false_r. }
  rewrite sumf_const_0. unfold A2aCounts.pre. lia.
Qed.

Lemma group_prefix done g e rest :
  done ++ (g, e) :: rest = all -> cnt (of_group g) done = pre g e - pre g fst_ + cnt (of_both g e) done.
Proof.
  intros Hall. symmetry in Hall. apply bind_split in Hall as (g1 & g' & g2 & d & r & Hv & -> & Hd).
  assert (NoDup (visit c)) as Hnd by (rewrite (visit_perm c tbl Hok); apply NoDup_ListNoDup, seq_NoDup).
  rewrite Hv, NoDup_app, NoDup_cons in Hnd. destruct Hnd as (_ & Hd1 & _ & _).
  assert (g = g') as <- by (apply (tokens_elem g' (g, e)); rewrite Hd; set_solver).
  rewrite !cnt_app, (tokens_prefix _ _ _ _ Hd).
  assert (forall x, x ∈ g1 ≫= tokens c tbl -> x.1 <> g) as Hne.
  { intros x Hin Hx. apply list_elem_of_bind in Hin as (h & Hin & Hh). apply tokens_elem in Hin.
    apply (Hd1 h Hh). rewrite <- Hin, Hx. set_solver. }
  rewrite (cnt_zero (of_group g) (g1 ≫= _)), (cnt_zero (of_both g e) (g1 ≫= _)); [lia| |]; intros x Hx%Hne;
    unfold of_both, of_group; by rewrite (proj2 (Nat.eqb_neq _ _) Hx).
Qed.

Lemma cnt_both_all g e : (g < num_groups c)%nat -> (fst_ <= e < lst_)%nat -> cnt (of_both g e) all = R g e.
Proof.
  intros Hg He. rewrite (cnt_all c tbl Hok), <- (sumf_pick (num_groups c) g (fun g => R g e) Hg). apply sumf_ext.
  intros h Hh. rewrite (cnt_tokens c tbl Hok). destruct (Nat.eqb_spec h g) as [->|Hne].
  - rewrite (sumf_ext _ _ (fun j => if (j =? (e - fst_))%nat then R g (fst_ + j) else 0)).
    + rewrite (sumf_pick _ (e - fst_) (fun j => R g (fst_ + j))) by lia. f_equal. lia.
    + intros j Hj. rewrite of_both_eq, Nat.eqb_refl. cbn [andb].
      destruct (Nat.eqb_spec (fst_ + j) e), (Nat.eqb_spec j (e - fst_)); lia.
  - rewrite (sumf_ext _ _ (fun _ => 0)); [apply sumf_const_0|]. intros j _.
    by rewrite of_both_eq, (proj2 (Nat.eqb_neq _ _) Hne).
Qed.

(** ** The slots *)
Lemma entry_slot i g e :
  all !! i = Some (g, e) ->
  (g < num_groups c)%nat /\ (fst_ <= e < lst_)%nat /\
  0 <= cnt (of_both g e) (take i all) < R g e /\
  cnt (of_group g) (take i all) = pre g e - pre g fst_ + cnt (of_both g e) (take i all).
Proof.
  intros Hi. apply take_drop_middle in Hi as Hall. destruct (preceding_bounds c tbl Hok _ _ _ _ Hall) as (Hg & He & _).
  split; [done|]. split; [done|]. split; [|by eapply group_prefix]. split; [apply cnt_nonneg|].
  rewrite <- (cnt_both_all g e Hg He). rewrite <- Hall at 2. rewrite cnt_app. cbn [cnt].
  rewrite of_both_eq, !Nat.eqb_refl. cbn [andb]. pose proof (cnt_nonneg (of_both g e) (drop (S i) all)). lia.
Qed.

(** The tokens of a group that precede position [i], as [source_rank] shows them. *)
Lemma source_count_at i g e :
  all !! i = Some (g, e) ->
  let src := Z.of_nat (g * dp_size c + dp_rank c) in
  dev_source_rank (routing c tbl) !! i = Some src /\
  cnt (Z.eqb src) (take i (dev_source_rank (routing c tbl))) = cnt (of_group g) (take i all).
Proof.
  intros Hp src. change (dev_source_rank (routing c tbl)) with (scan (rank_entry c) all).
  rewrite source_ranks, list_lookup_fmap, Hp. cbn. split; [done|].
  rewrite <- fmap_take, cnt_fmap. apply cnt_ext. intros [h e']. unfold src, of_group. cbn [fst].
  pose proof (ok_dp _ _ Hok).
  destruct (Nat.eqb_spec h g) as [->|]; [by apply Z.eqb_refl|]. apply Z.eqb_neq. nia.
Qed.

(** C11: every received token gets its own slot in the padded region of its expert.  On a
    well-formed configuration [process_routing_info] succeeds; the entries of [padded_index] are
    pairwise distinct and there are as many as tokens for the local experts.  Take position [p]:
    [source_rank] names the rank of a group [g] whose token this is, and counting that rank's
    earlier entries gives the token's number among those [g] routed to this rank, which [g] has
    ordered by expert; the number is one of expert [e].  Then slot [p] lies in the region of [e]:
    [n] consecutive slots, [n] being the expert's count copied to the device, that start at a
    multiple of [expert_padding] and end before the next region. *)
Theorem tokens_get_distinct_padded_slots {St} (s : St) :
  exists r, process_routing_info c tbl s = Done (r, s) /\ NoDup (dev_padded_index r) /\
    Z.of_nat (length (dev_padded_index r)) = sum_list_Z (dev_tokens_per_expert r) /\
    forall p x, dev_padded_index r !! p = Some x -> exists g e n,
      (g < num_groups c)%nat /\ (first_local_expert c <= e < last_local_expert c)%nat /\
      let src := Z.of_nat (g * dp_size c + dp_rank c) in
      let number := cnt (Z.eqb src) (take p (dev_source_rank r)) in
      let j := (e - first_local_expert c)%nat in
      dev_source_rank r !! p = Some src /\
      pre g e <= pre g (first_local_expert c) + number < pre g (S e) /\
      dev_tokens_per_expert r !! j = Some n /\ padoff c tbl j <= x < padoff c tbl j + n /\
      (expert_padding c | padoff c tbl j) /\ padoff c tbl j + n <= padoff c tbl (S j).
Proof.
  exists (routing c tbl). split; [by apply process_routing_info_run|]. split; [by apply padded_index_NoDup|].
  split; [by apply padded_index_length|]. intros p x Hp.
  change (dev_padded_index (routing c tbl)) with (scan (pad_entry c tbl) all) in Hp.
  unfold scan in Hp. rewrite list_lookup_imap in Hp. destruct (all !! p) as [[g e]|] eqn:Hi; [|done].
  cbn in Hp. injection Hp as <-.
  destruct (entry_slot p g e Hi) as (Hg & He & Hb & Hc). destruct (source_count_at p g e Hi) as [Hsrc Hcnt].
  destruct (pad_entry_region c tbl Hok p g e Hi) as [Hj Hr]. destruct (region_padded c tbl Hok (e - fst_) Hj) as (Hn & Ha & Hnext).
  exists g, e, (per_expert c tbl (num_groups c) (e - fst_)). split; [done|]. split; [done|]. cbv zeta.
  split; [done|].
  split; [|done]. pose proof (pre_S c tbl g e). change (first_local_expert c) with fst_. rewrite Hcnt. lia.
Qed.

Lemma group_of_rank q : (q < world_size c)%nat -> (q / dp_size c < num_groups c)%nat.
Proof. intros Hq. apply Nat.Div0.div_lt_upper_bound. pose proof (world_groups _ _ Hok). lia. Qed.

Lemma dp_rank_lt : (dp_rank c < dp_size c)%nat.
Proof. rewrite (ok_dp_rank _ _ Hok). apply Nat.mod_upper_bound. pose proof (ok_dp _ _ Hok). lia. Qed.

Lemma node_of_group q : (q / node_size c = q / dp_size c / groups_per_node c)%nat.
Proof. rewrite (ok_node _ _ Hok), Nat.mul_comm. by rewrite Nat.Div0.div_div. Qed.

Lemma on_node_group g q :
  (q / dp_size c)%nat = g -> on_node c g = (q / node_size c =? rank_node c)%nat.
Proof.
  intros <-. unfold on_node. rewrite !node_of_group. pose proof dp_rank_lt.
  rewrite Nat.div_add_l, (Nat.div_small (dp_rank c)), Nat.add_0_r by lia. done.
Qed.

Lemma peer_group_reaches g :
  (g < num_groups c)%nat -> (g / groups_per_node c)%nat <> rank_node c ->
  exists n i, n ∈ range 1 (num_nodes c) /\ i ∈ seq 0 (groups_per_node c) /\ peer_group c n i = g.
Proof.
  intros Hg Hne. pose proof (ok_gpn _ _ Hok) as Hgpn. destruct (nodes_pos _ _ Hok) as [Hnn Hrn].
  assert (g / groups_per_node c < num_nodes c)%nat as Hgn
    by (apply Nat.Div0.div_lt_upper_bound; pose proof (groups_nodes _ _ Hok); lia).
  destruct (rotation_reaches (rank_node c) (g / groups_per_node c) (num_nodes c)) as (n & Hn & Hr); [done..|].
  exists n, (g mod groups_per_node c)%nat. split; [done|].
  pose proof (Nat.mod_upper_bound g (groups_per_node c) ltac:(lia)). split; [apply elem_of_seq; lia|].
  unfold peer_group. rewrite (groups_nodes _ _ Hok), mod_block, Hr by lia.
  pose proof (Nat.div_mod_eq g (groups_per_node c)). lia.
Qed.

Local Abbreviation dim := (get_combine_token_dim c).

(** The result of the [p]-th received token reaches slot [x] of the receive buffer of rank [q]
    of the token's group: the kernel copies it there when the group is on this node; otherwise
    it puts it into the send buffer, and a transfer copies the slot. *)
Definition returned (rt : Routing) (p q : nat) (x : Z) : Prop :=
  exists r o, dev_source_rank rt !! p = Some (Z.of_nat r) /\ (r / dp_size c = q / dp_size c)%nat /\
    dev_combine_send_offset rt !! p = Some o /\
    if (r / node_size c =? rank_node c)%nat then o = x
    else exists t, t ∈ combine_ranges rt /\ st_dst_mr t = recv_desc c q /\
      st_src_offset t <= o * dim /\ (o + 1) * dim <= st_src_offset t + st_length t /\
      st_dst_offset t + (o * dim - st_src_offset t) = x * dim.

Lemma source_lookup p r :
  dev_source_rank (routing c tbl) !! p = Some (Z.of_nat r) <->
  exists e, all !! p = Some ((r / dp_size c)%nat, e) /\ r = (r / dp_size c * dp_size c + dp_rank c)%nat.
Proof.
  change (dev_source_rank (routing c tbl)) with (scan (rank_entry c) all).
  rewrite source_ranks, list_lookup_fmap. pose proof dp_rank_lt as Hlt. split.
  - destruct (all !! p) as [[g e]|] eqn:E; [|done]. cbn. intros [= Hr]. apply Nat2Z.inj in Hr as <-.
    rewrite Nat.div_add_l, (Nat.div_small (dp_rank c)), Nat.add_0_r by lia. by exists e.
  - intros (e & -> & Hr). cbn. by rewrite <- Hr.
Qed.

Lemma combine_lookup p g e :
  all !! p = Some (g, e) ->
  dev_combine_send_offset (routing c tbl) !! p =
    Some (if on_node c g then pre g e + cnt (of_both g e) (take p all)
          else sumf g T + (pre g e - pre g fst_ + cnt (of_both g e) (take p all))).
Proof.
  intros Hp. destruct (entry_slot _ _ _ Hp) as (Hg & He & Hj & Hk).
  change (dev_combine_send_offset (routing c tbl)) with (scan (combine_entry c tbl) all).
  rewrite (scan_lookup _ _ _ _ Hp). unfold combine_entry, combine_loc. cbn [fst snd]. rewrite Hk.
  destruct (own c g) eqn:Hown; cbn [negb orb]; [|f_equal; destruct (on_node c g); lia].
  apply (own_iff _ _ Hok) in Hown as ->.
  assert (on_node c (dp_group c) = true) as ->.
  { rewrite (on_node_group (dp_group c) (rank c)) by (by rewrite (ok_dp_group _ _ Hok)). apply Nat.eqb_refl. }
  unfold my. destruct (1 <? dp_size c)%nat; f_equal; lia.
Qed.

Lemma returned_slot p q e :
  (q < world_size c)%nat -> all !! p = Some ((q / dp_size c)%nat, e) ->
  returned (routing c tbl) p q (pre (q / dp_size c) e + cnt (of_both (q / dp_size c) e) (take p all)).
Proof.
  intros Hq Hp. set (g := (q / dp_size c)%nat) in *. destruct (entry_slot _ _ _ Hp) as (Hg & He & Hj & _).
  pose proof dp_rank_lt as Hlt.
  assert ((g * dp_size c + dp_rank c) / dp_size c = g)%nat as Hr
    by (rewrite Nat.div_add_l, (Nat.div_small (dp_rank c)) by lia; lia).
  exists (g * dp_size c + dp_rank c)%nat. eexists. split; [apply source_lookup; rewrite Hr; by exists e|].
  split; [done|]. split; [by apply combine_lookup|]. fold (on_node c g). destruct (on_node c g) eqn:Hon; [done|].
  rewrite (on_node_group g q eq_refl), node_of_group in Hon. apply Nat.eqb_neq in Hon.
  destruct (peer_group_reaches g Hg Hon) as (n & i & Hn & Hi & Hpg).
  exists (combine_to c tbl g (q mod dp_size c)). split; [|cbn [combine_to st_dst_mr st_src_offset st_length st_dst_offset]].
  - cbn [routing combine_ranges]. apply list_elem_of_bind. exists n. split; [|done].
    apply list_elem_of_bind. exists i. split; [|done]. rewrite Hpg. apply list_elem_of_fmap.
    eexists. split; [done|]. apply elem_of_seq. pose proof (Nat.mod_upper_bound q (dp_size c) ltac:(lia)). lia.
  - pose proof (Nat.div_mod_eq q (dp_size c)). split; [f_equal; unfold g; lia|].
    destruct (ok_dims _ _ Hok) as [_ [Hdim _]]. pose proof (pre_mono c tbl Hok g fst_ e ltac:(lia)).
    pose proof (pre_mono c tbl Hok g (S e) lst_ ltac:(lia)) as Hl. rewrite (pre_S c tbl) in Hl.
    unfold A2aCounts.T in *. split; [nia|]. split; [nia|nia].
Qed.

Lemma returned_only p q x :
  0 < dim -> returned (routing c tbl) p q x ->
  exists e, all !! p = Some ((q / dp_size c)%nat, e) /\
    x = pre (q / dp_size c) e + cnt (of_both (q / dp_size c) e) (take p all).
Proof.
  intros Hdim (r & o & Hr & Hrq & Ho & Hx). apply source_lookup in Hr as (e & Hp & _). rewrite Hrq in Hp.
  exists e. split; [done|]. set (g := (q / dp_size c)%nat) in *. destruct (entry_slot _ _ _ Hp) as (Hg & He & Hj & _).
  rewrite (combine_lookup _ _ _ Hp) in Ho. rewrite <- (on_node_group g r Hrq) in Hx.
  destruct (on_node c g); [congruence|]. destruct Hx as (t & Ht & _ & Ht1 & Ht2 & Ht3). injection Ho as <-.
  cbn [routing combine_ranges] in Ht. apply list_elem_of_bind in Ht as (n & Ht & _).
  apply list_elem_of_bind in Ht as (i & Ht & _). apply list_elem_of_fmap in Ht as (d & -> & _).
  set (h := peer_group c n i) in *. cbn [combine_to st_src_offset st_length st_dst_offset] in *.
  pose proof (pre_mono c tbl Hok g fst_ e ltac:(lia)).
  pose proof (pre_mono c tbl Hok g (S e) lst_ ltac:(lia)) as Hl. rewrite (pre_S c tbl) in Hl.
  set (k := pre g e - pre g fst_ + cnt (of_both g e) (take p all)) in *.
  assert (g = h) as <-.
  { apply (step_unique (fun m => sumf m T) g h (sumf g T + k)); cbv beta; rewrite ?sumf_S.
    - intros. apply sumf_mono; [done|]. intros. by apply T_nonneg.
    - assert (T g = pre g lst_ - pre g fst_) as HT by done. unfold k. lia.
    - nia. }
  unfold k in Ht3. nia.
Qed.
End Returns.

(** ** All the ranks of a job *)
Record job_ok (job : nat -> A2aState) (tbl : list Z) (W : nat) (D : Z) : Prop := {
  jo_ok r : (r < W)%nat -> a2a_ok (job r) tbl;
  jo_rank r : (r < W)%nat -> rank (job r) = r /\ world_size (job r) = W;
  jo_same r r' : (r < W)%nat -> (r' < W)%nat -> same_job (job r) (job r');
  jo_dim r : (r < W)%nat -> get_combine_token_dim (job r) = D;
  jo_dim_pos : 0 < D;
}.

Section Job.
Context (job : nat -> A2aState) (tbl : list Z) (W : nat) (D : Z) (Hjob : job_ok job tbl W D).

(** The rank that holds expert [e]. *)
Lemma expert_rank q e :
  (q < W)%nat -> (e < num_experts (job q))%nat ->
  exists r, (r < W)%nat /\ (fst_ (job r) <= e < lst_ (job r))%nat.
Proof.
  intros Hq He. destruct (jo_rank _ _ _ _ Hjob q Hq) as [_ Hw]. set (n := experts_per_rank (job q)).
  assert (0 < n /\ num_experts (job q) <= W * n)%nat as [Hn Hall].
  { unfold n, experts_per_rank. rewrite Hw.
    pose proof (nat_div_ceil_bounds (num_experts (job q)) W ltac:(lia)). split; nia. }
  assert (e / n < W)%nat as Hr by (apply Nat.Div0.div_lt_upper_bound; lia).
  exists (e / n)%nat. split; [done|].
  destruct (local_cap (job (e / n)) tbl (jo_ok _ _ _ _ Hjob _ Hr)) as [-> ->].
  rewrite (proj1 (jo_rank _ _ _ _ Hjob _ Hr)).
  rewrite <- !(cap_same (job q) (job (e / n)) (jo_same _ _ _ _ Hjob _ _ Hq Hr)).
  unfold cap. fold n. pose proof (Nat.div_mod_eq e n). pose proof (Nat.mod_upper_bound e n ltac:(lia)). lia.
Qed.

Lemma expert_rank_unique r r' e :
  (r < W)%nat -> (r' < W)%nat -> (fst_ (job r) <= e < lst_ (job r))%nat ->
  (fst_ (job r') <= e < lst_ (job r'))%nat -> r = r'.
Proof.
  intros Hr Hr'. destruct (local_cap _ tbl (jo_ok _ _ _ _ Hjob _ Hr)) as [-> ->].
  destruct (local_cap _ tbl (jo_ok _ _ _ _ Hjob _ Hr')) as [-> ->].
  rewrite (proj1 (jo_rank _ _ _ _ Hjob _ Hr)), (proj1 (jo_rank _ _ _ _ Hjob _ Hr')).
  rewrite <- !(cap_same (job r) (job r') (jo_same _ _ _ _ Hjob _ _ Hr Hr')).
  unfold cap. nia.
Qed.

Lemma pre_job r q g e : (r < W)%nat -> (q < W)%nat -> pre (job r) tbl g e = pre (job q) tbl g e.
Proof. intros Hr Hq. by apply pre_same, (jo_same _ _ _ _ Hjob). Qed.

Lemma dp_job r q : (r < W)%nat -> (q < W)%nat -> dp_size (job r) = dp_size (job q).
Proof. intros Hr Hq. by apply sj_dp, (jo_same _ _ _ _ Hjob). Qed.

(** A rank returns the result of one token only to a slot, and to the slots of its experts. *)
Lemma returned_inv r p q x rt St (s : St) :
  (r < W)%nat -> (q < W)%nat -> process_routing_info (job r) tbl s = Done (rt, s) -> returned (job r) rt p q x ->
  exists e, (fst_ (job r) <= e < lst_ (job r))%nat /\ all (job r) tbl !! p = Some ((q / dp_size (job q))%nat, e) /\
    x = pre (job q) tbl (q / dp_size (job q)) e + cnt (of_both (q / dp_size (job q)) e) (take p (all (job r) tbl)) /\
    pre (job q) tbl (q / dp_size (job q)) e <= x < pre (job q) tbl (q / dp_size (job q)) (S e).
Proof.
  intros Hr Hq Hrun Hret. pose proof (jo_ok _ _ _ _ Hjob r Hr) as Hok.
  rewrite (process_routing_info_run _ _ Hok) in Hrun. injection Hrun as <-.
  destruct (returned_only _ _ Hok p q x) as (e & Hp & Hx); [|done|].
  { rewrite (jo_dim _ _ _ _ Hjob r Hr). apply (jo_dim_pos _ _ _ _ Hjob). }
  destruct (entry_slot _ _ Hok _ _ _ Hp) as (_ & He & Hj & _).
  pose proof (pre_S (job r) tbl (q / dp_size (job r)) e) as HS.
  rewrite (dp_job r q), !(pre_job r q) in * by done. exists e. split_and!; [lia|lia|done|done|lia|lia].
Qed.

Lemma source_count r p g e :
  (r < W)%nat -> all (job r) tbl !! p = Some (g, e) ->
  exists i, dev_source_rank (routing (job r) tbl) !! p = Some i /\
    cnt (Z.eqb i) (take p (dev_source_rank (routing (job r) tbl))) = cnt (of_group g) (take p (all (job r) tbl)).
Proof.
  intros Hr Hp. destruct (source_count_at _ _ (jo_ok _ _ _ _ Hjob r Hr) _ _ _ Hp) as [? ?]. by eexists.
Qed.
End Job.

(** C12: every result returns to the slot its owner reads, and nothing else is written there.
    Take a job of [W] ranks, a rank [q] of group [g], and one of the tokens the group routed: the
    one at slot [x] of its send buffers, ordered by expert.  There are one rank [r] and one
    position [p] in [r]'s vectors such that [r], on any state, computes a routing that returns
    the result at [p] to slot [x] of [q]; [p] lies in the padded region of the expert [e] the
    token was routed to, and is the position at which [r] reads the token of slot [x] (counting
    the earlier ones with its source).  No other position of any rank is returned to [x]. *)
Theorem results_return_to_their_slots {St} (job : nat -> A2aState) tbl W D q x (s : St) :
  job_ok job tbl W D -> (q < W)%nat ->
  0 <= x < pre (job q) tbl (q / dp_size (job q)) (num_experts (job q)) ->
  exists r p e rt src i, (r < W)%nat /\ process_routing_info (job r) tbl s = Done (rt, s) /\
    returned (job r) rt p q x /\
    pre (job q) tbl (q / dp_size (job q)) e <= x < pre (job q) tbl (q / dp_size (job q)) (S e) /\
    dev_padded_index rt !! p = Some i /\ in_region (job r) tbl (e - first_local_expert (job r)) i /\
    dev_source_rank rt !! p = Some src /\
    pre (job q) tbl (q / dp_size (job q)) (first_local_expert (job r)) +
      cnt (Z.eqb src) (take p (dev_source_rank rt)) = x /\
    forall r' p' rt', (r' < W)%nat -> process_routing_info (job r') tbl s = Done (rt', s) ->
      returned (job r') rt' p' q x -> r' = r /\ p' = p.
Proof.
  intros Hjob Hq Hx. set (g := (q / dp_size (job q))%nat) in *.
  destruct (step_cover (pre (job q) tbl g) (num_experts (job q)) x) as (e & He & Hxe); [done|].
  destruct (expert_rank _ _ _ _ Hjob q e Hq He) as (r & Hr & Hloc).
  pose proof (jo_ok _ _ _ _ Hjob r Hr) as Hok. destruct (jo_rank _ _ _ _ Hjob r Hr) as [_ HW].
  assert (g = q / dp_size (job r))%nat as Hg by (unfold g; by rewrite (dp_job _ _ _ _ Hjob r q)).
  assert (g < num_groups (job r))%nat as HG by (rewrite Hg; apply (group_of_rank _ tbl); [done|lia]).
  pose proof (pre_S (job r) tbl g e) as HS. rewrite <- !(pre_job _ _ _ _ Hjob r q) in Hxe by done.
  destruct (cnt_find (of_both g e) (all (job r) tbl) (x - pre (job r) tbl g e)) as (p & [g' e'] & Hp & Hb & Hc).
  { rewrite (cnt_both_all _ _ Hok) by done. lia. }
  rewrite of_both_eq, andb_true_iff, !Nat.eqb_eq in Hb. destruct Hb as [-> ->].
  destruct (source_count _ _ _ _ Hjob r p g e Hr Hp) as (src & Hsrc & Hcnt).
  destruct (entry_slot _ _ Hok _ _ _ Hp) as (_ & _ & _ & Hgc). destruct (pad_entry_region _ _ Hok _ _ _ Hp) as [_ Hreg].
  exists r, p, e, (routing (job r) tbl), src. eexists. rewrite Hcnt, <- !(pre_job _ _ _ _ Hjob r q) by done.
  change (first_local_expert (job r)) with (fst_ (job r)).
  split_and!; [done|by apply process_routing_info_run| |lia|lia| |exact Hreg|done|lia|].
  - replace x with (pre (job r) tbl g e + cnt (of_both g e) (take p (all (job r) tbl))) by lia.
    rewrite Hg in Hp |- *. apply returned_slot; [done|lia|done].
  - change (dev_padded_index (routing (job r) tbl)) with (scan (pad_entry (job r) tbl) (all (job r) tbl)).
    by apply scan_lookup.
  - intros r' p' rt' Hr' Hrun Hret.
    destruct (returned_inv _ _ _ _ Hjob _ _ _ _ _ _ _ Hr' Hq Hrun Hret) as (e' & Hloc' & Hp' & Hx' & Hxe'). fold g in Hp', Hx', Hxe'.
    assert (e' = e) as ->.
    { apply (step_unique (pre (job q) tbl g) e' e x); [|done|by rewrite <- !(pre_job _ _ _ _ Hjob r q)].
      intros. apply pre_mono; [by apply (jo_ok _ _ _ _ Hjob)|done]. }
    assert (r' = r) as -> by (by apply (expert_rank_unique _ _ _ _ Hjob r' r e)). split; [done|].
    apply (cnt_unique (of_both g e) (all (job r) tbl) _ _ _ _ Hp' Hp);
      [by rewrite of_both_eq, !Nat.eqb_refl..|]. rewrite <- (pre_job _ _ _ _ Hjob r q) in Hx' by done. lia.
Qed.

(** ** Witness: rank 3 gets back the result of its second token for the expert of rank 2 *)
Lemma small_job_ok : job_ok small_job small_table 4 128.
Proof.
  split.
  - intros r Hr. by apply small_ok.
  - intros r Hr. do 4 (destruct r as [|r]; [by vm_compute|]). lia.
  - intros r r' Hr Hr'. do 4 (destruct r as [|r]; [do 4 (destruct r' as [|r']; [by split|]); lia|]). lia.
  - intros r Hr. do 4 (destruct r as [|r]; [by vm_compute|]). lia.
  - lia.
Qed.

Lemma results_return_to_their_slots_witness :
  exists r p rt, process_routing_info (small_job r) small_table tt = Done (rt, tt) /\
    returned (small_job r) rt p 3 3 /\ pre (small_job 3) small_table 3 2 <= 3 < pre (small_job 3) small_table 3 3.
Proof.
  destruct (results_return_to_their_slots small_job small_table 4 128 3 3 tt small_job_ok)
    as (r & p & e & rt & src & i & _ & H1 & H2 & _); [lia|by vm_compute|].
  exists r, p, rt. split; [exact H1|]. split; [exact H2|]. split; vm_compute; congruence.
Defined.

Lemma tokens_get_distinct_padded_slots_witness :
  exists r, process_routing_info (small_job 2) small_table tt = Done (r, tt) /\ NoDup (dev_padded_index r) /\
    dev_tokens_per_expert r = [11].
Proof.
  destruct (tokens_get_distinct_padded_slots (small_job 2) small_table (small_ok 2 ltac:(lia)) tt)
    as (r & H1 & H2 & _ & H3).
  exists r. split; [exact H1|]. split; [exact H2|]. vm_compute in H1. injection H1 as <-. reflexivity.
Defined.
