(* ===== verification/A2aImms.v ===== *)
(** * The immediates of a step of the all-to-all

    A step of the worker waits for a number of immediates per phase.  Over a job whose ranks
    all take a step, the transfers the ranks submit deliver to each rank exactly the numbers it
    waits for, in every phase but dispatch, where a surplus remains if [dp_size] is not one. *)
From stdpp Require Import prelude strings list.
From S2P Require Import Prelude Api WritePlan A2aWorker A2aCounts A2aRouting A2aSpec A2aCombine.
Local Open Scope Z_scope.

(** ** Counting *)
Lemma cnt_eq_NoDup y (l : list nat) : NoDup l -> cnt (fun x => (x =? y)%nat) l = if decide (y ∈ l) then 1 else 0.
Proof.
  induction 1 as [|x l Hx Hl IH]; [done|]. cbn [cnt]. rewrite IH. destruct (Nat.eqb_spec x y) as [->|].
  - rewrite decide_False by done. rewrite decide_True by set_solver. lia.
  - destruct (decide (y ∈ l)); [rewrite decide_True by set_solver|rewrite decide_False by set_solver]; lia.
Qed.

Lemma cnt_bind_pick {A} (p : A -> bool) (f : nat -> list A) y v (l : list nat) :
  (forall x, x ∈ l -> cnt p (f x) = if (x =? y)%nat then v else 0) ->
  cnt p (l ≫= f) = v * cnt (fun x => (x =? y)%nat) l.
Proof.
  induction l as [|x l IH]; intros Hf; cbn; [lia|]. rewrite cnt_app, Hf, IH by set_solver.
  destruct (x =? y)%nat; lia.
Qed.

Lemma fmap_list_bind {A B C} (f : B -> C) (g : A -> list B) (l : list A) :
  f <$> (l ≫= g) = l ≫= fun x => f <$> g x.
Proof. induction l as [|x l IH]; [done|]. by rewrite !bind_cons, fmap_app, IH. Qed.

Lemma bind_list_fmap {A B C} (f : A -> B) (g : B -> list C) (l : list A) : (f <$> l) ≫= g = l ≫= fun x => g (f x).
Proof. induction l as [|x l IH]; [done|]. by rewrite fmap_cons, !bind_cons, IH. Qed.

Lemma bind_list_bind {A B C} (f : A -> list B) (g : B -> list C) (l : list A) : (l ≫= f) ≫= g = l ≫= fun x => f x ≫= g.
Proof. induction l as [|x l IH]; [done|]. by rewrite !bind_cons, bind_app, IH. Qed.

Lemma bind_list_ext {A B} (f g : A -> list B) (l : list A) : (forall x, x ∈ l -> f x = g x) -> l ≫= f = l ≫= g.
Proof. induction l as [|x l IH]; intros Hfg; [done|]. rewrite !bind_cons, Hfg, IH by set_solver. done. Qed.

Lemma seq_nodup a n : NoDup (seq a n).
Proof. apply NoDup_ListNoDup, seq_NoDup. Qed.

(** The indices of the other blocks. *)
Lemma remote_groups_bind a k n :
  remote_groups a k n = range 1 n ≫= fun i => (fun j => ((a + i) mod n * k + j)%nat) <$> seq 0 k.
Proof. unfold remote_groups. induction (range 1 n) as [|i l IH]; [done|]. rewrite bind_cons, <- IH. done. Qed.

Lemma cnt_remote a k n q :
  (a < n)%nat -> (q < n * k)%nat ->
  cnt (fun x => (x =? q)%nat) (remote_groups a k n) = if (q / k =? a)%nat then 0 else 1.
Proof.
  intros Ha Hq. pose proof (remote_groups_perm a k n Ha) as Hp.
  assert (NoDup (((fun j => (a * k + j)%nat) <$> seq 0 k) ++ remote_groups a k n)) as Hnd
    by (rewrite Hp; apply seq_nodup).
  assert (q ∈ ((fun j => (a * k + j)%nat) <$> seq 0 k) ++ remote_groups a k n) as Hin
    by (rewrite Hp, elem_of_seq; lia).
  apply NoDup_app in Hnd as (_ & Hdis & Hnd). rewrite (cnt_eq_NoDup q _ Hnd).
  assert (q ∈ ((fun j => (a * k + j)%nat) <$> seq 0 k) <-> q / k = a)%nat as Hblock.
  { rewrite list_elem_of_fmap. pose proof (Nat.div_mod_eq q k). pose proof (Nat.mod_upper_bound q k ltac:(lia)). split.
    - intros (j & -> & Hj). apply elem_of_seq in Hj. rewrite Nat.div_add_l, Nat.div_small by lia. lia.
    - intros <-. exists (q mod k)%nat. split; [lia|]. apply elem_of_seq. lia. }
  destruct (Nat.eqb_spec (q / k) a) as [Heq|Hne].
  - apply decide_False. apply Hdis. by apply Hblock.
  - apply decide_True. apply elem_of_app in Hin as [Hin|]; [|done]. by apply Hblock in Hin.
Qed.

(** The other indices, from [a] on. *)
Definition others (a n : nat) : list nat := (fun i => ((a + i) mod n)%nat) <$> range 1 n.

Lemma cnt_others a n q :
  (a < n)%nat -> (q < n)%nat -> cnt (fun x => (x =? q)%nat) (others a n) = if (q =? a)%nat then 0 else 1.
Proof.
  intros Ha Hq. replace (others a n) with (remote_groups a 1 n).
  - rewrite cnt_remote by lia. by rewrite Nat.div_1_r.
  - rewrite remote_groups_bind. unfold others. rewrite <- bind_singleton. apply bind_list_ext. intros i _.
    cbn. by rewrite Nat.mul_1_r, Nat.add_0_r.
Qed.

(** ** Sums over blocks *)
Lemma sumf_const n v : sumf n (fun _ => v) = Z.of_nat n * v.
Proof. induction n as [|n IH]; [done|]. rewrite sumf_S, IH. lia. Qed.

Lemma sumf_scale n v f : sumf n (fun i => v * f i) = v * sumf n f.
Proof. induction n as [|n IH]; [rewrite !sumf_0; lia|]. rewrite !sumf_S, IH. lia. Qed.

Lemma sumf_blocks n k f : sumf (n * k) f = sumf n (fun i => sumf k (fun j => f (i * k + j)%nat)).
Proof.
  induction n as [|n IH]; [done|]. rewrite sumf_S, <- IH. replace (S n * k)%nat with (n * k + k)%nat by lia.
  rewrite (sumf_shift k (n * k) f). lia.
Qed.

Lemma sumf_other n a : (a < n)%nat -> sumf n (fun i => if (i =? a)%nat then 0 else 1) = Z.of_nat n - 1.
Proof.
  intros Ha. pose proof (sumf_pick n a (fun _ => 1) Ha) as Hp. cbv beta in Hp. pose proof (sumf_const n 1) as Hc.
  rewrite (sumf_ext n (fun _ => 1) (fun i => (if (i =? a)%nat then 0 else 1) + (if (i =? a)%nat then 1 else 0))) in Hc
    by (intros i _; by destruct (i =? a)%nat).
  rewrite sumf_plus in Hc. lia.
Qed.

(** The indices outside of the block [a]. *)
Lemma sumf_outside n k a :
  (a < n)%nat -> sumf (n * k) (fun r => if (r / k =? a)%nat then 0 else 1) = (Z.of_nat n - 1) * Z.of_nat k.
Proof.
  intros Ha. rewrite sumf_blocks, (sumf_ext n _ (fun i => Z.of_nat k * (if (i =? a)%nat then 0 else 1))).
  - rewrite sumf_scale, sumf_other by done. lia.
  - intros i Hi. rewrite (sumf_ext k _ (fun _ => if (i =? a)%nat then 0 else 1)), sumf_const; [lia|].
    intros j Hj. by rewrite Nat.div_add_l, Nat.div_small, Nat.add_0_r by lia.
Qed.

(** One index of each block. *)
Lemma sumf_one_each n k d f :
  (d < k)%nat -> sumf (n * k) (fun r => if (r mod k =? d)%nat then f (r / k)%nat else 0) = sumf n f.
Proof.
  intros Hd. rewrite sumf_blocks. apply sumf_ext. intros i Hi.
  rewrite (sumf_ext k _ (fun j => if (j =? d)%nat then f i else 0)); [by rewrite (sumf_pick k d (fun _ => f i))|].
  intros j Hj. rewrite (Nat.div_add_l i k j), (Nat.div_small j k), Nat.add_0_r by lia.
  by rewrite Nat.add_comm, Nat.Div0.mod_add, Nat.mod_small by lia.
Qed.

(** ** The immediates a rank sends and waits for *)
Definition is_desc_of (h : AllToAllRankHandle) (d : MemoryRegionDescriptor) : bool :=
  bool_decide (d = num_routed_desc h \/ d = recv_buffer_desc h).

(** The immediates with value [imm] that an action delivers to the rank with handle [h], on a
    group of [n] domains: one per byte shard that the plan of a scatter has for a target, and
    one per destination of a barrier. *)
Definition action_imms (n : nat) (imm : Z) (h : AllToAllRankHandle) (a : Action) : Z :=
  match a with
  | ASubmit (ReqScatter r) =>
      if bool_decide (xr_imm_data r = Some imm) then
        sumf (length (xr_dsts r)) (fun k =>
          if from_option (fun t => is_desc_of h (st_dst_mr t)) false (xr_dsts r !! k)
          then Z.of_nat (length (shards_of_target k (scatter_plan r n))) else 0)
      else 0
  | ASubmit (ReqBarrier b) => if br_imm_data b =? imm then cnt (is_desc_of h) (br_dst_mrs b) else 0
  | _ => 0
  end.
Definition sent (n : nat) (imm : Z) (h : AllToAllRankHandle) (acts : list Action) : Z :=
  sum_list_Z (action_imms n imm h <$> acts).
Definition awaited (imm : Z) (acts : list Action) : Z :=
  sum_list_Z ((fun a => match a with
    | AWaitImm i n | AWaitGdr i n => if i =? imm then n else 0
    | _ => 0
    end) <$> acts).

Lemma sent_app n imm h l1 l2 : sent n imm h (l1 ++ l2) = sent n imm h l1 + sent n imm h l2.
Proof. unfold sent. by rewrite fmap_app, sum_list_Z_app. Qed.

Lemma awaited_app imm l1 l2 : awaited imm (l1 ++ l2) = awaited imm l1 + awaited imm l2.
Proof. unfold awaited. by rewrite fmap_app, sum_list_Z_app. Qed.

Lemma cnt_sumf {A} (p : A -> bool) (l : list A) :
  cnt p l = sumf (length l) (fun k => if from_option p false (l !! k) then 1 else 0).
Proof.
  induction l as [|x l IH] using rev_ind; [done|]. rewrite cnt_app, length_app, Nat.add_1_r, sumf_S, IH.
  rewrite list_lookup_middle by done. cbn. f_equal; [|by destruct (p x)].
  apply sumf_ext. intros k Hk. by rewrite lookup_app_l.
Qed.

Lemma scatter_imms n imm h r :
  (0 < n)%nat -> action_imms n imm h (ASubmit (ReqScatter r)) =
    if bool_decide (xr_imm_data r = Some imm) then
      Z.of_nat (target_shards r n) * cnt (fun t => is_desc_of h (st_dst_mr t)) (xr_dsts r)
    else 0.
Proof.
  intros Hn. cbn. destruct (bool_decide _); [|done]. rewrite cnt_sumf, <- sumf_scale. apply sumf_ext. intros k Hk.
  destruct (scatter_plan_covers r n k Hn Hk) as [_ ->]. rewrite length_fmap, length_seq.
  destruct (from_option _ _ _); lia.
Qed.

(** Submitting only non-empty scatters makes no difference. *)
Lemma sent_submit n imm h c dsts i dom :
  (0 < n)%nat -> sent n imm h (submit c dsts i dom) =
    if i =? imm then Z.of_nat (match dom with AllDomainsShardBytes => n | _ => 1 end) *
      cnt (fun t => is_desc_of h (st_dst_mr t)) dsts else 0.
Proof.
  intros Hn. unfold submit. destruct dsts as [|t l] eqn:E; cbn [is_nil].
  - unfold sent. cbn. destruct (i =? imm); lia.
  - rewrite <- E. unfold sent. cbn [fmap list_fmap sum_list_Z foldr]. unfold scatter. rewrite scatter_imms by done.
    cbn [xr_imm_data xr_dsts]. unfold target_shards. cbn [xr_domain].
    destruct (Z.eqb_spec i imm) as [->|]; [rewrite bool_decide_true by done; lia|].
    rewrite bool_decide_false by congruence. lia.
Qed.

(** ** The requests of [new] *)
Definition handle (c : A2aState) (r : nat) : AllToAllRankHandle := default no_handle (rank_handles c !! r).
Definition route_to (num_experts group : nat) (h : AllToAllRankHandle) : ScatterTarget :=
  let length := as_u64 (Z.of_nat (num_experts * 4)) in
  {| st_dst_mr := num_routed_desc h; st_length := length;
     st_src_offset := u64_mul (Z.of_nat group) length; st_dst_offset := u64_mul (Z.of_nat group) length |}.

Section Requests.
Context (c : A2aState) (tbl : list Z) (Hok : a2a_ok c tbl).

Lemma route_targets_run {St} ne (s : St) :
  route_targets (rank c) (dp_size c) (dp_rank c) (dp_group c) (world_size c) ne (rank_handles c) s =
  Done (others (rank c) (world_size c) ≫= fun r =>
    if (r / dp_size c =? dp_group c)%nat || negb (r mod dp_size c =? dp_rank c)%nat then []
    else [route_to ne (dp_group c) (handle c r)], s).
Proof.
  destruct (world_pos _ _ Hok) as (Hw & _ & Hd). unfold route_targets, others. rewrite bind_list_fmap.
  apply collect_run. intros i _. rewrite (bind_run _ _ _ _ _ (usize_rem_run _ _ _ Hw)),
    (bind_run _ _ _ _ _ (usize_div_run _ _ _ Hd)), (bind_run _ _ _ _ _ (usize_rem_run _ _ _ Hd)).
  destruct (_ || _); [done|]. unfold bind. rewrite (handle_run c tbl Hok) by (apply Nat.mod_upper_bound; lia). done.
Qed.

Lemma barrier_mrs_run {St} (s : St) :
  barrier_mrs (rank c) (world_size c) (rank_handles c) s =
  Done (others (rank c) (world_size c) ≫= fun r => if (r =? rank c)%nat then [] else [recv_desc c r], s).
Proof.
  destruct (world_pos _ _ Hok) as (Hw & _ & Hd). unfold barrier_mrs, others. rewrite bind_list_fmap.
  apply collect_run. intros i _. rewrite (bind_run _ _ _ _ _ (usize_rem_run _ _ _ Hw)).
  destruct (_ =? _)%nat; [done|]. unfold bind. rewrite (handle_run c tbl Hok) by (apply Nat.mod_upper_bound; lia). done.
Qed.

End Requests.

(** ** The targets of a rank *)
Section Targets.
Context (c : A2aState) (tbl : list Z) (Hok : a2a_ok c tbl) (q : nat) (Hq : (q < world_size c)%nat).
Context (Hdist : NoDup ((num_routed_desc <$> rank_handles c) ++ (recv_buffer_desc <$> rank_handles c))).
Local Abbreviation mine := (is_desc_of (handle c q)).

Lemma handle_lookup r : (r < world_size c)%nat -> rank_handles c !! r = Some (handle c r).
Proof.
  intros Hr. unfold handle. destruct (lookup_lt_is_Some_2 (rank_handles c) r) as [h ->]; [|done].
  by rewrite (ok_handles _ _ Hok).
Qed.

Lemma desc_lookup {A} (f : AllToAllRankHandle -> A) r : (r < world_size c)%nat -> (f <$> rank_handles c) !! r = Some (f (handle c r)).
Proof. intros Hr. by rewrite list_lookup_fmap, handle_lookup. Qed.

Lemma mine_recv r : (r < world_size c)%nat -> mine (recv_desc c r) = (r =? q)%nat.
Proof.
  intros Hr. change (recv_desc c r) with (recv_buffer_desc (handle c r)). unfold is_desc_of.
  apply NoDup_app in Hdist as (_ & Hdis & Hnd). destruct (Nat.eqb_spec r q) as [->|Hne]; [apply bool_decide_true; auto|].
  apply bool_decide_false. intros [Heq|Heq].
  - eapply Hdis; [eapply list_elem_of_lookup_2, (desc_lookup _ q Hq)|].
    rewrite <- Heq. eapply list_elem_of_lookup_2, (desc_lookup _ r Hr).
  - apply Hne, (NoDup_lookup _ _ _ (recv_buffer_desc (handle c q)) Hnd); [rewrite <- Heq|]; by apply desc_lookup.
Qed.

Lemma mine_route r : (r < world_size c)%nat -> mine (num_routed_desc (handle c r)) = (r =? q)%nat.
Proof.
  intros Hr. unfold is_desc_of. apply NoDup_app in Hdist as (Hnd & Hdis & _).
  destruct (Nat.eqb_spec r q) as [->|Hne]; [apply bool_decide_true; auto|]. apply bool_decide_false. intros [Heq|Heq].
  - apply Hne, (NoDup_lookup _ _ _ (num_routed_desc (handle c q)) Hnd); [rewrite <- Heq|]; by apply desc_lookup.
  - eapply Hdis; [eapply list_elem_of_lookup_2, (desc_lookup _ r Hr)|].
    rewrite Heq. eapply list_elem_of_lookup_2, (desc_lookup _ q Hq).
Qed.

Lemma remote_lt a k n x : (a < n)%nat -> x ∈ remote_groups a k n -> (x < n * k)%nat.
Proof.
  intros Ha Hx. assert (x ∈ seq 0 (n * k)) as Hin; [|apply elem_of_seq in Hin; lia].
  rewrite <- (remote_groups_perm a k n Ha). set_solver.
Qed.

(** Every rank of another node, once. *)
Lemma initial_count tbl0 :
  cnt (fun t => mine (st_dst_mr t)) (initial_routes c tbl0) = if (q / node_size c =? rank_node c)%nat then 0 else 1.
Proof.
  destruct (nodes_pos _ _ Hok) as [Hn Hr]. pose proof (ok_world _ _ Hok) as Hw.
  assert (initial_routes c tbl0 = remote_groups (rank_node c) (node_size c) (num_nodes c) ≫= fun r => [initial_to c tbl0 r]) as ->.
  { rewrite remote_groups_bind, bind_list_bind. apply bind_list_ext. intros n _. rewrite bind_singleton.
    rewrite <- list_fmap_compose. apply list_fmap_ext. intros k i Hi. apply lookup_seq in Hi as [-> Hi].
    unfold peer. cbn. rewrite Hw, mod_block by lia. done. }
  rewrite (cnt_bind_pick _ _ q 1); [rewrite cnt_remote by lia; by destruct_match|].
  intros x Hx%remote_lt; [|done]. cbn [cnt initial_to st_dst_mr]. rewrite mine_recv by lia. by destruct (x =? q)%nat.
Qed.

Lemma peer_group_remote n i :
  (i < groups_per_node c)%nat -> peer_group c n i = ((rank_node c + n) mod num_nodes c * groups_per_node c + i)%nat.
Proof. intros Hi. destruct (nodes_pos _ _ Hok). unfold peer_group. rewrite (groups_nodes _ _ Hok), mod_block by lia. done. Qed.

Lemma combine_count :
  cnt (fun t => mine (st_dst_mr t)) (combine_ranges (routing c tbl)) =
  if (q / node_size c =? rank_node c)%nat then 0 else 1.
Proof.
  destruct (nodes_pos _ _ Hok) as [Hn Hr]. pose proof (group_of_rank _ _ Hok q Hq) as Hg.
  pose proof (groups_nodes _ _ Hok) as HG. pose proof (world_groups _ _ Hok) as HW. pose proof (ok_dp _ _ Hok).
  assert (combine_ranges (routing c tbl) = remote_groups (rank_node c) (groups_per_node c) (num_nodes c) ≫=
    fun g => combine_to c tbl g <$> seq 0 (dp_size c)) as ->.
  { rewrite remote_groups_bind, bind_list_bind. cbn [routing combine_ranges]. apply bind_list_ext. intros n _.
    rewrite bind_list_fmap. apply bind_list_ext. intros i Hi%elem_of_seq. by rewrite peer_group_remote by lia. }
  rewrite (cnt_bind_pick _ _ (q / dp_size c) 1); [rewrite cnt_remote, (node_of_group c tbl Hok) by lia; by destruct_match|].
  intros g Hgl%remote_lt; [|done]. rewrite <- bind_singleton, (cnt_bind_pick _ _ (q mod dp_size c) (if (g =? q / dp_size c)%nat then 1 else 0)).
  - rewrite (cnt_eq_NoDup _ _ (seq_nodup _ _)), decide_True; [lia|]. apply elem_of_seq.
    pose proof (Nat.mod_upper_bound q (dp_size c) ltac:(lia)). lia.
  - intros d Hd%elem_of_seq. cbn [cnt combine_to st_dst_mr]. rewrite mine_recv by nia.
    pose proof (Nat.div_mod_eq q (dp_size c)). pose proof (Nat.mod_upper_bound q (dp_size c) ltac:(lia)).
    destruct (Nat.eqb_spec (g * dp_size c + d) q) as [Heq|Hne].
    + assert (g = q / dp_size c)%nat as -> by (apply (Nat.div_unique _ _ _ d); lia).
      rewrite Nat.eqb_refl, (proj2 (Nat.eqb_eq _ _)) by lia. lia.
    + destruct (Nat.eqb_spec g (q / dp_size c)) as [->|]; [rewrite (proj2 (Nat.eqb_neq _ _)) by lia|destruct_match]; lia.
Qed.

(** The ranks of the other nodes with this [dp_rank]. *)
Lemma dispatch_ranges_remote :
  dispatch_ranges (routing c tbl) = remote_groups (rank_node c) (groups_per_node c) (num_nodes c) ≫=
    fun g => overflow_to c tbl (g * dp_size c + dp_rank c).
Proof.
  destruct (nodes_pos _ _ Hok) as [Hn Hr]. pose proof (dp_rank_lt _ _ Hok) as Hd.
  rewrite remote_groups_bind, bind_list_bind. cbn [routing dispatch_ranges]. apply bind_list_ext. intros n _.
  rewrite bind_list_fmap. unfold step_by. rewrite bind_list_fmap. pose proof (ok_node _ _ Hok) as Hnode.
  pose proof (nat_div_ceil_bounds (node_size c - dp_rank c) (dp_size c) ltac:(lia)) as Hc.
  replace (nat_div_ceil (node_size c - dp_rank c) (dp_size c)) with (groups_per_node c)
    by (pose proof (ok_gpn _ _ Hok); nia).
  apply bind_list_ext. intros m Hm%elem_of_seq. unfold peer. f_equal.
  rewrite (ok_world _ _ Hok), mod_block by nia. nia.
Qed.

Lemma overflow_count :
  cnt (fun t => mine (st_dst_mr t)) (dispatch_ranges (routing c tbl)) =
  if (q mod dp_size c =? dp_rank c)%nat then
    if (q / node_size c =? rank_node c)%nat then 0
    else if Z.of_nat (max_private_tokens c) <? to_rank c tbl q then 1 else 0
  else 0.
Proof.
  destruct (nodes_pos _ _ Hok) as [Hn Hr]. pose proof (group_of_rank _ _ Hok q Hq) as Hg.
  pose proof (groups_nodes _ _ Hok) as HG. pose proof (world_groups _ _ Hok) as HW. pose proof (dp_rank_lt _ _ Hok).
  rewrite dispatch_ranges_remote, (cnt_bind_pick _ _ (q / dp_size c) (if (q mod dp_size c =? dp_rank c)%nat then
    if Z.of_nat (max_private_tokens c) <? to_rank c tbl q then 1 else 0 else 0)).
  - rewrite cnt_remote, (node_of_group c tbl Hok) by lia. repeat destruct_match; lia.
  - intros g Hgl%remote_lt; [|done]. unfold overflow_to.
    pose proof (Nat.div_mod_eq q (dp_size c)). pose proof (Nat.mod_upper_bound q (dp_size c) ltac:(lia)).
    destruct (Nat.eqb_spec g (q / dp_size c)) as [->|Hne].
    + destruct (Nat.eqb_spec (q mod dp_size c) (dp_rank c)) as [Heq|Hne].
      * replace (q / dp_size c * dp_size c + dp_rank c)%nat with q by lia. rewrite Z.leb_antisym.
        destruct (_ <? _); [|done]. cbn [negb cnt st_dst_mr]. by rewrite mine_recv, Nat.eqb_refl.
      * destruct (_ <=? _); [done|]. cbn [cnt st_dst_mr]. rewrite mine_recv by nia.
        by rewrite (proj2 (Nat.eqb_neq _ _)) by lia.
    + destruct (_ <=? _); [done|]. cbn [cnt st_dst_mr]. rewrite mine_recv by nia.
      rewrite (proj2 (Nat.eqb_neq _ _)); [done|]. intros Heq. apply Hne.
      apply (Nat.div_unique _ _ _ (dp_rank c)); lia.
Qed.

Lemma others_lt a n x : (a < n)%nat -> x ∈ others a n -> (x < n)%nat.
Proof. intros Ha (i & -> & _)%list_elem_of_fmap. apply Nat.mod_upper_bound. lia. Qed.

Lemma route_count ne :
  cnt (fun t => mine (st_dst_mr t)) (others (rank c) (world_size c) ≫= fun r =>
    if (r / dp_size c =? dp_group c)%nat || negb (r mod dp_size c =? dp_rank c)%nat then []
    else [route_to ne (dp_group c) (handle c r)]) =
  if (q mod dp_size c =? dp_rank c)%nat then if (q / dp_size c =? dp_group c)%nat then 0 else 1 else 0.
Proof.
  pose proof (ok_rank _ _ Hok) as Hr.
  rewrite (cnt_bind_pick _ _ q (if (q mod dp_size c =? dp_rank c)%nat then
    if (q / dp_size c =? dp_group c)%nat then 0 else 1 else 0)).
  - rewrite cnt_others by done. destruct (Nat.eqb_spec q (rank c)) as [->|]; [|repeat destruct_match; lia].
    rewrite (ok_dp_group _ _ Hok), Nat.eqb_refl. repeat destruct_match; lia.
  - intros x Hx%others_lt; [|done]. destruct (Nat.eqb_spec x q) as [->|Hne].
    + destruct (_ =? dp_group c)%nat, (_ =? dp_rank c)%nat; cbn [orb negb cnt route_to st_dst_mr]; [done..| |done].
      by rewrite mine_route, Nat.eqb_refl.
    + destruct (_ || _); [done|]. cbn [cnt route_to st_dst_mr]. rewrite mine_route by done.
      by rewrite (proj2 (Nat.eqb_neq _ _)) by lia.
Qed.

Lemma barrier_count :
  cnt mine (others (rank c) (world_size c) ≫= fun r => if (r =? rank c)%nat then [] else [recv_desc c r]) =
  if (q =? rank c)%nat then 0 else 1.
Proof.
  pose proof (ok_rank _ _ Hok) as Hr.
  rewrite (cnt_bind_pick _ _ q (if (q =? rank c)%nat then 0 else 1)).
  - rewrite cnt_others by done. destruct_match; lia.
  - intros x Hx%others_lt; [|done]. destruct (Nat.eqb_spec x q) as [->|Hne].
    + destruct (_ =? _)%nat; [done|]. cbn [cnt]. by rewrite mine_recv, Nat.eqb_refl.
    + destruct (_ =? _)%nat; [done|]. cbn [cnt]. rewrite mine_recv by done.
      by rewrite (proj2 (Nat.eqb_neq _ _)) by lia.
Qed.
End Targets.

(** The requests and immediates of a worker made by [new]. *)
Definition barrier_op (c : A2aState) (imm : Z) : TransferRequest :=
  ReqBarrier {| br_imm_data := imm;
    br_dst_mrs := others (rank c) (world_size c) ≫= (fun r => if (r =? rank c)%nat then [] else [recv_desc c r]);
    br_domain := Pinned 0 |}.
Record requests_ok (c : A2aState) (base : Z) : Prop := {
  rq_route : exists src hd ne, route_write_op c = ReqScatter {| xr_src_mr := src; xr_dst_handle := Some hd;
    xr_dsts := others (rank c) (world_size c) ≫= (fun r =>
      if (r / dp_size c =? dp_group c)%nat || negb (r mod dp_size c =? dp_rank c)%nat then []
      else [route_to ne (dp_group c) (handle c r)]);
    xr_imm_data := Some (route_imm c); xr_domain := AllDomainsShardPeers |};
  rq_barriers : dispatch_barrier_write_op c = barrier_op c (dispatch_barrier_imm c) /\
    combine_barrier_write_op c = barrier_op c (combine_barrier_imm c);
  rq_imms : route_imm c = u32_add base 0 /\ dispatch_imm c = u32_add base 1 /\ combine_imm c = u32_add base 2 /\
    dispatch_barrier_imm c = u32_add base 3 /\ combine_barrier_imm c = u32_add base 4;
}.

Lemma new_requests {St} a add (s s' : St) c tbl :
  a2a_new a add s = Done (Ok c, s') -> a2a_ok c tbl ->
  requests_ok c (a_imm_base a) /\ rank_handles c = a_rank_handles a /\ nets_per_gpu c = a_nets_per_gpu a.
Proof.
  intros Hnew Hok. unfold a2a_new, bind, bind_res in Hnew.
  destruct (usize_rem (a_rank a) (a_dp_size a) s) as [[dr s1]| |]; [|done..].
  destruct (usize_div (a_rank a) (a_dp_size a) s1) as [[dg s2]| |]; [|done..].
  destruct (route_targets _ _ _ _ _ _ _ s2) as [[dsts s3]| |] eqn:Edst; [|done..].
  cbv [bind] in Hnew. destruct (add _ s3) as [[[hd|] s4]| |]; [|done..].
  destruct (barrier_mrs _ _ _ s4) as [[mrs s5]| |] eqn:Emrs; [|done..]. cbv [ret] in Hnew.
  injection Hnew as <- <-. split; [|done].
  pose proof (eq_trans (eq_sym Edst) (route_targets_run _ tbl Hok (a_num_experts a) s2)) as Hd.
  pose proof (eq_trans (eq_sym Emrs) (barrier_mrs_run _ tbl Hok s4)) as Hm.
  injection Hd as Hd _. injection Hm as Hm _. split.
  - eexists _, hd, (a_num_experts a). cbn [route_write_op]. rewrite Hd. reflexivity.
  - unfold barrier_op. cbn [dispatch_barrier_write_op combine_barrier_write_op]. rewrite Hm. split; reflexivity.
  - done.
Qed.

Lemma imms_distinct base i j : 0 <= i < 5 -> 0 <= j < 5 -> u32_add base i = u32_add base j -> i = j.
Proof. unfold u32_add, wrapu. intros Hi Hj Heq. assert (2 ^ 32 = 4294967296) by done. Z.div_mod_to_equations. lia. Qed.

(** ** The immediates of one step of a rank *)
Definition at_imm (i imm v : Z) : Z := if i =? imm then v else 0.

Section Step.
Context (c : A2aState) (tbl0 tbl : list Z) (Hok : a2a_ok c tbl) (base : Z) (Hrq : requests_ok c base).
Context (q n : nat) (Hq : (q < world_size c)%nat) (Hn : (0 < n)%nat).
Context (Hdist : NoDup ((num_routed_desc <$> rank_handles c) ++ (recv_buffer_desc <$> rank_handles c))).
Local Abbreviation off_node := (if (q / node_size c =? rank_node c)%nat then 0 else 1).

Lemma sent_barrier imm i k :
  sent n imm (handle c q) (barrier_actions c (barrier_op c i) i k) = at_imm i imm (if (q =? rank c)%nat then 0 else 1).
Proof.
  unfold sent, barrier_actions, barrier_op, at_imm. cbn [fmap list_fmap sum_list_Z foldr action_imms br_imm_data br_dst_mrs].
  rewrite (barrier_count c tbl) by done. destruct (i =? imm); lia.
Qed.

Lemma sent_step imm :
  sent n imm (handle c q) (step_actions c tbl0 tbl) =
  at_imm (route_imm c) imm
    (if (q mod dp_size c =? dp_rank c)%nat then if (q / dp_size c =? dp_group c)%nat then 0 else 1 else 0) +
  at_imm (dispatch_imm c) imm (off_node + Z.of_nat n *
    (if (q mod dp_size c =? dp_rank c)%nat then
       if (q / node_size c =? rank_node c)%nat then 0
       else if Z.of_nat (max_private_tokens c) <? to_rank c tbl q then 1 else 0 else 0)) +
  at_imm (combine_imm c) imm (Z.of_nat n * off_node) +
  at_imm (dispatch_barrier_imm c) imm (if (q =? rank c)%nat then 0 else 1) +
  at_imm (combine_barrier_imm c) imm (if (q =? rank c)%nat then 0 else 1).
Proof.
  destruct (rq_route _ _ Hrq) as (src & hd & ne & Hroute). destruct (rq_barriers _ _ Hrq) as [Hb1 Hb2].
  assert (forall l, sent n imm (handle c q) (ASubmit (route_write_op c) :: l) = at_imm (route_imm c) imm
    (if (q mod dp_size c =? dp_rank c)%nat then if (q / dp_size c =? dp_group c)%nat then 0 else 1 else 0) +
    sent n imm (handle c q) l) as Hr.
  { intros l. unfold sent. cbn [fmap list_fmap sum_list_Z foldr]. f_equal. rewrite Hroute, scatter_imms by done.
    cbn [xr_imm_data xr_dsts target_shards xr_domain]. rewrite (route_count c tbl) by done. unfold at_imm.
    destruct (Z.eqb_spec (route_imm c) imm) as [->|]; [rewrite bool_decide_true by done; lia|].
    rewrite bool_decide_false by congruence. lia. }
  unfold step_actions. rewrite Hb1, Hb2, !sent_app, !sent_barrier, !sent_submit by done.
  rewrite (initial_count c tbl), (overflow_count c tbl), (combine_count c tbl) by done.
  assert (forall a l, (forall r, a <> ASubmit r) -> sent n imm (handle c q) (a :: l) = sent n imm (handle c q) l) as Hw.
  { intros a l Ha. unfold sent. cbn [fmap list_fmap sum_list_Z foldr]. destruct a as [| |r| | |]; try done. by destruct (Ha r). }
  rewrite !Hw, Hr, !Hw by done. unfold sent at 1 2 3 4 5. cbn [fmap list_fmap sum_list_Z foldr]. unfold at_imm.
  repeat destruct (_ =? imm); lia.
Qed.

End Step.

Lemma awaited_submit c imm dsts i dom : awaited imm (submit c dsts i dom) = 0.
Proof. unfold submit. by destruct (is_nil dsts). Qed.

Lemma awaited_step c tbl0 tbl imm :
  awaited imm (step_actions c tbl0 tbl) =
  at_imm (route_imm c) imm (wrapu 32 (as_u32 (Z.of_nat (num_groups c)) - 1)) +
  at_imm (dispatch_imm c) imm (ri_num_recv_tx (routing c tbl)) +
  at_imm (combine_imm c) imm
    (u32_mul (as_u32 (Z.of_nat (world_size c) - Z.of_nat (node_size c))) (nets_per_gpu c)) +
  at_imm (dispatch_barrier_imm c) imm (as_u32 (Z.of_nat (world_size c) - 1)) +
  at_imm (combine_barrier_imm c) imm (as_u32 (Z.of_nat (world_size c) - 1)).
Proof.
  unfold step_actions. rewrite !awaited_app, !awaited_submit. unfold awaited, barrier_actions, at_imm.
  cbn [fmap list_fmap sum_list_Z foldr]. repeat destruct (_ =? imm); lia.
Qed.

(** ** A step of all the ranks *)
Record wired (job : nat -> A2aState) (W n : nat) (base : Z) (hs : list AllToAllRankHandle) : Prop := {
  wi_new r : (r < W)%nat -> exists (St : Type) a add (s s' : St),
    a2a_new a add s = Done (Ok (job r), s') /\ a_imm_base a = base;
  wi_handles r : (r < W)%nat -> rank_handles (job r) = hs;
  wi_nets r : (r < W)%nat -> nets_per_gpu (job r) = Z.of_nat n;
  wi_distinct : NoDup ((num_routed_desc <$> hs) ++ (recv_buffer_desc <$> hs));
  wi_n : (0 < n)%nat /\ Z.of_nat (W * n) < 2 ^ 32;
}.

Section Totals.
Context (job : nat -> A2aState) (tbl : list Z) (W : nat) (D : Z) (Hjob : job_ok job tbl W D).
Context (n : nat) (base : Z) (hs : list AllToAllRankHandle) (Hwired : wired job W n base hs).
Context (q : nat) (Hq : (q < W)%nat).
Local Abbreviation cq := (job q).

Lemma job_requests r : (r < W)%nat -> requests_ok (job r) base.
Proof.
  intros Hr. destruct (wi_new _ _ _ _ _ Hwired r Hr) as (St & a & add & s & s' & Hnew & <-).
  by apply (new_requests _ _ _ _ _ _ Hnew (jo_ok _ _ _ _ Hjob r Hr)).
Qed.

(** The shape of the job, as any rank sees it. *)
Lemma job_shape r : (r < W)%nat ->
  dp_size (job r) = dp_size cq /\ node_size (job r) = node_size cq /\ dp_rank (job r) = (r mod dp_size cq)%nat /\
  dp_group (job r) = (r / dp_size cq)%nat /\ rank_node (job r) = (r / node_size cq)%nat /\
  world_size (job r) = W /\ rank (job r) = r.
Proof.
  intros Hr. pose proof (jo_ok _ _ _ _ Hjob r Hr) as Hok. destruct (jo_rank _ _ _ _ Hjob r Hr) as [HR HW].
  pose proof (jo_same _ _ _ _ Hjob r q Hr Hq) as [Hdp Hnode _ _ _].
  rewrite (ok_dp_rank _ _ Hok), (ok_dp_group _ _ Hok). unfold rank_node. by rewrite HR, Hdp, Hnode.
Qed.

Lemma world_blocks : W = (num_nodes cq * node_size cq)%nat /\ W = (num_groups cq * dp_size cq)%nat.
Proof.
  pose proof (jo_ok _ _ _ _ Hjob q Hq) as Hok. rewrite <- (proj2 (jo_rank _ _ _ _ Hjob q Hq)).
  split; [apply (ok_world _ _ Hok)|apply (world_groups _ _ Hok)].
Qed.

Lemma route_total :
  sumf W (fun r => if (q mod dp_size (job r) =? dp_rank (job r))%nat then
    if (q / dp_size (job r) =? dp_group (job r))%nat then 0 else 1 else 0) = Z.of_nat (num_groups cq) - 1.
Proof.
  pose proof (jo_ok _ _ _ _ Hjob q Hq) as Hok. destruct world_blocks as [_ HW].
  assert (q / dp_size cq < num_groups cq)%nat as Hg by (apply (group_of_rank _ _ Hok); by rewrite (proj2 (jo_rank _ _ _ _ Hjob q Hq))).
  rewrite <- (sumf_other _ _ Hg), <- (sumf_one_each (num_groups cq) (dp_size cq) (q mod dp_size cq)), <- HW.
  - apply sumf_ext. intros r Hr. destruct (job_shape r Hr) as (-> & _ & -> & -> & _). by rewrite !(Nat.eqb_sym (q / _)), Nat.eqb_sym.
  - apply Nat.mod_upper_bound. pose proof (ok_dp _ _ Hok). lia.
Qed.

Lemma off_node_total :
  sumf W (fun r => if (q / node_size (job r) =? rank_node (job r))%nat then 0 else 1) =
  Z.of_nat W - Z.of_nat (node_size cq).
Proof.
  pose proof (jo_ok _ _ _ _ Hjob q Hq) as Hok. destruct world_blocks as [HW _].
  destruct (nodes_pos _ _ Hok) as [_ Hnode]. unfold rank_node in Hnode. rewrite (proj1 (jo_rank _ _ _ _ Hjob q Hq)) in Hnode.
  transitivity ((Z.of_nat (num_nodes cq) - 1) * Z.of_nat (node_size cq)); [|lia].
  rewrite <- (sumf_outside _ _ _ Hnode), <- HW. apply sumf_ext. intros r Hr.
  destruct (job_shape r Hr) as (_ & -> & _ & _ & -> & _). by rewrite Nat.eqb_sym.
Qed.

(** The overflow transfers for [q]: from the groups with more tokens than fit. *)
Lemma overflow_total :
  sumf W (fun r => if (q mod dp_size (job r) =? dp_rank (job r))%nat then
    if (q / node_size (job r) =? rank_node (job r))%nat then 0
    else if Z.of_nat (max_private_tokens (job r)) <? to_rank (job r) tbl q then 1 else 0 else 0) =
  sumf (num_groups cq) (fun g => if (g / groups_per_node cq =? rank_node cq)%nat then 0
    else if Z.of_nat (max_private_tokens cq) <? T cq tbl g then 1 else 0).
Proof.
  pose proof (jo_ok _ _ _ _ Hjob q Hq) as Hok. destruct world_blocks as [_ HW].
  rewrite <- (sumf_one_each (num_groups cq) (dp_size cq) (q mod dp_size cq)), <- HW.
  2:{ apply Nat.mod_upper_bound. pose proof (ok_dp _ _ Hok). lia. }
  apply sumf_ext. intros r Hr. pose proof (jo_same _ _ _ _ Hjob r q Hr Hq) as Hsame.
  destruct (job_shape r Hr) as (-> & -> & -> & Hgr & -> & _ & _). rewrite Nat.eqb_sym.
  destruct (_ =? q mod _)%nat; [|done].
  unfold rank_node. rewrite (proj1 (jo_rank _ _ _ _ Hjob q Hq)), Nat.eqb_sym, (node_of_group _ _ Hok r).
  destruct (_ =? _)%nat; [done|]. rewrite (sj_private _ _ Hsame).
  rewrite <- Hgr, (T_cap (job r) cq tbl Hok Hsame), (proj1 (jo_rank _ _ _ _ Hjob q Hq)). done.
Qed.

Lemma barrier_total : sumf W (fun r => if (q =? rank (job r))%nat then 0 else 1) = Z.of_nat W - 1.
Proof.
  rewrite <- (sumf_other W q Hq). apply sumf_ext. intros r Hr. destruct (job_shape r Hr) as (_ & _ & _ & _ & _ & _ & ->).
  by rewrite Nat.eqb_sym.
Qed.

(** What [q] expects in the dispatch phase. *)
Lemma expected_total :
  ri_num_recv_tx (routing cq tbl) = Z.of_nat (num_groups cq) - Z.of_nat (groups_per_node cq) +
    Z.of_nat n * sumf (num_groups cq) (fun g => if (g / groups_per_node cq =? rank_node cq)%nat then 0
      else if Z.of_nat (max_private_tokens cq) <? T cq tbl g then 1 else 0).
Proof.
  pose proof (jo_ok _ _ _ _ Hjob q Hq) as Hok. destruct (nodes_pos _ _ Hok) as [_ Hnode].
  transitivity ((Z.of_nat (num_nodes cq) - 1) * Z.of_nat (groups_per_node cq) +
    Z.of_nat n * sumf (num_groups cq) (fun g => if (g / groups_per_node cq =? rank_node cq)%nat then 0
      else if Z.of_nat (max_private_tokens cq) <? T cq tbl g then 1 else 0));
    [|rewrite (groups_nodes _ _ Hok) at 2; lia].
  rewrite <- (sumf_outside _ _ _ Hnode), <- (groups_nodes _ _ Hok), <- sumf_scale, <- sumf_plus.
  cbn [routing ri_num_recv_tx]. apply sumf_ext. intros g Hg. unfold txs. rewrite (wi_nets _ _ _ _ _ Hwired q Hq).
  destruct (Nat.eqb_spec (g / groups_per_node cq) (rank_node cq)) as [|Hne].
  - rewrite andb_false_r. lia.
  - rewrite (proj2 (Nat.eqb_neq _ _)); [cbn [negb andb]; destruct_match; lia|]. intros ->.
    by rewrite (group_node _ _ Hok) in Hne.
Qed.

Lemma sum_at_imm (i : nat -> Z) imm f :
  (forall r, (r < W)%nat -> i r = i q) -> sumf W (fun r => at_imm (i r) imm (f r)) = at_imm (i q) imm (sumf W f).
Proof.
  intros Hi. unfold at_imm. rewrite (sumf_ext W _ (fun r => if i q =? imm then f r else 0)) by (intros r Hr; by rewrite (Hi r Hr)).
  destruct (i q =? imm); [done|apply sumf_const_0].
Qed.

(** The immediates of all the steps, by phase. *)
Lemma sent_total tbl0 imm :
  sumf W (fun r => sent n imm (handle cq q) (step_actions (job r) (tbl0 r) tbl)) =
  at_imm (route_imm cq) imm (Z.of_nat (num_groups cq) - 1) +
  at_imm (dispatch_imm cq) imm (ri_num_recv_tx (routing cq tbl) +
    (Z.of_nat (dp_size cq) - 1) * (Z.of_nat (num_groups cq) - Z.of_nat (groups_per_node cq))) +
  at_imm (combine_imm cq) imm (Z.of_nat n * (Z.of_nat W - Z.of_nat (node_size cq))) +
  at_imm (dispatch_barrier_imm cq) imm (Z.of_nat W - 1) + at_imm (combine_barrier_imm cq) imm (Z.of_nat W - 1).
Proof.
  assert (forall r, (r < W)%nat -> route_imm (job r) = route_imm cq /\ dispatch_imm (job r) = dispatch_imm cq /\
    combine_imm (job r) = combine_imm cq /\ dispatch_barrier_imm (job r) = dispatch_barrier_imm cq /\
    combine_barrier_imm (job r) = combine_barrier_imm cq) as Himm.
  { intros r Hr. destruct (rq_imms _ _ (job_requests r Hr)) as (-> & -> & -> & -> & ->).
    by destruct (rq_imms _ _ (job_requests q Hq)) as (-> & -> & -> & -> & ->). }
  erewrite sumf_ext.
  2:{ intros r Hr. assert (handle cq q = handle (job r) q) as ->
        by (unfold handle; by rewrite !(wi_handles _ _ _ _ _ Hwired)).
      apply (sent_step (job r) (tbl0 r) tbl (jo_ok _ _ _ _ Hjob r Hr) base (job_requests r Hr) q n).
      - by rewrite (proj2 (jo_rank _ _ _ _ Hjob r Hr)).
      - apply (wi_n _ _ _ _ _ Hwired).
      - rewrite (wi_handles _ _ _ _ _ Hwired r Hr). apply (wi_distinct _ _ _ _ _ Hwired). }
  rewrite !sumf_plus, !sum_at_imm by (intros r Hr; by apply Himm).
  rewrite sumf_plus, !sumf_scale, route_total, off_node_total, overflow_total, !barrier_total, expected_total.
  pose proof (jo_ok _ _ _ _ Hjob q Hq) as Hok. destruct world_blocks as [_ HW]. rewrite (ok_node _ _ Hok), HW at 1.
  unfold at_imm. repeat destruct (_ =? imm); lia.
Qed.

Lemma awaited_total tbl0 imm :
  awaited imm (step_actions cq tbl0 tbl) =
  at_imm (route_imm cq) imm (Z.of_nat (num_groups cq) - 1) +
  at_imm (dispatch_imm cq) imm (ri_num_recv_tx (routing cq tbl)) +
  at_imm (combine_imm cq) imm (Z.of_nat n * (Z.of_nat W - Z.of_nat (node_size cq))) +
  at_imm (dispatch_barrier_imm cq) imm (Z.of_nat W - 1) + at_imm (combine_barrier_imm cq) imm (Z.of_nat W - 1).
Proof.
  pose proof (jo_ok _ _ _ _ Hjob q Hq) as Hok. destruct (jo_rank _ _ _ _ Hjob q Hq) as [_ HWq].
  pose proof (ok_world32 _ _ Hok) as H32. pose proof (ok_world _ _ Hok) as HW. destruct (nodes_pos _ _ Hok) as [Hnn _].
  pose proof (world_groups _ _ Hok) as HG. pose proof (ok_dp _ _ Hok). pose proof (dp_group_lt _ _ Hok).
  destruct (wi_n _ _ _ _ _ Hwired) as [Hn Hsmall]. rewrite awaited_step, (wi_nets _ _ _ _ _ Hwired q Hq).
  assert (node_size cq <= world_size cq)%nat by nia. assert (num_groups cq <= world_size cq)%nat by nia.
  rewrite (as_u32_small (Z.of_nat (num_groups cq))) by lia. fold (as_u32 (Z.of_nat (num_groups cq) - 1)).
  rewrite !as_u32_small by lia. unfold u32_mul.
  rewrite wrapu_small by (unfold in_u; clear -Hsmall HWq H1; nia). rewrite HWq. unfold at_imm. repeat destruct (_ =? imm); lia.
Qed.
End Totals.

(** C13: in every phase of a step, the ranks of the job deliver the immediates a rank waits for.
    Take a job whose ranks were made by [WorkerState::new] with distinct descriptors, a common
    base immediate and [n] domains each.  The step of every rank succeeds; and for every rank
    [q] and every immediate value, the immediates that the transfers of all the ranks deliver
    to [q] are as many as the step of [q] waits for (routing, both barriers and combine,
    whatever the routing table), except that the dispatch phase leaves a surplus of
    [dp_size - 1] for each group on another node: none when [dp_size] is one. *)
Theorem step_delivers_awaited_immediates (job : nat -> A2aState) tbl W D n base hs tbl0 :
  job_ok job tbl W D -> wired job W n base hs -> (forall r, (r < W)%nat -> a2a_ok (job r) (tbl0 r)) ->
  exists acts, (forall r, (r < W)%nat -> step (job r) (fun _ => true) (tbl0 r) tbl [] = Done (tt, acts r)) /\
    forall q imm, (q < W)%nat ->
      sumf W (fun r => sent n imm (default no_handle (hs !! q)) (acts r)) = awaited imm (acts q) +
        (if dispatch_imm (job q) =? imm then (Z.of_nat (dp_size (job q)) - 1) *
           (Z.of_nat (num_groups (job q)) - Z.of_nat (groups_per_node (job q))) else 0).
Proof.
  intros Hjob Hwired Hok0. exists (fun r => step_actions (job r) (tbl0 r) tbl). split.
  - intros r Hr. by apply (step_run _ _ _ _ []); [apply Hok0|apply (jo_ok _ _ _ _ Hjob)|].
  - intros q imm Hq. rewrite <- (wi_handles _ _ _ _ _ Hwired q Hq). fold (handle (job q) q).
    rewrite (sent_total _ _ _ _ Hjob _ _ _ Hwired q Hq), (awaited_total _ _ _ _ Hjob _ _ _ Hwired q Hq).
    unfold at_imm. repeat destruct (_ =? imm); lia.
Qed.

(** ** Witness: rank 2 gets two initial and, from ranks 0, two overflow immediates *)
Lemma small_wired : wired small_job 4 2 10 (small_handle <$> seq 0 4).
Proof.
  split.
  - intros r Hr. exists unit, (small_args r), (fun _ => ret (Ok 1)), tt, tt. split; [|done].
    do 4 (destruct r as [|r]; [by vm_compute|]). lia.
  - intros r Hr. do 4 (destruct r as [|r]; [by vm_compute|]). lia.
  - intros r Hr. do 4 (destruct r as [|r]; [by vm_compute|]). lia.
  - cbn. repeat (constructor; [set_solver|]). constructor.
  - split; [lia|done].
Qed.

Lemma step_delivers_awaited_immediates_witness :
  exists acts, (forall r, (r < 4)%nat -> step (small_job r) (fun _ => true) small_table small_table [] = Done (tt, acts r)) /\
    sumf 4 (fun r => sent 2 11 (small_handle 2) (acts r)) = awaited 11 (acts 2%nat) /\ awaited 11 (acts 2%nat) = 4.
Proof.
  destruct (step_delivers_awaited_immediates small_job small_table 4 128 2 10 (small_handle <$> seq 0 4)
    (fun _ => small_table)) as (acts & Hrun & Himm); [apply small_job_ok|apply small_wired|intros; by apply small_ok|].
  exists acts. split; [exact Hrun|]. split.
  - etrans; [exact (Himm 2%nat 11 ltac:(lia))|]. rewrite <- (Z.add_0_r (awaited 11 _)) at 2. reflexivity.
  - specialize (Hrun 2%nat ltac:(lia)). vm_compute in Hrun. injection Hrun as <-. reflexivity.
Defined.
