(* ===== verification/EfaRdmaOp.v ===== *)
(** * Write requests of the libfabric provider

    [fabric-lib/src/efa/efa_rdma_op.rs]: a write is turned into a sequence of [fi_msg_rma]
    messages built one at a time in a reused buffer.  The buffer's three parts ([iovec],
    [fi_rma_iov], [fi_msg_rma]) are one record; the pointers of the message to the other two
    parts are implied.  Uninitialised parts have an arbitrary value. *)
From stdpp Require Import prelude strings list.
From S2P Require Import Prelude Api.
Local Open Scope Z_scope.

Definition FI_REMOTE_CQ_DATA : Z := Z.shiftl 1 17.
Definition FI_ADDR_UNSPEC : Z := 2 ^ 64 - 1.

Record iovec := { iov_base : Z; iov_len : Z }.
Record fi_rma_iov := { rma_addr : Z; rma_len : Z; rma_key : Z }.
Record fi_msg_rma := {
  msg_desc : Z;
  msg_iov_count : nat;
  msg_addr : Z;
  msg_context : Z;
  msg_data : Z;
}.
Record RmaBuffer := { rb_iov : iovec; rb_rma_iov : fi_rma_iov; rb_msg : fi_msg_rma }.

(** The message of a two-sided operation. *)
Record fi_msg := { fm_iov : iovec; fm_desc : Z; fm_addr : Z; fm_context : Z }.

Definition flags_imm (imm_data : option Z) : Z * Z :=
  match imm_data with
  | Some imm => (imm, FI_REMOTE_CQ_DATA)
  | None => (0, 0)
  end.

(** ** Single and immediate writes *)
Record EfaSingleIter := { es_buf : RmaBuffer; es_flags : Z; es_done : bool }.

Definition efa_new_single (op : SingleWriteOp) (addr : Z) (buf : RmaBuffer) (context : Z) : EfaSingleIter :=
  let '(imm, flags) := flags_imm (sw_imm_data op) in
  {| es_buf := {|
       rb_iov := {| iov_base := u64_add (sw_src_ptr op) (sw_src_offset op); iov_len := sw_length op |};
       rb_rma_iov := {| rma_addr := sw_dst_offset op; rma_len := sw_length op; rma_key := sw_dst_rkey op |};
       rb_msg := {| msg_desc := sw_src_desc op; msg_iov_count := 1; msg_addr := addr;
                    msg_context := context; msg_data := imm |} |};
     es_flags := flags; es_done := false |}.

Definition efa_new_imm (op : ImmWriteOp) (addr : Z) (buf : RmaBuffer) (context : Z) : EfaSingleIter :=
  {| es_buf := {|
       rb_iov := rb_iov buf;
       rb_rma_iov := {| rma_addr := 0; rma_len := 0; rma_key := iw_dst_rkey op |};
       rb_msg := {| msg_desc := 0; msg_iov_count := 0; msg_addr := addr;
                    msg_context := context; msg_data := iw_imm_data op |} |};
     es_flags := FI_REMOTE_CQ_DATA; es_done := false |}.

(** [peek]: the message and its flags, or a null message. *)
Definition efa_single_peek (it : EfaSingleIter) : option RmaBuffer * Z :=
  if es_done it then (None, 0) else (Some (es_buf it), es_flags it).

Definition efa_mark_done : M EfaSingleIter unit := fun it =>
  if es_done it then Panic "assertion failed: !self.done"
  else Done (tt, {| es_buf := es_buf it; es_flags := es_flags it; es_done := true |}).

(** ** Paged writes *)
Record EfaPagedIter := {
  ep_src_page_indices : list Z;
  ep_dst_page_indices : list Z;
  ep_page_indices_beg : nat;
  ep_page_indices_end : nat;
  ep_src_ptr : Z;
  ep_src_stride : Z;
  ep_dst_ptr : Z;
  ep_dst_stride : Z;
  ep_buf : RmaBuffer;
  ep_flags : Z;
  ep_i_page : nat;
}.

Definition ep_set (it : EfaPagedIter) (buf : RmaBuffer) (i : nat) : EfaPagedIter :=
  {| ep_src_page_indices := ep_src_page_indices it; ep_dst_page_indices := ep_dst_page_indices it;
     ep_page_indices_beg := ep_page_indices_beg it; ep_page_indices_end := ep_page_indices_end it;
     ep_src_ptr := ep_src_ptr it; ep_src_stride := ep_src_stride it; ep_dst_ptr := ep_dst_ptr it;
     ep_dst_stride := ep_dst_stride it; ep_buf := buf; ep_flags := ep_flags it; ep_i_page := i |}.

Definition efa_paged_fill : M EfaPagedIter unit := fun it =>
  (let! src_page_idx := unwrap (ep_src_page_indices it !! ep_i_page it) "index out of bounds" in
   let! dst_page_idx := unwrap (ep_dst_page_indices it !! ep_i_page it) "index out of bounds" in
   fun _ => Done (tt, ep_set it {|
     rb_iov := {| iov_base := u64_add (ep_src_ptr it) (u64_mul (ep_src_stride it) src_page_idx);
                  iov_len := iov_len (rb_iov (ep_buf it)) |};
     rb_rma_iov := {| rma_addr := u64_mul (ep_dst_stride it) dst_page_idx;
                      rma_len := rma_len (rb_rma_iov (ep_buf it));
                      rma_key := rma_key (rb_rma_iov (ep_buf it)) |};
     rb_msg := rb_msg (ep_buf it) |} (ep_i_page it))) it.

Definition efa_paged_new (op : PagedWriteOp) (addr : Z) (buf : RmaBuffer) (context : Z) : outcome EfaPagedIter :=
  if negb (pw_page_indices_beg op <? pw_page_indices_end op)%nat then
    Panic "assertion failed: op.page_indices_beg < op.page_indices_end"
  else if negb (length (pw_src_page_indices op) =? length (pw_dst_page_indices op))%nat then
    Panic "assertion failed: op.src_page_indices.len() == op.dst_page_indices.len()"
  else if negb (pw_page_indices_end op <=? length (pw_src_page_indices op))%nat then
    Panic "assertion failed: op.page_indices_end <= op.src_page_indices.len()"
  else
    let '(imm, flags) := flags_imm (pw_imm_data op) in
    match efa_paged_fill {|
      ep_src_page_indices := pw_src_page_indices op; ep_dst_page_indices := pw_dst_page_indices op;
      ep_page_indices_beg := pw_page_indices_beg op; ep_page_indices_end := pw_page_indices_end op;
      ep_src_ptr := u64_add (pw_src_ptr op) (pw_src_offset op); ep_src_stride := pw_src_stride op;
      ep_dst_ptr := u64_add (pw_dst_ptr op) (pw_dst_offset op); ep_dst_stride := pw_dst_stride op;
      ep_buf := {|
        rb_iov := {| iov_base := 0; iov_len := pw_length op |};
        rb_rma_iov := {| rma_addr := 0; rma_len := pw_length op; rma_key := pw_dst_rkey op |};
        rb_msg := {| msg_desc := pw_src_desc op; msg_iov_count := 1; msg_addr := addr;
                     msg_context := context; msg_data := imm |} |};
      ep_flags := flags; ep_i_page := pw_page_indices_beg op |} with
    | Done (_, it) => Done it
    | Panic why => Panic why
    | OutOfFuel => OutOfFuel
    end.

Definition efa_paged_total_ops (it : EfaPagedIter) : nat := ep_page_indices_end it - ep_page_indices_beg it.

Definition efa_paged_peek (it : EfaPagedIter) : option RmaBuffer * Z :=
  if (ep_i_page it =? ep_page_indices_end it)%nat then (None, 0) else (Some (ep_buf it), ep_flags it).

Definition efa_paged_advance : M EfaPagedIter unit := fun it =>
  if negb (ep_i_page it <? ep_page_indices_end it)%nat then
    Panic "assertion failed: self.i_page < self.page_indices_end"
  else
    let it := ep_set it (ep_buf it) (S (ep_i_page it)) in
    if (ep_i_page it <? ep_page_indices_end it)%nat then efa_paged_fill it else Done (tt, it).

(** ** Scatter writes *)
Record EfaScatterIter := {
  ex_addrs : list Z;
  ex_buf : RmaBuffer;
  ex_flags : Z;
  ex_domain_idx : nat;
  ex_src_ptr : Z;
  ex_dsts : list ScatterTarget;
  ex_dst_beg : nat;
  ex_dst_end : nat;
  ex_byte_shards : Z;
  ex_byte_shard_idx : Z;
  ex_i_dst : nat;
}.

Definition ex_set (it : EfaScatterIter) (buf : RmaBuffer) (i : nat) : EfaScatterIter :=
  {| ex_addrs := ex_addrs it; ex_buf := buf; ex_flags := ex_flags it; ex_domain_idx := ex_domain_idx it;
     ex_src_ptr := ex_src_ptr it; ex_dsts := ex_dsts it; ex_dst_beg := ex_dst_beg it;
     ex_dst_end := ex_dst_end it; ex_byte_shards := ex_byte_shards it;
     ex_byte_shard_idx := ex_byte_shard_idx it; ex_i_dst := i |}.

Definition efa_scatter_fill : M EfaScatterIter unit := fun it =>
  (let! dst := unwrap (ex_dsts it !! ex_i_dst it) "index out of bounds" in
   assert_ (negb (ex_byte_shards it =? 0)) "attempt to divide by zero" ;;;
   let len := as_u32 (st_length dst) / ex_byte_shards it in
   let offset := u32_mul len (ex_byte_shard_idx it) in
   let! addr := unwrap (ex_addrs it !! ex_i_dst it) "index out of bounds" in
   let! ar := unwrap (addr_rkey_list (st_dst_mr dst) !! ex_domain_idx it) "index out of bounds" in
   fun _ => Done (tt, ex_set it {|
     rb_iov := {| iov_base := u64_add (ex_src_ptr it) (u64_add (st_src_offset dst) offset); iov_len := len |};
     rb_rma_iov := {| rma_addr := u64_add (st_dst_offset dst) offset; rma_len := len; rma_key := ar.2 |};
     rb_msg := {| msg_desc := msg_desc (rb_msg (ex_buf it)); msg_iov_count := msg_iov_count (rb_msg (ex_buf it));
                  msg_addr := addr; msg_context := msg_context (rb_msg (ex_buf it));
                  msg_data := msg_data (rb_msg (ex_buf it)) |} |} (ex_i_dst it))) it.

Definition efa_scatter_new (op : ScatterGroupWriteOp) (addrs : list Z) (buf : RmaBuffer) (context : Z) :
    outcome EfaScatterIter :=
  if negb (sg_dst_beg op <? sg_dst_end op)%nat then Panic "assertion failed: op.dst_beg < op.dst_end"
  else if negb (sg_dst_end op <=? length (sg_dsts op))%nat then
    Panic "assertion failed: op.dst_end <= op.dsts.len()"
  else if negb (length addrs =? length (sg_dsts op))%nat then
    Panic "assertion failed: addrs.len() == op.dsts.len()"
  else
    let '(imm, flags) := flags_imm (sg_imm_data op) in
    match efa_scatter_fill {|
      ex_addrs := addrs;
      ex_buf := {| rb_iov := rb_iov buf; rb_rma_iov := rb_rma_iov buf;
        rb_msg := {| msg_desc := sg_src_desc op; msg_iov_count := 1; msg_addr := FI_ADDR_UNSPEC;
                     msg_context := context; msg_data := imm |} |};
      ex_flags := flags; ex_domain_idx := sg_domain_idx op; ex_src_ptr := sg_src_ptr op;
      ex_dsts := sg_dsts op; ex_dst_beg := sg_dst_beg op; ex_dst_end := sg_dst_end op;
      ex_byte_shards := sg_byte_shards op; ex_byte_shard_idx := sg_byte_shard_idx op;
      ex_i_dst := sg_dst_beg op |} with
    | Done (_, it) => Done it
    | Panic why => Panic why
    | OutOfFuel => OutOfFuel
    end.

Definition efa_scatter_total_ops (it : EfaScatterIter) : nat := ex_dst_end it - ex_dst_beg it.

Definition efa_scatter_peek (it : EfaScatterIter) : option RmaBuffer * Z :=
  if (ex_i_dst it =? ex_dst_end it)%nat then (None, 0) else (Some (ex_buf it), ex_flags it).

Definition efa_scatter_advance : M EfaScatterIter unit := fun it =>
  if negb (ex_i_dst it <? ex_dst_end it)%nat then Panic "assertion failed: self.i_dst < self.dst_end"
  else
    let it := ex_set it (ex_buf it) (S (ex_i_dst it)) in
    if (ex_i_dst it <? ex_dst_end it)%nat then efa_scatter_fill it else Done (tt, it).

(** ** The common iterator *)
Inductive EfaWriteOpIter : Type :=
  | ESingle (it : EfaSingleIter)
  | EPaged (it : EfaPagedIter)
  | EScatter (it : EfaScatterIter).

Definition efa_total_ops (it : EfaWriteOpIter) : nat :=
  match it with
  | ESingle _ => 1
  | EPaged it => efa_paged_total_ops it
  | EScatter it => efa_scatter_total_ops it
  end.

Definition efa_peek (it : EfaWriteOpIter) : option RmaBuffer * Z :=
  match it with
  | ESingle it => efa_single_peek it
  | EPaged it => efa_paged_peek it
  | EScatter it => efa_scatter_peek it
  end.

Definition iter_map {A B} (f : A -> B) (o : outcome (unit * A)) : outcome (unit * B) :=
  match o with Done (_, a) => Done (tt, f a) | Panic why => Panic why | OutOfFuel => OutOfFuel end.

Definition efa_advance : M EfaWriteOpIter unit := fun it =>
  match it with
  | ESingle it => iter_map ESingle (efa_mark_done it)
  | EPaged it => iter_map EPaged (efa_paged_advance it)
  | EScatter it => iter_map EScatter (efa_scatter_advance it)
  end.

Definition efa_fill_send_op (op : SendOp) (context : Z) : fi_msg :=
  {| fm_iov := {| iov_base := so_ptr op; iov_len := so_len op |}; fm_desc := so_desc op;
     fm_addr := FI_ADDR_UNSPEC; fm_context := context |}.

Definition efa_fill_recv_op (op : RecvOp) (context : Z) : fi_msg :=
  {| fm_iov := {| iov_base := ro_ptr op; iov_len := ro_len op |}; fm_desc := ro_desc op;
     fm_addr := FI_ADDR_UNSPEC; fm_context := context |}.

(** ** What remains to be posted *)

(** The message of page [i] of [op]. *)
Definition page_msg (op : PagedWriteOp) (addr ctx : Z) (i : nat) : RmaBuffer := {|
  rb_iov := {| iov_base := u64_add (u64_add (pw_src_ptr op) (pw_src_offset op))
                 (u64_mul (pw_src_stride op) (default 0 (pw_src_page_indices op !! i)));
               iov_len := pw_length op |};
  rb_rma_iov := {| rma_addr := u64_mul (pw_dst_stride op) (default 0 (pw_dst_page_indices op !! i));
                   rma_len := pw_length op; rma_key := pw_dst_rkey op |};
  rb_msg := {| msg_desc := pw_src_desc op; msg_iov_count := 1; msg_addr := addr; msg_context := ctx;
               msg_data := (flags_imm (pw_imm_data op)).1 |};
|}.

(** The message of target [i] of [op]. *)
Definition target_msg (op : ScatterGroupWriteOp) (addrs : list Z) (ctx : Z) (i : nat) (dst : ScatterTarget) :
    RmaBuffer :=
  let len := as_u32 (st_length dst) / sg_byte_shards op in
  let offset := u32_mul len (sg_byte_shard_idx op) in {|
  rb_iov := {| iov_base := u64_add (sg_src_ptr op) (u64_add (st_src_offset dst) offset); iov_len := len |};
  rb_rma_iov := {| rma_addr := u64_add (st_dst_offset dst) offset; rma_len := len;
                   rma_key := from_option snd 0 (addr_rkey_list (st_dst_mr dst) !! sg_domain_idx op) |};
  rb_msg := {| msg_desc := sg_src_desc op; msg_iov_count := 1; msg_addr := default 0 (addrs !! i);
               msg_context := ctx; msg_data := (flags_imm (sg_imm_data op)).1 |};
|}.

(** [remains it l]: the iterator is valid and presents exactly the messages [l], each with its
    flags, before it ends. *)
Inductive remains : EfaWriteOpIter -> list (RmaBuffer * Z) -> Prop :=
  | remains_nil it : efa_peek it = (None, 0) -> remains it []
  | remains_cons it it' b fl l :
      efa_peek it = (Some b, fl) -> efa_advance it = Done (tt, it') -> remains it' l ->
      remains it ((b, fl) :: l).

Lemma remains_single it : es_done it = false -> remains (ESingle it) [(es_buf it, es_flags it)].
Proof.
  intros Hd. econstructor; [simpl; unfold efa_single_peek; by rewrite Hd|
    simpl; unfold efa_mark_done; by rewrite Hd|]. by constructor.
Qed.

(** A paged iterator at page [i] of [op], with its message filled in. *)
Definition paged_at (op : PagedWriteOp) (addr ctx : Z) (i : nat) (buf : RmaBuffer) : EfaPagedIter := {|
  ep_src_page_indices := pw_src_page_indices op; ep_dst_page_indices := pw_dst_page_indices op;
  ep_page_indices_beg := pw_page_indices_beg op; ep_page_indices_end := pw_page_indices_end op;
  ep_src_ptr := u64_add (pw_src_ptr op) (pw_src_offset op); ep_src_stride := pw_src_stride op;
  ep_dst_ptr := u64_add (pw_dst_ptr op) (pw_dst_offset op); ep_dst_stride := pw_dst_stride op;
  ep_buf := buf; ep_flags := (flags_imm (pw_imm_data op)).2; ep_i_page := i |}.

Definition efa_paged_ok (op : PagedWriteOp) : Prop :=
  (pw_page_indices_beg op < pw_page_indices_end op)%nat /\
  length (pw_src_page_indices op) = length (pw_dst_page_indices op) /\
  (pw_page_indices_end op <= length (pw_src_page_indices op))%nat.

Lemma paged_fill_run op addr ctx i buf :
  efa_paged_ok op -> (i < pw_page_indices_end op)%nat ->
  rma_len (rb_rma_iov buf) = pw_length op -> rma_key (rb_rma_iov buf) = pw_dst_rkey op ->
  iov_len (rb_iov buf) = pw_length op -> rb_msg buf = rb_msg (page_msg op addr ctx i) ->
  efa_paged_fill (paged_at op addr ctx i buf) = Done (tt, paged_at op addr ctx i (page_msg op addr ctx i)).
Proof.
  intros (_ & Hl & He) Hi H1 H2 H3 H4.
  destruct (lookup_lt_is_Some_2 (pw_src_page_indices op) i ltac:(lia)) as (a & Ha).
  destruct (lookup_lt_is_Some_2 (pw_dst_page_indices op) i ltac:(lia)) as (b & Hb).
  unfold efa_paged_fill, bind. cbn [paged_at ep_src_page_indices ep_dst_page_indices ep_i_page].
  rewrite Ha, Hb. cbn -[page_msg]. unfold ep_set, paged_at. cbn -[page_msg].
  rewrite H1, H2, H3, H4. unfold page_msg. by rewrite Ha, Hb.
Qed.

Lemma paged_advance_step op addr ctx i :
  (i < pw_page_indices_end op)%nat ->
  efa_paged_advance (paged_at op addr ctx i (page_msg op addr ctx i)) = (
  if (S i <? pw_page_indices_end op)%nat then efa_paged_fill (paged_at op addr ctx (S i) (page_msg op addr ctx i))
  else Done (tt, paged_at op addr ctx (S i) (page_msg op addr ctx i))).
Proof.
  intros Hi. unfold efa_paged_advance. cbn [paged_at ep_i_page ep_page_indices_end].
  by rewrite (proj2 (Nat.ltb_lt _ _) Hi).
Qed.

Lemma remains_paged_at op addr ctx n i :
  efa_paged_ok op -> (i + n = pw_page_indices_end op)%nat ->
  remains (EPaged (paged_at op addr ctx i (page_msg op addr ctx (if (n =? 0)%nat then pred i else i))))
    ((fun i => (page_msg op addr ctx i, (flags_imm (pw_imm_data op)).2)) <$> seq i n).
Proof.
  intros Hok. revert i. induction n as [|n IH]; intros i Hi.
  - constructor. simpl. unfold efa_paged_peek. cbn [paged_at ep_i_page ep_page_indices_end].
    by rewrite (proj2 (Nat.eqb_eq _ _)) by lia.
  - cbn [seq fmap list_fmap Nat.eqb]. econstructor; [| |apply (IH (S i)); lia].
    + simpl. unfold efa_paged_peek. cbn [paged_at ep_i_page ep_page_indices_end].
      by rewrite (proj2 (Nat.eqb_neq _ _)) by lia.
    + cbn [efa_advance]. rewrite paged_advance_step by lia. destruct n as [|n].
      * by rewrite (proj2 (Nat.ltb_ge _ _)) by lia.
      * rewrite (proj2 (Nat.ltb_lt _ _)) by lia. rewrite paged_fill_run; [done|done|lia|done..].
Qed.

Lemma efa_paged_new_remains op addr buf ctx :
  efa_paged_ok op ->
  exists it, efa_paged_new op addr buf ctx = Done it /\
    efa_paged_total_ops it = (pw_page_indices_end op - pw_page_indices_beg op)%nat /\
    remains (EPaged it) ((fun i => (page_msg op addr ctx i, (flags_imm (pw_imm_data op)).2)) <$>
      seq (pw_page_indices_beg op) (pw_page_indices_end op - pw_page_indices_beg op)).
Proof.
  intros Hok. pose proof Hok as (Hb & Hl & He).
  exists (paged_at op addr ctx (pw_page_indices_beg op) (page_msg op addr ctx (pw_page_indices_beg op))).
  split; [|split; [done|]].
  - unfold efa_paged_new.
    rewrite (proj2 (Nat.ltb_lt _ _) Hb), (proj2 (Nat.eqb_eq _ _) Hl), (proj2 (Nat.leb_le _ _) He). cbn [negb].
    destruct (flags_imm (pw_imm_data op)) as [imm flags] eqn:Hf.
    match goal with |- context [efa_paged_fill ?x] => set (it0 := x) end.
    replace it0 with (paged_at op addr ctx (pw_page_indices_beg op) (ep_buf it0))
      by (unfold it0, paged_at; by rewrite Hf).
    rewrite paged_fill_run; [done|done|lia|done..|].
    unfold it0; simpl. by rewrite Hf.
  - assert (exists n, pw_page_indices_end op - pw_page_indices_beg op = S n)%nat as (n & Hn) by
      (exists (pred (pw_page_indices_end op - pw_page_indices_beg op)); lia).
    rewrite Hn. apply (remains_paged_at op addr ctx (S n)); [done|lia].
Qed.

(** A scatter iterator at target [i] of [op]. *)
Definition scatter_at (op : ScatterGroupWriteOp) (addrs : list Z) (i : nat) (buf : RmaBuffer) :
    EfaScatterIter := {|
  ex_addrs := addrs; ex_buf := buf; ex_flags := (flags_imm (sg_imm_data op)).2;
  ex_domain_idx := sg_domain_idx op; ex_src_ptr := sg_src_ptr op; ex_dsts := sg_dsts op;
  ex_dst_beg := sg_dst_beg op; ex_dst_end := sg_dst_end op; ex_byte_shards := sg_byte_shards op;
  ex_byte_shard_idx := sg_byte_shard_idx op; ex_i_dst := i |}.

(** What the iterator needs of the operation: the asserted bounds, a key per target for this
    domain, and at least one shard. *)
Record efa_scatter_ok (op : ScatterGroupWriteOp) (addrs : list Z) : Prop := {
  eso_range : (sg_dst_beg op < sg_dst_end op <= length (sg_dsts op))%nat;
  eso_addrs : length addrs = length (sg_dsts op);
  eso_keys : Forall (fun dst => is_Some (addr_rkey_list (st_dst_mr dst) !! sg_domain_idx op)) (sg_dsts op);
  eso_shards : sg_byte_shards op <> 0;
}.

Definition blank_target : ScatterTarget :=
  {| st_dst_mr := {| mrd_ptr := 0; addr_rkey_list := [] |}; st_length := 0; st_src_offset := 0;
     st_dst_offset := 0 |}.

Definition target_msg_at (op : ScatterGroupWriteOp) (addrs : list Z) (ctx : Z) (i : nat) : RmaBuffer :=
  target_msg op addrs ctx i (default blank_target (sg_dsts op !! i)).

Lemma scatter_fill_run op addrs ctx i buf :
  efa_scatter_ok op addrs -> (i < sg_dst_end op)%nat ->
  msg_desc (rb_msg buf) = sg_src_desc op -> msg_iov_count (rb_msg buf) = 1%nat ->
  msg_context (rb_msg buf) = ctx -> msg_data (rb_msg buf) = (flags_imm (sg_imm_data op)).1 ->
  efa_scatter_fill (scatter_at op addrs i buf) =
    Done (tt, scatter_at op addrs i (target_msg_at op addrs ctx i)).
Proof.
  intros [Hr Ha Hk Hs] Hi H1 H2 H3 H4.
  destruct (lookup_lt_is_Some_2 (sg_dsts op) i ltac:(lia)) as (dst & Hd).
  destruct (lookup_lt_is_Some_2 addrs i ltac:(lia)) as (a & Haddr).
  pose proof (proj1 (Forall_lookup _ _) Hk i dst Hd) as ([da rk] & Hkey).
  unfold efa_scatter_fill, bind. cbn [scatter_at ex_dsts ex_i_dst ex_byte_shards ex_addrs ex_domain_idx].
  rewrite Hd. cbn [unwrap ret]. rewrite (proj2 (Z.eqb_neq _ _) Hs). cbn [negb assert_]. cbv [ret].
  rewrite Haddr. cbn [unwrap]. cbv [ret]. rewrite Hkey. cbn [unwrap]. cbv [ret].
  unfold ex_set, scatter_at, target_msg_at, target_msg. cbn -[Z.div wrapu as_u32 u32_mul u64_add].
  rewrite H1, H2, H3, H4, Hd, Haddr. cbn -[Z.div wrapu as_u32 u32_mul u64_add].
  by rewrite Hkey.
Qed.

Lemma scatter_advance_step op addrs ctx i :
  (i < sg_dst_end op)%nat ->
  efa_scatter_advance (scatter_at op addrs i (target_msg_at op addrs ctx i)) = (
  if (S i <? sg_dst_end op)%nat then efa_scatter_fill (scatter_at op addrs (S i) (target_msg_at op addrs ctx i))
  else Done (tt, scatter_at op addrs (S i) (target_msg_at op addrs ctx i))).
Proof.
  intros Hi. unfold efa_scatter_advance. cbn [scatter_at ex_i_dst ex_dst_end].
  by rewrite (proj2 (Nat.ltb_lt _ _) Hi).
Qed.

Lemma remains_scatter_at op addrs ctx n i :
  efa_scatter_ok op addrs -> (i + n = sg_dst_end op)%nat ->
  remains (EScatter (scatter_at op addrs i (target_msg_at op addrs ctx (if (n =? 0)%nat then pred i else i))))
    ((fun i => (target_msg_at op addrs ctx i, (flags_imm (sg_imm_data op)).2)) <$> seq i n).
Proof.
  intros Hok. revert i. induction n as [|n IH]; intros i Hi.
  - constructor. simpl. unfold efa_scatter_peek. cbn [scatter_at ex_i_dst ex_dst_end].
    by rewrite (proj2 (Nat.eqb_eq _ _)) by lia.
  - cbn [seq fmap list_fmap Nat.eqb]. econstructor; [| |apply (IH (S i)); lia].
    + simpl. unfold efa_scatter_peek. cbn [scatter_at ex_i_dst ex_dst_end].
      by rewrite (proj2 (Nat.eqb_neq _ _)) by lia.
    + cbn [efa_advance]. rewrite scatter_advance_step by lia. destruct n as [|n].
      * by rewrite (proj2 (Nat.ltb_ge _ _)) by lia.
      * rewrite (proj2 (Nat.ltb_lt _ _)) by lia. by rewrite (scatter_fill_run op addrs ctx) by (done || lia).
Qed.

Lemma efa_scatter_new_remains op addrs buf ctx :
  efa_scatter_ok op addrs ->
  exists it, efa_scatter_new op addrs buf ctx = Done it /\
    efa_scatter_total_ops it = (sg_dst_end op - sg_dst_beg op)%nat /\
    remains (EScatter it) ((fun i => (target_msg_at op addrs ctx i, (flags_imm (sg_imm_data op)).2)) <$>
      seq (sg_dst_beg op) (sg_dst_end op - sg_dst_beg op)).
Proof.
  intros Hok. pose proof Hok as [Hr Ha _ _].
  exists (scatter_at op addrs (sg_dst_beg op) (target_msg_at op addrs ctx (sg_dst_beg op))).
  split; [|split; [done|]].
  - unfold efa_scatter_new.
    rewrite (proj2 (Nat.ltb_lt _ _)), (proj2 (Nat.leb_le _ _)), (proj2 (Nat.eqb_eq _ _) Ha) by lia. cbn [negb].
    destruct (flags_imm (sg_imm_data op)) as [imm flags] eqn:Hf.
    match goal with |- context [efa_scatter_fill ?x] => set (it0 := x) end.
    replace it0 with (scatter_at op addrs (sg_dst_beg op) (ex_buf it0))
      by (unfold it0, scatter_at; by rewrite Hf).
    rewrite (scatter_fill_run op addrs ctx); [done|done|lia|done..|].
    unfold it0; simpl. by rewrite Hf.
  - assert (exists n, sg_dst_end op - sg_dst_beg op = S n)%nat as (n & Hn) by
      (exists (pred (sg_dst_end op - sg_dst_beg op)); lia).
    rewrite Hn. apply (remains_scatter_at op addrs ctx (S n)); [done|lia].
Qed.
