(* ===== verification/EfaDomain.v ===== *)
(** * The libfabric domain

    [fabric-lib/src/efa/efa_domain.rs] and [efa_mr.rs]: one libfabric endpoint.  Remote addresses
    are resolved through the address vector and cached; writes are posted one message at a time
    and tracked by heap-allocated contexts whose address is the operation context of their
    messages.

    As in the verbs domain, contexts live in a map from slots of their [ObjectPool] (reading a
    freed or uninitialised slot is a panic of the model) and the address of the context in slot
    [a] is [a + 1].  The message buffer of a context is part of its iterator: the pool gives
    every live context a slot of its own.  libfabric and the CUDA runtime are the parameter
    [EfaHw]. *)
From stdpp Require Import prelude gmap strings list.
From S2P Require Import Prelude Api ImmCount Utils Provider EfaRdmaOp.
Local Open Scope Z_scope.

(** Constants of libfabric's [rdma/fabric.h] and [rdma/fi_errno.h]. *)
Definition FI_READ : Z := Z.shiftl 1 8.
Definition FI_WRITE : Z := Z.shiftl 1 9.
Definition FI_RECV : Z := Z.shiftl 1 10.
Definition FI_SEND : Z := Z.shiftl 1 11.
Definition FI_REMOTE_READ : Z := Z.shiftl 1 12.
Definition FI_REMOTE_WRITE : Z := Z.shiftl 1 13.
Definition FI_MR_DMABUF : Z := Z.shiftl 1 40.
Definition FI_EAGAIN : Z := 11.
Definition FI_EAVAIL : Z := 259.
Definition EAGAIN : Z := - FI_EAGAIN.

Definition READ_COUNT : nat := 16.

(** ** Foreign data *)

(** A registered region; [mr_mem_desc] is the address of its field [mem_desc]. *)
Record fid_mr := { mr_fid : Z; mr_key : Z; mr_mem_desc : Z }.

Inductive fi_hmem_iface : Type := FI_HMEM_SYSTEM | FI_HMEM_CUDA.
Record fi_mr_dmabuf := { db_fd : Z; db_len : Z; db_base_addr : Z }.

(** The union of [fi_mr_attr] holds one of the two pointers. *)
Inductive mr_buf : Type := mr_iov (iov : iovec) | mr_dmabuf (buf : fi_mr_dmabuf).
Record fi_mr_attr := {
  ma_access : Z; ma_iface : fi_hmem_iface; ma_device_cuda : Z; ma_buf : mr_buf;
}.

Record fi_cq_data_entry := { cqe_op_context : Z; cqe_flags : Z; cqe_len : Z; cqe_data : Z }.
Record fi_cq_err_entry := {
  ce_op_context : Z; ce_flags : Z; ce_prov_errno : Z; ce_err_data : Z;
}.

(** The arguments of [fi_writedata] after the endpoint. *)
Record writedata := {
  wd_buf : Z; wd_len : Z; wd_desc : Z; wd_data : Z; wd_dest_addr : Z; wd_addr : Z; wd_key : Z;
  wd_context : Z;
}.

(** The calls that open an object return the code and the pointer they wrote, [None] for null;
    [fi_getname] is given the size of the buffer and returns the code, the buffer and the
    length; [fi_av_insert] returns the code and the handle; [mem_desc_at] reads the word a
    descriptor points to. *)
Class EfaHw (H : Type) := {
  fi_fabric : H -> Z * option Z * H;
  fi_domain : Z -> H -> Z * option Z * H;
  fi_cq_open : Z -> H -> Z * option Z * H;
  fi_av_open : Z -> H -> Z * option Z * H;
  fi_endpoint : Z -> H -> Z * option Z * H;
  fi_ep_bind : Z -> Z -> Z -> H -> Z * H;
  fi_setopt_cuda_api_permitted : Z -> bool -> H -> Z * H;
  fi_enable : Z -> H -> Z * H;
  fi_getname : Z -> nat -> H -> Z * (list Z * nat) * H;
  fi_close : Z -> H -> H;
  fi_av_insert : Z -> list Z -> H -> Z * Z * H;
  fi_mr_regattr : Z -> fi_mr_attr -> Z -> H -> Z * option fid_mr * H;
  fi_mr_bind : Z -> Z -> H -> Z * H;
  fi_recvmsg : Z -> fi_msg -> H -> Z * H;
  fi_sendmsg : Z -> fi_msg -> H -> Z * H;
  fi_writedata : Z -> writedata -> H -> Z * H;
  fi_writemsg : Z -> RmaBuffer -> Z -> H -> Z * H;
  fi_cq_read : Z -> nat -> H -> Z * list fi_cq_data_entry * H;
  fi_cq_readerr : Z -> H -> Z * fi_cq_err_entry * H;
  fi_cq_strerror : Z -> Z -> Z -> H -> string;
  mem_desc_at : Z -> H -> Z;
  cudaGetDevice : H -> option Z * H;
  cudaSetDevice : Z -> H -> H;
}.

(** ** The domain's state *)
Record RecvOpContext := { rc_transfer_id : TransferId; rc_op : RecvOp }.
Record SendOpContext := { sc_transfer_id : TransferId; sc_dest_addr : Z; sc_op : SendOp }.

Record WriteOpContext := {
  transfer_id : TransferId;
  rdma_op_iter : EfaWriteOpIter;
  msg_buf : nat;
  ctx_ep : Z;
  ctx_total_ops : nat;
  cnt_posted_ops : nat;
  cnt_finished_ops : nat;
  in_queue : bool;
  bad : bool;
}.

(** The fields that do not change after [open]. *)
Record EfaConf := {
  ec_name : string; ec_link_speed : Z; ec_fabric : Z; ec_domain : Z; ec_ep : Z; ec_cq : Z;
  ec_av : Z; ec_addr : DomainAddress;
}.

Section Domain.
Context {H : Type} `{EfaHw H}.

Record EfaDomain := {
  conf : EfaConf;
  ed_hw : H;
  peer_addr_map : gmap DomainAddress Z;
  ed_peer_groups : gmap Z (list Z);
  local_mr_map : gmap Z fid_mr;
  objpool_write_op : ObjectPool;
  objpool_msg : ObjectPool;
  write_ctxs : gmap nat WriteOpContext;
  recv_ops : list RecvOpContext;
  send_ops : list SendOpContext;
  ed_write_ops : list nat;
  completions : list DomainCompletionEntry;
}.

Definition set_hw (v : H) (d : EfaDomain) : EfaDomain :=
  Build_EfaDomain (conf d) v (peer_addr_map d) (ed_peer_groups d) (local_mr_map d) (objpool_write_op d) (objpool_msg d) (write_ctxs d) (recv_ops d) (send_ops d) (ed_write_ops d) (completions d).
Definition set_peer_addr_map (v : gmap DomainAddress Z) (d : EfaDomain) : EfaDomain :=
  Build_EfaDomain (conf d) (ed_hw d) v (ed_peer_groups d) (local_mr_map d) (objpool_write_op d) (objpool_msg d) (write_ctxs d) (recv_ops d) (send_ops d) (ed_write_ops d) (completions d).
Definition set_peer_groups (v : gmap Z (list Z)) (d : EfaDomain) : EfaDomain :=
  Build_EfaDomain (conf d) (ed_hw d) (peer_addr_map d) v (local_mr_map d) (objpool_write_op d) (objpool_msg d) (write_ctxs d) (recv_ops d) (send_ops d) (ed_write_ops d) (completions d).
Definition set_local_mr_map (v : gmap Z fid_mr) (d : EfaDomain) : EfaDomain :=
  Build_EfaDomain (conf d) (ed_hw d) (peer_addr_map d) (ed_peer_groups d) v (objpool_write_op d) (objpool_msg d) (write_ctxs d) (recv_ops d) (send_ops d) (ed_write_ops d) (completions d).
Definition set_objpool_write_op (v : ObjectPool) (d : EfaDomain) : EfaDomain :=
  Build_EfaDomain (conf d) (ed_hw d) (peer_addr_map d) (ed_peer_groups d) (local_mr_map d) v (objpool_msg d) (write_ctxs d) (recv_ops d) (send_ops d) (ed_write_ops d) (completions d).
Definition set_objpool_msg (v : ObjectPool) (d : EfaDomain) : EfaDomain :=
  Build_EfaDomain (conf d) (ed_hw d) (peer_addr_map d) (ed_peer_groups d) (local_mr_map d) (objpool_write_op d) v (write_ctxs d) (recv_ops d) (send_ops d) (ed_write_ops d) (completions d).
Definition set_write_ctxs (v : gmap nat WriteOpContext) (d : EfaDomain) : EfaDomain :=
  Build_EfaDomain (conf d) (ed_hw d) (peer_addr_map d) (ed_peer_groups d) (local_mr_map d) (objpool_write_op d) (objpool_msg d) v (recv_ops d) (send_ops d) (ed_write_ops d) (completions d).
Definition set_recv_ops (v : list RecvOpContext) (d : EfaDomain) : EfaDomain :=
  Build_EfaDomain (conf d) (ed_hw d) (peer_addr_map d) (ed_peer_groups d) (local_mr_map d) (objpool_write_op d) (objpool_msg d) (write_ctxs d) v (send_ops d) (ed_write_ops d) (completions d).
Definition set_send_ops (v : list SendOpContext) (d : EfaDomain) : EfaDomain :=
  Build_EfaDomain (conf d) (ed_hw d) (peer_addr_map d) (ed_peer_groups d) (local_mr_map d) (objpool_write_op d) (objpool_msg d) (write_ctxs d) (recv_ops d) v (ed_write_ops d) (completions d).
Definition set_write_ops (v : list nat) (d : EfaDomain) : EfaDomain :=
  Build_EfaDomain (conf d) (ed_hw d) (peer_addr_map d) (ed_peer_groups d) (local_mr_map d) (objpool_write_op d) (objpool_msg d) (write_ctxs d) (recv_ops d) (send_ops d) v (completions d).
Definition set_completions (v : list DomainCompletionEntry) (d : EfaDomain) : EfaDomain :=
  Build_EfaDomain (conf d) (ed_hw d) (peer_addr_map d) (ed_peer_groups d) (local_mr_map d) (objpool_write_op d) (objpool_msg d) (write_ctxs d) (recv_ops d) (send_ops d) (ed_write_ops d) v.

(** ** Small helpers *)
Definition dev {A} (m : M H A) : M EfaDomain A := on_state ed_hw set_hw m.

Definition push_completion (c : DomainCompletionEntry) : M EfaDomain unit :=
  modify (fun d => set_completions (completions d ++ [c]) d).

(** The address of a context as an operation context, and back ([as_mut] on a raw pointer). *)
Definition rawctx (a : nat) : Z := Z.of_nat a + 1.
Definition ctx_of_ptr (p : Z) : option nat := if p =? 0 then None else Some (Z.to_nat (p - 1)).

Definition read_ctx (a : nat) : M EfaDomain WriteOpContext :=
  let! o := gets (fun d => write_ctxs d !! a) in unwrap o "use of a freed WriteOpContext".
Definition write_ctx (a : nat) (c : WriteOpContext) : M EfaDomain unit :=
  modify (fun d => set_write_ctxs (<[a := c]> (write_ctxs d)) d).

Definition ctx_set (c : WriteOpContext) (it : EfaWriteOpIter) (posted finished : nat) (q b : bool) :
    WriteOpContext :=
  {| transfer_id := transfer_id c; rdma_op_iter := it; msg_buf := msg_buf c; ctx_ep := ctx_ep c;
     ctx_total_ops := ctx_total_ops c; cnt_posted_ops := posted; cnt_finished_ops := finished;
     in_queue := q; bad := b |}.

(** [if ret != 0 { return Err(LibfabricError::new(ret, what)) }]. *)
Definition check_fi (f : H -> Z * H) (what : string) : M H (res unit) :=
  let! r := call f in
  ret (if r =? 0 then Ok tt else Err (Libfabric r what)).

(** ** Opening *)

(** Opening an object and deferring its [fi_close]: the deferred action is cancelled when the
    rest of [open] succeeds and runs when it returns an error. *)
Definition with_fid {A} (create : H -> Z * option Z * H) (what : string) (k : Z -> M H (res A)) :
    M H (res A) :=
  let! r := call create in
  match r.2 with
  | None => ret (Err (Libfabric r.1 what))
  | Some p =>
      let! v := k p in
      let defer := match v with Ok _ => defer_cancel defer_new | Err _ => defer_new end in
      defer_drop (modify (fi_close p)) defer ;;;
      ret v
  end.

(** The second of two checks of the code returned by [fi_ep_bind av] is the one left of a
    disabled call; it cannot fail. *)
Definition open_conf (name : string) (link_speed : Z) : M H (res EfaConf) :=
  with_fid fi_fabric "fi_fabric" (fun fabric =>
  with_fid (fi_domain fabric) "fi_domain" (fun domain =>
  with_fid (fi_cq_open domain) "fi_cq_open" (fun cq =>
  with_fid (fi_av_open domain) "fi_av_open" (fun av =>
  with_fid (fi_endpoint domain) "fi_endpoint" (fun ep =>
    let? _ := check_fi (fi_ep_bind ep cq (Z.lor FI_SEND FI_RECV)) "fi_ep_bind cq" in
    let? _ := check_fi (fi_ep_bind ep av 0) "fi_ep_bind av" in
    let? _ := check_fi (fi_setopt_cuda_api_permitted ep false)
                "fi_setopt FI_OPT_CUDA_API_PERMITTED false" in
    let? _ := check_fi (fi_enable ep) "fi_enable" in
    let! r := call (fi_getname ep 128) in
    let '(rc, (addrbuf, addrlen)) := r in
    if negb (rc =? 0) then ret (Err (Libfabric rc "fi_getname"))
    else
      assert_ (addrlen <=? 128)%nat "range end index out of range for slice of length 128" ;;;
      ret (Ok {| ec_name := name; ec_link_speed := link_speed; ec_fabric := fabric;
                 ec_domain := domain; ec_ep := ep; ec_cq := cq; ec_av := av;
                 ec_addr := {| addr_bytes := take addrlen addrbuf |} |})))))).

Definition new_pool : ObjectPool :=
  {| op_chunks := 0; op_chunk_size := 1024; next_in_last := 0; op_free_list := [] |}.

Definition new_domain (cf : EfaConf) (h : H) : EfaDomain := {|
  conf := cf; ed_hw := h; peer_addr_map := ∅; ed_peer_groups := ∅; local_mr_map := ∅;
  objpool_write_op := new_pool; objpool_msg := new_pool; write_ctxs := ∅; recv_ops := [];
  send_ops := []; ed_write_ops := []; completions := [] |}.

(** [Drop]: every region, then the objects in the reverse of the order they were opened in. *)
Definition efa_drop (d : EfaDomain) : M H unit :=
  for_each (map_to_list (local_mr_map d)) (fun pm => modify (fi_close (mr_fid pm.2))) ;;;
  modify (fi_close (ec_ep (conf d))) ;;;
  modify (fi_close (ec_av (conf d))) ;;;
  modify (fi_close (ec_cq (conf d))) ;;;
  modify (fi_close (ec_domain (conf d))) ;;;
  modify (fi_close (ec_fabric (conf d))).

(** ** Remote addresses *)
Definition get_or_add_remote_addr (peer_addr : DomainAddress) : M EfaDomain (res Z) := fun d =>
  match peer_addr_map d !! peer_addr with
  | Some a => Done (Ok a, d)
  | None =>
      (let! r := dev (call (fi_av_insert (ec_av (conf d)) (addr_bytes peer_addr))) in
       if r.1 =? 1 then
         modify (fun d => set_peer_addr_map (<[peer_addr := r.2]> (peer_addr_map d)) d) ;;;
         ret (Ok r.2)
       else ret (Err (Libfabric r.1 "fi_av_insert"))) d
  end.

(** ** Memory regions *)
Definition mr_attr_of (region : MemoryRegion) (allow_remote : bool) : fi_mr_attr :=
  let access := Z.lor (Z.lor FI_SEND FI_RECV) (Z.lor FI_WRITE FI_READ) in
  let access := if allow_remote then Z.lor access (Z.lor FI_REMOTE_WRITE FI_REMOTE_READ) else access in
  let iov := {| iov_base := mr_ptr region; iov_len := mr_len region |} in
  match mr_mapping region with
  | MapHost => {| ma_access := access; ma_iface := FI_HMEM_SYSTEM; ma_device_cuda := 0; ma_buf := mr_iov iov |}
  | MapDevice device_id None =>
      {| ma_access := access; ma_iface := FI_HMEM_CUDA; ma_device_cuda := device_id; ma_buf := mr_iov iov |}
  | MapDevice device_id (Some fd) =>
      {| ma_access := access; ma_iface := FI_HMEM_CUDA; ma_device_cuda := device_id;
         ma_buf := mr_dmabuf {| db_fd := fd; db_len := mr_len region; db_base_addr := mr_ptr region |} |}
  end.

Definition mr_flags_of (region : MemoryRegion) : Z :=
  match mr_mapping region with MapDevice _ (Some _) => FI_MR_DMABUF | _ => 0 end.

Definition register_mr (region : MemoryRegion) (allow_remote : bool) :
    M EfaDomain (res MemoryRegionRemoteKey) := fun d =>
  match local_mr_map d !! mr_ptr region with
  | Some mr => Done (Ok (mr_key mr), d)
  | None =>
      (let! dv := dev (call cudaGetDevice) in
       let original_cuda_device := default 0 dv in
       match mr_mapping region with
       | MapDevice device_id None =>
           if negb (original_cuda_device =? device_id) then dev (modify (cudaSetDevice device_id)) else ret tt
       | _ => ret tt
       end ;;;
       let! r := dev (call (fi_mr_regattr (ec_domain (conf d)) (mr_attr_of region allow_remote)
                              (mr_flags_of region))) in
       match r.2 with
       | None => ret (Err (Libfabric r.1 "fi_mr_regattr"))
       | Some mr =>
           let? _ := dev (check_fi (fi_mr_bind (mr_fid mr) (ec_ep (conf d))) "fi_mr_bind") in
           let? _ := dev (check_fi (fi_enable (mr_fid mr)) "fi_mr_enable") in
           modify (fun d => set_local_mr_map (<[mr_ptr region := mr]> (local_mr_map d)) d) ;;;
           dev (modify (cudaSetDevice original_cuda_device)) ;;;
           ret (Ok (mr_key mr))
       end) d
  end.

Definition ed_unregister_mr (ptr : Z) : M EfaDomain unit := fun d =>
  match local_mr_map d !! ptr with
  | Some mr =>
      (modify (fun d => set_local_mr_map (delete ptr (local_mr_map d)) d) ;;;
       dev (modify (fi_close (mr_fid mr)))) d
  | None => Done (tt, d)
  end.

Definition ed_get_mem_desc (ptr : Z) (d : EfaDomain) : res MemoryRegionLocalDescriptor :=
  match local_mr_map d !! ptr with
  | None => Err (Custom "Local MR not found")
  | Some mr => Ok (mr_mem_desc mr)
  end.

(** ** Receives and sends *)
Fixpoint progress_recv_loop (fuel : nat) : M EfaDomain unit := fun d =>
  match recv_ops d with
  | [] => Done (tt, d)
  | ctx :: rest =>
      match fuel with
      | O => OutOfFuel
      | S fuel =>
          (let! r := dev (call (fi_recvmsg (ec_ep (conf d)) (efa_fill_recv_op (rc_op ctx) (rc_transfer_id ctx)))) in
           if r =? 0 then modify (set_recv_ops rest) ;;; progress_recv_loop fuel
           else if r =? EAGAIN then ret tt
           else panic "fi_recvmsg returned undocumented error") d
      end
  end.

Definition progress_rdma_recv_ops : M EfaDomain unit := fun d =>
  progress_recv_loop (length (recv_ops d)) d.

(** Setting the field [addr] of a message. *)
Definition set_msg_addr (m : fi_msg) (a : Z) : fi_msg :=
  {| fm_iov := fm_iov m; fm_desc := fm_desc m; fm_addr := a; fm_context := fm_context m |}.

Fixpoint progress_send_loop (fuel : nat) : M EfaDomain unit := fun d =>
  match send_ops d with
  | [] => Done (tt, d)
  | ctx :: rest =>
      match fuel with
      | O => OutOfFuel
      | S fuel =>
          (let msg := set_msg_addr (efa_fill_send_op (sc_op ctx) (sc_transfer_id ctx)) (sc_dest_addr ctx) in
           let! r := dev (call (fi_sendmsg (ec_ep (conf d)) msg)) in
           if r =? 0 then modify (set_send_ops rest) ;;; progress_send_loop fuel
           else if r =? EAGAIN then ret tt
           else panic "fi_sendmsg returned undocumented error") d
      end
  end.

Definition progress_rdma_send_ops : M EfaDomain unit := fun d =>
  progress_send_loop (length (send_ops d)) d.

(** ** Posting writes *)
Definition writedata_of (b : RmaBuffer) (desc : Z) (buf len : Z) : writedata :=
  {| wd_buf := buf; wd_len := len; wd_desc := desc; wd_data := msg_data (rb_msg b);
     wd_dest_addr := msg_addr (rb_msg b); wd_addr := rma_addr (rb_rma_iov b);
     wd_key := rma_key (rb_rma_iov b); wd_context := msg_context (rb_msg b) |}.

(** A message with an immediate is posted with [fi_writedata], any other with [fi_writemsg]. *)
Definition post_msg (ep : Z) (b : RmaBuffer) (flags : Z) : M H Z :=
  if negb (flags =? 0) then
    let! desc := gets (fun h => if msg_desc (rb_msg b) =? 0 then 0 else mem_desc_at (msg_desc (rb_msg b)) h) in
    if (msg_iov_count (rb_msg b) =? 0)%nat then call (fi_writedata ep (writedata_of b desc 0 0))
    else if negb (msg_iov_count (rb_msg b) =? 1)%nat then panic "Unsupported! iov_count"
    else call (fi_writedata ep (writedata_of b desc (iov_base (rb_iov b)) (iov_len (rb_iov b))))
  else call (fi_writemsg ep b flags).

(** The loop of [progress_rdma_write_op_context]: every round that continues has posted one of
    at most [max_submit] messages, so [max_submit] rounds of fuel are enough. *)
Fixpoint post_loop (fuel max_submit cnt_submits : nat) (c : WriteOpContext) : M H WriteOpContext :=
  match efa_peek (rdma_op_iter c) with
  | (None, _) => ret c
  | (Some msg, flags) =>
      match fuel with
      | O => fun _ => OutOfFuel
      | S fuel =>
          let! r := post_msg (ctx_ep c) msg flags in
          if r =? 0 then
            let! it := lift (out_map snd (efa_advance (rdma_op_iter c))) in
            let c := ctx_set c it (S (cnt_posted_ops c)) (cnt_finished_ops c) (in_queue c) (bad c) in
            if (max_submit <=? S cnt_submits)%nat then ret c
            else post_loop fuel max_submit (S cnt_submits) c
          else if r =? EAGAIN then ret c
          else panic (if flags =? 0 then "fi_writemsg returned undocumented error"
                      else "fi_writedata returned undocumented error")
      end
  end.

Definition progress_rdma_write_op_context (a : nat) (max_submit : nat) : M EfaDomain unit :=
  let! c := read_ctx a in
  if bad c then ret tt
  else
    let! c := dev (post_loop max_submit max_submit 0 c) in
    write_ctx a c.

(** What the allocated buffer holds before it is written. *)
Definition blank_buffer : RmaBuffer := {|
  rb_iov := {| iov_base := 0; iov_len := 0 |};
  rb_rma_iov := {| rma_addr := 0; rma_len := 0; rma_key := 0 |};
  rb_msg := {| msg_desc := 0; msg_iov_count := 0; msg_addr := 0; msg_context := 0; msg_data := 0 |} |}.

Definition do_submit_write (tid : TransferId)
    (construct_rdma_op_iter : Z -> RmaBuffer -> outcome EfaWriteOpIter) : M EfaDomain unit :=
  let! a := on_state objpool_write_op set_objpool_write_op alloc_uninit in
  let! b := on_state objpool_msg set_objpool_msg alloc_uninit in
  let! it := lift (construct_rdma_op_iter (rawctx a) blank_buffer) in
  let! ep := gets (fun d => ec_ep (conf d)) in
  write_ctx a {| transfer_id := tid; rdma_op_iter := it; msg_buf := b; ctx_ep := ep;
                 ctx_total_ops := efa_total_ops it; cnt_posted_ops := 0; cnt_finished_ops := 0;
                 in_queue := false; bad := false |} ;;;
  progress_rdma_write_op_context a 1 ;;;
  let! c := read_ctx a in
  if negb (cnt_posted_ops c =? ctx_total_ops c)%nat then
    modify (fun d => set_write_ops (ed_write_ops d ++ [a]) d) ;;;
    write_ctx a (ctx_set c (rdma_op_iter c) (cnt_posted_ops c) (cnt_finished_ops c) true (bad c))
  else ret tt.

Definition do_submit_group_write (tid : TransferId) (addrs : list Z) (op : GroupWriteOp) : M EfaDomain unit :=
  do_submit_write tid (fun ctx buf =>
    match op with GScatter op => out_map EScatter (efa_scatter_new op addrs buf ctx) end).

Definition maybe_drop_write_op_context (a : nat) : M EfaDomain unit :=
  let! c := read_ctx a in
  if negb (cnt_finished_ops c =? cnt_posted_ops c)%nat then ret tt
  else if in_queue c then ret tt
  else
    on_state objpool_msg set_objpool_msg (free_and_drop (msg_buf c)) ;;;
    modify (fun d => set_write_ctxs (delete a (write_ctxs d)) d) ;;;
    on_state objpool_write_op set_objpool_write_op (free_and_drop a).

(** Every round removes the head of the queue, so its length is enough fuel. *)
Fixpoint progress_write_loop (fuel : nat) : M EfaDomain unit := fun d =>
  match ed_write_ops d with
  | [] => Done (tt, d)
  | a :: rest =>
      match fuel with
      | O => OutOfFuel
      | S fuel =>
          (let! c := read_ctx a in
           assert_ (cnt_finished_ops c <=? cnt_posted_ops c)%nat
             "Invariant: context in queue should have more ops to post" ;;;
           if bad c then
             write_ctx a (ctx_set c (rdma_op_iter c) (cnt_posted_ops c) (cnt_finished_ops c) false true) ;;;
             modify (set_write_ops rest) ;;;
             maybe_drop_write_op_context a ;;;
             progress_write_loop fuel
           else
             progress_rdma_write_op_context a 32 ;;;
             let! c := read_ctx a in
             if negb (cnt_posted_ops c =? ctx_total_ops c)%nat then ret tt
             else modify (set_write_ops rest) ;;; progress_write_loop fuel) d
      end
  end.

Definition progress_rdma_write_ops : M EfaDomain unit := fun d =>
  progress_write_loop (length (ed_write_ops d)) d.

Definition progress_ops : M EfaDomain unit :=
  progress_rdma_recv_ops ;;; progress_rdma_send_ops ;;; progress_rdma_write_ops.

(** ** Completions *)
Definition on_ed {A} (m : M EfaDomain A) : M (Shared * EfaDomain) A :=
  on_state snd (fun d s => (s.1, d)) m.
Definition on_imm {A} (m : M Shared A) : M (Shared * EfaDomain) A :=
  on_state fst (fun sh s => (sh, s.2)) m.

Definition has_flag (flags f : Z) : bool := negb (Z.land flags f =? 0).

Definition handle_write_cqe (op_context : Z) : M EfaDomain (option DomainCompletionEntry) :=
  match ctx_of_ptr op_context with
  | None => ret None
  | Some a =>
      let! c := read_ctx a in
      write_ctx a (ctx_set c (rdma_op_iter c) (cnt_posted_ops c) (S (cnt_finished_ops c))
        (in_queue c) (bad c)) ;;;
      if (S (cnt_finished_ops c) <? ctx_total_ops c)%nat then ret None
      else
        maybe_drop_write_op_context a ;;;
        ret (Some (DcTransfer (transfer_id c)))
  end.

Definition handle_cqe (cqe : fi_cq_data_entry) : M (Shared * EfaDomain) (option DomainCompletionEntry) :=
  if has_flag (cqe_flags cqe) FI_REMOTE_WRITE then
    let imm := as_u32 (cqe_data cqe) in
    let! st := on_imm (inc imm) in
    ret (match st with
         | Vacant => Some (DcImmData imm)
         | NotReached => None
         | Reached => Some (DcImmCountReached imm)
         end)
  else if has_flag (cqe_flags cqe) FI_WRITE then on_ed (handle_write_cqe (cqe_op_context cqe))
  else if has_flag (cqe_flags cqe) FI_SEND then ret (Some (DcSend (cqe_op_context cqe)))
  else if has_flag (cqe_flags cqe) FI_RECV then ret (Some (DcRecv (cqe_op_context cqe) (cqe_len cqe)))
  else ret None.

Definition handle_and_push (cqe : fi_cq_data_entry) : M (Shared * EfaDomain) unit :=
  let! c := handle_cqe cqe in
  match c with Some c => on_ed (push_completion c) | None => ret tt end.

(** The transfer an error entry is reported for, if any. *)
Definition error_transfer (e : fi_cq_err_entry) : M EfaDomain (option TransferId) :=
  if has_flag (ce_flags e) FI_SEND then ret (Some (ce_op_context e))
  else if has_flag (ce_flags e) FI_RECV then ret (Some (ce_op_context e))
  else if has_flag (ce_flags e) FI_WRITE then
    match ctx_of_ptr (ce_op_context e) with
    | None => ret None
    | Some a =>
        let! c := read_ctx a in
        let r := if bad c then None else Some (transfer_id c) in
        write_ctx a (ctx_set c (rdma_op_iter c) (cnt_posted_ops c) (S (cnt_finished_ops c))
          (in_queue c) true) ;;;
        maybe_drop_write_op_context a ;;;
        ret r
    end
  else ret None.

Definition handle_error_entry (e : fi_cq_err_entry) : M EfaDomain unit := fun d =>
  let errmsg := fi_cq_strerror (ec_cq (conf d)) (ce_prov_errno e) (ce_err_data e) (ed_hw d) in
  (let! tid := error_transfer e in
   match tid with
   | Some tid => push_completion (DcError tid (CompletionError errmsg))
   | None => ret tt
   end) d.

(** The device decides how many batches it delivers before the queue is empty; [fuel] bounds
    them. *)
Fixpoint poll_cq (fuel : nat) : M (Shared * EfaDomain) unit :=
  match fuel with
  | O => fun _ => OutOfFuel
  | S fuel =>
      let! cq := gets (fun s => ec_cq (conf s.2)) in
      let! r := on_ed (dev (call (fi_cq_read cq READ_COUNT))) in
      if 0 <? r.1 then
        for_each (take (Z.to_nat r.1) r.2) handle_and_push ;;;
        poll_cq fuel
      else if r.1 =? - FI_EAVAIL then
        let! e := on_ed (dev (call (fi_cq_readerr cq))) in
        if 0 <? e.1 then on_ed (handle_error_entry e.2)
        else panic "fi_cq_readerr returned undocumented error"
      else if r.1 =? - FI_EAGAIN then ret tt
      else panic "fi_cq_read returned undocumented error"
  end.

(** ** The provider's methods *)

(** [format!("Failed to resolve remote address: {}", addr)]. *)
Definition resolve_error (a : DomainAddress) : FabricLibError :=
  CompletionError ("Failed to resolve remote address: " ++
    foldr (fun z s => String (Ascii.ascii_of_nat (Z.to_nat z)) s) EmptyString (address_display a)).

Definition ed_submit_recv (tid : TransferId) (op : RecvOp) : M EfaDomain unit :=
  modify (fun d => set_recv_ops (recv_ops d ++ [{| rc_transfer_id := tid; rc_op := op |}]) d).

Definition ed_submit_send (tid : TransferId) (dest_addr : DomainAddress) (op : SendOp) : M EfaDomain unit :=
  let! r := get_or_add_remote_addr dest_addr in
  match r with
  | Err _ => push_completion (DcError tid (resolve_error dest_addr))
  | Ok a =>
      modify (fun d => set_send_ops
        (send_ops d ++ [{| sc_transfer_id := tid; sc_dest_addr := a; sc_op := op |}]) d)
  end.

Definition construct_write (op : WriteOp) (addr ctx : Z) (buf : RmaBuffer) : outcome EfaWriteOpIter :=
  match op with
  | WSingle op => Done (ESingle (efa_new_single op addr buf ctx))
  | WImm op => Done (ESingle (efa_new_imm op addr buf ctx))
  | WPaged op => out_map EPaged (efa_paged_new op addr buf ctx)
  end.

Definition ed_submit_write (tid : TransferId) (dest_addr : DomainAddress) (op : WriteOp) : M EfaDomain unit :=
  let! r := get_or_add_remote_addr dest_addr in
  match r with
  | Err _ => push_completion (DcError tid (resolve_error dest_addr))
  | Ok a => do_submit_write tid (construct_write op a)
  end.

Definition ed_add_peer_group (handle : PeerGroupHandle) (addrs : list DomainAddress) :
    M EfaDomain (res unit) := fun d =>
  match ed_peer_groups d !! handle with
  | Some _ => Done (Ok tt, d)
  | None =>
      (let? fi_addrs := try_map addrs get_or_add_remote_addr in
       modify (fun d => set_peer_groups (<[handle := fi_addrs]> (ed_peer_groups d)) d) ;;;
       ret (Ok tt)) d
  end.

(** The addresses of a group write without a handle; an [Err] is the completion's error. *)
Definition resolve_target (oa : option DomainAddress) : M EfaDomain (res Z) :=
  let! a := unwrap oa "index out of bounds" in
  let! r := get_or_add_remote_addr a in
  ret (match r with Ok x => Ok x | Err _ => Err (resolve_error a) end).

Definition ed_submit_group_write (tid : TransferId) (handle : option PeerGroupHandle) (op : GroupWriteOp) :
    M EfaDomain unit :=
  let! addrs :=
    match handle with
    | Some handle =>
        let! g := gets (fun d => ed_peer_groups d !! handle) in
        ret (match g with Some l => Ok l | None => Err (Custom "Peer group not found") end)
    | None => try_map (peer_addr_iter op) resolve_target
    end in
  match addrs with
  | Err e => push_completion (DcError tid e)
  | Ok addrs => do_submit_group_write tid addrs op
  end.

Definition ed_poll_progress (fuel : nat) : M (Shared * EfaDomain) unit :=
  on_ed progress_ops ;;; poll_cq fuel.

Definition ed_get_completion : M EfaDomain (option DomainCompletionEntry) := fun d =>
  match completions d with
  | [] => Done (None, d)
  | c :: cs => Done (Some c, set_completions cs d)
  end.

Definition efa_domain (fuel : nat) : RdmaDomain EfaDomain := {|
  link_speed := fun d => ec_link_speed (conf d);
  addr := fun d => ec_addr (conf d);
  register_mr_local := fun region => let? _ := register_mr region false in ret (Ok tt);
  register_mr_allow_remote := fun region => register_mr region true;
  unregister_mr := ed_unregister_mr;
  get_mem_desc := ed_get_mem_desc;
  submit_recv := ed_submit_recv;
  submit_send := ed_submit_send;
  submit_write := ed_submit_write;
  add_peer_group := ed_add_peer_group;
  submit_group_write := ed_submit_group_write;
  poll_progress := ed_poll_progress fuel;
  get_completion := ed_get_completion;
|}.

End Domain.
