(* ===== verification/EfaSpec.v ===== *)
(** * Correctness of the libfabric domain

    The libfabric domain satisfies the provider contract; the write queue is posted in order,
    each message once, whatever the endpoint accepts; no completion the fabric can deliver
    touches a freed context; opening leaks no object; what registering a region does to the
    CUDA device; where paged writes land. *)
From stdpp Require Import prelude gmap strings list.
From S2P Require Import Prelude Api ImmCount Utils Provider EfaRdmaOp EfaDomain.
Local Open Scope Z_scope.

(** ** The provider contract *)
Section Laws.
Context {H : Type} `{EfaHw H}.

Definition mrs_are (m : gmap Z fid_mr) (d : EfaDomain (H:=H)) : Prop := local_mr_map d = m.

Lemma efa_dev_mrs m {A} (f : M H A) : keeps (mrs_are m) (dev f).
Proof. by apply keeps_on_state. Qed.

Hint Resolve efa_dev_mrs : keeps.
Hint Extern 1 (keeps (mrs_are _) (modify _)) => (apply keeps_modify; by intros) : keeps.
Hint Extern 1 (keeps (mrs_are _) (on_state _ _ _)) => (apply keeps_on_state; by intros) : keeps.

Lemma get_or_add_mrs m a : keeps (mrs_are m) (get_or_add_remote_addr a).
Proof.
  intros d r d'. unfold get_or_add_remote_addr. destruct (peer_addr_map d !! a).
  - intros ?. by simplify_eq.
  - revert r d'. match goal with |- forall r d', ?f d = Done (r, d') -> ?P d -> ?P d' =>
      assert (keeps (mrs_are m) f) as Hk by keeps_step; exact (Hk d) end.
Qed.

Lemma efa_do_submit_write_mrs m tid f : keeps (mrs_are m) (do_submit_write tid f).
Proof.
  unfold do_submit_write, write_ctx, read_ctx, progress_rdma_write_op_context, read_ctx, write_ctx.
  keeps_step.
Qed.

Hint Resolve get_or_add_mrs efa_do_submit_write_mrs : keeps.

Lemma submit_write_mrs m tid a op : keeps (mrs_are m) (ed_submit_write tid a op).
Proof. unfold ed_submit_write, push_completion. keeps_step. Qed.
End Laws.

(** The implementation discharges the contract of [RdmaDomainLaws]. *)
#[export] Program Instance efa_laws {H} `{EfaHw H} (fuel : nat) :
    @RdmaDomainLaws (EfaDomain (H:=H)) (efa_domain fuel) := {|
  completions_of := completions;
|}.
Next Obligation.
  intros H HW fuel d. simpl. unfold ed_get_completion. destruct (completions d) eqn:E; [done|].
  eexists. done.
Qed.
Next Obligation.
  intros H HW fuel tid a op d d' p Hrun. simpl in *. unfold ed_get_mem_desc.
  by rewrite (submit_write_mrs (local_mr_map d) _ _ _ _ _ _ Hrun eq_refl).
Qed.

(** ** Posting *)

(** What reaches the endpoint. *)
Inductive wire : Type :=
  | Wmsg (ep : Z) (msg : RmaBuffer) (flags : Z)
  | Wdata (ep : Z) (w : writedata).

(** What libfabric documents of the calls that post: they queue the operation and return 0, or
    return [-FI_EAGAIN] and queue nothing; they leave the descriptors of registered memory
    alone.  Inserting an address posts nothing. *)
Class EfaHwLaws (H : Type) `{EfaHw H} := {
  posted : H -> list wire;
  writemsg_documented : forall ep b fl h r h', fi_writemsg ep b fl h = (r, h') ->
    (forall p, mem_desc_at p h' = mem_desc_at p h) /\
    ((r = 0 /\ posted h' = posted h ++ [Wmsg ep b fl]) \/ (r = EAGAIN /\ posted h' = posted h));
  writedata_documented : forall ep w h r h', fi_writedata ep w h = (r, h') ->
    (forall p, mem_desc_at p h' = mem_desc_at p h) /\
    ((r = 0 /\ posted h' = posted h ++ [Wdata ep w]) \/ (r = EAGAIN /\ posted h' = posted h));
  av_insert_documented : forall av b h r h', fi_av_insert av b h = (r, h') ->
    (forall p, mem_desc_at p h' = mem_desc_at p h) /\ posted h' = posted h;
}.

Section Posting.
Context {H : Type} `{EfaHwLaws H}.

(** What message [m] looks like on the wire. *)
Definition wire_of (h : H) (ep : Z) (m : RmaBuffer * Z) : wire :=
  if m.2 =? 0 then Wmsg ep m.1 m.2
  else
    let desc := msg_desc (rb_msg m.1) in
    let inline := (msg_iov_count (rb_msg m.1) =? 0)%nat in
    Wdata ep (writedata_of m.1 (if desc =? 0 then 0 else mem_desc_at desc h)
      (if inline then 0 else iov_base (rb_iov m.1)) (if inline then 0 else iov_len (rb_iov m.1))).

Definition same_descs (h h' : H) : Prop := forall p, mem_desc_at p h' = mem_desc_at p h.

#[export] Instance same_descs_po : PreOrder same_descs.
Proof. split; [by intros ? ?|]. intros h1 h2 h3 E1 E2 p. by rewrite E2, E1. Qed.

Lemma wire_of_same h h' ep m : same_descs h h' -> wire_of h' ep m = wire_of h ep m.
Proof. intros Hs. unfold wire_of. by rewrite Hs. Qed.

Lemma wires_same h h' ep (l : list (RmaBuffer * Z)) : same_descs h h' -> wire_of h' ep <$> l = wire_of h ep <$> l.
Proof. intros Hs. apply list_fmap_ext. intros. by apply wire_of_same. Qed.

(** [fi_writedata] takes at most one segment; the message carries the address of its context. *)
Definition postable (ctx : Z) (m : RmaBuffer * Z) : Prop :=
  (msg_iov_count (rb_msg m.1) <= 1)%nat /\ msg_context (rb_msg m.1) = ctx.

Definition wire_ctx (w : wire) : Z :=
  match w with Wmsg _ b _ => msg_context (rb_msg b) | Wdata _ w => wd_context w end.

Lemma wire_ctx_of ctx h ep l : Forall (postable ctx) l -> wire_ctx <$> (wire_of h ep <$> l) = replicate (length l) ctx.
Proof.
  induction 1 as [|m l [_ Hm] _ IH]; [done|]. rewrite !fmap_cons, IH. simpl. f_equal.
  unfold wire_of. by destruct (m.2 =? 0).
Qed.

Lemma post_msg_run ctx ep m h :
  postable ctx m ->
  exists r h', post_msg ep m.1 m.2 h = Done (r, h') /\ same_descs h h' /\
    ((r = 0 /\ posted h' = posted h ++ [wire_of h ep m]) \/ (r = EAGAIN /\ posted h' = posted h)).
Proof.
  intros [Hp _]. unfold post_msg, wire_of. destruct (m.2 =? 0); cbn [negb].
  - destruct (fi_writemsg ep m.1 m.2 h) as [r h'] eqn:E. exists r, h'. cbv [call]. rewrite E.
    by destruct (writemsg_documented _ _ _ _ _ _ E).
  - unfold bind, gets. destruct (msg_iov_count (rb_msg m.1)) as [|[|n]]; [| |lia]; cbn [Nat.eqb negb];
      match goal with |- context [call (fi_writedata ep ?w) h] => destruct (fi_writedata ep w h) as [r h'] eqn:E end;
      exists r, h'; cbv [call]; rewrite E; by destruct (writedata_documented _ _ _ _ _ E).
Qed.

(** A context with the messages [l] still to post. *)
Record ctx_ok (ep ctx : Z) (c : WriteOpContext) (l : list (RmaBuffer * Z)) : Prop := {
  co_ep : ctx_ep c = ep;
  co_remains : remains (rdma_op_iter c) l;
  co_postable : Forall (postable ctx) l;
  co_total : ctx_total_ops c = (cnt_posted_ops c + length l)%nat;
  co_finished : (cnt_finished_ops c <= cnt_posted_ops c)%nat;
}.

(** Why a round of posting stopped: everything was posted, the limit was reached, or the
    endpoint refused the next message and nothing was posted after that. *)
Inductive stopped (ep : Z) (l : list (RmaBuffer * Z)) (h' : H) : Prop :=
  | stop_done : l = [] -> stopped ep l h'
  | stop_busy m rest h0 : l = m :: rest -> post_msg ep m.1 m.2 h0 = Done (EAGAIN, h') -> stopped ep l h'.

Lemma post_loop_run ep ctx fuel max cnt c l h :
  ctx_ok ep ctx c l -> (cnt < max)%nat -> (max <= cnt + fuel)%nat ->
  exists n c' h', post_loop fuel max cnt c h = Done (c', h') /\ (n <= length l)%nat /\
    (cnt + n <= max)%nat /\ ctx_ok ep ctx c' (drop n l) /\
    c' = ctx_set c (rdma_op_iter c') (cnt_posted_ops c + n) (cnt_finished_ops c) (in_queue c) (bad c) /\
    same_descs h h' /\ posted h' = posted h ++ (wire_of h ep <$> take n l) /\
    ((cnt + n)%nat = max \/ stopped ep (drop n l) h').
Proof.
  revert cnt c l h. induction fuel as [|fuel IH]; intros cnt c l h [He Hr Hp Ht Hf] Hlt Hfuel; [lia|].
  assert (forall h, exists n c' h', Done (c, h) = Done (c', h') /\ (n <= length l)%nat /\
    (cnt + n <= max)%nat /\ ctx_ok ep ctx c' (drop n l) /\
    c' = ctx_set c (rdma_op_iter c') (cnt_posted_ops c + n) (cnt_finished_ops c) (in_queue c) (bad c) /\
    same_descs h h' /\ posted h' = posted h ++ (wire_of h ep <$> take n l) /\ n = 0%nat) as Hstay.
  { intros h0. exists 0%nat, c, h0. split; [done|]. split; [lia|]. split; [lia|]. split; [done|].
    split; [rewrite Nat.add_0_r; by destruct c|]. split; [reflexivity|]. by rewrite app_nil_r. }
  cbn [post_loop]. inversion Hr as [it Hpk|it it' b fl l' Hpk Hadv Hrest]; subst.
  - rewrite Hpk. destruct (Hstay h) as (n & c' & h' & ? & ? & ? & ? & ? & ? & ? & ->).
    exists 0%nat, c', h'. do 7 (split; [done|]). right. by apply stop_done.
  - rewrite Hpk. apply Forall_cons in Hp as [Hpm Hp]. unfold bind at 1.
    destruct (post_msg_run ctx (ctx_ep c) (b, fl) h Hpm) as (r & h1 & Hpost & Hsame & Hres).
    cbn [fst snd] in Hpost. rewrite Hpost. destruct Hres as [[-> Hacc]|[-> Hacc]].
    + cbn [Z.eqb]. unfold bind at 1, lift. rewrite Hadv. cbn [out_map snd].
      set (c1 := ctx_set c it' (S (cnt_posted_ops c)) (cnt_finished_ops c) (in_queue c) (bad c)).
      assert (ctx_ok (ctx_ep c) ctx c1 l') as Hc1 by (split; unfold c1; simpl in *; (done || lia)).
      destruct (Nat.leb_spec max (S cnt)) as [Hm|Hm].
      * exists 1%nat, c1, h1. split; [done|]. simpl. split; [lia|]. split; [lia|]. rewrite drop_0.
        split; [done|]. rewrite Nat.add_1_r. split; [done|]. split; [done|]. split; [done|]. left. lia.
      * destruct (IH (S cnt) c1 l' h1 Hc1) as (n & c2 & h2 & Hrun & Hn & Hmax & Hc2 & Heq & Hs2 & Hacc2 & Hstop);
          [lia..|].
        exists (S n), c2, h2. split; [done|]. simpl. split; [lia|]. split; [lia|]. split; [done|].
        split; [rewrite Heq; unfold c1, ctx_set; simpl; f_equal; lia|]. split; [by etransitivity|].
        split; [rewrite Hacc2, Hacc, <- (assoc_L (++)), (wires_same h h1) by done; done|].
        destruct Hstop; [left; lia|by right].
    + cbn [Z.eqb]. change (EAGAIN =? 0) with false. rewrite Z.eqb_refl. cbv [ret].
      destruct (Hstay h1) as (n & c' & h' & Heq & ? & ? & ? & ? & ? & Hacc' & ->). injection Heq as <- <-.
      exists 0%nat, c, h1. do 5 (split; [done|]). split; [done|]. split; [simpl; by rewrite Hacc, app_nil_r|].
      right. eapply (stop_busy _ _ _ (b, fl) l' h); [done|]. exact Hpost.
Qed.
End Posting.

(** ** The invariant of the write contexts *)
Section Invariant.
Context {H : Type} `{EfaHwLaws H}.
Implicit Types d : EfaDomain (H:=H).

(** Every live context and every message buffer is a slot of its pool that is not free and no
    two contexts share a buffer; every context is consistent with its iterator; the queue has
    no duplicates and its contexts are live, say that they are queued and have messages left. *)
Record efa_inv d : Prop := {
  inv_pool : pool_ok (objpool_write_op d) (map_to_list (write_ctxs d)).*1;
  inv_bufs : pool_ok (objpool_msg d) ((fun p => msg_buf p.2) <$> map_to_list (write_ctxs d));
  inv_ctx : forall a c, write_ctxs d !! a = Some c -> exists l, ctx_ok (ec_ep (conf d)) (rawctx a) c l;
  inv_nodup : NoDup (ed_write_ops d);
  inv_queue : forall a, a ∈ ed_write_ops d -> exists c, write_ctxs d !! a = Some c /\
    in_queue c = true /\ (cnt_posted_ops c < ctx_total_ops c)%nat;
}.

Lemma new_domain_inv cf h : efa_inv (new_domain cf h).
Proof.
  assert (pool_ok new_pool []) as Hp by
    (split; simpl; [lia|lia|constructor|intros a; unfold carved; simpl; split; [set_solver|lia]]).
  split; simpl; [by rewrite map_to_list_empty..|set_solver|constructor|set_solver].
Qed.

Lemma efa_read_ctx_run d a c : write_ctxs d !! a = Some c -> read_ctx a d = Done (c, d).
Proof. intros Hc. cbv [read_ctx bind gets unwrap ret]. by rewrite Hc. Qed.

(** The messages of slot [a] that were posted and have not completed. *)
Definition outstanding d (a : nat) : nat :=
  match write_ctxs d !! a with Some c => cnt_posted_ops c - cnt_finished_ops c | None => 0 end.

Definition occurs (a : nat) (l : list Z) : nat := count_occ Z.eq_dec l (rawctx a).

Lemma occurs_app a l1 l2 : occurs a (l1 ++ l2) = (occurs a l1 + occurs a l2)%nat.
Proof. apply count_occ_app. Qed.

Lemma occurs_replicate a b n : occurs b (replicate n (rawctx a)) = if decide (a = b) then n else 0%nat.
Proof.
  unfold occurs. induction n as [|n IH]; [by case_decide|]. cbn [replicate count_occ]. rewrite IH.
  unfold rawctx. destruct (Z.eq_dec _ _), (decide (a = b)); (done || lia).
Qed.

Lemma outstanding_other d d' a b : (b <> a -> write_ctxs d' !! b = write_ctxs d !! b) -> b <> a ->
  outstanding d' b = outstanding d b.
Proof. intros Hf Hne. unfold outstanding. by rewrite Hf. Qed.

(** The slots of the contexts after one of them is overwritten. *)
Lemma ctxs_update {B} (f : nat * WriteOpContext -> B) (m : gmap nat WriteOpContext) a c c' :
  m !! a = Some c -> f (a, c') = f (a, c) ->
  f <$> map_to_list (<[a := c']> m) ≡ₚ f <$> map_to_list m.
Proof.
  intros Hc Hf. rewrite <- insert_delete_eq, map_to_list_insert by apply lookup_delete_eq.
  rewrite <- (map_to_list_delete m a c) by done. by rewrite !fmap_cons, Hf.
Qed.

(** Changing one context in place. *)
Lemma inv_update d a c c' l :
  efa_inv d -> write_ctxs d !! a = Some c -> msg_buf c' = msg_buf c -> ctx_ok (ec_ep (conf d)) (rawctx a) c' l ->
  (a ∈ ed_write_ops d -> in_queue c' = true /\ (cnt_posted_ops c' < ctx_total_ops c')%nat) ->
  efa_inv (set_write_ctxs (<[a := c']> (write_ctxs d)) d).
Proof.
  intros [Hp Hb Hx Hn Hq] Hc Hm Hok Hqa. split; simpl; [| | |done|].
  - eapply pool_ok_perm, Hp. symmetry. by apply (ctxs_update fst _ _ c).
  - eapply pool_ok_perm, Hb. symmetry. by apply (ctxs_update (fun p => msg_buf p.2) _ _ c).
  - intros b cb. destruct (decide (a = b)) as [->|Hne].
    + rewrite lookup_insert_eq. intros ?; simplify_eq. by exists l.
    + rewrite lookup_insert_ne by done. apply Hx.
  - intros b Hin. destruct (decide (a = b)) as [->|Hne].
    + exists c'. rewrite lookup_insert_eq. by destruct (Hqa Hin).
    + rewrite lookup_insert_ne by done. by apply Hq.
Qed.

(** Fields the invariant does not mention. *)
Lemma inv_set_hw d h : efa_inv d -> efa_inv (set_hw h d).
Proof. by intros []. Qed.
Lemma inv_set_completions d l : efa_inv d -> efa_inv (set_completions l d).
Proof. by intros []. Qed.
Lemma inv_set_peer_addr_map d m : efa_inv d -> efa_inv (set_peer_addr_map m d).
Proof. by intros []. Qed.

(** Dequeuing the head. *)
Lemma inv_pop d a rest : efa_inv d -> ed_write_ops d = a :: rest -> efa_inv (set_write_ops rest d).
Proof.
  intros [Hp Hb Hx Hn Hq] He. rewrite He in *. apply NoDup_cons in Hn as [_ Hn].
  split; simpl; [done..|]. intros b Hin. apply Hq. set_solver.
Qed.

(** A context that is not queued is either kept or freed; freeing returns both slots. *)
Lemma maybe_drop_inv d a c :
  efa_inv d -> write_ctxs d !! a = Some c -> (in_queue c = false -> a ∉ ed_write_ops d) ->
  exists d', maybe_drop_write_op_context a d = Done (tt, d') /\ efa_inv d' /\
    ed_write_ops d' = ed_write_ops d /\ ed_hw d' = ed_hw d /\ conf d' = conf d /\
    completions d' = completions d /\ (forall b, b <> a -> write_ctxs d' !! b = write_ctxs d !! b) /\
    (if decide (cnt_finished_ops c = cnt_posted_ops c /\ in_queue c = false)
     then write_ctxs d' !! a = None else d' = d).
Proof.
  intros [Hp Hb Hx Hn Hq] Hc Hnq. cbv [maybe_drop_write_op_context bind]. rewrite (efa_read_ctx_run d a c Hc).
  destruct (Nat.eqb_spec (cnt_finished_ops c) (cnt_posted_ops c)) as [He|He]; cbn [negb];
    [|exists d; rewrite decide_False by naive_solver; done].
  destruct (in_queue c) eqn:Hiq; [exists d; rewrite decide_False by naive_solver; done|].
  eexists. split; [done|]. rewrite decide_True by done. simpl. split; [|repeat (split; [done|])].
  - split; simpl.
    + destruct (free_and_drop_ok (objpool_write_op d) (map_to_list (delete a (write_ctxs d))).*1 a)
        as (p & Hrun & Hok); [|by injection Hrun as <-].
      eapply pool_ok_perm, Hp. by rewrite <- (map_to_list_delete (write_ctxs d) a c).
    + destruct (free_and_drop_ok (objpool_msg d)
        ((fun p => msg_buf p.2) <$> map_to_list (delete a (write_ctxs d))) (msg_buf c))
        as (p & Hrun & Hok); [|by injection Hrun as <-].
      eapply pool_ok_perm, Hb. by rewrite <- (map_to_list_delete (write_ctxs d) a c).
    + intros b cb [_ Hl]%lookup_delete_Some. by eapply Hx.
    + done.
    + intros b Hin. destruct (Hq b Hin) as (cb & Hcb & ?). exists cb.
      rewrite lookup_delete_ne; [done|]. intros ->. by apply Hnq.
  - split; [|apply lookup_delete_eq]. intros b Hne. by rewrite lookup_delete_ne.
Qed.

(** ** The write queue is posted in order *)

(** One attempt at posting the messages [l] of a context. *)
Lemma ctx_progress d a c l max :
  write_ctxs d !! a = Some c -> bad c = false -> ctx_ok (ec_ep (conf d)) (rawctx a) c l -> (0 < max)%nat ->
  exists n c' h',
    progress_rdma_write_op_context a max d =
      Done (tt, set_write_ctxs (<[a := c']> (write_ctxs d)) (set_hw h' d)) /\
    (n <= length l)%nat /\ (n <= max)%nat /\ ctx_ok (ec_ep (conf d)) (rawctx a) c' (drop n l) /\
    c' = ctx_set c (rdma_op_iter c') (cnt_posted_ops c + n) (cnt_finished_ops c) (in_queue c) (bad c) /\
    same_descs (ed_hw d) h' /\ posted h' = posted (ed_hw d) ++ (wire_of (ed_hw d) (ec_ep (conf d)) <$> take n l) /\
    (n = max \/ stopped (ec_ep (conf d)) (drop n l) h').
Proof.
  intros Hc Hb Hok Hmax.
  destruct (post_loop_run (ec_ep (conf d)) (rawctx a) max max 0 c l (ed_hw d) Hok Hmax)
    as (n & c' & h' & Hrun & Hn & Hm & Hok' & Heq & Hs & Hp & Hst); [lia|].
  exists n, c', h'. split; [|done].
  cbv [progress_rdma_write_op_context bind dev on_state]. by rewrite (efa_read_ctx_run d a c Hc), Hb, Hrun.
Qed.

(** The messages that the queued contexts still have to post; a bad context posts no more. *)
Definition queue_pending d (ls : list (list (RmaBuffer * Z))) : Prop :=
  Forall2 (fun a l => exists c, write_ctxs d !! a = Some c /\
    (if bad c then l = [] else ctx_ok (ec_ep (conf d)) (rawctx a) c l)) (ed_write_ops d) ls.

Lemma queue_pending_frame d d' ls :
  queue_pending d ls -> ed_write_ops d' = ed_write_ops d -> conf d' = conf d ->
  (forall b, b ∈ ed_write_ops d -> write_ctxs d' !! b = write_ctxs d !! b) -> queue_pending d' ls.
Proof.
  intros Hq Hw Hc Hf. unfold queue_pending in *. rewrite Hw, Hc.
  apply Forall2_same_length_lookup. apply Forall2_same_length_lookup in Hq as [Hl Hq].
  split; [done|]. intros i a l Ha Hi. rewrite Hf by by eapply list_elem_of_lookup_2. by eapply Hq.
Qed.

(** Submission posts one message, so a write of two or more enters the queue; only a failure
    ever clears its [in_queue].  A write with messages left waits in the queue. *)
Definition waits d (a : nat) (c : WriteOpContext) : Prop :=
  bad c = false ->
  ((2 <= ctx_total_ops c)%nat -> in_queue c = true) /\
  ((cnt_posted_ops c < ctx_total_ops c)%nat -> a ∈ ed_write_ops d).

Definition multi_queued d : Prop := forall a c, write_ctxs d !! a = Some c -> waits d a c.

Lemma multi_queued_update d d' a :
  multi_queued d -> (forall b, b <> a -> write_ctxs d' !! b = write_ctxs d !! b) ->
  (forall b, b <> a -> b ∈ ed_write_ops d -> b ∈ ed_write_ops d') ->
  (forall c', write_ctxs d' !! a = Some c' -> waits d' a c') -> multi_queued d'.
Proof.
  intros Hm Hf Hq Ha b cb. destruct (decide (b = a)) as [->|Hne]; [apply Ha|]. rewrite Hf by done.
  intros Hb Hg. destruct (Hm b cb Hb Hg) as [? ?]. split; auto.
Qed.

(** What progress leaves of the writes that have not failed. *)
Definition ctxs_kept d d' : Prop :=
  forall a c, write_ctxs d !! a = Some c -> bad c = false ->
  exists c', write_ctxs d' !! a = Some c' /\ transfer_id c' = transfer_id c /\ ctx_total_ops c' = ctx_total_ops c /\
    cnt_finished_ops c' = cnt_finished_ops c /\ bad c' = false.

Lemma ctxs_kept_refl d d' : write_ctxs d' = write_ctxs d -> ctxs_kept d d'.
Proof. intros Hx a c Hc Hb. exists c. by rewrite Hx. Qed.

Lemma ctxs_kept_trans d1 d2 d3 : ctxs_kept d1 d2 -> ctxs_kept d2 d3 -> ctxs_kept d1 d3.
Proof.
  intros H12 H23 a c Hc Hb. destruct (H12 a c Hc Hb) as (c2 & Hc2 & ? & ? & ? & Hb2).
  destruct (H23 a c2 Hc2 Hb2) as (c3 & ? & ? & ? & ? & ?). exists c3. split_and!; congruence.
Qed.

(** The outcome of a pass over the queue: [n] messages moved from the front of the pending
    messages to the endpoint. *)
Record drained d ls d' ls' (n : nat) : Prop := {
  dr_inv : efa_inv d';
  dr_pending : queue_pending d' ls';
  dr_conf : conf d' = conf d;
  dr_completions : completions d' = completions d;
  dr_descs : same_descs (ed_hw d) (ed_hw d');
  dr_le : (n <= length (concat ls))%nat;
  dr_posted : posted (ed_hw d') = posted (ed_hw d) ++
    (wire_of (ed_hw d) (ec_ep (conf d)) <$> take n (concat ls));
  dr_rest : concat ls' = drop n (concat ls);
  dr_stop : (32 <= n)%nat \/ stopped (ec_ep (conf d)) (concat ls') (ed_hw d');
  dr_out : forall b, outstanding d' b = (outstanding d b +
    occurs b (wire_ctx <$> (wire_of (ed_hw d) (ec_ep (conf d)) <$> take n (concat ls))))%nat;
  dr_multi : multi_queued d -> multi_queued d';
  dr_kept : ctxs_kept d d';
}.

(** The rest of a pass after the head [l] of the queue was posted or dropped. *)
Lemma drained_cons d l ls d1 d' ls' n :
  conf d1 = conf d -> completions d1 = completions d -> same_descs (ed_hw d) (ed_hw d1) ->
  posted (ed_hw d1) = posted (ed_hw d) ++ (wire_of (ed_hw d) (ec_ep (conf d)) <$> l) ->
  (forall b, outstanding d1 b =
    (outstanding d b + occurs b (wire_ctx <$> (wire_of (ed_hw d) (ec_ep (conf d)) <$> l)))%nat) ->
  (multi_queued d -> multi_queued d1) -> ctxs_kept d d1 ->
  drained d1 ls d' ls' n -> drained d (l :: ls) d' ls' (length l + n).
Proof.
  intros Hc Hco Hs Hp Ho Hm Hk [? ? ? ? ? ? Hp' Hr Hst Ho' Hm' Hk']. split; try congruence.
  - rewrite concat_cons, length_app. lia.
  - rewrite Hp', Hp, Hc, (wires_same (ed_hw d) (ed_hw d1)) by done.
    rewrite concat_cons, take_app_add. by rewrite fmap_app, (assoc_L (++)).
  - rewrite Hr, concat_cons. by rewrite drop_app_add.
  - destruct Hst; [left; lia|right; congruence].
  - intros b. rewrite Ho', Ho, Hc, (wires_same (ed_hw d) (ed_hw d1)) by done.
    rewrite concat_cons, take_app_add, !fmap_app, occurs_app. lia.
  - auto.
  - by eapply ctxs_kept_trans.
Qed.

(** A bad head is removed and, if nothing of it is outstanding, freed. *)
Lemma drop_bad_head d a c rest :
  efa_inv d -> ed_write_ops d = a :: rest -> write_ctxs d !! a = Some c -> bad c = true ->
  exists d1,
    (write_ctx a (ctx_set c (rdma_op_iter c) (cnt_posted_ops c) (cnt_finished_ops c) false true) ;;;
     modify (set_write_ops rest) ;;; maybe_drop_write_op_context a) d = Done (tt, d1) /\
    efa_inv d1 /\ ed_write_ops d1 = rest /\ ed_hw d1 = ed_hw d /\ conf d1 = conf d /\
    completions d1 = completions d /\ (forall b, b <> a -> write_ctxs d1 !! b = write_ctxs d !! b) /\
    outstanding d1 a = outstanding d a /\ (multi_queued d -> multi_queued d1) /\ ctxs_kept d d1.
Proof.
  intros Hinv Hq Hc Hb. cbv [bind write_ctx modify].
  set (c1 := ctx_set c _ _ _ _ _).
  assert (efa_inv (set_write_ctxs (<[a := c1]> (write_ctxs d)) (set_write_ops rest d))) as Hinv1.
  { destruct (inv_ctx d Hinv a c Hc) as (l & Hok). pose proof (inv_nodup d Hinv) as Hn.
    rewrite Hq in Hn. apply NoDup_cons in Hn as [Hni _].
    apply (inv_update (set_write_ops rest d) a c c1 l); [by eapply inv_pop|done..| |done].
    destruct Hok. by split. }
  destruct (maybe_drop_inv _ a c1 Hinv1) as (d1 & Hrun & Hi & Hw & Hh & Hcf & Hco & Hf & Hfree).
  - apply lookup_insert_eq.
  - intros _. simpl. pose proof (inv_nodup d Hinv) as Hn. rewrite Hq in Hn. by apply NoDup_cons in Hn as [? _].
  - exists d1. split; [exact Hrun|]. simpl in *. do 5 (split; [done|]).
    assert (forall b, b <> a -> write_ctxs d1 !! b = write_ctxs d !! b) as Hf'
      by (intros b Hne; rewrite Hf by done; by rewrite lookup_insert_ne).
    split; [done|]. split; [|split].
    + unfold outstanding. rewrite Hc. case_decide as Hfin; [rewrite Hfree; lia|].
      rewrite Hfree. simpl. by rewrite lookup_insert_eq.
    + intros Hm. apply (multi_queued_update d d1 a Hm Hf'); [rewrite Hq, Hw; set_solver|].
      intros c'. case_decide; rewrite Hfree; [done|]. simpl. rewrite lookup_insert_eq. by intros [= <-].
    + intros b cb Hcb Hbb. exists cb. rewrite Hf'; [done|]. intros ->. congruence.
Qed.

(** The effects of posting [n] messages of the context at [a]. *)
Lemma posted_outstanding d a c c' l n :
  write_ctxs d !! a = Some c -> ctx_ok (ec_ep (conf d)) (rawctx a) c l -> (n <= length l)%nat ->
  cnt_posted_ops c' = (cnt_posted_ops c + n)%nat -> cnt_finished_ops c' = cnt_finished_ops c ->
  forall dx b, write_ctxs dx = <[a := c']> (write_ctxs d) -> outstanding dx b =
    (outstanding d b + occurs b (wire_ctx <$> (wire_of (ed_hw d) (ec_ep (conf d)) <$> take n l)))%nat.
Proof.
  intros Hc Hl Hn Hpo Hfi dx b Hdx.
  rewrite (wire_ctx_of (rawctx a)) by (by apply Forall_take, (co_postable _ _ _ _ Hl)).
  rewrite occurs_replicate, length_take. unfold outstanding. rewrite Hdx. pose proof (co_finished _ _ _ _ Hl).
  case_decide as Hab; [subst b; rewrite lookup_insert_eq, Hc; lia|]. rewrite lookup_insert_ne by done. lia.
Qed.

Lemma posted_multi d a c c' :
  write_ctxs d !! a = Some c -> ctx_total_ops c' = ctx_total_ops c -> bad c' = bad c -> in_queue c' = in_queue c ->
  forall dx, write_ctxs dx = <[a := c']> (write_ctxs d) ->
  (forall b, b <> a -> b ∈ ed_write_ops d -> b ∈ ed_write_ops dx) ->
  ((cnt_posted_ops c' < ctx_total_ops c')%nat -> a ∈ ed_write_ops dx) -> multi_queued d -> multi_queued dx.
Proof.
  intros Hc Ht Hb Hq dx Hdx Hin Ha Hmd. apply (multi_queued_update d dx a Hmd); [|done|]; rewrite Hdx.
  - intros b Hne. by rewrite lookup_insert_ne.
  - rewrite lookup_insert_eq. intros ? [= <-]. unfold waits. rewrite Ht, Hb, Hq in *. intros Hg.
    split; [by apply (Hmd a c Hc)|done].
Qed.

Lemma posted_kept d a c c' :
  write_ctxs d !! a = Some c -> transfer_id c' = transfer_id c -> ctx_total_ops c' = ctx_total_ops c ->
  cnt_finished_ops c' = cnt_finished_ops c -> bad c' = bad c ->
  forall dx, write_ctxs dx = <[a := c']> (write_ctxs d) -> ctxs_kept d dx.
Proof.
  intros Hc Hi Ht Hf Hb dx Hdx b cb Hcb Hg. rewrite Hdx. destruct (decide (b = a)) as [->|Hne].
  - simplify_eq. exists c'. rewrite lookup_insert_eq. split_and!; congruence.
  - exists cb. by rewrite lookup_insert_ne.
Qed.

(** The head of the queue stays when some of its messages are left. *)
Lemma head_stays d a rest c c' h' l lr n :
  efa_inv d -> ed_write_ops d = a :: rest -> write_ctxs d !! a = Some c -> bad c = false ->
  ctx_ok (ec_ep (conf d)) (rawctx a) c l ->
  (forall d1, ed_write_ops d1 = rest -> conf d1 = conf d ->
    (forall b, b <> a -> write_ctxs d1 !! b = write_ctxs d !! b) -> queue_pending d1 lr) ->
  (n <= length l)%nat -> (n <= 32)%nat -> ctx_ok (ec_ep (conf d)) (rawctx a) c' (drop n l) ->
  c' = ctx_set c (rdma_op_iter c') (cnt_posted_ops c + n) (cnt_finished_ops c) (in_queue c) (bad c) ->
  same_descs (ed_hw d) h' ->
  posted h' = posted (ed_hw d) ++ (wire_of (ed_hw d) (ec_ep (conf d)) <$> take n l) ->
  (n = 32%nat \/ stopped (ec_ep (conf d)) (drop n l) h') -> cnt_posted_ops c' <> ctx_total_ops c' ->
  drained d (l :: lr) (set_write_ctxs (<[a := c']> (write_ctxs d)) (set_hw h' d)) (drop n l :: lr) n.
Proof.
  intros Hinv Hq Hc Hb Hl Hframe Hn Hm Hok' Heq Hs Hp Hst He.
  pose proof (co_total _ _ _ _ Hok') as Ht. rewrite length_drop in Ht. split; simpl; try done.
  - apply (inv_update (set_hw h' d) a c c' (drop n l)); [by apply inv_set_hw|done|by rewrite Heq|done|].
    intros Hin. destruct (inv_queue d Hinv a Hin) as (c0 & ? & Hiq & _). simplify_eq.
    split; [by rewrite Heq|lia].
  - unfold queue_pending. simpl. rewrite Hq. constructor.
    { exists c'. rewrite lookup_insert_eq. split; [done|].
      assert (bad c' = false) as -> by (by rewrite Heq). done. }
    refine (Hframe (set_write_ops rest (set_write_ctxs (<[a:=c']> (write_ctxs d)) (set_hw h' d))) _ _ _);
      [done..|]. intros b Hne. simpl. by rewrite lookup_insert_ne.
  - rewrite length_app. lia.
  - rewrite Hp. by rewrite take_app_le.
  - by rewrite drop_app_le.
  - destruct Hst as [->|[Hd|m r0 h0 Hd Hbusy]]; [left; lia| |].
    { exfalso. apply (f_equal length) in Hd. rewrite length_drop in Hd. simpl in Hd. lia. }
    right. rewrite Hd. by eapply (stop_busy _ _ _ m (r0 ++ concat lr) h0).
  - intros b. rewrite take_app_le by done.
    by apply (posted_outstanding d a c c' l n Hc Hl Hn); [rewrite Heq..|].
  - apply (posted_multi d a c c' Hc); [by rewrite Heq..|done|done|]. intros _. simpl. rewrite Hq. set_solver.
  - by apply (posted_kept d a c c' Hc); [rewrite Heq..|].
Qed.

Lemma write_loop_drains fuel d ls :
  efa_inv d -> queue_pending d ls -> (length (ed_write_ops d) <= fuel)%nat ->
  exists d' ls' n, progress_write_loop fuel d = Done (tt, d') /\ drained d ls d' ls' n.
Proof.
  revert d ls. induction fuel as [|fuel IH]; intros d ls Hinv Hpend Hfuel;
    unfold queue_pending in Hpend; cbn [progress_write_loop];
    destruct (ed_write_ops d) as [|a rest] eqn:Hq;
    [|simpl in Hfuel; lia| |].
  1, 2: apply Forall2_nil_inv_l in Hpend as ->; exists d, [], 0%nat; split; [done|];
    split; simpl; rewrite ?app_nil_r; try done; [unfold queue_pending; by rewrite Hq|right; by apply stop_done|by apply ctxs_kept_refl].
  apply Forall2_cons_inv_l in Hpend as (l & lr & (c & Hc & Hl) & Hpend & ->).
  pose proof (inv_nodup d Hinv) as Hnd. rewrite Hq in Hnd. apply NoDup_cons in Hnd as [Hni Hnd].
  assert (forall d1, ed_write_ops d1 = rest -> conf d1 = conf d ->
    (forall b, b <> a -> write_ctxs d1 !! b = write_ctxs d !! b) -> queue_pending d1 lr) as Hframe.
  { intros d1 Hw1 Hc1 Hf1. apply (queue_pending_frame (set_write_ops rest d)); [exact Hpend|done..|].
    simpl. intros b Hin. apply Hf1. by intros ->. }
  destruct (inv_ctx d Hinv a c Hc) as (l0 & Hok0). unfold bind at 1. rewrite (efa_read_ctx_run d a c Hc).
  unfold bind at 1. rewrite (proj2 (Nat.leb_le _ _) (co_finished _ _ _ _ Hok0)). cbn [assert_]. cbv [ret].
  destruct (bad c) eqn:Hb.
  - subst l. destruct (drop_bad_head d a c rest Hinv Hq Hc Hb) as (d1 & Hrun & Hi1 & Hw1 & Hh1 & Hc1 & Hco1 & Hf1 & Ho1 & Hm1 & Hk1).
    destruct (IH d1 lr Hi1) as (d' & ls' & n & Hrun' & Hdr); [by apply Hframe|rewrite Hw1; simpl in Hfuel; lia|].
    exists d', ls', n. split.
    + cbv [bind write_ctx modify] in *. by rewrite Hrun.
    + apply (drained_cons d [] lr d1); [done|done|by rewrite Hh1| | |done|done|done].
      * simpl. by rewrite Hh1, app_nil_r.
      * intros b. rewrite Nat.add_0_r. destruct (decide (b = a)) as [->|Hne]; [done|].
        by apply (outstanding_other _ _ a); [apply Hf1|].
  - destruct (ctx_progress d a c l 32 Hc Hb Hl) as (n & c' & h' & Hrun & Hn & Hm & Hok' & Heq & Hs & Hp & Hst); [lia|].
    unfold bind at 1. rewrite Hrun. unfold bind at 1.
    erewrite efa_read_ctx_run; [|simpl; apply lookup_insert_eq].
    pose proof (co_total _ _ _ _ Hok') as Ht. rewrite length_drop in Ht.
    destruct (Nat.eqb_spec (cnt_posted_ops c') (ctx_total_ops c')) as [He|He]; cbn [negb].
    + unfold bind at 1, modify. set (d1 := set_write_ops rest _).
      assert (n = length l) as -> by lia. rewrite take_ge in Hp by done.
      assert (efa_inv d1) as Hi1.
      { apply (inv_update (set_write_ops rest (set_hw h' d)) a c c' (drop (length l) l));
          [eapply inv_pop; [by apply inv_set_hw|done]|done|by rewrite Heq|done|done]. }
      destruct (IH d1 lr Hi1) as (d' & ls' & n & Hrun' & Hdr);
        [apply Hframe; [done..|]; intros b Hne; unfold d1; simpl; by rewrite lookup_insert_ne|simpl in *; lia|].
      exists d', ls', (length l + n)%nat. split; [done|]. apply (drained_cons d l lr d1); try done.
      * intros b. rewrite <- (take_ge l (length l)) at 1 by done.
        by apply (posted_outstanding d a c c' l (length l) Hc Hl Hn); [rewrite Heq..|].
      * apply (posted_multi d a c c' Hc); [by rewrite Heq..|done| |lia]. intros b Hne. rewrite Hq. simpl. set_solver.
      * by apply (posted_kept d a c c' Hc); [rewrite Heq..|].
    + eexists _, (drop n l :: lr), n. split; [done|]. by apply (head_stays d a rest c).
Qed.

(** ** Submitting a write *)

(** [builds f l]: given the context's address, the constructor returns an iterator over the
    messages [l]. *)
Definition builds (f : Z -> RmaBuffer -> outcome EfaWriteOpIter) (l : Z -> list (RmaBuffer * Z)) : Prop :=
  forall ctx, l ctx <> [] /\ Forall (postable ctx) (l ctx) /\
    exists it, f ctx blank_buffer = Done it /\ remains it (l ctx) /\ efa_total_ops it = length (l ctx).

(** A new context in fresh slots of the pools. *)
Lemma inv_insert d a b p q c l :
  efa_inv d -> write_ctxs d !! a = None ->
  pool_ok p (a :: (map_to_list (write_ctxs d)).*1) ->
  pool_ok q (b :: ((fun p => msg_buf p.2) <$> map_to_list (write_ctxs d))) ->
  msg_buf c = b -> ctx_ok (ec_ep (conf d)) (rawctx a) c l -> a ∉ ed_write_ops d ->
  efa_inv (set_write_ctxs (<[a := c]> (write_ctxs d)) (set_objpool_msg q (set_objpool_write_op p d))).
Proof.
  intros [_ _ Hx Hn Hq] Ha Hp Hb <- Hok Hni. split; simpl; [| | |done|].
  - eapply pool_ok_perm, Hp. by rewrite map_to_list_insert.
  - eapply pool_ok_perm, Hb. by rewrite map_to_list_insert.
  - intros x cx. destruct (decide (a = x)) as [->|Hne].
    + rewrite lookup_insert_eq. intros ?; simplify_eq. by exists l.
    + rewrite lookup_insert_ne by done. apply Hx.
  - intros x Hin. rewrite lookup_insert_ne; [by apply Hq|]. by intros ->.
Qed.

Lemma fresh_slot d a :
  a ∉ (map_to_list (write_ctxs d)).*1 -> write_ctxs d !! a = None.
Proof.
  intros Hn. apply not_elem_of_dom. intros Hd. apply Hn. apply elem_of_dom in Hd as (c & Hc).
  apply list_elem_of_fmap. exists (a, c). split; [done|]. by apply elem_of_map_to_list.
Qed.

(** What a submission does: a context in a fresh slot, at most one message posted at once, the
    rest queued behind what was queued before. *)
Record submitted tid (l : list (RmaBuffer * Z)) d d' (a n : nat) (c : WriteOpContext) : Prop := {
  su_inv : efa_inv d';
  su_fresh : write_ctxs d !! a = None;
  su_ctx : write_ctxs d' = <[a := c]> (write_ctxs d);
  su_ok : ctx_ok (ec_ep (conf d)) (rawctx a) c (drop n l);
  su_state : transfer_id c = tid /\ cnt_posted_ops c = n /\ cnt_finished_ops c = 0%nat /\ bad c = false;
  su_le : (n <= 1)%nat /\ (n <= length l)%nat;
  su_queue : ed_write_ops d' = ed_write_ops d ++ (if decide (n = length l) then [] else [a]);
  su_posted : posted (ed_hw d') = posted (ed_hw d) ++ (wire_of (ed_hw d) (ec_ep (conf d)) <$> take n l);
  su_frame : conf d' = conf d /\ completions d' = completions d /\ peer_addr_map d' = peer_addr_map d;
  su_postable : Forall (postable (rawctx a)) l;
}.

Lemma do_submit_write_run tid f l d :
  efa_inv d -> builds f l ->
  exists d' a n c, do_submit_write tid f d = Done (tt, d') /\ submitted tid (l (rawctx a)) d d' a n c.
Proof.
  intros Hinv Hf.
  destruct (alloc_uninit_ok _ _ (inv_pool d Hinv)) as (a & p & Ha & Hfresh & Hp).
  destruct (alloc_uninit_ok _ _ (inv_bufs d Hinv)) as (b & q & Hb & _ & Hq).
  destruct (Hf (rawctx a)) as (Hne & Hpost & it & Hit & Hrem & Htot).
  pose proof (fresh_slot d a Hfresh) as Hnone.
  assert (a ∉ ed_write_ops d) as Hni by (intros Hin; destruct (inv_queue d Hinv a Hin) as (? & ? & _); congruence).
  unfold do_submit_write. unfold bind at 1, on_state at 1. rewrite Ha.
  unfold bind at 1, on_state at 1. cbn [objpool_msg set_objpool_write_op]. rewrite Hb.
  unfold bind at 1, lift. rewrite Hit. cbn [out_map]. unfold bind at 1, gets. unfold bind at 1, write_ctx at 1, modify at 1.
  set (c0 := {| transfer_id := tid |}). set (d1 := set_write_ctxs _ _).
  assert (ctx_ok (ec_ep (conf d)) (rawctx a) c0 (l (rawctx a))) as Hok0 by (split; simpl; (done || lia)).
  assert (efa_inv d1) as Hinv1 by (by apply (inv_insert d a b p q c0 (l (rawctx a)))).
  destruct (ctx_progress d1 a c0 (l (rawctx a)) 1) as (n & c1 & h' & Hrun & Hn & Hm & Hok1 & Heq & Hs & Hpo & Hst);
    [apply lookup_insert_eq|done|done|lia|].
  unfold bind at 1. rewrite Hrun. unfold bind at 1. erewrite efa_read_ctx_run; [|simpl; apply lookup_insert_eq].
  pose proof (co_total _ _ _ _ Hok1) as Ht. rewrite length_drop in Ht.
  destruct (Nat.eqb_spec (cnt_posted_ops c1) (ctx_total_ops c1)) as [He|He]; cbn [negb].
  - assert (n = length (l (rawctx a))) as Hall by lia.
    eexists _, a, n, c1. split; [done|]. split; simpl; [|done| |done| |done| |done|done|done].
    + apply (inv_update (set_hw h' d1) a c0 c1 (drop n (l (rawctx a)))); [by apply inv_set_hw|apply lookup_insert_eq|by rewrite Heq|done|done].
    + by rewrite insert_insert_eq.
    + by rewrite Heq.
    + rewrite decide_True by done. by rewrite app_nil_r.
  - set (c2 := ctx_set c1 (rdma_op_iter c1) (cnt_posted_ops c1) (cnt_finished_ops c1) true (bad c1)).
    eexists _, a, n, c2. split; [done|].
    assert (ctx_ok (ec_ep (conf d)) (rawctx a) c2 (drop n (l (rawctx a)))) as Hok2 by (destruct Hok1; by split).
    split; simpl; [|done| |done| |done| |done|done|done].
    + pose proof (inv_update (set_hw h' d1) a c0 c1 (drop n (l (rawctx a))) (inv_set_hw _ _ Hinv1)
        (lookup_insert_eq _ _ _) ltac:(by rewrite Heq) Hok1 ltac:(done)) as Hi1.
      pose proof (inv_update _ a c1 c2 (drop n (l (rawctx a))) Hi1 (lookup_insert_eq _ _ _) eq_refl Hok2
        ltac:(done)) as Hi2.
      destruct Hi2 as [I1 I2 I3 I4 I5]. split; simpl in *; [exact I1|exact I2|exact I3| |].
      * apply NoDup_app. split; [done|]. split; [set_solver|apply NoDup_singleton].
      * intros x [Hin| ->%list_elem_of_singleton]%elem_of_app; [by apply I5|].
        exists c2. rewrite lookup_insert_eq. simpl. split; [done|]. split; [done|lia].
    + by rewrite !insert_insert_eq.
    + by rewrite Heq.
    + rewrite decide_False; [done|]. intros ->. rewrite Nat.sub_diag in Ht. lia.
Qed.

Lemma submitted_pending tid l d d' a n c ls :
  submitted tid l d d' a n c -> queue_pending d ls -> efa_inv d ->
  queue_pending d' (ls ++ (if decide (n = length l) then [] else [drop n l])).
Proof.
  intros [Hi Hfr Hx Hok (_ & _ & _ & Hb) _ Hq _ [Hcf _] _] Hp Hinv. unfold queue_pending. rewrite Hq.
  apply Forall2_app.
  - refine (queue_pending_frame d (set_write_ops (ed_write_ops d) d') ls Hp eq_refl Hcf _). simpl.
    intros b Hin. rewrite Hx, lookup_insert_ne; [done|]. intros ->.
    destruct (inv_queue d Hinv b Hin) as (? & ? & _). congruence.
  - case_decide; constructor; [|done]. exists c. rewrite Hx, Hcf, lookup_insert_eq. by rewrite Hb.
Qed.

Lemma submitted_multi tid l d d' a n c : submitted tid l d d' a n c -> multi_queued d -> multi_queued d'.
Proof.
  intros [Hi _ Hx Hok (_ & Hpo & _) [Hn _] Hq _ _ _] Hm.
  apply (multi_queued_update d d' a Hm); [intros b Hne; by rewrite Hx, lookup_insert_ne|rewrite Hq; set_solver|].
  intros c'. rewrite Hx, lookup_insert_eq. intros [= <-] _. pose proof (co_total _ _ _ _ Hok) as Htot.
  rewrite length_drop in Htot. split; intros Ht; rewrite decide_False in Hq by lia; [|rewrite Hq; set_solver].
  destruct (inv_queue d' Hi a) as (c0 & Hc0 & Hiq & _); [rewrite Hq; set_solver|].
  rewrite Hx, lookup_insert_eq in Hc0. by simplify_eq.
Qed.
(** ** Completions *)

(** What the completion queue delivers for one message of a write: an entry of [fi_cq_read] or
    one of [fi_cq_readerr]. *)
Inductive write_event : Type := WDone (cqe : fi_cq_data_entry) | WFailed (e : fi_cq_err_entry).

Definition event_of (a : nat) (ev : write_event) : Prop :=
  match ev with
  | WDone cqe => cqe_op_context cqe = rawctx a /\ has_flag (cqe_flags cqe) FI_REMOTE_WRITE = false /\
      has_flag (cqe_flags cqe) FI_WRITE = true
  | WFailed e => ce_op_context e = rawctx a /\ has_flag (ce_flags e) FI_SEND = false /\
      has_flag (ce_flags e) FI_RECV = false /\ has_flag (ce_flags e) FI_WRITE = true
  end.

Definition handle_event (ev : write_event) : M (Shared * EfaDomain (H:=H)) unit :=
  match ev with
  | WDone cqe => handle_and_push cqe
  | WFailed e => on_ed (handle_error_entry e)
  end.

Definition outcome_of d (ev : write_event) : option FabricLibError :=
  match ev with
  | WDone _ => None
  | WFailed e => Some (CompletionError (fi_cq_strerror (ec_cq (conf d)) (ce_prov_errno e) (ce_err_data e) (ed_hw d)))
  end.

Definition event_failed (ev : write_event) : bool := match ev with WFailed _ => true | _ => false end.

(** One more message of [c] has completed. *)
Definition finish (c : WriteOpContext) (ev : write_event) : WriteOpContext :=
  ctx_set c (rdma_op_iter c) (cnt_posted_ops c) (S (cnt_finished_ops c)) (in_queue c)
    (event_failed ev || bad c).

Lemma ctx_of_rawptr a : ctx_of_ptr (rawctx a) = Some a.
Proof. unfold ctx_of_ptr, rawctx. rewrite (proj2 (Z.eqb_neq _ _)) by lia. f_equal. lia. Qed.

(** What is reported for one completion. *)
Definition event_reports d (c : WriteOpContext) (ev : write_event) : list DomainCompletionEntry :=
  match outcome_of d ev with
  | None => if (S (cnt_finished_ops c) <? ctx_total_ops c)%nat then [] else [DcTransfer (transfer_id c)]
  | Some e => if bad c then [] else [DcError (transfer_id c) e]
  end.

(** Whether the completion frees its context: errors always try to, successes only when they are
    the last of the transfer. *)
Definition frees (c : WriteOpContext) (ev : write_event) : bool :=
  (event_failed ev || (ctx_total_ops c <=? S (cnt_finished_ops c))%nat) &&
  (S (cnt_finished_ops c) =? cnt_posted_ops c)%nat && negb (in_queue c).

Lemma on_ed_run {A} (m : M (EfaDomain (H:=H)) A) sh d a d' :
  m d = Done (a, d') -> on_ed m (sh, d) = Done (a, (sh, d')).
Proof. intros Hm. cbv [on_ed on_state]. cbn [snd fst]. by rewrite Hm. Qed.

(** [moved a d d' outs]: [d'] differs from [d] in the context at [a] (and the pools), and has
    reported [outs]. *)
Record moved (a : nat) d d' (outs : list DomainCompletionEntry) : Prop := {
  mv_inv : efa_inv d';
  mv_completions : completions d' = completions d ++ outs;
  mv_hw : ed_hw d' = ed_hw d;
  mv_conf : conf d' = conf d;
  mv_queue : ed_write_ops d' = ed_write_ops d;
  mv_others : forall b, b <> a -> write_ctxs d' !! b = write_ctxs d !! b;
}.

Lemma finish_inv d a c ev :
  efa_inv d -> write_ctxs d !! a = Some c -> (cnt_finished_ops c < cnt_posted_ops c)%nat ->
  moved a d (set_write_ctxs (<[a := finish c ev]> (write_ctxs d)) d) [].
Proof.
  intros Hinv Hc Hlt. destruct (inv_ctx d Hinv a c Hc) as (l & Hok). split; simpl; rewrite ?app_nil_r; try done.
  - apply (inv_update d a c _ l); [done..| |].
    + destruct Hok. split; simpl; (done || lia).
    + intros Hin. destruct (inv_queue d Hinv a Hin) as (c0 & ? & ? & ?). by simplify_eq.
  - intros b Hne. by rewrite lookup_insert_ne.
Qed.

(** Counting a completion and then trying to drop the context. *)
Lemma finish_and_drop d a c ev :
  efa_inv d -> write_ctxs d !! a = Some c -> (cnt_finished_ops c < cnt_posted_ops c)%nat ->
  exists d', maybe_drop_write_op_context a (set_write_ctxs (<[a := finish c ev]> (write_ctxs d)) d) = Done (tt, d') /\
    moved a d d' [] /\
    write_ctxs d' !! a = if (S (cnt_finished_ops c) =? cnt_posted_ops c)%nat && negb (in_queue c)
                         then None else Some (finish c ev).
Proof.
  intros Hinv Hc Hlt. pose proof (finish_inv d a c ev Hinv Hc Hlt) as [Hinv1 Hco1 _ _ _ Hf1].
  set (d1 := set_write_ctxs (<[a := finish c ev]> (write_ctxs d)) d) in *.
  assert (write_ctxs d1 !! a = Some (finish c ev)) as Hc1 by apply lookup_insert_eq.
  destruct (maybe_drop_inv d1 a (finish c ev) Hinv1 Hc1) as (d2 & Hdrop & Hinv2 & Hw2 & Hh2 & Hcf2 & Hco2 & Hf2 & Hfree).
  { intros Hq Hin. destruct (inv_queue d1 Hinv1 a Hin) as (c0 & ? & ? & _). congruence. }
  exists d2. split; [done|]. split.
  { split; [done|by rewrite Hco2|done..|]. intros b Hne. by rewrite Hf2, Hf1. }
  destruct (Nat.eqb_spec (S (cnt_finished_ops c)) (cnt_posted_ops c)) as [He|He], (in_queue c) eqn:Hiq; simpl;
    [|rewrite decide_True in Hfree by done; exact Hfree| |];
    rewrite decide_False in Hfree by (simpl; intros [? ?]; congruence); by rewrite Hfree.
Qed.

Lemma moved_report a d d' outs :
  moved a d d' [] -> moved a d (set_completions (completions d' ++ outs) d') outs.
Proof. intros [? Hc]. rewrite app_nil_r in Hc. split; simpl; [by apply inv_set_completions|by rewrite Hc|done..]. Qed.

(** The completion of one posted message of a live context. *)
Lemma handle_event_run sh d a c ev :
  efa_inv d -> write_ctxs d !! a = Some c -> event_of a ev -> (cnt_finished_ops c < cnt_posted_ops c)%nat ->
  exists d', handle_event ev (sh, d) = Done (tt, (sh, d')) /\ moved a d d' (event_reports d c ev) /\
    write_ctxs d' !! a = if frees c ev then None else Some (finish c ev).
Proof.
  intros Hinv Hc Hev Hlt. destruct (finish_and_drop d a c ev Hinv Hc Hlt) as (d2 & Hdrop & Hmv & Hfree).
  unfold frees, event_reports. destruct ev as [cqe|e]; destruct Hev as (Hctx & Hev);
    unfold finish in Hdrop; cbn [event_failed orb] in Hdrop; cbn [handle_event outcome_of event_failed orb andb].
  - destruct Hev as (Hf1 & Hf2). unfold handle_and_push, handle_cqe. rewrite Hf1, Hf2.
    destruct (Nat.ltb_spec (S (cnt_finished_ops c)) (ctx_total_ops c)) as [Hs|Hs].
    + rewrite (proj2 (Nat.leb_gt _ _) Hs). eexists.
      split; [|split; [apply finish_inv; eauto|apply lookup_insert_eq]].
      unfold bind at 1. erewrite (on_ed_run _ sh d None); [done|]. cbv [handle_write_cqe bind].
      by rewrite Hctx, ctx_of_rawptr, (efa_read_ctx_run d a c Hc), (proj2 (Nat.ltb_lt _ _) Hs).
    + rewrite (proj2 (Nat.leb_le _ _) Hs). eexists. split; [|split; [by apply moved_report|exact Hfree]].
      unfold bind at 1. erewrite (on_ed_run _ sh d (Some _)); [by apply on_ed_run|]. cbv [handle_write_cqe bind].
      rewrite Hctx, ctx_of_rawptr, (efa_read_ctx_run d a c Hc), (proj2 (Nat.ltb_ge _ _) Hs).
      cbv [write_ctx modify]. by rewrite Hdrop.
  - destruct Hev as (Hs1 & Hs2 & Hs3). eexists. split; [|split; [by apply moved_report|exact Hfree]].
    apply on_ed_run. unfold handle_error_entry, bind, error_transfer.
    rewrite Hs1, Hs2, Hs3, Hctx, ctx_of_rawptr. unfold bind. rewrite (efa_read_ctx_run d a c Hc).
    cbv [write_ctx modify]. rewrite Hdrop.
    destruct (bad c); cbv [push_completion modify ret]; [rewrite app_nil_r; by destruct d2|done].
Qed.

(** ** Well-formed writes and their messages *)
Definition efa_write_ok (op : WriteOp) : Prop :=
  match op with WPaged op => efa_paged_ok op | _ => True end.

Definition iter_msgs (it : EfaSingleIter) : list (RmaBuffer * Z) := [(es_buf it, es_flags it)].

Definition write_msgs (op : WriteOp) (addr ctx : Z) : list (RmaBuffer * Z) :=
  match op with
  | WSingle op => iter_msgs (efa_new_single op addr blank_buffer ctx)
  | WImm op => iter_msgs (efa_new_imm op addr blank_buffer ctx)
  | WPaged op => (fun i => (page_msg op addr ctx i, (flags_imm (pw_imm_data op)).2)) <$>
      seq (pw_page_indices_beg op) (pw_page_indices_end op - pw_page_indices_beg op)
  end.

Definition group_msgs (op : GroupWriteOp) (addrs : list Z) (ctx : Z) : list (RmaBuffer * Z) :=
  match op with
  | GScatter op => (fun i => (target_msg_at op addrs ctx i, (flags_imm (sg_imm_data op)).2)) <$>
      seq (sg_dst_beg op) (sg_dst_end op - sg_dst_beg op)
  end.

Lemma fmap_seq_nonempty {A} (f : nat -> A) b n : (0 < n)%nat -> f <$> seq b n <> [].
Proof. destruct n; [lia|done]. Qed.

Lemma construct_write_builds op addr : efa_write_ok op -> builds (construct_write op addr) (write_msgs op addr).
Proof.
  intros Hok ctx. destruct op as [op|op|op]; cbn [construct_write write_msgs].
  - split; [done|]. unfold iter_msgs, efa_new_single. destruct (flags_imm (sw_imm_data op)) as [imm fl].
    split; [repeat constructor; simpl; lia|]. eexists. split; [done|]. split; [|done]. by apply remains_single.
  - split; [done|]. split; [repeat constructor; simpl; lia|]. eexists. split; [done|]. split; [|done]. by apply remains_single.
  - pose proof Hok as (Hb & _). destruct (efa_paged_new_remains op addr blank_buffer ctx Hok) as (it & Hrun & Ht & Hr).
    split; [apply fmap_seq_nonempty; lia|]. split.
    { apply Forall_fmap, Forall_forall. intros i _. split; simpl; [lia|done]. }
    exists (EPaged it). rewrite Hrun. split; [done|]. split; [done|]. simpl. by rewrite Ht, length_fmap, length_seq.
Qed.

Lemma group_builds op addrs :
  efa_scatter_ok op addrs ->
  builds (fun ctx buf => out_map EScatter (efa_scatter_new op addrs buf ctx)) (group_msgs (GScatter op) addrs).
Proof.
  intros Hok ctx. pose proof (eso_range _ _ Hok). cbn [group_msgs].
  destruct (efa_scatter_new_remains op addrs blank_buffer ctx Hok) as (it & Hrun & Ht & Hr).
  split; [apply fmap_seq_nonempty; lia|]. split.
  { apply Forall_fmap, Forall_forall. intros i _. split; simpl; [lia|done]. }
  exists (EScatter it). rewrite Hrun. split; [done|]. split; [done|]. simpl. by rewrite Ht, length_fmap, length_seq.
Qed.

(** ** Resolving addresses *)

(** A step that posts nothing and leaves contexts, queue and completions alone. *)
Record quiet d d' : Prop := {
  qu_ctxs : write_ctxs d' = write_ctxs d;
  qu_pools : objpool_write_op d' = objpool_write_op d /\ objpool_msg d' = objpool_msg d;
  qu_queue : ed_write_ops d' = ed_write_ops d;
  qu_conf : conf d' = conf d;
  qu_completions : completions d' = completions d;
  qu_groups : ed_peer_groups d' = ed_peer_groups d;
  qu_posted : posted (ed_hw d') = posted (ed_hw d);
  qu_descs : same_descs (ed_hw d) (ed_hw d');
}.

#[export] Instance quiet_po : PreOrder quiet.
Proof.
  split; [by split|]. intros d1 d2 d3 [? [? ?] ? ? ? ? ? S1] [? [? ?] ? ? ? ? ? S2].
  split; [congruence|split; congruence|congruence..|by etransitivity].
Qed.

Lemma quiet_inv d d' : quiet d d' -> efa_inv d -> efa_inv d'.
Proof. intros [Hx [Hp Hm] Hq Hc _ _ _ _] []. split; by rewrite ?Hx, ?Hp, ?Hm, ?Hq, ?Hc. Qed.

Lemma quiet_pending d d' ls : quiet d d' -> queue_pending d ls -> queue_pending d' ls.
Proof. intros [Hx _ Hq Hc _ _ _ _] Hp. unfold queue_pending. by rewrite Hx, Hq, Hc. Qed.

Lemma get_or_add_run a d :
  exists r d', get_or_add_remote_addr a d = Done (r, d') /\ quiet d d' /\
    match r with Ok x => peer_addr_map d' !! a = Some x | Err _ => peer_addr_map d' = peer_addr_map d end.
Proof.
  unfold get_or_add_remote_addr. destruct (peer_addr_map d !! a) as [x|] eqn:Ha; [by exists (Ok x), d|].
  cbv [bind dev on_state call]. destruct (fi_av_insert _ _ _) as [r h'] eqn:E.
  destruct (av_insert_documented _ _ _ _ _ E) as [Hs Hp]. cbn [fst snd]. destruct (r.1 =? 1).
  - eexists _, _. split; [done|]. split; [by split|]. simpl. apply lookup_insert_eq.
  - eexists _, _. split; [done|]. by split.
Qed.

Lemma resolve_target_run a d :
  exists r d', resolve_target (Some a) d = Done (r, d') /\ quiet d d'.
Proof.
  cbv [resolve_target bind unwrap ret]. destruct (get_or_add_run a d) as (r & d1 & -> & Hq & _). eauto.
Qed.

Lemma resolve_all op d :
  Forall is_Some (peer_addr_iter op) ->
  exists r d', try_map (peer_addr_iter op) resolve_target d = Done (r, d') /\ quiet d d' /\
    match r with Ok l => length l = length (peer_addr_iter op) | Err _ => True end.
Proof.
  revert d. induction (peer_addr_iter op) as [|oa l IH]; intros d Hall; [by exists (Ok []), d|].
  apply Forall_cons in Hall as [[a ->] Hall]. cbn [try_map]. unfold bind_res, bind.
  destruct (resolve_target_run a d) as (r & d1 & -> & Hq1). destruct r as [x|e]; [|by exists (Err e), d1].
  destruct (IH d1 Hall) as (r & d2 & -> & Hq2 & Hl). destruct r as [xs|e].
  - exists (Ok (x :: xs)), d2. split; [done|]. split; [by etransitivity|]. simpl. by rewrite Hl.
  - exists (Err e), d2. split; [done|]. split; [by etransitivity|done].
Qed.

Lemma add_group_run addrs d :
  exists r d', try_map addrs get_or_add_remote_addr d = Done (r, d') /\ quiet d d'.
Proof.
  revert d. induction addrs as [|a addrs IH]; intros d; [by exists (Ok []), d|]. cbn [try_map]. unfold bind_res, bind.
  destruct (get_or_add_run a d) as (r & d1 & -> & Hq1 & _). destruct r as [x|e]; [|by exists (Err e), d1].
  destruct (IH d1) as ([xs|e] & d2 & -> & Hq2); eexists _, d2; (split; [done|]); by etransitivity.
Qed.

(** ** The domain and the fabric together *)

(** What the domain group calls; [call_ok] is what the requests of the group satisfy. *)
Inductive api_call : Type :=
  | CallWrite (tid : TransferId) (dest : DomainAddress) (op : WriteOp)
  | CallGroup (tid : TransferId) (handle : option PeerGroupHandle) (op : ScatterGroupWriteOp)
  | CallAddGroup (handle : PeerGroupHandle) (addrs : list DomainAddress)
  | CallProgress
  | CallGetCompletion.

Definition run_call (c : api_call) : M (EfaDomain (H:=H)) unit :=
  match c with
  | CallWrite tid dest op => ed_submit_write tid dest op
  | CallGroup tid handle op => ed_submit_group_write tid handle (GScatter op)
  | CallAddGroup handle addrs => ed_add_peer_group handle addrs ;;; ret tt
  | CallProgress => progress_rdma_write_ops
  | CallGetCompletion => ed_get_completion ;;; ret tt
  end.

Definition call_ok d (c : api_call) : Prop :=
  match c with
  | CallWrite _ _ op => efa_write_ok op
  | CallGroup _ (Some h) op => forall l, ed_peer_groups d !! h = Some l -> efa_scatter_ok op l
  | CallGroup _ None op => forall l, length l = length (sg_dsts op) -> efa_scatter_ok op l
  | _ => True
  end.

(** A call that returns, keeps the invariant and posts [ws], each message counted once. *)
Record accounted d d' (ws : list wire) : Prop := {
  ac_inv : efa_inv d';
  ac_posted : posted (ed_hw d') = posted (ed_hw d) ++ ws;
  ac_out : forall b, outstanding d' b = (outstanding d b + occurs b (wire_ctx <$> ws))%nat;
  ac_multi : multi_queued d -> multi_queued d';
}.

Lemma quiet_accounted d d1 d' ws : quiet d d1 -> accounted d1 d' ws -> accounted d d' ws.
Proof.
  intros [Hx _ Hq _ _ _ Hp _] [Hi Hp' Ho Hm]. split; [done|by rewrite Hp', Hp| |].
  - intros b. rewrite Ho. unfold outstanding. by rewrite Hx.
  - intros Hmd. apply Hm. unfold multi_queued, waits. by rewrite Hx, Hq.
Qed.

(** A call that posts nothing and changes no context. *)
Lemma accounted_nil d d' :
  efa_inv d' -> posted (ed_hw d') = posted (ed_hw d) -> write_ctxs d' = write_ctxs d ->
  ed_write_ops d' = ed_write_ops d -> accounted d d' [].
Proof.
  intros Hi Hp Hx Hq. split; [done|by rewrite app_nil_r| |].
  - intros b. unfold outstanding. rewrite Hx. symmetry. apply Nat.add_0_r.
  - unfold multi_queued, waits. by rewrite Hx, Hq.
Qed.

Lemma push_accounted d c : efa_inv d ->
  exists d' ws, push_completion c d = Done (tt, d') /\ accounted d d' ws.
Proof. intros Hi. eexists _, []. split; [done|]. by apply accounted_nil; [apply inv_set_completions|..]. Qed.

Lemma submit_accounted tid f l d :
  efa_inv d -> builds f l -> exists d' ws, do_submit_write tid f d = Done (tt, d') /\ accounted d d' ws.
Proof.
  intros Hi Hf. destruct (do_submit_write_run tid f l d Hi Hf) as (d' & a & n & c & Hrun & Hs).
  pose proof Hs as [Hi' Hfr Hx Hok (_ & Hpo & Hfi & _) [_ Hle] _ Hp _ Hpm].
  eexists _, _. split; [done|]. split; [done..| |by eapply submitted_multi]. intros b.
  rewrite (wire_ctx_of (rawctx a)) by by apply Forall_take. rewrite occurs_replicate, length_take.
  unfold outstanding. rewrite Hx. case_decide as Hab; [subst b|].
  - rewrite lookup_insert_eq, Hfr, Hpo, Hfi. lia.
  - rewrite lookup_insert_ne by done. lia.
Qed.

Lemma inv_pending d : efa_inv d -> exists ls, queue_pending d ls.
Proof.
  intros Hi. pose proof (inv_queue d Hi) as Hq. unfold queue_pending.
  induction (ed_write_ops d) as [|a q IH]; [by exists []|].
  destruct IH as (ls & Hls); [intros b Hin; apply Hq; set_solver|].
  destruct (Hq a ltac:(set_solver)) as (c & Hc & _). destruct (inv_ctx d Hi a c Hc) as (l & Hl).
  exists ((if bad c then [] else l) :: ls). constructor; [|done]. exists c. split; [done|]. by destruct (bad c).
Qed.

(** Every call returns. *)
Lemma run_call_accounted c d :
  efa_inv d -> call_ok d c -> exists d' ws, run_call c d = Done (tt, d') /\ accounted d d' ws.
Proof.
  intros Hi Hok. destruct c as [tid dest op|tid [h|] op|h addrs| |]; cbn [run_call call_ok] in *.
  - unfold ed_submit_write, bind. destruct (get_or_add_run dest d) as (r & d1 & -> & Hq & _).
    pose proof (quiet_inv _ _ Hq Hi) as Hi1. destruct r as [x|e].
    + destruct (submit_accounted tid _ _ d1 Hi1 (construct_write_builds op x Hok)) as (d' & ws & Hrun & Ha).
      exists d', ws. split; [done|]. by eapply quiet_accounted.
    + destruct (push_accounted d1 (DcError tid (resolve_error dest)) Hi1) as (d' & ws & Hrun & Ha).
      exists d', ws. split; [done|]. by eapply quiet_accounted.
  - cbv [ed_submit_group_write bind gets ret]. destruct (ed_peer_groups d !! h) as [l|] eqn:Hg.
    + apply (submit_accounted tid _ (group_msgs (GScatter op) l)); [done|]. apply group_builds, Hok, eq_refl.
    + by apply push_accounted.
  - unfold ed_submit_group_write, bind.
    assert (Forall is_Some (peer_addr_iter (GScatter op))) as Hall.
    { specialize (Hok (replicate (length (sg_dsts op)) 0) (length_replicate _ _)).
      apply Forall_fmap. eapply Forall_impl; [exact (eso_keys _ _ Hok)|]. intros dst [y Hy]. simpl. rewrite Hy. by eexists. }
    destruct (resolve_all (GScatter op) d Hall) as (r & d1 & Hrun1 & Hq & Hl).
    rewrite Hrun1. pose proof (quiet_inv _ _ Hq Hi) as Hi1. destruct r as [l|e].
    + destruct (submit_accounted tid _ _ d1 Hi1 (group_builds op l ltac:(apply Hok; simpl in Hl; by rewrite Hl, length_fmap)))
        as (d' & ws & Hrun & Ha).
      exists d', ws. split; [exact Hrun|]. by eapply quiet_accounted.
    + destruct (push_accounted d1 (DcError tid e) Hi1) as (d' & ws & Hrun & Ha).
      exists d', ws. split; [done|]. by eapply quiet_accounted.
  - unfold ed_add_peer_group, bind. destruct (ed_peer_groups d !! h); [by exists d, []; split; [|by apply accounted_nil]|].
    unfold bind_res, bind. destruct (add_group_run addrs d) as ([l|e] & d1 & -> & Hq);
      pose proof (quiet_inv _ _ Hq Hi) as Hi1; cbv [modify ret]; eexists _, []; (split; [done|]);
      (eapply quiet_accounted; [exact Hq|]); by apply accounted_nil; [destruct Hi1|..].
  - destruct (inv_pending d Hi) as (ls & Hls).
    destruct (write_loop_drains (length (ed_write_ops d)) d ls Hi Hls ltac:(lia)) as (d' & ls' & n & Hrun & Hdr).
    eexists _, _. split; [exact Hrun|]. destruct Hdr. by split.
  - unfold bind, ed_get_completion. destruct (completions d); cbv [ret]; eexists _, []; (split; [done|]);
      by apply accounted_nil; [destruct Hi|..].
Qed.

(** ** Memory registration leaves the writes alone *)
Definition writes_are d0 d : Prop :=
  write_ctxs d = write_ctxs d0 /\ objpool_write_op d = objpool_write_op d0 /\ objpool_msg d = objpool_msg d0 /\
  ed_write_ops d = ed_write_ops d0 /\ conf d = conf d0.

Lemma dev_writes d0 {A} (f : M H A) : keeps (writes_are d0) (dev f).
Proof. by apply keeps_on_state. Qed.
Hint Resolve dev_writes : keeps.
Hint Extern 1 (keeps (writes_are _) (modify _)) => (apply keeps_modify; by intros) : keeps.

Lemma register_mr_writes d0 region remote : keeps (writes_are d0) (register_mr region remote).
Proof.
  intros d r d'. unfold register_mr. destruct (local_mr_map d !! mr_ptr region); [by intros [= _ <-]|].
  revert r d'. match goal with |- forall r d', ?f d = Done (r, d') -> ?P d -> ?P d' =>
    assert (keeps (writes_are d0) f) as Hk by keeps_step; exact (Hk d) end.
Qed.

Lemma unregister_mr_writes d0 ptr : keeps (writes_are d0) (ed_unregister_mr ptr).
Proof.
  intros d r d'. unfold ed_unregister_mr. destruct (local_mr_map d !! ptr); [|by intros [= _ <-]].
  revert r d'. match goal with |- forall r d', ?f d = Done (r, d') -> ?P d -> ?P d' =>
    assert (keeps (writes_are d0) f) as Hk by keeps_step; exact (Hk d) end.
Qed.

Lemma writes_are_inv d d' : writes_are d d' -> efa_inv d -> efa_inv d'.
Proof. intros (Hx & Hp & Hm & Hq & Hc) []. split; by rewrite ?Hx, ?Hp, ?Hm, ?Hq, ?Hc. Qed.

(** The domain with the multiset of operation contexts the fabric has in flight: a call adds the
    contexts of what it posted, and the fabric completes (or fails) in any order only what is in
    flight; registering memory and releasing it post no writes. *)
Inductive efa_reachable : EfaDomain (H:=H) -> list Z -> Prop :=
  | reach_new cf h : efa_reachable (new_domain cf h) []
  | reach_call c d fl d' ws :
      efa_reachable d fl -> call_ok d c -> run_call c d = Done (tt, d') ->
      posted (ed_hw d') = posted (ed_hw d) ++ ws -> efa_reachable d' (fl ++ (wire_ctx <$> ws))
  | reach_register region remote d fl r d' :
      efa_reachable d fl -> register_mr region remote d = Done (r, d') ->
      posted (ed_hw d') = posted (ed_hw d) -> efa_reachable d' fl
  | reach_unregister ptr d fl r d' :
      efa_reachable d fl -> ed_unregister_mr ptr d = Done (r, d') ->
      posted (ed_hw d') = posted (ed_hw d) -> efa_reachable d' fl
  | reach_event a ev sh d fl sh' d' fl' :
      efa_reachable d fl -> event_of a ev -> fl ≡ₚ rawctx a :: fl' ->
      handle_event ev (sh, d) = Done (tt, (sh', d')) -> efa_reachable d' fl'.

Lemma occurs_perm a l l' : l ≡ₚ l' -> occurs a l = occurs a l'.
Proof. intros Hp. unfold occurs. by apply Permutation_count_occ. Qed.

Lemma occurs_cons_eq a l : occurs a (rawctx a :: l) = S (occurs a l).
Proof. apply count_occ_cons_eq. done. Qed.

Lemma occurs_cons_ne a b l : b <> a -> occurs b (rawctx a :: l) = occurs b l.
Proof. intros Hne. apply count_occ_cons_neq. unfold rawctx. lia. Qed.

(** A context in flight is live. *)
Lemma in_flight_live d fl a :
  (forall b, outstanding d b = occurs b fl) -> rawctx a ∈ fl ->
  exists c, write_ctxs d !! a = Some c /\ (cnt_finished_ops c < cnt_posted_ops c)%nat.
Proof.
  intros Ho Hin. specialize (Ho a). unfold outstanding, occurs in Ho.
  apply list_elem_of_In, (count_occ_In Z.eq_dec) in Hin.
  destruct (write_ctxs d !! a) as [c|]; [|lia]. exists c. split; [done|lia].
Qed.

Lemma event_outstanding d a c ev d' :
  efa_inv d -> write_ctxs d !! a = Some c -> event_of a ev -> (cnt_finished_ops c < cnt_posted_ops c)%nat ->
  moved a d d' (event_reports d c ev) -> write_ctxs d' !! a = (if frees c ev then None else Some (finish c ev)) ->
  outstanding d a = S (outstanding d' a) /\ forall b, b <> a -> outstanding d' b = outstanding d b.
Proof.
  intros Hi Hc Hev Hlt Hmv Hx. split.
  - unfold outstanding. rewrite Hc, Hx. destruct (frees c ev) eqn:Hfr; simpl; [|lia].
    unfold frees in Hfr. rewrite !andb_true_iff, Nat.eqb_eq in Hfr. lia.
  - intros b Hne. unfold outstanding. by rewrite (mv_others _ _ _ _ Hmv).
Qed.

Lemma reachable_inv d fl :
  efa_reachable d fl -> efa_inv d /\ (forall b, outstanding d b = occurs b fl) /\ multi_queued d.
Proof.
  assert (forall d0 d1 fl0, writes_are d0 d1 ->
    efa_inv d0 /\ (forall b, outstanding d0 b = occurs b fl0) /\ multi_queued d0 ->
    efa_inv d1 /\ (forall b, outstanding d1 b = occurs b fl0) /\ multi_queued d1) as Hsame.
  { intros d0 d1 fl0 Hw (Hi & Ho & Hm). pose proof (writes_are_inv _ _ Hw Hi). destruct Hw as (Hx & _ & _ & Hq & _).
    unfold outstanding, multi_queued, waits in *. by rewrite Hx, Hq. }
  induction 1 as [cf h|c d fl d' ws _ (Hi & Ho & Hm) Hok Hrun Hp|region remote d fl r d' _ IH Hrun _|
    ptr d fl r d' _ IH Hrun _|a ev sh d fl sh' d' fl' _ (Hi & Ho & Hm) Hev Hfl Hrun].
  - split; [apply new_domain_inv|]. done.
  - destruct (run_call_accounted c d Hi Hok) as (d1 & ws1 & Hrun1 & [Hi1 Hp1 Ho1 Hm1]).
    rewrite Hrun in Hrun1. injection Hrun1 as <-.
    rewrite Hp in Hp1. apply app_inv_head in Hp1 as <-. split; [done|]. split; [|auto].
    intros b. by rewrite Ho1, Ho, occurs_app.
  - exact (Hsame d d' fl (register_mr_writes d _ _ _ _ _ Hrun ltac:(done)) IH).
  - exact (Hsame d d' fl (unregister_mr_writes d _ _ _ _ Hrun ltac:(done)) IH).
  - destruct (in_flight_live d fl a Ho) as (c & Hc & Hlt); [rewrite Hfl; set_solver|].
    destruct (handle_event_run sh d a c ev Hi Hc Hev Hlt) as (d1 & Hrun1 & Hmv & Hx).
    rewrite Hrun in Hrun1. injection Hrun1 as -> <-. split; [exact (mv_inv _ _ _ _ Hmv)|].
    destruct (event_outstanding d a c ev d' Hi Hc Hev Hlt Hmv Hx) as [Ha Hb].
    split; [intros b; destruct (decide (b = a)) as [->|Hne]|].
    + rewrite (Ho a), (occurs_perm a _ _ Hfl), occurs_cons_eq in Ha. by injection Ha.
    + by rewrite Hb, Ho, (occurs_perm b _ _ Hfl), occurs_cons_ne.
    + apply (multi_queued_update d d' a Hm); [by destruct Hmv|by destruct Hmv as [? ? ? ? -> ?]|]. rewrite Hx. intros c'.
      destruct (frees c ev); [done|]. intros [= <-] [_ Hb0]%orb_false_iff. destruct (Hm a c Hc Hb0) as [? ?].
      split; [done|]. by rewrite (mv_queue _ _ _ _ Hmv).
Qed.

(** C15: no completion reaches a freed write context, and no call gets stuck.  In every state of
    the libfabric domain reachable by well-formed submissions, group writes, progress passes,
    memory registrations and completions (successes and errors in any order, of messages that are in flight), every call
    returns without a panic, and for every message in flight its context is live and handling
    its completion or error returns: the context was not freed while one of its messages was
    outstanding. *)
Theorem efa_contexts_never_dangle d fl :
  efa_reachable d fl ->
  (forall c, call_ok d c -> exists d', run_call c d = Done (tt, d')) /\
  (forall sh a ev, event_of a ev -> rawctx a ∈ fl ->
    exists c d', write_ctxs d !! a = Some c /\ handle_event ev (sh, d) = Done (tt, (sh, d'))).
Proof.
  intros (Hi & Ho & _)%reachable_inv. split.
  - intros c Hok. destruct (run_call_accounted c d Hi Hok) as (d' & ws & Hrun & _). by exists d'.
  - intros sh a ev Hev Hin. destruct (in_flight_live d fl a Ho Hin) as (c & Hc & Hlt).
    destruct (handle_event_run sh d a c ev Hi Hc Hev Hlt) as (d' & Hrun & _). by exists c, d'.
Qed.

(** C16: a pass over the write queue posts its messages in order and each once.  [ls] has, for each
    queued context, the messages it still has to post (none if it failed).  Whatever the
    endpoint accepts, the pass returns; it hands the first [n] messages of the concatenation of
    [ls] to the endpoint, in order and unchanged, and the rest stays queued in order; it stops
    only when nothing is left, after at least 32 messages, or at a message the endpoint refused
    with [-FI_EAGAIN]. *)
Theorem efa_progress_posts_queue_in_order d fl ls :
  efa_reachable d fl -> queue_pending d ls ->
  exists d' ls' n, progress_rdma_write_ops d = Done (tt, d') /\ queue_pending d' ls' /\
    (n <= length (concat ls))%nat /\ concat ls' = drop n (concat ls) /\
    posted (ed_hw d') = posted (ed_hw d) ++ (wire_of (ed_hw d) (ec_ep (conf d)) <$> take n (concat ls)) /\
    ((32 <= n)%nat \/ stopped (ec_ep (conf d)) (concat ls') (ed_hw d')).
Proof.
  intros (Hi & _)%reachable_inv Hp.
  destruct (write_loop_drains (length (ed_write_ops d)) d ls Hi Hp ltac:(lia)) as (d' & ls' & n & Hrun & Hdr).
  exists d', ls', n. destruct Hdr. done.
Qed.

(** Submitting a write.  If the address cannot be resolved, the only effect is one error
    completion.  Otherwise the write gets a context in a slot no live context uses, at most its
    first message is posted at once (also when older writes are waiting), and the remaining
    messages are queued behind everything queued before. *)
Theorem efa_submit_write_queues tid dest op d fl ls :
  efa_reachable d fl -> queue_pending d ls -> efa_write_ok op ->
  exists d', ed_submit_write tid dest op d = Done (tt, d') /\
    ((completions d' = completions d ++ [DcError tid (resolve_error dest)] /\
      write_ctxs d' = write_ctxs d /\ posted (ed_hw d') = posted (ed_hw d) /\ queue_pending d' ls) \/
     (exists x a n, let l := write_msgs op x (rawctx a) in
      peer_addr_map d' !! dest = Some x /\ write_ctxs d !! a = None /\ (n <= 1)%nat /\ (n <= length l)%nat /\
      completions d' = completions d /\
      posted (ed_hw d') = posted (ed_hw d) ++ (wire_of (ed_hw d) (ec_ep (conf d)) <$> take n l) /\
      queue_pending d' (ls ++ (if decide (n = length l) then [] else [drop n l])))).
Proof.
  intros (Hi & _)%reachable_inv Hp Hok. unfold ed_submit_write, bind.
  destruct (get_or_add_run dest d) as (r & d1 & -> & Hq & Hr). pose proof (quiet_inv _ _ Hq Hi) as Hi1.
  pose proof (quiet_pending _ _ _ Hq Hp) as Hp1. pose proof Hq as [Hx _ _ Hc Hco _ Hpo Hs].
  destruct r as [x|e].
  - destruct (do_submit_write_run tid _ _ d1 Hi1 (construct_write_builds op x Hok)) as (d' & a & n & c & Hrun & Hsub).
    exists d'. split; [done|]. right. exists x, a, n. pose proof Hsub as [_ Hf _ _ _ [Hn1 Hn] _ Hpost (_ & Hco' & Hm) _].
    split; [by rewrite Hm|]. split; [by rewrite <- Hx|]. split; [done|]. split; [done|]. split; [by rewrite Hco'|].
    split; [by rewrite Hpost, Hpo, Hc, (wires_same (ed_hw d))|]. by eapply submitted_pending.
  - eexists. split; [done|]. left. simpl. by rewrite Hco.
Qed.

(** ** The life of a fully posted write *)
Lemma reports_step d c ev rest :
  length (ev :: rest) = (ctx_total_ops c - cnt_finished_ops c)%nat ->
  event_reports d c ev ++ write_reports (transfer_id c) (event_failed ev || bad c) (outcome_of d <$> rest) =
  write_reports (transfer_id c) (bad c) (outcome_of d <$> (ev :: rest)).
Proof.
  intros Hlen. unfold event_reports. rewrite fmap_cons. destruct ev as [cqe|e]; cbn [outcome_of event_failed write_reports orb].
  - destruct rest as [|ev2 rest]; cbn [length fmap list_fmap] in *.
    + by rewrite (proj2 (Nat.ltb_ge _ _)) by lia.
    + by rewrite (proj2 (Nat.ltb_lt _ _)) by lia.
  - done.
Qed.

(** Only a context that does not say it is queued is freed. *)
Lemma write_events sh d a c evs :
  efa_inv d -> write_ctxs d !! a = Some c -> evs <> [] -> Forall (event_of a) evs ->
  length evs = (ctx_total_ops c - cnt_finished_ops c)%nat -> cnt_posted_ops c = ctx_total_ops c ->
  exists d', for_each evs handle_event (sh, d) = Done (tt, (sh, d')) /\
    moved a d d' (write_reports (transfer_id c) (bad c) (outcome_of d <$> evs)) /\
    (if in_queue c then exists c', write_ctxs d' !! a = Some c' /\ cnt_finished_ops c' = ctx_total_ops c'
     else write_ctxs d' !! a = None).
Proof.
  revert d c. induction evs as [|ev evs IH]; intros d c Hi Hc Hne Hall Hlen Hpost; [done|].
  apply Forall_cons in Hall as [Hev Hall].
  destruct (handle_event_run sh d a c ev Hi Hc Hev) as (d1 & Hrun & Hmv & Hx); [simpl in Hlen; lia|].
  cbn [for_each]. unfold bind. rewrite Hrun, <- (reports_step d c ev evs Hlen). unfold frees in Hx.
  destruct evs as [|ev2 evs].
  - exists d1. split; [done|]. simpl in Hlen. cbn [fmap list_fmap write_reports]. rewrite app_nil_r. split; [done|].
    rewrite (proj2 (Nat.leb_le _ _)), (proj2 (Nat.eqb_eq _ _)), orb_true_r in Hx by lia.
    destruct (in_queue c); [|exact Hx]. eexists. split; [exact Hx|]. simpl. lia.
  - cbn [length] in Hlen. rewrite (proj2 (Nat.eqb_neq _ _)), andb_false_r in Hx by lia. cbn [andb] in Hx.
    destruct Hmv as [Hi1 Hco1 Hh1 Hcf1 Hq1 Hf1].
    destruct (IH d1 (finish c ev) Hi1 Hx) as (d2 & Hrun2 & [Hi2 Hco2 Hh2 Hcf2 Hq2 Hf2] & Hnone);
      [done|done|simpl; lia|done|].
    exists d2. split; [done|]. split; [|done].
    split; [done| |congruence..|intros b Hb; by rewrite Hf2, Hf1].
    rewrite Hco2, Hco1, <- (assoc_L (++)). do 2 f_equal. cbn [finish ctx_set transfer_id bad].
    f_equal. apply list_fmap_ext. intros _ [?|e] _; [done|]. unfold outcome_of. by rewrite Hh1, Hcf1.
Qed.

Lemma outcomes_success d evs :
  Forall (fun r => r = None) (outcome_of d <$> evs) <-> Forall (fun ev => event_failed ev = false) evs.
Proof. rewrite Forall_fmap. apply Forall_iff. by intros []. Qed.

(** The completions of a fully posted write.  When all messages of a context complete, in any
    mix of successes and errors, handling them touches no other context and reports the
    transfer exactly once if all succeeded and exactly one error otherwise; the context is
    returned to its pool if it never waited in the queue, and stays allocated otherwise. *)
Theorem efa_write_context_completes sh d fl a c evs :
  efa_reachable d fl -> write_ctxs d !! a = Some c -> evs <> [] -> Forall (event_of a) evs ->
  cnt_finished_ops c = 0%nat -> length evs = ctx_total_ops c -> cnt_posted_ops c = ctx_total_ops c ->
  bad c = false ->
  exists d' outs, for_each evs handle_event (sh, d) = Done (tt, (sh, d')) /\
    (if in_queue c then exists c', write_ctxs d' !! a = Some c' /\ cnt_finished_ops c' = ctx_total_ops c'
     else write_ctxs d' !! a = None) /\
    (forall b, b <> a -> write_ctxs d' !! b = write_ctxs d !! b) /\ completions d' = completions d ++ outs /\
    (Forall (fun ev => event_failed ev = false) evs -> outs = [DcTransfer (transfer_id c)]) /\
    (~ Forall (fun ev => event_failed ev = false) evs -> length (filter is_error outs) = 1%nat).
Proof.
  intros (Hi & _)%reachable_inv Hc Hne Hall Hf Hlen Hpost Hb.
  destruct (write_events sh d a c evs) as (d' & Hrun & Hmv & Hnone); [done..|lia|done|].
  exists d', (write_reports (transfer_id c) false (outcome_of d <$> evs)). rewrite Hb in *. destruct Hmv.
  do 4 (split; [done|]). split.
  - intros Hs. apply write_reports_success; [by destruct evs|by apply outcomes_success].
  - intros Hn. rewrite write_reports_errors. by rewrite decide_False by by rewrite outcomes_success.
Qed.

(** A write of two or more messages is never freed.  Such a write always waits in the queue,
    and when it is fully posted it leaves the queue with [in_queue] still set; when all its
    messages then complete successfully the transfer is reported, but the context stays
    allocated although nothing of it is outstanding and neither the queue nor the pool's free
    list has it. *)
Theorem efa_multi_message_write_leaks sh d fl a c evs :
  efa_reachable d fl -> write_ctxs d !! a = Some c -> (2 <= ctx_total_ops c)%nat -> bad c = false ->
  cnt_posted_ops c = ctx_total_ops c -> cnt_finished_ops c = 0%nat ->
  Forall (event_of a) evs -> length evs = ctx_total_ops c -> Forall (fun ev => event_failed ev = false) evs ->
  exists d' c', for_each evs handle_event (sh, d) = Done (tt, (sh, d')) /\
    completions d' = completions d ++ [DcTransfer (transfer_id c)] /\
    write_ctxs d' !! a = Some c' /\ cnt_finished_ops c' = ctx_total_ops c' /\
    a ∉ ed_write_ops d' /\ a ∉ op_free_list (objpool_write_op d').
Proof.
  intros (Hi & _ & Hm)%reachable_inv Hc Ht Hb Hpost Hf Hall Hlen Hok.
  assert (evs <> []) as Hne by (intros ->; simpl in Hlen; lia).
  destruct (write_events sh d a c evs) as (d' & Hrun & Hmv & Hx); [done..|lia|done|].
  rewrite (proj1 (Hm a c Hc Hb) Ht) in Hx. destruct Hx as (c' & Hc' & Hfin). exists d', c'.
  destruct Hmv as [Hi' Hco _ _ Hq _]. split; [done|]. split; [|split; [done|split; [done|split]]].
  - rewrite Hco, Hb, write_reports_success; [done|by destruct evs|by apply outcomes_success].
  - intros Hin. rewrite Hq in Hin. destruct (inv_queue d Hi a Hin) as (c0 & Hc0 & _ & Hlt). simplify_eq. lia.
  - intros Hin. pose proof (pool_nodup _ _ (inv_pool d' Hi')) as Hnd. apply NoDup_app in Hnd as (_ & Hd & _).
    apply (Hd a); [|done]. apply list_elem_of_fmap. exists (a, c'). split; [done|]. by apply elem_of_map_to_list.
Qed.
End Invariant.

(** ** A device for the witnesses

    An endpoint with room for a bounded number of writes, an address vector that numbers its
    entries, objects numbered as they are opened, and a current CUDA device. *)
Record EfaToy := {
  e_room : nat; e_posted : list wire; e_next : Z; e_fids : list Z; e_device : Z; e_enable : Z;
}.

Definition toy_post (w : wire) (t : EfaToy) : Z * EfaToy :=
  match e_room t with
  | O => (EAGAIN, t)
  | S room => (0, {| e_room := room; e_posted := e_posted t ++ [w]; e_next := e_next t; e_fids := e_fids t;
                     e_device := e_device t; e_enable := e_enable t |})
  end.

Definition toy_fids (next : Z) (l : list Z) (t : EfaToy) : EfaToy :=
  {| e_room := e_room t; e_posted := e_posted t; e_next := next; e_fids := l; e_device := e_device t;
     e_enable := e_enable t |}.

Fixpoint remove_first (p : Z) (l : list Z) : list Z :=
  match l with [] => [] | x :: l => if x =? p then l else x :: remove_first p l end.

Definition toy_open (t : EfaToy) : Z * option Z * EfaToy :=
  (0, Some (e_next t), toy_fids (e_next t + 1) (e_next t :: e_fids t) t).

Definition toy_set_device (v : Z) (t : EfaToy) : EfaToy :=
  {| e_room := e_room t; e_posted := e_posted t; e_next := e_next t; e_fids := e_fids t; e_device := v;
     e_enable := e_enable t |}.

#[export] Instance efa_toy_hw : EfaHw EfaToy := {|
  fi_fabric := toy_open;
  fi_domain := fun _ => toy_open;
  fi_cq_open := fun _ => toy_open;
  fi_av_open := fun _ => toy_open;
  fi_endpoint := fun _ => toy_open;
  fi_ep_bind := fun _ _ _ t => (0, t);
  fi_setopt_cuda_api_permitted := fun _ _ t => (0, t);
  fi_enable := fun _ t => (e_enable t, t);
  fi_getname := fun _ n t => (0, (replicate n 0, Nat.min n 32), t);
  fi_close := fun p t => toy_fids (e_next t) (remove_first p (e_fids t)) t;
  fi_av_insert := fun _ _ t => (1, e_next t, toy_fids (e_next t + 1) (e_fids t) t);
  fi_mr_regattr := fun _ _ _ t =>
    (0, Some {| mr_fid := e_next t; mr_key := 21; mr_mem_desc := 9 |}, toy_fids (e_next t + 1) (e_next t :: e_fids t) t);
  fi_mr_bind := fun _ _ t => (0, t);
  fi_recvmsg := fun _ _ t => (0, t);
  fi_sendmsg := fun _ _ t => (0, t);
  fi_writedata := fun ep w => toy_post (Wdata ep w);
  fi_writemsg := fun ep b fl => toy_post (Wmsg ep b fl);
  fi_cq_read := fun _ _ t => (- FI_EAGAIN, [], t);
  fi_cq_readerr := fun _ t => (1, {| ce_op_context := 0; ce_flags := 0; ce_prov_errno := 0; ce_err_data := 0 |}, t);
  fi_cq_strerror := fun _ _ _ _ => "error"%string;
  mem_desc_at := fun p _ => p;
  cudaGetDevice := fun t => (Some (e_device t), t);
  cudaSetDevice := toy_set_device;
|}.

#[export] Program Instance efa_toy_laws : EfaHwLaws EfaToy := {| posted := e_posted |}.
Next Obligation.
  intros ep b fl h r h'. simpl. unfold toy_post. destruct (e_room h); intros; simplify_eq; split; auto.
Qed.
Next Obligation.
  intros ep w h r h'. simpl. unfold toy_post. destruct (e_room h); intros; simplify_eq; split; auto.
Qed.
Next Obligation. intros av b h r h'. simpl. intros; simplify_eq; split; auto. Qed.

Definition toy_conf : EfaConf := {|
  ec_name := "cxi0"; ec_link_speed := 200; ec_fabric := 1; ec_domain := 2; ec_ep := 5; ec_cq := 3; ec_av := 4;
  ec_addr := {| addr_bytes := [1; 2] |} |}.

Definition toy_device (room : nat) : EfaToy :=
  {| e_room := room; e_posted := []; e_next := 10; e_fids := []; e_device := 0; e_enable := 0 |}.
Definition toy_start (room : nat) : EfaDomain := new_domain toy_conf (toy_device room).

Definition three_pages : PagedWriteOp := {|
  pw_src_page_indices := [4; 0; 2; 7]; pw_dst_page_indices := [1; 3; 5; 6]; pw_page_indices_beg := 1;
  pw_page_indices_end := 4; pw_length := 64; pw_src_ptr := 4096; pw_src_desc := 9; pw_src_stride := 128;
  pw_src_offset := 8; pw_dst_ptr := 8192; pw_dst_rkey := 21; pw_dst_stride := 64; pw_dst_offset := 512;
  pw_imm_data := Some 77 |}.

Definition toy_peer : DomainAddress := {| addr_bytes := [7; 7] |}.

Lemma three_pages_ok : efa_paged_ok three_pages.
Proof. repeat split; simpl; lia. Qed.

(** The state after some calls, and what they left in flight. *)
Definition toy_after (room : nat) (cs : list api_call) : EfaDomain (H:=EfaToy) :=
  state_of (toy_start 0) (for_each cs run_call (toy_start room)).
Definition toy_flying (room : nat) (cs : list api_call) : list Z :=
  wire_ctx <$> e_posted (ed_hw (toy_after room cs)).

Definition write_pages : api_call := CallWrite 7 toy_peer (WPaged three_pages).
Definition one_write : SingleWriteOp := {|
  sw_src_ptr := 4096; sw_src_desc := 9; sw_src_offset := 0; sw_length := 64; sw_imm_data := None;
  sw_dst_ptr := 8192; sw_dst_rkey := 21; sw_dst_offset := 16 |}.

Lemma write_pages_reachable room :
  run_call write_pages (toy_start room) = Done (tt, toy_after room [write_pages]) ->
  efa_reachable (toy_after room [write_pages]) (toy_flying room [write_pages]).
Proof.
  intros Hrun. apply (reach_call write_pages (toy_start room) [] (toy_after room [write_pages])
    (e_posted (ed_hw (toy_after room [write_pages])))); [apply reach_new|apply three_pages_ok|exact Hrun|done].
Qed.

Lemma pages_posted_reachable :
  efa_reachable (toy_after 9 [write_pages; CallProgress]) (toy_flying 9 [write_pages; CallProgress]).
Proof.
  apply (reach_call CallProgress (toy_after 9 [write_pages]) (toy_flying 9 [write_pages])
    (toy_after 9 [write_pages; CallProgress]) (drop 1 (e_posted (ed_hw (toy_after 9 [write_pages; CallProgress]))))).
  - apply write_pages_reachable. vm_compute. reflexivity.
  - done.
  - vm_compute. reflexivity.
  - vm_compute. reflexivity.
Qed.

Lemma efa_contexts_never_dangle_witness :
  toy_flying 1 [write_pages] = [1] /\
  (forall c, call_ok (toy_after 1 [write_pages]) c ->
    exists d', run_call c (toy_after 1 [write_pages]) = Done (tt, d')) /\
  (forall sh a ev, event_of a ev -> rawctx a ∈ toy_flying 1 [write_pages] ->
    exists c d', write_ctxs (toy_after 1 [write_pages]) !! a = Some c /\
      handle_event ev (sh, toy_after 1 [write_pages]) = Done (tt, (sh, d'))).
Proof.
  split; [vm_compute; reflexivity|].
  apply (efa_contexts_never_dangle (toy_after 1 [write_pages]) (toy_flying 1 [write_pages])), write_pages_reachable.
  vm_compute; reflexivity.
Defined.

Definition blank_ctx : WriteOpContext :=
  {| transfer_id := 0; rdma_op_iter := ESingle (efa_new_single one_write 0 blank_buffer 0); msg_buf := 0; ctx_ep := 0;
     ctx_total_ops := 0; cnt_posted_ops := 0; cnt_finished_ops := 0; in_queue := false; bad := false |}.

(** [x] computed, as a goal rewrites with it. *)
Ltac compute_term x :=
  let y := eval vm_compute in x in replace x with y by (vm_compute; reflexivity).

(** The pages that are left after the eager post. *)
Definition waiting_ctx : WriteOpContext :=
  default blank_ctx (write_ctxs (toy_after 2 [write_pages]) !! 0%nat).

Lemma write_pages_pending :
  queue_pending (toy_after 2 [write_pages]) [drop 1 (write_msgs (WPaged three_pages) 10 1)].
Proof.
  unfold queue_pending. compute_term (ed_write_ops (toy_after 2 [write_pages])).
  compute_term (ec_ep (conf (toy_after 2 [write_pages]))).
  compute_term (drop 1 (write_msgs (WPaged three_pages) 10 1)).
  constructor; [|constructor]. exists waiting_ctx. split; [vm_compute; reflexivity|].
  compute_term (bad waiting_ctx).
  split; [vm_compute; reflexivity| |repeat constructor; simpl; lia|vm_compute; reflexivity|vm_compute; lia].
  compute_term (rdma_op_iter waiting_ctx).
  repeat (eapply remains_cons; [vm_compute; reflexivity|vm_compute; reflexivity|]).
  apply remains_nil. vm_compute. reflexivity.
Qed.

Lemma efa_progress_posts_queue_in_order_witness :
  let d := toy_after 2 [write_pages] in
  let l := drop 1 (write_msgs (WPaged three_pages) 10 1) in
  length l = 2%nat /\
  exists d' ls' n, progress_rdma_write_ops d = Done (tt, d') /\ queue_pending d' ls' /\ (n <= 2)%nat /\
    concat ls' = drop n (concat [l]) /\
    e_posted (ed_hw d') = e_posted (ed_hw d) ++ (wire_of (ed_hw d) 5 <$> take n (concat [l])).
Proof.
  split; [reflexivity|].
  destruct (efa_progress_posts_queue_in_order (toy_after 2 [write_pages]) (toy_flying 2 [write_pages])
    [drop 1 (write_msgs (WPaged three_pages) 10 1)]) as (d' & ls' & n & Hrun & Hp & Hn & Hr & Hpo & _).
  - apply write_pages_reachable. vm_compute; reflexivity.
  - apply write_pages_pending.
  - exists d', ls', n. split; [exact Hrun|]. split; [exact Hp|]. split; [exact Hn|]. split; [exact Hr|exact Hpo].
Defined.

Lemma efa_submit_write_queues_witness :
  exists d', ed_submit_write 7 toy_peer (WPaged three_pages) (toy_start 2) = Done (tt, d') /\
    completions d' = [] /\ exists ls', queue_pending d' ls'.
Proof.
  destruct (efa_submit_write_queues 7 toy_peer (WPaged three_pages) (toy_start 2) [] [])
    as (d' & Hrun & [(Hco & _)|(x & a & n & _ & _ & _ & _ & Hco & _ & Hq)]);
    [apply reach_new|constructor|apply three_pages_ok|..]; exists d'; (split; [exact Hrun|]).
  - exfalso. vm_compute in Hrun. injection Hrun as <-. discriminate Hco.
  - split; [exact Hco|]. by eexists.
Defined.

(** Completions of messages of the context in slot 0. *)
Definition toy_done : write_event :=
  WDone {| cqe_op_context := 1; cqe_flags := Z.lor FI_WRITE 4; cqe_len := 0; cqe_data := 0 |}.
Definition toy_failed : write_event :=
  WFailed {| ce_op_context := 1; ce_flags := FI_WRITE; ce_prov_errno := 5; ce_err_data := 0 |}.

Definition posted_pages : EfaDomain (H:=EfaToy) := toy_after 9 [write_pages; CallProgress].
Definition pages_ctx : WriteOpContext := default blank_ctx (write_ctxs posted_pages !! 0%nat).

Lemma efa_write_context_completes_witness :
  exists d' outs, for_each [toy_done; toy_failed; toy_failed] handle_event (new_map, posted_pages) =
      Done (tt, (new_map, d')) /\
    completions d' = outs /\ length (filter is_error outs) = 1%nat.
Proof.
  destruct (efa_write_context_completes new_map posted_pages (toy_flying 9 [write_pages; CallProgress]) 0 pages_ctx
    [toy_done; toy_failed; toy_failed]) as (d' & outs & Hrun & _ & _ & Hco & _ & He);
    [apply pages_posted_reachable|vm_compute; reflexivity|done|
     repeat constructor|vm_compute; reflexivity..|].
  exists d', outs. split; [exact Hrun|]. split; [exact Hco|]. apply He. intros Hall.
  repeat (apply Forall_cons_1 in Hall as [? Hall]). done.
Defined.

Lemma efa_multi_message_write_leaks_witness :
  exists d' c', for_each [toy_done; toy_done; toy_done] handle_event (new_map, posted_pages) =
      Done (tt, (new_map, d')) /\
    completions d' = [DcTransfer 7] /\ write_ctxs d' !! 0%nat = Some c' /\
    0%nat ∉ op_free_list (objpool_write_op d').
Proof.
  destruct (efa_multi_message_write_leaks new_map posted_pages (toy_flying 9 [write_pages; CallProgress]) 0 pages_ctx
    [toy_done; toy_done; toy_done]) as (d' & c' & Hrun & Hco & Hc' & _ & _ & Hf);
    [apply pages_posted_reachable|vm_compute; reflexivity|vm_compute; lia|vm_compute; reflexivity..|
     repeat constructor|reflexivity|repeat constructor|].
  exists d', c'. split; [exact Hrun|]. split; [exact Hco|]. split; [exact Hc'|exact Hf].
Defined.
