(* ===== verification/EfaGroup.v ===== *)
(** * A domain group of libfabric domains

    The plans of the group composed with what each libfabric domain does with its share: which
    messages a paged request queues at which endpoint, and what the group reports when the
    fabric has completed them. *)
From stdpp Require Import prelude gmap strings list.
From S2P Require Import Prelude Api ImmCount Sharding Provider DomainGroup DomainGroupSpec Completion WritePlan.
From S2P Require Import GroupShares Utils EfaRdmaOp EfaDomain EfaSpec.
Local Open Scope Z_scope.

Section Endpoints.
Context {H : Type} `{EfaHwLaws H} (fuel : nat).
#[local] Instance endpoint_domain : RdmaDomain (EfaDomain (H:=H)) := efa_domain fuel.
#[local] Instance endpoint_laws : RdmaDomainLaws (EfaDomain (H:=H)) := efa_laws fuel.
Implicit Types d : EfaDomain (H:=H).

(** ** Submitting *)

(** The share of a domain for the peer [a].  Unless the address cannot be resolved, which leaves
    one error entry, the messages of its pages are in a context of their own: at most the first
    one is posted, the others wait behind what waited before. *)
Definition share_queued (tid : TransferId) (dest : DomainAddress) (op : PagedWriteOp) d d' : Prop :=
  efa_inv d' /\ (multi_queued d -> multi_queued d') /\ conf d' = conf d /\
  ((peer_addr_map d !! dest = None /\ completions d' = completions d ++ [DcError tid (resolve_error dest)] /\
    write_ctxs d' = write_ctxs d /\ posted (ed_hw d') = posted (ed_hw d) /\ ed_write_ops d' = ed_write_ops d) \/
   (exists x a n c, let l := write_msgs (WPaged op) x (rawctx a) in
    peer_addr_map d' !! dest = Some x /\ write_ctxs d !! a = None /\ write_ctxs d' = <[a := c]> (write_ctxs d) /\
    (n <= 1)%nat /\ transfer_id c = tid /\ cnt_posted_ops c = n /\ cnt_finished_ops c = 0%nat /\ bad c = false /\
    ctx_total_ops c = (pw_page_indices_end op - pw_page_indices_beg op)%nat /\
    completions d' = completions d /\
    posted (ed_hw d') = posted (ed_hw d) ++ (wire_of (ed_hw d) (ec_ep (conf d)) <$> take n l) /\
    ed_write_ops d' = ed_write_ops d ++ (if decide (n = length l) then [] else [a]) /\
    (forall ls, queue_pending d ls -> queue_pending d' (ls ++ (if decide (n = length l) then [] else [drop n l]))))).

Lemma efa_submit_share tid dest op d :
  efa_inv d -> efa_paged_ok op ->
  exists d', ed_submit_write tid dest (WPaged op) d = Done (tt, d') /\ share_queued tid dest op d d'.
Proof.
  intros Hi Hop. unfold ed_submit_write, bind. destruct (get_or_add_run dest d) as (r & d1 & Hget & Hq & Hr).
  rewrite Hget. pose proof (quiet_inv _ _ Hq Hi) as Hi1. pose proof Hq as [Hx _ Hqu Hc Hco _ Hpo Hs].
  assert (multi_queued d -> multi_queued d1) as Hm1 by (unfold multi_queued, waits; by rewrite Hx, Hqu).
  destruct r as [x|e].
  - destruct (do_submit_write_run tid _ _ d1 Hi1 (construct_write_builds (WPaged op) x Hop)) as (d' & a & n & c & Hrun & Hsub).
    exists d'. split; [done|].
    pose proof Hsub as [Hi' Hf Hcx Hok (Htid & Hn & Hfin & Hbad) [Hn1 Hle] Hwq Hpost (Hcf & Hco' & Hpm) _].
    split; [done|]. split; [intros Hm; by eapply submitted_multi; [exact Hsub|apply Hm1]|]. split; [congruence|].
    right. exists x, a, n, c. split; [by rewrite Hpm|]. split; [by rewrite <- Hx|]. split; [by rewrite <- Hx|].
    split; [done|]. split; [done|]. split; [done|]. split; [done|]. split; [done|].
    split; [|split; [congruence|split; [by rewrite Hpost, Hpo, Hc, (wires_same (ed_hw d))|split; [by rewrite <- Hqu|]]]].
    + pose proof (co_total _ _ _ _ Hok) as Ht. rewrite length_drop, Hn in Ht.
      replace (ctx_total_ops c) with (length (write_msgs (WPaged op) x (rawctx a))) by lia.
      cbn [write_msgs]. by rewrite length_fmap, length_seq.
    + intros ls Hls. eapply submitted_pending; [exact Hsub|by eapply quiet_pending|done].
  - eexists. split; [done|]. split; [by apply inv_set_completions|]. split; [done|]. split; [done|]. left. simpl.
    split; [|by rewrite Hco]. unfold get_or_add_remote_addr in Hget. destruct (peer_addr_map d !! dest); [done|done].
Qed.

(** C8: a paged request queues every page exactly once.  On a well-formed group of libfabric
    domains with the source region registered, the submission succeeds and splits the pages into
    consecutive ranges, one per domain of the plan.  Each of these domains has a new context
    with exactly the messages of its range, in order, for its own endpoint, descriptor and
    counterpart: at most the first is handed to the endpoint, after what was handed to it
    before, and the rest waits behind what was waiting; if the address of the counterpart cannot
    be resolved the domain reports one error instead.  The other domains are unchanged, and the
    group expects one report per domain of the plan. *)
Theorem efa_paged_request_queued tid r tx n desc (g : DomainGroup (EfaDomain (H:=H))) :
  group_wf n g -> descs_are (pr_src_mr r) desc g ->
  length (addr_rkey_list (pr_dst_mr r)) = n ->
  length (pr_src_page_indices r) = length (pr_dst_page_indices r) ->
  (forall i d, domains g !! i = Some d -> exists fl, efa_reachable d fl) ->
  exists plan g', submit_paged_transfer_request tid r tx g = Done (Ok tt, g') /\
    NoDup plan.*1 /\ tiles 0 (length (pr_src_page_indices r)) plan.*2 /\
    write_ops g' = <[tid := new_ctx (length plan) tx]> (write_ops g) /\
    (forall i range, (i, range) ∈ plan -> exists d d' dst, domains g !! i = Some d /\ domains g' !! i = Some d' /\
      addr_rkey_list (pr_dst_mr r) !! i = Some dst /\
      share_queued tid dst.1 (page_share r range (desc i) dst.2) d d') /\
    (forall i, i ∉ plan.*1 -> domains g' !! i = domains g !! i).
Proof.
  intros Hwf Hd Hl Hp Hreach.
  destruct (paged_request_posted (share_queued tid) tid r tx n desc g Hwf Hd Hl Hp) as (ds & Hrun & Hin & Hout).
  { intros i d dst range Hdi Hdst Hr1 Hr2 op. apply efa_submit_share; [|done].
    destruct (Hreach i d Hdi) as (fl & Hr). apply (reachable_inv d fl Hr). }
  destruct (page_plan_ok n (rr_next g) (length (pr_src_page_indices r))) as (_ & Hnd & _ & Htiles);
    [pose proof (wf_rr _ _ Hwf); lia|].
  eexists (request_plan n r g), _. repeat (split; [done|]). done.
Qed.

(** ** Posting and completing *)

(** The write part of [k] passes of [poll_progress]. *)
Definition passes (k : nat) : M (EfaDomain (H:=H)) unit := for_each (seq 0 k) (fun _ => progress_rdma_write_ops).

Lemma passes_run (is_ : list nat) d d' :
  efa_inv d -> for_each is_ (fun _ => progress_rdma_write_ops) d = Done (tt, d') ->
  efa_inv d' /\ (multi_queued d -> multi_queued d') /\ ctxs_kept d d' /\ completions d' = completions d.
Proof.
  revert d. induction is_ as [|i is_ IH]; intros d Hi; cbn [for_each].
  - intros [= <-]. split; [done|]. split; [done|]. split; [by apply ctxs_kept_refl|done].
  - intros ([] & d1 & Hp1 & Hp2)%bind_done. destruct (inv_pending d Hi) as (ls & Hls).
    destruct (write_loop_drains (length (ed_write_ops d)) d ls Hi Hls ltac:(lia)) as (d2 & ls' & n & Hrun & Hdr).
    unfold progress_rdma_write_ops, bind, gets in Hp1. rewrite Hrun in Hp1. injection Hp1 as <-.
    destruct Hdr as [Hi2 _ _ Hco2 _ _ _ _ _ _ Hm2 Hk2].
    destruct (IH d2 Hi2 Hp2) as (? & Hm & Hk & Hco). split; [done|]. split; [auto|].
    split; [by eapply ctxs_kept_trans|congruence].
Qed.

(** When nothing waits any more, every write that has not failed is fully posted. *)
Lemma nothing_waits d a c :
  efa_inv d -> multi_queued d -> ed_write_ops d = [] -> write_ctxs d !! a = Some c -> bad c = false ->
  cnt_posted_ops c = ctx_total_ops c.
Proof.
  intros Hi Hm Hq Hc Hb. destruct (inv_ctx d Hi a c Hc) as (l & Hok). pose proof (co_total _ _ _ _ Hok).
  destruct (decide (cnt_posted_ops c < ctx_total_ops c)%nat) as [Hlt|]; [|lia].
  apply (Hm a c Hc Hb) in Hlt. rewrite Hq in Hlt. by apply not_elem_of_nil in Hlt.
Qed.

(** A share whose pages are all posted: its context is live, and nothing of it has completed. *)
Definition all_posted (tid : TransferId) (pages : nat) (a : nat) d : Prop :=
  exists c, efa_inv d /\ write_ctxs d !! a = Some c /\ transfer_id c = tid /\ ctx_total_ops c = pages /\
    cnt_posted_ops c = pages /\ cnt_finished_ops c = 0%nat /\ bad c = false.

Lemma share_progressed tid dest op k d d' d'' :
  multi_queued d -> is_Some (peer_addr_map d !! dest) -> share_queued tid dest op d d' ->
  passes k d' = Done (tt, d'') -> ed_write_ops d'' = [] ->
  completions d'' = completions d /\
  exists a, all_posted tid (pw_page_indices_end op - pw_page_indices_beg op) a d''.
Proof.
  intros Hm [x Hx] (Hi' & Hm' & _ & [(Hn & _)|Hq]) Hrun Hempty; [congruence|].
  destruct Hq as (y & a & n & c & _ & _ & Hc & _ & Htid & _ & Hfin & Hb & Ht & Hco & _).
  destruct (passes_run _ _ _ Hi' Hrun) as (Hi'' & Hm'' & Hk & Hco''). split; [congruence|]. exists a.
  destruct (Hk a c) as (c' & Hc' & ? & Ht' & ? & Hb'); [by rewrite Hc, lookup_insert_eq|done|].
  exists c'. split_and!; try congruence. rewrite (nothing_waits d'' a c'); [congruence|by auto..].
Qed.

(** The completions of such a share. *)
Lemma share_completed tid pages a sh d evs :
  all_posted tid pages a d -> Forall (event_of a) evs -> length evs = pages -> (0 < pages)%nat ->
  exists d', for_each evs handle_event (sh, d) = Done (tt, (sh, d')) /\
    completions d' = completions d ++ write_reports tid false (outcome_of d <$> evs).
Proof.
  intros (c & Hi & Hc & <- & Ht & Hp & Hf & Hb) Hall Hlen Hpos.
  destruct (write_events sh d a c evs) as (d' & Hrun & Hmv & _); [done|done|by destruct evs; cbn in *; [lia|]|done|lia|lia|].
  exists d'. split; [done|]. rewrite (mv_completions _ _ _ _ Hmv). by rewrite Hb.
Qed.

(** The plan of a request, queued by the domains and progressed by them. *)
Definition plan_queued (tid : TransferId) (r : PagedTransferRequest) (desc : nat -> Z)
    (plan : list (nat * (nat * nat))) (g : DomainGroup (EfaDomain (H:=H))) (ds' : list (EfaDomain (H:=H))) : Prop :=
  forall i range, (i, range) ∈ plan -> exists d d' dst, domains g !! i = Some d /\ ds' !! i = Some d' /\
    addr_rkey_list (pr_dst_mr r) !! i = Some dst /\ share_queued tid dst.1 (page_share r range (desc i) dst.2) d d'.

Definition plan_posted (tid : TransferId) (plan : list (nat * (nat * nat))) (ctx : nat -> nat)
    (g : DomainGroup (EfaDomain (H:=H))) (dsp : list (EfaDomain (H:=H))) : Prop :=
  forall i range, (i, range) ∈ plan -> exists d dp, domains g !! i = Some d /\ dsp !! i = Some dp /\
    completions dp = completions d /\ all_posted tid (range.2 - range.1) (ctx i) dp.

Lemma plan_progressed tid r desc k plan g ds' dsp :
  NoDup plan.*1 -> plan_queued tid r desc plan g ds' ->
  (forall i d, domains g !! i = Some d -> multi_queued d) ->
  (forall i d dst, domains g !! i = Some d -> addr_rkey_list (pr_dst_mr r) !! i = Some dst ->
    is_Some (peer_addr_map d !! dst.1)) ->
  (forall i d', i ∈ plan.*1 -> ds' !! i = Some d' ->
    exists dp, dsp !! i = Some dp /\ passes (k i) d' = Done (tt, dp) /\ ed_write_ops dp = []) ->
  exists ctx, plan_posted tid plan ctx g dsp.
Proof.
  intros Hnd Hin Hm Hres Hpass.
  destruct (choose_each (fun i a => forall range, (i, range) ∈ plan -> exists d dp, domains g !! i = Some d /\
    dsp !! i = Some dp /\ completions dp = completions d /\ all_posted tid (range.2 - range.1) a dp) 0%nat plan.*1)
    as (ctx & Hctx).
  - intros i ([j range] & -> & Hi)%list_elem_of_fmap. cbn [fst].
    destruct (Hin j range Hi) as (d & d' & dst & Hdj & Hdj' & Hdst & Hq).
    destruct (Hpass j d') as (dp & Hdp & Hk & Hempty); [apply list_elem_of_fmap; by exists (j, range)|done|].
    destruct (share_progressed tid _ _ _ d d' dp (Hm j d Hdj) (Hres j d dst Hdj Hdst) Hq Hk Hempty) as (Hco & a & Ha).
    exists a. intros range' Hi'. exists d, dp. split_and!; try done.
    assert (range' = range) as -> by exact (NoDup_fmap_fst_inj plan j range' range Hnd Hi' Hi). done.
  - exists ctx. intros i range Hi. apply Hctx; [|done]. apply list_elem_of_fmap. by exists (i, range).
Qed.

Lemma plan_completed tid plan ctx evs sh g dsp :
  plan_posted tid plan ctx g dsp -> (forall i range, (i, range) ∈ plan -> (range.1 < range.2)%nat) ->
  (forall i d, domains g !! i = Some d -> no_entry_of tid (completions d)) ->
  (forall i range, (i, range) ∈ plan -> Forall (event_of (ctx i)) (evs i) /\ length (evs i) = (range.2 - range.1)%nat) ->
  exists ds, length ds = length dsp /\
    (forall i, i ∈ plan.*1 -> exists d'', ds !! i = Some d'' /\ evs i <> [] /\ exists dp old, dsp !! i = Some dp /\
      no_entry_of tid old /\ for_each (evs i) handle_event (sh, dp) = Done (tt, (sh, d'')) /\
      completions d'' = old ++ write_reports tid false (outcome_of dp <$> evs i)) /\
    (forall i, i ∉ plan.*1 -> ds !! i = dsp !! i).
Proof.
  intros Hpost Hrange Hold Hevs. apply replace_domains.
  intros i ([j range] & -> & Hij)%list_elem_of_fmap. cbn [fst] in *.
  destruct (Hpost j range Hij) as (d & dp & Hdj & Hdp & Hco & Ha). split; [by eapply lookup_lt_Some|].
  destruct (Hevs j range Hij) as [Hall Hlev]. pose proof (Hrange j range Hij).
  destruct (share_completed tid _ (ctx j) sh dp (evs j) Ha Hall Hlev) as (d'' & Hr & Hc); [lia|].
  exists d''. split; [intros E; rewrite E in Hlev; cbn in Hlev; lia|]. exists dp, (completions d).
  split; [done|]. split; [by apply (Hold j d)|]. split; [done|]. by rewrite Hc, Hco.
Qed.

(** C9: a paged request over libfabric is reported exactly once, or its failure is.  Let the
    addresses of the counterparts be resolved, let a group submit a paged request, and let each
    domain of the plan make progress until nothing of it waits any more.  Then each of them has
    a live context with all the pages of its range posted and none completed.  When the fabric
    completes them, in any mix of successes and errors, every domain handles the completions
    without a panic, and draining the group's queues returns [Transfer] of the request exactly
    once if all succeeded; if any failed it never returns [Transfer], in whatever order the
    queues are popped, and returns an error for it. *)
Theorem efa_paged_request_reported_once tid r n desc sh k (g g' : DomainGroup (EfaDomain (H:=H))) dsp :
  group_wf n g -> descs_are (pr_src_mr r) desc g ->
  length (addr_rkey_list (pr_dst_mr r)) = n ->
  length (pr_src_page_indices r) = length (pr_dst_page_indices r) -> pr_src_page_indices r <> [] ->
  (forall i d, domains g !! i = Some d -> (exists fl, efa_reachable d fl) /\ no_entry_of tid (completions d)) ->
  (forall i d dst, domains g !! i = Some d -> addr_rkey_list (pr_dst_mr r) !! i = Some dst ->
    is_Some (peer_addr_map d !! dst.1)) ->
  submit_paged_transfer_request tid r None g = Done (Ok tt, g') ->
  let plan := request_plan n r g in
  (forall i d', i ∈ plan.*1 -> domains g' !! i = Some d' ->
    exists dp, dsp !! i = Some dp /\ passes (k i) d' = Done (tt, dp) /\ ed_write_ops dp = []) ->
  length dsp = n -> (forall i, i ∉ plan.*1 -> dsp !! i = domains g' !! i) ->
  exists ctx, (forall i range, (i, range) ∈ plan -> exists dp, dsp !! i = Some dp /\
      all_posted tid (range.2 - range.1) (ctx i) dp) /\
    forall evs, (forall i range, (i, range) ∈ plan -> Forall (event_of (ctx i)) (evs i) /\ length (evs i) = (range.2 - range.1)%nat) ->
    exists ds, (forall i, i ∈ plan.*1 -> exists dp d, dsp !! i = Some dp /\ ds !! i = Some d /\
        for_each (evs i) handle_event (sh, dp) = Done (tt, (sh, d))) /\
      (forall i, i ∉ plan.*1 -> ds !! i = dsp !! i) /\
      forall m, (length (concat (queues (sh, set_domains ds g'))) <= m)%nat ->
        exists rs s', times m group_get_completion (sh, set_domains ds g') = Done (rs, s') /\
          ((forall i, i ∈ plan.*1 -> Forall (fun ev => event_failed ev = false) (evs i)) -> reports tid (omap id rs) = 1%nat) /\
          ((exists i, i ∈ plan.*1 /\ ~ Forall (fun ev => event_failed ev = false) (evs i)) ->
           reports tid (omap id rs) = 0%nat /\ exists e, DcError tid e ∈ omap id rs).
Proof.
  intros Hwf Hd Hl Hp Hne Hreach Hres Hsub plan Hpass Hlen Hrest.
  destruct (paged_request_posted (share_queued tid) tid r None n desc g Hwf Hd Hl Hp) as (ds' & Hrun & Hin & Hout).
  { intros i d dst range Hdi Hdst Hr1 Hr2 op. apply efa_submit_share; [|done].
    destruct (Hreach i d Hdi) as ((fl & Hr) & _). apply (reachable_inv d fl Hr). }
  rewrite Hrun in Hsub. injection Hsub as <-. cbn [domains set_domains] in *. fold plan in Hin, Hout.
  destruct (page_plan_ok n (rr_next g) (length (pr_src_page_indices r))) as (_ & Hnd & Hlt & Htiles);
    [pose proof (wf_rr _ _ Hwf); lia|]. change (page_plan _ _ _) with plan in *.
  assert (forall i range, (i, range) ∈ plan -> (range.1 < range.2)%nat) as Hrange.
  { intros i [x y] Hi. apply (tiles_bounds _ _ _ x y Htiles), list_elem_of_fmap. by exists (i, (x, y)). }
  destruct (plan_progressed tid r desc k plan g ds' dsp Hnd Hin) as (ctx & Hctx); [|done|done|].
  { intros i d Hdi. destruct (Hreach i d Hdi) as ((fl & Hr) & _). apply (reachable_inv d fl Hr). }
  exists ctx. split; [intros i range Hi; destruct (Hctx i range Hi) as (d & dp & ? & ? & ? & ?); by exists dp|].
  intros evs Hevs. destruct (plan_completed tid plan ctx evs sh g dsp Hctx Hrange) as (ds & Hlends & Hds & Hsame);
    [by intros i d Hdi; apply (Hreach i d)|done|].
  exists ds. split; [|split; [done|]].
  { intros i Hi. destruct (Hds i Hi) as (d'' & ? & _ & dp & old & ? & _ & ? & _). by exists dp, d''. }
  intros m Hm.
  set (vs i := match dsp !! i with Some dp => outcome_of dp <$> evs i | None => [] end).
  destruct (shares_drained n m sh tid vs plan.*1 (set_domains ds (set_rr_next ((rr_next g + length plan) mod n)
    (DomainGroup.set_write_ops (<[tid := new_ctx (length plan) None]> (write_ops g)) g)))) as (rs & s' & Hpop & Hgood & Hbad);
    [|exact Hm|..|exists rs, s'; split; [done|]].
  - destruct (paged_wf n tid r None g _ _ Hrun Hwf) as [_ ? ?]. split; [cbn; lia|done..].
  - cbn. rewrite lookup_insert_eq. by rewrite length_fmap.
  - intros E. apply fmap_nil_inv in E. rewrite E in Htiles. cbn in Htiles. by destruct (pr_src_page_indices r).
  - done.
  - intros i Hi. destruct (Hds i Hi) as (d'' & Hd'' & Hev & dp & old & Hdp & Hold & _ & Hc). unfold vs. rewrite Hdp.
    split; [by destruct (evs i)|]. by exists d'', old.
  - intros i d Hi. cbn. rewrite Hsame, Hrest, Hout by done. apply Hreach.
  - split.
    + intros Hall. apply Hgood. intros i Hi. destruct (Hds i Hi) as (_ & _ & _ & dp & _ & Hdp & _). unfold vs.
      rewrite Hdp. by apply outcomes_success, Hall.
    + intros (i & Hi & Hn). apply Hbad. exists i. split; [done|].
      destruct (Hds i Hi) as (_ & _ & _ & dp & _ & Hdp & _). unfold vs. rewrite Hdp. by rewrite outcomes_success.
Qed.
End Endpoints.

(** ** Witnesses: two endpoints with room *)
Module EfaGroupWitness.
Definition far (i : Z) : DomainAddress := {| addr_bytes := [i] |}.
Definition source : MemoryRegion := {| mr_ptr := 4096; mr_len := 4096; mr_mapping := MapHost |}.

(** A domain that has registered the source and resolved its counterpart. *)
Definition registered : EfaDomain (H:=EfaToy) :=
  state_of (toy_start 0) (register_mr source false (toy_start 9)).
Definition ready (i : Z) : EfaDomain (H:=EfaToy) :=
  state_of (toy_start 0) (run_call (CallAddGroup 1 [far i]) registered).

Lemma registered_reachable : efa_reachable registered [].
Proof.
  apply (reach_register source false (toy_start 9) [] (Ok 21) registered); [apply reach_new|vm_compute; reflexivity..].
Qed.

Lemma ready_reachable i : i = 1 \/ i = 2 -> efa_reachable (ready i) [].
Proof.
  intros Hi. apply (reach_call (CallAddGroup 1 [far i]) registered [] (ready i) []);
    [apply registered_reachable|exact I|..]; destruct Hi as [->| ->]; vm_compute; reflexivity.
Qed.

Definition endpoints : DomainGroup (EfaDomain (H:=EfaToy)) := DomainGroup.new [ready 1; ready 2].
Definition seven_pages : PagedTransferRequest := {|
  pr_length := 64; pr_src_mr := 4096; pr_src_page_indices := [0; 1; 2; 3; 4; 5; 6]; pr_src_stride := 64;
  pr_src_offset := 0; pr_dst_mr := {| mrd_ptr := 8192; addr_rkey_list := [(far 1, 61); (far 2, 62)] |};
  pr_dst_page_indices := [6; 5; 4; 3; 2; 1; 0]; pr_dst_stride := 64; pr_dst_offset := 0; pr_imm_data := None |}.

Lemma endpoints_wf : group_wf 2 endpoints.
Proof. split; [done|cbn; lia|apply map_Forall_empty]. Qed.
Lemma endpoints_descs : @descs_are _ (efa_domain 9) (pr_src_mr seven_pages) (fun _ => 9) endpoints.
Proof. intros [|[|i]] d Hd; cbn in Hd; simplify_eq; reflexivity. Qed.

Lemma endpoints_reachable i d :
  domains endpoints !! i = Some d -> (exists fl, efa_reachable d fl) /\ no_entry_of 7 (completions d).
Proof.
  destruct i as [|[|i]]; intros Hd; cbn in Hd; simplify_eq; (split; [exists []; apply ready_reachable; auto|]);
    intros c Hc; by apply not_elem_of_nil in Hc.
Qed.

Definition queued : DomainGroup (EfaDomain (H:=EfaToy)) :=
  state_of endpoints (@submit_paged_transfer_request _ (efa_domain 9) 7 seven_pages None endpoints).

(** Each endpoint has got one message; the others wait. *)
Lemma efa_paged_request_queued_witness :
  exists g', @submit_paged_transfer_request _ (efa_domain 9) 7 seven_pages None endpoints = Done (Ok tt, g') /\
    exists d1 d2, domains g' !! 0%nat = Some d1 /\ domains g' !! 1%nat = Some d2 /\
      length (e_posted (ed_hw d1)) = 1%nat /\ ed_write_ops d1 = [0%nat] /\ length (e_posted (ed_hw d2)) = 1%nat.
Proof.
  destruct (efa_paged_request_queued (H:=EfaToy) 9 7 seven_pages None 2 (fun _ => 9) endpoints endpoints_wf endpoints_descs
    eq_refl eq_refl) as (plan & g' & Hrun & _); [intros i d Hd; by apply (endpoints_reachable i d)|].
  exists g'. split; [exact Hrun|]. vm_compute in Hrun. injection Hrun as <-.
  eexists _, _. split; [reflexivity|]. split; [reflexivity|]. split; [reflexivity|]. split; reflexivity.
Defined.

(** One pass posts the rest. *)
Definition passed : list (EfaDomain (H:=EfaToy)) := (fun d => state_of d (passes 1 d)) <$> domains queued.
Definition all_well (a : nat) : write_event :=
  WDone {| cqe_op_context := rawctx a; cqe_flags := FI_WRITE; cqe_len := 0; cqe_data := 0 |}.
Definition arrived (ctx : nat -> nat) (i : nat) : list write_event :=
  replicate (if (i =? 0)%nat then 4 else 3) (all_well (ctx i)).

Lemma efa_paged_request_reported_once_witness :
  exists ds m rs s', @times _ _ m (@group_get_completion _ (efa_domain 9)) (new_map, set_domains ds queued) = Done (rs, s') /\
    reports 7 (omap id rs) = 1%nat.
Proof.
  destruct (efa_paged_request_reported_once (H:=EfaToy) 9 7 seven_pages 2 (fun _ => 9) new_map (fun _ => 1%nat)
    endpoints queued passed endpoints_wf endpoints_descs eq_refl eq_refl ltac:(discriminate) endpoints_reachable)
    as (ctx & _ & Hev).
  - intros [|[|i]] d dst Hd Hdst; cbn in Hd, Hdst; simplify_eq; vm_compute; by eexists.
  - vm_compute. reflexivity.
  - change (request_plan 2 seven_pages endpoints).*1 with [0; 1]%nat.
    intros i d' [->|[->|[]%not_elem_of_nil]%elem_of_cons]%elem_of_cons Hd; vm_compute in Hd; injection Hd as <-;
      eexists; (split; [vm_compute; reflexivity|split; vm_compute; reflexivity]).
  - reflexivity.
  - change (request_plan 2 seven_pages endpoints).*1 with [0; 1]%nat. intros [|[|i]] Hi.
    + destruct Hi. apply elem_of_cons. by left.
    + destruct Hi. apply elem_of_cons. right. apply elem_of_cons. by left.
    + vm_compute. reflexivity.
  - destruct (Hev (arrived ctx)) as (ds & _ & _ & Hdrain).
    { change (request_plan 2 seven_pages endpoints) with [(0, (0, 4)); (1, (4, 7))]%nat.
      intros i range [Heq|[Heq|[]%not_elem_of_nil]%elem_of_cons]%elem_of_cons; simplify_eq; (split; [|done]);
        apply Forall_replicate; repeat split. }
    destruct (Hdrain _ (le_n _)) as (rs & s' & Hrun & Hgood & _). eexists ds, _, rs, s'. split; [exact Hrun|].
    apply Hgood. change (request_plan 2 seven_pages endpoints).*1 with [0; 1]%nat.
    intros i [->|[->|[]%not_elem_of_nil]%elem_of_cons]%elem_of_cons; repeat constructor.
Defined.
End EfaGroupWitness.
