(* ===== verification/EfaSetup.v ===== *)
(** * Opening a libfabric domain, registering memory, and where writes land

    What [open] and [Drop] of [efa_domain.rs] do to the objects of libfabric, what
    [register_mr] does to the registered regions and the current CUDA device, and the remote
    offsets of single and paged writes. *)
From stdpp Require Import prelude gmap strings list.
From S2P Require Import Prelude Api Utils Provider EfaRdmaOp EfaDomain EfaSpec.
Local Open Scope Z_scope.

(** ** Opening and closing *)

(** [open_fids]: the objects that are open.  A call that opens an object adds it when it returns
    a pointer, [fi_close] removes it, the calls that configure an endpoint leave it alone, and
    [fi_getname] succeeds only with a length that fits the buffer. *)
Class FidLaws (H : Type) `{EfaHw H} := {
  open_fids : H -> list Z;
  fi_opened : forall f h r p h',
    f = fi_fabric \/ (exists x, f = fi_domain x \/ f = fi_cq_open x \/ f = fi_av_open x \/ f = fi_endpoint x) ->
    f h = (r, p, h') -> open_fids h' ≡ₚ option_list p ++ open_fids h;
  fi_closed : forall p h l, open_fids h ≡ₚ p :: l -> open_fids (fi_close p h) ≡ₚ l;
  fi_ep_bind_fids : forall e x fl h, open_fids (fi_ep_bind e x fl h).2 ≡ₚ open_fids h;
  fi_setopt_fids : forall e b h, open_fids (fi_setopt_cuda_api_permitted e b h).2 ≡ₚ open_fids h;
  fi_enable_fids : forall e h, open_fids (fi_enable e h).2 ≡ₚ open_fids h;
  fi_getname_fids : forall e n h, open_fids (fi_getname e n h).2 ≡ₚ open_fids h;
  fi_getname_fits : forall e n h r buf len h',
    fi_getname e n h = (r, (buf, len), h') -> r = 0 -> (len <= n)%nat;
}.

Section Opening.
Context {H : Type} `{FidLaws H}.

(** [leaves m Q]: [m] returns; after an error the objects that were open before are open, after a
    success those and a list [l] of new ones with [Q]. *)
Definition leaves {A} (m : M H (res A)) (Q : A -> list Z -> Prop) : Prop :=
  forall h, exists r h', m h = Done (r, h') /\
    match r with
    | Ok a => exists l, Q a l /\ open_fids h' ≡ₚ l ++ open_fids h
    | Err _ => open_fids h' ≡ₚ open_fids h
    end.

Lemma with_fid_leaves {A} create what (k : Z -> M H (res A)) Q :
  create = fi_fabric \/ (exists x, create = fi_domain x \/ create = fi_cq_open x \/ create = fi_av_open x \/
    create = fi_endpoint x) ->
  (forall p, leaves (k p) (fun a l => Q a (l ++ [p]))) -> leaves (with_fid create what k) Q.
Proof.
  intros Hcr Hk h. unfold with_fid, bind, call. destruct (create h) as [[rc p] h1] eqn:E.
  pose proof (fi_opened _ _ _ _ _ Hcr E) as Ho. cbn [fst snd]. destruct p as [p|].
  - destruct (Hk p h1) as (v & h2 & Hrun & Hf). rewrite Hrun. destruct v as [a|e]; cbv [defer_drop modify]; cbn.
    + exists (Ok a), h2. split; [done|]. destruct Hf as (l & HQ & Hf). exists (l ++ [p]). split; [done|].
      by rewrite Hf, Ho, <- (assoc_L (++)).
    + exists (Err e), (fi_close p h2). split; [done|]. apply fi_closed. by rewrite Hf, Ho.
  - exists (Err (Libfabric rc what)), h1. split; [done|]. by rewrite Ho.
Qed.

Lemma check_fi_leaves f what :
  (forall h, open_fids (f h).2 ≡ₚ open_fids h) -> leaves (check_fi f what) (fun _ l => l = []).
Proof.
  intros Hf h. cbv [check_fi bind call ret]. specialize (Hf h). destruct (f h) as [r h1]. cbn in Hf.
  destruct (r =? 0); eexists _, h1; (split; [done|]); [by exists []|done].
Qed.

Lemma bind_res_leaves {A B} (m : M H (res A)) (k : A -> M H (res B)) Q :
  leaves m (fun _ l => l = []) -> (forall a, leaves (k a) Q) -> leaves (bind_res m k) Q.
Proof.
  intros Hm Hk h. unfold bind_res, bind. destruct (Hm h) as ([a|e] & h1 & -> & Hf1); [|by exists (Err e), h1].
  destruct Hf1 as (? & -> & Hf1). destruct (Hk a h1) as (r & h2 & Hrun & Hf2). exists r, h2. split; [done|].
  destruct r as [b|e]; [|by rewrite Hf2, Hf1]. destruct Hf2 as (l & HQ & Hf2). exists l. by rewrite Hf2, Hf1.
Qed.

(** The objects a domain owns, the last one opened first. *)
Definition conf_fids (cf : EfaConf) : list Z := [ec_ep cf; ec_av cf; ec_cq cf; ec_domain cf; ec_fabric cf].

Lemma open_conf_leaves name speed : leaves (open_conf name speed) (fun cf l => l = conf_fids cf).
Proof.
  unfold open_conf. apply with_fid_leaves; [by left|]. intros fabric.
  apply with_fid_leaves; [right; eauto 6|]. intros domain.
  apply with_fid_leaves; [right; eauto 6|]. intros cq.
  apply with_fid_leaves; [right; eauto 6|]. intros av.
  apply with_fid_leaves; [right; eauto 6|]. intros ep.
  apply bind_res_leaves; [apply check_fi_leaves; intros; apply fi_ep_bind_fids|]. intros _.
  apply bind_res_leaves; [apply check_fi_leaves; intros; apply fi_ep_bind_fids|]. intros _.
  apply bind_res_leaves; [apply check_fi_leaves; intros; apply fi_setopt_fids|]. intros _.
  apply bind_res_leaves; [apply check_fi_leaves; intros; apply fi_enable_fids|]. intros _ h.
  unfold bind, call. pose proof (fi_getname_fids ep 128 h) as Hf.
  destruct (fi_getname ep 128 h) as [[rc [buf len]] h1] eqn:E. cbn [snd] in Hf.
  destruct (Z.eqb_spec rc 0) as [->|Hrc]; cbn [negb]; [|by eexists _, h1].
  rewrite (proj2 (Nat.leb_le _ _) (fi_getname_fits _ _ _ _ _ _ _ E eq_refl)). cbv [assert_ ret].
  eexists _, h1. split; [done|]. by exists [].
Qed.

Lemma close_step p l h : open_fids h ≡ₚ p :: l -> exists h', modify (fi_close p) h = Done (tt, h') /\ open_fids h' ≡ₚ l.
Proof. intros Ho. eexists. split; [done|]. by apply fi_closed. Qed.

(** Opening a domain leaks nothing and dropping it closes everything.  [open] always returns;
    if any of its steps fails, the objects it had opened are closed again; if it succeeds, the
    domain owns exactly the five objects it opened, and dropping the fresh domain closes them
    all. *)
Theorem efa_open_leaks_nothing name speed h :
  exists r h', open_conf name speed h = Done (r, h') /\
    match r with
    | Err _ => open_fids h' ≡ₚ open_fids h
    | Ok cf => open_fids h' ≡ₚ conf_fids cf ++ open_fids h /\
        exists h'', efa_drop (new_domain cf h') h' = Done (tt, h'') /\ open_fids h'' ≡ₚ open_fids h
    end.
Proof.
  destruct (open_conf_leaves name speed h) as ([cf|e] & h' & Hrun & Hf); eexists _, h'; (split; [done|]); [|done].
  destruct Hf as (l & -> & Hf). split; [done|]. unfold efa_drop. cbn [new_domain local_mr_map conf].
  rewrite map_to_list_empty. unfold bind at 1. cbn [for_each]. cbv [ret].
  unfold conf_fids in Hf. cbn in Hf.
  destruct (close_step _ _ _ Hf) as (h1 & Hr1 & Hf1). unfold bind at 1. rewrite Hr1.
  destruct (close_step _ _ _ Hf1) as (h2 & Hr2 & Hf2). unfold bind at 1. rewrite Hr2.
  destruct (close_step _ _ _ Hf2) as (h3 & Hr3 & Hf3). unfold bind at 1. rewrite Hr3.
  destruct (close_step _ _ _ Hf3) as (h4 & Hr4 & Hf4). unfold bind at 1. rewrite Hr4.
  destruct (close_step _ _ _ Hf4) as (h5 & Hr5 & Hf5). rewrite Hr5. by exists h5.
Qed.
End Opening.

(** ** Registering memory *)

(** The current CUDA device: [cudaGetDevice] reads it, [cudaSetDevice] sets it, libfabric leaves
    it alone. *)
Class CudaLaws (H : Type) `{EfaHw H} := {
  cuda_device : H -> Z;
  cudaGetDevice_ok : forall h, cudaGetDevice h = (Some (cuda_device h), h);
  cudaSetDevice_ok : forall v h, cuda_device (cudaSetDevice v h) = v;
  fi_mr_regattr_cuda : forall x at_ fl h, cuda_device (fi_mr_regattr x at_ fl h).2 = cuda_device h;
  fi_mr_bind_cuda : forall m e h, cuda_device (fi_mr_bind m e h).2 = cuda_device h;
  fi_enable_cuda : forall e h, cuda_device (fi_enable e h).2 = cuda_device h;
}.

Section Registering.
Context {H : Type} `{CudaLaws H}.
Implicit Types d : EfaDomain (H:=H).

(** The device that is current while the region is registered. *)
Definition device_for (region : MemoryRegion) (current : Z) : Z :=
  match mr_mapping region with MapDevice id None => id | _ => current end.

Lemma check_fi_cuda f what h :
  (forall h, cuda_device (f h).2 = cuda_device h) ->
  exists r h', check_fi f what h = Done (r, h') /\ cuda_device h' = cuda_device h.
Proof.
  intros Hf. cbv [check_fi bind call ret]. specialize (Hf h). destruct (f h) as [r h1].
  destruct (r =? 0); eexists _, h1; by split.
Qed.

(** Registering a memory region.  A region that is already registered returns its key and
    changes nothing.  Otherwise, on success, the key is cached (registering the region again
    returns it, whatever access is asked for) and the CUDA device is the one that was current
    before; on failure nothing is cached, but the device is left at the one of the region: the
    early returns skip the call that restores it. *)
Theorem efa_register_mr_device region remote d :
  match local_mr_map d !! mr_ptr region with
  | Some mr => register_mr region remote d = Done (Ok (mr_key mr), d)
  | None =>
      exists r d', register_mr region remote d = Done (r, d') /\
      match r with
      | Ok key => cuda_device (ed_hw d') = cuda_device (ed_hw d) /\
          forall remote', register_mr region remote' d' = Done (Ok key, d')
      | Err _ => local_mr_map d' = local_mr_map d /\
          cuda_device (ed_hw d') = device_for region (cuda_device (ed_hw d))
      end
  end.
Proof.
  destruct (local_mr_map d !! mr_ptr region) as [mr|] eqn:Hm; unfold register_mr at 1; rewrite Hm; [done|].
  unfold bind at 1, dev at 1, on_state at 1, call at 1. rewrite cudaGetDevice_ok. cbn [from_option]. unfold id.
  set (d0 := set_hw _ d).
  match goal with |- context [bind ?sw _ d0] => assert (exists h0, sw d0 = Done (tt, set_hw h0 d) /\
    cuda_device h0 = device_for region (cuda_device (ed_hw d))) as (h0 & Hsw & Hdev) end.
  { unfold device_for, dev, on_state, modify, ret. destruct (mr_mapping region) as [|id [fd|]];
      [by exists (ed_hw d)|by exists (ed_hw d)|].
    destruct (Z.eqb_spec (cuda_device (ed_hw d)) id) as [<-|Hne]; cbn [negb]; [by exists (ed_hw d)|].
    eexists. split; [done|]. apply cudaSetDevice_ok. }
  unfold bind at 1. rewrite Hsw. unfold bind at 1, dev at 1, on_state at 1, call at 1. cbn [ed_hw set_hw].
  pose proof (fi_mr_regattr_cuda (ec_domain (conf d)) (mr_attr_of region remote) (mr_flags_of region) h0) as Hreg.
  destruct (fi_mr_regattr _ _ _ h0) as [[rc [mr|]] h1]; cbn [fst snd] in *; [|eexists _, _; split; [done|]; split; [done|]; simpl; congruence].
  unfold bind_res, bind at 1, dev at 1, on_state at 1. cbn [ed_hw set_hw].
  destruct (check_fi_cuda (fi_mr_bind (mr_fid mr) (ec_ep (conf d))) "fi_mr_bind" h1) as ([[]|e] & h2 & -> & H2);
    [intros; apply fi_mr_bind_cuda| |eexists _, _; split; [done|]; split; [done|]; simpl; congruence].
  unfold bind at 1, dev at 1, on_state at 1. cbn [ed_hw set_hw].
  destruct (check_fi_cuda (fi_enable (mr_fid mr)) "fi_mr_enable" h2) as ([[]|e] & h3 & -> & H3);
    [intros; apply fi_enable_cuda| |eexists _, _; split; [done|]; split; [done|]; simpl; congruence].
  eexists _, _. split; [done|]. split; [apply cudaSetDevice_ok|].
  intros remote'. unfold register_mr. simpl. by rewrite lookup_insert_eq.
Qed.
End Registering.

(** ** Where writes land *)

(** The same operation with another destination offset. *)
Definition with_dst_offset (op : PagedWriteOp) (off : Z) : PagedWriteOp := {|
  pw_src_page_indices := pw_src_page_indices op; pw_dst_page_indices := pw_dst_page_indices op;
  pw_page_indices_beg := pw_page_indices_beg op; pw_page_indices_end := pw_page_indices_end op;
  pw_length := pw_length op; pw_src_ptr := pw_src_ptr op; pw_src_desc := pw_src_desc op;
  pw_src_stride := pw_src_stride op; pw_src_offset := pw_src_offset op; pw_dst_ptr := pw_dst_ptr op;
  pw_dst_rkey := pw_dst_rkey op; pw_dst_stride := pw_dst_stride op; pw_dst_offset := off;
  pw_imm_data := pw_imm_data op |}.

(** The libfabric provider ignores the destination offset of a paged write.  Remote addresses
    are offsets into the remote region.  A single write lands at the operation's [dst_offset];
    a paged write posts the same messages whatever its [dst_offset], each at
    [dst_stride * page index]. *)
Theorem efa_paged_write_ignores_dst_offset op off addr buf ctx (sop : SingleWriteOp) :
  efa_paged_ok op ->
  rma_addr (rb_rma_iov (es_buf (efa_new_single sop addr buf ctx))) = sw_dst_offset sop /\
  exists it it' l, efa_paged_new op addr buf ctx = Done it /\
    efa_paged_new (with_dst_offset op off) addr buf ctx = Done it' /\
    remains (EPaged it) l /\ remains (EPaged it') l /\
    (fun m => rma_addr (rb_rma_iov m.1)) <$> l =
      (fun i => u64_mul (pw_dst_stride op) (default 0 (pw_dst_page_indices op !! i))) <$>
        seq (pw_page_indices_beg op) (pw_page_indices_end op - pw_page_indices_beg op).
Proof.
  intros Hok. split.
  { unfold efa_new_single. by destruct (flags_imm (sw_imm_data sop)). }
  destruct (efa_paged_new_remains op addr buf ctx Hok) as (it & Hrun & _ & Hr).
  destruct (efa_paged_new_remains (with_dst_offset op off) addr buf ctx Hok) as (it' & Hrun' & _ & Hr').
  exists it, it'. eexists. split; [done|]. split; [done|]. split; [exact Hr|]. split; [exact Hr'|].
  rewrite <- list_fmap_compose. done.
Qed.

(** ** Witnesses *)
#[export] Program Instance toy_fids_laws : FidLaws EfaToy := {| open_fids := e_fids |}.
Next Obligation.
  intros f h r p h' Hf. assert (f h = toy_open h) as -> by (destruct Hf as [->|(x & [->|[->|[->| ->]]])]; done).
  unfold toy_open. intros ?. by simplify_eq.
Qed.
Next Obligation.
  intros p h l Hp. simpl. apply (Permutation_cons_inv (a := p)). rewrite <- Hp.
  assert (p ∈ e_fids h) as Hin by (rewrite Hp; set_solver). clear Hp. induction (e_fids h) as [|x fs IH]; [set_solver|].
  cbn [remove_first]. destruct (Z.eqb_spec x p) as [->|Hne]; [done|]. rewrite perm_swap, IH; [done|set_solver].
Qed.
Next Obligation. done. Qed.
Next Obligation. done. Qed.
Next Obligation. done. Qed.
Next Obligation. done. Qed.
Next Obligation. intros e n h r buf len h' Hg _. simpl in Hg. simplify_eq. lia. Qed.

#[export] Program Instance toy_cuda_laws : CudaLaws EfaToy := {| cuda_device := e_device |}.
Solve Obligations with done.

Lemma efa_open_leaks_nothing_witness :
  exists cf h' h'', open_conf "cxi0" 200 (toy_device 4) = Done (Ok cf, h') /\ e_fids h' ≡ₚ conf_fids cf /\
    efa_drop (new_domain cf h') h' = Done (tt, h'') /\ e_fids h'' ≡ₚ [].
Proof.
  destruct (efa_open_leaks_nothing "cxi0" 200 (toy_device 4)) as ([cf|e] & h' & Hrun & Hr).
  - destruct Hr as (Hf & h'' & Hd & Hf'). exists cf, h', h''. split; [exact Hrun|].
    split; [rewrite <- (app_nil_r (conf_fids cf)); exact Hf|]. split; [exact Hd|exact Hf'].
  - exfalso. vm_compute in Hrun. discriminate Hrun.
Defined.

(** A device whose [fi_mr_enable] fails, and a region of GPU 3. *)
Definition broken_device : EfaToy :=
  {| e_room := 4; e_posted := []; e_next := 10; e_fids := []; e_device := 0; e_enable := -22 |}.
Definition gpu_region : MemoryRegion := {| mr_ptr := 4096; mr_len := 65536; mr_mapping := MapDevice 3 None |}.

Lemma efa_register_mr_device_witness :
  exists e d', register_mr gpu_region true (new_domain toy_conf broken_device) = Done (Err e, d') /\
    e_device (ed_hw d') = 3.
Proof.
  pose proof (efa_register_mr_device gpu_region true (new_domain toy_conf broken_device)) as Hr.
  destruct Hr as ([key|e] & d' & Hrun & Hr).
  - exfalso. vm_compute in Hrun. discriminate Hrun.
  - destruct Hr as [_ Hd]. exists e, d'. split; [exact Hrun|exact Hd].
Defined.

Lemma efa_paged_write_ignores_dst_offset_witness :
  exists it it' l, efa_paged_new three_pages 5 blank_buffer 1 = Done it /\
    efa_paged_new (with_dst_offset three_pages 0) 5 blank_buffer 1 = Done it' /\
    remains (EPaged it) l /\ remains (EPaged it') l /\
    (fun m => rma_addr (rb_rma_iov m.1)) <$> l = [192; 320; 384].
Proof.
  destruct (efa_paged_write_ignores_dst_offset three_pages 0 5 blank_buffer 1 one_write three_pages_ok)
    as (_ & it & it' & l & H1 & H2 & H3 & H4 & H5).
  exists it, it', l. split; [exact H1|]. split; [exact H2|]. split; [exact H3|]. split; [exact H4|exact H5].
Defined.
