(* ===== verification/FabricEngine.v ===== *)
(** * The fabric engine

    [fabric-lib/src/fabric_engine.rs]: the workers of all GPUs behind one interface.  The engine
    sends calls and commands to the worker threads over channels, routes each request to the
    worker of its memory region, and polls the completions of all workers.  Also
    [MemoryRegion::new] of [mr.rs] and the flags of [WorkerHandle] ([worker.rs]).

    What the engine sees of a running worker is the class [WorkerLink]; the state behind it is a
    parameter, so that a recording stub, or the worker of [Worker] itself, can stand there. *)
From stdpp Require Import prelude gmap strings list.
From S2P Require Import Prelude Api ImmCount Sharding Provider DomainGroup Worker.
Local Open Scope Z_scope.

(** ** Memory regions: [MemoryRegion::new]

    [pointer_type] is the answer of [cudaPointerGetAttributes].  Both branches of
    [linux_kernel_supports_dma_buf] give no descriptor (the call that would give one is commented
    out). *)
Definition cudaMemoryTypeDevice : Z := 2.

Definition memory_region_new (pointer_type : Z -> res Z) (ptr len : Z) (device : Device) :
    res MemoryRegion :=
  match device with
  | Host => Ok {| mr_ptr := ptr; mr_len := len; mr_mapping := MapHost |}
  | Cuda device_id =>
      match pointer_type ptr with
      | Err e => Err e
      | Ok type_ =>
          if negb (type_ =? cudaMemoryTypeDevice) then Err (Custom "not a device pointer")
          else Ok {| mr_ptr := ptr; mr_len := len; mr_mapping := MapDevice device_id None |}
      end
  end.

(** ** Workers as the engine sees them

    A call is a [send] on the worker's call channel followed by a [recv] on the oneshot it
    carries: [None] when either fails, because the worker is gone. *)
Class WorkerLink (W : Type) := {
  call_register_local : MemoryRegion -> W -> option (res MemoryRegionHandle) * W;
  call_register_remote : MemoryRegion ->
    W -> option (res (MemoryRegionHandle * MemoryRegionDescriptor)) * W;
  call_unregister : Z -> W -> option unit * W;
  call_add_peer_group : list (list DomainAddress) -> W -> option (res PeerGroupHandle) * W;
  call_acquire : W -> option (option Z) * W;
  call_release : Z -> W -> option unit * W;
  cmd_send : WorkerCommand -> W -> bool * W;
  cq_try_recv : W -> option TransferCompletionEntry * W;
  set_worker_stop : W -> W;
  set_uvm_stop : W -> W;
}.

Record WorkerHandle (W : Type) := {
  wh_aggregated_link_speed : Z;
  wh_address_list : list DomainAddress;
  wh_link : W;
}.
Arguments wh_aggregated_link_speed {W}.
Arguments wh_address_list {W}.
Arguments wh_link {W}.
Arguments Build_WorkerHandle {W}.

(** [WorkerHandle::stop]. *)
Definition handle_stop {W} `{WorkerLink W} (h : WorkerHandle W) : WorkerHandle W :=
  Build_WorkerHandle (wh_aggregated_link_speed h) (wh_address_list h)
    (set_uvm_stop (set_worker_stop (wh_link h))).

(** [BTreeMap<u8, _>]: the entries in the order of their keys. *)
Fixpoint btree_insert {A} (k : Z) (v : A) (l : list (Z * A)) : list (Z * A) :=
  match l with
  | [] => [(k, v)]
  | (k', v') :: rest =>
      if k <? k' then (k, v) :: l
      else if k =? k' then (k, v) :: rest
      else (k', v') :: btree_insert k v rest
  end.

Fixpoint btree_get {A} (k : Z) (l : list (Z * A)) : option A :=
  match l with
  | [] => None
  | (k', v) :: rest => if k =? k' then Some v else btree_get k rest
  end.

(** Replacing the value of an existing key. *)
Definition btree_set {A} (k : Z) (v : A) (l : list (Z * A)) : list (Z * A) :=
  (fun kv => if kv.1 =? k then (k, v) else kv) <$> l.

Record FabricEngine (W : Type) := {
  workers : list (Z * WorkerHandle W);
  fe_main_address : DomainAddress;
  fe_num_groups : Z;
  fe_num_domains : Z;
  fe_aggregated_link_speed : Z;
  fe_nets_per_gpu : Z;
  fe_stop_signal : bool;
  mr_device_map : gmap Z Device;
  imm_count_map : Shared;
}.
Arguments workers {W}.
Arguments fe_main_address {W}.
Arguments fe_num_groups {W}.
Arguments fe_num_domains {W}.
Arguments fe_aggregated_link_speed {W}.
Arguments fe_nets_per_gpu {W}.
Arguments fe_stop_signal {W}.
Arguments mr_device_map {W}.
Arguments imm_count_map {W}.
Arguments Build_FabricEngine {W}.

Definition worker_down : FabricLibError := Custom "Worker is down".

Section Operations.
Context {W : Type} `{WorkerLink W}.
Abbreviation FE := (FabricEngine W).

Definition set_workers (l : list (Z * WorkerHandle W)) (e : FE) : FE :=
  Build_FabricEngine l (fe_main_address e) (fe_num_groups e) (fe_num_domains e)
    (fe_aggregated_link_speed e) (fe_nets_per_gpu e) (fe_stop_signal e) (mr_device_map e)
    (imm_count_map e).
Definition set_stop_signal (b : bool) (e : FE) : FE :=
  Build_FabricEngine (workers e) (fe_main_address e) (fe_num_groups e) (fe_num_domains e)
    (fe_aggregated_link_speed e) (fe_nets_per_gpu e) b (mr_device_map e) (imm_count_map e).
Definition set_mr_device_map (m : gmap Z Device) (e : FE) : FE :=
  Build_FabricEngine (workers e) (fe_main_address e) (fe_num_groups e) (fe_num_domains e)
    (fe_aggregated_link_speed e) (fe_nets_per_gpu e) (fe_stop_signal e) m (imm_count_map e).
Definition set_imm_count_map (s : Shared) (e : FE) : FE :=
  Build_FabricEngine (workers e) (fe_main_address e) (fe_num_groups e) (fe_num_domains e)
    (fe_aggregated_link_speed e) (fe_nets_per_gpu e) (fe_stop_signal e) (mr_device_map e) s.

(** ** Construction

    [spawn] and [wait_init] of [worker.rs] are run for all workers in turn; they act on the
    system [Y]. *)
Section New.
Context {Y Worker InitializingWorker : Type}.
Context (spawn : Worker -> M Y (res InitializingWorker)).
Context (wait_init : InitializingWorker -> M Y (res (WorkerHandle W))).

(** The loop that fills [contexts] and sums up: groups, domains, link speed. *)
Fixpoint collect_workers (l : list (Z * WorkerHandle W))
    (acc : list (Z * WorkerHandle W) * (Z * Z * Z)) :
    list (Z * WorkerHandle W) * (Z * Z * Z) :=
  match l with
  | [] => acc
  | (device, w) :: l =>
      let '(contexts, (groups, doms, speed)) := acc in
      collect_workers l
        (btree_insert device w contexts,
         (groups + 1, doms + Z.of_nat (length (wh_address_list w)),
          u64_add speed (wh_aggregated_link_speed w)))
  end.

Definition fabric_engine_new (ws : list (Z * Worker)) : M Y (res FE) :=
  let? spawned := try_map ws (fun dw => let? w := spawn dw.2 in ret (Ok (dw.1, w))) in
  let? inited := try_map spawned (fun dw => let? w := wait_init dw.2 in ret (Ok (dw.1, w))) in
  let! main_worker := unwrap (head inited) "called `Option::unwrap()` on a `None` value" in
  let! main_address := unwrap (wh_address_list main_worker.2 !! 0%nat) "index out of bounds" in
  let nets_per_gpu := as_u8 (Z.of_nat (length (wh_address_list main_worker.2))) in
  let '(contexts, (groups, doms, speed)) := collect_workers inited ([], (0, 0, 0)) in
  ret (Ok (Build_FabricEngine contexts main_address groups doms speed nets_per_gpu false ∅ new_map)).
End New.

(** ** Finding a worker: the key of its context *)
Definition get_main_worker : M FE (res Z) :=
  let! l := gets workers in
  let! kv := unwrap (head l) "called `Option::unwrap()` on a `None` value" in
  ret (Ok kv.1).

Definition get_worker (device : Device) : M FE (res Z) :=
  match device with
  | Host => get_main_worker
  | Cuda device_id =>
      gets (fun e => match btree_get device_id (workers e) with
                     | Some _ => Ok device_id
                     | None => Err (Custom "Worker not found")
                     end)
  end.

Definition get_worker_by_mr (mr : MemoryRegionHandle) : M FE (res Z) :=
  let! device := gets (fun e => mr_device_map e !! mr) in
  match device with
  | Some device => get_worker device
  | None => ret (Err (Custom "Invalid memory region"))
  end.

(** An exchange with the worker of a context found before. *)
Definition on_worker {A} (key : Z) (f : W -> A * W) : M FE A := fun e =>
  match btree_get key (workers e) with
  | None => Panic "no such worker"
  | Some h =>
      let '(a, w) := f (wh_link h) in
      Done (a, set_workers (btree_set key
        (Build_WorkerHandle (wh_aggregated_link_speed h) (wh_address_list h) w) (workers e)) e)
  end.

(** [tx.send(cmd)] and [rx.recv()], both with [map_err(|_| "Worker is down")?]. *)
Definition call_worker {A} (key : Z) (f : W -> option A * W) : M FE (res A) :=
  let! r := on_worker key f in
  ret (match r with Some a => Ok a | None => Err worker_down end).

Definition send_command (key : Z) (cmd : WorkerCommand) : M FE (res unit) :=
  let! sent := on_worker key (cmd_send cmd) in
  ret (if sent : bool then Ok tt else Err worker_down).

(** ** Memory registration and peer groups *)
Section Register.
Context (pointer_type : Z -> res Z).

Definition fe_register_memory_local (ptr len : Z) (device : Device) :
    M FE (res MemoryRegionHandle) :=
  let? worker := get_worker device in
  let? region := ret (memory_region_new pointer_type ptr len device) in
  let? r := call_worker worker (call_register_local region) in
  let? handle := ret r in
  modify (fun e => set_mr_device_map (<[handle := device]> (mr_device_map e)) e) ;;;
  ret (Ok handle).

Definition fe_register_memory_allow_remote (ptr len : Z) (device : Device) :
    M FE (res (MemoryRegionHandle * MemoryRegionDescriptor)) :=
  let? worker := get_worker device in
  let? region := ret (memory_region_new pointer_type ptr len device) in
  let? r := call_worker worker (call_register_remote region) in
  let? hd := ret r in
  modify (fun e => set_mr_device_map (<[hd.1 := device]> (mr_device_map e)) e) ;;;
  ret (Ok hd).
End Register.

Definition fe_unregister_memory (ptr : Z) : M FE (res unit) :=
  let? worker := get_main_worker in
  let? _ := call_worker worker (call_unregister ptr) in
  ret (Ok tt).

Definition fe_add_peer_group (addrs : list (list DomainAddress)) (device : Device) :
    M FE (res PeerGroupHandle) :=
  let? worker := get_worker device in
  let? r := call_worker worker (call_add_peer_group addrs) in
  ret r.

Definition fe_acquire_uvm_watcher : M FE (res Z) :=
  let? worker := get_main_worker in
  let? maybe := call_worker worker call_acquire in
  ret (match maybe with
       | Some id => Ok id
       | None => Err (Custom "Failed to acquire UVM watcher")
       end).

Definition fe_release_uvm_watcher (watcher : Z) : M FE (res unit) :=
  let? worker := get_main_worker in
  let? _ := call_worker worker (call_release watcher) in
  ret (Ok tt).

(** ** Immediate counters *)
Definition on_imm_map {A} (m : M Shared A) : M FE A := on_state imm_count_map set_imm_count_map m.

Definition fe_set_imm_count_expected (imm expected : Z) : M FE (option ImmCount) :=
  on_imm_map (set_expected imm expected).
Definition fe_remove_imm_count (imm : Z) : M FE (option ImmCount) := on_imm_map (remove imm).
Definition fe_get_imm_counter (imm : Z) : M FE nat := on_imm_map (get_imm_counter imm).
Definition fe_get_gdr_counter (imm : Z) (flag : nat) : M FE (nat * nat) :=
  on_imm_map (get_gdr_counter imm flag).

(** ** Submission *)
Definition fe_submit_send (transfer_id : TransferId) (addr : DomainAddress)
    (mr : MemoryRegionHandle) (ptr len : Z) : M FE (res unit) :=
  let? worker := get_main_worker in
  let? _ := send_command worker (SubmitSend transfer_id mr ptr len addr) in
  ret (Ok tt).

Definition fe_submit_recv (transfer_id : TransferId) (mr : MemoryRegionHandle) (ptr len : Z) :
    M FE (res unit) :=
  let? worker := get_main_worker in
  let? _ := send_command worker (SubmitRecv transfer_id mr ptr len) in
  ret (Ok tt).

Definition request_worker (request : TransferRequest) : M FE (res Z) :=
  match request with
  | ReqImm _ => get_main_worker
  | ReqBarrier _ => get_main_worker
  | ReqSingle req => get_worker_by_mr (sr_src_mr req)
  | ReqPaged req => get_worker_by_mr (pr_src_mr req)
  | ReqScatter req => get_worker_by_mr (xr_src_mr req)
  end.

Definition fe_submit_transfer (transfer_id : TransferId) (request : TransferRequest)
    (tx_counter : option TransferCounter) : M FE (res unit) :=
  let? worker := request_worker request in
  send_command worker (SubmitTransfer transfer_id request tx_counter).

(** ** Completions and shutdown *)

(** [for (_, ctx) in self.workers.iter()]: the first worker with a queued completion. *)
Fixpoint poll_workers (l : list (Z * WorkerHandle W)) :
    option TransferCompletionEntry * list (Z * WorkerHandle W) :=
  match l with
  | [] => (None, [])
  | (k, h) :: l =>
      let '(r, w) := cq_try_recv (wh_link h) in
      let h' := Build_WorkerHandle (wh_aggregated_link_speed h) (wh_address_list h) w in
      match r with
      | Some c => (Some c, (k, h') :: l)
      | None => let '(c, l') := poll_workers l in (c, (k, h') :: l')
      end
  end.

Definition fe_poll_transfer_completion : M FE (option TransferCompletionEntry) := fun e =>
  let '(c, l) := poll_workers (workers e) in Done (c, set_workers l e).

Definition fe_stop : M FE unit :=
  modify (set_stop_signal true) ;;;
  modify (fun e => set_workers (prod_map id handle_stop <$> workers e) e).

Definition fe_is_stopped (e : FE) : bool := fe_stop_signal e.

(** [while let Some((_, ctx)) = self.workers.pop_first() { ctx.worker.stop() }]: the handles
    are stopped and dropped; the result is what becomes of them. *)
Definition fe_drop : M FE (list (WorkerHandle W)) :=
  fe_stop ;;;
  let! l := gets workers in
  modify (set_workers []) ;;;
  ret (handle_stop ∘ snd <$> l).
End Operations.
