(* ===== verification/TransferEngine.v ===== *)
(** * The transfer engine

    [fabric-lib/src/transfer_engine.rs]: the public engine.  It numbers the operations, keeps
    their callbacks in concurrent maps, and one thread polls the completions of the fabric
    engine and runs the callbacks.

    Callbacks are user code and may call the engine again: the class [Handlers] says what running
    one does to the whole state.  [trace] is the sequence of callback invocations, which is what
    a user observes.

    A [DashMap] is divided into shards, each behind a lock.  A guard returned by [get] holds the
    shard of its key; [insert] and [remove] on that shard by the same thread wait for ever (the
    documentation of [DashMap]: they may deadlock when called while holding a reference into the
    map).  The model keeps the guards of the callback thread and gives [Panic "deadlock"] there;
    calls of other threads are the atomic steps between two completions.  Likewise for the
    [RwLock] around the immediate callbacks. *)
From stdpp Require Import prelude gmap strings list.
From S2P Require Import Prelude Api ImmCount Sharding Provider DomainGroup Worker FabricEngine.
Local Open Scope Z_scope.

(** ** Concurrent maps *)
Record DashMap (A : Type) := { dm_map : gmap Z A; dm_guards : list Z }.
Arguments dm_map {A}.
Arguments dm_guards {A}.
Arguments Build_DashMap {A}.

Definition dm_new {A} : DashMap A := Build_DashMap ∅ [].

Section DashMap.
Context (shard : Z -> nat) {A : Type}.

Definition dm_held (k : Z) (m : DashMap A) : bool :=
  existsb (fun g => shard g =? shard k)%nat (dm_guards m).

Definition dm_insert (k : Z) (a : A) : M (DashMap A) unit := fun m =>
  if dm_held k m then Panic "deadlock"
  else Done (tt, Build_DashMap (<[k := a]> (dm_map m)) (dm_guards m)).

Definition dm_remove (k : Z) : M (DashMap A) (option A) := fun m =>
  if dm_held k m then Panic "deadlock"
  else Done (dm_map m !! k, Build_DashMap (delete k (dm_map m)) (dm_guards m)).

(** [get]: the value, with a guard when there is one. *)
Definition dm_get (k : Z) : M (DashMap A) (option A) := fun m =>
  match dm_map m !! k with
  | Some a => Done (Some a, Build_DashMap (dm_map m) (k :: dm_guards m))
  | None => Done (None, m)
  end.

(** Dropping the guard taken last. *)
Definition dm_drop : M (DashMap A) unit :=
  modify (fun m => Build_DashMap (dm_map m) (tail (dm_guards m))).
End DashMap.

(** ** The state *)
Record TransferCallback (Cb : Type) := { on_done : Cb; on_error : Cb }.
Arguments on_done {Cb}.
Arguments on_error {Cb}.
Arguments Build_TransferCallback {Cb}.

Record RecvContext (Cb : Type) := {
  rc_mr : MemoryRegionHandle;
  rc_ptr : Z;
  rc_len : Z;
  rc_on_recv : Cb;
  rc_on_error : Cb;
}.
Arguments rc_mr {Cb}.
Arguments rc_ptr {Cb}.
Arguments rc_len {Cb}.
Arguments rc_on_recv {Cb}.
Arguments rc_on_error {Cb}.
Arguments Build_RecvContext {Cb}.

Inductive ImmCountFn (Cb : Type) : Type := Once (cb : Cb) | Repeated (cb : Cb).
Arguments Once {Cb} cb.
Arguments Repeated {Cb} cb.

Record Callbacks (Cb : Type) := {
  cb_imm : list Cb;
  cb_imm_readers : nat;
  cb_recv_ops : DashMap (RecvContext Cb);
  cb_send_ops : DashMap Cb;
  cb_transfer_ops : DashMap (TransferCallback Cb);
  cb_imm_count : DashMap (ImmCountFn Cb);
  cb_watchers : DashMap Cb;
}.
Arguments cb_imm {Cb}.
Arguments cb_imm_readers {Cb}.
Arguments cb_recv_ops {Cb}.
Arguments cb_send_ops {Cb}.
Arguments cb_transfer_ops {Cb}.
Arguments cb_imm_count {Cb}.
Arguments cb_watchers {Cb}.
Arguments Build_Callbacks {Cb}.

(** What a callback is called with. *)
Inductive Invocation (Cb : Type) : Type :=
  | IDone (tid : TransferId) (cb : Cb)
  | IError (tid : TransferId) (cb : Cb) (e : FabricLibError)
  | ISend (tid : TransferId) (cb : Cb) (r : res unit)
  | IRecv (tid : TransferId) (cb : Cb) (data_len : Z)
  | IImm (cb : Cb) (imm : Z)
  | ICount (imm : Z) (cb : Cb)
  | IOnce (imm : Z) (cb : Cb)
  | IWatch (id : Z) (cb : Cb) (old new : Z).
Arguments IDone {Cb}.
Arguments IError {Cb}.
Arguments ISend {Cb}.
Arguments IRecv {Cb}.
Arguments IImm {Cb}.
Arguments ICount {Cb}.
Arguments IOnce {Cb}.
Arguments IWatch {Cb}.

Record TransferEngine (W Cb : Type) := {
  next_transfer_id : Z;
  te_engine : FabricEngine W;
  callbacks : Callbacks Cb;
  te_thread : bool;
  trace : list (Invocation Cb);
}.
Arguments next_transfer_id {W Cb}.
Arguments te_engine {W Cb}.
Arguments callbacks {W Cb}.
Arguments te_thread {W Cb}.
Arguments trace {W Cb}.
Arguments Build_TransferEngine {W Cb}.

Abbreviation CallbackResult := (result string unit) (only parsing).

(** Running a callback: on the whole state, since it may call the engine. *)
Class Handlers (W Cb : Type) := {
  run : Invocation Cb -> M (TransferEngine W Cb) (result string bool);
}.

Section Operations.
Context {W Cb : Type} `{WorkerLink W}.
Context (shard : Z -> nat).
Abbreviation TE := (TransferEngine W Cb).

Definition set_next_id (n : Z) (s : TE) : TE :=
  Build_TransferEngine n (te_engine s) (callbacks s) (te_thread s) (trace s).
Definition set_engine (e : FabricEngine W) (s : TE) : TE :=
  Build_TransferEngine (next_transfer_id s) e (callbacks s) (te_thread s) (trace s).
Definition set_callbacks (c : Callbacks Cb) (s : TE) : TE :=
  Build_TransferEngine (next_transfer_id s) (te_engine s) c (te_thread s) (trace s).
Definition set_thread (b : bool) (s : TE) : TE :=
  Build_TransferEngine (next_transfer_id s) (te_engine s) (callbacks s) b (trace s).
Definition add_trace (i : Invocation Cb) (s : TE) : TE :=
  Build_TransferEngine (next_transfer_id s) (te_engine s) (callbacks s) (te_thread s) (trace s ++ [i]).

Definition set_imm (l : list Cb) (n : nat) (c : Callbacks Cb) : Callbacks Cb :=
  Build_Callbacks l n (cb_recv_ops c) (cb_send_ops c) (cb_transfer_ops c) (cb_imm_count c) (cb_watchers c).
Definition set_recv_ops m (c : Callbacks Cb) : Callbacks Cb :=
  Build_Callbacks (cb_imm c) (cb_imm_readers c) m (cb_send_ops c) (cb_transfer_ops c) (cb_imm_count c) (cb_watchers c).
Definition set_send_ops m (c : Callbacks Cb) : Callbacks Cb :=
  Build_Callbacks (cb_imm c) (cb_imm_readers c) (cb_recv_ops c) m (cb_transfer_ops c) (cb_imm_count c) (cb_watchers c).
Definition set_transfer_ops m (c : Callbacks Cb) : Callbacks Cb :=
  Build_Callbacks (cb_imm c) (cb_imm_readers c) (cb_recv_ops c) (cb_send_ops c) m (cb_imm_count c) (cb_watchers c).
Definition set_imm_count m (c : Callbacks Cb) : Callbacks Cb :=
  Build_Callbacks (cb_imm c) (cb_imm_readers c) (cb_recv_ops c) (cb_send_ops c) (cb_transfer_ops c) m (cb_watchers c).
Definition set_watchers m (c : Callbacks Cb) : Callbacks Cb :=
  Build_Callbacks (cb_imm c) (cb_imm_readers c) (cb_recv_ops c) (cb_send_ops c) (cb_transfer_ops c) (cb_imm_count c) m.

Definition on_engine {A} (m : M (FabricEngine W) A) : M TE A := on_state te_engine set_engine m.
Definition on_recv_ops {A} (m : M (DashMap (RecvContext Cb)) A) : M TE A :=
  on_state (fun s => cb_recv_ops (callbacks s)) (fun m s => set_callbacks (set_recv_ops m (callbacks s)) s) m.
Definition on_send_ops {A} (m : M (DashMap Cb) A) : M TE A :=
  on_state (fun s => cb_send_ops (callbacks s)) (fun m s => set_callbacks (set_send_ops m (callbacks s)) s) m.
Definition on_transfer_ops {A} (m : M (DashMap (TransferCallback Cb)) A) : M TE A :=
  on_state (fun s => cb_transfer_ops (callbacks s)) (fun m s => set_callbacks (set_transfer_ops m (callbacks s)) s) m.
Definition on_imm_count {A} (m : M (DashMap (ImmCountFn Cb)) A) : M TE A :=
  on_state (fun s => cb_imm_count (callbacks s)) (fun m s => set_callbacks (set_imm_count m (callbacks s)) s) m.
Definition on_watchers {A} (m : M (DashMap Cb) A) : M TE A :=
  on_state (fun s => cb_watchers (callbacks s)) (fun m s => set_callbacks (set_watchers m (callbacks s)) s) m.

(** ** Construction *)
Definition new_callbacks : Callbacks Cb := Build_Callbacks [] 0 dm_new dm_new dm_new dm_new dm_new.

(** [started]: whether the system starts the callback thread. *)
Definition transfer_engine_new (engine : res (FabricEngine W)) (started : bool) : res TE :=
  match engine with
  | Err e => Err e
  | Ok engine =>
      if negb started then Err (Custom "failed to launch callback worker thread")
      else Ok (Build_TransferEngine 0 engine new_callbacks true [])
  end.

(** ** The public operations *)
Definition add_imm_callback (callback : Cb) : M TE unit := fun s =>
  let c := callbacks s in
  if (0 <? cb_imm_readers c)%nat then Panic "deadlock"
  else Done (tt, set_callbacks (set_imm (cb_imm c ++ [callback]) (cb_imm_readers c) c) s).

Definition set_imm_count_expected (imm expected : Z) (callback : Cb) : M TE (option ImmCount) :=
  on_imm_count (dm_insert shard imm (Repeated callback)) ;;;
  on_engine (fe_set_imm_count_expected imm expected).

Definition remove_imm_count (imm : Z) : M TE (option ImmCount) :=
  on_imm_count (dm_remove shard imm) ;;;
  on_engine (fe_remove_imm_count imm).

Definition te_get_imm_counter (imm : Z) : M TE nat := on_engine (fe_get_imm_counter imm).
Definition te_get_gdr_counter (imm : Z) (flag : nat) : M TE (nat * nat) :=
  on_engine (fe_get_gdr_counter imm flag).
Definition te_add_peer_group (addrs : list (list DomainAddress)) (device : Device) :
    M TE (res PeerGroupHandle) := on_engine (fe_add_peer_group addrs device).

Definition alloc_scalar_watcher (callback : Cb) : M TE (res Z) :=
  let? watcher_id := on_engine fe_acquire_uvm_watcher in
  on_watchers (dm_insert shard watcher_id callback) ;;;
  ret (Ok watcher_id).

(** [fetch_add(1)] on the [AtomicU64]. *)
Definition assign_transfer_id : M TE TransferId := fun s =>
  Done (next_transfer_id s, set_next_id (u64_add (next_transfer_id s) 1) s).

Definition te_submit_transfer (request : TransferRequest) (callback : TransferCallback Cb) :
    M TE (res unit) :=
  let! transfer_id := assign_transfer_id in
  on_transfer_ops (dm_insert shard transfer_id callback) ;;;
  on_engine (fe_submit_transfer transfer_id request None).

Definition submit_transfer_atomic (request : TransferRequest) (counter : TransferCounter) :
    M TE (res unit) :=
  let! transfer_id := assign_transfer_id in
  on_engine (fe_submit_transfer transfer_id request (Some counter)).

(** [SendBuffer] of [interface.rs]. *)
Record SendBuffer := { sb_ptr : Z; sb_len : Z; sb_mr_handle : MemoryRegionHandle }.

Definition te_submit_send (addr : DomainAddress) (buffer : SendBuffer) (callback : Cb) :
    M TE (res unit) :=
  let! transfer_id := assign_transfer_id in
  on_send_ops (dm_insert shard transfer_id callback) ;;;
  let? _ := on_engine (fe_submit_send transfer_id addr (sb_mr_handle buffer) (sb_ptr buffer)
              (sb_len buffer)) in
  ret (Ok tt).

Definition te_submit_recv (mr : MemoryRegionHandle) (ptr len : Z) (on_recv on_error : Cb) :
    M TE (res unit) :=
  let! transfer_id := assign_transfer_id in
  on_recv_ops (dm_insert shard transfer_id (Build_RecvContext mr ptr len on_recv on_error)) ;;;
  let? _ := on_engine (fe_submit_recv transfer_id mr ptr len) in
  ret (Ok tt).

(** [storage]: the address of the allocated buffer; [on_recv i] and [on_error i] are the closures
    built for slot [i]. *)
Definition submit_bouncing_recvs (pointer_type : Z -> res Z) (storage : Z) (len : Z) (count : nat)
    (on_recv on_error : nat -> Cb) : M TE (res unit) :=
  let? mr_handle := on_engine (fe_register_memory_local pointer_type storage
                      (u64_mul len (Z.of_nat count)) Host) in
  try_for_each (seq 0 count) (fun i =>
    te_submit_recv mr_handle (storage + u64_mul (Z.of_nat i) len) len (on_recv i) (on_error i)).

(** The part of the async [wait_for_imm_count] before it waits: the only user of [Once]. *)
Definition wait_for_imm_count (imm expected : Z) (callback : Cb) : M TE unit :=
  on_imm_count (dm_insert shard imm (Once callback)) ;;;
  on_engine (fe_set_imm_count_expected imm expected) ;;;
  ret tt.

Definition te_stop : M TE unit :=
  on_engine fe_stop ;;;
  modify (set_thread false).

(** ** Running callbacks *)
Context `{Handlers W Cb}.

Definition invoke (i : Invocation Cb) : M TE (result string bool) :=
  modify (add_trace i) ;;; run i.

(** For callbacks without a result the value is ignored. *)
Definition invoke_unit (i : Invocation Cb) : M TE CallbackResult :=
  let? _ := invoke i in ret (Ok tt).

(** [for callback in states.imm.read().iter() { callback(imm)? }]; the read lock is released on
    every path. *)
Definition imm_readers (f : nat -> nat) : M TE unit :=
  modify (fun s => let c := callbacks s in
                   set_callbacks (set_imm (cb_imm c) (f (cb_imm_readers c)) c) s).

Definition run_imm_callbacks (imm : Z) : M TE CallbackResult :=
  let! cbs := gets (fun s => cb_imm (callbacks s)) in
  imm_readers S ;;;
  let! r := try_for_each cbs (fun cb => invoke_unit (IImm cb imm)) in
  imm_readers pred ;;;
  ret r.

Definition handle_transfer (transfer_id : TransferId) : M TE CallbackResult :=
  let! handler := on_transfer_ops (dm_remove shard transfer_id) in
  match handler with
  | None => ret (Ok tt)
  | Some handler => invoke_unit (IDone transfer_id (on_done handler))
  end.

Definition handle_recv (transfer_id : TransferId) (data_len : Z) : M TE CallbackResult :=
  let! handler := on_recv_ops (dm_get transfer_id) in
  match handler with
  | None => ret (Ok tt)
  | Some handler =>
      let! r := (let? _ := invoke_unit (IRecv transfer_id (rc_on_recv handler) data_len) in
                 let! r := on_engine (fe_submit_recv transfer_id (rc_mr handler) (rc_ptr handler)
                             (rc_len handler)) in
                 ret (match r with
                      | Ok _ => Ok tt
                      | Err _ => Err "Failed to re-register recv operation"%string
                      end)) in
      on_recv_ops dm_drop ;;;
      ret r
  end.

Definition handle_send (transfer_id : TransferId) : M TE CallbackResult :=
  let! handler := on_send_ops (dm_remove shard transfer_id) in
  match handler with
  | None => ret (Ok tt)
  | Some handler => invoke_unit (ISend transfer_id handler (Ok tt))
  end.

(** [for _ in 0..count { for callback in states.imm.read().iter() { callback(imm)? } }]. *)
Definition replay_imm (count : nat) (imm : Z) : M TE CallbackResult :=
  try_for_each (seq 0 count) (fun _ => run_imm_callbacks imm).

(** The branch [Ok(false) | Err(_)] of a repeated count. *)
Definition finish_imm_count (imm : Z) : M TE CallbackResult :=
  on_imm_count (dm_remove shard imm) ;;;
  let! c := on_engine (fe_remove_imm_count imm) in
  match c with
  | Some imm_count =>
      let! count := on_engine (on_imm_map (on_heap (consume imm_count))) in
      if 0 <? count.1 then replay_imm (Z.to_nat count.1) imm else ret (Ok tt)
  | None => ret (Ok tt)
  end.

Definition handle_imm_count_reached (imm : Z) : M TE CallbackResult :=
  let! handler := on_imm_count (dm_get imm) in
  match handler with
  | None => ret (Ok tt)
  | Some (Once _) =>
      on_imm_count dm_drop ;;;
      let! o := on_imm_count (dm_remove shard imm) in
      let! once_handler := unwrap o "called `Option::unwrap()` on a `None` value" in
      match once_handler with
      | Once handler_fn => invoke (IOnce imm handler_fn) ;;; ret (Ok tt)
      | Repeated _ => panic "Expected ImmCountFn::Once"
      end
  | Some (Repeated callback) =>
      let! res := invoke (ICount imm callback) in
      on_imm_count dm_drop ;;;
      match res with
      | Ok true => ret (Ok tt)
      | Ok false | Err _ => finish_imm_count imm
      end
  end.

(** The guard [callback] is still alive when the entry is removed. *)
Definition handle_uvm_watch (id old new_ : Z) : M TE CallbackResult :=
  let! callback := on_watchers (dm_get id) in
  match callback with
  | None => ret (Ok tt)
  | Some callback =>
      let! r := invoke (IWatch id callback old new_) in
      let! r := match r with
                | Ok true => ret (Ok tt)
                | Ok false | Err _ =>
                    on_engine (fe_release_uvm_watcher id) ;;;
                    on_watchers (dm_remove shard id) ;;;
                    ret (Ok tt)
                end in
      on_watchers dm_drop ;;;
      ret r
  end.

(** An error of the callback is logged only. *)
Definition handle_error (transfer_id : TransferId) (e : FabricLibError) : M TE CallbackResult :=
  let! t := on_transfer_ops (dm_remove shard transfer_id) in
  match t with
  | Some op => invoke (IError transfer_id (on_error op) e) ;;; ret (Ok tt)
  | None =>
      let! snd_ := on_send_ops (dm_remove shard transfer_id) in
      match snd_ with
      | Some op => invoke (ISend transfer_id op (Err e)) ;;; ret (Ok tt)
      | None =>
          let! rcv := on_recv_ops (dm_remove shard transfer_id) in
          match rcv with
          | Some op => invoke (IError transfer_id (rc_on_error op) e) ;;; ret (Ok tt)
          | None => ret (Ok tt)
          end
      end
  end.

Definition handle_transfer_completion (comp : TransferCompletionEntry) : M TE CallbackResult :=
  match comp with
  | TcTransfer transfer_id => handle_transfer transfer_id
  | TcRecv transfer_id data_len => handle_recv transfer_id data_len
  | TcSend transfer_id => handle_send transfer_id
  | TcImmData imm_data => run_imm_callbacks imm_data
  | TcImmCountReached imm => handle_imm_count_reached imm
  | TcUvmWatch id old new_ => handle_uvm_watch id old new_
  | TcError transfer_id e => handle_error transfer_id e
  end.

(** The callback thread.  [env] is what the other threads do to the state before each turn of
    the loop; the result says whether the loop has ended. *)
Fixpoint callback_worker_thread (env : list (TE -> TE)) : M TE bool :=
  match env with
  | [] => ret false
  | act :: env =>
      modify act ;;;
      let! stopped := gets (fun s => fe_is_stopped (te_engine s)) in
      if stopped : bool then ret true
      else
        let! comp := on_engine fe_poll_transfer_completion in
        match comp with
        | None => callback_worker_thread env
        | Some comp =>
            let! r := handle_transfer_completion comp in
            match r with
            | Ok _ => callback_worker_thread env
            | Err _ => on_engine fe_stop ;;; ret true
            end
        end
  end.
End Operations.
