(* ===== verification/FabricSpec.v ===== *)
(** * Theorems on the fabric engine

    Where requests, registrations and unregistrations go, and what [FabricEngine::new] builds. *)
From stdpp Require Import prelude gmap strings list sorting.
From S2P Require Import Prelude Api ImmCount Sharding Provider DomainGroup Worker FabricEngine.
Local Open Scope Z_scope.

(** ** Ordered maps *)
Lemma btree_get_insert {A} k k' (v : A) l :
  btree_get k (btree_insert k' v l) = if k =? k' then Some v else btree_get k l.
Proof.
  induction l as [|[k1 v1] l IH]; simpl; [done|].
  repeat (case_match; simpl); rewrite ?Z.eqb_eq, ?Z.eqb_neq, ?Z.ltb_lt, ?Z.ltb_ge in *;
    subst; try done; rewrite IH; by repeat case_match; rewrite ?Z.eqb_eq, ?Z.eqb_neq in *.
Qed.

Lemma btree_set_keys {A} k (v : A) l : (btree_set k v l).*1 = l.*1.
Proof.
  unfold btree_set. induction l as [|[k1 v1] l IH]; [done|]. csimpl. rewrite IH. f_equal.
  case_match; [|done]. apply Z.eqb_eq in H. done.
Qed.

Lemma btree_get_set {A} k k' (v : A) l :
  is_Some (btree_get k' l) ->
  btree_get k (btree_set k' v l) = if k =? k' then Some v else btree_get k l.
Proof.
  unfold btree_set. induction l as [|[k1 v1] l IH]; csimpl; [by intros []|].
  intros Hs. destruct (Z.eqb_spec k1 k') as [->|Hne]; csimpl.
  - destruct (Z.eqb_spec k k') as [->|Hk]; [done|].
    clear IH Hs. induction l as [|[k2 v2] l IH]; csimpl; [done|].
    destruct (Z.eqb_spec k2 k') as [->|]; csimpl.
    + destruct (Z.eqb_spec k k'); [done|]. apply IH.
    + case_match; [done|apply IH].
  - destruct (Z.eqb_spec k' k1); [done|]. destruct (Z.eqb_spec k k1) as [->|].
    + destruct (Z.eqb_spec k1 k'); [done|]. done.
    + by apply IH.
Qed.

Lemma btree_get_head {A} k (v : A) l : btree_get k ((k, v) :: l) = Some v.
Proof. simpl. by rewrite Z.eqb_refl. Qed.

(** The keys stay in ascending order, so the first is the smallest. *)
Lemma btree_insert_keys {A} k (v : A) l x :
  x ∈ (btree_insert k v l).*1 <-> x = k \/ x ∈ l.*1.
Proof.
  induction l as [|[k1 v1] l IH]; simpl; [set_solver|].
  destruct (Z.ltb_spec k k1); [set_solver|]. destruct (Z.eqb_spec k k1) as [->|]; [set_solver|].
  csimpl. rewrite !elem_of_cons, IH. tauto.
Qed.

Lemma btree_insert_sorted {A} k (v : A) l :
  StronglySorted Z.lt l.*1 -> StronglySorted Z.lt (btree_insert k v l).*1.
Proof.
  induction l as [|[k1 v1] l IH]; simpl; [by repeat constructor|]. intros Hs.
  inversion Hs as [|? ? Hs' Hf]; subst.
  destruct (Z.ltb_spec k k1) as [Hlt|Hge]; csimpl.
  { constructor; [done|]. constructor; [done|]. eapply Forall_impl; [exact Hf|]. simpl. lia. }
  destruct (Z.eqb_spec k k1) as [->|Hne]; csimpl; [by constructor|].
  constructor; [by apply IH|]. apply Forall_forall. intros x [->|Hx]%btree_insert_keys; [lia|].
  by eapply Forall_forall in Hf.
Qed.

(** ** The workers an operation talks to *)
Section Workers.
Context {W : Type} `{WorkerLink W}.

(** What an exchange leaves: the other workers and the order of the keys. *)
Lemma on_worker_run {A} key (f : W -> A * W) (e : FabricEngine W) h :
  btree_get key (workers e) = Some h ->
  on_worker key f e = Done ((f (wh_link h)).1,
    set_workers (btree_set key (Build_WorkerHandle (wh_aggregated_link_speed h)
      (wh_address_list h) (f (wh_link h)).2) (workers e)) e).
Proof. intros Hg. unfold on_worker. rewrite Hg. by destruct (f (wh_link h)). Qed.

Lemma get_main_worker_run (e : FabricEngine W) k h rest :
  workers e = (k, h) :: rest -> get_main_worker e = Done (Ok k, e).
Proof. intros Hw. unfold get_main_worker, bind, gets. by rewrite Hw. Qed.

(** A command is sent to the first worker of the map. *)
Lemma send_main_run (e : FabricEngine W) k h rest cmd :
  workers e = (k, h) :: rest ->
  (let? worker := get_main_worker in send_command worker cmd) e =
  Done (if (cmd_send cmd (wh_link h)).1 then Ok tt else Err worker_down,
    set_workers (btree_set k (Build_WorkerHandle (wh_aggregated_link_speed h)
      (wh_address_list h) (cmd_send cmd (wh_link h)).2) (workers e)) e).
Proof.
  intros Hw. unfold bind_res, bind. rewrite (get_main_worker_run _ _ _ _ Hw).
  unfold send_command, bind. rewrite (on_worker_run k _ e h); [done|].
  rewrite Hw. apply btree_get_head.
Qed.

Lemma bind_res_ok_tt {S E} (m : M S (result E unit)) s :
  (let? _ := m in ret (Ok tt)) s = m s.
Proof. unfold bind_res, bind. by destruct (m s) as [[[[]|] ?]| |]. Qed.

Lemma fe_submit_recv_run (e : FabricEngine W) tid mr ptr len k h rest :
  workers e = (k, h) :: rest ->
  fe_submit_recv tid mr ptr len e =
  Done (if (cmd_send (SubmitRecv tid mr ptr len) (wh_link h)).1 then Ok tt else Err worker_down,
    set_workers (btree_set k (Build_WorkerHandle (wh_aggregated_link_speed h)
      (wh_address_list h) (cmd_send (SubmitRecv tid mr ptr len) (wh_link h)).2) (workers e)) e).
Proof.
  intros Hw. unfold fe_submit_recv. rewrite <- (send_main_run e k h rest) by done.
  unfold bind_res at 1 3. unfold bind. destruct (get_main_worker e) as [[[w|] e']| |]; try done.
  apply bind_res_ok_tt.
Qed.

Lemma fe_submit_send_run (e : FabricEngine W) tid addr mr ptr len :
  workers e <> [] ->
  exists r e', fe_submit_send tid addr mr ptr len e = Done (r, e') /\ (workers e').*1 = (workers e).*1.
Proof.
  intros Hw. destruct (workers e) as [|[k h] rest] eqn:Ew; [done|].
  pose proof (send_main_run e k h rest (SubmitSend tid mr ptr len addr) Ew) as Hm.
  assert (fe_submit_send tid addr mr ptr len e =
    (let? worker := get_main_worker in send_command worker (SubmitSend tid mr ptr len addr)) e) as ->.
  { unfold fe_submit_send, bind_res at 1 3. unfold bind. rewrite (get_main_worker_run _ _ _ _ Ew). apply bind_res_ok_tt. }
  rewrite Hm. eexists _, _. split; [reflexivity|]. cbn. by rewrite btree_set_keys, Ew.
Qed.

(** Where a request goes: the key of a worker, or the error. *)
Definition main_key (e : FabricEngine W) : option Z := fst <$> head (workers e).
Definition device_key (e : FabricEngine W) (d : Device) : res Z :=
  match d with
  | Host => match main_key e with Some k => Ok k | None => Err worker_down end
  | Cuda id => match btree_get id (workers e) with
               | Some _ => Ok id
               | None => Err (Custom "Worker not found")
               end
  end.
Definition request_mr (req : TransferRequest) : option MemoryRegionHandle :=
  match req with
  | ReqImm _ | ReqBarrier _ => None
  | ReqSingle r => Some (sr_src_mr r)
  | ReqPaged r => Some (pr_src_mr r)
  | ReqScatter r => Some (xr_src_mr r)
  end.
Definition route (e : FabricEngine W) (req : TransferRequest) : res Z :=
  match request_mr req with
  | None => device_key e Host
  | Some mr => match mr_device_map e !! mr with
               | Some d => device_key e d
               | None => Err (Custom "Invalid memory region")
               end
  end.

(** The engine after worker [k] has been given [f]. *)
Definition with_link {A} (k : Z) (h : WorkerHandle W) (f : W -> A * W) (e : FabricEngine W) :
    FabricEngine W :=
  set_workers (btree_set k (Build_WorkerHandle (wh_aggregated_link_speed h) (wh_address_list h)
    (f (wh_link h)).2) (workers e)) e.

Lemma with_link_keys {A} k h (f : W -> A * W) e : (workers (with_link k h f e)).*1 = (workers e).*1.
Proof. apply btree_set_keys. Qed.

Lemma get_worker_run (e : FabricEngine W) d :
  workers e <> [] -> get_worker d e = Done (device_key e d, e).
Proof.
  intros Hw. destruct d as [|id]; simpl; [|unfold gets; by case_match].
  unfold get_main_worker, bind, gets, main_key. by destruct (workers e).
Qed.

Lemma device_key_live (e : FabricEngine W) d k :
  device_key e d = Ok k -> exists h, btree_get k (workers e) = Some h.
Proof.
  destruct d as [|id]; simpl.
  - unfold main_key. destruct (workers e) as [|[k' h] rest]; [done|]. simpl. intros [= ->].
    exists h. simpl. by rewrite Z.eqb_refl.
  - destruct (btree_get id (workers e)) as [h|] eqn:E; [|done]. intros [= ->]. eauto.
Qed.

Lemma fe_submit_transfer_run (e : FabricEngine W) tid req tx :
  workers e <> [] ->
  match route e req with
  | Err er => fe_submit_transfer tid req tx e = Done (Err er, e)
  | Ok k => exists h, btree_get k (workers e) = Some h /\
      let f := cmd_send (SubmitTransfer tid req tx) in
      fe_submit_transfer tid req tx e =
        Done (if (f (wh_link h)).1 then Ok tt else Err worker_down, with_link k h f e)
  end.
Proof.
  intros Hw. unfold fe_submit_transfer.
  assert (request_worker req e = Done (route e req, e)) as Hg.
  { unfold route. pose proof (get_worker_run e Host Hw) as Hm. simpl in Hm.
    destruct req; simpl; try exact Hm; unfold get_worker_by_mr, bind, gets;
      (destruct (mr_device_map e !! _) as [d|]; [by apply get_worker_run|done]). }
  unfold bind_res, bind. rewrite Hg. destruct (route e req) as [k|er] eqn:Er; [|done].
  assert (exists h, btree_get k (workers e) = Some h) as [h Hh].
  { unfold route in Er. destruct (request_mr req) as [mr|]; [|by eapply device_key_live].
    destruct (mr_device_map e !! mr); [by eapply device_key_live|done]. }
  exists h. split; [done|]. unfold send_command, bind. by rewrite (on_worker_run k _ e h Hh).
Qed.

Lemma fe_submit_transfer_keys (e : FabricEngine W) tid req tx :
  workers e <> [] ->
  exists r e', fe_submit_transfer tid req tx e = Done (r, e') /\ (workers e').*1 = (workers e).*1.
Proof.
  intros Hw. pose proof (fe_submit_transfer_run e tid req tx Hw) as Hr.
  destruct (route e req); [|eauto]. destruct Hr as (h & _ & ->). eexists _, _. split; [done|].
  apply with_link_keys.
Qed.

(** A registration that succeeds records the device of the handle, and talks to one worker. *)
Lemma register_local_inv pointer_type ptr len device (e e1 : FabricEngine W) h :
  workers e <> [] ->
  fe_register_memory_local pointer_type ptr len device e = Done (Ok h, e1) ->
  exists k w region, device_key e device = Ok k /\ btree_get k (workers e) = Some w /\
    memory_region_new pointer_type ptr len device = Ok region /\
    (call_register_local region (wh_link w)).1 = Some (Ok h) /\
    e1 = set_mr_device_map (<[h := device]> (mr_device_map e))
           (with_link k w (call_register_local region) e).
Proof.
  intros Hw. unfold fe_register_memory_local, bind_res, call_worker, bind, ret, modify.
  rewrite (get_worker_run e device Hw).
  destruct (device_key e device) as [k|er] eqn:Hk; [|done].
  destruct (memory_region_new pointer_type ptr len device) as [region|er] eqn:Hr; [|done].
  destruct (device_key_live e device k Hk) as [w Hw0]. rewrite (on_worker_run k _ e w Hw0).
  destruct (call_register_local region (wh_link w)).1 as [[h'|]|] eqn:Hc; try done.
  intros [= <- <-]. by exists k, w, region.
Qed.

(** C27: a transfer is handed to the worker of the device its source region was registered on.
    After [register_memory_local] of a region on [device] returned the handle [h], a single,
    paged or scatter request with source [h] is sent, once and unchanged, to the worker of that
    device (the worker with the smallest id for host memory); no other worker sees anything, and
    the caller gets an error iff that worker is down. *)
Theorem registered_region_routes_transfers pointer_type ptr len device (e e1 : FabricEngine W) h tid
    req tx :
  workers e <> [] ->
  fe_register_memory_local pointer_type ptr len device e = Done (Ok h, e1) ->
  request_mr req = Some h ->
  exists k w r e2, device_key e device = Ok k /\ btree_get k (workers e1) = Some w /\
    fe_submit_transfer tid req tx e1 = Done (r, e2) /\
    let sent := cmd_send (SubmitTransfer tid req tx) (wh_link w) in
    (r = Ok tt <-> sent.1 = true) /\
    forall k', btree_get k' (workers e2) =
      if k' =? k then Some (Build_WorkerHandle (wh_aggregated_link_speed w) (wh_address_list w) sent.2)
      else btree_get k' (workers e1).
Proof.
  intros Hw Hreg Hreq. destruct (register_local_inv _ _ _ _ _ _ _ Hw Hreg)
    as (k & w0 & region & Hk & Hw0 & _ & _ & He1).
  assert (workers e1 = workers (with_link k w0 (call_register_local region) e)) as Hws by by subst.
  assert ((workers e1).*1 = (workers e).*1) as Hkeys by (rewrite Hws; apply with_link_keys).
  assert (workers e1 <> []) as Hw1.
  { intros E. rewrite E in Hkeys. by destruct (workers e). }
  assert (route e1 req = Ok k) as Hroute.
  { unfold route. rewrite Hreq. replace (mr_device_map e1 !! h) with (Some device)
      by (rewrite He1; simpl; by rewrite lookup_insert_eq).
    rewrite <- Hk. destruct device as [|id]; simpl.
    - unfold main_key. destruct (workers e1) as [|[]], (workers e) as [|[]]; simpl in *; congruence.
    - simpl in Hk. destruct (btree_get id (workers e)) eqn:E; simplify_eq.
      rewrite Hws. unfold with_link. cbn [workers set_workers]. rewrite btree_get_set by eauto. by rewrite Z.eqb_refl. }
  pose proof (fe_submit_transfer_run e1 tid req tx Hw1) as Hrun. rewrite Hroute in Hrun.
  destruct Hrun as (w & Hw' & Hrun). eexists k, w, _, _. split; [done|]. split; [done|].
  split; [exact Hrun|]. split; [by case_match|].
  intros k'. unfold with_link. cbn [workers set_workers]. by rewrite btree_get_set by eauto.
Qed.

(** ** Construction *)
Lemma collect_workers_spec (l ctx : list (Z * WorkerHandle W)) g d sp :
  StronglySorted Z.lt ctx.*1 ->
  let '(ctx', (g', d', sp')) := collect_workers l (ctx, (g, d, sp)) in
  StronglySorted Z.lt ctx'.*1 /\
  (forall k, k ∈ ctx'.*1 <-> k ∈ l.*1 \/ k ∈ ctx.*1) /\
  (NoDup l.*1 -> (forall k h, (k, h) ∈ l -> btree_get k ctx' = Some h) /\
                 (forall k, k ∉ l.*1 -> btree_get k ctx' = btree_get k ctx)) /\
  g' = g + Z.of_nat (length l) /\
  d' = d + sum_list_Z ((fun kh => Z.of_nat (length (wh_address_list kh.2))) <$> l).
Proof.
  revert ctx g d sp. induction l as [|[k h] l IH]; intros ctx g d sp Hs; cbn [collect_workers].
  { csimpl. rewrite !Z.add_0_r. set_solver. }
  specialize (IH (btree_insert k h ctx) (g + 1) (d + Z.of_nat (length (wh_address_list h)))
    (u64_add sp (wh_aggregated_link_speed h)) (btree_insert_sorted _ _ _ Hs)).
  destruct (collect_workers l _) as [ctx' [[g' d'] sp']].
  destruct IH as (Hs' & Hin & Hget & -> & ->). split; [done|]. split.
  { intros x. rewrite Hin, btree_insert_keys. csimpl. set_solver. }
  split; [|csimpl; lia]. csimpl. intros [Hk Hnd]%NoDup_cons. destruct (Hget Hnd) as [H1 H2]. split.
  - intros k' h' [[= -> ->]|Hin']%elem_of_cons; [|by apply H1].
    rewrite H2 by done. rewrite btree_get_insert. by rewrite Z.eqb_refl.
  - intros k' Hk'. rewrite H2 by set_solver. rewrite btree_get_insert.
    destruct (Z.eqb_spec k' k); [set_solver|done].
Qed.

Lemma try_map_keys {Y A B} (f : A -> M Y (res B)) (l : list (Z * A)) y r y' :
  try_map l (fun dw => let? w := f dw.2 in ret (Ok (dw.1, w))) y = Done (Ok r, y') -> r.*1 = l.*1.
Proof.
  revert y r. induction l as [|[d a] l IH]; intros y r Hrun; cbn [try_map] in Hrun.
  { cbv [ret] in Hrun. by simplify_eq. }
  run_inv Hrun; try discriminate. cbn in *. f_equal. by eapply IH.
Qed.

(** What [FabricEngine::new] builds.  For GPUs with distinct ids whose workers start, the
    contexts are in ascending order of the ids and hold the handle of every GPU, and the groups
    and domains are counted.  The engine's own address is that of the first GPU {e listed}, while
    the worker that serves sends, receives, immediates and barriers is that of the GPU with the
    smallest id: the two agree iff the first GPU listed has the smallest id. *)
Theorem engine_new_main_worker {Y Wk Iw} (spawn : Wk -> M Y (res Iw))
    (wait_init : Iw -> M Y (res (WorkerHandle W))) ws y (e : FabricEngine W) y' :
  NoDup ws.*1 ->
  fabric_engine_new spawn wait_init ws y = Done (Ok e, y') ->
  exists d0 h0 rest k, let inited := (d0, h0) :: rest in
    inited.*1 = ws.*1 /\ StronglySorted Z.lt (workers e).*1 /\
    (forall d h, (d, h) ∈ inited -> btree_get d (workers e) = Some h) /\
    head (wh_address_list h0) = Some (fe_main_address e) /\
    fe_num_groups e = Z.of_nat (length ws) /\
    fe_num_domains e = sum_list_Z ((fun kh => Z.of_nat (length (wh_address_list kh.2))) <$> inited) /\
    get_main_worker e = Done (Ok k, e) /\ k ∈ ws.*1 /\ (forall d, d ∈ ws.*1 -> k <= d) /\
    (k = d0 <-> forall d, d ∈ ws.*1 -> d0 <= d).
Proof.
  intros Hnd Hrun. unfold fabric_engine_new in Hrun. run_inv Hrun.
  apply try_map_keys in Hrun0, Hrun1. rewrite Hrun0 in Hrun1.
  pose proof (collect_workers_spec a0 [] 0 0 0 ltac:(constructor)) as Hc.
  destruct (collect_workers a0 _) as [ctx [[g d] sp]]. destruct Hc as (Hs & Hin & Hget & Hg & Hd).
  destruct a0 as [|[d0 h0] rest]; [done|]. cbv [unwrap ret head] in Hrun2. simplify_eq.
  cbn [snd] in Hrun3, Hrun. destruct (wh_address_list h0) as [|a0 l0] eqn:Ha; [done|].
  cbn in Hrun3. cbv [ret] in Hrun3. simplify_eq. rewrite Hrun1 in *.
  destruct (Hget Hnd) as [Hget1 _]. cbv [ret] in Hrun. simplify_eq.
  destruct ctx as [|[k h] ctx].
  { exfalso. assert (d0 ∈ ws.*1) as Hx by (rewrite <- Hrun1; set_solver).
    destruct (Hin d0) as [_ Hx']. specialize (Hx' (or_introl Hx)). set_solver. }
  exists d0, h0, rest, k. cbv zeta. cbn [workers fe_main_address fe_num_groups fe_num_domains].
  assert (forall d', d' ∈ ws.*1 -> k <= d') as Hmin.
  { intros d' Hd'. destruct (Hin d') as [_ Hx]. specialize (Hx (or_introl Hd')). csimpl in *.
    inversion Hs as [|? ? _ Hf]; subst. apply elem_of_cons in Hx as [->|Hx]; [lia|].
    eapply Forall_forall in Hf; [|exact Hx]. lia. }
  assert (k ∈ ws.*1) as Hk by (destruct (Hin k) as [Hx _]; destruct Hx; csimpl; set_solver).
  assert (d0 ∈ ws.*1) as Hd0 by (rewrite <- Hrun1; set_solver).
  assert (length ws = S (length rest)) as Hl.
  { rewrite <- (length_fmap fst ws), <- Hrun1. simpl. by rewrite length_fmap. }
  repeat split; try done.
  - rewrite Ha. done.
  - rewrite Hl. lia.
  - intros ->. done.
  - intros Hle. specialize (Hle k Hk). specialize (Hmin d0 Hd0). lia.
Qed.

(** [unregister_memory] reaches one worker only.  It always asks the worker with the smallest
    id; every other worker, and with it every region registered on another GPU, is left as it
    was, and the engine still routes transfers from the region. *)
Theorem unregister_reaches_main_worker_only ptr (e : FabricEngine W) k0 w0 rest :
  workers e = (k0, w0) :: rest ->
  exists r e', fe_unregister_memory ptr e = Done (r, e') /\
    mr_device_map e' = mr_device_map e /\
    (forall k, btree_get k (workers e') =
       if k =? k0 then Some (Build_WorkerHandle (wh_aggregated_link_speed w0) (wh_address_list w0)
                               (call_unregister ptr (wh_link w0)).2)
       else btree_get k (workers e)).
Proof.
  intros Hw. unfold fe_unregister_memory, bind_res, call_worker, bind.
  rewrite (get_main_worker_run e k0 w0 rest Hw).
  assert (btree_get k0 (workers e) = Some w0) as Hg by (rewrite Hw; apply btree_get_head).
  rewrite (on_worker_run k0 _ e w0 Hg).
  destruct (call_unregister ptr (wh_link w0)).1 as [[]|]; (eexists _, _; split; [done|]);
    (split; [done|]); intros k; cbn [workers set_workers]; by apply btree_get_set.
Qed.
End Workers.

(** ** A recording worker

    The smallest [WorkerLink]: it accepts everything while it is up and records what it is given.
    The witnesses run on it. *)
Record Stub := {
  st_up : bool;
  st_cmds : list WorkerCommand;
  st_regions : list Z;
  st_cq : list TransferCompletionEntry;
}.

Definition stub_regions (l : list Z) (w : Stub) : Stub :=
  {| st_up := st_up w; st_cmds := st_cmds w; st_regions := l; st_cq := st_cq w |}.

#[export] Instance stub_link : WorkerLink Stub := {|
  call_register_local := fun r w =>
    if st_up w then (Some (Ok (mr_ptr r)), stub_regions (mr_ptr r :: st_regions w) w) else (None, w);
  call_register_remote := fun r w =>
    if st_up w
    then (Some (Ok (mr_ptr r, {| mrd_ptr := mr_ptr r; addr_rkey_list := [] |})),
          stub_regions (mr_ptr r :: st_regions w) w)
    else (None, w);
  call_unregister := fun ptr w =>
    if st_up w then (Some tt, stub_regions (filter (fun p => p <> ptr) (st_regions w)) w) else (None, w);
  call_add_peer_group := fun _ w => (if st_up w then Some (Ok 0) else None, w);
  call_acquire := fun w => (if st_up w then Some (Some 4096) else None, w);
  call_release := fun _ w => (if st_up w then Some tt else None, w);
  cmd_send := fun c w =>
    if st_up w
    then (true, {| st_up := true; st_cmds := st_cmds w ++ [c]; st_regions := st_regions w; st_cq := st_cq w |})
    else (false, w);
  cq_try_recv := fun w =>
    match st_cq w with
    | [] => (None, w)
    | c :: cs => (Some c, {| st_up := st_up w; st_cmds := st_cmds w; st_regions := st_regions w; st_cq := cs |})
    end;
  set_worker_stop := fun w =>
    {| st_up := false; st_cmds := st_cmds w; st_regions := st_regions w; st_cq := st_cq w |};
  set_uvm_stop := fun w => w;
|}.

Definition stub : Stub := {| st_up := true; st_cmds := []; st_regions := []; st_cq := [] |}.
Definition stub_handle (a : Z) : WorkerHandle Stub :=
  {| wh_aggregated_link_speed := 100; wh_address_list := [{| addr_bytes := [a] |}]; wh_link := stub |}.

(** Two GPUs, 1 listed before 0. *)
Definition stub_engine : FabricEngine Stub :=
  Build_FabricEngine [(0, stub_handle 0); (1, stub_handle 1)] {| addr_bytes := [1] |} 2 2 200 1 false ∅ new_map.

Definition device_pointers (_ : Z) : res Z := Ok cudaMemoryTypeDevice.

Lemma engine_new_main_worker_witness :
  fabric_engine_new (Y := unit) (fun w => ret (Ok w)) (fun w => ret (Ok w))
    [(1, stub_handle 1); (0, stub_handle 0)] tt = Done (Ok stub_engine, tt) /\
  exists d0 h0 rest k, let inited := (d0, h0) :: rest in
    inited.*1 = [1; 0] /\ StronglySorted Z.lt (workers stub_engine).*1 /\
    (forall d h, (d, h) ∈ inited -> btree_get d (workers stub_engine) = Some h) /\
    head (wh_address_list h0) = Some (fe_main_address stub_engine) /\
    fe_num_groups stub_engine = 2 /\
    fe_num_domains stub_engine =
      sum_list_Z ((fun kh => Z.of_nat (length (wh_address_list kh.2))) <$> inited) /\
    get_main_worker stub_engine = Done (Ok k, stub_engine) /\ k ∈ [1; 0] /\
    (forall d, d ∈ [1; 0] -> k <= d) /\ (k = d0 <-> forall d, d ∈ [1; 0] -> d0 <= d).
Proof.
  split; [reflexivity|].
  apply (engine_new_main_worker (Y := unit) (fun w => ret (Ok w)) (fun w => ret (Ok w))
    [(1, stub_handle 1); (0, stub_handle 0)] tt stub_engine tt);
    [apply (bool_decide_unpack _); vm_compute; exact I|reflexivity].
Defined.

Definition stub_request (mr : Z) : TransferRequest :=
  ReqSingle {| sr_src_mr := mr; sr_src_offset := 0; sr_length := 8; sr_imm_data := None;
               sr_dst_mr := {| mrd_ptr := 0; addr_rkey_list := [] |}; sr_dst_offset := 0;
               sr_domain := Pinned 0 |}.

Lemma registered_region_routes_transfers_witness :
  exists e1, fe_register_memory_local device_pointers 64 8 (Cuda 1) stub_engine = Done (Ok 64, e1) /\
  exists k w r e2, device_key stub_engine (Cuda 1) = Ok k /\ btree_get k (workers e1) = Some w /\
    fe_submit_transfer 7 (stub_request 64) None e1 = Done (r, e2) /\
    let sent := cmd_send (SubmitTransfer 7 (stub_request 64) None) (wh_link w) in
    (r = Ok tt <-> sent.1 = true) /\
    forall k', btree_get k' (workers e2) =
      if k' =? k then Some (Build_WorkerHandle (wh_aggregated_link_speed w) (wh_address_list w) sent.2)
      else btree_get k' (workers e1).
Proof.
  eexists. split; [reflexivity|].
  eapply (registered_region_routes_transfers device_pointers 64 8 (Cuda 1) stub_engine);
    [discriminate|reflexivity|reflexivity].
Defined.

Lemma unregister_reaches_main_worker_only_witness :
  exists e1, fe_register_memory_local device_pointers 64 8 (Cuda 1) stub_engine = Done (Ok 64, e1) /\
  exists r e', fe_unregister_memory 64 e1 = Done (r, e') /\
    mr_device_map e' = mr_device_map e1 /\
    (forall k, btree_get k (workers e') =
       if k =? 0 then Some (Build_WorkerHandle (wh_aggregated_link_speed (stub_handle 0))
                              (wh_address_list (stub_handle 0)) (call_unregister 64 stub).2)
       else btree_get k (workers e1)).
Proof.
  eexists. split; [reflexivity|].
  eapply (unregister_reaches_main_worker_only 64 _ 0 (stub_handle 0)); reflexivity.
Defined.
