(* ===== verification/EngineSpec.v ===== *)
(** * Theorems on the transfer engine

    The callbacks of the transfer engine against an automaton per operation; what happens when a
    callback ends a count or a watcher; registration before submission. *)
From stdpp Require Import prelude gmap strings list.
From S2P Require Import Prelude Api ImmCount Sharding Provider DomainGroup Worker FabricEngine TransferEngine FabricSpec.
Local Open Scope Z_scope.

(** ** The engine state between two callbacks *)
Section Spec.
Context {W Cb : Type} `{WorkerLink W}.
Context (shard : Z -> nat).
Abbreviation TE := (TransferEngine W Cb).

Definition keys (s : TE) : list Z := (workers (te_engine s)).*1.

(** Guards and readers held by the callback thread. *)
Definition locks (s : TE) : list Z * list Z * list Z * list Z * list Z * nat :=
  let c := callbacks s in
  (dm_guards (cb_recv_ops c), dm_guards (cb_send_ops c), dm_guards (cb_transfer_ops c),
   dm_guards (cb_imm_count c), dm_guards (cb_watchers c), cb_imm_readers c).

Definition unlocked : list Z * list Z * list Z * list Z * list Z * nat := ([], [], [], [], [], 0%nat).

(** What the thread holds while it runs a callback. *)
Definition locks_of (i : Invocation Cb) : list Z * list Z * list Z * list Z * list Z * nat :=
  match i with
  | IRecv tid _ _ => ([tid], [], [], [], [], 0%nat)
  | ICount imm _ => ([], [], [], [imm], [], 0%nat)
  | IWatch id _ _ _ => ([], [], [], [], [id], 0%nat)
  | IImm _ _ => ([], [], [], [], [], 1%nat)
  | _ => unlocked
  end.

(** What is registered under an id. *)
Definition slot_t : Type :=
  option (TransferCallback Cb) * option Cb * option (RecvContext Cb).
Definition slot (s : TE) (id : Z) : slot_t :=
  (dm_map (cb_transfer_ops (callbacks s)) !! id, dm_map (cb_send_ops (callbacks s)) !! id,
   dm_map (cb_recv_ops (callbacks s)) !! id).

Definition about (id : Z) (i : Invocation Cb) : bool :=
  match i with
  | IDone t _ | IError t _ _ | ISend t _ _ | IRecv t _ _ => t =? id
  | _ => false
  end.

(** ** The automaton of one operation

    [op_step id o c]: the callbacks that completion [c] runs for the operation with this id, and
    what is registered afterwards. *)
Definition op_step (id : Z) (o : slot_t) (c : TransferCompletionEntry) :
    list (Invocation Cb) * slot_t :=
  let '(t, n, r) := o in
  match c with
  | TcTransfer tid =>
      if tid =? id then
        match t with Some h => ([IDone id (on_done h)], (None, n, r)) | None => ([], o) end
      else ([], o)
  | TcSend tid =>
      if tid =? id then
        match n with Some h => ([ISend id h (Ok tt)], (t, None, r)) | None => ([], o) end
      else ([], o)
  | TcRecv tid len =>
      if tid =? id then
        match r with Some h => ([IRecv id (rc_on_recv h) len], o) | None => ([], o) end
      else ([], o)
  | TcError tid e =>
      if tid =? id then
        match t, n, r with
        | Some h, _, _ => ([IError id (on_error h) e], (None, n, r))
        | None, Some h, _ => ([ISend id h (Err e)], (t, None, r))
        | None, None, Some h => ([IError id (rc_on_error h) e], (t, n, None))
        | None, None, None => ([], o)
        end
      else ([], o)
  | _ => ([], o)
  end.

Fixpoint op_run (id : Z) (o : slot_t) (cs : list TransferCompletionEntry) :
    list (Invocation Cb) * slot_t :=
  match cs with
  | [] => ([], o)
  | c :: cs =>
      let '(l, o1) := op_step id o c in
      let '(l', o2) := op_run id o1 cs in
      (l ++ l', o2)
  end.

(** [evolves f s s']: the trace was extended, ids were drawn, the workers are the same, and unless
    the id counter wrapped, every id drawn before [s] saw the callbacks and the change [f]. *)
Definition behaviour : Type := Z -> slot_t -> list (Invocation Cb) * slot_t.
Definition evolves (f : behaviour) (s s' : TE) : Prop :=
  exists k log, 0 <= k /\ next_transfer_id s' = wrapu 64 (next_transfer_id s + k) /\
    trace s' = trace s ++ log /\ keys s' = keys s /\
    (0 <= next_transfer_id s -> next_transfer_id s + k < 2 ^ 64 ->
     forall id, id < next_transfer_id s -> (filter (about id) log, slot s' id) = f id (slot s id)).

Definition stay : behaviour := fun _ o => ([], o).
Definition then_ (f g : behaviour) : behaviour := fun id o =>
  ((f id o).1 ++ (g id (f id o).2).1, (g id (f id o).2).2).

Lemma evolves_ext f g s s' :
  (forall id, f id (slot s id) = g id (slot s id)) -> evolves f s s' -> evolves g s s'.
Proof. intros Hfg (k & log & ? & ? & ? & ? & Hf). exists k, log. setoid_rewrite <- Hfg. done. Qed.

Lemma evolves_trans f g s s1 s2 :
  evolves f s s1 -> evolves g s1 s2 -> evolves (then_ f g) s s2.
Proof.
  intros (k1 & l1 & Hk1 & Hn1 & Ht1 & Hy1 & Hf) (k2 & l2 & Hk2 & Hn2 & Ht2 & Hy2 & Hg).
  exists (k1 + k2), (l1 ++ l2). split; [lia|]. split.
  { rewrite Hn2, Hn1. unfold wrapu. rewrite Zplus_mod_idemp_l. f_equal. lia. }
  split; [rewrite Ht2, Ht1; by rewrite app_assoc|]. split; [congruence|].
  intros Hs Hb id Hid. unfold wrapu in Hn1. rewrite Z.mod_small in Hn1 by lia.
  specialize (Hf Hs ltac:(lia) id Hid). specialize (Hg ltac:(lia) ltac:(lia) id ltac:(lia)).
  unfold then_. rewrite <- Hf. simpl. rewrite <- Hg. simpl. by rewrite filter_app.
Qed.

(** Changes outside the ids, the trace and the registered operations. *)
Lemma evolves_stay s s' :
  0 <= next_transfer_id s < 2 ^ 64 ->
  next_transfer_id s' = next_transfer_id s -> trace s' = trace s -> keys s' = keys s ->
  (forall id, slot s' id = slot s id) -> evolves stay s s'.
Proof.
  intros Hn Hn' Ht Hk Hs. exists 0, []. rewrite Hn', Ht, app_nil_r, Z.add_0_r.
  unfold wrapu. rewrite Z.mod_small by lia. do 4 (split; [done|]).
  intros _ _ id _. unfold stay. by rewrite Hs.
Qed.

Lemma evolves_range f s s' : evolves f s s' -> in_u 64 (next_transfer_id s').
Proof. intros (k & log & ? & -> & _). by apply wrapu_range. Qed.

(** One invocation is put on the trace. *)
Lemma evolves_trace i s :
  in_u 64 (next_transfer_id s) ->
  evolves (fun id o => (filter (about id) [i], o)) s (add_trace i s).
Proof.
  intros Hn. exists 0, [i]. rewrite Z.add_0_r, wrapu_small by done. do 4 (split; [done|]). done.
Qed.

(** ** What is asked of the callbacks

    A callback returns, releases what it locked, does not touch operations registered before it
    ran, and keeps the workers; it may submit operations and register callbacks. *)
Class HandlersOk `{Handlers W Cb} := {
  run_ok : forall i s, in_u 64 (next_transfer_id s) -> locks s = locks_of i -> keys s <> [] ->
    exists r s', run i s = Done (r, s') /\ locks s' = locks s /\ trace s' = trace s /\
      evolves stay s s';
}.

Section Callbacks.
Context `{HandlersOk}.

(** [runs m s f L]: from [s] the method returns, with the locks [L], and acts as [f]. *)
Definition runs {A} (m : M TE A) (s : TE) (P : A -> Prop) (f : behaviour) L : Prop :=
  exists a s', m s = Done (a, s') /\ P a /\ locks s' = L /\ evolves f s s'.

Definition ready (s : TE) L : Prop :=
  in_u 64 (next_transfer_id s) /\ locks s = L /\ keys s <> [].

Lemma evolves_ready f s s' L :
  evolves f s s' -> locks s' = L -> keys s <> [] -> ready s' L.
Proof.
  intros He HL Hk. split; [by eapply evolves_range|]. split; [done|].
  destruct He as (k & log & _ & _ & _ & -> & _). done.
Qed.

Lemma runs_bind {A B} (m : M TE A) (k : A -> M TE B) s P Q f g h L L1 L2 :
  ready s L -> runs m s P f L1 ->
  (forall a s', P a -> ready s' L1 -> runs (k a) s' Q g L2) ->
  (forall id, then_ f g id (slot s id) = h id (slot s id)) ->
  runs (bind m k) s Q h L2.
Proof.
  intros (Hn & HL & Hk) (a & s1 & Hm & HP & HL1 & He) Hk1 Hext.
  destruct (Hk1 a s1 HP) as (b & s2 & Hk2 & HQ & HL2 & He2); [by eapply evolves_ready|].
  exists b, s2. unfold bind. rewrite Hm. split; [done|]. split; [done|]. split; [done|].
  eapply evolves_ext; [apply Hext|]. by eapply evolves_trans.
Qed.

Lemma runs_seq {A B} (m : M TE A) (k : A -> M TE B) s P Q f g L L1 L2 :
  ready s L -> runs m s P f L1 ->
  (forall a s', P a -> ready s' L1 -> runs (k a) s' Q g L2) ->
  runs (bind m k) s Q (then_ f g) L2.
Proof. intros. by eapply runs_bind. Qed.

Lemma runs_ret {A} (a : A) s (P : A -> Prop) L : ready s L -> P a -> runs (ret a) s P stay L.
Proof.
  intros (Hn & HL & Hk) HP. exists a, s. do 3 (split; [done|]). by apply evolves_stay.
Qed.

Lemma runs_ext {A} (m : M TE A) s P f g L :
  runs m s P f L -> (forall id, f id (slot s id) = g id (slot s id)) -> runs m s P g L.
Proof.
  intros (a & s' & ? & ? & ? & ?) Hfg. exists a, s'. do 3 (split; [done|]). by eapply evolves_ext.
Qed.

Lemma runs_weaken {A} (m : M TE A) s (P Q : A -> Prop) f L :
  (forall a, P a -> Q a) -> runs m s P f L -> runs m s Q f L.
Proof. intros HPQ (a & s' & ? & ? & ? & ?). exists a, s'. auto. Qed.

(** A change of one field that leaves the ids, the trace and the registered operations. *)
Lemma runs_local {A} (m : M TE A) s a s' (P : A -> Prop) L L' :
  ready s L -> m s = Done (a, s') -> P a -> locks s' = L' ->
  next_transfer_id s' = next_transfer_id s -> trace s' = trace s -> keys s' = keys s ->
  (forall id, slot s' id = slot s id) -> runs m s P stay L'.
Proof.
  intros (Hn & HL & Hk) Hm HP HL' ? ? ? ?. exists a, s'. do 3 (split; [done|]). by apply evolves_stay.
Qed.

Lemma invoke_runs i s L :
  ready s L -> L = locks_of i ->
  runs (invoke i) s (fun _ => True) (fun id o => (filter (about id) [i], o)) L.
Proof.
  intros (Hn & HL & Hk) ->. destruct (run_ok i (add_trace i s)) as (r & s' & Hr & HL' & Ht & He);
    [done..|]. exists r, s'. unfold invoke, bind, modify. split; [done|]. split; [done|].
  split; [by rewrite HL'|].
  eapply evolves_ext; [|eapply evolves_trans; [by apply evolves_trace|exact He]].
  intros id. unfold then_, stay. simpl. by rewrite app_nil_r.
Qed.

Lemma invoke_unit_runs i s L :
  ready s L -> L = locks_of i ->
  runs (invoke_unit i) s (fun _ => True) (fun id o => (filter (about id) [i], o)) L.
Proof.
  intros Hs HL. eapply runs_bind; [done|by apply invoke_runs| |].
  - intros [b|e] s' _ Hs'; by eapply runs_ret.
  - intros id. unfold then_, stay. simpl. by rewrite app_nil_r.
Qed.

(** Removing an operation whose shard is not held. *)
Definition clear_t (tid : Z) : behaviour := fun id o =>
  ([], if id =? tid then (None, o.1.2, o.2) else o).
Definition clear_n (tid : Z) : behaviour := fun id o =>
  ([], if id =? tid then (o.1.1, None, o.2) else o).
Definition clear_r (tid : Z) : behaviour := fun id o =>
  ([], if id =? tid then (o.1.1, o.1.2, None) else o).

Lemma lookup_delete_if {A} (m : gmap Z A) k id :
  delete k m !! id = if id =? k then None else m !! id.
Proof.
  destruct (Z.eqb_spec id k) as [->|]; [apply lookup_delete_eq|by apply lookup_delete_ne].
Qed.

(** A method that draws no id and leaves the trace acts on the slots alone. *)
Lemma runs_slots {A} (m : M TE A) s a s' (P : A -> Prop) (f : Z -> slot_t -> slot_t) L L' :
  ready s L -> m s = Done (a, s') -> P a -> locks s' = L' ->
  next_transfer_id s' = next_transfer_id s -> trace s' = trace s -> keys s' = keys s ->
  (forall id, slot s' id = f id (slot s id)) -> runs m s P (fun id o => ([], f id o)) L'.
Proof.
  intros (Hn & HL & Hk) Hm HP HL' Hn' Ht Hk' Hf. exists a, s'. do 3 (split; [done|]).
  exists 0, []. rewrite Hn', Ht, app_nil_r, Z.add_0_r, wrapu_small by done.
  do 4 (split; [done|]). intros _ _ id _. by rewrite Hf.
Qed.

(** [ready s L]: the guards of each map, as rewriting equations. *)
Ltac unlocks Hs :=
  let HL := fresh "HL" in
  pose proof (proj1 (proj2 Hs)) as HL; unfold locks, unlocked, locks_of in HL;
  injection HL; clear HL; intros.
Ltac use_guards := repeat match goal with H : dm_guards _ = _ |- _ => rewrite H end.

(** A primitive of one map: run it, and read off the new state. *)
Ltac map_runs Hs :=
  unlocks Hs; eapply (runs_slots _ _ _ _ _ _ _ _ Hs);
  [ unfold on_transfer_ops, on_send_ops, on_recv_ops, on_imm_count, on_state, dm_remove, dm_held;
    use_guards; reflexivity
  | done
  | unfold locks; simpl; unfold unlocked; congruence
  | done | done | done
  | intros id; unfold slot; simpl; rewrite ?lookup_delete_if; by repeat case_match ].

Lemma remove_t_runs s tid :
  ready s unlocked ->
  runs (on_transfer_ops (dm_remove shard tid)) s (eq (slot s tid).1.1) (clear_t tid) unlocked.
Proof. intros Hs. map_runs Hs. Qed.

Lemma remove_n_runs s tid :
  ready s unlocked ->
  runs (on_send_ops (dm_remove shard tid)) s (eq (slot s tid).1.2) (clear_n tid) unlocked.
Proof. intros Hs. map_runs Hs. Qed.

Lemma remove_r_runs s tid :
  ready s unlocked ->
  runs (on_recv_ops (dm_remove shard tid)) s (eq (slot s tid).2) (clear_r tid) unlocked.
Proof. intros Hs. map_runs Hs. Qed.

Lemma remove_c_runs s imm :
  ready s unlocked ->
  runs (on_imm_count (dm_remove shard imm)) s (eq (dm_map (cb_imm_count (callbacks s)) !! imm))
    stay unlocked.
Proof. intros Hs. change stay with (fun (_ : Z) (o : slot_t) => (@nil (Invocation Cb), (fun _ o => o) 0 o)). map_runs Hs. Qed.

(** Taking and dropping a guard. *)
Definition held_r (tid : Z) : list Z * list Z * list Z * list Z * list Z * nat :=
  ([tid], [], [], [], [], 0%nat).
Definition held_c (imm : Z) : list Z * list Z * list Z * list Z * list Z * nat :=
  ([], [], [], [imm], [], 0%nat).
Definition reading : list Z * list Z * list Z * list Z * list Z * nat := ([], [], [], [], [], 1%nat).

Ltac local_runs Hs :=
  unlocks Hs; eapply (runs_local _ _ _ _ _ _ _ Hs);
  [ reflexivity | done
  | unfold locks; simpl; try match goal with H : cb_imm_readers _ = _ |- _ => rewrite H end;
    simpl; unfold unlocked, held_r, held_c, reading; congruence
  | done | done | done | done ].

Lemma drop_r_runs s tid :
  ready s (held_r tid) -> runs (on_recv_ops dm_drop) s (fun _ => True) stay unlocked.
Proof.
  intros Hs. unlocks Hs. eapply (runs_local _ _ _ _ _ _ _ Hs); [reflexivity|done| |done..].
  unfold locks; simpl. use_guards. simpl. unfold unlocked. congruence.
Qed.

Lemma drop_c_runs s imm :
  ready s (held_c imm) -> runs (on_imm_count dm_drop) s (fun _ => True) stay unlocked.
Proof.
  intros Hs. unlocks Hs. eapply (runs_local _ _ _ _ _ _ _ Hs); [reflexivity|done| |done..].
  unfold locks; simpl. use_guards. simpl. unfold unlocked. congruence.
Qed.

Lemma get_r_runs s tid :
  ready s unlocked ->
  runs (on_recv_ops (dm_get tid)) s (eq (slot s tid).2) stay
    (match (slot s tid).2 with Some _ => held_r tid | None => unlocked end).
Proof.
  intros Hs. unlocks Hs. eapply (runs_local _ _ _ _ _ _ _ Hs).
  - unfold on_recv_ops, on_state, dm_get. instantiate (1 := set_callbacks (set_recv_ops
      (Build_DashMap (dm_map (cb_recv_ops (callbacks s)))
         (match (slot s tid).2 with Some _ => [tid] | None => [] end)) (callbacks s)) s).
    instantiate (1 := (slot s tid).2). unfold slot; simpl.
    destruct (dm_map (cb_recv_ops (callbacks s)) !! tid) eqn:E; simpl; rewrite ?E; use_guards; [done|].
    by destruct s as [? ? [? ? [] ? ? ? ?] ? ?]; simpl in *; subst.
  - done.
  - unfold locks; simpl. destruct (dm_map _ !! tid); unfold held_r, unlocked; congruence.
  - done.
  - done.
  - done.
  - done.
Qed.

Lemma on_engine_runs {A} (m : M (FabricEngine W) A) s (P : A -> Prop) L a e' :
  ready s L -> m (te_engine s) = Done (a, e') -> P a -> (workers e').*1 = keys s ->
  runs (on_engine m) s P stay L.
Proof.
  intros Hs Hm HP Hk. eapply (runs_local _ _ a (set_engine e' s) _ _ _ Hs);
    [|done|apply Hs|done|done|done|done].
  unfold on_engine, on_state. by rewrite Hm.
Qed.

Lemma runs_bind_stay {A B} (m : M TE A) (k : A -> M TE B) s P Q g L L1 L2 :
  ready s L -> runs m s P stay L1 ->
  (forall a s', P a -> ready s' L1 -> runs (k a) s' Q g L2) ->
  runs (bind m k) s Q g L2.
Proof.
  intros Hs Hm Hk. eapply runs_bind; [done..|]. intros id. unfold then_, stay. simpl.
  by destruct (g id _).
Qed.

Lemma try_runs {A} (l : list A) (body : A -> M TE CallbackResult) s L :
  (forall x s, ready s L -> runs (body x) s (fun _ => True) stay L) ->
  ready s L -> runs (try_for_each l body) s (fun _ => True) stay L.
Proof.
  intros Hb. revert s. induction l as [|x l IH]; intros s Hs; [by apply runs_ret|].
  cbn [try_for_each]. eapply runs_bind_stay; [done|by apply Hb|].
  intros [[]|e] s' _ Hs'; [by apply IH|by apply runs_ret].
Qed.

Lemma run_imm_callbacks_runs s imm :
  ready s unlocked -> runs (run_imm_callbacks imm) s (fun _ => True) stay unlocked.
Proof.
  intros Hs. unfold run_imm_callbacks.
  apply (runs_bind_stay _ _ _ (fun _ => True) _ _ unlocked unlocked); [done|by local_runs Hs|].
  intros cbs s1 _ Hs1.
  apply (runs_bind_stay _ _ _ (fun _ => True) _ _ unlocked reading); [done|by local_runs Hs1|].
  intros [] s2 _ Hs2.
  eapply runs_bind_stay; [done| |].
  { apply try_runs; [|done]. intros cb s3 Hs3. by apply invoke_unit_runs. }
  intros r s3 _ Hs3.
  apply (runs_bind_stay _ _ _ (fun _ => True) _ _ reading unlocked); [done|by local_runs Hs3|].
  intros [] s4 _ Hs4. by apply runs_ret.
Qed.

Lemma filter_about id (i : Invocation Cb) :
  filter (fun i => about id i) [i] = if about id i then [i] else [].
Proof. rewrite filter_cons. by destruct (about id i). Qed.

(** The entry looked up is the one of the operation itself. *)
Ltac op_cases id tid :=
  unfold then_, stay, clear_t, clear_n, clear_r, op_step, slot in *; rewrite ?filter_about; simpl in *;
  rewrite ?(Z.eqb_sym id tid); destruct (Z.eqb_spec tid id) as [->|]; simpl in *;
  repeat match goal with H : _ !! _ = _ |- _ => rewrite H end; try done.

Lemma handle_transfer_runs s tid :
  ready s unlocked ->
  runs (handle_transfer shard tid) s (fun _ => True)
    (fun id o => op_step id o (TcTransfer tid)) unlocked.
Proof.
  intros Hs. unfold handle_transfer. destruct (slot s tid).1.1 as [h|] eqn:E.
  - eapply runs_bind; [done|by apply remove_t_runs| |].
    + intros o s1 <- Hs1. rewrite E. by apply invoke_unit_runs.
    + intros id. op_cases id tid.
  - eapply runs_bind; [done|by apply remove_t_runs| |].
    + intros o s1 <- Hs1. rewrite E. by apply runs_ret.
    + intros id. op_cases id tid.
Qed.

Lemma handle_send_runs s tid :
  ready s unlocked ->
  runs (handle_send shard tid) s (fun _ => True) (fun id o => op_step id o (TcSend tid)) unlocked.
Proof.
  intros Hs. unfold handle_send. destruct (slot s tid).1.2 as [h|] eqn:E.
  - eapply runs_bind; [done|by apply remove_n_runs| |].
    + intros o s1 <- Hs1. rewrite E. by apply invoke_unit_runs.
    + intros id. op_cases id tid.
  - eapply runs_bind; [done|by apply remove_n_runs| |].
    + intros o s1 <- Hs1. rewrite E. by apply runs_ret.
    + intros id. op_cases id tid.
Qed.

Lemma ready_workers s L : ready s L -> exists k h rest, workers (te_engine s) = (k, h) :: rest.
Proof.
  intros (_ & _ & Hk). unfold keys in Hk. destruct (workers (te_engine s)) as [|[k h] rest]; [done|].
  eauto.
Qed.

Lemma submit_recv_runs s L tid mr ptr len :
  ready s L -> runs (on_engine (fe_submit_recv tid mr ptr len)) s (fun _ => True) stay L.
Proof.
  intros Hs. destruct (ready_workers s L Hs) as (k & h & rest & Hw).
  eapply on_engine_runs; [done|by eapply fe_submit_recv_run|done|]. apply btree_set_keys.
Qed.

Lemma handle_recv_runs s tid len :
  ready s unlocked ->
  runs (handle_recv tid len) s (fun _ => True) (fun id o => op_step id o (TcRecv tid len)) unlocked.
Proof.
  intros Hs. unfold handle_recv. pose proof (get_r_runs s tid Hs) as Hg.
  destruct (slot s tid).2 as [h|] eqn:E.
  - eapply runs_bind; [done|exact Hg| |].
    + intros o s1 <- Hs1. cbv beta iota.
      eapply (runs_seq _ _ _ (fun _ => True) _ _ _ _ (held_r tid)); [done| |].
      * eapply runs_seq; [done|by apply (invoke_unit_runs _ _ (held_r tid))|].
        intros [[]|e] s2 _ Hs2; [|by apply runs_ret].
        eapply runs_bind_stay; [done|by eapply submit_recv_runs|].
        intros r s3 _ Hs3. by apply runs_ret.
      * intros r s2 _ Hs2. eapply runs_bind_stay; [done|by eapply drop_r_runs|].
        intros [] s3 _ Hs3. by apply runs_ret.
    + intros id. op_cases id tid.
  - eapply runs_bind; [done|exact Hg| |].
    + intros o s1 <- Hs1. by apply runs_ret.
    + intros id. op_cases id tid.
Qed.

(** Removing what is not there changes nothing. *)
Ltac remove_none Hs E :=
  unlocks Hs; unfold slot in E; simpl in E;
  unfold on_transfer_ops, on_send_ops, on_recv_ops, on_state, dm_remove, dm_held; use_guards; simpl;
  rewrite E, delete_id by done;
  match goal with s : TransferEngine _ _ |- _ => destruct s as [? ? [? ? [] [] [] ? ?] ? ?] end;
  simpl in *; by subst.

Lemma remove_t_none s tid :
  ready s unlocked -> (slot s tid).1.1 = None ->
  on_transfer_ops (dm_remove shard tid) s = Done (None, s).
Proof. intros Hs E. remove_none Hs E. Qed.

Lemma remove_n_none s tid :
  ready s unlocked -> (slot s tid).1.2 = None ->
  on_send_ops (dm_remove shard tid) s = Done (None, s).
Proof. intros Hs E. remove_none Hs E. Qed.

Lemma remove_r_none s tid :
  ready s unlocked -> (slot s tid).2 = None ->
  on_recv_ops (dm_remove shard tid) s = Done (None, s).
Proof. intros Hs E. remove_none Hs E. Qed.

Lemma runs_after {A B} (m : M TE A) (k : A -> M TE B) s a Q f L :
  m s = Done (a, s) -> runs (k a) s Q f L -> runs (bind m k) s Q f L.
Proof. unfold runs, bind. by intros ->. Qed.

Lemma invoke_ignore_runs i s :
  ready s unlocked -> unlocked = locks_of i ->
  runs (invoke i ;;; ret (@Ok string _ tt)) s (fun _ => True)
    (then_ (fun id o => (filter (fun i => about id i) [i], o)) stay) unlocked.
Proof.
  intros Hs Hi. eapply runs_seq; [done|by apply invoke_runs|]. intros r s' _ Hs'. by apply runs_ret.
Qed.

Lemma handle_error_runs s tid e :
  ready s unlocked ->
  runs (handle_error shard tid e) s (fun _ => True) (fun id o => op_step id o (TcError tid e)) unlocked.
Proof.
  intros Hs. unfold handle_error. destruct (slot s tid).1.1 as [h|] eqn:Et.
  { eapply runs_bind; [done|by apply remove_t_runs| |].
    - intros o s1 <- Hs1. rewrite Et. by apply invoke_ignore_runs.
    - intros id. op_cases id tid. }
  eapply runs_after; [by apply remove_t_none|]. destruct (slot s tid).1.2 as [h|] eqn:En.
  { eapply runs_bind; [done|by apply remove_n_runs| |].
    - intros o s1 <- Hs1. rewrite En. by apply invoke_ignore_runs.
    - intros id. op_cases id tid. }
  eapply runs_after; [by apply remove_n_none|]. destruct (slot s tid).2 as [h|] eqn:Er.
  { eapply runs_bind; [done|by apply remove_r_runs| |].
    - intros o s1 <- Hs1. rewrite Er. by apply invoke_ignore_runs.
    - intros id. op_cases id tid. }
  eapply runs_after; [by apply remove_r_none|].
  apply (runs_ext _ _ _ stay); [by apply runs_ret|]. intros id. op_cases id tid.
Qed.

Lemma get_c_runs s imm v :
  ready s unlocked -> dm_map (cb_imm_count (callbacks s)) !! imm = Some v ->
  runs (on_imm_count (dm_get imm)) s (eq (Some v)) stay (held_c imm) /\
  (exists s1, on_imm_count (dm_get imm) s = Done (Some v, s1) /\
     on_imm_count dm_drop s1 = Done (tt, s)).
Proof.
  intros Hs E. unlocks Hs.
  assert (on_imm_count (dm_get imm) s = Done (Some v, set_callbacks (set_imm_count
            (Build_DashMap (dm_map (cb_imm_count (callbacks s))) [imm]) (callbacks s)) s)) as Hg.
  { unfold on_imm_count, on_state, dm_get. rewrite E. use_guards. done. }
  split.
  - eapply (runs_local _ _ _ _ _ _ _ Hs); [exact Hg|done| |done..].
    unfold locks; simpl. unfold held_c. congruence.
  - eexists. split; [exact Hg|]. unfold on_imm_count, on_state, dm_drop, modify. simpl.
    destruct s as [? ? [? ? ? ? ? [] ?] ? ?]; simpl in *; by subst.
Qed.

Lemma remove_count_runs s imm :
  ready s unlocked ->
  runs (on_engine (fe_remove_imm_count imm)) s (fun _ => True) stay unlocked.
Proof. intros Hs. by eapply on_engine_runs. Qed.

Lemma consume_runs s c :
  ready s unlocked ->
  runs (on_engine (on_imm_map (on_heap (consume c)))) s (fun _ => True) stay unlocked.
Proof.
  intros Hs. unfold consume. destruct c; (eapply on_engine_runs; [exact Hs|reflexivity|done|done]).
Qed.

Lemma finish_imm_count_runs s imm :
  ready s unlocked -> runs (finish_imm_count shard imm) s (fun _ => True) stay unlocked.
Proof.
  intros Hs. unfold finish_imm_count. eapply runs_bind_stay; [done|by apply remove_c_runs|].
  intros c1 s1 _ Hs1. eapply runs_bind_stay; [done|by apply remove_count_runs|].
  intros [c|] s2 _ Hs2; [|by apply runs_ret].
  eapply runs_bind_stay; [done|by apply consume_runs|]. intros n s3 _ Hs3.
  case_match; [|by apply runs_ret].
  apply try_runs; [|done]. intros ? ? ?. by apply run_imm_callbacks_runs.
Qed.

Lemma handle_imm_count_reached_runs s imm :
  ready s unlocked -> runs (handle_imm_count_reached shard imm) s (fun _ => True) stay unlocked.
Proof.
  intros Hs. unfold handle_imm_count_reached.
  destruct (dm_map (cb_imm_count (callbacks s)) !! imm) as [v|] eqn:E.
  2: { apply (runs_after _ _ _ None); [|by apply runs_ret]. unfold on_imm_count, on_state, dm_get. rewrite E.
       by destruct s as [? ? [] ? ?]. }
  destruct (get_c_runs s imm v Hs E) as [Hg (s1 & Hg1 & Hd)]. destruct v as [cb|cb].
  - unfold runs, bind at 1 2. rewrite Hg1, Hd. fold (@bind TE).
    eapply runs_bind_stay; [done|by apply remove_c_runs|]. intros o s2 <- Hs2. rewrite E.
    eapply runs_after; [done|].
    eapply runs_ext; [by apply invoke_ignore_runs|]. done.
  - eapply runs_bind_stay; [done|exact Hg|]. intros o s2 <- Hs2.
    eapply runs_bind; [done|by apply (invoke_runs _ _ (held_c imm))| |].
    + intros r s3 _ Hs3. eapply runs_bind_stay; [done|by eapply drop_c_runs|].
      intros [] s4 _ Hs4. destruct r as [[]|]; [by apply runs_ret|by apply finish_imm_count_runs..].
    + done.
Qed.

(** ** Completions run the callbacks of their operation *)
Definition not_watch (c : TransferCompletionEntry) : Prop :=
  match c with TcUvmWatch _ _ _ => False | _ => True end.

Lemma handle_runs s c :
  ready s unlocked -> not_watch c ->
  runs (handle_transfer_completion shard c) s (fun _ => True) (fun id o => op_step id o c) unlocked.
Proof.
  intros Hs Hc. destruct c as [tid len|tid|tid|imm|imm|? ? ?|tid e]; try done.
  - by apply handle_recv_runs.
  - by apply handle_send_runs.
  - by apply handle_transfer_runs.
  - eapply runs_ext; [by apply run_imm_callbacks_runs|]. intros id. by destruct (slot s id) as [[] ?].
  - eapply runs_ext; [by apply handle_imm_count_reached_runs|]. intros id. by destruct (slot s id) as [[] ?].
  - by apply handle_error_runs.
Qed.

Lemma op_run_cons id o c cs :
  op_run id o (c :: cs) = then_ (fun id o => op_step id o c) (fun id o => op_run id o cs) id o.
Proof.
  unfold then_. cbn [op_run]. destruct (op_step id o c) as [l o1]. simpl.
  by destruct (op_run id o1 cs).
Qed.

Lemma callbacks_refine comps s :
  in_u 64 (next_transfer_id s) -> locks s = unlocked -> keys s <> [] -> Forall not_watch comps ->
  exists n r s' k log,
    try_for_each comps (handle_transfer_completion shard) s = Done (r, s') /\
    (n <= length comps)%nat /\ (r = Ok tt -> n = length comps) /\
    locks s' = unlocked /\ keys s' = keys s /\
    trace s' = trace s ++ log /\ next_transfer_id s' = wrapu 64 (next_transfer_id s + k) /\ 0 <= k /\
    (next_transfer_id s + k < 2 ^ 64 -> forall id, id < next_transfer_id s ->
       (filter (fun i => about id i) log, slot s' id) = op_run id (slot s id) (take n comps)).
Proof.
  intros Hn HL Hk. revert s Hn HL Hk. induction comps as [|c comps IH]; intros s Hn HL Hk Hw.
  { exists 0%nat, (Ok tt), s, 0, []. rewrite app_nil_r, Z.add_0_r, wrapu_small by done. done. }
  inversion Hw as [|? ? Hc Hw']; subst. cbn [try_for_each].
  destruct (handle_runs s c) as (r1 & s1 & Hr1 & _ & HL1 & He); [done|done|].
  pose proof (evolves_range _ _ _ He) as Hn1.
  destruct He as (k1 & l1 & Hk1 & Hnx1 & Ht1 & Hky1 & Hf1).
  unfold bind_res, bind at 1. rewrite Hr1. destruct r1 as [[]|e].
  - destruct (IH s1) as (n & r & s' & k & log & Hrun & Hnle & Hr & HL' & Hky & Ht & Hnx & Hk0 & Hf);
      [done|done|congruence|done|].
    exists (S n), r, s', (k1 + k), (l1 ++ log). split; [done|]. split; [simpl; lia|].
    split; [intros Hr'; simpl; f_equal; auto|]. split; [done|]. split; [congruence|].
    split; [rewrite Ht, Ht1; by rewrite app_assoc|].
    split; [rewrite Hnx, Hnx1; unfold wrapu; rewrite Zplus_mod_idemp_l; f_equal; lia|].
    split; [lia|]. intros Hb id Hid. cbn [take]. rewrite op_run_cons. unfold then_.
    destruct Hn as [Hn0 Hn2]. unfold wrapu in Hnx1. rewrite Z.mod_small in Hnx1 by lia.
    specialize (Hf1 ltac:(lia) ltac:(lia) id Hid). rewrite <- Hf1. simpl.
    specialize (Hf ltac:(lia) id ltac:(lia)). rewrite <- Hf. simpl. by rewrite filter_app.
  - exists 1%nat, (Err e), s1, k1, l1. split; [done|]. split; [simpl; lia|]. do 3 (split; [done|]).
    do 3 (split; [done|]). intros Hb id Hid. cbn [take]. rewrite op_run_cons. unfold then_.
    destruct Hn. rewrite <- Hf1 by (try lia; done). simpl. by rewrite app_nil_r.
Qed.

(** ** The callback thread

    [watchers_continue]: the callbacks of watched words ask to go on. *)
Definition watchers_continue : Prop :=
  forall id cb old new_ s1 r s2, run (IWatch id cb old new_) s1 = Done (r, s2) -> r = Ok true.

Lemma handle_watch_runs s id old new_ :
  ready s unlocked -> watchers_continue ->
  runs (handle_uvm_watch shard id old new_) s (fun _ => True) stay unlocked.
Proof.
  intros Hs Hgo. unfold handle_uvm_watch. unlocks Hs.
  destruct (dm_map (cb_watchers (callbacks s)) !! id) as [cb|] eqn:Hid.
  2: { apply (runs_after _ _ _ None); [|by apply runs_ret]. unfold on_watchers, on_state, dm_get. rewrite Hid.
       by destruct s as [? ? [] ? ?]. }
  set (L := locks_of (IWatch id cb old new_)).
  eapply (runs_bind_stay _ _ _ (eq (Some cb)) _ _ _ L); [done| |].
  { eapply (runs_local _ _ _ _ _ _ _ Hs); [unfold on_watchers, on_state, dm_get; rewrite Hid; reflexivity|done| |done..].
    unfold L, locks; simpl. unfold locks_of. use_guards. congruence. }
  intros o s1 <- Hs1. eapply (runs_bind _ _ _ (eq (Ok true)) _ _ stay _ _ L); [done| | |].
  - destruct (invoke_runs (IWatch id cb old new_) s1 L Hs1 eq_refl) as (r & s2 & Hr & _ & HL2 & He).
    exists r, s2. split; [done|]. split; [|done]. unfold invoke, bind, modify in Hr. symmetry. by eapply Hgo.
  - intros r s2 <- Hs2. eapply runs_after; [reflexivity|].
    apply (runs_bind_stay _ _ _ (fun _ => True) _ _ L unlocked); [done| |intros [] s3 _ Hs3; by apply runs_ret].
    clear dependent s. unlocks Hs2. eapply (runs_local _ _ _ _ _ _ _ Hs2); [reflexivity|done| |done..].
    unfold locks; simpl. use_guards. simpl. unfold unlocked. congruence.
  - done.
Qed.

Lemma handle_any_runs s c :
  ready s unlocked -> watchers_continue ->
  runs (handle_transfer_completion shard c) s (fun _ => True) (fun id o => op_step id o c) unlocked.
Proof.
  intros Hs Hgo. destruct c as [| | | | |id old new_|]; try by apply handle_runs.
  eapply runs_ext; [by apply handle_watch_runs|]. intros id'. by destruct (slot s id') as [[] ?].
Qed.

(** What the other threads do between two turns: they may draw ids and register operations under
    them, post work and stop the engine, but they run no callback, leave the operations registered
    before alone, and hold no lock when the turn begins. *)
Definition other_threads (act : TE -> TE) : Prop :=
  forall s, ready s unlocked -> locks (act s) = unlocked /\ evolves stay s (act s).

Lemma poll_workers_fst (l : list (Z * WorkerHandle W)) : (poll_workers l).2.*1 = l.*1.
Proof.
  induction l as [|[k w] l IH]; [done|]. cbn [poll_workers]. 
  repeat case_match; simplify_eq/=; f_equal; done.
Qed.

Lemma poll_runs s :
  ready s unlocked ->
  runs (on_engine fe_poll_transfer_completion) s (fun _ => True) stay unlocked.
Proof.
  intros Hs. destruct (poll_workers (workers (te_engine s))) as [c l] eqn:E.
  eapply (runs_local _ _ c _ _ _ _ Hs);
    [unfold on_engine, on_state, fe_poll_transfer_completion; rewrite E; reflexivity|done|apply Hs|done|done| |done].
  unfold keys. cbn. pose proof (poll_workers_fst (workers (te_engine s))) as Hl. by rewrite E in Hl.
Qed.

(** The completions that a run of the thread takes from the workers, in order. *)
Fixpoint polled (env : list (TE -> TE)) (s : TE) : list TransferCompletionEntry :=
  match env with
  | [] => []
  | act :: env =>
      if fe_is_stopped (te_engine (act s)) then []
      else
        match on_engine fe_poll_transfer_completion (act s) with
        | Done (None, s1) => polled env s1
        | Done (Some c, s1) =>
            c :: match handle_transfer_completion shard c s1 with
                 | Done (Ok _, s2) => polled env s2
                 | _ => []
                 end
        | _ => []
        end
  end.

Lemma stop_runs s : ready s unlocked ->
  exists s', (on_engine fe_stop ;;; ret true) s = Done (true, s') /\ locks s' = unlocked /\ evolves stay s s' /\
    fe_is_stopped (te_engine s') = true.
Proof.
  intros (Hn & HL & Hk). eexists. split; [reflexivity|]. split; [exact HL|]. split; [|done].
  apply evolves_stay; [done..| |done]. unfold keys. cbn. rewrite <- list_fmap_compose.
  by apply list_fmap_ext; intros ? [].
Qed.

Lemma thread_refines env s :
  ready s unlocked -> Forall other_threads env -> watchers_continue ->
  exists b s', callback_worker_thread shard env s = Done (b, s') /\ locks s' = unlocked /\
    evolves (fun id o => op_run id o (polled env s)) s s' /\
    (b = true -> fe_is_stopped (te_engine s') = true).
Proof.
  intros Hs Henv Hgo. revert s Hs. induction env as [|act env IH]; intros s Hs.
  { exists false, s. split; [done|]. split; [apply Hs|]. split; [|done]. by apply evolves_stay; [apply Hs|..]. }
  apply Forall_cons_1 in Henv as [Hact Henv]. destruct (Hact s Hs) as [HL0 He0].
  assert (ready (act s) unlocked) as Hs0 by (eapply evolves_ready; [done|done|apply Hs]).
  cbn [callback_worker_thread polled]. unfold bind at 1, modify at 1. unfold bind at 1, gets at 1.
  destruct (fe_is_stopped (te_engine (act s))) eqn:Hstop.
  { exists true, (act s). by split. }
  destruct (poll_runs (act s) Hs0) as (c & s1 & Hp & _ & HL1 & He1).
  assert (ready s1 unlocked) as Hs1 by (eapply evolves_ready; [done|done|apply Hs0]).
  unfold bind at 1. rewrite Hp. destruct c as [c|].
  2: { destruct (IH Henv s1 Hs1) as (b & s' & Hrun & HL' & He' & Hb). exists b, s'. do 2 (split; [done|]). split; [|done].
       eapply evolves_ext; [|eapply evolves_trans; [exact He0|eapply evolves_trans; [exact He1|exact He']]].
       intros id. by unfold then_, stay; simpl; destruct (op_run _ _ _). }
  destruct (handle_any_runs s1 c Hs1 Hgo) as (r & s2 & Hh & _ & HL2 & He2).
  assert (ready s2 unlocked) as Hs2 by (eapply evolves_ready; [done|done|apply Hs1]).
  unfold bind at 1. rewrite Hh. destruct r as [[]|e].
  - destruct (IH Henv s2 Hs2) as (b & s' & Hrun & HL' & He' & Hb). exists b, s'. do 2 (split; [done|]). split; [|done].
    eapply evolves_ext; [|eapply evolves_trans; [exact He0|eapply evolves_trans; [exact He1|
      eapply evolves_trans; [exact He2|exact He']]]].
    intros id. rewrite op_run_cons. unfold then_, stay. done.
  - destruct (stop_runs s2 Hs2) as (s' & Hrun & HL' & He' & Hst). exists true, s'. do 2 (split; [done|]). split; [|done].
    eapply evolves_ext; [|eapply evolves_trans; [exact He0|eapply evolves_trans; [exact He1|
      eapply evolves_trans; [exact He2|exact He']]]].
    intros id. rewrite op_run_cons. unfold then_, stay. simpl. by rewrite app_nil_r.
Qed.


(** The first completion that ends transfer [id]: [Some None] a success, [Some (Some e)] an
    error. *)
Fixpoint first_end (id : Z) (cs : list TransferCompletionEntry) : option (option FabricLibError) :=
  match cs with
  | [] => None
  | TcTransfer tid :: cs => if tid =? id then Some None else first_end id cs
  | TcError tid e :: cs => if tid =? id then Some (Some e) else first_end id cs
  | _ :: cs => first_end id cs
  end.

Definition end_call (id : Z) (h : TransferCallback Cb) (r : option FabricLibError) : Invocation Cb :=
  match r with None => IDone id (on_done h) | Some e => IError id (on_error h) e end.

Lemma op_run_nothing id cs : op_run id (None, None, None) cs = ([], (None, None, None)).
Proof.
  induction cs as [|c cs IH]; [done|]. cbn [op_run].
  assert (op_step id (None, None, None) c = ([], (None, None, None))) as ->
    by (destruct c; simpl; by repeat case_match).
  by rewrite IH.
Qed.

Lemma op_run_transfer id h cs :
  op_run id (Some h, None, None) cs =
  match first_end id cs with
  | None => ([], (Some h, None, None))
  | Some r => ([end_call id h r], (None, None, None))
  end.
Proof.
  induction cs as [|c cs IH]; [done|].
  destruct c as [tid len|tid|tid|imm|imm|? ? ?|tid e]; cbn [op_run op_step first_end];
    try (destruct (tid =? id)); rewrite ?op_run_nothing, ?IH; try done; by destruct (first_end id cs) as [[]|].
Qed.

(** The same for a send. *)
Fixpoint first_send_end (id : Z) (cs : list TransferCompletionEntry) : option (option FabricLibError) :=
  match cs with
  | [] => None
  | TcSend tid :: cs => if tid =? id then Some None else first_send_end id cs
  | TcError tid e :: cs => if tid =? id then Some (Some e) else first_send_end id cs
  | _ :: cs => first_send_end id cs
  end.

Definition send_outcome (r : option FabricLibError) : res unit :=
  match r with None => Ok tt | Some e => Err e end.

Lemma op_run_send id cb cs :
  op_run id (None, Some cb, None) cs =
  match first_send_end id cs with
  | None => ([], (None, Some cb, None))
  | Some r => ([ISend id cb (send_outcome r)], (None, None, None))
  end.
Proof.
  induction cs as [|c cs IH]; [done|].
  destruct c as [tid len|tid|tid|imm|imm|? ? ?|tid e]; cbn [op_run op_step first_send_end];
    try (destruct (tid =? id)); rewrite ?op_run_nothing, ?IH; try done; by destruct (first_send_end id cs) as [[]|].
Qed.

(** The callback of a transfer is run exactly once.  Take a transfer registered under [id]
    with the callbacks [h].  Whatever completions are handled, in whatever order and with whatever
    duplicates, and whatever the callbacks submit meanwhile: if the handled completions contain
    one that ends the transfer, exactly one of its callbacks was called, once, with the outcome
    that came first, and nothing is registered under [id] any more; otherwise neither was called
    and the transfer is still registered. *)
Theorem transfer_callback_exactly_once comps s id h :
  in_u 64 (next_transfer_id s) -> locks s = unlocked -> keys s <> [] -> Forall not_watch comps ->
  id < next_transfer_id s -> slot s id = (Some h, None, None) ->
  exists n r s' k log,
    try_for_each comps (handle_transfer_completion shard) s = Done (r, s') /\
    (r = Ok tt -> n = length comps) /\ trace s' = trace s ++ log /\
    next_transfer_id s' = wrapu 64 (next_transfer_id s + k) /\ 0 <= k /\
    (next_transfer_id s + k < 2 ^ 64 ->
     match first_end id (take n comps) with
     | Some e => filter (fun i => about id i) log = [end_call id h e] /\
                 slot s' id = (None, None, None)
     | None => filter (fun i => about id i) log = [] /\ slot s' id = (Some h, None, None)
     end).
Proof.
  intros Hn HL Hk Hw Hid Hs.
  destruct (callbacks_refine comps s Hn HL Hk Hw)
    as (n & r & s' & k & log & Hrun & _ & Hr & _ & _ & Ht & Hnx & Hk0 & Hf).
  exists n, r, s', k, log. do 5 (split; [done|]). intros Hb. specialize (Hf Hb id Hid).
  rewrite Hs, op_run_transfer in Hf.
  destruct (first_end id (take n comps)); split; congruence.
Qed.

Lemma release_removes_deadlock (s : TE) id :
  workers (te_engine s) <> [] -> dm_guards (cb_watchers (callbacks s)) = [id] ->
  (on_engine (fe_release_uvm_watcher id) ;;; on_watchers (dm_remove shard id) ;;;
   ret (@Ok string unit tt)) s = Panic "deadlock".
Proof.
  intros Hw Hg. destruct (workers (te_engine s)) as [|[k0 w0] rest] eqn:E; [done|].
  assert (exists r e', fe_release_uvm_watcher id (te_engine s) = Done (r, e')) as (r & e' & Hrel).
  { unfold fe_release_uvm_watcher, bind_res, call_worker, bind.
    rewrite (get_main_worker_run _ _ _ _ E), (on_worker_run k0 _ _ w0)
      by (rewrite E; apply btree_get_head).
    destruct (call_release id (wh_link w0)).1; eauto. }
  unfold bind, on_engine, on_state. rewrite Hrel. unfold on_watchers, on_state, dm_remove, dm_held.
  simpl. rewrite Hg. simpl. by rewrite Nat.eqb_refl.
Qed.

(** A watcher that ends blocks the callback thread.  When the callback of a watched word
    returns [Ok(false)] or an error, the watcher is removed from the map while the guard of
    [watchers.get] is still held: the thread waits for itself, however keys are assigned to
    shards, and no completion is handled any more. *)
Theorem watcher_end_deadlocks id old new_ cb (s : TE) :
  in_u 64 (next_transfer_id s) -> locks s = unlocked -> keys s <> [] ->
  dm_map (cb_watchers (callbacks s)) !! id = Some cb ->
  (forall s1 r s2, run (IWatch id cb old new_) s1 = Done (r, s2) -> r <> Ok true) ->
  handle_transfer_completion shard (TcUvmWatch id old new_) s = Panic "deadlock".
Proof.
  intros Hn HL Hk Hid Hend. cbn [handle_transfer_completion]. unfold handle_uvm_watch.
  assert (ready s unlocked) as Hs by done. unlocks Hs.
  unfold bind at 1, on_watchers at 1, on_state at 1, dm_get. rewrite Hid. use_guards.
  set (s1 := set_callbacks _ s).
  destruct (invoke_runs (IWatch id cb old new_) s1 (locks_of (IWatch id cb old new_))) as (r & s2 & Hr & _ & HL2 & He); [|done|].
  { split; [done|]. split; [|done]. unfold locks; simpl. congruence. }
  unfold bind at 1. rewrite Hr.
  assert (workers (te_engine s2) <> []) as Hw2.
  { destruct He as (? & ? & _ & _ & _ & Hk2 & _). intros E. apply Hk. unfold keys in Hk2.
    rewrite E in Hk2. symmetry. exact Hk2. }
  assert (dm_guards (cb_watchers (callbacks s2)) = [id]) as Hg2.
  { unfold locks, locks_of in HL2. congruence. }
  assert (r <> Ok true) as Hne.
  { unfold invoke, bind, modify in Hr. by eapply Hend. }
  unfold bind at 1. destruct r as [[]|]; [done|by rewrite release_removes_deadlock..].
Qed.

(** A receive is armed again with the same buffer.  When a message arrives for a registered
    receive, its callback (here one that leaves the engine alone) is called once with the length.
    If it succeeds, the same memory region, address and length are submitted again under the same
    id to the main worker; if it fails nothing is submitted and the failure is returned, which
    ends the thread.  The receive stays registered. *)
Theorem recv_rearmed tid len h rc k0 w0 rest (s : TE) :
  in_u 64 (next_transfer_id s) -> locks s = unlocked ->
  dm_map (cb_recv_ops (callbacks s)) !! tid = Some h ->
  workers (te_engine s) = (k0, w0) :: rest ->
  (forall s1, run (IRecv tid (rc_on_recv h) len) s1 = Done (rc, s1)) ->
  let cmd := SubmitRecv tid (rc_mr h) (rc_ptr h) (rc_len h) in
  exists r s', handle_transfer_completion shard (TcRecv tid len) s = Done (r, s') /\
    trace s' = trace s ++ [IRecv tid (rc_on_recv h) len] /\
    dm_map (cb_recv_ops (callbacks s')) = dm_map (cb_recv_ops (callbacks s)) /\ locks s' = unlocked /\
    match rc with
    | Ok _ => te_engine s' = with_link k0 w0 (cmd_send cmd) (te_engine s) /\
              (r = Ok tt <-> (cmd_send cmd (wh_link w0)).1 = true)
    | Err why => te_engine s' = te_engine s /\ r = Err why
    end.
Proof.
  intros Hn HL Hid Hw Hrun cmd. cbn [handle_transfer_completion]. unfold handle_recv.
  assert (ready s unlocked) as Hs.
  { split; [done|]. split; [done|]. unfold keys. by rewrite Hw. } unlocks Hs.
  unfold bind at 1, on_recv_ops at 1, on_state at 1, dm_get. rewrite Hid. use_guards.
  unfold invoke_unit, invoke, bind_res, bind, modify, ret. rewrite Hrun.
  assert (forall e r0, locks (set_callbacks (set_recv_ops
    (Build_DashMap (dm_map (cb_recv_ops (callbacks s))) []) (callbacks s))
    (Build_TransferEngine (next_transfer_id s) e (callbacks s) (te_thread s) r0)) = unlocked) as HL'.
  { intros. unfold locks; simpl. unfold unlocked. congruence. }
  destruct rc as [b|why]; [|by eexists _, _; split; [reflexivity|]; do 2 (split; [done|]); split; [apply HL'|]].
  unfold on_engine, on_state.
  cbn [te_engine add_trace set_callbacks]. rewrite (fe_submit_recv_run _ _ _ _ _ _ _ _ Hw).
  eexists _, _. split; [reflexivity|]. do 2 (split; [done|]). split; [apply HL'|]. split; [done|].
  fold cmd. by destruct (cmd_send cmd (wh_link w0)).1.
Qed.
End Callbacks.

(** ** Single completions *)
Section Single.
Context `{Handlers W Cb}.

Definition engine_alive (s : TE) : Prop := workers (te_engine s) <> [].

(** Registering a callback under the next id, whose shard nobody holds. *)
Lemma insert_t_run tid (cb : TransferCallback Cb) (s : TE) :
  dm_guards (cb_transfer_ops (callbacks s)) = [] ->
  on_transfer_ops (dm_insert shard tid cb) s =
  Done (tt, set_callbacks (set_transfer_ops
    (Build_DashMap (<[tid := cb]> (dm_map (cb_transfer_ops (callbacks s)))) []) (callbacks s)) s).
Proof. intros Hg. unfold on_transfer_ops, on_state, dm_insert, dm_held. by rewrite Hg. Qed.

Lemma submit_transfer_run request cb (s : TE) :
  engine_alive s -> locks s = unlocked ->
  exists r s', te_submit_transfer shard request cb s = Done (r, s') /\
    let tid := next_transfer_id s in
    fe_submit_transfer tid request None (te_engine s) = Done (r, te_engine s') /\
    next_transfer_id s' = wrapu 64 (tid + 1) /\ trace s' = trace s /\ locks s' = unlocked /\ keys s' = keys s /\
    slot s' tid = (Some cb, (slot s tid).1.2, (slot s tid).2) /\
    (forall id, id <> tid -> slot s' id = slot s id).
Proof.
  intros Hw HL. unfold locks, unlocked in HL. injection HL; intros.
  unfold te_submit_transfer, assign_transfer_id, bind. rewrite insert_t_run by done.
  destruct (fe_submit_transfer_keys (te_engine s) (next_transfer_id s) request None Hw)
    as (r & e' & Hr & Hks).
  exists r. eexists. split.
  { unfold on_engine, on_state. cbn [te_engine set_callbacks set_next_id]. rewrite Hr. reflexivity. }
  cbv zeta. split; [exact Hr|]. split; [done|]. split; [done|].
  split; [unfold locks; simpl; unfold unlocked; congruence|].
  split; [exact Hks|].
  unfold slot; simpl. split; [by rewrite lookup_insert_eq|].
  intros id Hid. by rewrite lookup_insert_ne.
Qed.

Lemma submit_send_run addr buffer cb (s : TE) :
  engine_alive s -> locks s = unlocked ->
  exists r s', te_submit_send shard addr buffer cb s = Done (r, s') /\
    let tid := next_transfer_id s in
    next_transfer_id s' = wrapu 64 (tid + 1) /\ trace s' = trace s /\ locks s' = unlocked /\ keys s' = keys s /\
    slot s' tid = ((slot s tid).1.1, Some cb, (slot s tid).2) /\
    (forall id, id <> tid -> slot s' id = slot s id).
Proof.
  intros Hw HL. unfold locks, unlocked in HL. injection HL; intros Hg0 Hg1 Hg2 Hg3 Hg4 Hg5.
  unfold te_submit_send, bind at 1, assign_transfer_id.
  unfold bind at 1, on_send_ops, on_state, dm_insert, dm_held. cbn [callbacks set_next_id]. rewrite Hg4. cbn [existsb].
  destruct (fe_submit_send_run (te_engine s) (next_transfer_id s) addr (sb_mr_handle buffer) (sb_ptr buffer)
    (sb_len buffer) Hw) as (r & e' & Hr & Hks).
  exists r. eexists. split.
  { rewrite bind_res_ok_tt. unfold on_engine, on_state. cbn [te_engine set_callbacks set_next_id]. rewrite Hr. reflexivity. }
  cbv zeta. split; [done|]. split; [done|]. split; [unfold locks; simpl; unfold unlocked; congruence|].
  split; [exact Hks|]. unfold slot; simpl. split; [by rewrite lookup_insert_eq|].
  intros id Hid. by rewrite lookup_insert_ne.
Qed.

(** [submit_transfer] registers the callback under a new id before the command with that id
    is sent.  The id is the counter, which moves on by one; the callback is registered under it,
    and nothing else changes in the maps; then the command goes through the fabric engine, whose
    answer is returned.  If that answer is an error, no completion will ever come for the id, and
    the callback stays registered. *)
Theorem submit_transfer_registers request cb (s : TE) :
  engine_alive s -> locks s = unlocked ->
  exists r s', te_submit_transfer shard request cb s = Done (r, s') /\
    let tid := next_transfer_id s in
    fe_submit_transfer tid request None (te_engine s) = Done (r, te_engine s') /\
    next_transfer_id s' = wrapu 64 (tid + 1) /\ trace s' = trace s /\ locks s' = unlocked /\
    slot s' tid = (Some cb, (slot s tid).1.2, (slot s tid).2) /\
    (forall id, id <> tid -> slot s' id = slot s id).
Proof.
  intros Hw HL. destruct (submit_transfer_run request cb s Hw HL)
    as (r & s' & ? & ? & ? & ? & ? & _ & ? & ?). by exists r, s'.
Qed.

(** Callbacks that answer [ans] and leave the engine alone. *)
Definition pure_callbacks (ans : Invocation Cb -> result string bool) : Prop :=
  forall i (s1 : TE), run i s1 = Done (ans i, s1).

Definition add_traces (l : list (Invocation Cb)) (s : TE) : TE :=
  Build_TransferEngine (next_transfer_id s) (te_engine s) (callbacks s) (te_thread s) (trace s ++ l).

Lemma invoke_pure ans i (s : TE) :
  pure_callbacks ans -> invoke i s = Done (ans i, add_traces [i] s).
Proof. intros Hp. unfold invoke, bind, modify. by rewrite Hp. Qed.

Lemma invoke_unit_pure ans i b (s : TE) :
  pure_callbacks ans -> ans i = Ok b -> invoke_unit i s = Done (Ok tt, add_traces [i] s).
Proof. intros Hp Hb. unfold invoke_unit, bind_res, bind. by rewrite (invoke_pure ans), Hb. Qed.

Lemma add_traces_app l1 l2 (s : TE) : add_traces l2 (add_traces l1 s) = add_traces (l1 ++ l2) s.
Proof. unfold add_traces; simpl. by rewrite app_assoc. Qed.

Lemma try_traces {A} (l : list A) (body : A -> M TE CallbackResult) (f : A -> list (Invocation Cb)) I :
  (forall x s, I s -> body x s = Done (Ok tt, add_traces (f x) s)) ->
  (forall t s, I s -> I (add_traces t s)) ->
  forall s, I s -> try_for_each l body s = Done (Ok tt, add_traces (mjoin (f <$> l)) s).
Proof.
  intros Hb HI. induction l as [|x l IH]; intros s Hs; cbn [try_for_each].
  { unfold ret, add_traces; simpl. rewrite app_nil_r. by destruct s. }
  unfold bind_res, bind. rewrite Hb by done. rewrite IH by auto. by rewrite add_traces_app.
Qed.

Lemma mjoin_singletons {A B} (g : A -> B) l : mjoin ((fun x => [g x]) <$> l) = g <$> l.
Proof. induction l as [|x l IH]; [done|]. csimpl. by rewrite IH. Qed.

Lemma run_imm_pure ans imm (s : TE) :
  pure_callbacks ans -> (forall cb, exists b, ans (IImm cb imm) = Ok b) ->
  run_imm_callbacks imm s =
  Done (Ok tt, add_traces ((fun cb => IImm cb imm) <$> cb_imm (callbacks s)) s).
Proof.
  intros Hp Ha. unfold run_imm_callbacks, bind at 1, gets.
  unfold imm_readers, bind at 1, modify at 1. unfold bind at 1.
  rewrite (try_traces _ _ (fun cb => [IImm cb imm]) (fun _ => True)); [..|done].
  - unfold bind, modify, ret. f_equal. f_equal. destruct s as [? ? [] ? ?]. unfold add_traces; simpl.
    by rewrite mjoin_singletons.
  - intros cb s1 _. destruct (Ha cb) as [b Hb]. by eapply invoke_unit_pure.
  - done.
Qed.

Lemma list_fmap_const_seq {A} (a : A) i n : (fun _ => a) <$> seq i n = replicate n a.
Proof. revert i. induction n as [|n IH]; intros i; [done|]. csimpl. by rewrite IH. Qed.

Lemma finish_pure ans imm c (s : TE) :
  pure_callbacks ans -> dm_guards (cb_imm_count (callbacks s)) = [] ->
  imm_map (imm_count_map (te_engine s)) !! imm = Some c ->
  (forall cb', exists b, ans (IImm cb' imm) = Ok b) ->
  let n := Z.to_nat (as_u32 (cell (heap (imm_count_map (te_engine s))) (counter_of c))) in
  exists s', finish_imm_count shard imm s = Done (Ok tt, s') /\
    trace s' = trace s ++ mjoin (replicate n ((fun cb' => IImm cb' imm) <$> cb_imm (callbacks s))) /\
    dm_map (cb_imm_count (callbacks s')) = delete imm (dm_map (cb_imm_count (callbacks s))) /\
    imm_map (imm_count_map (te_engine s')) = delete imm (imm_map (imm_count_map (te_engine s))) /\
    locks s' = locks s.
Proof.
  intros Hp Hg Hc Himm n. unfold finish_imm_count.
  set (s1 := set_engine (set_imm_count_map
    (Build_Shared (heap (imm_count_map (te_engine s))) (delete imm (imm_map (imm_count_map (te_engine s)))))
    (te_engine s)) (set_callbacks (set_imm_count
      (Build_DashMap (delete imm (dm_map (cb_imm_count (callbacks s)))) []) (callbacks s)) s)).
  assert (locks s1 = locks s) as HL by (unfold locks; simpl; by rewrite Hg).
  unfold bind at 1, on_imm_count at 1, on_state at 1, dm_remove, dm_held. rewrite Hg. cbn [existsb].
  unfold bind at 1, on_engine at 1, on_state at 1, fe_remove_imm_count, on_imm_map at 1, on_state at 1, remove.
  cbn [te_engine set_callbacks]. rewrite Hc.
  assert (on_engine (on_imm_map (on_heap (consume c))) s1 =
    Done ((as_u32 (cell (heap (imm_count_map (te_engine s))) (counter_of c)),
           match c with Expected _ e => Some e | _ => None end), s1)) as Hcons by by destruct c.
  unfold bind at 1. fold s1. rewrite Hcons. cbn [fst].
  destruct (Z.ltb_spec 0 (as_u32 (cell (heap (imm_count_map (te_engine s))) (counter_of c)))) as [Hlt|Hge].
  - unfold replay_imm. fold n.
    rewrite (try_traces _ _ (fun _ => (fun cb' => IImm cb' imm) <$> cb_imm (callbacks s))
      (fun s2 => cb_imm (callbacks s2) = cb_imm (callbacks s))); [|..|done].
    + eexists. split; [done|]. split; [|done]. unfold add_traces; simpl. do 2 f_equal.
      by rewrite list_fmap_const_seq.
    + intros x s2 Hs2. rewrite (run_imm_pure ans) by done. by rewrite Hs2.
    + done.
  - assert (n = 0%nat) as -> by lia. eexists. split; [done|]. simpl. by rewrite app_nil_r.
Qed.

(** A repeated count that ends hands back what it had counted.  When the callback of an
    expected count returns [Ok(false)] or an error, the callback and the counter are removed, and
    every immediate counted since the expectation was last reached is delivered to all immediate
    callbacks, in the order they were added; other counts are untouched.  (The callbacks are taken
    to leave the engine alone.) *)
Theorem imm_count_end_replays ans imm cb c (s : TE) :
  pure_callbacks ans -> locks s = unlocked ->
  dm_map (cb_imm_count (callbacks s)) !! imm = Some (Repeated cb) ->
  imm_map (imm_count_map (te_engine s)) !! imm = Some c ->
  ans (ICount imm cb) <> Ok true -> (forall cb', exists b, ans (IImm cb' imm) = Ok b) ->
  let n := Z.to_nat (as_u32 (cell (heap (imm_count_map (te_engine s))) (counter_of c))) in
  exists s', handle_transfer_completion shard (TcImmCountReached imm) s = Done (Ok tt, s') /\
    trace s' = trace s ++ ICount imm cb ::
      mjoin (replicate n ((fun cb' => IImm cb' imm) <$> cb_imm (callbacks s))) /\
    dm_map (cb_imm_count (callbacks s')) = delete imm (dm_map (cb_imm_count (callbacks s))) /\
    imm_map (imm_count_map (te_engine s')) = delete imm (imm_map (imm_count_map (te_engine s))) /\
    locks s' = unlocked.
Proof.
  intros Hp HL Hcb Hc Hne Himm n. unfold locks, unlocked in HL. injection HL; intros Hg0 Hg1 Hg Hg3 Hg4 Hg5.
  cbn [handle_transfer_completion]. unfold handle_imm_count_reached.
  unfold bind at 1, on_imm_count at 1, on_state at 1, dm_get. rewrite Hcb, Hg.
  unfold bind at 1. rewrite (invoke_pure ans) by done.
  set (s2 := add_traces _ _).
  assert (exists s3, on_imm_count dm_drop s2 = Done (tt, s3) /\ s3 = add_traces [ICount imm cb] s) as (s3 & Hd & Hs3).
  { eexists. split; [reflexivity|]. destruct s as [? ? [? ? ? ? ? [] ?] ? ?]; simpl in *; by subst. }
  unfold bind at 1. rewrite Hd.
  destruct (finish_pure ans imm c s3) as (s' & Hf & Ht & Hm1 & Hm2 & HL'); [done|by subst..|].
  subst s3. exists s'. split; [by destruct (ans (ICount imm cb)) as [[]|]|].
  split; [rewrite Ht; simpl; by rewrite <- app_assoc|]. do 2 (split; [done|]). by rewrite HL'.
Qed.

(** The branch of a one-time callback: it is removed, then run. *)
Lemma handle_once_run imm cb (s : TE) :
  locks s = unlocked -> dm_map (cb_imm_count (callbacks s)) !! imm = Some (Once cb) ->
  handle_transfer_completion shard (TcImmCountReached imm) s =
  (invoke (IOnce imm cb) ;;; ret (Ok tt)) (set_callbacks (set_imm_count
    (Build_DashMap (delete imm (dm_map (cb_imm_count (callbacks s)))) []) (callbacks s)) s).
Proof.
  intros HL Hcb. unfold locks, unlocked in HL. injection HL; intros Hg0 Hg1 Hg Hg3 Hg4 Hg5.
  cbn [handle_transfer_completion]. unfold handle_imm_count_reached.
  unfold bind at 1 2, on_imm_count at 1 2, on_state at 1 2, dm_get, dm_drop, modify. rewrite Hcb, Hg.
  unfold bind at 1, on_imm_count at 1, on_state at 1, dm_remove, dm_held. simpl. rewrite Hcb. done.
Qed.

(** Waiting once for a count leaves its counter behind.  The branch of a one-time callback
    ([wait_for_imm_count]) removes the callback but not the counter, contrary to its comment: the
    callback is called once, the engine's map is unchanged, so every later immediate with this
    value is still counted instead of being delivered as data, and when the count is reached
    again nothing is called. *)
Theorem once_count_leaves_counter ans imm cb l ex (s : TE) :
  pure_callbacks ans -> locks s = unlocked ->
  dm_map (cb_imm_count (callbacks s)) !! imm = Some (Once cb) ->
  imm_map (imm_count_map (te_engine s)) !! imm = Some (Expected l ex) ->
  exists s', handle_transfer_completion shard (TcImmCountReached imm) s = Done (Ok tt, s') /\
    trace s' = trace s ++ [IOnce imm cb] /\
    dm_map (cb_imm_count (callbacks s')) = delete imm (dm_map (cb_imm_count (callbacks s))) /\
    te_engine s' = te_engine s /\
    (exists st sh, inc imm (imm_count_map (te_engine s')) = Done (st, sh) /\ st <> Vacant) /\
    handle_transfer_completion shard (TcImmCountReached imm) s' = Done (Ok tt, s').
Proof.
  intros Hp HL Hcb Hc. rewrite (handle_once_run imm cb) by done. unfold bind at 1. rewrite (invoke_pure ans) by done.
  eexists. split; [reflexivity|]. split; [done|]. split; [done|]. split; [done|]. split.
  - simpl. unfold inc. rewrite Hc. unfold bind, on_heap, on_state.
    destruct (inc_count (Expected l ex) (heap (imm_count_map (te_engine s)))) as [[b h]| |] eqn:E.
    + eexists _, _. split; [reflexivity|]. by destruct b.
    + exfalso. unfold inc_count, bind in E. rewrite fetch_add_run in E. by case_match.
    + exfalso. unfold inc_count, bind in E. rewrite fetch_add_run in E. by case_match.
  - cbn [handle_transfer_completion]. unfold handle_imm_count_reached, bind at 1, on_imm_count, on_state, dm_get.
    simpl. rewrite lookup_delete_eq. done.
Qed.
End Single.
End Spec.

(** ** Concrete engines

    [busy] callbacks: the one numbered 0 submits another transfer when it is called; watchers
    go on when [go], and end in [busy].
    [quiet] callbacks leave the engine alone; counts end. *)
Definition shard4 (k : Z) : nat := Z.to_nat (k mod 4).

Definition again : TransferRequest :=
  ReqImm {| ir_imm_data := 1; ir_dst_mr := {| mrd_ptr := 0; addr_rkey_list := [] |};
            ir_domain := Pinned 0 |}.

Definition busy_with (go : bool) : Handlers Stub Z := {|
  run := fun i =>
    match i with
    | IDone _ 0 => te_submit_transfer shard4 again {| on_done := 1; on_error := 2 |} ;;; ret (Ok true)
    | IWatch _ _ _ _ => ret (Ok go)
    | _ => ret (Ok true)
    end;
|}.
Definition busy : Handlers Stub Z := busy_with false.

Definition quiet_answer (i : Invocation Z) : result string bool :=
  match i with ICount _ _ => Ok false | _ => Ok true end.
Definition quiet : Handlers Stub Z := {| run := fun i => ret (quiet_answer i) |}.

Lemma ret_ok (s : TransferEngine Stub Z) (r : result string bool) :
  in_u 64 (next_transfer_id s) ->
  exists r' s', @ret (TransferEngine Stub Z) _ r s = Done (r', s') /\ locks s' = locks s /\
    trace s' = trace s /\ evolves stay s s'.
Proof. intros Hn. exists r, s. do 3 (split; [done|]). by apply evolves_stay. Qed.

Lemma busy_with_ok go : @HandlersOk Stub Z (busy_with go).
Proof.
  split. intros i s Hn HL Hk. destruct i as [tid cb| | | | | | |]; try by apply ret_ok.
  destruct cb; try by apply ret_ok. cbn [run busy_with]. unfold bind.
  edestruct (submit_transfer_run shard4 again {| on_done := 1; on_error := 2 |} s) as (r & s' & Hr & _ & Hn' & Ht & HL' & Hk' & Hs & Hs');
    [|exact HL|].
  { intros E. apply Hk. unfold keys. by rewrite E. }
  rewrite Hr. exists (Ok true), s'. split; [done|]. split; [by rewrite HL, HL'|]. split; [done|].
  exists 1, []. split; [lia|]. split; [done|]. split; [by rewrite app_nil_r|]. split; [done|].
  intros _ _ id Hid. unfold stay. rewrite Hs' by lia. done.
Qed.

Lemma busy_ok : @HandlersOk Stub Z busy.
Proof. apply busy_with_ok. Qed.

Lemma quiet_ok : @HandlersOk Stub Z quiet.
Proof. split. intros i s Hn HL Hk. by apply ret_ok. Qed.

Lemma quiet_pure : @pure_callbacks Stub Z quiet quiet_answer.
Proof. intros i s. done. Qed.

(** Transfers 0 (whose callback submits again) and 1, a receive 2, a watcher, and two counts: one
    repeated, with three immediates counted, and one awaited once. *)
Definition counted : Shared :=
  {| heap := {| cells := {[0%nat := 3; 1%nat := 0]}; flags := ∅; next_loc := 2 |};
     imm_map := {[5 := Expected 0 4; 6 := Expected 1 1]} |}.

Definition example_engine : TransferEngine Stub Z := {|
  next_transfer_id := 3;
  te_engine := set_imm_count_map counted stub_engine;
  callbacks := {|
    cb_imm := [50; 51]; cb_imm_readers := 0;
    cb_recv_ops := Build_DashMap {[2 := Build_RecvContext 64 64 8 30 31]} [];
    cb_send_ops := dm_new;
    cb_transfer_ops := Build_DashMap {[0 := {| on_done := 0; on_error := 10 |};
                                       1 := {| on_done := 11; on_error := 12 |}]} [];
    cb_imm_count := Build_DashMap {[5 := Repeated 40; 6 := Once 41]} [];
    cb_watchers := Build_DashMap {[4096 := 60]} [] |};
  te_thread := true;
  trace := [] |}.

Definition example_comps : list TransferCompletionEntry :=
  [TcTransfer 0; TcRecv 2 8; TcError 1 (Custom "link down"); TcTransfer 1; TcImmData 9].

(** The completions of [example_comps] and a watched word wait at the worker; between its first and
    second turn, another thread submits a transfer. *)
Definition busy_engine : TransferEngine Stub Z :=
  set_engine (set_workers [(0, Build_WorkerHandle 100 [] {| st_up := true; st_cmds := []; st_regions := [];
    st_cq := TcUvmWatch 4096 0 1 :: example_comps |})] (te_engine example_engine)) example_engine.

Definition submit_again (s : TransferEngine Stub Z) : TransferEngine Stub Z :=
  state_of s (te_submit_transfer shard4 again {| on_done := 1; on_error := 2 |} s).

Lemma submit_again_other : other_threads submit_again.
Proof.
  intros s (Hn & HL & Hk).
  edestruct (submit_transfer_run shard4 again {| on_done := 1; on_error := 2 |} s) as (r & s' & Hr & _ & Hn' & Ht & HL' & Hk' & Hs & Hs');
    [|exact HL|].
  { intros E. apply Hk. unfold keys. by rewrite E. }
  unfold submit_again. rewrite Hr. cbn [state_of]. split; [done|].
  exists 1, []. split; [lia|]. split; [done|]. split; [by rewrite app_nil_r|]. split; [done|].
  intros _ _ id Hid. unfold stay. rewrite Hs' by lia. done.
Qed.

Lemma idle_other : other_threads (W:=Stub) (Cb:=Z) (fun s => s).
Proof. intros s (Hn & HL & Hk). split; [done|]. by apply evolves_stay. Qed.


Lemma transfer_callback_exactly_once_witness :
  exists n r s' k log,
    try_for_each example_comps (@handle_transfer_completion Stub Z _ shard4 busy) example_engine
      = Done (r, s') /\
    (r = Ok tt -> n = length example_comps) /\ trace s' = trace example_engine ++ log /\
    next_transfer_id s' = wrapu 64 (3 + k) /\ 0 <= k /\
    (3 + k < 2 ^ 64 ->
     match first_end 1 (take n example_comps) with
     | Some e => filter (fun i => about 1 i) log = [end_call 1 {| on_done := 11; on_error := 12 |} e] /\
                 slot s' 1 = (None, None, None)
     | None => filter (fun i => about 1 i) log = [] /\
               slot s' 1 = (Some {| on_done := 11; on_error := 12 |}, None, None)
     end).
Proof.
  apply (@transfer_callback_exactly_once Stub Z _ shard4 busy busy_ok example_comps example_engine 1);
    [by vm_compute|reflexivity|discriminate|by repeat constructor|by vm_compute|reflexivity].
Defined.

Lemma watcher_end_deadlocks_witness :
  @handle_transfer_completion Stub Z _ shard4 busy (TcUvmWatch 4096 0 1) example_engine
    = Panic "deadlock".
Proof.
  apply (@watcher_end_deadlocks Stub Z _ shard4 busy busy_ok 4096 0 1 60 example_engine);
    [by vm_compute|reflexivity|discriminate|reflexivity|]. intros s1 r s2 [= <- <-]. discriminate.
Defined.

Lemma recv_rearmed_witness :
  let h := Build_RecvContext 64 64 8 30 31 in
  let cmd := SubmitRecv 2 (rc_mr h) (rc_ptr h) (rc_len h) in
  exists r s', @handle_transfer_completion Stub Z _ shard4 busy (TcRecv 2 8) example_engine = Done (r, s') /\
    trace s' = trace example_engine ++ [IRecv 2 (rc_on_recv h) 8] /\
    dm_map (cb_recv_ops (callbacks s')) = dm_map (cb_recv_ops (callbacks example_engine)) /\
    locks s' = unlocked /\
    te_engine s' = with_link 0 (stub_handle 0) (cmd_send cmd) (te_engine example_engine) /\
    (r = Ok tt <-> (cmd_send cmd stub).1 = true).
Proof.
  apply (@recv_rearmed Stub Z _ shard4 busy 2 8 (Build_RecvContext 64 64 8 30 31)
    (Ok true) 0 (stub_handle 0) [(1, stub_handle 1)] example_engine); [by vm_compute|reflexivity..].
Defined.

Lemma submit_transfer_registers_witness :
  let cb := {| on_done := 70; on_error := 71 |} in
  exists r s', te_submit_transfer shard4 (stub_request 64) cb example_engine = Done (r, s') /\
    fe_submit_transfer 3 (stub_request 64) None (te_engine example_engine) = Done (r, te_engine s') /\
    next_transfer_id s' = wrapu 64 (3 + 1) /\ trace s' = trace example_engine /\ locks s' = unlocked /\
    slot s' 3 = (Some cb, (slot example_engine 3).1.2, (slot example_engine 3).2) /\
    (forall id, id <> 3 -> slot s' id = slot example_engine id).
Proof.
  apply (submit_transfer_registers shard4 (stub_request 64) {| on_done := 70; on_error := 71 |} example_engine);
    [discriminate|reflexivity].
Defined.

Lemma imm_count_end_replays_witness :
  exists s', @handle_transfer_completion Stub Z _ shard4 quiet (TcImmCountReached 5) example_engine
      = Done (Ok tt, s') /\
    trace s' = trace example_engine ++ ICount 5 40 ::
      mjoin (replicate (Z.to_nat (as_u32 3)) ((fun cb' => IImm cb' 5) <$> [50; 51])) /\
    dm_map (cb_imm_count (callbacks s')) = delete 5 (dm_map (cb_imm_count (callbacks example_engine))) /\
    imm_map (imm_count_map (te_engine s')) = delete 5 (imm_map counted) /\
    locks s' = unlocked.
Proof.
  apply (@imm_count_end_replays Stub Z _ shard4 quiet quiet_answer 5 40 (Expected 0 4) example_engine);
    [exact quiet_pure|reflexivity|reflexivity|reflexivity|discriminate|]. intros cb'. by exists true.
Defined.

Lemma once_count_leaves_counter_witness :
  exists s', @handle_transfer_completion Stub Z _ shard4 quiet (TcImmCountReached 6) example_engine
      = Done (Ok tt, s') /\
    trace s' = trace example_engine ++ [IOnce 6 41] /\
    dm_map (cb_imm_count (callbacks s')) = delete 6 (dm_map (cb_imm_count (callbacks example_engine))) /\
    te_engine s' = te_engine example_engine /\
    (exists st sh, inc 6 (imm_count_map (te_engine s')) = Done (st, sh) /\ st <> Vacant) /\
    @handle_transfer_completion Stub Z _ shard4 quiet (TcImmCountReached 6) s' = Done (Ok tt, s').
Proof.
  apply (@once_count_leaves_counter Stub Z _ shard4 quiet quiet_answer 6 41 1 1 example_engine);
    [exact quiet_pure|reflexivity..].
Defined.
