(* ===== verification/AsyncEngine.v ===== *)
(** * The async interface of the transfer engine

    The [AsyncTransferEngine] methods of [fabric-lib/src/transfer_engine.rs].  Each submits an
    operation whose callback sends the outcome through a new channel, and then waits for that
    channel.

    A submission creates one channel, which the model names by the id of its operation; the
    closures of the operation hold its senders.  A channel of [wait_for_imm_count], which has no
    such id, is named by a number.  The values that went through a channel are those of the
    invocations on the trace; a receiver can be dropped at any time, by dropping the future. *)
From stdpp Require Import prelude gmap strings list.
From S2P Require Import Prelude Api ImmCount Sharding Provider DomainGroup Worker FabricEngine FabricSpec.
From S2P Require Import TransferEngine EngineSpec.
Local Open Scope Z_scope.

(** ** Callbacks and futures *)

(** A callback of the user, the closure(s) of a submission, or the closure of a wait. *)
Inductive FutCb (U : Type) : Type := User (u : U) | ResultTx | OnceTx (ch : nat).
Arguments User {U} u.
Arguments ResultTx {U}.
Arguments OnceTx {U} ch.

Inductive Poll : Type := Pending | Ready (r : res unit).

Definition lost_sender : res unit :=
  Err (CompletionError "Failed to receive result from oneshot channel").

Section Async.
Context {W U : Type} `{WorkerLink W}.
Context (shard : Z -> nat).
Abbreviation Cb := (FutCb U).
Abbreviation TE := (TransferEngine W Cb).

(** What an invocation sends through the channel of operation [tid]. *)
Definition op_sent (tid : Z) (i : Invocation Cb) : option (res unit) :=
  match i with
  | IDone t ResultTx => if t =? tid then Some (Ok tt) else None
  | IError t ResultTx e => if t =? tid then Some (Err e) else None
  | ISend t ResultTx r => if t =? tid then Some r else None
  | _ => None
  end.

Definition once_sent (ch : nat) (i : Invocation Cb) : option (res unit) :=
  match i with
  | IOnce _ (OnceTx c) => if (c =? ch)%nat then Some (Ok tt) else None
  | _ => None
  end.

(** A receiver that is polled: the first value; else an error if no sender is left. *)
Definition poll_channel (sent : list (res unit)) (senders : bool) : Poll :=
  match sent with
  | r :: _ => Ready r
  | [] => if senders then Pending else Ready lost_sender
  end.

Definition is_tx (cb : Cb) : bool := match cb with ResultTx => true | _ => false end.

(** The closures registered under [tid] that hold a sender of its channel. *)
Definition op_senders (tid : Z) (s : TE) : bool :=
  let '(t, n, r) := slot s tid in
  match t with Some h => is_tx (on_done h) || is_tx (on_error h) | None => false end ||
  match n with Some cb => is_tx cb | None => false end.

Definition once_senders (ch : nat) (imm : Z) (s : TE) : bool :=
  match dm_map (cb_imm_count (callbacks s)) !! imm with
  | Some (Once (OnceTx c)) => (c =? ch)%nat
  | _ => false
  end.

(** ** The methods

    The result is [Err] when the future is over at once, and otherwise the channel it waits for. *)
Definition submit_transfer_async (request : TransferRequest) : M TE (res TransferId) :=
  let! tid := gets next_transfer_id in
  let? _ := te_submit_transfer shard request {| on_done := ResultTx; on_error := ResultTx |} in
  ret (Ok tid).

Definition submit_send_async (addr : DomainAddress) (buffer : SendBuffer) : M TE (res TransferId) :=
  let! tid := gets next_transfer_id in
  let? _ := te_submit_send shard addr buffer ResultTx in
  ret (Ok tid).

Definition wait_for_imm_count_async (ch : nat) (imm expected : Z) : M TE nat :=
  wait_for_imm_count shard imm expected (OnceTx ch) ;;;
  ret ch.

(** What the futures of the two submissions, and of a wait, give when they are polled. *)
Definition poll_op (tid : Z) (s : TE) : Poll :=
  poll_channel (omap (op_sent tid) (trace s)) (op_senders tid s).
Definition poll_wait (ch : nat) (imm : Z) (s : TE) : Poll :=
  poll_channel (omap (once_sent ch) (trace s)) (once_senders ch imm s).

(** ** The closures

    [open], [open_once]: whether the receiver of a channel still exists; [user] runs the callbacks
    of the user.  Sending to a dropped receiver is an error, which the closure of a wait turns into
    a panic. *)
Context (open : Z -> bool) (open_once : nat -> bool).
Context (user : Invocation Cb -> M TE (result string bool)).

Definition send_result (tid : Z) : result string bool :=
  if open tid then Ok true else Err "Failed to send result through oneshot channel"%string.

#[local] Instance future_handlers : Handlers W Cb := {|
  run := fun i =>
    match i with
    | IDone tid ResultTx | IError tid ResultTx _ | ISend tid ResultTx _ => ret (send_result tid)
    | IOnce _ (OnceTx ch) =>
        if open_once ch then ret (Ok true) else panic "Failed to send through oneshot channel"
    | _ => user i
    end;
|}.

(** ** Correctness *)

(** What is asked of the callbacks of the user, as in [HandlersOk]. *)
Definition user_ok : Prop := forall i s,
  in_u 64 (next_transfer_id s) -> locks s = locks_of i -> keys s <> [] ->
  exists r s', user i s = Done (r, s') /\ locks s' = locks s /\ trace s' = trace s /\ evolves stay s s'.

Lemma future_handlers_ok : user_ok -> (forall ch, open_once ch = true) -> HandlersOk (W:=W) (Cb:=Cb).
Proof.
  intros Hu Ho. split. intros i s Hn HL Hk.
  assert (forall r : result string bool, exists r' s', @ret TE _ r s = Done (r', s') /\ locks s' = locks s /\
    trace s' = trace s /\ evolves stay s s') as Hret.
  { intros r. exists r, s. do 3 (split; [done|]). by apply evolves_stay. }
  destruct i as [tid []|tid [] e|tid [] r| | | |imm [| |ch]|]; cbn [run future_handlers]; try (by apply Hu); try by apply Hret.
  rewrite Ho. apply Hret.
Qed.

(** Only invocations about an operation send through its channel. *)
Lemma op_sent_about tid (l : list (Invocation Cb)) : omap (op_sent tid) l = omap (op_sent tid) (filter (about tid) l).
Proof.
  induction l as [|i l IH]; [done|]. rewrite filter_cons. cbn [omap list_omap]. case_decide as Ha; cbn [omap list_omap].
  - by rewrite IH.
  - assert (op_sent tid i = None) as ->; [|done].
    destruct i as [t []|t [] e|t [] r| | | | |]; simpl in *; try done; by destruct (t =? tid); [destruct Ha|].
Qed.

(** The two submissions. *)
Inductive AsyncOp : Type :=
  | ATransfer (request : TransferRequest)
  | ASend (addr : DomainAddress) (buffer : SendBuffer).

Definition async_submit (op : AsyncOp) : M TE (res TransferId) :=
  match op with
  | ATransfer request => submit_transfer_async request
  | ASend addr buffer => submit_send_async addr buffer
  end.

(** The first completion that ends the operation. *)
Definition ended (op : AsyncOp) (tid : Z) (cs : list TransferCompletionEntry) : option (option FabricLibError) :=
  match op with ATransfer _ => first_end tid cs | ASend _ _ => first_send_end tid cs end.

Definition async_slot (op : AsyncOp) : option (TransferCallback Cb) * option Cb * option (RecvContext Cb) :=
  match op with
  | ATransfer _ => (Some {| on_done := ResultTx; on_error := ResultTx |}, None, None)
  | ASend _ _ => (None, Some ResultTx, None)
  end.

Lemma async_submit_run op (s : TE) r s1 :
  engine_alive s -> locks s = unlocked -> slot s (next_transfer_id s) = (None, None, None) ->
  async_submit op s = Done (r, s1) ->
  next_transfer_id s1 = wrapu 64 (next_transfer_id s + 1) /\ trace s1 = trace s /\ locks s1 = unlocked /\
  keys s1 = keys s /\ slot s1 (next_transfer_id s) = async_slot op /\
  (forall tid, r = Ok tid -> tid = next_transfer_id s).
Proof.
  intros Hw HL Hnone Hrun. destruct op as [request|a buffer]; cbn [async_submit] in Hrun.
  - unfold submit_transfer_async, bind_res, bind at 1, gets, bind in Hrun.
    destruct (submit_transfer_run shard request {| on_done := ResultTx; on_error := ResultTx |} s Hw HL)
      as (r0 & s0 & Hr0 & _ & Hn & Ht & HL0 & Hk & Hs & _). rewrite Hr0 in Hrun. rewrite Hnone in Hs.
    destruct r0; cbv [ret] in Hrun; simplify_eq; repeat split; try done; intros; by simplify_eq.
  - unfold submit_send_async, bind_res, bind at 1, gets, bind in Hrun.
    destruct (submit_send_run shard a buffer ResultTx s Hw HL)
      as (r0 & s0 & Hr0 & Hn & Ht & HL0 & Hk & Hs & _). rewrite Hr0 in Hrun. rewrite Hnone in Hs.
    destruct r0; cbv [ret] in Hrun; simplify_eq; repeat split; try done; intros; by simplify_eq.
Qed.

Lemma async_op_run op tid cs :
  exists log o, op_run tid (async_slot op) cs = (log, o) /\
    match ended op tid cs with
    | None => log = [] /\ o = async_slot op
    | Some r => omap (op_sent tid) log = [send_outcome r]
    end.
Proof.
  destruct op as [request|a buffer]; cbn [async_slot ended].
  - rewrite op_run_transfer. destruct (first_end tid cs) as [[e|]|]; eexists _, _; (split; [done|]); cbn; by rewrite ?Z.eqb_refl.
  - rewrite op_run_send. destruct (first_send_end tid cs) as [[e|]|]; eexists _, _; (split; [done|]); cbn; by rewrite ?Z.eqb_refl.
Qed.

(** C4: the future of an asynchronous submission resolves exactly when its operation ends, with its
    outcome.  Take a send or a transfer that was submitted asynchronously under a fresh id, and any
    completions handled afterwards, in any order and with any duplicates, while no future is
    dropped.  The future is pending as long as none of the handled completions ends the operation;
    then it gives [Ok] or the error of the first one that did.  At most one value is ever sent, so
    the channel of capacity one never blocks the callback thread. *)
Theorem async_future_resolves op comps (s s1 : TE) tid :
  user_ok -> (forall ch, open_once ch = true) ->
  in_u 64 (next_transfer_id s) -> locks s = unlocked -> keys s <> [] ->
  slot s (next_transfer_id s) = (None, None, None) -> omap (op_sent (next_transfer_id s)) (trace s) = [] ->
  async_submit op s = Done (Ok tid, s1) -> Forall not_watch comps ->
  exists n r s' k,
    try_for_each comps (handle_transfer_completion shard) s1 = Done (r, s') /\
    (n <= length comps)%nat /\ (r = Ok tt -> n = length comps) /\
    next_transfer_id s' = wrapu 64 (next_transfer_id s + k) /\ 1 <= k /\
    (next_transfer_id s + k < 2 ^ 64 ->
     poll_op tid s' = match ended op tid (take n comps) with
                      | None => Pending
                      | Some r => Ready (send_outcome r)
                      end /\
     (length (omap (op_sent tid) (trace s')) <= 1)%nat).
Proof.
  intros Hu Ho Hn HL Hk Hnone Hfresh Hsub Hw. pose proof (future_handlers_ok Hu Ho) as Hok.
  destruct (async_submit_run op s (Ok tid) s1) as (Hn1 & Ht1 & HL1 & Hk1 & Hs1 & Htid); [|done..|].
  { intros E. apply Hk. unfold keys. by rewrite E. }
  specialize (Htid tid eq_refl) as ->.
  destruct (callbacks_refine shard comps s1) as (n & r & s' & k & log & Hrun & Hle & Hr & _ & _ & Ht & Hnx & Hk0 & Hf);
    [rewrite Hn1; by apply wrapu_range|done|congruence|done|].
  exists n, r, s', (k + 1). split; [done|]. split; [done|]. split; [done|]. split.
  { rewrite Hnx, Hn1. unfold wrapu. rewrite Zplus_mod_idemp_l. f_equal. lia. }
  split; [lia|]. intros Hb. rewrite wrapu_small in Hn1 by (unfold in_u in *; lia).
  specialize (Hf ltac:(lia) (next_transfer_id s) ltac:(lia)). rewrite Hs1 in Hf.
  destruct (async_op_run op (next_transfer_id s) (take n comps)) as (l & o & Hl & Hend). rewrite Hl in Hf.
  injection Hf as Hlog Hslot. unfold poll_op, op_senders. rewrite Ht, Ht1, omap_app, Hfresh, Hslot, op_sent_about, Hlog.
  destruct (ended op (next_transfer_id s) (take n comps)) as [e|]; [by rewrite Hend|].
  destruct Hend as [-> ->]. destruct op; cbn; (split; [done|lia]).
Qed.

(** The completion that says the operation succeeded. *)
Definition success (op : AsyncOp) (tid : Z) : TransferCompletionEntry :=
  match op with ATransfer _ => TcTransfer tid | ASend _ _ => TcSend tid end.

Lemma handle_dropped op tid (s : TE) :
  open tid = false -> locks s = unlocked -> slot s tid = async_slot op ->
  exists e s', handle_transfer_completion shard (success op tid) s = Done (Err e, s') /\
    te_engine s' = te_engine s /\ (forall id, id <> tid -> poll_op id s' = poll_op id s).
Proof.
  intros Ho HL Hs. unfold locks, unlocked in HL. injection HL; intros Hg0 Hg1 Hg2 Hg3 Hg4 Hg5.
  destruct op; cbn [success handle_transfer_completion async_slot] in *; injection Hs as Ht Hn Hr.
  - unfold handle_transfer, bind at 1, on_transfer_ops, on_state, dm_remove, dm_held. rewrite Hg3. cbn [existsb]. rewrite Ht.
    unfold invoke_unit, bind_res, invoke, bind, modify. cbn [run future_handlers on_done]. unfold send_result, ret. rewrite Ho.
    eexists _, _. split; [reflexivity|]. split; [done|]. intros id Hid. unfold poll_op, op_senders, slot. simpl.
    rewrite lookup_delete_ne, omap_app by done. cbn. rewrite (proj2 (Z.eqb_neq tid id)) by done. by rewrite app_nil_r.
  - unfold handle_send, bind at 1, on_send_ops, on_state, dm_remove, dm_held. rewrite Hg4. cbn [existsb]. rewrite Hn.
    unfold invoke_unit, bind_res, invoke, bind, modify. cbn [run future_handlers]. unfold send_result, ret. rewrite Ho.
    eexists _, _. split; [reflexivity|]. split; [done|]. intros id Hid. unfold poll_op, op_senders, slot. simpl.
    rewrite lookup_delete_ne, omap_app by done. cbn. rewrite (proj2 (Z.eqb_neq tid id)) by done. by rewrite app_nil_r.
Qed.

(** C25: dropping the future of one operation stops the engine for all.  If the receiver of an
    asynchronous submission is gone when its operation succeeds, the closure cannot send the
    outcome and reports an error; the callback thread then stops the fabric engine and ends.
    Every other future stays as it was: those that were pending stay pending for ever.  A failed
    operation whose future was dropped is only logged. *)
Theorem dropped_future_stops_engine op tid env act (s : TE) e' :
  open tid = false -> locks (act s) = unlocked -> slot (act s) tid = async_slot op ->
  fe_is_stopped (te_engine (act s)) = false ->
  fe_poll_transfer_completion (te_engine (act s)) = Done (Some (success op tid), e') ->
  (exists s', callback_worker_thread shard (act :: env) s = Done (true, s') /\
    fe_is_stopped (te_engine s') = true /\ (forall id, id <> tid -> poll_op id s' = poll_op id (act s))) /\
  (forall e, exists s', handle_transfer_completion shard (TcError tid e) (act s) = Done (Ok tt, s')).
Proof.
  intros Ho HL Hs Hrun Hpoll. split.
  - cbn [callback_worker_thread]. unfold bind at 1, modify at 1. unfold bind at 1, gets at 1. rewrite Hrun.
    unfold bind at 1, on_engine at 1, on_state at 1. rewrite Hpoll.
    destruct (handle_dropped op tid (set_engine e' (act s)) Ho HL Hs) as (e & s' & Hh & _ & Hp).
    unfold bind at 1. rewrite Hh. eexists. split; [reflexivity|]. split; [done|]. exact Hp.
  - intros e. unfold locks, unlocked in HL. injection HL; intros Hg0 Hg1 Hg2 Hg3 Hg4 Hg5.
    cbn [handle_transfer_completion]. unfold handle_error, bind at 1, on_transfer_ops, on_state, dm_remove, dm_held.
    rewrite Hg3. cbn [existsb]. destruct op; cbn [async_slot] in Hs; injection Hs as -> Hn Hr; [by eexists|].
    unfold bind at 1, on_send_ops, on_state. cbn [callbacks set_callbacks set_transfer_ops cb_send_ops].
    rewrite Hg4. cbn [existsb]. rewrite Hn. by eexists.
Qed.

(** A dropped wait takes the callback thread down with it: [expect] on the failed send panics. *)
Theorem dropped_wait_panics ch imm (s : TE) :
  open_once ch = false -> locks s = unlocked ->
  dm_map (cb_imm_count (callbacks s)) !! imm = Some (Once (OnceTx ch)) ->
  handle_transfer_completion shard (TcImmCountReached imm) s = Panic "Failed to send through oneshot channel".
Proof.
  intros Ho HL Hcb. rewrite (handle_once_run shard imm (OnceTx ch)) by done.
  unfold bind at 1, invoke, bind at 1, modify. cbn [run future_handlers]. by rewrite Ho.
Qed.

(** The first of two waits for the same immediate fails.  The second wait replaces the closure of
    the first, whose future then finds that its sender is gone; the second resolves when the
    count is reached. *)
Theorem second_wait_replaces_first ch1 ch2 imm ex1 ex2 (s s1 s2 : TE) :
  ch1 <> ch2 -> open_once ch2 = true -> locks s = unlocked ->
  omap (once_sent ch1) (trace s) = [] -> omap (once_sent ch2) (trace s) = [] ->
  wait_for_imm_count_async ch1 imm ex1 s = Done (ch1, s1) ->
  wait_for_imm_count_async ch2 imm ex2 s1 = Done (ch2, s2) ->
  poll_wait ch1 imm s1 = Pending /\ poll_wait ch1 imm s2 = Ready lost_sender /\ poll_wait ch2 imm s2 = Pending /\
  exists s3, handle_transfer_completion shard (TcImmCountReached imm) s2 = Done (Ok tt, s3) /\
    poll_wait ch2 imm s3 = Ready (Ok tt).
Proof.
  intros Hne Ho HL Hf1 Hf2 H1 H2.
  assert (forall ch ex (a b : TE), locks a = unlocked -> wait_for_imm_count_async ch imm ex a = Done (ch, b) ->
    locks b = unlocked /\ trace b = trace a /\
    dm_map (cb_imm_count (callbacks b)) !! imm = Some (Once (OnceTx ch))) as Hwait.
  { intros ch ex a b HLa Hrun. unfold locks, unlocked in HLa. injection HLa; intros Hg0 Hg1 Hg Hg3 Hg4 Hg5.
    unfold wait_for_imm_count_async, wait_for_imm_count, bind, on_imm_count, on_state, dm_insert, dm_held in Hrun.
    rewrite Hg in Hrun. cbn [existsb] in Hrun. unfold on_engine, on_state in Hrun.
    destruct (fe_set_imm_count_expected _ _ _) as [[o fe]| |]; cbv [ret] in Hrun; simplify_eq.
    split; [unfold locks, unlocked; simpl; congruence|]. split; [done|]. simpl. apply lookup_insert_eq. }
  destruct (Hwait _ _ _ _ HL H1) as (HL1 & Ht1 & Hc1). destruct (Hwait _ _ _ _ HL1 H2) as (HL2 & Ht2 & Hc2).
  unfold poll_wait, once_senders. rewrite Ht2, Ht1, Hf1, Hf2, Hc1, Hc2, !Nat.eqb_refl.
  rewrite (proj2 (Nat.eqb_neq ch2 ch1)) by done. do 3 (split; [done|]).
  rewrite (handle_once_run shard imm (OnceTx ch2)) by done.
  unfold bind at 1, invoke, bind at 1, modify. cbn [run future_handlers]. rewrite Ho.
  eexists. split; [reflexivity|]. simpl. rewrite Ht2, Ht1, omap_app, Hf2. simpl. by rewrite Nat.eqb_refl.
Qed.
End Async.

(** ** Witnesses: one engine, an immediate transfer and the futures 0 and 1 *)
Module AsyncWitness.

Definition agrees (i : Invocation (FutCb Z)) : M (TransferEngine Stub (FutCb Z)) (result string bool) := ret (Ok true).
Definition idle : TransferEngine Stub (FutCb Z) := Build_TransferEngine 0 stub_engine new_callbacks true [].
Definition started : TransferEngine Stub (FutCb Z) :=
  state_of idle (submit_transfer_async shard4 again idle).

Lemma agrees_ok : user_ok agrees.
Proof. intros i s Hn HL Hk. exists (Ok true), s. do 3 (split; [done|]). by apply evolves_stay. Qed.

Lemma async_future_resolves_witness :
  let comps := [TcImmData 5; TcError 0 (Custom "link down"); TcTransfer 0] in
  exists n r s' k,
    try_for_each comps (@handle_transfer_completion _ _ _ shard4 (future_handlers (fun _ => true) (fun _ => true) agrees))
      started = Done (r, s') /\
    (n <= 3)%nat /\ (r = Ok tt -> n = 3%nat) /\ next_transfer_id s' = wrapu 64 (0 + k) /\ 1 <= k /\
    (0 + k < 2 ^ 64 ->
     poll_op 0 s' = match first_end 0 (take n comps) with
                    | None => Pending
                    | Some r => Ready (send_outcome r)
                    end /\
     (length (omap (op_sent 0) (trace s')) <= 1)%nat).
Proof.
  apply (async_future_resolves shard4 (fun _ => true) (fun _ => true) agrees (ATransfer again)
    [TcImmData 5; TcError 0 (Custom "link down"); TcTransfer 0] idle started 0);
    [exact agrees_ok|done|by vm_compute|reflexivity|discriminate|reflexivity|reflexivity|reflexivity|by repeat constructor].
Defined.

(** Two futures, the first of which is dropped before its transfer completes. *)
Definition two : TransferEngine Stub (FutCb Z) := state_of idle (submit_transfer_async shard4 again started).
Definition arrived : TransferEngine Stub (FutCb Z) :=
  set_engine (set_workers [(0, Build_WorkerHandle 100 [] {| st_up := true; st_cmds := []; st_regions := [];
    st_cq := [TcTransfer 0; TcTransfer 1] |})] (te_engine two)) two.
Definition first_dropped (id : Z) : bool := negb (id =? 0).

Lemma dropped_future_stops_engine_witness :
  exists s', @callback_worker_thread _ _ _ shard4 (future_handlers first_dropped (fun _ => true) agrees)
      [fun s => s; fun s => s] arrived = Done (true, s') /\
    fe_is_stopped (te_engine s') = true /\ poll_op 1 s' = Pending.
Proof.
  destruct (dropped_future_stops_engine shard4 first_dropped (fun _ => true) agrees (ATransfer again) 0
    [fun s => s] (fun s => s) arrived (state_of (te_engine arrived) (fe_poll_transfer_completion (te_engine arrived))))
    as ((s' & Hrun & Hstop & Hp) & _); [reflexivity..|].
  exists s'. split; [exact Hrun|]. split; [exact Hstop|]. rewrite Hp by done. reflexivity.
Defined.

Lemma dropped_wait_panics_witness :
  @handle_transfer_completion _ _ _ shard4 (future_handlers (fun _ => true) (fun _ => false) agrees) (TcImmCountReached 6)
    (state_of idle (wait_for_imm_count_async shard4 3 6 1 idle)) = Panic "Failed to send through oneshot channel".
Proof. apply (dropped_wait_panics shard4 (fun _ => true) (fun _ => false) agrees 3); reflexivity. Defined.

Lemma second_wait_replaces_first_witness :
  let s1 := state_of idle (wait_for_imm_count_async shard4 3 6 1 idle) in
  let s2 := state_of idle (wait_for_imm_count_async shard4 4 6 2 s1) in
  poll_wait 3 6 s1 = Pending /\ poll_wait 3 6 s2 = Ready lost_sender /\ poll_wait 4 6 s2 = Pending /\
  exists s3, @handle_transfer_completion _ _ _ shard4 (future_handlers (fun _ => true) (fun _ => true) agrees)
      (TcImmCountReached 6) s2 = Done (Ok tt, s3) /\
    poll_wait 4 6 s3 = Ready (Ok tt).
Proof.
  apply (second_wait_replaces_first shard4 (fun _ => true) (fun _ => true) agrees 3 4 6 1 2 idle); (done || reflexivity).
Defined.
End AsyncWitness.
