(* ===== verification/HostBuffer.v ===== *)
(** * Registered host buffers

    [fabric-lib/src/host_buffer.rs]: a cache of host buffers registered with an engine.  A buffer
    goes back to the cache when it is dropped; an allocation takes any free buffer that is large
    enough, and otherwise registers a new one of the next power of two. *)
From stdpp Require Import prelude gmap strings list.
From S2P Require Import Prelude Api Utils.
Local Open Scope Z_scope.

(** [usize::next_power_of_two]; in the release profile an overflow gives 0. *)
Definition next_power_of_two (z : Z) : Z := wrapu 64 (2 ^ Z.log2_up z).

Lemma next_power_bounds size :
  0 <= size <= 2 ^ 62 -> size <= next_power_of_two size /\ 1 <= next_power_of_two size <= 2 ^ 62.
Proof.
  intros Hs. unfold next_power_of_two. destruct (decide (size = 0)) as [->|Hne]; [vm_compute; by split; [|split]|].
  assert (0 <= Z.log2_up size <= 62) by (split; [apply Z.log2_up_nonneg|apply Z.log2_up_le_pow2; lia]).
  pose proof (Z.log2_log2_up_spec size ltac:(lia)).
  assert (2 ^ Z.log2_up size <= 2 ^ 62) by (apply Z.pow_le_mono_r; lia).
  rewrite wrapu_small; [lia|]. unfold in_u. split; [lia|]. eapply Z.le_lt_trans; [done|by vm_compute].
Qed.

(** [Vec::with_capacity]: more than [isize::MAX] bytes panic. *)
Definition isize_max : Z := 2 ^ 63 - 1.

Record HostBufferEntry := { hbe_storage : Z; hbe_size : Z; hbe_mr_handle : MemoryRegionHandle }.

Record HostBufferCache := {
  hb_buffers : list HostBufferEntry;
  free_bufs : gmap Z (gset nat);
}.

Record HostBuffer := {
  hb_index : nat;
  hb_ptr : Z;
  hb_length : Z;
  hb_mr_handle : MemoryRegionHandle;
}.

Definition cache_new : HostBufferCache := {| hb_buffers := []; free_bufs := ∅ |}.

Definition hb_free (index : nat) (length : Z) (c : HostBufferCache) : HostBufferCache :=
  {| hb_buffers := hb_buffers c;
     free_bufs := <[length := {[index]} ∪ default ∅ (free_bufs c !! length)]> (free_bufs c) |}.

(** [HostBuffer::drop]. *)
Definition hb_drop (b : HostBuffer) (c : HostBufferCache) : HostBufferCache :=
  hb_free (hb_index b) (hb_length b) c.

(** ** The invariant of the cache *)

(** Index [i] is free in the class of size [n]. *)
Definition is_free (c : HostBufferCache) (n : Z) (i : nat) : Prop :=
  exists X, free_bufs c !! n = Some X /\ i ∈ X.

(** A buffer handed out is the whole storage of its entry. *)
Definition owns (c : HostBufferCache) (b : HostBuffer) : Prop :=
  exists e, hb_buffers c !! hb_index b = Some e /\ hb_ptr b = hbe_storage e /\
    hb_length b = hbe_size e /\ hb_mr_handle b = hbe_mr_handle e.

Record hb_wf (c : HostBufferCache) (live : list HostBuffer) : Prop := {
  hw_owns : Forall (owns c) live;
  hw_distinct : NoDup (hb_index <$> live);
  hw_free : forall n i, is_free c n i ->
    i ∉ hb_index <$> live /\ exists e, hb_buffers c !! i = Some e /\ hbe_size e = n;
}.

Lemma cache_new_wf : hb_wf cache_new [].
Proof.
  split; [constructor|constructor|]. intros n i (X & HX & _). simpl in HX. by rewrite lookup_empty in HX.
Qed.

#[export] Instance hb_wf_perm c : Proper ((≡ₚ) ==> iff) (hb_wf c).
Proof.
  intros l l' Hl. split; intros [Ho Hd Hf]; split; first [by rewrite Hl || by rewrite <- Hl | idtac].
  all: intros n i Hi; destruct (Hf n i Hi) as [Hn He]; (split; [|done]).
  - by rewrite <- Hl.
  - by rewrite Hl.
Qed.

Lemma hb_drop_wf c live k b :
  hb_wf c live -> live !! k = Some b -> hb_wf (hb_drop b c) (delete k live).
Proof.
  intros [Ho Hd Hf] Hk. pose proof (delete_Permutation live k b Hk) as Hp.
  assert (hb_index <$> live ≡ₚ hb_index b :: (hb_index <$> delete k live)) as Hpi by by rewrite Hp at 1.
  rewrite Hpi in Hd. apply NoDup_cons in Hd as [Hb Hd].
  rewrite Hp in Ho. apply Forall_cons in Ho as [Hob Ho]. split; [done|done|].
  intros n i (X & HX & Hi). unfold hb_drop, hb_free in HX. simpl in HX. rewrite lookup_insert in HX.
  assert (is_free c n i \/ (i = hb_index b /\ n = hb_length b)) as [Hfree|[-> ->]].
  { case_decide as Heq; simplify_eq.
    - apply elem_of_union in Hi as [Hi%elem_of_singleton|Hi]; [by right|].
      destruct (free_bufs c !! hb_length b) as [X0|] eqn:E; simpl in Hi; [|set_solver].
      left. by exists X0.
    - left. by exists X. }
  - destruct (Hf n i Hfree) as [Hn He]. split; [|done]. rewrite Hpi in Hn. set_solver.
  - split; [done|]. destruct Hob as (e & He & _ & Hl & _). by exists e.
Qed.

Section Allocate.
(** The system [Y]: the allocator, which returns the address of a new storage (a process out of
    memory is aborted), and the engine's [register_memory_local] for host memory. *)
Context {Y : Type} (alloc_storage : Z -> Y -> Z * Y) (free_storage : Z -> Z -> Y -> Y).
Context (register : Z -> Z -> Y -> res MemoryRegionHandle * Y).
(** The orders in which a [HashMap] and a [HashSet] are traversed. *)
Context (iter_map : gmap Z (gset nat) -> list (Z * gset nat)) (iter_set : gset nat -> list nat).

(** The storage is dropped when its registration fails. *)
Definition entry_new (size : Z) : M Y (res HostBufferEntry) :=
  if isize_max <? size then panic "capacity overflow" else
  let! storage := call (alloc_storage size) in
  let! mr_handle := call (register storage size) in
  match mr_handle with
  | Ok mr_handle => ret (Ok {| hbe_storage := storage; hbe_size := size; hbe_mr_handle := mr_handle |})
  | Err e => modify (free_storage storage size) ;;; ret (Err e)
  end.

(** The first size class, in the order of the map, that is large enough and has an entry. *)
Fixpoint find_free (size : Z) (l : list (Z * gset nat)) : option (Z * nat) :=
  match l with
  | [] => None
  | (allocated_size, entries) :: l =>
      if allocated_size <? size then find_free size l
      else match iter_set entries with
           | [] => find_free size l
           | index :: _ => Some (allocated_size, index)
           end
  end.

Definition buffer_of (index : nat) (length : Z) (e : HostBufferEntry) : HostBuffer :=
  {| hb_index := index; hb_ptr := hbe_storage e; hb_length := length; hb_mr_handle := hbe_mr_handle e |}.

Definition allocate (size : Z) : M (HostBufferCache * Y) (res HostBuffer) := fun s =>
  let c := s.1 in
  match find_free size (iter_map (free_bufs c)) with
  | Some (allocated_size, index) =>
      let free := <[allocated_size := default ∅ (free_bufs c !! allocated_size) ∖ {[index]}]> (free_bufs c) in
      match hb_buffers c !! index with
      | None => Panic "index out of bounds"
      | Some entry =>
          Done (Ok (buffer_of index allocated_size entry),
                ({| hb_buffers := hb_buffers c; free_bufs := free |}, s.2))
      end
  | None =>
      let size := next_power_of_two size in
      let index := length (hb_buffers c) in
      match entry_new size s.2 with
      | Done (Ok entry, y) =>
          Done (Ok (buffer_of index size entry),
                ({| hb_buffers := hb_buffers c ++ [entry]; free_bufs := free_bufs c |}, y))
      | Done (Err e, y) => Done (Err e, (c, y))
      | Panic why => Panic why
      | OutOfFuel => OutOfFuel
      end
  end.

(** ** Theorems *)
Context (iter_map_perm : forall m, iter_map m ≡ₚ map_to_list m).
Context (iter_set_elems : forall X : gset nat, iter_set X ≡ₚ elements X).

(** A client: allocations and drops of buffers it holds. *)
Inductive hb_op : Type := HbAlloc (size : Z) | HbDrop (k : nat).

Definition hb_exec (o : hb_op) (s : (HostBufferCache * Y) * list HostBuffer) :
    outcome ((HostBufferCache * Y) * list HostBuffer) :=
  match o with
  | HbAlloc size =>
      match allocate size s.1 with
      | Done (Ok b, cy) => Done (cy, b :: s.2)
      | Done (Err _, cy) => Done (cy, s.2)
      | Panic why => Panic why
      | OutOfFuel => OutOfFuel
      end
  | HbDrop k =>
      match s.2 !! k with
      | Some b => Done ((hb_drop b s.1.1, s.1.2), delete k s.2)
      | None => Done s
      end
  end.

Fixpoint hb_run (ops : list hb_op) (s : (HostBufferCache * Y) * list HostBuffer) :
    outcome ((HostBufferCache * Y) * list HostBuffer) :=
  match ops with
  | [] => Done s
  | o :: ops => match hb_exec o s with Done s => hb_run ops s | Panic w => Panic w | OutOfFuel => OutOfFuel end
  end.

Lemma find_free_sound size l n i :
  find_free size l = Some (n, i) -> exists X, (n, X) ∈ l /\ i ∈ X /\ size <= n.
Proof.
  induction l as [|[n' X] l IH]; simpl; [done|].
  destruct (Z.ltb_spec n' size) as [Hlt|Hge].
  { intros Hf. destruct (IH Hf) as (X' & ? & ?). exists X'. set_solver. }
  destruct (iter_set X) as [|i' rest] eqn:E.
  { intros Hf. destruct (IH Hf) as (X' & ? & ?). exists X'. set_solver. }
  intros [= -> ->]. exists X. split; [set_solver|]. split; [|lia].
  apply elem_of_elements. rewrite <- iter_set_elems, E. set_solver.
Qed.

Lemma find_free_free size c n i :
  find_free size (iter_map (free_bufs c)) = Some (n, i) -> is_free c n i /\ size <= n.
Proof.
  intros (X & Hin & Hi & Hle)%find_free_sound. split; [|done]. exists X. split; [|done].
  apply elem_of_map_to_list. by rewrite <- iter_map_perm.
Qed.

Lemma find_free_complete size l n X i :
  (n, X) ∈ l -> i ∈ X -> size <= n -> find_free size l <> None.
Proof.
  intros Hin Hi Hle. induction l as [|[n' X'] l IH]; [set_solver|]. simpl.
  apply elem_of_cons in Hin as [[= <- <-]|Hin].
  - rewrite (proj2 (Z.ltb_ge n size)) by lia.
    apply elem_of_elements in Hi. rewrite <- iter_set_elems in Hi. by destruct (iter_set X); [set_solver|].
  - case_match; [by apply IH|]. case_match; [by apply IH|done].
Qed.

Lemma find_free_none size c n i :
  size <= n -> is_free c n i -> find_free size (iter_map (free_bufs c)) = None -> False.
Proof.
  intros Hle (X & HX & Hi). eapply find_free_complete; [|done..].
  rewrite iter_map_perm. by apply elem_of_map_to_list.
Qed.

(** What one allocation does to a well-formed cache: it returns; a success hands out a buffer of
    at least the size asked for. *)
Lemma allocate_spec size c y live :
  hb_wf c live -> 0 <= size <= 2 ^ 62 ->
  exists r c' y', allocate size (c, y) = Done (r, (c', y')) /\
    match r with
    | Ok b => hb_wf c' (b :: live) /\ size <= hb_length b
    | Err _ => c' = c
    end.
Proof.
  intros [Ho Hd Hf] Hsz. unfold allocate. cbn [fst snd].
  destruct (find_free size (iter_map (free_bufs c))) as [[n i]|] eqn:E.
  - apply find_free_free in E as [Hfree Hle]. destruct (Hf n i Hfree) as [Hi (e & He & Hn)].
    rewrite He. eexists _, _, _. split; [reflexivity|]. cbv beta iota. split; [|exact Hle]. split; simpl.
    + constructor; [|done]. by exists e.
    + constructor; [done|done].
    + intros n' i' (X & HX & Hi'). simpl in HX. rewrite lookup_insert in HX.
      destruct Hfree as (X0 & HX0 & Hi0). case_decide as Heq; simplify_eq.
      * rewrite HX0 in Hi'. simpl in Hi'. destruct (Hf (hbe_size e) i') as [? ?]; [exists X0; set_solver|]. set_solver.
      * destruct (Hf n' i') as [Hn' (e' & He' & Hs')]; [by exists X|]. split; [|by exists e'].
        apply not_elem_of_cons. split; [|done]. intros ->. rewrite He in He'. simplify_eq.
  - destruct (next_power_bounds size Hsz) as [Hle Hpow]. unfold entry_new.
    rewrite (proj2 (Z.ltb_ge isize_max _)) by (unfold isize_max; lia). unfold bind, call.
    destruct (alloc_storage _ y) as [p y1]. destruct (register p _ y1) as [[h|er] y2];
      (eexists _, _, _; split; [reflexivity|]); [|done]. cbv beta iota. split.
    + split; simpl.
      * constructor.
        { eexists. split; [apply list_lookup_middle; done|done]. }
        eapply Forall_impl; [exact Ho|]. intros b (e & He & ?). exists e. split; [|done].
        by apply lookup_app_l_Some.
      * constructor; [|done]. intros (b & Hb & Hin)%list_elem_of_fmap.
        eapply Forall_forall in Ho as (e & He & _); [|exact Hin].
        apply lookup_lt_Some in He. lia.
      * intros n i (X & HX & Hi). destruct (Hf n i) as [Hn (e & He & Hs)]; [by exists X|].
        split; [|exists e; split; [by apply lookup_app_l_Some|done]].
        apply not_elem_of_cons. split; [|done]. apply lookup_lt_Some in He. lia.
    + cbn [hb_length buffer_of]. done.
Qed.

(** Where the buffer comes from: a free entry, or a new one. *)
Lemma allocate_entry size c y r c' y' :
  allocate size (c, y) = Done (r, (c', y')) ->
  ((exists b, r = Ok b) /\ y' = y /\ hb_buffers c' = hb_buffers c) \/
  (exists b e, r = Ok b /\ entry_new (next_power_of_two size) y = Done (Ok e, y') /\
     hb_buffers c' = hb_buffers c ++ [e]) \/
  (exists er, r = Err er /\ entry_new (next_power_of_two size) y = Done (Err er, y') /\ c' = c).
Proof.
  unfold allocate. cbn [fst snd]. destruct (find_free size (iter_map (free_bufs c))) as [[n i]|].
  - destruct (hb_buffers c !! i); intros; simplify_eq. left. eauto.
  - destruct (entry_new (next_power_of_two size) y) as [[[e|er] y1]| |]; intros; simplify_eq; right; eauto 7.
Qed.

(** Sizes whose next power of two can be allocated. *)
Definition hb_sizes_ok (o : hb_op) : Prop :=
  match o with HbAlloc size => 0 <= size <= 2 ^ 62 | HbDrop _ => True end.

Lemma hb_run_wf ops c y live :
  hb_wf c live -> Forall hb_sizes_ok ops ->
  exists c' y' live', hb_run ops ((c, y), live) = Done ((c', y'), live') /\ hb_wf c' live'.
Proof.
  intros Hwf Hops. revert c y live Hwf.
  induction Hops as [|o ops Ho Hops IH]; intros c y live Hwf; [by exists c, y, live|].
  cbn [hb_run]. destruct o as [size|k]; cbn [hb_exec fst snd].
  - destruct (allocate_spec size c y live Hwf Ho) as (r & c' & y' & Hrun & Hr). rewrite Hrun.
    destruct r as [b|e]; [apply IH, Hr|]. subst. by apply IH.
  - destruct (live !! k) as [b|] eqn:E; [|by apply IH]. apply IH. by eapply hb_drop_wf.
Qed.

(** *** Storage and registrations *)

(** What the program relies on: the allocator returns a block apart from those in use; freeing
    removes that block; a registration that succeeds is in force for that address and size. *)
Class HostLaws := {
  blocks : Y -> gset (Z * Z);
  registered : Y -> gset (MemoryRegionHandle * (Z * Z));
  alloc_law size y p y' : 1 <= size -> alloc_storage size y = (p, y') ->
    blocks y' = {[(p, size)]} ∪ blocks y /\ (forall b, b ∈ blocks y -> apart p size b.1 b.2) /\
    registered y' = registered y;
  free_law p n y : blocks (free_storage p n y) = blocks y ∖ {[(p, n)]} /\
    registered (free_storage p n y) = registered y;
  register_law p n y r y' : register p n y = (r, y') ->
    blocks y' = blocks y /\
    registered y' = match r with Ok h => {[(h, (p, n))]} ∪ registered y | Err _ => registered y end;
}.
Context `{HostLaws}.

Definition block_of (e : HostBufferEntry) : Z * Z := (hbe_storage e, hbe_size e).

(** The entries of the cache are blocks of the allocator, apart from each other, registered under
    their handles. *)
Record entries_ok (l : list HostBufferEntry) (y : Y) : Prop := {
  eo_block : forall e, e ∈ l -> block_of e ∈ blocks y;
  eo_registered : forall e, e ∈ l -> (hbe_mr_handle e, block_of e) ∈ registered y;
  eo_apart : forall i j e e', i <> j -> l !! i = Some e -> l !! j = Some e' ->
    apart (hbe_storage e) (hbe_size e) (hbe_storage e') (hbe_size e');
}.

Lemma entry_new_ok l size y r y' :
  entries_ok l y -> 1 <= size -> entry_new size y = Done (r, y') ->
  match r with
  | Ok e => hbe_size e = size /\ entries_ok (l ++ [e]) y'
  | Err _ => entries_ok l y'
  end.
Proof.
  intros [Hb Hr Ha] Hsz. unfold entry_new. destruct (isize_max <? size); [done|]. unfold bind, call.
  destruct (alloc_storage size y) as [p y1] eqn:Ea. destruct (alloc_law _ _ _ _ Hsz Ea) as (B1 & Ap & R1).
  destruct (register p size y1) as [[h|er] y2] eqn:Er; destruct (register_law _ _ _ _ _ Er) as [B2 R2].
  - intros Hrun. cbv [ret] in Hrun. simplify_eq. split; [done|].
    assert (forall e, e ∈ l -> apart p size (hbe_storage e) (hbe_size e)) as Hl by (intros e He; by apply (Ap (block_of e)), Hb).
    split.
    + intros e [He|Hs]%elem_of_app; rewrite B2, B1; [apply elem_of_union_r; by apply Hb|]. apply list_elem_of_singleton in Hs as ->. set_solver.
    + intros e [He|Hs]%elem_of_app; rewrite R2, R1; [apply elem_of_union_r; by apply Hr|]. apply list_elem_of_singleton in Hs as ->. set_solver.
    + intros i j e e' Hij [Hi|[Hi1 Hi]]%lookup_app_Some [Hj|[Hj1 Hj]]%lookup_app_Some.
      * by eapply Ha.
      * apply list_lookup_singleton_Some in Hj as [_ <-]. apply list_elem_of_lookup_2, Hl in Hi. unfold apart in *; simpl in *. lia.
      * apply list_lookup_singleton_Some in Hi as [_ <-]. by apply list_elem_of_lookup_2, Hl in Hj.
      * apply list_lookup_singleton_Some in Hi as [? _]. apply list_lookup_singleton_Some in Hj as [? _]. lia.
  - intros Hrun. cbv [modify ret] in Hrun. simplify_eq. destruct (free_law p size y2) as [B3 R3]. split; [|by rewrite R3, R2, R1|done].
    intros e He. rewrite B3, B2, B1. apply elem_of_difference. split; [apply elem_of_union_r; by apply Hb|].
    intros Heq%elem_of_singleton. pose proof (Ap _ (Hb e He)) as Hp. rewrite Heq in Hp. unfold apart in Hp. simpl in Hp. lia.
Qed.

Lemma allocate_entries_ok size c y r c' y' :
  entries_ok (hb_buffers c) y -> 0 <= size <= 2 ^ 62 -> allocate size (c, y) = Done (r, (c', y')) ->
  entries_ok (hb_buffers c') y'.
Proof.
  intros Hok Hs Hrun. destruct (next_power_bounds size Hs) as [_ [Hp _]].
  destruct (allocate_entry _ _ _ _ _ _ Hrun) as [(_ & -> & ->)|[(b & e & _ & He & ->)|(er & _ & He & ->)]]; [done|..];
    pose proof (entry_new_ok _ _ _ _ _ Hok Hp He); naive_solver.
Qed.

Lemma hb_run_ok ops c y live :
  hb_wf c live -> entries_ok (hb_buffers c) y -> Forall hb_sizes_ok ops ->
  exists c' y' live', hb_run ops ((c, y), live) = Done ((c', y'), live') /\ hb_wf c' live' /\ entries_ok (hb_buffers c') y'.
Proof.
  intros Hwf Hok Hops. revert c y live Hwf Hok.
  induction Hops as [|o ops Ho Hops IH]; intros c y live Hwf Hok; [by exists c, y, live|].
  cbn [hb_run]. destruct o as [size|k]; cbn [hb_exec fst snd].
  - destruct (allocate_spec size c y live Hwf Ho) as (r & c' & y' & Hrun & Hr).
    pose proof (allocate_entries_ok _ _ _ _ _ _ Hok Ho Hrun) as Hok'. rewrite Hrun.
    destruct r as [b|e]; [by apply IH; [apply Hr|]|]. subst. by apply IH.
  - destruct (live !! k) as [b|] eqn:E; [|by apply IH]. apply IH; [by eapply hb_drop_wf|done].
Qed.


(** An allocation serves the request.  From a cache in any state of such a run, it returns;
    if it succeeds the buffer has at least the size asked for, and it registers nothing when a
    free buffer was large enough. *)
Theorem allocate_serves size c y live :
  hb_wf c live -> 0 <= size <= 2 ^ 62 ->
  exists r c' y', allocate size (c, y) = Done (r, (c', y')) /\
    match r with
    | Ok b => hb_wf c' (b :: live) /\ size <= hb_length b
    | Err _ => c' = c
    end /\
    ((exists n i, is_free c n i /\ size <= n) -> y' = y /\ exists b, r = Ok b).
Proof.
  intros Hwf Hs. destruct (allocate_spec size c y live Hwf Hs) as (r & c' & y' & Hrun & Hr).
  exists r, c', y'. split; [done|]. split; [done|]. intros (n & i & Hfree & Hle).
  unfold allocate in Hrun. cbn [fst snd] in Hrun.
  destruct (find_free size (iter_map (free_bufs c))) as [[n' i']|] eqn:E.
  { destruct (hb_buffers c !! i'); [|done]. simplify_eq. eauto. }
  exfalso. eapply find_free_none; [done|exact Hfree|exact E].
Qed.
End Allocate.

(** Larger requests: from there to 2^63 the vector cannot be made; above, the next power of two
    overflows to 0 and the buffer handed out is empty. *)
Lemma huge_allocation_panics {Y} al fr (rg : Z -> Z -> Y -> res Z * Y) iter_map iter_set size c y :
  2 ^ 62 < size <= 2 ^ 63 -> find_free iter_set size (iter_map (free_bufs c)) = None ->
  allocate al fr rg iter_map iter_set size (c, y) = Panic "capacity overflow".
Proof.
  intros Hs Hn. unfold allocate. cbn [fst snd]. rewrite Hn.
  assert (next_power_of_two size = 2 ^ 63) as ->.
  { assert (Z.log2_up size = 63) as E by (apply Z.log2_up_unique; lia). unfold next_power_of_two. rewrite E. done. }
  done.
Qed.

(** ** A concrete allocator and engine *)
Record HostSim := { hs_next : Z; hs_blocks : gset (Z * Z); hs_regs : gset (MemoryRegionHandle * (Z * Z)) }.

Definition bump (size : Z) (y : HostSim) : Z * HostSim :=
  let p := set_fold (fun b m => Z.max (b.1 + b.2) m) (hs_next y) (hs_blocks y) in
  (p, {| hs_next := hs_next y; hs_blocks := {[(p, size)]} ∪ hs_blocks y; hs_regs := hs_regs y |}).
Definition bump_free (p n : Z) (y : HostSim) : HostSim :=
  {| hs_next := hs_next y; hs_blocks := hs_blocks y ∖ {[(p, n)]}; hs_regs := hs_regs y |}.
(** Registrations of 64 bytes fail. *)
Definition bump_register (p n : Z) (y : HostSim) : res MemoryRegionHandle * HostSim :=
  if n =? 64 then (Err (Custom "refused"), y)
  else (Ok p, {| hs_next := hs_next y; hs_blocks := hs_blocks y; hs_regs := {[(p, (p, n))]} ∪ hs_regs y |}).

Lemma bump_above (l : list (Z * Z)) m b :
  b ∈ l -> b.1 + b.2 <= foldr (fun b m => Z.max (b.1 + b.2) m) m l.
Proof. induction l as [|x l IH]; [set_solver|]. intros [->|Hin]%elem_of_cons; simpl; [lia|]. specialize (IH Hin). lia. Qed.

Lemma bump_fresh size y p y' :
  bump size y = (p, y') -> hs_blocks y' = {[(p, size)]} ∪ hs_blocks y /\
    (forall b, b ∈ hs_blocks y -> apart p size b.1 b.2) /\ hs_regs y' = hs_regs y.
Proof.
  unfold bump. intros Hrun. simplify_eq. split; [done|]. split; [|done]. intros b Hb.
  right. unfold set_fold. simpl. apply bump_above. by apply elem_of_elements.
Qed.

Lemma bump_registered p n y r y' :
  bump_register p n y = (r, y') -> hs_blocks y' = hs_blocks y /\
    hs_regs y' = match r with Ok h => {[(h, (p, n))]} ∪ hs_regs y | Err _ => hs_regs y end.
Proof. unfold bump_register. destruct (n =? 64); intros; by simplify_eq. Qed.

Lemma bump_freed p n y :
  hs_blocks (bump_free p n y) = hs_blocks y ∖ {[(p, n)]} /\ hs_regs (bump_free p n y) = hs_regs y.
Proof. done. Qed.

#[export] Instance bump_laws : HostLaws bump bump_free bump_register := {|
  blocks := hs_blocks; registered := hs_regs;
  alloc_law size y p y' _ := bump_fresh size y p y';
  free_law := bump_freed;
  register_law := bump_registered |}.

Definition host_start : HostSim := {| hs_next := 4096; hs_blocks := ∅; hs_regs := ∅ |}.

Definition example_ops : list hb_op := [HbAlloc 100; HbAlloc 20; HbAlloc 60; HbDrop 1; HbAlloc 30; HbAlloc 200].


Lemma allocate_serves_witness :
  exists r c' y', allocate bump bump_free bump_register map_to_list elements 30 (cache_new, host_start) = Done (r, (c', y')) /\
    match r with
    | Ok b => hb_wf c' [b] /\ 30 <= hb_length b
    | Err _ => c' = cache_new
    end /\
    ((exists n i, is_free cache_new n i /\ 30 <= n) -> y' = host_start /\ exists b, r = Ok b).
Proof.
  apply (allocate_serves bump bump_free bump_register map_to_list elements (fun m => reflexivity _)
    (fun X => reflexivity _) 30 cache_new host_start []).
  - apply cache_new_wf.
  - split; vm_compute; discriminate.
Defined.
