(* ===== verification/TopoParse.v ===== *)
(** * Text of the system files

    The parsing half of [fabric-lib/src/topo.rs]: PCI addresses, CPU lists, hexadecimal ids, and the
    kernel version of [mr.rs].  A string is the list of its UTF-8 bytes, as in [Utils]; slicing
    inside a character panics.  [trim] removes ASCII white space (the files read here are ASCII). *)
From stdpp Require Import prelude gmap strings list.
From S2P Require Import Prelude Api Utils.
Local Open Scope Z_scope.

(** ** Standard library functions on strings *)
Definition is_space (c : Z) : bool := ((9 <=? c) && (c <=? 13)) || (c =? 32).

Fixpoint trim_start (s : list Z) : list Z :=
  match s with
  | c :: r => if is_space c then trim_start r else s
  | [] => []
  end.
Definition trim (s : list Z) : list Z := reverse (trim_start (reverse (trim_start s))).

(** [char::to_digit(radix)]. *)
Definition radix_digit (radix c : Z) : option Z :=
  match digit_of c with
  | Some d => if d <? radix then Some d else None
  | None => None
  end.

(** The digits of [from_str_radix], with [checked_mul] and [checked_add] against the largest value
    of the type. *)
Fixpoint parse_digits (radix limit acc : Z) (s : list Z) : option Z :=
  match s with
  | [] => Some acc
  | c :: s =>
      match radix_digit radix c with
      | Some d => let v := acc * radix + d in if v <? limit then parse_digits radix limit v s else None
      | None => None
      end
  end.

(** [uN::from_str_radix] and [str::parse::<uN>]: not empty, not a lone sign, a leading [+] is
    skipped. *)
Definition from_str_radix (radix w : Z) (s : list Z) : option Z :=
  match s with
  | [] => None
  | [c] => if (c =? 43) || (c =? 45) then None else parse_digits radix (2 ^ w) 0 s
  | c :: r => if c =? 43 then parse_digits radix (2 ^ w) 0 r else parse_digits radix (2 ^ w) 0 s
  end.
Definition parse_u16 (s : list Z) : option Z := from_str_radix 10 16 s.
Definition parse_u32 (s : list Z) : option Z := from_str_radix 10 32 s.
Definition parse_usize (s : list Z) : option Z := from_str_radix 10 64 s.

(** [s.split(c)]: the pieces between the separators, at least one. *)
Fixpoint split (sep : Z) (s : list Z) : list (list Z) :=
  match s with
  | [] => [[]]
  | c :: s =>
      let rest := split sep s in
      if c =? sep then [] :: rest
      else match rest with p :: ps => (c :: p) :: ps | [] => [[c]] end
  end.

(** [s.find(c)]: the text before and after the first occurrence. *)
Fixpoint split_once (sep : Z) (s : list Z) : option (list Z * list Z) :=
  match s with
  | [] => None
  | c :: r => if c =? sep then Some ([], r)
              else (fun ab => (c :: ab.1, ab.2)) <$> split_once sep r
  end.

(** [strip_prefix] and [starts_with]. *)
Fixpoint strip_prefix (p s : list Z) : option (list Z) :=
  match p, s with
  | [], _ => Some s
  | a :: p, b :: s => if a =? b then strip_prefix p s else None
  | _ :: _, [] => None
  end.
Definition starts_with (p s : list Z) : bool := bool_decide (is_Some (strip_prefix p s)).

(** [s.lines()]: a final line break ends the last line, a carriage return before it is removed. *)
Definition chomp (l : list Z) : list Z :=
  match reverse l with 13 :: r => reverse r | _ => l end.
Definition lines (s : list Z) : list (list Z) :=
  let ps := split 10 s in
  chomp <$> (match reverse ps with [] :: r => reverse r | _ => ps end).

(** [&s[a..b]]. *)
Definition slice (a b : nat) (s : list Z) : outcome (list Z) :=
  if negb (b <=? length s)%nat then Panic "byte index is out of bounds"
  else if negb (at_boundary (drop a s)) || negb (at_boundary (drop b s))
  then Panic "byte index is not a char boundary"
  else Done (take (b - a) (drop a s)).

(** Text literals. *)
Definition bytes_of (s : string) : list Z :=
  (fun a => Z.of_N (Ascii.N_of_ascii a)) <$> String.list_ascii_of_string s.

(** ** PCI addresses *)
Record PciAddress := { pci_domain : Z; pci_bus : Z; pci_device : Z; pci_function : Z }.

#[export] Instance PciAddress_eq_dec : EqDecision PciAddress.
Proof. solve_decision. Defined.
#[export] Program Instance PciAddress_countable : Countable PciAddress :=
  inj_countable' (fun a => (pci_domain a, pci_bus a, pci_device a, pci_function a))
    (fun t => {| pci_domain := t.1.1.1; pci_bus := t.1.1.2; pci_device := t.1.2; pci_function := t.2 |}) _.
Next Obligation. by intros []. Qed.

(** [{:0wx}]: at least [w] digits. *)
Fixpoint hex_digits (fuel : nat) (v : Z) : list Z :=
  match fuel with
  | O => []
  | S fuel => (if v <? 16 then [] else hex_digits fuel (v / 16)) ++ [hex_digit (v mod 16)]
  end.
Definition hex_pad (w : nat) (v : Z) : list Z :=
  let d := hex_digits 4 v in replicate (w - length d) 48 ++ d.

Definition pci_display (a : PciAddress) : list Z :=
  hex_pad 4 (pci_domain a) ++ [58] ++ hex_pad 2 (pci_bus a) ++ [58] ++ hex_pad 2 (pci_device a) ++
  [46] ++ hex_pad 1 (pci_function a).

Definition get_sys_path (a : PciAddress) : list Z := bytes_of "/sys/bus/pci/devices/" ++ pci_display a.

Definition out_bind {A B} (o : outcome A) (k : A -> outcome B) : outcome B :=
  match o with Done a => k a | Panic why => Panic why | OutOfFuel => OutOfFuel end.

(** One field: [from_str_radix(&addr[a..b], 16).map_err(|_| why)?]. *)
Definition pci_field (w : Z) (a b : nat) (s : list Z) (why : string) : outcome (result string Z) :=
  out_map (fun t => match from_str_radix 16 w t with Some v => Ok v | None => Err why end) (slice a b s).

(** [&addr[a..b] == c], and the short-circuiting [&&]. *)
Definition sep_at (a b : nat) (c : Z) (s : list Z) : outcome bool :=
  out_map (fun t => bool_decide (t = [c])) (slice a b s).

Definition out_and (x : outcome bool) (y : outcome bool) : outcome bool :=
  out_bind x (fun b => if b : bool then y else Done false).

Definition res_bind {A B} (o : outcome (result string A)) (k : A -> outcome (result string B)) :
    outcome (result string B) :=
  out_bind o (fun r => match r with Ok a => k a | Err e => Done (Err e) end).

Definition pci_from_str (s : list Z) : outcome (result string PciAddress) :=
  if negb (length s =? 12)%nat then Done (Err "PCI address must be 12 characters long"%string)
  else
    out_bind (out_and (sep_at 4 5 58 s) (out_and (sep_at 7 8 58 s) (sep_at 10 11 46 s))) (fun ok =>
    if negb ok then
      Done (Err "Invalid PCI address format, expected domain:bus:device.function"%string)
    else
      res_bind (pci_field 16 0 4 s "Invalid domain") (fun domain =>
      res_bind (pci_field 8 5 7 s "Invalid bus") (fun bus =>
      res_bind (pci_field 8 8 10 s "Invalid device") (fun device =>
      res_bind (pci_field 8 11 12 s "Invalid function") (fun function_ =>
      Done (Ok {| pci_domain := domain; pci_bus := bus; pci_device := device;
                  pci_function := function_ |})))))).

(** [From<&cudaDeviceProp>]: the [as] casts of the [i32] fields. *)
Definition pci_of_cuda (domain_id bus_id device_id : Z) : PciAddress :=
  {| pci_domain := as_u16 domain_id; pci_bus := as_u8 bus_id; pci_device := as_u8 device_id;
     pci_function := 0 |}.

(** [From<&VerbsDeviceInfo>], given the base name of the device link ([to_string_lossy]): every
    failure panics, the separators are not checked. *)
Definition field_expect (w : Z) (a b : nat) (s : list Z) (why : string) : outcome Z :=
  out_bind (slice a b s) (fun t =>
    match from_str_radix 16 w t with Some v => Done v | None => Panic why end).

Definition pci_of_verbs (s : list Z) : outcome PciAddress :=
  if negb (length s =? 12)%nat then Panic "Unexpected verbs PCI address format"
  else
    out_bind (field_expect 16 0 4 s "Failed to parse domain") (fun domain =>
    out_bind (field_expect 8 5 7 s "Failed to parse bus") (fun bus =>
    out_bind (field_expect 8 8 10 s "Failed to parse device") (fun device =>
    out_bind (field_expect 8 11 12 s "Failed to parse function") (fun function_ =>
    Done {| pci_domain := domain; pci_bus := bus; pci_device := device; pci_function := function_ |})))).

(** ** CPU lists, ids and versions *)

(** [start..=end]. *)
Definition range_incl (a b : Z) : list Z := seqZ a (b - a + 1).

Definition parse_part (part : list Z) : list Z :=
  match split_once 45 part with
  | Some (before, after) =>
      match parse_u16 (trim before), parse_u16 (trim after) with
      | Some start, Some end_ => range_incl start end_
      | _, _ => []
      end
  | None => match parse_u16 (trim part) with Some num => [num] | None => [] end
  end.

Definition parse_comma_dash_int_list (s : list Z) : list Z := mjoin (parse_part <$> split 44 s).

Definition parse_0xhex_u16 (s : list Z) : outcome Z :=
  match strip_prefix (bytes_of "0x") (trim s) with
  | None => Panic "Not a hex string"
  | Some digits =>
      match from_str_radix 16 16 digits with
      | Some v => Done v
      | None => Panic "Failed to parse hex string as u16"
      end
  end.

(** [LINUX_KERNEL_SUPPORTS_DMA_BUF] of [mr.rs], given what reading the kernel's release gives. *)
Definition linux_kernel_supports_dma_buf (osrelease : option (list Z)) : bool :=
  match osrelease with
  | None => false
  | Some version =>
      let parts := split 46 version in
      let major := default 0 (parts !! 0%nat ≫= parse_u32) in
      let minor := default 0 (parts !! 1%nat ≫= parse_u32) in
      (5 <? major) || ((major =? 5) && (12 <=? minor))
  end.

Example parse_list_ex :
  parse_comma_dash_int_list (bytes_of "0-3,8, 10-11
") = [0; 1; 2; 3; 8; 10; 11].
Proof. reflexivity. Qed.
Example pci_ex : pci_from_str (bytes_of "0000:3b:00.1") =
  Done (Ok {| pci_domain := 0; pci_bus := 59; pci_device := 0; pci_function := 1 |}).
Proof. reflexivity. Qed.
Example dma_ex : linux_kernel_supports_dma_buf (Some (bytes_of "5.15.0-91-generic")) = true.
Proof. reflexivity. Qed.

(** ** PCI addresses round-trip *)
Definition nibble (d : Z) : Prop := 0 <= d < 16.

Lemma hex_digit_ascii d : nibble d -> 48 <= hex_digit d <= 102.
Proof. unfold nibble, hex_digit. intros Hd. case_match; rewrite ?Z.ltb_lt, ?Z.ltb_ge in *; lia. Qed.

Lemma radix_hex_digit d : nibble d -> radix_digit 16 (hex_digit d) = Some d.
Proof.
  intros Hd. unfold radix_digit. rewrite (proj1 (hex_digit_roundtrip d Hd)).
  by rewrite (proj2 (Z.ltb_lt d 16)) by (unfold nibble in Hd; lia).
Qed.

Definition value_of (acc : Z) (ds : list Z) : Z := foldl (fun a d => a * 16 + d) acc ds.

Lemma value_of_ge ds acc : 0 <= acc -> Forall nibble ds -> acc <= value_of acc ds.
Proof.
  intros Ha Hd. revert acc Ha. induction Hd as [|d ds Hd Hds IH]; intros acc Ha; simpl; [done|].
  unfold nibble in Hd. specialize (IH (acc * 16 + d) ltac:(lia)). unfold value_of in *. simpl. lia.
Qed.

Lemma parse_hex_digits limit ds acc :
  0 <= acc -> Forall nibble ds -> value_of acc ds < limit ->
  parse_digits 16 limit acc (hex_digit <$> ds) = Some (value_of acc ds).
Proof.
  intros Ha Hd. revert acc Ha. induction Hd as [|d ds Hd Hds IH]; intros acc Ha Hl; [done|].
  csimpl. rewrite radix_hex_digit by done. unfold nibble in Hd.
  pose proof (value_of_ge ds (acc * 16 + d) ltac:(lia) Hds) as Hge. unfold value_of in *. simpl in *.
  rewrite (proj2 (Z.ltb_lt _ _)) by lia. by apply IH; [lia|].
Qed.

Lemma from_hex_digits w d ds :
  Forall nibble (d :: ds) -> value_of 0 (d :: ds) < 2 ^ w ->
  from_str_radix 16 w (hex_digit <$> d :: ds) = Some (value_of 0 (d :: ds)).
Proof.
  intros Hd Hl. pose proof (parse_hex_digits (2 ^ w) (d :: ds) 0 ltac:(lia) Hd Hl) as Hp.
  inversion Hd as [|? ? Hd0 _]; subst. pose proof (hex_digit_ascii d Hd0). unfold from_str_radix.
  assert ((hex_digit d =? 43) = false) as E1 by (apply Z.eqb_neq; lia).
  assert ((hex_digit d =? 45) = false) as E2 by (apply Z.eqb_neq; lia).
  csimpl in *. rewrite E1, E2. destruct (hex_digit <$> ds); exact Hp.
Qed.

Ltac dm := Z.to_euclidean_division_equations; lia.

(** The digits of a padded number. *)
Definition nibbles4 (v : Z) : list Z := [v / 4096; v / 256 mod 16; v / 16 mod 16; v mod 16].
Definition nibbles2 (v : Z) : list Z := [v / 16; v mod 16].

Lemma hex_pad4 v : 0 <= v < 65536 -> hex_pad 4 v = hex_digit <$> nibbles4 v.
Proof.
  intros Hv. unfold hex_pad, nibbles4. cbn [hex_digits].
  rewrite !Z.div_div by lia. change (16 * 16 * 16) with 4096. change (16 * 16) with 256.
  destruct (Z.ltb_spec v 16).
  { rewrite (Z.div_small v 4096), (Z.div_small v 256), (Z.div_small v 16) by dm. done. }
  destruct (Z.ltb_spec (v / 16) 16).
  { rewrite (Z.div_small v 4096), (Z.div_small v 256) by dm. done. }
  destruct (Z.ltb_spec (v / 256) 16).
  { rewrite (Z.div_small v 4096) by dm. done. }
  rewrite (proj2 (Z.ltb_lt (v / 4096) 16)) by dm. csimpl.
  rewrite (Z.mod_small (v / 4096)) by dm. done.
Qed.

Lemma hex_pad2 v : 0 <= v < 256 -> hex_pad 2 v = hex_digit <$> nibbles2 v.
Proof.
  intros Hv. unfold hex_pad, nibbles2. cbn [hex_digits]. destruct (Z.ltb_spec v 16).
  { rewrite (Z.div_small v 16) by dm. done. }
  rewrite (proj2 (Z.ltb_lt (v / 16) 16)) by dm. csimpl. rewrite (Z.mod_small (v / 16)) by dm. done.
Qed.

Lemma hex_pad1 v : 0 <= v < 16 -> hex_pad 1 v = [hex_digit v].
Proof.
  intros Hv. unfold hex_pad. cbn [hex_digits]. rewrite (proj2 (Z.ltb_lt v 16)) by dm.
  simpl. by rewrite (Z.mod_small v) by dm.
Qed.

Lemma nibbles4_ok v : 0 <= v < 65536 -> Forall nibble (nibbles4 v) /\ value_of 0 (nibbles4 v) = v.
Proof.
  intros Hv. unfold nibbles4, value_of, nibble. split; [|simpl; dm].
  rewrite !Forall_cons. repeat split; try dm. constructor.
Qed.

Lemma nibbles2_ok v : 0 <= v < 256 -> Forall nibble (nibbles2 v) /\ value_of 0 (nibbles2 v) = v.
Proof.
  intros Hv. unfold nibbles2, value_of, nibble. split; [|simpl; dm].
  rewrite !Forall_cons. repeat split; try dm. constructor.
Qed.

Definition pci_ok (a : PciAddress) : Prop :=
  in_u 16 (pci_domain a) /\ in_u 8 (pci_bus a) /\ in_u 8 (pci_device a) /\ 0 <= pci_function a < 16.

(** Slices of text made of hexadecimal digits and separators. *)
Lemma at_boundary_ascii c s : 0 <= c < 128 -> at_boundary (c :: s) = true.
Proof. intros Hc. unfold at_boundary. by rewrite (proj2 (Z.leb_gt 128 c)) by lia. Qed.

(** A PCI address that is displayed and parsed again is the same address, for every domain,
    bus and device, and every function number a device can have (below 16). *)
Theorem pci_address_roundtrip a : pci_ok a -> pci_from_str (pci_display a) = Done (Ok a).
Proof.
  intros (Hdo & Hb & Hde & Hf). unfold in_u in *. destruct a as [do b de f]. cbn in Hdo, Hb, Hde, Hf.
  unfold pci_display. cbn [pci_domain pci_bus pci_device pci_function].
  rewrite hex_pad4, !hex_pad2, hex_pad1 by lia.
  pose proof (nibbles4_ok do Hdo) as [Ndo Vdo]. pose proof (nibbles2_ok b Hb) as [Nb Vb].
  pose proof (nibbles2_ok de Hde) as [Nde Vde].
  assert (value_of 0 (nibbles4 do) < 2 ^ 16) as Ldo by (rewrite Vdo; lia).
  assert (value_of 0 (nibbles2 b) < 2 ^ 8) as Lb by (rewrite Vb; lia).
  assert (value_of 0 (nibbles2 de) < 2 ^ 8) as Lde by (rewrite Vde; lia).
  pose proof (from_hex_digits 16 _ _ Ndo Ldo) as Pdo.
  pose proof (from_hex_digits 8 _ _ Nb Lb) as Pb.
  pose proof (from_hex_digits 8 _ _ Nde Lde) as Pde. clear Ldo Lb Lde.
  pose proof (from_hex_digits 8 f [] ltac:(by apply Forall_singleton) ltac:(unfold value_of; simpl; lia)) as Pf.
  unfold nibbles4, nibbles2 in *. rewrite ?Forall_cons in *. unfold nibble in *.
  set (d3 := do / 4096) in *. set (d2 := do / 256 mod 16) in *. set (d1 := do / 16 mod 16) in *.
  set (d0 := do mod 16) in *. set (b1 := b / 16) in *. set (b0 := b mod 16) in *.
  set (e1 := de / 16) in *. set (e0 := de mod 16) in *. clearbody d3 d2 d1 d0 b1 b0 e1 e0.
  assert (forall x, 0 <= x < 16 -> 0 <= hex_digit x < 128) as Hd.
  { intros x Hx. pose proof (hex_digit_ascii x Hx). lia. }
  cbn [fmap list_fmap app] in *.
  unfold pci_from_str, sep_at, pci_field, slice. cbn [length Nat.eqb negb Nat.leb drop Nat.sub].
  rewrite !at_boundary_ascii by (first [apply Hd; lia|lia]).
  cbn [negb orb take out_map out_bind out_and app at_boundary].
  rewrite !bool_decide_eq_true_2 by done. unfold res_bind. cbn [negb out_bind out_map].
  rewrite Pdo, Pb, Pde, Pf, Vdo, Vb, Vde. done.
Qed.

Lemma pci_address_roundtrip_witness :
  pci_from_str (pci_display {| pci_domain := 1; pci_bus := 59; pci_device := 31; pci_function := 7 |}) =
  Done (Ok {| pci_domain := 1; pci_bus := 59; pci_device := 31; pci_function := 7 |}).
Proof. apply pci_address_roundtrip. repeat split; vm_compute; congruence. Defined.

(** ** CPU lists

    The format the kernel prints: decimal numbers and ranges, separated by commas, and a line
    break. *)
Fixpoint dec_digits (fuel : nat) (v : Z) : list Z :=
  match fuel with
  | O => []
  | S fuel => (if v <? 10 then [] else dec_digits fuel (v / 10)) ++ [48 + v mod 10]
  end.
Definition dec (v : Z) : list Z := dec_digits 5 v.

Definition range_text (r : Z * Z) : list Z :=
  if r.1 =? r.2 then dec r.1 else dec r.1 ++ [45] ++ dec r.2.

Fixpoint cpulist_text (l : list (Z * Z)) : list Z :=
  match l with
  | [] => [10]
  | [r] => range_text r ++ [10]
  | r :: l => range_text r ++ [44] ++ cpulist_text l
  end.

Definition is_digit (c : Z) : Prop := 48 <= c <= 57.

Lemma dec_is_digits fuel v : 0 <= v -> Forall is_digit (dec_digits fuel v).
Proof.
  revert v. induction fuel as [|fuel IH]; intros v Hv; cbn [dec_digits]; [constructor|].
  apply Forall_app. split.
  - case_match; [constructor|]. apply IH. dm.
  - apply Forall_singleton. unfold is_digit. dm.
Qed.

Lemma parse_digits_snoc radix limit acc s c :
  parse_digits radix limit acc (s ++ [c]) =
  match parse_digits radix limit acc s, radix_digit radix c with
  | Some v, Some d => if v * radix + d <? limit then Some (v * radix + d) else None
  | _, _ => None
  end.
Proof.
  revert acc. induction s as [|x s IH]; intros acc; cbn [parse_digits app].
  - destruct (radix_digit radix c); [|done]. by case_match.
  - destruct (radix_digit radix x) as [d|]; [|done].
    destruct (acc * radix + d <? limit); [apply IH|done].
Qed.

Lemma radix_dec_digit d : 0 <= d < 10 -> radix_digit 10 (48 + d) = Some d.
Proof.
  intros Hd. unfold radix_digit, digit_of.
  assert (((48 <=? 48 + d) && (48 + d <=? 57)) = true) as -> by lia.
  rewrite (proj2 (Z.ltb_lt _ _)) by lia. f_equal. lia.
Qed.

Lemma parse_dec limit fuel v :
  0 <= v < 10 ^ Z.of_nat fuel -> v < limit -> fuel <> 0%nat ->
  parse_digits 10 limit 0 (dec_digits fuel v) = Some v.
Proof.
  revert v. induction fuel as [|fuel IH]; intros v Hv Hl Hf; [done|]. cbn [dec_digits].
  rewrite parse_digits_snoc, radix_dec_digit by dm. destruct (Z.ltb_spec v 10).
  - cbn [parse_digits]. rewrite Z.mod_small by lia. rewrite (proj2 (Z.ltb_lt _ _)) by lia. f_equal.
  - replace (Z.of_nat (S fuel)) with (Z.succ (Z.of_nat fuel)) in Hv by lia.
    rewrite Z.pow_succ_r in Hv by lia. rewrite IH.
    + rewrite (proj2 (Z.ltb_lt _ _)) by dm. f_equal. dm.
    + dm.
    + dm.
    + intros ->. simpl in Hv. lia.
Qed.

Lemma dec_nonempty v : exists c s, dec v = c :: s.
Proof. unfold dec. cbn [dec_digits]. case_match; [by eauto|]. destruct (_ ++ _) eqn:E; [|eauto]. by apply app_nil in E as [_ ?]. Qed.

Lemma parse_u16_dec v : 0 <= v < 65536 -> parse_u16 (dec v) = Some v.
Proof.
  intros Hv. pose proof (parse_dec (2 ^ 16) 5 v ltac:(simpl; lia) ltac:(lia) ltac:(done)) as Hp.
  fold (dec v) in Hp. pose proof (dec_is_digits 5 v ltac:(lia)) as Hd. fold (dec v) in Hd.
  unfold parse_u16, from_str_radix. destruct (dec_nonempty v) as (c & s & E). rewrite E in *.
  inversion Hd as [|? ? Hc _]; subst. unfold is_digit in Hc.
  assert ((c =? 43) = false) as E1 by lia. assert ((c =? 45) = false) as E2 by lia.
  rewrite E1, E2. by destruct s.
Qed.

(** Digits are not white space, commas, dashes or line breaks. *)
Lemma trim_start_digits c s : is_digit c -> trim_start (c :: s) = c :: s.
Proof. unfold is_digit. intros Hc. simpl. by replace (is_space c) with false by (unfold is_space; lia). Qed.

Lemma trim_digits s t :
  s <> [] -> Forall is_digit s -> t = [] \/ t = [10] -> trim (s ++ t) = s.
Proof.
  intros Hne Hs Ht. unfold trim. destruct s as [|c s]; [done|].
  cbn [app]. inversion Hs; subst. rewrite trim_start_digits by done.
  assert (trim_start (reverse (c :: s ++ t)) = reverse (c :: s)) as ->; [|by rewrite reverse_involutive].
  destruct (exists_last Hne) as (s' & x & E). rewrite E in *.
  change (c :: s ++ t) with ((c :: s) ++ t). rewrite E.
  assert (is_digit x) as Hx by (apply Forall_app in Hs as [_ Hx]; by inversion Hx).
  destruct Ht as [->| ->].
  - rewrite app_nil_r. rewrite reverse_app. apply trim_start_digits. done.
  - rewrite !reverse_app. cbn [reverse app rev_append]. unfold reverse at 1. simpl.
    change (is_space 10) with true. cbv iota. by apply (trim_start_digits x (reverse s')).
Qed.

Lemma split_none sep s : sep ∉ s -> split sep s = [s].
Proof.
  induction s as [|c s IH]; intros Hn; [done|]. cbn [split].
  apply not_elem_of_cons in Hn as [Hc Hs]. rewrite (proj2 (Z.eqb_neq c sep)) by done. by rewrite IH.
Qed.

Lemma split_app sep s t : sep ∉ s -> split sep (s ++ sep :: t) = s :: split sep t.
Proof.
  induction s as [|c s IH]; intros Hn; cbn [split app]; [by rewrite Z.eqb_refl|].
  apply not_elem_of_cons in Hn as [Hc Hs]. rewrite (proj2 (Z.eqb_neq c sep)) by done. by rewrite IH.
Qed.

Lemma split_once_none sep s : sep ∉ s -> split_once sep s = None.
Proof.
  induction s as [|c s IH]; intros Hn; [done|]. cbn [split_once].
  apply not_elem_of_cons in Hn as [Hc Hs]. rewrite (proj2 (Z.eqb_neq c sep)) by done. by rewrite IH.
Qed.

Lemma split_once_app sep s t : sep ∉ s -> split_once sep (s ++ sep :: t) = Some (s, t).
Proof.
  induction s as [|c s IH]; intros Hn; cbn [split_once app]; [by rewrite Z.eqb_refl|].
  apply not_elem_of_cons in Hn as [Hc Hs]. rewrite (proj2 (Z.eqb_neq c sep)) by done. by rewrite IH.
Qed.

Lemma dec_no c v : 0 <= v -> c < 48 -> c ∉ dec v.
Proof.
  intros Hv Hc Hin. pose proof (dec_is_digits 5 v Hv) as Hd.
  eapply Forall_forall in Hd; [|exact Hin]. unfold is_digit in Hd. lia.
Qed.

Definition range_ok (r : Z * Z) : Prop := 0 <= r.1 <= r.2 /\ r.2 < 65536.

Lemma range_text_no c r : range_ok r -> c < 48 -> c <> 45 -> c ∉ range_text r.
Proof.
  intros [[? ?] ?] Hc Hd. unfold range_text. case_match; [apply dec_no; lia|].
  intros [Hin|[Hin%list_elem_of_singleton|Hin]%elem_of_app]%elem_of_app; [|done|];
    revert Hin; apply dec_no; lia.
Qed.

Lemma dec_trim v t : 0 <= v -> t = [] \/ t = [10] -> trim (dec v ++ t) = dec v.
Proof.
  intros Hv Ht. apply trim_digits; [|by apply dec_is_digits|done].
  destruct (dec_nonempty v) as (c & s & ->). done.
Qed.

Lemma parse_range r t :
  range_ok r -> t = [] \/ t = [10] -> parse_part (range_text r ++ t) = range_incl r.1 r.2.
Proof.
  intros [[? ?] ?] Ht. unfold parse_part, range_text. destruct (Z.eqb_spec r.1 r.2) as [E|E].
  - rewrite split_once_none.
    + rewrite dec_trim by (done || lia). rewrite parse_u16_dec by lia. unfold range_incl.
      replace (r.2 - r.1 + 1) with 1 by lia. done.
    + intros [Hin|Hin]%elem_of_app; [revert Hin; apply dec_no; lia|]. destruct Ht; set_solver.
  - rewrite <- app_assoc. cbn [app]. rewrite split_once_app by (apply dec_no; lia).
    rewrite dec_trim by (done || lia).
    rewrite <- (app_nil_r (dec r.1)), dec_trim by (auto || lia).
    by rewrite !parse_u16_dec by lia.
Qed.

(** CPU lists are read as the kernel writes them.  For every list of ranges of 16-bit CPU
    numbers, parsing the text the kernel prints for it gives the CPUs of the ranges, in order. *)
Theorem cpulist_roundtrip l :
  Forall range_ok l ->
  parse_comma_dash_int_list (cpulist_text l) = mjoin ((fun r => range_incl r.1 r.2) <$> l).
Proof.
  intros Hl. unfold parse_comma_dash_int_list. induction Hl as [|r l Hr Hl IH]; [done|].
  destruct l as [|r' l].
  - cbn [cpulist_text]. rewrite split_none.
    + csimpl. by rewrite parse_range by auto.
    + intros [Hin|Hin]%elem_of_app; [revert Hin; by apply range_text_no|set_solver].
  - change (cpulist_text (r :: r' :: l)) with (range_text r ++ 44 :: cpulist_text (r' :: l)).
    rewrite split_app by by apply range_text_no. rewrite fmap_cons. cbn [mjoin list_join].
    rewrite <- (app_nil_r (range_text r)), parse_range by auto. rewrite fmap_cons. cbn [mjoin list_join].
    f_equal. exact IH.
Qed.

Lemma cpulist_roundtrip_witness :
  parse_comma_dash_int_list (cpulist_text [(0, 3); (8, 8); (128, 130)]) =
  mjoin ((fun r => range_incl r.1 r.2) <$> [(0, 3); (8, 8); (128, 130)]).
Proof. apply cpulist_roundtrip. repeat constructor; simpl; lia. Defined.
