(* ===== verification/Topo.v ===== *)
(** * Topology discovery

    [fabric-lib/src/topo.rs]: which network cards and CPUs go with which GPU.  PCI devices are
    grouped by NUMA node; the cards and the physical CPUs of a node are divided over its GPUs; what
    the process cannot see is dropped.  Also [transfer_engine_builder.rs], which checks a
    configuration against the topology.

    The system is a parameter: the contents of directories and files, the devices CUDA, libfabric
    and libibverbs list. *)
From stdpp Require Import prelude gmap strings list sorting.
From S2P Require Import Prelude Api Utils TopoParse Sharding Provider DomainGroup Worker.
Local Open Scope Z_scope.

(** [sort_by_key], which is stable. *)
Section Sort.
Context {A : Type} (le : A -> A -> bool).
Fixpoint insert_by (x : A) (l : list A) : list A :=
  match l with
  | [] => [x]
  | y :: r => if le x y then x :: l else y :: insert_by x r
  end.
Definition sort_by (l : list A) : list A := foldr insert_by [] l.
End Sort.

(** The derived order on addresses: field by field. *)
Definition pci_le (a b : PciAddress) : bool :=
  if pci_domain a =? pci_domain b then
    if pci_bus a =? pci_bus b then
      if pci_device a =? pci_device b then pci_function a <=? pci_function b
      else pci_device a <? pci_device b
    else pci_bus a <? pci_bus b
  else pci_domain a <? pci_domain b.

Record PciDeviceId := { id_vendor : Z; id_device : Z }.
#[export] Instance PciDeviceId_eq_dec : EqDecision PciDeviceId.
Proof. solve_decision. Defined.
#[export] Program Instance PciDeviceId_countable : Countable PciDeviceId :=
  inj_countable' (fun a => (id_vendor a, id_device a))
    (fun t => {| id_vendor := t.1; id_device := t.2 |}) _.
Next Obligation. by intros []. Qed.

Record PciProp := {
  pp_addr : PciAddress;
  pp_device_id : PciDeviceId;
  pp_numa_node : Z;
  pp_parent_bus : PciAddress;
  pp_branching_ancestor : PciAddress;
}.

(** Components of a path: a name, with whether it is valid UTF-8, or [..]. *)
Inductive PathComponent : Type := Normal (name : list Z) (utf8 : bool) | ParentDir.

(** Early returns of functions that only read. *)
Definition rbind {A B} (o : outcome (res A)) (k : A -> outcome (res B)) : outcome (res B) :=
  out_bind o (fun r => match r with Ok a => k a | Err e => Done (Err e) end).
Definition ok_or {A} (o : option A) (why : string) : outcome (res A) :=
  Done (match o with Some a => Ok a | None => Err (Custom why) end).

Section System.
(** [fs::read_to_string]. *)
Context (read_file : list Z -> option (list Z)).

Definition read_pci_device_id (a : PciAddress) : outcome (res PciDeviceId) :=
  let sys_path := get_sys_path a in
  rbind (ok_or (read_file (sys_path ++ bytes_of "/vendor")) "Failed to read PCI vendor") (fun v =>
  out_bind (parse_0xhex_u16 v) (fun vendor =>
  rbind (ok_or (read_file (sys_path ++ bytes_of "/device")) "Failed to read PCI device") (fun d =>
  out_bind (parse_0xhex_u16 d) (fun device =>
  Done (Ok {| id_vendor := vendor; id_device := device |}))))).

(** ** Scanning the PCI devices *)

(** An entry of [/sys/bus/pci/devices]: a symbolic link, and its target if it can be read. *)
Record PciEntry := { pe_symlink : bool; pe_target : option (list PathComponent) }.

(** [Path::file_name] and [Path::parent]. *)
Definition file_name (p : list PathComponent) : option (list Z * bool) :=
  match last p with Some (Normal n u) => Some (n, u) | _ => None end.
Definition parent (p : list PathComponent) : option (list PathComponent) :=
  match p with [] => None | _ => Some (removelast p) end.
Definition to_str (n : list Z * bool) : option (list Z) := if n.2 then Some n.1 else None.

Definition pci_parse (s : list Z) (why : string) : outcome (res PciAddress) :=
  out_map (fun r => match r with Ok a => Ok a | Err _ => Err (Custom why) end) (pci_from_str s).

Definition clear_low (a : PciAddress) : PciAddress :=
  {| pci_domain := pci_domain a; pci_bus := pci_bus a; pci_device := 0; pci_function := 0 |}.

(** One turn of the scan: [Ok None] is a [continue]. *)
Definition scan_entry (e : option PciEntry) : outcome (res (option PciProp)) :=
  rbind (ok_or e "Failed to read PCI entry") (fun e =>
  if negb (pe_symlink e) then Done (Ok None) else
  rbind (ok_or (pe_target e) "Failed to read symlink") (fun target =>
  rbind (ok_or (file_name target) "Failed to get file name") (fun name =>
  rbind (ok_or (to_str name) "Failed to convert to str") (fun addr_str =>
  rbind (ok_or (parent target) "Failed to get parent") (fun par =>
  rbind (ok_or (file_name par) "Failed to get parent file name") (fun pname =>
  rbind (ok_or (to_str pname) "Failed to convert parent to str") (fun parent_addr_str =>
  if negb (length addr_str =? 12)%nat || negb (length parent_addr_str =? 12)%nat then Done (Ok None) else
  rbind (pci_parse addr_str "Failed to parse PCI address") (fun addr =>
  rbind (pci_parse parent_addr_str "Failed to parse parent PCI address") (fun par_addr =>
  let parent_bus := clear_low par_addr in
  rbind (read_pci_device_id addr) (fun pci_device_id =>
  rbind (ok_or (read_file (get_sys_path parent_bus ++ bytes_of "/numa_node")) "Failed to read NUMA node")
    (fun text =>
  match parse_usize (trim text) with
  | None => Done (Ok None)
  | Some numa_node =>
      Done (Ok (Some {| pp_addr := addr; pp_device_id := pci_device_id; pp_numa_node := numa_node;
                        pp_parent_bus := parent_bus; pp_branching_ancestor := parent_bus |}))
  end))))))))))).

Fixpoint scan_entries (l : list (option PciEntry)) : outcome (res (list PciProp)) :=
  match l with
  | [] => Done (Ok [])
  | e :: l =>
      rbind (scan_entry e) (fun o =>
      rbind (scan_entries l) (fun ps =>
      Done (Ok (match o with Some p => p :: ps | None => ps end))))
  end.

(** The number of devices below each bus, and the parent bus of each device. *)
Definition children_count (l : list PciProp) : gmap PciAddress nat :=
  foldl (fun m p => <[pp_parent_bus p := S (default 0%nat (m !! pp_parent_bus p))]> m) ∅ l.
Definition parent_bus_map (l : list PciProp) : gmap PciAddress PciAddress :=
  foldl (fun m p => <[pp_addr p := pp_parent_bus p]> m) ∅ l.

(** The [while let] loop: go up while the bus has one child. *)
Fixpoint climb (fuel : nat) (counts : gmap PciAddress nat) (parents : gmap PciAddress PciAddress)
    (x : PciAddress) : outcome PciAddress :=
  match fuel with
  | O => OutOfFuel
  | S fuel =>
      match counts !! x with
      | Some 1%nat =>
          match parents !! x with
          | Some p => climb fuel counts parents p
          | None => Done x
          end
      | _ => Done x
      end
  end.

Definition set_ancestor (p : PciProp) (x : PciAddress) : PciProp :=
  {| pp_addr := pp_addr p; pp_device_id := pp_device_id p; pp_numa_node := pp_numa_node p;
     pp_parent_bus := pp_parent_bus p; pp_branching_ancestor := clear_low x |}.

Fixpoint set_ancestors (fuel : nat) counts parents (l : list PciProp) : outcome (list PciProp) :=
  match l with
  | [] => Done []
  | p :: l =>
      out_bind (climb fuel counts parents (pp_parent_bus p)) (fun x =>
      out_bind (set_ancestors fuel counts parents l) (fun l' =>
      Done (set_ancestor p x :: l')))
  end.

Definition scan_all_pci_devices (fuel : nat) (dir : option (list (option PciEntry))) :
    outcome (res (list PciProp)) :=
  rbind (ok_or dir "Failed to read PCI devices") (fun entries =>
  rbind (scan_entries entries) (fun all =>
  let all_pcis := sort_by (fun a b => pci_le (pp_addr a) (pp_addr b)) all in
  out_map Ok (set_ancestors fuel (children_count all_pcis) (parent_bus_map all_pcis) all_pcis))).

(** ** CPUs *)

(** An entry of [/sys/devices/system/node]: is it a directory, its name (empty when not UTF-8), and
    its [cpulist] file. *)
Record NodeEntry := { ne_dir : bool; ne_name : list Z; ne_cpulist : option (list Z) }.

(** [cpus.sort_unstable()] and [dedup()]. *)
Fixpoint dedup (l : list Z) : list Z :=
  match l with
  | [] => []
  | x :: r => match dedup r with
              | y :: r' => if x =? y then y :: r' else x :: y :: r'
              | [] => [x]
              end
  end.

Definition cpuinfo_cpu (line : list Z) : option Z :=
  if starts_with (bytes_of "processor") line then
    match split_once 58 line with Some (_, after) => parse_u16 (trim after) | None => None end
  else None.

Definition get_fallback_cpus : res (list (list Z)) :=
  match read_file (bytes_of "/proc/cpuinfo") with
  | None => Err (Custom "Failed to read /proc/cpuinfo")
  | Some cpuinfo =>
      match dedup (sort_by Z.leb (omap cpuinfo_cpu (lines cpuinfo))) with
      | [] => Err (Custom "Failed to detect any CPUs")
      | cpus => Ok [cpus]
      end
  end.

(** The loop over the nodes: the map of CPUs by node and the largest node id. *)
Fixpoint scan_nodes (l : list (option NodeEntry)) (m : gmap Z (list Z)) (max_node : Z) :
    res (gmap Z (list Z) * Z) :=
  match l with
  | [] => Ok (m, max_node)
  | None :: _ => Err (Custom "Failed to read NUMA node entry")
  | Some e :: l =>
      if negb (ne_dir e) then scan_nodes l m max_node
      else match strip_prefix (bytes_of "node") (ne_name e) with
           | None => scan_nodes l m max_node
           | Some rest =>
               match parse_usize rest with
               | None => Err (Custom "Failed to parse NUMA node index")
               | Some node_id =>
                   let max_node := Z.max max_node node_id in
                   match ne_cpulist e with
                   | None => scan_nodes l m max_node
                   | Some text =>
                       match parse_comma_dash_int_list text with
                       | [] => scan_nodes l m max_node
                       | cpus => scan_nodes l (<[node_id := cpus]> m) max_node
                       end
                   end
               end
           end
  end.

(** [for node_id in 0..=max_node]: the nodes that have CPUs, the others left out. *)
Definition numa_list (m : gmap Z (list Z)) (max_node : Z) : list (list Z) :=
  omap (fun node_id => m !! node_id) (seqZ 0 (max_node + 1)).

Definition get_numa_physical_cpus (dir : option (list (option NodeEntry))) : res (list (list Z)) :=
  match dir with
  | None => Err (Custom "Failed to read /sys/devices/system/node")
  | Some entries =>
      match scan_nodes entries ∅ 0 with
      | Err e => Err e
      | Ok (m, max_node) =>
          if decide (m = ∅) then get_fallback_cpus
          else match numa_list m max_node with
               | [] => get_fallback_cpus
               | numa_cpus => Ok numa_cpus
               end
      end
  end.
End System.

(** ** Grouping *)
Record PciSwitchGroup := { sg_gpus : list PciProp; sg_nics : list PciProp }.
Record PciTopoGroup := { tg_gpu : PciProp; tg_nics : list PciProp; tg_cpus : list Z }.

Definition add_gpu (m : gmap Z PciSwitchGroup) (gpu : PciProp) : gmap Z PciSwitchGroup :=
  let g := default {| sg_gpus := []; sg_nics := [] |} (m !! pp_numa_node gpu) in
  <[pp_numa_node gpu := {| sg_gpus := sg_gpus g ++ [gpu]; sg_nics := sg_nics g |}]> m.

Definition add_nic (m : gmap Z PciSwitchGroup) (nic : PciProp) : gmap Z PciSwitchGroup :=
  match m !! pp_numa_node nic with
  | None => m
  | Some g => <[pp_numa_node nic := {| sg_gpus := sg_gpus g; sg_nics := sg_nics g ++ [nic] |}]> m
  end.

(** [g.gpus[0].pci_addr]; a group has at least one GPU. *)
Definition group_le (a b : PciSwitchGroup) : bool :=
  match sg_gpus a, sg_gpus b with
  | g :: _, h :: _ => pci_le (pp_addr g) (pp_addr h)
  | _, _ => true
  end.

(** [v[i] += 1] on a vector of counts. *)
Definition bump_at (i : Z) (v : list nat) : outcome (list nat) :=
  match v !! Z.to_nat i with
  | Some n => Done (<[Z.to_nat i := S n]> v)
  | None => Panic "index out of bounds"
  end.

Fixpoint count_gpus (gpus : list PciProp) (v : list nat) : outcome (list nat) :=
  match gpus with
  | [] => Done v
  | gpu :: gpus => out_bind (bump_at (pp_numa_node gpu) v) (count_gpus gpus)
  end.

(** [&v[a..b]]. *)
Definition vslice {A} (a b : nat) (v : list A) : outcome (list A) :=
  if ((a <=? b) && (b <=? length v))%nat then Done (take (b - a) (drop a v))
  else Panic "slice index out of range".
Definition vget {A} (v : list A) (i : nat) : outcome A :=
  match v !! i with Some a => Done a | None => Panic "index out of bounds" end.
Definition checked_div (a b : nat) : outcome nat :=
  if (b =? 0)%nat then Panic "attempt to divide by zero" else Done (a / b)%nat.

(** The inner loop: one group per GPU of a switch; [idx] is [numa_gpu_indices]. *)
Fixpoint assign_gpus (numa_cpus : list (list Z)) (counts : list nat) (nics : list PciProp)
    (nics_per_gpu i_gpu : nat) (gpus : list PciProp) (idx : list nat) :
    outcome (list PciTopoGroup * list nat) :=
  match gpus with
  | [] => Done ([], idx)
  | gpu :: gpus =>
      let node := Z.to_nat (pp_numa_node gpu) in
      out_bind (vslice (i_gpu * nics_per_gpu) (S i_gpu * nics_per_gpu) nics) (fun my_nics =>
      out_bind (vget idx node) (fun numa_gpu_index =>
      let idx := <[node := S numa_gpu_index]> idx in
      out_bind (vget numa_cpus node) (fun cpus_of_node =>
      out_bind (vget counts node) (fun n =>
      out_bind (checked_div (length cpus_of_node) n) (fun cpus_per_gpu =>
      let cpu_start := (numa_gpu_index * cpus_per_gpu)%nat in
      out_bind (vslice cpu_start (cpu_start + cpus_per_gpu) cpus_of_node) (fun cpus =>
      out_bind (assign_gpus numa_cpus counts nics nics_per_gpu (S i_gpu) gpus idx) (fun r =>
      Done ({| tg_gpu := gpu; tg_nics := my_nics; tg_cpus := cpus |} :: r.1, r.2))))))))
  end.

Fixpoint assign_switches (numa_cpus : list (list Z)) (counts : list nat)
    (groups : list PciSwitchGroup) (idx : list nat) : outcome (list PciTopoGroup) :=
  match groups with
  | [] => Done []
  | g :: groups =>
      out_bind (checked_div (length (sg_nics g)) (length (sg_gpus g))) (fun nics_per_gpu =>
      out_bind (assign_gpus numa_cpus counts (sg_nics g) nics_per_gpu 0 (sg_gpus g) idx) (fun r =>
      out_bind (assign_switches numa_cpus counts groups r.2) (fun l =>
      Done (r.1 ++ l))))
  end.

(** [switch_groups], sorted by the address of their first GPU. *)
Definition switch_groups (gpus nics : list PciProp) : list PciSwitchGroup :=
  sort_by group_le ((map_to_list (foldl add_nic (foldl add_gpu ∅ gpus) nics)).*2).

(** [detect_system_topo] on the results of the scan and of the CPUs. *)
Definition detect_system_topo (all_pcis : list PciProp) (numa_cpus : res (list (list Z)))
    (gpu_id nic_id : PciDeviceId) : outcome (res (list PciTopoGroup)) :=
  let all_gpus := filter (fun p => pp_device_id p = gpu_id) all_pcis in
  let all_nics := filter (fun p => pp_device_id p = nic_id) all_pcis in
  let groups := switch_groups all_gpus all_nics in
  match numa_cpus with
  | Err e => Done (Err e)
  | Ok numa_cpus =>
      out_bind (count_gpus all_gpus (replicate (length numa_cpus) 0%nat)) (fun counts =>
      out_map Ok (assign_switches numa_cpus counts groups (replicate (length numa_cpus) 0%nat)))
  end.

(** ** What the process can see *)
Section Visible.
Context {E V : Type}.

Record TopologyGroup := {
  tp_cuda_device : Z;
  tp_numa : Z;
  tp_domains : list (DomainInfo E V);
  tp_cpus : list Z;
}.

(** [efa]: what libfabric lists; [verbs]: what libibverbs lists. *)
Definition get_visible_domains (efa : res (list E)) (verbs : res (list V)) : list (DomainInfo E V) :=
  match efa with
  | Ok (e :: es) => InfoEfa <$> (e :: es)
  | _ => match verbs with Ok vs => InfoVerbs <$> vs | Err _ => [] end
  end.

(** [max_by_key(|(_, count)| *count)]: the last of the largest. *)
Definition max_by_count (l : list (PciDeviceId * nat)) : option PciDeviceId :=
  fst <$> foldl (fun best kv =>
    match best with
    | Some b => if (b.2 <=? kv.2)%nat then Some kv else Some b
    | None => Some kv
    end) None l.

Section Detect.
Context (read_file : list Z -> option (list Z)).
(** The address of a card ([From<&DomainInfo>]) and the properties of a GPU: domain, bus and
    device. *)
Context (pci_of : DomainInfo E V -> outcome PciAddress) (cuda_prop : Z -> res (Z * Z * Z)).
(** The order in which the [HashMap] of counts is traversed. *)
Context (iter_counts : gmap PciDeviceId nat -> list (PciDeviceId * nat)).

Definition gpu_addr (device : Z) : res PciAddress :=
  match cuda_prop device with
  | Err e => Err e
  | Ok (domain, bus, dev) => Ok (pci_of_cuda domain bus dev)
  end.

Fixpoint count_nic_ids (l : list (DomainInfo E V)) (m : gmap PciDeviceId nat) :
    outcome (res (gmap PciDeviceId nat)) :=
  match l with
  | [] => Done (Ok m)
  | info :: l =>
      out_bind (pci_of info) (fun a =>
      rbind (read_pci_device_id read_file a) (fun id =>
      count_nic_ids l (<[id := S (default 0%nat (m !! id))]> m)))
  end.

Fixpoint collect_nics (l : list (DomainInfo E V)) (m : gmap PciAddress (DomainInfo E V)) :
    outcome (gmap PciAddress (DomainInfo E V)) :=
  match l with
  | [] => Done m
  | info :: l => out_bind (pci_of info) (fun a => collect_nics l (<[a := info]> m))
  end.

Fixpoint collect_gpus (devices : list Z) (m : gmap PciAddress Z) : res (gmap PciAddress Z) :=
  match devices with
  | [] => Ok m
  | d :: devices =>
      match gpu_addr d with
      | Err e => Err e
      | Ok a => collect_gpus devices (<[a := d]> m)
      end
  end.

(** The cards of a group that are visible and not taken yet. *)
Fixpoint take_nics (nics : list PciProp) (m : gmap PciAddress (DomainInfo E V)) :
    list (DomainInfo E V) * gmap PciAddress (DomainInfo E V) :=
  match nics with
  | [] => ([], m)
  | nic :: nics =>
      match m !! pp_addr nic with
      | Some d => let '(ds, m') := take_nics nics (delete (pp_addr nic) m) in (d :: ds, m')
      | None => take_nics nics m
      end
  end.

Fixpoint visible_groups (topo : list PciTopoGroup) (gpus : gmap PciAddress Z)
    (nics : gmap PciAddress (DomainInfo E V)) : list TopologyGroup :=
  match topo with
  | [] => []
  | g :: topo =>
      match gpus !! pp_addr (tg_gpu g) with
      | None => visible_groups topo gpus nics
      | Some cuda_device =>
          let gpus := delete (pp_addr (tg_gpu g)) gpus in
          let '(domains, nics) := take_nics (tg_nics g) nics in
          match domains with
          | [] => visible_groups topo gpus nics
          | _ => {| tp_cuda_device := as_u8 cuda_device; tp_numa := as_u8 (pp_numa_node (tg_gpu g));
                    tp_domains := domains; tp_cpus := tg_cpus g |} :: visible_groups topo gpus nics
          end
      end
  end.

(** [device_count]: [cudaGetDeviceCount]; [domains]: the visible cards; [fuel] is for the scan. *)
Definition do_detect_topology (fuel : nat) (device_count : res Z) (domains : list (DomainInfo E V))
    (pci_dir : option (list (option PciEntry))) (node_dir : option (list (option NodeEntry))) :
    outcome (res (list TopologyGroup)) :=
  rbind (Done device_count) (fun num_visible_gpus =>
  if num_visible_gpus =? 0 then Done (Err (Custom "No visible GPUs")) else
  rbind (Done (gpu_addr 0)) (fun gpu0 =>
  rbind (read_pci_device_id read_file gpu0) (fun gpu_id =>
  match domains with
  | [] => Done (Err (Custom "No visible NICs"))
  | _ =>
      rbind (count_nic_ids domains ∅) (fun counts =>
      rbind (ok_or (max_by_count (iter_counts counts)) "No visible NICs") (fun nic_id =>
      rbind (scan_all_pci_devices read_file fuel pci_dir) (fun all_pcis =>
      rbind (detect_system_topo all_pcis (get_numa_physical_cpus read_file node_dir) gpu_id nic_id)
        (fun system_topo =>
      out_bind (collect_nics domains ∅) (fun visible_nics =>
      rbind (Done (collect_gpus (seqZ 0 num_visible_gpus) ∅)) (fun visible_gpus =>
      Done (Ok (visible_groups system_topo visible_gpus visible_nics))))))))
  end))).
End Detect.
End Visible.
Arguments TopologyGroup : clear implicits.

(** ** [TransferEngineBuilder] *)
Section Builder.
Context {E V : Type} (name : DomainInfo E V -> list Z).

Record GpuDomainSpec := {
  gs_cuda_device : Z;
  gs_domains : list (DomainInfo E V);
  gs_pin_worker_cpu : Z;
  gs_pin_uvm_cpu : Z;
}.

Definition add_gpu_domains (gpus : list GpuDomainSpec) (cuda_device : Z)
    (domains : list (DomainInfo E V)) (pin_worker_cpu pin_uvm_cpu : Z) : list GpuDomainSpec :=
  gpus ++ [{| gs_cuda_device := cuda_device; gs_domains := domains;
              gs_pin_worker_cpu := pin_worker_cpu; gs_pin_uvm_cpu := pin_uvm_cpu |}].

(** [Worker] of [worker.rs]. *)
Record WorkerSpec_ := {
  wk_domain_list : list (DomainInfo E V);
  wk_pin_worker_cpu : option Z;
  wk_pin_uvm_cpu : option Z;
}.

Inductive BuildError : Type :=
  | DuplicatedGPUs
  | NoGPUs
  | GpuNotFound (cuda_device : Z)
  | DuplicatedDomains (cuda_device : Z)
  | DomainNotFound (domain : list Z) (cuda_device : Z)
  | CpuNotFound (cpu cuda_device : Z)
  | BuildFabric (e : FabricLibError).

(** The checks of one GPU, in their order. *)
Definition check_gpu (topo : list (TopologyGroup E V)) (spec : GpuDomainSpec) :
    result BuildError (Z * WorkerSpec_) :=
  let dev := gs_cuda_device spec in
  match list_find (fun t => tp_cuda_device t = dev) topo with
  | None => Err (GpuNotFound dev)
  | Some (_, t) =>
      let names := name <$> gs_domains spec in
      if negb (size (list_to_set names : gset (list Z)) =? length (gs_domains spec))%nat
      then Err (DuplicatedDomains dev)
      else match list_find (fun d => ~ (name d ∈ name <$> tp_domains t)) (gs_domains spec) with
           | Some (_, d) => Err (DomainNotFound (name d) dev)
           | None =>
               match list_find (fun cpu => ~ (cpu ∈ tp_cpus t)) [gs_pin_worker_cpu spec; gs_pin_uvm_cpu spec] with
               | Some (_, cpu) => Err (CpuNotFound cpu dev)
               | None =>
                   Ok (dev, {| wk_domain_list := gs_domains spec;
                               wk_pin_worker_cpu := Some (gs_pin_worker_cpu spec);
                               wk_pin_uvm_cpu := Some (gs_pin_uvm_cpu spec) |})
               end
           end
  end.

Fixpoint check_gpus (topo : list (TopologyGroup E V)) (specs : list GpuDomainSpec) :
    result BuildError (list (Z * WorkerSpec_)) :=
  match specs with
  | [] => Ok []
  | spec :: specs =>
      match check_gpu topo spec with
      | Err e => Err e
      | Ok w => match check_gpus topo specs with Err e => Err e | Ok ws => Ok (w :: ws) end
      end
  end.

(** [build] up to the construction of the engine, to which the workers are passed. *)
Definition prepare_workers (system_topo : res (list (TopologyGroup E V))) (gpus : list GpuDomainSpec) :
    result BuildError (list (Z * WorkerSpec_)) :=
  match system_topo with
  | Err e => Err (BuildFabric e)
  | Ok topo =>
      let num_gpus := size (list_to_set (gs_cuda_device <$> gpus) : gset Z) in
      if negb (num_gpus =? length gpus)%nat then Err DuplicatedGPUs
      else if (num_gpus =? 0)%nat then Err NoGPUs
      else check_gpus topo gpus
  end.
End Builder.
