(* ===== verification/DevInfo.v ===== *)
(** * Device lists

    [efa_devinfo.rs] and [verbs_devinfo.rs]: the cards that libfabric and libibverbs list, as
    objects that someone has to free.  libfabric hands out a linked list of [fi_info] structures;
    [get_efa_domains] copies each one and frees the list.  libibverbs hands out one array of
    devices; every [VerbsDeviceInfo] keeps it alive through an [Arc].  A pointer that is
    dereferenced, copied or freed when it is dangling is a [Panic] of the model. *)
From stdpp Require Import prelude gmap strings list.
From S2P Require Import Prelude Api Worker TopoParse Topo.
Local Open Scope Z_scope.

(** ** [fi_info] *)

(** Where a C string lives: [fi_freeinfo] may free the first kind only. *)
Inductive CText : Type := Allocated (text : list Z) | Static (text : list Z).

Record FidNic := { nic_link_attr : option Z; nic_bus_attr : option PciAddress }.

(** The fields that the code reads or writes.  [option]: a pointer that may be null. *)
Record FiAttrs := {
  at_caps : Z; at_ep_type : Z; at_prov_name : option CText; at_mr_mode : Z; at_threading : Z;
  at_name : list Z; at_nic : option FidNic;
}.
Record FiInfo := { fi_attrs : FiAttrs; fi_next : option Z }.

(** The structures in memory, and what else libfabric keeps. *)
Record FiWorld (L : Type) := { fi_infos : gmap Z FiInfo; fi_lib : L }.
Arguments fi_infos {L} _.
Arguments fi_lib {L} _.

Class FiConsts := {
  FI_MSG : Z; FI_RMA : Z; FI_HMEM : Z; FI_LOCAL_COMM : Z; FI_REMOTE_COMM : Z; FI_EP_RDM : Z;
  FI_MR_ENDPOINT : Z; FI_MR_ALLOCATED : Z; FI_MR_PROV_KEY : Z; FI_THREAD_DOMAIN : Z; FI_ENOMEM : Z;
}.

(** [fi_getinfo] reads the hints and answers a code and the head of a list. *)
Class FiCalls (L : Type) := {
  fi_dupinfo : option Z -> FiWorld L -> option Z * FiWorld L;
  fi_freeinfo : Z -> FiWorld L -> FiWorld L;
  fi_getinfo : FiAttrs -> FiWorld L -> (Z * option Z) * FiWorld L;
}.

(** The addresses of the list at [p]; [fuel] bounds its length. *)
Fixpoint info_list (fuel : nat) (m : gmap Z FiInfo) (p : Z) : option (list Z) :=
  match fuel with
  | O => None
  | S fuel =>
      match m !! p with
      | None => None
      | Some i => match fi_next i with
                  | None => Some [p]
                  | Some q => match info_list fuel m q with Some l => Some (p :: l) | None => None end
                  end
      end
  end.

Definition owned (i : FiInfo) : bool :=
  match at_prov_name (fi_attrs i) with Some (Static _) => false | _ => true end.

(** The whole list is alive and consists of memory of libfabric. *)
Definition may_free (m : gmap Z FiInfo) (p : Z) : bool :=
  match info_list (size m) m p with
  | Some l => forallb (fun q => match m !! q with Some i => owned i | None => false end) l
  | None => false
  end.

Section Efa.
Context {L : Type} `{FiConsts} `{FiCalls L}.

Definition deref (p : Z) : M (FiWorld L) FiInfo :=
  let! m := gets fi_infos in unwrap (m !! p) "dangling fi_info".

Definition poke (p : Z) (f : FiAttrs -> FiAttrs) : M (FiWorld L) unit :=
  let! i := deref p in
  modify (fun w => {| fi_infos := <[p := {| fi_attrs := f (fi_attrs i); fi_next := fi_next i |}]> (fi_infos w);
                      fi_lib := fi_lib w |}).

Definition freeinfo (p : Z) : M (FiWorld L) unit :=
  let! m := gets fi_infos in
  assert_ (may_free m p) "fi_freeinfo of memory it does not own" ;;;
  modify (fi_freeinfo p).

(** [EfaDomainInfo]: the address of a structure it owns. *)
Definition dup (info : Z) : M (FiWorld L) Z :=
  let! _ := deref info in
  let! fi := call (fi_dupinfo (Some info)) in
  unwrap fi "fi_dupinfo".

Definition clone_info (fi : Z) : M (FiWorld L) Z := dup fi.
Definition drop_info (fi : Z) : M (FiWorld L) unit := freeinfo fi.

Definition efa_name (fi : Z) : M (FiWorld L) (list Z) :=
  let! i := deref fi in ret (at_name (fi_attrs i)).

(** Neither pointer is checked. *)
Definition efa_link_speed (fi : Z) : M (FiWorld L) Z :=
  let! i := deref fi in
  let! nic := unwrap (at_nic (fi_attrs i)) "null nic" in
  unwrap (nic_link_attr nic) "null link_attr".

(** [PciAddress::from(&EfaDomainInfo)]: both pointers are checked. *)
Definition efa_pci_address (fi : Z) : M (FiWorld L) PciAddress :=
  let! i := deref fi in
  let! nic := unwrap (at_nic (fi_attrs i)) "NIC is null" in
  unwrap (nic_bus_attr nic) "Bus attribute is null".

(** The name of the provider is a literal of the program. *)
Definition set_hints (a : FiAttrs) : FiAttrs :=
  {| at_caps := Z.lor (Z.lor (Z.lor (Z.lor FI_MSG FI_RMA) FI_HMEM) FI_LOCAL_COMM) FI_REMOTE_COMM;
     at_ep_type := FI_EP_RDM; at_prov_name := Some (Static (bytes_of "cxi"));
     at_mr_mode := Z.lor (Z.lor FI_MR_ENDPOINT FI_MR_ALLOCATED) FI_MR_PROV_KEY;
     at_threading := FI_THREAD_DOMAIN; at_name := at_name a; at_nic := at_nic a |}.

Definition clear_prov_name (a : FiAttrs) : FiAttrs :=
  {| at_caps := at_caps a; at_ep_type := at_ep_type a; at_prov_name := None; at_mr_mode := at_mr_mode a;
     at_threading := at_threading a; at_name := at_name a; at_nic := at_nic a |}.

(** The [loop] over the list. *)
Fixpoint dup_all (fuel : nat) (fi : Z) (vec : list Z) : M (FiWorld L) (list Z) :=
  match fuel with
  | O => fun _ => OutOfFuel
  | S fuel =>
      let! d := dup fi in
      let! i := deref fi in
      match fi_next i with
      | None => ret (vec ++ [d])
      | Some next => dup_all fuel next (vec ++ [d])
      end
  end.

(** A list is no longer than the number of structures in memory. *)
Definition get_efa_domains : M (FiWorld L) (res (list Z)) :=
  let! hints := call (fi_dupinfo None) in
  match hints with
  | None => ret (Err (Libfabric FI_ENOMEM "fi_dupinfo"))
  | Some h =>
      poke h set_hints ;;;
      let! hi := deref h in
      let! answer := call (fi_getinfo (fi_attrs hi)) in
      poke h clear_prov_name ;;;
      freeinfo h ;;;
      match answer.2 with
      | None => ret (Err (Libfabric answer.1 "fi_getinfo"))
      | Some info =>
          let! m := gets fi_infos in
          let! vec := dup_all (size m) info [] in
          freeinfo info ;;;
          ret (Ok vec)
      end
  end.
End Efa.

(** ** What libfabric promises *)

(** [linked m p l]: the list at [p] has the addresses [l]. *)
Fixpoint linked (m : gmap Z FiInfo) (p : Z) (l : list Z) : Prop :=
  match l with
  | [] => False
  | q :: l => p = q /\ exists i, m !! p = Some i /\
      match fi_next i with None => l = [] | Some r => linked m r l end
  end.

Definition holds_owned (m : gmap Z FiInfo) (q : Z) : Prop := exists i, m !! q = Some i /\ owned i = true.

Definition remove_all (l : list Z) (m : gmap Z FiInfo) : gmap Z FiInfo := foldr delete m l.

(** From the manual of [fi_getinfo]: [fi_dupinfo] allocates one structure, an empty one or a copy,
    without the link; [fi_getinfo] allocates a list; [fi_freeinfo] releases a list. *)
Class FiLaws (L : Type) `{FiCalls L} := {
  dup_fails : forall o w w', fi_dupinfo o w = (None, w') -> fi_infos w' = fi_infos w;
  dup_allocates : forall o w q w', fi_dupinfo o w = (Some q, w') ->
    fi_infos w !! q = None /\ exists a, fi_infos w' = <[q := {| fi_attrs := a; fi_next := None |}]> (fi_infos w) /\
      owned {| fi_attrs := a; fi_next := None |} = true /\
      forall p i, o = Some p -> fi_infos w !! p = Some i -> owned i = true -> a = fi_attrs i;
  free_releases : forall p l w, linked (fi_infos w) p l -> NoDup l -> Forall (holds_owned (fi_infos w)) l ->
    fi_infos (fi_freeinfo p w) = remove_all l (fi_infos w);
  getinfo_fails : forall a w r w', fi_getinfo a w = ((r, None), w') -> fi_infos w' = fi_infos w;
  getinfo_allocates : forall a w r p w', fi_getinfo a w = ((r, Some p), w') ->
    exists l, linked (fi_infos w') p l /\ NoDup l /\ Forall (holds_owned (fi_infos w')) l /\
      forall q, if decide (q ∈ l) then fi_infos w !! q = None else fi_infos w' !! q = fi_infos w !! q;
}.

Section Lists.
Implicit Types m : gmap Z FiInfo.

Lemma linked_info_list m p l n : linked m p l -> (length l <= n)%nat -> info_list n m p = Some l.
Proof.
  revert p n. induction l as [|q l IH]; [done|]. intros p [|n] (<- & i & Hi & Hn) Hlen; cbn in Hlen; [lia|].
  cbn [info_list]. rewrite Hi. destruct (fi_next i) as [r|]; [|by subst]. rewrite (IH r n) by (done || lia). done.
Qed.

Lemma linked_subset m m' p l : (forall q, q ∈ l -> m' !! q = m !! q) -> linked m p l -> linked m' p l.
Proof.
  revert p. induction l as [|q l IH]; [done|]. intros p Hs (<- & i & Hi & Hn). split; [done|].
  exists i. split; [rewrite Hs; [done|set_solver]|]. destruct (fi_next i) as [r|]; [|done].
  apply IH; [|done]. intros; apply Hs; set_solver.
Qed.

Lemma list_fits m l : NoDup l -> Forall (holds_owned m) l -> (length l <= size m)%nat.
Proof.
  intros Hn Ho. rewrite <- (size_list_to_set (C := gset Z) l Hn), <- (size_dom (D := gset Z) m). apply subseteq_size.
  intros q Hq%elem_of_list_to_set. rewrite Forall_forall in Ho. destruct (Ho q Hq) as (i & Hi & _).
  by eapply elem_of_dom_2.
Qed.

Lemma may_free_list m p l : linked m p l -> NoDup l -> Forall (holds_owned m) l -> may_free m p = true.
Proof.
  intros Hl Hn Ho. unfold may_free. rewrite (linked_info_list m p l) by (done || by apply list_fits).
  apply forallb_forall. intros q Hq%list_elem_of_In. rewrite Forall_forall in Ho.
  destruct (Ho q Hq) as (i & -> & ->). done.
Qed.

Lemma remove_all_lookup l m q : remove_all l m !! q = if decide (q ∈ l) then None else m !! q.
Proof.
  unfold remove_all. induction l as [|p l IH]; cbn [foldr]; [case_decide as Hin; [by apply not_elem_of_nil in Hin|done]|].
  rewrite lookup_delete, IH. repeat case_decide; set_solver.
Qed.

(** [grown m vec attrs m']: [m'] is [m] and fresh structures at [vec], with these attributes and
    no link. *)
Fixpoint grown m (vec : list Z) (attrs : list FiAttrs) m' : Prop :=
  match vec, attrs with
  | [], [] => m' = m
  | q :: vec, a :: attrs => m !! q = None /\ grown (<[q := {| fi_attrs := a; fi_next := None |}]> m) vec attrs m'
  | _, _ => False
  end.

Lemma grown_lookup m vec attrs m' q :
  grown m vec attrs m' ->
  if decide (q ∈ vec) then m !! q = None /\ exists a, a ∈ attrs /\ m' !! q = Some {| fi_attrs := a; fi_next := None |}
  else m' !! q = m !! q.
Proof.
  revert m attrs. induction vec as [|p vec IH]; intros m [|a attrs]; cbn [grown]; try done.
  - intros ->. by rewrite decide_False by set_solver.
  - intros [Hp Hg]. specialize (IH _ _ Hg). rewrite !lookup_insert in IH.
    destruct (decide (q ∈ vec)) as [Hin|Hin].
    + rewrite decide_True by set_solver. destruct IH as [Hq (b & Hb & ?)]. case_decide; [done|].
      split; [done|]. exists b. split; [set_solver|done].
    + case_decide as Hqp; [subst|].
      * rewrite decide_True by set_solver. split; [done|]. exists a. split; [set_solver|done].
      * rewrite decide_False by set_solver. done.
Qed.

Lemma grown_nodup m vec attrs m' : grown m vec attrs m' -> NoDup vec.
Proof.
  revert m attrs. induction vec as [|p vec IH]; intros m [|a attrs]; cbn [grown]; try done; [constructor|].
  intros [Hp Hg]. constructor; [|by eapply IH]. intros Hin. pose proof (grown_lookup _ _ _ _ p Hg) as Hl.
  rewrite decide_True in Hl by done. rewrite lookup_insert_eq in Hl. by destruct Hl.
Qed.

Lemma grown_snoc m vec attrs m' q a :
  grown m vec attrs m' -> m' !! q = None ->
  grown m (vec ++ [q]) (attrs ++ [a]) (<[q := {| fi_attrs := a; fi_next := None |}]> m').
Proof.
  revert m attrs. induction vec as [|p vec IH]; intros m [|b attrs]; cbn [grown app]; try done.
  - intros ->. done.
  - intros [Hp Hg] Hq. split; [done|]. by apply IH.
Qed.

(** Taking a list away from below. *)
Lemma grown_remove m vec attrs m' l :
  grown m vec attrs m' -> (forall q, q ∈ l -> is_Some (m !! q)) -> grown (remove_all l m) vec attrs (remove_all l m').
Proof.
  revert m attrs. induction vec as [|p vec IH]; intros m [|b attrs]; cbn [grown]; try done.
  - by intros ->.
  - intros [Hp Hg] Hl. assert (p ∉ l) as Hpl by (intros Hpl; destruct (Hl p Hpl); congruence).
    split; [rewrite remove_all_lookup; by rewrite decide_False by done|].
    assert (<[p := {| fi_attrs := b; fi_next := None |}]> (remove_all l m)
            = remove_all l (<[p := {| fi_attrs := b; fi_next := None |}]> m)) as ->.
    { apply map_eq. intros q. rewrite lookup_insert, !remove_all_lookup, lookup_insert. repeat case_decide; naive_solver. }
    apply IH; [done|]. intros q Hq. rewrite lookup_insert. case_decide; [done|]. by apply Hl.
Qed.
End Lists.

Section EfaOwned.
Context {L : Type} `{FiConsts} `{FiLaws L}.
Implicit Types w : FiWorld L.

Lemma deref_run w p i : fi_infos w !! p = Some i -> deref p w = Done (i, w).
Proof. intros Hp. cbv [deref bind gets]. by rewrite Hp. Qed.

Lemma poke_run w p i f :
  fi_infos w !! p = Some i ->
  poke p f w = Done (tt, {| fi_infos := <[p := {| fi_attrs := f (fi_attrs i); fi_next := fi_next i |}]> (fi_infos w);
                            fi_lib := fi_lib w |}).
Proof. intros Hp. unfold poke. unfold bind at 1. by rewrite (deref_run w p i Hp). Qed.

Lemma freeinfo_run w p l :
  linked (fi_infos w) p l -> NoDup l -> Forall (holds_owned (fi_infos w)) l ->
  exists w', freeinfo p w = Done (tt, w') /\ fi_infos w' = remove_all l (fi_infos w).
Proof.
  intros Hl Hn Ho. exists (fi_freeinfo p w). split; [|by apply free_releases].
  cbv [freeinfo bind gets assert_ modify]. by rewrite (may_free_list _ p l).
Qed.

Lemma dup_run w p i :
  fi_infos w !! p = Some i -> owned i = true ->
  dup p w = Panic "fi_dupinfo" \/
  exists q w', dup p w = Done (q, w') /\ fi_infos w !! q = None /\
    fi_infos w' = <[q := {| fi_attrs := fi_attrs i; fi_next := None |}]> (fi_infos w).
Proof.
  intros Hp Ho. assert (dup p w = bind (call (fi_dupinfo (Some p))) (fun fi => unwrap fi "fi_dupinfo") w) as ->
    by (unfold dup; unfold bind at 1; by rewrite (deref_run w p i Hp)).
  cbv [bind call unwrap]. destruct (fi_dupinfo (Some p) w) as [[q|] w'] eqn:Ed; [right|by left].
  destruct (dup_allocates _ _ _ _ Ed) as (Hq & a & Hw' & _ & Ha).
  rewrite (Ha p i eq_refl Hp Ho) in Hw'. by exists q, w'.
Qed.

(** The attributes of the list at [l]. *)
Definition lists_attrs (m : gmap Z FiInfo) (l : list Z) (attrs : list FiAttrs) : Prop :=
  Forall2 (fun q a => exists i, m !! q = Some i /\ fi_attrs i = a) l attrs.

Definition attrs_owned (a : FiAttrs) : Prop := owned {| fi_attrs := a; fi_next := None |} = true.

(** The loop copies every structure of the list, in order. *)
Lemma dup_all_run l m0 vec attrs p w fuel :
  grown m0 vec attrs (fi_infos w) -> Forall attrs_owned attrs ->
  linked m0 p l -> Forall (holds_owned m0) l -> (length l <= fuel)%nat ->
  dup_all fuel p vec w = Panic "fi_dupinfo" \/
  exists new nattrs w', dup_all fuel p vec w = Done (vec ++ new, w') /\
    grown m0 (vec ++ new) (attrs ++ nattrs) (fi_infos w') /\ Forall attrs_owned (attrs ++ nattrs) /\
    lists_attrs m0 l nattrs /\ new <> [].
Proof.
  revert vec attrs p w fuel. induction l as [|p' l IH]; [done|].
  intros vec attrs p w [|fuel] Hg Ha (<- & i & Hi & Hnext) [Hh Hown]%Forall_cons Hf; cbn in Hf; [lia|].
  destruct Hh as (i' & Hi' & Hoi). assert (i' = i) as -> by congruence.
  assert (fi_infos w !! p = Some i) as Hp.
  { pose proof (grown_lookup _ _ _ _ p Hg) as Hl. case_decide; [destruct Hl; congruence|congruence]. }
  remember (dup_all (S fuel) p vec w) as o eqn:Eo. cbn [dup_all] in Eo. unfold bind at 1 in Eo.
  destruct (dup_run w p i Hp Hoi) as [Hd|(q & w1 & Hd & Hq & Hw1)]; rewrite Hd in Eo; [by left|].
  assert (fi_infos w1 !! p = Some i) as Hp1 by (rewrite Hw1, lookup_insert_ne; congruence).
  unfold bind at 1 in Eo. rewrite (deref_run w1 p i Hp1) in Eo. subst o.
  pose proof (grown_snoc _ _ _ _ q (fi_attrs i) Hg Hq) as Hg1. rewrite <- Hw1 in Hg1.
  assert (Forall attrs_owned (attrs ++ [fi_attrs i])) as Ha1 by (apply Forall_app; split; [done|]; by apply Forall_singleton).
  destruct (fi_next i) as [r|].
  - destruct (IH _ _ r w1 fuel Hg1 Ha1 Hnext Hown ltac:(lia)) as [->|(new & nattrs & w2 & Hrun & Hg2 & Ha2 & Hl2 & _)]; [by left|].
    right. exists (q :: new), (fi_attrs i :: nattrs), w2. rewrite <- !(assoc_L (++)) in *. split_and!; try done.
    constructor; eauto.
  - subst l. right. exists [q], [fi_attrs i], w1. split_and!; try done. repeat constructor. eauto.
Qed.

(** Structures without a link are freed one by one. *)
Lemma drop_each order w :
  NoDup order ->
  Forall (fun q => exists a, fi_infos w !! q = Some {| fi_attrs := a; fi_next := None |} /\ attrs_owned a) order ->
  exists w', for_each order drop_info w = Done (tt, w') /\ fi_infos w' = remove_all order (fi_infos w).
Proof.
  revert w. induction order as [|q order IH]; intros w; [by exists w|].
  intros [Hq Hn]%NoDup_cons [(a & Ha & Ho) Hrest]%Forall_cons.
  destruct (freeinfo_run w q [q]) as (w1 & Hrun & Hw1).
  { split; [done|]. by exists {| fi_attrs := a; fi_next := None |}. }
  { apply NoDup_singleton. }
  { apply Forall_singleton. by exists {| fi_attrs := a; fi_next := None |}. }
  cbn in Hw1. destruct (IH w1 Hn) as (w2 & Hrun2 & Hw2).
  { rewrite Forall_forall in *. intros q' Hq'. rewrite Hw1, lookup_delete_ne by set_solver. by apply Hrest. }
  exists w2. cbn [for_each]. unfold bind. unfold drop_info at 1. rewrite Hrun. split; [done|].
  rewrite Hw2, Hw1. apply map_eq. intros r. rewrite !remove_all_lookup, lookup_delete. repeat case_decide; set_solver.
Qed.

Lemma drop_grown m0 vec attrs w order :
  grown m0 vec attrs (fi_infos w) -> Forall attrs_owned attrs -> order ≡ₚ vec ->
  exists w', for_each order drop_info w = Done (tt, w') /\ fi_infos w' = m0.
Proof.
  intros Hg Ha Hp. destruct (drop_each order w) as (w' & Hrun & Hw').
  - rewrite Hp. by eapply grown_nodup.
  - apply Forall_forall. intros q Hq. rewrite Hp in Hq. pose proof (grown_lookup _ _ _ _ q Hg) as Hl.
    rewrite decide_True in Hl by done. destruct Hl as (_ & a & Hin & ?). exists a. rewrite Forall_forall in Ha. auto.
  - exists w'. split; [done|]. rewrite Hw'. apply map_eq. intros q. rewrite remove_all_lookup.
    case_decide as Hq; rewrite Hp in Hq; pose proof (grown_lookup _ _ _ _ q Hg) as Hl.
    + rewrite decide_True in Hl by done. symmetry. apply Hl.
    + by rewrite decide_False in Hl by done.
Qed.

(** The hints are set, used and freed; what [fi_getinfo] allocated is left. *)
Definition ask_libfabric : M (FiWorld L) (res (Z * option Z)) :=
  let! hints := call (fi_dupinfo None) in
  match hints with
  | None => ret (Err (Libfabric FI_ENOMEM "fi_dupinfo"))
  | Some h =>
      poke h set_hints ;;;
      let! hi := deref h in
      let! answer := call (fi_getinfo (fi_attrs hi)) in
      poke h clear_prov_name ;;;
      freeinfo h ;;;
      ret (Ok answer)
  end.

Lemma get_efa_domains_split w :
  get_efa_domains w =
  bind_res ask_libfabric (fun answer =>
    match answer.2 with
    | None => ret (Err (Libfabric answer.1 "fi_getinfo"))
    | Some info =>
        let! m := gets fi_infos in
        let! vec := dup_all (size m) info [] in
        freeinfo info ;;;
        ret (Ok vec)
    end) w.
Proof.
  unfold get_efa_domains, ask_libfabric, bind_res, bind, call. destruct (fi_dupinfo None w) as [[h|] w1]; [|done].
  destruct (poke h set_hints w1) as [[[] w2]| |]; try done. destruct (deref h w2) as [[hi w3]| |]; try done.
  destruct (fi_getinfo (fi_attrs hi) w3) as [answer w4]. destruct (poke h clear_prov_name w4) as [[[] w5]| |]; try done.
  by destruct (freeinfo h w5) as [[[] w6]| |].
Qed.

Lemma ask_libfabric_run w :
  exists r w', ask_libfabric w = Done (r, w') /\
    match r with
    | Ok (_, Some p) => exists hints wh code w1 l,
        fi_getinfo (set_hints hints) wh = ((code, Some p), w1) /\
        linked (fi_infos w1) p l /\ linked (fi_infos w') p l /\ NoDup l /\ Forall (holds_owned (fi_infos w')) l /\
        (forall q, q ∈ l -> fi_infos w' !! q = fi_infos w1 !! q) /\ remove_all l (fi_infos w') = fi_infos w
    | _ => fi_infos w' = fi_infos w
    end.
Proof.
  unfold ask_libfabric. unfold bind at 1, call at 1. destruct (fi_dupinfo None w) as [[h|] w1] eqn:Ed.
  2:{ eexists _, w1. split; [reflexivity|]. by eapply dup_fails. }
  destruct (dup_allocates _ _ _ _ Ed) as (Hh & a & Hw1 & _).
  unfold bind at 1. erewrite poke_run by (rewrite Hw1; apply lookup_insert_eq). cbn [fi_attrs fi_next].
  set (w2 := Build_FiWorld _ _ _). assert (fi_infos w2 !! h = Some {| fi_attrs := set_hints a; fi_next := None |}) as Hh2
    by apply lookup_insert_eq.
  unfold bind at 1. rewrite (deref_run w2 h _ Hh2). unfold bind at 1, call at 1. cbn [fi_attrs].
  assert (delete h (fi_infos w2) = fi_infos w) as Hdel.
  { unfold w2. cbn [fi_infos]. rewrite delete_insert_eq, Hw1, delete_insert_eq. by apply delete_id. }
  destruct (fi_getinfo (set_hints a) w2) as [[code p] w3] eqn:Eg.
  assert (fi_infos w3 !! h = Some {| fi_attrs := set_hints a; fi_next := None |}) as Hh3.
  { destruct p as [p|]; [|by rewrite (getinfo_fails _ _ _ _ Eg)].
    destruct (getinfo_allocates _ _ _ _ _ Eg) as (l & _ & _ & _ & Hl). specialize (Hl h). case_decide; congruence. }
  unfold bind at 1. rewrite (poke_run w3 h _ _ Hh3). cbn [fi_attrs fi_next]. set (w4 := Build_FiWorld _ _ _).
  assert (fi_infos w4 !! h = Some {| fi_attrs := clear_prov_name (set_hints a); fi_next := None |}) as Hh4
    by apply lookup_insert_eq.
  destruct (freeinfo_run w4 h [h]) as (w5 & Hf & Hw5).
  { split; [done|]. by eexists. }
  { apply NoDup_singleton. }
  { apply Forall_singleton. by eexists. }
  unfold bind. rewrite Hf. exists (Ok (code, p)), w5. split; [done|]. cbn in Hw5. rewrite delete_insert_eq in Hw5.
  destruct p as [p|]; [|by rewrite Hw5, (getinfo_fails _ _ _ _ Eg)].
  destruct (getinfo_allocates _ _ _ _ _ Eg) as (l & Hlk & Hn & Ho & Hl).
  assert (forall q, q ∈ l -> fi_infos w5 !! q = fi_infos w3 !! q) as Heq.
  { intros q Hq. rewrite Hw5. apply lookup_delete_ne. intros ->. specialize (Hl q). rewrite decide_True in Hl by done. congruence. }
  exists a, w2, code, w3, l. split_and!; try done.
  - by eapply linked_subset.
  - rewrite Forall_forall in *. intros q Hq. destruct (Ho q Hq) as (i & ? & ?). exists i. by rewrite Heq.
  - rewrite <- Hdel. apply map_eq. intros q. specialize (Hl q). rewrite remove_all_lookup, Hw5, !lookup_delete.
    repeat case_decide; congruence.
Qed.

(** C29: listing the cards frees what it does not return.  [get_efa_domains] returns, unless memory
    runs out while it copies; it never touches a dangling pointer and never hands the literal it
    put into the hints to [fi_freeinfo].  After an error the structures in memory are those from
    before.  After a success they are those from before and one fresh copy, without a link, per
    card that libfabric listed for the hints, in its order; and dropping the copies, in any
    order, leaves those from before. *)
Theorem get_efa_domains_owns w :
  match get_efa_domains w with
  | Done (Ok vec, w') =>
      (exists hints wh code p w1 l attrs,
         fi_getinfo (set_hints hints) wh = ((code, Some p), w1) /\ linked (fi_infos w1) p l /\
         lists_attrs (fi_infos w1) l attrs /\ grown (fi_infos w) vec attrs (fi_infos w')) /\
      vec <> [] /\
      forall order, order ≡ₚ vec ->
        exists w2, for_each order drop_info w' = Done (tt, w2) /\ fi_infos w2 = fi_infos w
  | Done (Err _, w') => fi_infos w' = fi_infos w
  | Panic why => why = "fi_dupinfo"
  | OutOfFuel => False
  end.
Proof.
  rewrite get_efa_domains_split. destruct (ask_libfabric_run w) as (r & w1 & Hr & Hspec).
  unfold bind_res at 1. unfold bind at 1. rewrite Hr. destruct r as [[code [p|]]|e]; [|exact Hspec|exact Hspec].
  destruct Hspec as (hints & wh & c & wg & l & Hgi & Hlg & Hl & Hn & Ho & Heq & Hrem). cbn [snd].
  unfold bind at 1, gets. unfold bind at 1.
  destruct (dup_all_run l (fi_infos w1) [] [] p w1 (size (fi_infos w1)))
    as [->|(new & nattrs & w2 & Hrun & Hg & Ha & Hla & Hne)]; [done|constructor|done|done|by apply list_fits|done|].
  rewrite Hrun. cbn [app] in *.
  assert (forall q, q ∈ l -> is_Some (fi_infos w1 !! q)) as Hlive.
  { intros q Hq. rewrite Forall_forall in Ho. destruct (Ho q Hq) as (i & -> & _). done. }
  assert (forall q, q ∈ l -> fi_infos w2 !! q = fi_infos w1 !! q) as Heq2.
  { intros q Hq. pose proof (grown_lookup _ _ _ _ q Hg) as Hk. destruct (Hlive q Hq). case_decide; [destruct Hk; congruence|done]. }
  destruct (freeinfo_run w2 p l) as (w3 & Hf & Hw3); [by eapply linked_subset|done| |].
  { rewrite Forall_forall in *. intros q Hq. destruct (Ho q Hq) as (i & ? & ?). exists i. by rewrite Heq2. }
  unfold bind. rewrite Hf. cbn [ret].
  assert (grown (fi_infos w) new nattrs (fi_infos w3)) as Hg3 by (rewrite Hw3, <- Hrem; by apply grown_remove).
  split; [|split; [done|intros; by eapply drop_grown]].
  exists hints, wh, c, p, wg, l, nattrs. split_and!; try done.
  unfold lists_attrs in *. eapply Forall2_impl; [|intros ? ? Hx; exact Hx].
  clear -Hla Heq. induction Hla as [|q a l nattrs (i & Hi & Hai) _ IH]; constructor.
  - exists i. rewrite <- Heq by set_solver. done.
  - apply IH. intros. apply Heq. set_solver.
Qed.
End EfaOwned.

(** ** The device array of libibverbs *)
Record IbvDevice := { ibv_name : list Z; ibv_dev_path : list Z; ibv_ibdev_path : list Z }.

(** The arrays in memory, the reference counts of the [Arc]s that hold one, and what else
    libibverbs keeps. *)
Record IbWorld (L : Type) := { ib_arrays : gmap Z (list IbvDevice); ib_arcs : gmap Z nat; ib_lib : L }.
Arguments ib_arrays {L} _.
Arguments ib_arcs {L} _.
Arguments ib_lib {L} _.

Class IbvCalls (L : Type) := {
  ibv_get_device_list : IbWorld L -> (option Z * nat) * IbWorld L;
  ibv_free_device_list : Z -> IbWorld L -> IbWorld L;
  ibv_errno : IbWorld L -> Z;
}.

Record VerbsDeviceList := { vl_list : Z; vl_num_devices : nat }.

(** The handle of the [Arc] is its contents. *)
Record VerbsDeviceInfo := { vd_list : VerbsDeviceList; vd_index : nat; vd_port_num : Z; vd_gid_index : Z }.

Section Verbs.
Context {L : Type} `{IbvCalls L}.

Definition set_arcs (f : gmap Z nat -> gmap Z nat) : M (IbWorld L) unit :=
  modify (fun w => {| ib_arrays := ib_arrays w; ib_arcs := f (ib_arcs w); ib_lib := ib_lib w |}).

Definition free_array (p : Z) : M (IbWorld L) unit :=
  let! m := gets ib_arrays in
  assert_ (bool_decide (is_Some (m !! p))) "ibv_free_device_list of a dangling pointer" ;;;
  modify (ibv_free_device_list p).

(** [Arc::new], [Arc::clone] and the drop of an [Arc]: the last one drops the list. *)
Definition arc_new (p : Z) : M (IbWorld L) unit := set_arcs (<[p := 1%nat]>).
Definition arc_clone (p : Z) : M (IbWorld L) unit :=
  let! arcs := gets ib_arcs in
  let! n := unwrap (arcs !! p) "dangling Arc" in
  set_arcs (<[p := S n]>).
Definition arc_drop (p : Z) : M (IbWorld L) unit :=
  let! arcs := gets ib_arcs in
  let! n := unwrap (arcs !! p) "dangling Arc" in
  match n with
  | S (S n) => set_arcs (<[p := S n]>)
  | _ => set_arcs (delete p) ;;; free_array p
  end.

Definition get_all_devices : M (IbWorld L) (res VerbsDeviceList) :=
  let! answer := call ibv_get_device_list in
  match answer.1 with
  | None => let! code := gets ibv_errno in ret (Err (Verbs code "ibv_get_device_list"))
  | Some list => arc_new list ;;; ret (Ok {| vl_list := list; vl_num_devices := answer.2 |})
  end.

Definition new_info (device_list : VerbsDeviceList) (device_index : nat) : VerbsDeviceInfo :=
  {| vd_list := device_list; vd_index := device_index; vd_port_num := 1; vd_gid_index := 0 |}.

(** The derived [Clone] and the drop of the fields. *)
Definition clone_device (d : VerbsDeviceInfo) : M (IbWorld L) VerbsDeviceInfo :=
  arc_clone (vl_list (vd_list d)) ;;; ret d.
Definition drop_device (d : VerbsDeviceInfo) : M (IbWorld L) unit := arc_drop (vl_list (vd_list d)).

Definition device (d : VerbsDeviceInfo) : M (IbWorld L) IbvDevice :=
  let! m := gets ib_arrays in
  let! array := unwrap (m !! vl_list (vd_list d)) "dangling device list" in
  unwrap (array !! vd_index d) "device out of range".

Definition verbs_name (d : VerbsDeviceInfo) : M (IbWorld L) (list Z) :=
  let! dev := device d in ret (ibv_name dev).

(** [PciAddress::from(&VerbsDeviceInfo)].  [to_str]: the path, if it is UTF-8; [read_link path]:
    the last component of the target, if it has one. *)
Definition verbs_pci_address (to_str : list Z -> option (list Z)) (read_link : list Z -> option (option (list Z)))
    (d : VerbsDeviceInfo) : M (IbWorld L) PciAddress :=
  let! dev := device d in
  let! dev_path := unwrap (to_str (ibv_dev_path dev)) "Failed to convert dev_path to str" in
  let! target := unwrap (read_link (dev_path ++ bytes_of "/device")) "Failed to read verbs dev_path" in
  let! pci_addr := unwrap target "Failed to read verbs dev_path basename" in
  lift (pci_of_verbs pci_addr).

(** The number before the first space of the rate file, in units of 10^9; [parse_f64] reads a
    decimal number, [giga] is [(gbps * 1e9) as u64]. *)
Fixpoint until_space (s : list Z) : list Z :=
  match s with
  | [] => []
  | c :: s => if c =? 32 then [] else c :: until_space s
  end.

Definition rate_speed {F : Type} (parse_f64 : list Z -> option F) (zero : F) (giga : F -> Z)
    (content : option (list Z)) : Z :=
  match content with
  | Some content => giga (default zero (parse_f64 (until_space (trim content))))
  | None => 0
  end.

(** [{}] of a [u8]. *)
Definition show_u8 (v : Z) : list Z :=
  (if v <? 100 then [] else [48 + v / 100]) ++ (if v <? 10 then [] else [48 + (v / 10) mod 10]) ++ [48 + v mod 10].

Definition verbs_link_speed {F : Type} (parse_f64 : list Z -> option F) (zero : F) (giga : F -> Z)
    (read_file : list Z -> option (list Z)) (d : VerbsDeviceInfo) : M (IbWorld L) Z :=
  let! dev := device d in
  ret (rate_speed parse_f64 zero giga
    (read_file (ibv_ibdev_path dev ++ bytes_of "/ports/" ++ show_u8 (vd_port_num d) ++ bytes_of "/rate"))).

(** [(0..n).map(|i| ..(list.clone(), i))]. *)
Fixpoint new_infos (verbs_domains : VerbsDeviceList) (indices : list nat) : M (IbWorld L) (list VerbsDeviceInfo) :=
  match indices with
  | [] => ret []
  | i :: indices =>
      arc_clone (vl_list verbs_domains) ;;;
      let! rest := new_infos verbs_domains indices in
      ret (new_info verbs_domains i :: rest)
  end.

(** The second half of [get_visible_domains]; the local [Arc] is dropped at its end. *)
Definition get_verbs_devices : M (IbWorld L) (res (list VerbsDeviceInfo)) :=
  let! all := get_all_devices in
  match all with
  | Err e => ret (Err e)
  | Ok verbs_domains =>
      let! infos := new_infos verbs_domains (seq 0 (vl_num_devices verbs_domains)) in
      arc_drop (vl_list verbs_domains) ;;;
      ret (Ok infos)
  end.
End Verbs.

(** From the manual of [ibv_get_device_list]: the array is allocated, the count is its length, and
    freeing it releases it. *)
Class IbvLaws (L : Type) `{IbvCalls L} := {
  get_list_fails : forall w n w', ibv_get_device_list w = ((None, n), w') ->
    ib_arrays w' = ib_arrays w /\ ib_arcs w' = ib_arcs w;
  get_list_allocates : forall w p n w', ibv_get_device_list w = ((Some p, n), w') ->
    ib_arrays w !! p = None /\ ib_arcs w' = ib_arcs w /\
    exists devices, ib_arrays w' = <[p := devices]> (ib_arrays w) /\ n = length devices;
  free_list_releases : forall p w,
    ib_arrays (ibv_free_device_list p w) = delete p (ib_arrays w) /\ ib_arcs (ibv_free_device_list p w) = ib_arcs w;
}.

Section VerbsShared.
Context {L : Type} `{IbvLaws L}.

(** [held_by n p devices w0 w]: [w] is [w0] and the array at [p], which [n] references hold; when
    there are none it is gone. *)
Definition held_by (n : nat) (p : Z) (devices : list IbvDevice) (w0 w : IbWorld L) : Prop :=
  match n with
  | O => ib_arcs w = ib_arcs w0 /\ ib_arrays w = ib_arrays w0
  | _ => ib_arcs w = <[p := n]> (ib_arcs w0) /\ ib_arrays w = <[p := devices]> (ib_arrays w0)
  end.

Lemma arc_clone_run n p devices w0 w :
  held_by (S n) p devices w0 w -> exists w', arc_clone p w = Done (tt, w') /\ held_by (S (S n)) p devices w0 w'.
Proof.
  intros [Ha Hm]. cbv [arc_clone bind gets]. rewrite Ha, lookup_insert_eq. eexists. split; [reflexivity|].
  split; cbn; [|done]. by rewrite Ha, insert_insert_eq.
Qed.

Lemma arc_drop_run n p devices w0 w :
  ib_arcs w0 !! p = None -> ib_arrays w0 !! p = None -> held_by (S n) p devices w0 w ->
  exists w', arc_drop p w = Done (tt, w') /\ held_by n p devices w0 w'.
Proof.
  intros Hna Hnm [Ha Hm]. cbv [arc_drop bind gets]. rewrite Ha, lookup_insert_eq. cbn [unwrap ret].
  destruct n as [|n].
  - unfold set_arcs, modify at 1, free_array, bind, gets. cbn [ib_arrays]. rewrite Hm, lookup_insert_eq.
    rewrite bool_decide_true by done. cbn [assert_ ret]. eexists. split; [reflexivity|].
    split; [rewrite (proj2 (free_list_releases _ _))|rewrite (proj1 (free_list_releases _ _))]; cbn [ib_arcs ib_arrays].
    + rewrite Ha, delete_insert_eq. by apply delete_id.
    + rewrite ?Hm, delete_insert_eq. by apply delete_id.
  - eexists. split; [reflexivity|]. split; cbn; [|done]. by rewrite Ha, insert_insert_eq.
Qed.

Lemma new_infos_run n l p devices w0 w is_ :
  vl_list l = p -> held_by (S n) p devices w0 w ->
  exists w', new_infos l is_ w = Done (new_info l <$> is_, w') /\ held_by (length is_ + S n) p devices w0 w'.
Proof.
  intros Hp. revert n w. induction is_ as [|i is_ IH]; intros n w Hh; [by exists w|].
  destruct (arc_clone_run _ _ _ _ _ Hh) as (w1 & Hc & Hh1). destruct (IH _ _ Hh1) as (w2 & Hr & Hh2).
  exists w2. cbn [new_infos]. unfold bind. rewrite Hp, Hc, Hr. split; [done|].
  by replace (length (i :: is_) + S n)%nat with (length is_ + S (S n))%nat by (cbn; lia).
Qed.

(** What the owner of some infos does with them: [clone] or [drop] the [k]-th. *)
Inductive DeviceOp : Type := CloneDevice (k : nat) | DropDevice (k : nat).

Definition device_op (op : DeviceOp) (live : list VerbsDeviceInfo) : M (IbWorld L) (list VerbsDeviceInfo) :=
  match op with
  | CloneDevice k =>
      match live !! k with Some d => let! d' := clone_device d in ret (live ++ [d']) | None => ret live end
  | DropDevice k =>
      match live !! k with Some d => drop_device d ;;; ret (delete k live) | None => ret live end
  end.

Fixpoint device_ops (ops : list DeviceOp) (live : list VerbsDeviceInfo) : M (IbWorld L) (list VerbsDeviceInfo) :=
  match ops with
  | [] => ret live
  | op :: ops => let! live := device_op op live in device_ops ops live
  end.

(** An info of the array at [p]. *)
Definition info_of (p : Z) (devices : list IbvDevice) (d : VerbsDeviceInfo) : Prop :=
  vl_list (vd_list d) = p /\ (vd_index d < length devices)%nat.

Lemma device_op_run op live p devices w0 w :
  ib_arcs w0 !! p = None -> ib_arrays w0 !! p = None ->
  Forall (info_of p devices) live -> held_by (length live) p devices w0 w ->
  exists live' w', device_op op live w = Done (live', w') /\
    Forall (info_of p devices) live' /\ held_by (length live') p devices w0 w'.
Proof.
  intros Hna Hnm Hl Hh. destruct op as [k|k]; cbn [device_op]; destruct (live !! k) as [d|] eqn:Hk;
    try (exists live, w; done);
    pose proof (Forall_lookup_1 _ _ _ _ Hl Hk) as Hd; pose proof (proj1 Hd) as Hp.
  - pose proof (lookup_lt_Some _ _ _ Hk). destruct (length live) as [|n] eqn:Hlen; [lia|].
    destruct (arc_clone_run _ _ _ _ _ Hh) as (w' & Hr & Hh'). exists (live ++ [d]), w'.
    cbv [clone_device bind]. rewrite Hp, Hr. split; [done|]. split; [apply Forall_app; by rewrite Forall_singleton|].
    rewrite length_app. cbn. by replace (length live + 1)%nat with (S (S n)) by lia.
  - pose proof (lookup_lt_Some _ _ _ Hk). pose proof (length_delete live k ltac:(by exists d)) as Hdel.
    destruct (length live) as [|n] eqn:Hlen; [lia|].
    destruct (arc_drop_run _ _ _ _ _ Hna Hnm Hh) as (w' & Hr & Hh'). exists (delete k live), w'.
    cbv [drop_device bind]. rewrite Hp, Hr. split; [done|]. split; [by apply Forall_delete|].
    rewrite Hdel. by replace (S n - 1)%nat with n by lia.
Qed.

Lemma device_ops_run ops live p devices w0 w :
  ib_arcs w0 !! p = None -> ib_arrays w0 !! p = None ->
  Forall (info_of p devices) live -> held_by (length live) p devices w0 w ->
  exists live' w', device_ops ops live w = Done (live', w') /\
    Forall (info_of p devices) live' /\ held_by (length live') p devices w0 w'.
Proof.
  intros Hna Hnm. revert live w. induction ops as [|op ops IH]; intros live w Hl Hh; [by exists live, w|].
  destruct (device_op_run op _ _ _ _ _ Hna Hnm Hl Hh) as (l1 & w1 & Hr & Hl1 & Hh1). cbn [device_ops].
  unfold bind. rewrite Hr. by apply IH.
Qed.

Lemma device_run d p devices live w0 w :
  d ∈ live -> info_of p devices d -> held_by (length live) p devices w0 w ->
  exists dev, devices !! vd_index d = Some dev /\ device d w = Done (dev, w).
Proof.
  intros Hin [Hp Hi] Hh. destruct (lookup_lt_is_Some_2 _ _ Hi) as [dev Hdev]. exists dev. split; [done|].
  destruct live as [|d0 live]; [by apply not_elem_of_nil in Hin|]. destruct Hh as [_ Hm].
  cbv [device bind gets]. rewrite Hm, Hp, lookup_insert_eq. cbn [unwrap ret]. by rewrite Hdev.
Qed.

(** C30: the device array lives as long as it is used.  [get_visible_domains] makes one info per
    device that libibverbs lists, in its order; however these are cloned and dropped afterwards,
    no call touches a dangling pointer, every info that is left answers its own device of the
    array, the array is in memory while an info is left, and it has been freed once none is.  An
    empty array, and an error, leave nothing behind. *)
Theorem device_list_shared w ops :
  (forall p, is_Some (ib_arcs w !! p) -> is_Some (ib_arrays w !! p)) ->
  match get_verbs_devices w with
  | Done (Ok live, w') =>
      exists p n w1 devices l,
        ibv_get_device_list w = ((Some p, n), w1) /\ ib_arrays w1 !! p = Some devices /\
        live = new_info l <$> seq 0 (length devices) /\
        exists live' w2, device_ops ops live w' = Done (live', w2) /\
          Forall (fun d => exists dev, devices !! vd_index d = Some dev /\ device d w2 = Done (dev, w2)) live' /\
          held_by (length live') p devices w w2
  | Done (Err _, w') => ib_arrays w' = ib_arrays w /\ ib_arcs w' = ib_arcs w
  | _ => False
  end.
Proof.
  intros Hwf. unfold get_verbs_devices. unfold bind at 1. unfold get_all_devices, bind at 1, call.
  destruct (ibv_get_device_list w) as [[[p|] n] w1] eqn:Eg; cbn [fst snd].
  2:{ cbv [bind gets ret]. by destruct (get_list_fails _ _ _ Eg). }
  destruct (get_list_allocates _ _ _ _ Eg) as (Hnm & Harc & devices & Hm & ->).
  assert (ib_arcs w !! p = None) as Hna.
  { destruct (ib_arcs w !! p) eqn:E; [|done]. destruct (Hwf p); [by eexists|]. congruence. }
  cbv [arc_new set_arcs modify]. unfold bind at 1. cbn [ret vl_list vl_num_devices].
  set (w2 := Build_IbWorld _ _ _ _). set (l := {| vl_list := p; vl_num_devices := _ |}).
  assert (held_by 1 p devices w w2) as H1 by (split; cbn; by rewrite ?Harc, ?Hm).
  destruct (new_infos_run 0 l p devices w w2 (seq 0 (length devices)) eq_refl H1) as (w3 & Hr & H3).
  unfold bind at 1. rewrite Hr. rewrite Nat.add_1_r in H3.
  destruct (arc_drop_run _ _ _ _ _ Hna Hnm H3) as (w4 & Hd & H4). unfold bind. rewrite Hd. cbn [ret].
  exists p, (length devices), w1, devices, l. split; [done|]. split; [by rewrite Hm, lookup_insert_eq|]. split; [done|].
  destruct (device_ops_run ops (new_info l <$> seq 0 (length devices)) p devices w w4 Hna Hnm)
    as (live' & w5 & Hops & Hl' & H5).
  - apply Forall_forall. intros d (i & -> & Hi%elem_of_seq)%list_elem_of_fmap. split; [done|]. cbn. lia.
  - by rewrite length_fmap.
  - exists live', w5. split; [done|]. split; [|done]. rewrite Forall_forall in *. intros d Hd'.
    eapply device_run; eauto.
Qed.
End VerbsShared.

(** ** [get_visible_domains], with the calls it makes *)
Section Visible.
Context {L1 L2 : Type} `{FiConsts} `{FiCalls L1} `{IbvCalls L2}.

Definition visible_domains : M (FiWorld L1 * IbWorld L2) (list (DomainInfo Z VerbsDeviceInfo)) :=
  let! efa_domains := on_state fst (fun f w => (f, w.2)) get_efa_domains in
  match efa_domains with
  | Ok (e :: es) => ret (InfoEfa <$> e :: es)
  | _ =>
      let! verbs_domains := on_state snd (fun b w => (w.1, b)) get_verbs_devices in
      match verbs_domains with
      | Ok infos => ret (InfoVerbs <$> infos)
      | Err _ => ret []
      end
  end.

(** It is the choice of [Topo] between the two lists; with cards of libfabric, libibverbs is not
    asked. *)
Lemma visible_domains_choice f b ds w' :
  visible_domains (f, b) = Done (ds, w') ->
  exists efa, get_efa_domains f = Done (efa, w'.1) /\
    (exists verbs, ds = get_visible_domains efa verbs /\
       (get_verbs_devices b = Done (verbs, w'.2) \/ w'.2 = b /\ exists es, efa = Ok es /\ es <> [])).
Proof.
  unfold visible_domains. intros (efa & s1 & He & Hv)%bind_done. unfold on_state in He. cbn [fst snd] in He.
  destruct (get_efa_domains f) as [[efa' f']| |]; simplify_eq.
  destruct efa as [[|e es]|err].
  2:{ cbv [ret] in Hv. simplify_eq. exists (Ok (e :: es)). split; [done|]. exists (Err (Custom "")). split; [done|].
      right. split; [done|]. by exists (e :: es). }
  all: apply bind_done in Hv as (v & s2 & Hv & Hr); unfold on_state in Hv; cbn [fst snd] in Hv;
    destruct (get_verbs_devices b) as [[v' b']| |] eqn:Ev; simplify_eq;
    eexists; (split; [destruct v; cbv [ret] in Hr; simplify_eq; reflexivity|]);
    exists v; destruct v; cbv [ret] in Hr; simplify_eq; auto.
Qed.
End Visible.

(** ** Witnesses: an allocator that hands out the first unused address *)
Module DevInfoWitness.
Definition unused {A} (m : gmap Z A) : Z := 1 + foldr Z.max 0 (map_to_list m).*1.

Lemma unused_fresh {A} (m : gmap Z A) : m !! unused m = None.
Proof.
  destruct (m !! unused m) as [i|] eqn:E; [|done]. exfalso. apply elem_of_map_to_list in E.
  assert (forall l : list Z, forall z, z ∈ l -> z <= foldr Z.max 0 l) as Hmax.
  { intros l z. induction l as [|y l IH]; cbn; [by intros ?%not_elem_of_nil|]. rewrite elem_of_cons. intros [->|Hz%IH]; lia. }
  assert (unused m ∈ (map_to_list m).*1) as Hin by (apply list_elem_of_fmap; by eexists (_, _)).
  apply Hmax in Hin. unfold unused in Hin. lia.
Qed.

Definition blank : FiAttrs :=
  {| at_caps := 0; at_ep_type := 0; at_prov_name := None; at_mr_mode := 0; at_threading := 0; at_name := []; at_nic := None |}.
Definition add (a : FiAttrs) (next : option Z) (m : gmap Z FiInfo) : gmap Z FiInfo :=
  <[unused m := {| fi_attrs := a; fi_next := next |}]> m.

(** The list of the cards, the last one allocated first. *)
Fixpoint build (cards : list (list Z)) (m : gmap Z FiInfo) : option Z * gmap Z FiInfo :=
  match cards with
  | [] => (None, m)
  | c :: cards =>
      let '(next, m) := build cards m in
      (Some (unused m), add (clear_prov_name (Build_FiAttrs 0 0 None 0 0 c None)) next m)
  end.

Definition copy (i : FiInfo) : FiAttrs := if owned i then fi_attrs i else clear_prov_name (fi_attrs i).

(** The state of the library is the names of the cards. *)
#[local] Instance fi_consts : FiConsts :=
  {| FI_MSG := 2; FI_RMA := 4; FI_HMEM := 8; FI_LOCAL_COMM := 16; FI_REMOTE_COMM := 32; FI_EP_RDM := 3;
     FI_MR_ENDPOINT := 64; FI_MR_ALLOCATED := 128; FI_MR_PROV_KEY := 256; FI_THREAD_DOMAIN := 2; FI_ENOMEM := 12 |}.
#[local] Instance fi_calls : FiCalls (list (list Z)) := {
  fi_dupinfo o w :=
    let m := fi_infos w in
    let a := match o with Some p => match m !! p with Some i => copy i | None => blank end | None => blank end in
    (Some (unused m), {| fi_infos := add a None m; fi_lib := fi_lib w |});
  fi_freeinfo p w :=
    {| fi_infos := remove_all (default [] (info_list (size (fi_infos w)) (fi_infos w) p)) (fi_infos w); fi_lib := fi_lib w |};
  fi_getinfo _ w :=
    let '(p, m) := build (fi_lib w) (fi_infos w) in ((if p then 0 else -61, p), {| fi_infos := m; fi_lib := fi_lib w |});
}.

Lemma owned_next a n n' : owned {| fi_attrs := a; fi_next := n |} = owned {| fi_attrs := a; fi_next := n' |}.
Proof. done. Qed.

Lemma build_list cards m p m' :
  build cards m = (Some p, m') ->
  exists l, linked m' p l /\ NoDup l /\ Forall (holds_owned m') l /\
    forall q, if decide (q ∈ l) then m !! q = None else m' !! q = m !! q.
Proof.
  revert p m'. induction cards as [|c cards IH]; intros p m'; cbn [build]; [done|].
  destruct (build cards m) as [next m1] eqn:E. intros [= <- <-]. set (u := unused m1).
  pose proof (unused_fresh m1 : m1 !! u = None) as Hu.
  destruct next as [r|].
  - destruct (IH r m1 eq_refl) as (l & Hl & Hn & Ho & Hd). exists (u :: l).
    assert (u ∉ l) as Hul.
    { intros Hul. rewrite Forall_forall in Ho. destruct (Ho u Hul) as (i & ? & _). congruence. }
    assert (forall q, q ∈ l -> add (clear_prov_name (Build_FiAttrs 0 0 None 0 0 c None)) (Some r) m1 !! q = m1 !! q) as Hs
      by (intros q Hq; apply lookup_insert_ne; set_solver).
    split_and!.
    + split; [done|]. eexists. split; [apply lookup_insert_eq|]. cbn [fi_next]. by apply (linked_subset m1).
    + by constructor.
    + constructor; [eexists; split; [apply lookup_insert_eq|done]|]. rewrite Forall_forall in *. intros q Hq.
      destruct (Ho q Hq) as (i & ? & ?). exists i. by rewrite Hs.
    + intros q. specialize (Hd q). destruct (decide (q = u)) as [->|Hq].
      * rewrite decide_True by set_solver. rewrite decide_False in Hd by done. congruence.
      * unfold add. rewrite lookup_insert_ne by done. repeat case_decide; set_solver.
  - assert (m1 = m) as ->.
    { destruct cards as [|c' cards]; cbn [build] in E; [by simplify_eq|]. by destruct (build cards m). }
    exists [u]. split_and!.
    + split; [done|]. eexists. by split; [apply lookup_insert_eq|].
    + apply NoDup_singleton.
    + apply Forall_singleton. eexists. by split; [apply lookup_insert_eq|].
    + intros q. case_decide as Hq; [apply list_elem_of_singleton in Hq; by subst|].
      apply lookup_insert_ne. set_solver.
Qed.

#[local] Instance fi_laws : FiLaws (list (list Z)).
Proof.
  split.
  - done.
  - intros o w q w' [= <- <-]. split; [apply unused_fresh|]. eexists. split; [reflexivity|]. cbn [fi_infos]. split.
    + destruct o as [p|]; [|done]. destruct (fi_infos w !! p) as [i|]; [|done]. unfold copy. by destruct (owned i) eqn:E.
    + intros p i -> Hi Ho. rewrite Hi. unfold copy. by rewrite Ho.
  - intros p l w Hl Hn Ho. cbn. by rewrite (linked_info_list _ _ l) by (done || by apply list_fits).
  - intros a w r w'. cbn. destruct (build (fi_lib w) (fi_infos w)) as [p m] eqn:E. intros [= _ -> <-]. cbn.
    destruct (fi_lib w) as [|c cards]; cbn [build] in E; [by simplify_eq|]. by destruct (build cards (fi_infos w)).
  - intros a w r p w'. cbn. destruct (build (fi_lib w) (fi_infos w)) as [p' m] eqn:E. intros [= _ -> <-].
    by apply (build_list _ _ _ _ E).
Qed.

Definition two_cards : FiWorld (list (list Z)) :=
  {| fi_infos := {[ 7 := {| fi_attrs := blank; fi_next := None |} ]}; fi_lib := [[101]; [102]] |}.

(** Two cards are listed and copied; dropping the copies in reverse leaves what was there. *)
Lemma get_efa_domains_owns_witness :
  exists vec w' w2, get_efa_domains two_cards = Done (Ok vec, w') /\ length vec = 2%nat /\
    for_each (reverse vec) drop_info w' = Done (tt, w2) /\ fi_infos w2 = fi_infos two_cards.
Proof.
  pose proof (get_efa_domains_owns two_cards) as Ht.
  destruct (get_efa_domains two_cards) as [[[vec|e] w']| |] eqn:E; [|by vm_compute in E..].
  destruct Ht as (_ & _ & Hdrop). destruct (Hdrop (reverse vec) (reverse_Permutation vec)) as (w2 & ? & ?).
  exists vec, w', w2. split; [done|]. split; [|done]. vm_compute in E. by injection E as <- _.
Defined.

#[local] Instance ib_calls : IbvCalls (list IbvDevice) := {
  ibv_get_device_list w :=
    ((Some (unused (ib_arrays w)), length (ib_lib w)),
     {| ib_arrays := <[unused (ib_arrays w) := ib_lib w]> (ib_arrays w); ib_arcs := ib_arcs w; ib_lib := ib_lib w |});
  ibv_free_device_list p w := {| ib_arrays := delete p (ib_arrays w); ib_arcs := ib_arcs w; ib_lib := ib_lib w |};
  ibv_errno _ := 12;
}.
#[local] Instance ib_laws : IbvLaws (list IbvDevice).
Proof.
  split; [done| |done]. intros w p n w' [= <- <- <-]. split; [apply unused_fresh|]. split; [done|]. by eexists.
Qed.

Definition mlx (n : Z) : IbvDevice := {| ibv_name := [n]; ibv_dev_path := []; ibv_ibdev_path := [] |}.
Definition two_devices : IbWorld (list IbvDevice) := {| ib_arrays := ∅; ib_arcs := ∅; ib_lib := [mlx 1; mlx 2] |}.

(** The second info is cloned and both originals are dropped: the clone still answers. *)
Lemma device_list_shared_witness :
  exists live w' d w2, get_verbs_devices two_devices = Done (Ok live, w') /\
    device_ops [CloneDevice 1; DropDevice 0; DropDevice 0] live w' = Done ([d], w2) /\ device d w2 = Done (mlx 2, w2).
Proof.
  pose proof (device_list_shared two_devices [CloneDevice 1; DropDevice 0; DropDevice 0]) as Ht.
  destruct (get_verbs_devices two_devices) as [[[live|e] w']| |] eqn:E; [|by vm_compute in E..].
  destruct Ht as (p & n & w1 & devices & l & Hg & Ha & -> & live' & w2 & Hops & Hdev & _); [by intros p [? ?]|].
  exists (new_info l <$> seq 0 (length devices)), w'.
  vm_compute in Hg. injection Hg as <- <- <-. vm_compute in Ha. injection Ha as <-.
  vm_compute in E. destruct l as [lp ln]. injection E as <- <- _ _ <-.
  vm_compute in Hops. injection Hops as <- <-. apply Forall_singleton in Hdev as (dev & Hd & Hrun).
  vm_compute in Hd. injection Hd as <-. eexists _, _. split; [done|]. split; [vm_compute; reflexivity|exact Hrun].
Defined.
End DevInfoWitness.
