(* ===== verification/TopoSpec.v ===== *)
(** * Theorems on topology discovery *)
From stdpp Require Import prelude gmap strings list sorting.
From S2P Require Import Prelude Api Utils TopoParse Sharding Provider DomainGroup Worker Topo.
Local Open Scope Z_scope.

(** ** Sorting *)
Lemma insert_by_perm {A} (le : A -> A -> bool) x l : insert_by le x l ≡ₚ x :: l.
Proof.
  induction l as [|y l IH]; cbn [insert_by]; [done|]. case_match; [done|]. rewrite IH. constructor.
Qed.

Lemma sort_by_perm {A} (le : A -> A -> bool) l : sort_by le l ≡ₚ l.
Proof.
  induction l as [|x l IH]; [done|]. cbn [sort_by foldr]. rewrite insert_by_perm. by constructor.
Qed.

(** ** The scan *)

(** In a PCI hierarchy the bus behind a bridge has a larger number than the bus of the bridge. *)
Definition bus_ordered (p : PciProp) : Prop :=
  0 <= pci_bus (pp_parent_bus p) < pci_bus (pp_addr p).

Lemma parent_bus_map_in l x p :
  parent_bus_map l !! x = Some p -> exists q, q ∈ l /\ pp_addr q = x /\ pp_parent_bus q = p.
Proof.
  unfold parent_bus_map.
  assert (forall m : gmap PciAddress PciAddress, foldl (fun m p => <[pp_addr p := pp_parent_bus p]> m) m l !! x = Some p ->
    m !! x = Some p \/ exists q, q ∈ l /\ pp_addr q = x /\ pp_parent_bus q = p) as Hg.
  { induction l as [|q l IH]; intros m; [by left|]. cbn [foldl].
    intros [Hm|(q' & Hq & Hq')]%IH; [|right; exists q'; set_solver].
    rewrite lookup_insert in Hm. case_decide; simplify_eq; [right; exists q; set_solver|by left]. }
  intros [Hm|?]%Hg; [by rewrite lookup_empty in Hm|done].
Qed.

Lemma climb_returns counts parents fuel x :
  (forall y p, parents !! y = Some p -> 0 <= pci_bus p < pci_bus y) ->
  pci_bus x < Z.of_nat fuel -> 0 <= pci_bus x -> exists y, climb fuel counts parents x = Done y.
Proof.
  intros Hp. revert x. induction fuel as [|fuel IH]; intros x Hf Hx; [lia|]. cbn [climb].
  destruct (counts !! x) as [[|[|n]]|]; eauto. destruct (parents !! x) as [p|] eqn:E; eauto.
  apply Hp in E. apply IH; lia.
Qed.

Lemma set_ancestors_returns counts parents fuel l :
  (forall y p, parents !! y = Some p -> 0 <= pci_bus p < pci_bus y) ->
  Forall (fun p => 0 <= pci_bus (pp_parent_bus p) < Z.of_nat fuel) l ->
  exists l', set_ancestors fuel counts parents l = Done l' /\ pp_addr <$> l' = pp_addr <$> l /\
    pp_numa_node <$> l' = pp_numa_node <$> l /\ pp_device_id <$> l' = pp_device_id <$> l.
Proof.
  intros Hp Hl. induction Hl as [|p l [Hb1 Hb2] Hl (l' & IH & Ha & Hn & Hd)]; [by exists []|].
  cbn [set_ancestors].
  destruct (climb_returns counts parents fuel (pp_parent_bus p) Hp Hb2 Hb1) as [y ->]. cbn [out_bind].
  rewrite IH. cbn [out_bind]. eexists. split; [done|]. csimpl. by rewrite Ha, Hn, Hd.
Qed.

(** C37: the scan of the PCI devices terminates.  The search for a branching ancestor follows
    parent links; if bus numbers grow from a bridge to what is behind it, 256 steps are enough for
    every device, so the scan returns all devices found, ordered by address. *)
Theorem scan_terminates read_file entries all :
  scan_entries read_file entries = Done (Ok all) ->
  Forall bus_ordered all -> Forall (fun p => pci_bus (pp_addr p) < 256) all ->
  exists l, scan_all_pci_devices read_file 256 (Some entries) = Done (Ok l) /\
    pp_addr <$> l ≡ₚ pp_addr <$> all /\
    pp_addr <$> l = pp_addr <$> sort_by (fun a b => pci_le (pp_addr a) (pp_addr b)) all.
Proof.
  intros Hs Ho Hb. unfold scan_all_pci_devices, rbind, ok_or. cbn [out_bind]. rewrite Hs. cbn [out_bind].
  set (sorted := sort_by _ all). assert (sorted ≡ₚ all) as Hp by apply sort_by_perm.
  destruct (set_ancestors_returns (children_count sorted) (parent_bus_map sorted) 256 sorted)
    as (l & -> & Ha & _).
  - intros y p (q & Hq & <- & <-)%parent_bus_map_in. rewrite Hp in Hq. by eapply Forall_forall in Ho.
  - rewrite Hp. apply Forall_forall. intros p Hin. eapply Forall_forall in Ho as [? ?]; [|exact Hin].
    eapply Forall_forall in Hb; [|exact Hin]. lia.
  - exists l. split; [done|]. rewrite Ha. split; [by rewrite Hp|done].
Qed.

(** ** Grouping by NUMA node *)
Definition at_node (n : Z) (p : PciProp) : Prop := pp_numa_node p = n.
#[export] Instance at_node_dec n p : Decision (at_node n p).
Proof. unfold at_node. apply _. Defined.

Definition on_node (n : Z) (l : list PciProp) : list PciProp := filter (at_node n) l.

Lemma on_node_snoc n l p :
  on_node n (l ++ [p]) = on_node n l ++ (if decide (pp_numa_node p = n) then [p] else []).
Proof.
  unfold on_node. rewrite filter_app, filter_cons. unfold at_node. by repeat case_decide.
Qed.

Lemma gpu_groups gpus n :
  foldl add_gpu ∅ gpus !! n =
  match on_node n gpus with [] => None | l => Some {| sg_gpus := l; sg_nics := [] |} end.
Proof.
  induction gpus as [|g gpus IH] using rev_ind; [done|].
  rewrite foldl_app, on_node_snoc. cbn [foldl]. unfold add_gpu at 1. rewrite lookup_insert.
  case_decide as Hn; subst.
  - rewrite IH. rewrite decide_True by done. destruct (on_node (pp_numa_node g) gpus); done.
  - rewrite IH, decide_False by done. by rewrite app_nil_r.
Qed.

Lemma nic_groups m nics n :
  foldl add_nic m nics !! n =
  (fun g => {| sg_gpus := sg_gpus g; sg_nics := sg_nics g ++ on_node n nics |}) <$> m !! n.
Proof.
  induction nics as [|p nics IH] using rev_ind.
  { cbn [foldl]. destruct (m !! n) as [[]|]; simpl; [|done]. by rewrite app_nil_r. }
  rewrite foldl_app, on_node_snoc. cbn [foldl]. unfold add_nic at 1.
  destruct (foldl add_nic m nics !! pp_numa_node p) as [g|] eqn:E.
  - rewrite lookup_insert. case_decide as Hn; subst.
    + rewrite decide_True by done. rewrite IH in E. destruct (m !! _); [|done].
      injection E as <-. simpl. by rewrite app_assoc.
    + rewrite decide_False, app_nil_r by done. apply IH.
  - case_decide as Hn; [subst|by rewrite app_nil_r].
    rewrite IH in E |- *. by destruct (m !! _).
Qed.

(** The group of a node that has a GPU. *)
Lemma switch_group_at gpus nics n g :
  foldl add_nic (foldl add_gpu ∅ gpus) nics !! n = Some g <->
  on_node n gpus <> [] /\ g = {| sg_gpus := on_node n gpus; sg_nics := on_node n nics |}.
Proof.
  rewrite nic_groups, gpu_groups. destruct (on_node n gpus) as [|p l]; simpl; split; naive_solver.
Qed.

(** ** Dividing cards and CPUs *)
Lemma take_drop_step {A} a b x (l : list A) :
  take a (drop x l) ++ take b (drop (x + a) l) = take (a + b) (drop x l).
Proof. rewrite <- drop_drop. apply take_take_drop. Qed.

Lemma vslice_ok {A} a b (v : list A) :
  (a <= b)%nat -> (b <= length v)%nat -> vslice a b v = Done (take (b - a) (drop a v)).
Proof.
  intros Ha Hb. unfold vslice. apply Nat.leb_le in Ha, Hb. by rewrite Ha, Hb.
Qed.

Record assigned (nics : list PciProp) (cpus : list Z) (npg cpg i j : nat) (gpus : list PciProp)
    (r : list PciTopoGroup) : Prop := {
  as_gpus : tg_gpu <$> r = gpus;
  as_nics : mjoin (tg_nics <$> r) = take (length gpus * npg) (drop (i * npg) nics);
  as_cpus : mjoin (tg_cpus <$> r) = take (length gpus * cpg) (drop (j * cpg) cpus);
  as_lengths : Forall (fun t => length (tg_nics t) = npg /\ length (tg_cpus t) = cpg) r;
}.

Lemma assign_gpus_spec numa_cpus counts nics npg n cpus cnt i gpus idx j :
  Forall (at_node n) gpus -> numa_cpus !! Z.to_nat n = Some cpus -> counts !! Z.to_nat n = Some cnt ->
  (0 < cnt)%nat -> idx !! Z.to_nat n = Some j ->
  ((i + length gpus) * npg <= length nics)%nat ->
  ((j + length gpus) * (length cpus / cnt) <= length cpus)%nat ->
  exists r, assign_gpus numa_cpus counts nics npg i gpus idx =
      Done (r, <[Z.to_nat n := (j + length gpus)%nat]> idx) /\
    assigned nics cpus npg (length cpus / cnt) i j gpus r.
Proof.
  intros Hg Hc Hn Hpos. revert i idx j. set (cpg := (length cpus / cnt)%nat).
  induction Hg as [|gpu gpus Hgpu Hg IH]; intros i idx j Hj Hi Hl.
  { exists []. cbn [assign_gpus length]. rewrite Nat.add_0_r, list_insert_id by done. by split. }
  cbn [assign_gpus length] in *. unfold at_node in Hgpu. rewrite Hgpu.
  rewrite vslice_ok by lia. cbn [out_bind]. unfold vget at 1. rewrite Hj. cbn [out_bind].
  unfold vget at 1. rewrite Hc. cbn [out_bind]. unfold vget at 1. rewrite Hn. cbn [out_bind].
  unfold checked_div. rewrite (proj2 (Nat.eqb_neq cnt 0)) by lia. cbn [out_bind]. fold cpg.
  rewrite vslice_ok by lia. cbn [out_bind].
  destruct (IH (S i) (<[Z.to_nat n := S j]> idx) (S j)) as (r & Hr & [Hgs Hns Hcs Hls]); [..|lia|lia|].
  { apply list_lookup_insert_eq. by eapply lookup_lt_Some. }
  rewrite Hr. cbn [out_bind fst snd]. eexists. split.
  { rewrite list_insert_insert_eq. do 2 f_equal. f_equal. lia. }
  split; csimpl.
  - by rewrite Hgs.
  - rewrite Hns. replace (npg + i * npg - i * npg)%nat with npg by lia.
    rewrite (Nat.mul_succ_l i npg). apply take_drop_step.
  - rewrite Hcs. replace (j * cpg + cpg - j * cpg)%nat with cpg by lia.
    rewrite (Nat.mul_succ_l j cpg). apply take_drop_step.
  - constructor; [|done]. simpl. rewrite !length_take, !length_drop. lia.
Qed.

(** Distinct nodes have disjoint devices. *)
Lemma on_node_rest n m l :
  m <> n -> on_node m (filter (fun p => ~ at_node n p) l) = on_node m l.
Proof.
  intros Hmn. unfold on_node. rewrite list_filter_filter. apply list_filter_iff. intros p.
  unfold at_node. split; [tauto|]. intros ->. done.
Qed.

Lemma nodes_submseteq ns l : NoDup ns -> mjoin ((fun n => on_node n l) <$> ns) ⊆+ l.
Proof.
  intros Hnd. revert l. induction Hnd as [|n ns Hn Hnd IH]; intros l; csimpl; [apply submseteq_nil_l|].
  trans (on_node n l ++ filter (fun p => ~ at_node n p) l).
  2: { apply Permutation_submseteq, filter_app_complement. }
  apply submseteq_skips_l. rewrite <- (IH (filter (fun p => ~ at_node n p) l)).
  apply reflexive_eq. f_equal. apply list_fmap_ext. intros i m Hm%list_elem_of_lookup_2.
  symmetry. apply on_node_rest. set_solver.
Qed.

Lemma nodes_partition ns l :
  NoDup ns -> (forall p, p ∈ l -> pp_numa_node p ∈ ns) ->
  mjoin ((fun n => on_node n l) <$> ns) ≡ₚ l.
Proof.
  intros Hnd. revert l. induction Hnd as [|n ns Hn Hnd IH]; intros l Hin; csimpl.
  { destruct l as [|p l]; [done|]. specialize (Hin p). set_solver. }
  trans (on_node n l ++ filter (fun p => ~ at_node n p) l); [|apply filter_app_complement].
  apply Permutation_app; [done|].
  rewrite <- (IH (filter (fun p => ~ at_node n p) l)).
  - apply reflexive_eq. f_equal. apply list_fmap_ext. intros i m Hm%list_elem_of_lookup_2.
    symmetry. apply on_node_rest. set_solver.
  - intros p [Hp Hl]%list_elem_of_filter. specialize (Hin p Hl). unfold at_node in Hp. set_solver.
Qed.

(** ** Counting *)
Lemma count_gpus_spec gpus v :
  Forall (fun p => 0 <= pp_numa_node p < Z.of_nat (length v)) gpus ->
  exists v', count_gpus gpus v = Done v' /\ length v' = length v /\
    forall n c, 0 <= n -> v !! Z.to_nat n = Some c -> v' !! Z.to_nat n = Some (c + length (on_node n gpus))%nat.
Proof.
  intros Hg. revert v Hg. induction gpus as [|g gpus IH]; intros v Hg.
  { exists v. split; [done|]. split; [done|]. intros. by rewrite Nat.add_0_r. }
  apply Forall_cons in Hg as [Hb Hg]. cbn [count_gpus].
  unfold bump_at. destruct (v !! Z.to_nat (pp_numa_node g)) as [k|] eqn:E;
    [|apply lookup_ge_None in E; lia].
  cbn [out_bind]. destruct (IH (<[Z.to_nat (pp_numa_node g) := S k]> v)) as (v' & -> & Hl & Hv).
  { by rewrite length_insert. }
  exists v'. rewrite length_insert in Hl. do 2 (split; [done|]). intros n c Hn Hc.
  unfold on_node. rewrite filter_cons. case_decide as Ha; unfold at_node in Ha.
  - subst. rewrite (Hv _ (S k)) by (try lia; apply list_lookup_insert_eq; by eapply lookup_lt_Some).
    rewrite E in Hc. simplify_eq. simpl. f_equal. unfold on_node. lia.
  - rewrite (Hv n c); [done|done|]. rewrite list_lookup_insert_ne; [done|]. intros ?. apply Ha. lia.
Qed.

Lemma count_gpus_panics gpus v :
  Forall (fun p => 0 <= pp_numa_node p) gpus ->
  Exists (fun p => Z.of_nat (length v) <= pp_numa_node p) gpus ->
  count_gpus gpus v = Panic "index out of bounds".
Proof.
  revert v. induction gpus as [|g gpus IH]; intros v Hpos Hex; [by inversion Hex|].
  apply Forall_cons in Hpos as [Hp Hpos]. cbn [count_gpus]. unfold bump_at.
  destruct (v !! Z.to_nat (pp_numa_node g)) as [k|] eqn:E; [|done]. cbn [out_bind].
  apply IH; [done|]. rewrite length_insert. apply Exists_cons in Hex as [Hex|Hex]; [|done].
  apply lookup_lt_Some in E. lia.
Qed.

Section Assign.
Context (gpus nics : list PciProp) (numa_cpus : list (list Z)) (counts : list nat).
Context (Hcounts : forall n, 0 <= n -> (Z.to_nat n < length numa_cpus)%nat ->
  counts !! Z.to_nat n = Some (length (on_node n gpus))).

Definition cpus_at (n : Z) : list Z := default [] (numa_cpus !! Z.to_nat n).
Definition nics_share (n : Z) : nat := (length (on_node n nics) / length (on_node n gpus))%nat.
Definition cpus_share (n : Z) : nat := (length (cpus_at n) / length (on_node n gpus))%nat.

Definition group_at (n : Z) : PciSwitchGroup :=
  {| sg_gpus := on_node n gpus; sg_nics := on_node n nics |}.
Definition node_ok (n : Z) : Prop :=
  0 <= n /\ (Z.to_nat n < length numa_cpus)%nat /\ on_node n gpus <> [].
Definition assigned_at (n : Z) (r : list PciTopoGroup) : Prop :=
  assigned (on_node n nics) (cpus_at n) (nics_share n) (cpus_share n) 0 0 (on_node n gpus) r.

Lemma share_le (a b : nat) : (a * (b / a) <= b)%nat.
Proof. destruct a as [|a]; [simpl; lia|]. apply Nat.Div0.mul_div_le. Qed.

Lemma assign_switches_spec ns idx :
  NoDup ns -> Forall node_ok ns -> (forall n, n ∈ ns -> idx !! Z.to_nat n = Some 0%nat) ->
  exists rs, assign_switches numa_cpus counts (group_at <$> ns) idx = Done (mjoin rs) /\
    Forall2 assigned_at ns rs.
Proof.
  intros Hnd. revert idx. induction Hnd as [|n ns Hn Hnd IH]; intros idx Hok Hidx.
  { by exists []. }
  apply Forall_cons in Hok as [(Hn0 & Hlen & Hne) Hok]. csimpl. cbn [assign_switches group_at sg_gpus sg_nics].
  assert (0 < length (on_node n gpus))%nat as Hpos by (destruct (on_node n gpus); simpl; [done|lia]).
  unfold checked_div at 1. rewrite (proj2 (Nat.eqb_neq _ 0)) by lia. cbn [out_bind].
  destruct (lookup_lt_is_Some_2 numa_cpus (Z.to_nat n) Hlen) as [cpus Hcpus].
  assert (cpus_at n = cpus) as Ec by (unfold cpus_at; by rewrite Hcpus).
  destruct (assign_gpus_spec numa_cpus counts (on_node n nics) (nics_share n) n cpus
    (length (on_node n gpus)) 0 (on_node n gpus) idx 0) as (r & Hr & Ha).
  { apply Forall_forall. intros p Hp. by apply list_elem_of_filter in Hp as [? _]. }
  { done. } { by apply Hcounts. } { done. } { apply Hidx. set_solver. }
  { apply share_le. } { apply share_le. }
  fold (nics_share n). rewrite Hr. cbn [out_bind fst snd].
  destruct (IH (<[Z.to_nat n := length (on_node n gpus)]> idx)) as (rs & Hrs & Hall); [done| |].
  { intros m Hm. rewrite list_lookup_insert_ne; [apply Hidx; set_solver|].
    eapply Forall_forall in Hok as (? & _); [|exact Hm]. intros E. apply Hn.
    by rewrite <- (Z2Nat.inj n m) in Hm by lia. }
  change (0 + length (on_node n gpus))%nat with (length (on_node n gpus)). rewrite Hrs. cbn [out_bind].
  exists (r :: rs). split; [done|]. constructor; [|done]. unfold assigned_at, cpus_share. by rewrite Ec.
Qed.

Lemma groups_of_nodes :
  exists ns, switch_groups gpus nics = group_at <$> ns /\ NoDup ns /\
    (forall n, n ∈ ns <-> on_node n gpus <> []).
Proof.
  unfold switch_groups. set (m := foldl add_nic _ nics).
  destruct (Permutation_map_inv snd (map_to_list m) (sort_by_perm group_le (map_to_list m).*2))
    as (l & Hl & Hp).
  exists (l.*1). split; [|split].
  - trans (l.*2); [exact Hl|].
    assert (Forall (fun kv => kv.2 = group_at kv.1) l) as Hg.
    { apply Forall_forall. intros [k g] Hin. rewrite <- Hp in Hin.
      apply elem_of_map_to_list, switch_group_at in Hin as [_ ->]. done. }
    clear Hl Hp. induction Hg as [|kv l Hkv Hg IH]; csimpl; [done|]. by rewrite Hkv, IH.
  - rewrite <- Hp. apply NoDup_fst_map_to_list.
  - intros n. rewrite <- Hp. rewrite list_elem_of_fmap. split.
    + intros ([k g] & -> & Hin). by apply elem_of_map_to_list, switch_group_at in Hin as [? _].
    + intros Hne. exists (n, group_at n). split; [done|]. apply elem_of_map_to_list, switch_group_at. done.
Qed.
End Assign.

(** What a division of cards and CPUs over GPUs should be. *)
Record fair_topo (gpus nics : list PciProp) (numa_cpus : list (list Z)) (topo : list PciTopoGroup) : Prop := {
  ft_gpus : tg_gpu <$> topo ≡ₚ gpus;
  ft_nics : mjoin (tg_nics <$> topo) ⊆+ nics;
  ft_node : forall t, t ∈ topo -> let n := pp_numa_node (tg_gpu t) in
    Forall (at_node n) (tg_nics t) /\ length (tg_nics t) = nics_share gpus nics n /\
    length (tg_cpus t) = cpus_share gpus numa_cpus n;
  ft_cpus : forall n, mjoin (tg_cpus <$> filter (fun t => at_node n (tg_gpu t)) topo)
    `prefix_of` cpus_at numa_cpus n;
  ft_all_cpus : mjoin (tg_cpus <$> topo) ⊆+ mjoin numa_cpus;
}.

Lemma assigned_nodes gpus nics numa_cpus n r t :
  assigned_at gpus nics numa_cpus n r -> t ∈ r ->
  pp_numa_node (tg_gpu t) = n /\ Forall (at_node n) (tg_nics t) /\
  length (tg_nics t) = nics_share gpus nics n /\ length (tg_cpus t) = cpus_share gpus numa_cpus n.
Proof.
  intros [Hg Hn _ Hl] Ht. split.
  { assert (tg_gpu t ∈ on_node n gpus) as Hin by (rewrite <- Hg; by apply list_elem_of_fmap_2).
    by apply list_elem_of_filter in Hin as [? _]. }
  eapply Forall_forall in Hl as [? ?]; [|exact Ht]. split; [|done].
  apply Forall_forall. intros p Hp.
  assert (p ∈ mjoin (tg_nics <$> r)) as Hj by (apply list_elem_of_join; eauto using list_elem_of_fmap_2).
  rewrite Hn in Hj. apply elem_of_take in Hj as (i & Hi & _). rewrite lookup_drop in Hi.
  apply list_elem_of_lookup_2, list_elem_of_filter in Hi as [? _]. done.
Qed.

Lemma assigned_filter gpus nics numa_cpus ns rs m :
  NoDup ns -> Forall2 (assigned_at gpus nics numa_cpus) ns rs ->
  mjoin (tg_cpus <$> filter (fun t => at_node m (tg_gpu t)) (mjoin rs)) `prefix_of` cpus_at numa_cpus m.
Proof.
  intros Hnd Hall. revert Hnd. induction Hall as [|n r ns rs Ha Hall IH]; intros Hnd; [apply prefix_nil|].
  apply NoDup_cons in Hnd as [Hn Hnd]. specialize (IH Hnd). change (mjoin (r :: rs)) with (r ++ mjoin rs). rewrite filter_app.
  destruct (decide (m = n)) as [->|Hne].
  - assert (filter (fun t => at_node n (tg_gpu t)) (mjoin rs) = []) as ->.
    { apply filter_none. intros t (r' & Ht & Hr')%list_elem_of_join Hat.
      apply list_elem_of_lookup in Hr' as [i Hi].
      destruct (Forall2_lookup_r _ _ _ _ _ Hall Hi) as (n' & Hn' & Ha').
      destruct (assigned_nodes _ _ _ _ _ _ Ha' Ht) as [Hnode _]. unfold at_node in Hat.
      apply Hn. rewrite Hat in Hnode. subst. by eapply list_elem_of_lookup_2. }
    rewrite app_nil_r. rewrite (filter_all _ r).
    + rewrite (as_cpus _ _ _ _ _ _ _ _ Ha). simpl. rewrite drop_0. apply prefix_take.
    + intros t Ht. by destruct (assigned_nodes _ _ _ _ _ _ Ha Ht) as [? _].
  - rewrite filter_none; [exact IH|]. intros t Ht Hat.
    destruct (assigned_nodes _ _ _ _ _ _ Ha Ht) as [Hnode _]. unfold at_node in Hat. congruence.
Qed.

(** Different nodes have different lists of CPUs. *)
Lemma join_positions (pre l : list (list Z)) :
  (seq (length pre) (length l) ≫= fun i => default [] ((pre ++ l) !! i)) = mjoin l.
Proof.
  revert pre. induction l as [|x l IH]; intros pre; [done|]. cbn [length seq]. rewrite bind_cons.
  rewrite lookup_app_r, Nat.sub_diag by lia. cbn [lookup list_lookup default from_option id].
  change (mjoin (x :: l)) with (x ++ mjoin l). f_equal. rewrite <- (IH (pre ++ [x])), length_app. cbn [length].
  rewrite Nat.add_1_r. by rewrite <- (assoc_L (++)).
Qed.

Lemma nodes_cpus numa_cpus ns :
  NoDup ns -> Forall (fun n => 0 <= n < Z.of_nat (length numa_cpus)) ns ->
  (ns ≫= cpus_at numa_cpus) ⊆+ mjoin numa_cpus.
Proof.
  intros Hnd Hns. rewrite <- (join_positions [] numa_cpus). cbn [length app].
  trans ((Z.to_nat <$> ns) ≫= fun i => default [] (numa_cpus !! i)).
  { apply reflexive_eq. clear Hnd Hns. induction ns as [|n ns IH]; [done|]. rewrite fmap_cons, !bind_cons. by f_equal. }
  apply bind_submseteq, NoDup_submseteq.
  - apply NoDup_alt. intros i j x Hi Hj. rewrite list_lookup_fmap in Hi, Hj.
    destruct (ns !! i) as [a|] eqn:Ei; [|done]. destruct (ns !! j) as [b|] eqn:Ej; [|done]. simplify_eq/=.
    pose proof (proj1 (Forall_lookup _ _) Hns _ _ Ei). pose proof (proj1 (Forall_lookup _ _) Hns _ _ Ej). simpl in *.
    eapply NoDup_lookup; [done|exact Ei|]. rewrite Ej. f_equal. lia.
  - intros x (n & -> & Hn)%list_elem_of_fmap. eapply Forall_forall in Hns; [|exact Hn]. simpl in Hns. apply elem_of_seq. lia.
Qed.

Lemma submseteq_NoDup {A} (l k : list A) : l ⊆+ k -> NoDup k -> NoDup l.
Proof. intros [m ->]%submseteq_Permutation. by intros [? _]%NoDup_app. Qed.

Lemma fair_assigned gpus nics numa_cpus ns rs :
  NoDup ns -> (forall p, p ∈ gpus -> pp_numa_node p ∈ ns) ->
  Forall (fun n => 0 <= n < Z.of_nat (length numa_cpus)) ns ->
  Forall2 (assigned_at gpus nics numa_cpus) ns rs -> fair_topo gpus nics numa_cpus (mjoin rs).
Proof.
  intros Hnd Hin Hns Hall. split.
  - trans (mjoin ((fun n => on_node n gpus) <$> ns)); [|by apply nodes_partition].
    apply reflexive_eq. clear Hnd Hin Hns. induction Hall as [|n r ns rs Ha Hall IH]; [done|].
    change (mjoin (r :: rs)) with (r ++ mjoin rs). rewrite fmap_app, IH. csimpl. f_equal. apply (as_gpus _ _ _ _ _ _ _ _ Ha).
  - trans (mjoin ((fun n => on_node n nics) <$> ns)); [|by apply nodes_submseteq].
    clear Hnd Hin Hns. induction Hall as [|n r ns rs Ha Hall IH]; [done|].
    change (mjoin (r :: rs)) with (r ++ mjoin rs). rewrite fmap_app, join_app. csimpl. apply submseteq_app; [|done].
    rewrite (as_nics _ _ _ _ _ _ _ _ Ha). simpl. rewrite drop_0. apply sublist_submseteq, sublist_take.
  - intros t (r & Ht & Hr)%list_elem_of_join n. apply list_elem_of_lookup in Hr as [i Hi].
    destruct (Forall2_lookup_r _ _ _ _ _ Hall Hi) as (n' & _ & Ha).
    destruct (assigned_nodes _ _ _ _ _ _ Ha Ht) as [Hnode ?]. subst n. by rewrite Hnode.
  - intros n. by eapply assigned_filter.
  - trans (ns ≫= cpus_at numa_cpus); [|by apply nodes_cpus].
    clear Hnd Hin Hns. induction Hall as [|n r ns rs Ha Hall IH]; [done|].
    change (mjoin (r :: rs)) with (r ++ mjoin rs). rewrite fmap_app, join_app, bind_cons. apply submseteq_app; [|done].
    rewrite (as_cpus _ _ _ _ _ _ _ _ Ha). simpl. rewrite drop_0. apply sublist_submseteq, sublist_take.
Qed.

Section Detect.
Context (all_pcis : list PciProp) (numa_cpus : list (list Z)) (gpu_id nic_id : PciDeviceId).

Definition gpus_of : list PciProp := filter (fun p => pp_device_id p = gpu_id) all_pcis.
Definition nics_of : list PciProp := filter (fun p => pp_device_id p = nic_id) all_pcis.

(** C21: cards and CPUs are divided fairly.  If the NUMA node of every GPU is an index of the list
    of CPUs (otherwise it panics or reads another node's list), [detect_system_topo] returns, with
    one group per GPU; a card is given to at most one GPU, and only to one of its own node; GPUs
    of the same node get equally many cards and CPUs, the integer share of what the node has; the
    CPUs given to the GPUs of a node are consecutive slices of that node's list.  If the lists of
    the nodes are disjoint and repeat no CPU, no CPU is given twice. *)
Theorem system_topo_fair :
  Forall (fun p => 0 <= pp_numa_node p < Z.of_nat (length numa_cpus)) gpus_of ->
  exists topo, detect_system_topo all_pcis (Ok numa_cpus) gpu_id nic_id = Done (Ok topo) /\
    fair_topo gpus_of nics_of numa_cpus topo /\
    (NoDup (mjoin numa_cpus) -> NoDup (mjoin (tg_cpus <$> topo))).
Proof.
  intros Hg. unfold detect_system_topo. fold gpus_of nics_of.
  destruct (count_gpus_spec gpus_of (replicate (length numa_cpus) 0%nat)) as (counts & -> & Hl & Hc).
  { by rewrite length_replicate. }
  cbn [out_bind]. destruct (groups_of_nodes gpus_of nics_of) as (ns & -> & Hnd & Hns).
  assert (forall n, n ∈ ns -> node_ok gpus_of numa_cpus n) as Hok.
  { intros n Hn. apply Hns in Hn as Hne. destruct (on_node n gpus_of) as [|p l] eqn:E; [done|].
    assert (p ∈ on_node n gpus_of) as Hp by (rewrite E; set_solver).
    apply list_elem_of_filter in Hp as [Hpn Hp]. unfold at_node in Hpn.
    eapply Forall_forall in Hg; [|exact Hp]. split; [lia|]. split; [lia|]. by rewrite E. }
  destruct (assign_switches_spec gpus_of nics_of numa_cpus counts) with (ns := ns)
    (idx := replicate (length numa_cpus) 0%nat) as (rs & -> & Hall); [|done|by apply Forall_forall| |].
  - intros n Hn Hlt. rewrite (Hc n 0%nat) by (try done; by apply lookup_replicate_2). done.
  - intros n Hn. apply lookup_replicate_2. by destruct (Hok n Hn) as (_ & ? & _).
  - assert (fair_topo gpus_of nics_of numa_cpus (mjoin rs)) as Hfair;
      [|eexists; split; [done|]; split; [done|]; by apply submseteq_NoDup, Hfair].
    apply fair_assigned with (ns := ns); [done| | |done];
      [|apply Forall_forall; intros n Hn; destruct (Hok n Hn) as (? & ? & _); lia].
    intros p Hp. apply Hns. intros E. assert (p ∈ on_node (pp_numa_node p) gpus_of) as Hin.
    { by apply list_elem_of_filter. } rewrite E in Hin. set_solver.
Qed.

(** ... and otherwise it panics. *)
Lemma system_topo_panics :
  Forall (fun p => 0 <= pp_numa_node p) gpus_of ->
  Exists (fun p => Z.of_nat (length numa_cpus) <= pp_numa_node p) gpus_of ->
  detect_system_topo all_pcis (Ok numa_cpus) gpu_id nic_id = Panic "index out of bounds".
Proof.
  intros Hp Hex. unfold detect_system_topo. fold gpus_of nics_of.
  rewrite count_gpus_panics; [done|done|]. by rewrite length_replicate.
Qed.
End Detect.

(** ** NUMA nodes and positions in the list of CPUs *)

(** The nodes below [n] that have CPUs. *)
Definition rank (m : gmap Z (list Z)) (n : Z) : nat := length (omap (fun k => m !! k) (seqZ 0 n)).

Lemma omap_full {A B} (f : A -> option B) l :
  length (omap f l) = length l <-> (forall x, x ∈ l -> is_Some (f x)).
Proof.
  assert (forall l, (length (omap f l) <= length l)%nat) as Hle.
  { clear l. induction l as [|x l IH]; csimpl; [done|]. destruct (f x); simpl; lia. }
  induction l as [|x l IH]; csimpl; [set_solver|]. destruct (f x) as [y|] eqn:E; simpl.
  - split.
    + intros [= Hl] z [->|Hz]%elem_of_cons; [by rewrite E|]. by apply IH.
    + intros Hall. f_equal. apply IH. set_solver.
  - split; [specialize (Hle l); lia|]. intros Hall. specialize (Hall x ltac:(set_solver)). rewrite E in Hall.
    by destruct Hall.
Qed.

(** The list of CPUs is indexed by the nodes that have CPUs, not by node ids.  The CPUs of node
    [n] are at position [rank m n], the number of nodes below [n] with CPUs, which is [n] iff all
    nodes below [n] have CPUs.  [detect_system_topo] indexes the list with node ids: on a machine
    with a node without CPUs (for instance device memory) below the node of a GPU, it takes the
    CPUs of another node, or panics. *)
Theorem numa_cpus_positions read_file entries m max_node n cpus :
  scan_nodes entries ∅ 0 = Ok (m, max_node) -> 0 <= n <= max_node -> m !! n = Some cpus ->
  exists numa_cpus, get_numa_physical_cpus read_file (Some entries) = Ok numa_cpus /\
    numa_cpus !! rank m n = Some cpus /\
    (rank m n = Z.to_nat n <-> forall k, 0 <= k < n -> is_Some (m !! k)) /\
    length numa_cpus = rank m (max_node + 1).
Proof.
  intros Hs Hn Hm. unfold get_numa_physical_cpus. rewrite Hs.
  assert (numa_list m max_node !! rank m n = Some cpus) as Hl.
  { unfold numa_list, rank. replace (max_node + 1) with (n + (max_node + 1 - n)) by lia.
    rewrite (seqZ_app 0 n) by lia. rewrite omap_app.
    rewrite lookup_app_r by lia. rewrite Nat.sub_diag. rewrite Z.add_0_l.
    rewrite (seqZ_cons n) by lia. csimpl. by rewrite Hm. }
  rewrite decide_False by (intros ->; by rewrite lookup_empty in Hm).
  destruct (numa_list m max_node) as [|c l] eqn:E; [done|]. exists (c :: l). split; [done|].
  split; [done|]. split; [|rewrite <- E; done].
  unfold rank. replace (Z.to_nat n) with (length (seqZ 0 n)) by by rewrite length_seqZ.
  rewrite omap_full. setoid_rewrite elem_of_seqZ. split; intros Hall k Hk; apply Hall; lia.
Qed.

(** ** Visible devices *)
Section Visible.
Context {E V : Type}.

Lemma take_nics_perm nics (m : gmap PciAddress (DomainInfo E V)) ds m' :
  take_nics nics m = (ds, m') -> (map_to_list m).*2 ≡ₚ ds ++ (map_to_list m').*2.
Proof.
  revert m ds. induction nics as [|nic nics IH]; intros m ds; cbn [take_nics]; [by intros [= <- <-]|].
  destruct (m !! pp_addr nic) as [d|] eqn:Em; [|by apply IH].
  destruct (take_nics nics (delete (pp_addr nic) m)) as [ds1 m1] eqn:Et. intros [= <- <-].
  rewrite <- (map_to_list_delete m (pp_addr nic) d Em). csimpl. by rewrite (IH _ _ Et).
Qed.

(** The groups the process sees are disjoint.  Every group has a visible GPU of its own and at
    least one card; each visible card is in at most one group; the group's CPUs and cards are those
    the system topology gives to that GPU. *)
Theorem visible_groups_disjoint topo gpus (nics : gmap PciAddress (DomainInfo E V)) :
  (forall a b d, gpus !! a = Some d -> gpus !! b = Some d -> a = b) ->
  map_Forall (fun _ d => in_u 8 d) gpus ->
  let r := visible_groups topo gpus nics in
  NoDup (tp_cuda_device <$> r) /\ mjoin (tp_domains <$> r) ⊆+ (map_to_list nics).*2 /\
  Forall (fun g => tp_domains g <> [] /\
    exists t, t ∈ topo /\ gpus !! pp_addr (tg_gpu t) = Some (tp_cuda_device g) /\ tp_cpus g = tg_cpus t) r.
Proof.
  revert gpus nics. induction topo as [|t topo IH]; intros gpus nics Hinj Hb; cbn zeta.
  { simpl. split; [constructor|]. split; [apply submseteq_nil_l|constructor]. }
  cbn [visible_groups]. destruct (gpus !! pp_addr (tg_gpu t)) as [dev|] eqn:Eg.
  2: { destruct (IH gpus nics Hinj Hb) as (H1 & H2 & H3). do 2 (split; [done|]).
       eapply Forall_impl; [exact H3|]. intros g (? & t' & ? & ?). split; [done|]. exists t'. set_solver. }
  destruct (take_nics (tg_nics t) nics) as [ds nics'] eqn:Et.
  assert (as_u8 dev = dev) as Hdev by (apply wrapu_small; by apply Hb in Eg).
  pose proof (take_nics_perm _ _ _ _ Et) as Hp.
  destruct (IH (delete (pp_addr (tg_gpu t)) gpus) nics') as (H1 & H2 & H3).
  { intros a b d [? ?]%lookup_delete_Some [? ?]%lookup_delete_Some. eauto. }
  { by apply map_Forall_delete. }
  assert (Forall (fun g => tp_domains g <> [] /\
    exists t', t' ∈ t :: topo /\ gpus !! pp_addr (tg_gpu t') = Some (tp_cuda_device g) /\
      tp_cpus g = tg_cpus t') (visible_groups topo (delete (pp_addr (tg_gpu t)) gpus) nics')) as H3'.
  { eapply Forall_impl; [exact H3|]. intros g (? & t' & ? & [_ ?]%lookup_delete_Some & ?).
    split; [done|]. exists t'. set_solver. }
  destruct ds as [|d ds].
  { split; [done|]. split; [by rewrite Hp|done]. }
  csimpl. rewrite Hdev. split; [|split].
  - constructor; [|done]. intros (g & Hg & Hin)%list_elem_of_fmap.
    eapply Forall_forall in H3 as (_ & t' & _ & [Hne Ht']%lookup_delete_Some & _); [|exact Hin].
    apply Hne. symmetry. eapply Hinj; [|exact Eg]. by rewrite Hg.
  - rewrite Hp. by apply (submseteq_skips_l (d :: ds)).
  - constructor; [|done]. split; [done|]. exists t. set_solver.
Qed.
End Visible.

(** ** The builder *)
Lemma size_list_to_set_NoDup {A} `{Countable A} (l : list A) :
  size (list_to_set l : gset A) = length l <-> NoDup l.
Proof.
  split; [|apply size_list_to_set]. 
  assert (forall l : list A, (size (list_to_set l : gset A) <= length l)%nat) as Hle.
  { clear l. induction l as [|x l IH]; [done|]. cbn [list_to_set length].
    pose proof (size_union_alt ({[x]} : gset A) (list_to_set l)) as Hu. rewrite size_singleton in Hu.
    pose proof (subseteq_size (list_to_set l ∖ {[x]} : gset A) (list_to_set l) ltac:(set_solver)). lia. }
  induction l as [|x l IH]; [constructor|]. cbn [list_to_set length]. intros Hs.
  destruct (decide (x ∈ l)) as [Hx|Hx].
  - assert ({[x]} ∪ list_to_set l = (list_to_set l : gset A)) as Hu by set_solver.
    rewrite Hu in Hs. specialize (Hle l). lia.
  - rewrite size_union, size_singleton in Hs by set_solver. constructor; [done|]. apply IH. lia.
Qed.

Section Builder.
Context {E V : Type} (name : DomainInfo E V -> list Z).

(** What a configuration must satisfy for one GPU. *)
Definition spec_ok (topo : list (TopologyGroup E V)) (spec : GpuDomainSpec) : Prop :=
  exists i t, list_find (fun t => tp_cuda_device t = gs_cuda_device spec) topo = Some (i, t) /\
    NoDup (name <$> gs_domains spec) /\
    Forall (fun d => name d ∈ name <$> tp_domains t) (gs_domains spec) /\
    gs_pin_worker_cpu spec ∈ tp_cpus t /\ gs_pin_uvm_cpu spec ∈ tp_cpus t.

Definition worker_of (spec : GpuDomainSpec (E := E) (V := V)) : Z * WorkerSpec_ :=
  (gs_cuda_device spec, {| wk_domain_list := gs_domains spec;
     wk_pin_worker_cpu := Some (gs_pin_worker_cpu spec); wk_pin_uvm_cpu := Some (gs_pin_uvm_cpu spec) |}).

Lemma check_gpu_ok topo spec w :
  check_gpu name topo spec = Ok w <-> spec_ok topo spec /\ w = worker_of spec.
Proof.
  unfold check_gpu, spec_ok. destruct (list_find _ topo) as [[i t]|]; [|naive_solver].
  pose proof (size_list_to_set_NoDup (name <$> gs_domains spec)) as Hnd. rewrite length_fmap in Hnd.
  destruct (Nat.eqb_spec (size (list_to_set (name <$> gs_domains spec) : gset (list Z)))
    (length (gs_domains spec))) as [Hs|Hs]; cbn [negb]; [|naive_solver].
  destruct (list_find (fun d => ~ name d ∈ name <$> tp_domains t) (gs_domains spec)) as [[j d]|] eqn:Ed.
  { apply list_find_Some in Ed as (Hd & Hn & _). split; [done|].
    intros [(? & ? & [= <- <-] & _ & Hf & _) _]. apply list_elem_of_lookup_2 in Hd.
    by eapply Forall_forall in Hf. }
  apply list_find_None in Ed.
  assert (Forall (fun d => name d ∈ name <$> tp_domains t) (gs_domains spec)) as Hdom.
  { eapply Forall_impl; [exact Ed|]. intros d Hd. by apply dec_stable. }
  destruct (list_find (fun cpu => ~ (cpu ∈ tp_cpus t)) [gs_pin_worker_cpu spec; gs_pin_uvm_cpu spec]) as [[j c]|] eqn:Ec.
  { apply list_find_Some in Ec as (Hc & Hn & _). split; [done|].
    intros [(? & ? & [= <- <-] & _ & _ & H1 & H2) _].
    destruct j as [|[|]]; simpl in Hc; by simplify_eq. }
  apply list_find_None in Ec. rewrite !Forall_cons in Ec. destruct Ec as (H1%dec_stable & H2%dec_stable & _).
  split; [|naive_solver]. intros [= <-]. split; [|done]. exists i, t. naive_solver.
Qed.

Lemma check_gpus_ok topo specs ws :
  check_gpus name topo specs = Ok ws <-> Forall (spec_ok topo) specs /\ ws = worker_of <$> specs.
Proof.
  revert ws. induction specs as [|spec specs IH]; intros ws; cbn [check_gpus].
  { split; [intros [= <-]; by split|]. by intros [_ ->]. }
  rewrite Forall_cons. destruct (check_gpu name topo spec) as [w|e] eqn:Ew.
  - apply check_gpu_ok in Ew as [Hok ->]. destruct (check_gpus name topo specs) as [ws'|e] eqn:Es.
    + destruct (proj1 (IH ws') eq_refl) as [Hall ->]. split; [intros [= <-]; by split|]. by intros [_ ->].
    + split; [done|]. intros [[_ Hall] _].
      pose proof (proj2 (IH (worker_of <$> specs)) (conj Hall eq_refl)). done.
  - split; [done|]. intros [[Hok _] _].
    by pose proof (proj2 (check_gpu_ok topo spec _) (conj Hok eq_refl)) as Hc; rewrite Hc in Ew.
Qed.

Lemma prepare_workers_ok topo gpus ws :
  prepare_workers name (Ok topo) gpus = Ok ws <->
  gpus <> [] /\ NoDup (gs_cuda_device <$> gpus) /\ Forall (spec_ok topo) gpus /\ ws = worker_of <$> gpus.
Proof.
  unfold prepare_workers.
  pose proof (size_list_to_set_NoDup (gs_cuda_device <$> gpus)) as Hnd. rewrite length_fmap in Hnd.
  destruct (Nat.eqb_spec (size (list_to_set (gs_cuda_device <$> gpus) : gset Z)) (length gpus)) as [Hs|Hs];
    simpl; [|naive_solver].
  rewrite Hs. destruct gpus as [|g gpus]; [naive_solver|]. cbn [length Nat.eqb].
  rewrite check_gpus_ok. naive_solver.
Qed.

(** The builder accepts exactly the valid configurations.  [build] passes workers on to the
    engine iff there is at least one GPU, no GPU is listed twice, and every GPU is in the detected
    topology with domains of distinct names that belong to its group and both CPUs in its group;
    the workers are then the configured ones, in order. *)
Theorem build_accepts_valid topo gpus ws :
  prepare_workers name (Ok topo) gpus = Ok ws <->
  gpus <> [] /\ NoDup (gs_cuda_device <$> gpus) /\ Forall (spec_ok topo) gpus /\ ws = worker_of <$> gpus.
Proof. apply prepare_workers_ok. Qed.
End Builder.

(** ** A concrete machine

    Two NUMA nodes with four CPUs each; two GPUs and two cards on node 0, a GPU and a card on
    node 1, all behind bridges of their own. *)
Definition pci (bus : Z) : PciAddress :=
  {| pci_domain := 0; pci_bus := bus; pci_device := 0; pci_function := 0 |}.
Definition gpu_dev : PciDeviceId := {| id_vendor := 4318; id_device := 8976 |}.
Definition nic_dev : PciDeviceId := {| id_vendor := 5555; id_device := 4129 |}.
Definition prop (bus : Z) (id : PciDeviceId) (node : Z) : PciProp :=
  {| pp_addr := pci bus; pp_device_id := id; pp_numa_node := node; pp_parent_bus := pci (bus - 1);
     pp_branching_ancestor := pci (bus - 1) |}.
Definition machine : list PciProp :=
  [prop 2 gpu_dev 0; prop 4 nic_dev 0; prop 6 gpu_dev 0; prop 8 nic_dev 0; prop 10 gpu_dev 1; prop 12 nic_dev 1].
Definition machine_cpus : list (list Z) := [[0; 1; 2; 3]; [4; 5; 6; 7]].

Lemma system_topo_fair_witness :
  exists topo, detect_system_topo machine (Ok machine_cpus) gpu_dev nic_dev = Done (Ok topo) /\
    fair_topo (gpus_of machine gpu_dev) (nics_of machine nic_dev) machine_cpus topo /\
    NoDup (mjoin (tg_cpus <$> topo)).
Proof.
  destruct (system_topo_fair machine machine_cpus gpu_dev nic_dev) as (topo & H1 & H2 & H3);
    [vm_compute; repeat constructor; congruence|].
  exists topo. split; [exact H1|]. split; [exact H2|]. apply H3.
  apply (bool_decide_unpack (NoDup [0; 1; 2; 3; 4; 5; 6; 7])). vm_compute. exact I.
Defined.

(** A file system with one card, and its directory entry. *)
Definition one_card (path : list Z) : option (list Z) :=
  if decide (path = get_sys_path (pci 2) ++ bytes_of "/vendor") then Some (bytes_of "0x15b3")
  else if decide (path = get_sys_path (pci 2) ++ bytes_of "/device") then Some (bytes_of "0x1021")
  else if decide (path = get_sys_path (pci 1) ++ bytes_of "/numa_node") then Some (bytes_of "0")
  else None.
Definition one_entry : option PciEntry :=
  Some {| pe_symlink := true;
          pe_target := Some [Normal (bytes_of "0000:01:00.0") true; Normal (bytes_of "0000:02:00.0") true] |}.

Lemma scan_terminates_witness :
  exists l, scan_all_pci_devices one_card 256 (Some [one_entry]) = Done (Ok l) /\
    pp_addr <$> l ≡ₚ pp_addr <$> [prop 2 {| id_vendor := 5555; id_device := 4129 |} 0] /\
    pp_addr <$> l = pp_addr <$> sort_by (fun a b => pci_le (pp_addr a) (pp_addr b))
                                 [prop 2 {| id_vendor := 5555; id_device := 4129 |} 0].
Proof.
  apply (scan_terminates one_card [one_entry]); [vm_compute; reflexivity|..];
    apply Forall_singleton; vm_compute; try split; congruence.
Defined.

(** Node 1 has no CPUs. *)
Definition node_entry (name cpus : string) : option NodeEntry :=
  Some {| ne_dir := true; ne_name := bytes_of name; ne_cpulist := Some (bytes_of cpus) |}.
Definition three_nodes : list (option NodeEntry) :=
  [node_entry "node0" "0-3"; node_entry "node1" ""; node_entry "node2" "4-7"].
Definition three_map : gmap Z (list Z) := <[2 := [4; 5; 6; 7]]> (<[0 := [0; 1; 2; 3]]> ∅).

Lemma numa_cpus_positions_witness :
  exists numa_cpus, get_numa_physical_cpus one_card (Some three_nodes) = Ok numa_cpus /\
    numa_cpus !! rank three_map 2 = Some [4; 5; 6; 7] /\
    (rank three_map 2 = Z.to_nat 2 <-> forall k, 0 <= k < 2 -> is_Some (three_map !! k)) /\
    length numa_cpus = rank three_map (2 + 1).
Proof.
  apply (numa_cpus_positions one_card three_nodes three_map 2 2 [4; 5; 6; 7]);
    [vm_compute; reflexivity|lia|vm_compute; reflexivity].
Defined.

Definition group_of (g n : PciProp) : PciTopoGroup := {| tg_gpu := g; tg_nics := [n]; tg_cpus := [0] |}.
Definition two_groups : list PciTopoGroup :=
  [group_of (prop 2 gpu_dev 0) (prop 4 nic_dev 0); group_of (prop 6 gpu_dev 0) (prop 8 nic_dev 0)].
Definition seen_gpus : gmap PciAddress Z := <[pci 2 := 0]> (<[pci 6 := 1]> ∅).
Definition seen_nics : gmap PciAddress (DomainInfo Z Z) := {[pci 4 := InfoVerbs 7; pci 8 := InfoVerbs 9]}.

Lemma seen_gpus_inj a b d : seen_gpus !! a = Some d -> seen_gpus !! b = Some d -> a = b.
Proof.
  unfold seen_gpus. rewrite !lookup_insert, !lookup_empty. repeat case_decide; intros; simplify_eq; done.
Qed.

Lemma visible_groups_disjoint_witness :
  let r := visible_groups two_groups seen_gpus seen_nics in
  length r = 2%nat /\
  NoDup (tp_cuda_device <$> r) /\ mjoin (tp_domains <$> r) ⊆+ (map_to_list seen_nics).*2 /\
  Forall (fun g => tp_domains g <> [] /\
    exists t, t ∈ two_groups /\ seen_gpus !! pp_addr (tg_gpu t) = Some (tp_cuda_device g) /\
      tp_cpus g = tg_cpus t) r.
Proof.
  split; [vm_compute; reflexivity|].
  apply (visible_groups_disjoint two_groups seen_gpus seen_nics); [exact seen_gpus_inj|].
  intros a d. unfold seen_gpus. rewrite !lookup_insert, !lookup_empty. unfold in_u.
  repeat case_decide; intros; simplify_eq; lia.
Defined.
