(* ===== verification/Resources.v ===== *)
(** * Resources in use

    A system gives out resources and takes them back; [held y] is the set of those in use in state
    [y].  This file has the vocabulary of the laws ([acquires], [gives], [returns]) and triples:
    [tri l m Q] says that [m], started with the resources [l] over any others, ends with resources
    [l'] over the same others, where [Q a l'].  Triples follow the code: allocation with clean-up on
    errors, drops in field order. *)
From stdpp Require Import prelude gmap strings list.
From S2P Require Import Prelude.
Local Open Scope Z_scope.

Section Resources.
Context {R : Type} `{Countable R} {Y : Type} (held : Y -> gset R).

(** A call that gives out [r]: [r] was not in use and now is. *)
Definition acquires (r : R) (y y' : Y) : Prop := r ∉ held y /\ held y' = {[ r ]} ∪ held y.
(** A call that answers [c], giving out [r] when [c] is zero and nothing otherwise. *)
Definition gives (c : Z) (r : R) (y y' : Y) : Prop :=
  if c =? 0 then acquires r y y' else held y' = held y.
Definition returns (r : R) (y y' : Y) : Prop := held y' = held y ∖ {[ r ]}.

(** Give and take cancel. *)
Lemma put_take (r : R) (X : gset R) : r ∉ X -> ({[ r ]} ∪ X) ∖ {[ r ]} = X.
Proof. intros F. apply set_eq. intros r'. destruct (decide (r' = r)); set_solver. Qed.

Lemma put_fresh (r r' : R) (X : gset R) : r <> r' -> r ∉ X -> r ∉ {[ r' ]} ∪ X.
Proof. set_solver. Qed.

Lemma acquire_return r y y1 y2 : acquires r y y1 -> returns r y1 y2 -> held y2 = held y.
Proof. intros [F E] Hr. unfold returns in Hr. rewrite Hr, E. by apply put_take. Qed.

Lemma acquire_under r1 r2 y y1 y2 y3 :
  acquires r1 y y1 -> acquires r2 y1 y2 -> returns r1 y2 y3 -> acquires r2 y y3.
Proof.
  intros [F1 E1] [F2 E2] Hr. unfold returns in Hr. rewrite E1 in F2, E2.
  split; [set_solver|]. rewrite Hr, E2. clear Hr E1 E2. apply set_eq. intros r.
  destruct (decide (r = r1)); set_solver.
Qed.

Definition held_over (l : list R) (base : gset R) (y : Y) : Prop :=
  NoDup l /\ (forall r, r ∈ l -> r ∉ base) /\ held y = list_to_set l ∪ base.

(** Over the resources [base] of others. *)
Definition tri_at {A} (base : gset R) (l : list R) (m : M Y A) (Q : A -> list R -> Prop) : Prop :=
  forall y a y', held_over l base y -> m y = Done (a, y') -> exists l', Q a l' /\ held_over l' base y'.
Definition tri {A} (l : list R) (m : M Y A) (Q : A -> list R -> Prop) : Prop := forall base, tri_at base l m Q.

Lemma held_over_permuted l l' base y : l ≡ₚ l' -> held_over l base y -> held_over l' base y.
Proof.
  intros Hl (Hn & Hd & E). split; [by rewrite <- Hl|]. split; [|by rewrite <- Hl].
  intros r Hr. apply Hd. by rewrite Hl.
Qed.

#[export] Instance held_over_perm : Proper ((≡ₚ) ==> (=) ==> (=) ==> iff) held_over.
Proof. intros l l' Hl base _ <- y _ <-. split; by apply held_over_permuted. Qed.

Lemma held_over_app l1 l2 base y :
  held_over (l1 ++ l2) base y <->
  NoDup l2 /\ (forall r, r ∈ l2 -> r ∉ base) /\ held_over l1 (list_to_set l2 ∪ base) y.
Proof.
  unfold held_over. rewrite NoDup_app, list_to_set_app_L, <- (assoc_L (∪)). split.
  - intros ((Hn1 & Hd & Hn2) & Hb & E). split_and!; [done|set_solver|done| |done]. set_solver.
  - intros (Hn2 & Hb2 & Hn1 & Hb1 & E). split_and!; [done| |done|set_solver|done]. set_solver.
Qed.

Lemma tri_frame {A} l f (m : M Y A) Q :
  tri l m Q -> tri (l ++ f) m (fun a l' => exists k, Q a k /\ l' = k ++ f).
Proof.
  intros Hm base y a y' Hl Hr. apply held_over_app in Hl as (Hn & Hd & Hl).
  destruct (Hm _ _ _ _ Hl Hr) as (k & HQ & Hk). exists (k ++ f). split; [by exists k|].
  by apply held_over_app.
Qed.

Lemma at_bind {A B} base l (m : M Y A) (k : A -> M Y B) Q Q' :
  tri_at base l m Q -> (forall a l', Q a l' -> tri_at base l' (k a) Q') -> tri_at base l (bind m k) Q'.
Proof.
  intros Hm Hk y b y' Hl (a & y1 & H1 & H2)%bind_done.
  destruct (Hm _ _ _ Hl H1) as (l1 & HQ & Hl1). by eapply Hk.
Qed.

Lemma at_ret {A} base l (a : A) (Q : A -> list R -> Prop) : Q a l -> tri_at base l (ret a) Q.
Proof. intros HQ y b y' Hl Hr. cbv [ret] in Hr. simplify_eq. eauto. Qed.

Lemma at_bind_res {E A B} base l (m : M Y (result E A)) (k : A -> M Y (result E B)) Q Q' :
  tri_at base l m Q -> (forall a l', Q (Ok a) l' -> tri_at base l' (k a) Q') ->
  (forall e l', Q (Err e) l' -> Q' (Err e) l') -> tri_at base l (bind_res m k) Q'.
Proof.
  intros Hm Hk He. eapply at_bind; [exact Hm|]. intros [a|e] l' HQ; [by apply Hk|]. by apply at_ret, He.
Qed.

Lemma at_pre {A} base l l' (m : M Y A) Q : l ≡ₚ l' -> tri_at base l' m Q -> tri_at base l m Q.
Proof. intros Hp Hm y a y' Hl Hr. rewrite Hp in Hl. by eapply Hm. Qed.

Lemma tri_bind {A B} l (m : M Y A) (k : A -> M Y B) Q Q' :
  tri l m Q -> (forall a l', Q a l' -> tri l' (k a) Q') -> tri l (bind m k) Q'.
Proof. intros Hm Hk base. eapply at_bind; [apply Hm|]. intros a l' HQ. by apply Hk. Qed.

Lemma tri_bind_res {E A B} l (m : M Y (result E A)) (k : A -> M Y (result E B)) Q Q' :
  tri l m Q -> (forall a l', Q (Ok a) l' -> tri l' (k a) Q') ->
  (forall e l', Q (Err e) l' -> Q' (Err e) l') -> tri l (bind_res m k) Q'.
Proof. intros Hm Hk He base. eapply at_bind_res; [apply Hm| |done]. intros a l' HQ. by apply Hk. Qed.

Lemma tri_ret {A} l (a : A) (Q : A -> list R -> Prop) : Q a l -> tri l (ret a) Q.
Proof. intros HQ base. by apply at_ret. Qed.

Lemma tri_post {A} l (m : M Y A) (Q Q' : A -> list R -> Prop) :
  tri l m Q -> (forall a l', Q a l' -> Q' a l') -> tri l m Q'.
Proof. intros Hm HQ base y a y' Hl Hr. destruct (Hm _ _ _ _ Hl Hr) as (l' & ? & ?). eauto. Qed.

Lemma tri_pre {A} l l' (m : M Y A) Q : l ≡ₚ l' -> tri l' m Q -> tri l m Q.
Proof. intros Hp Hm base. by eapply at_pre. Qed.

(** What leaves the resources as they are. *)
Definition idle {A} (m : M Y A) : Prop := forall y a y', m y = Done (a, y') -> held y' = held y.

Lemma tri_idle {A} l (m : M Y A) : idle m -> tri l m (fun _ l' => l' = l).
Proof.
  intros Hm base y a y' (Hn & Hd & E) Hr. exists l. split; [done|]. split; [done|]. split; [done|].
  by rewrite (Hm _ _ _ Hr).
Qed.

Lemma idle_bind {A B} (m : M Y A) (k : A -> M Y B) : idle m -> (forall a, idle (k a)) -> idle (bind m k).
Proof. intros Hm Hk y b y' (a & y1 & H1 & H2)%bind_done. rewrite (Hk _ _ _ _ H2). by eapply Hm. Qed.
Lemma idle_ret {A} (a : A) : idle (ret a).
Proof. intros y b y' Hr. cbv [ret] in Hr. by simplify_eq. Qed.
Lemma idle_panic {A} why : idle (@panic Y A why).
Proof. done. Qed.
Lemma idle_gets {A} (f : Y -> A) : idle (gets f).
Proof. intros y b y' Hr. cbv [gets] in Hr. by simplify_eq. Qed.
Lemma idle_modify f : (forall y, held (f y) = held y) -> idle (modify f).
Proof. intros Hf y b y' Hr. cbv [modify] in Hr. by simplify_eq. Qed.
Lemma idle_call {A} (f : Y -> A * Y) : (forall y, held (f y).2 = held y) -> idle (call f).
Proof. intros Hf y b y' Hr. cbv [call] in Hr. simplify_eq. specialize (Hf y). by rewrite Hr in Hf. Qed.

Lemma held_over_put r l base y y' : acquires r y y' -> held_over l base y -> held_over (r :: l) base y'.
Proof.
  intros [F E] (Hn & Hd & Hh). rewrite Hh in F, E. split; [|split].
  - constructor; [|done]. set_solver.
  - intros r' [->|?]%elem_of_cons; [set_solver|by apply Hd].
  - rewrite E. simpl. by rewrite (assoc_L (∪)).
Qed.

Lemma held_over_take r l base y y' : returns r y y' -> held_over (r :: l) base y -> held_over l base y'.
Proof.
  intros Ht (Hn & Hd & Hh). unfold returns in Ht. apply NoDup_cons in Hn as [Hr Hn].
  split; [done|]. split; [intros ? ?; apply Hd; set_solver|]. rewrite Ht, Hh. simpl.
  rewrite <- (assoc_L (∪)). apply put_take. specialize (Hd r). set_solver.
Qed.

Lemma held_over_in r l base y : held_over (r :: l) base y -> r ∈ held y.
Proof. intros (_ & _ & E). rewrite E. set_solver. Qed.

(** A release that is not fallible. *)
Lemma take_last r (f : Y -> Y) :
  (forall y, r ∈ held y -> returns r y (f y)) -> forall l, tri (r :: l) (modify f) (fun _ l' => l' = l).
Proof.
  intros Hf l base y a y' Hl Hr. cbv [modify] in Hr. simplify_eq. exists l. split; [done|].
  eapply held_over_take; [|exact Hl]. apply Hf. by eapply held_over_in.
Qed.

Lemma start_over (y : Y) : held_over [] (held y) y.
Proof. split; [constructor|]. split; [set_solver|]. symmetry. apply union_empty_l_L. Qed.
End Resources.

Section Total.
Context {Y : Type}.
Definition total {A} (m : M Y A) : Prop := forall y, exists a y', m y = Done (a, y').

Lemma total_bind {A B} (m : M Y A) (k : A -> M Y B) : total m -> (forall a, total (k a)) -> total (bind m k).
Proof. intros Hm Hk y. destruct (Hm y) as (a & y1 & E). unfold bind. rewrite E. apply Hk. Qed.
Lemma total_for_each {A} (l : list A) (f : A -> M Y unit) : (forall x, total (f x)) -> total (for_each l f).
Proof. intros Hf. induction l; cbn; [by intros y; eexists _, _|by apply total_bind]. Qed.
End Total.


Create HintDb idle.
#[export] Hint Resolve idle_ret idle_panic idle_gets : idle.
Ltac idle_step :=
  repeat (intros; first [ solve [eauto with idle nocore] | apply idle_bind
    | match goal with |- idle _ (match ?x with _ => _ end) => destruct x end ]).

