(* ===== verification/CuMem.v ===== *)
(** * CUDA memory

    [rust/cuda-lib/src/cumem.rs] (allocations, mappings into virtual address ranges, handles that
    other processes import, multicast objects) and [gdr.rs] (buffers mapped with GDRCopy).

    The driver, GDRCopy and the system calls are the class [CuDriver]; a state of the system is a
    value of [Y].  What the driver keeps of ranges and mappings is described by [CuDriverLaws]. *)
From stdpp Require Import prelude gmap strings list.
From S2P Require Import Prelude Api.
Local Open Scope Z_scope.

(** [CudaDriverError] and [CudartError] are a code and where it arose. *)
Inductive CudaError : Type :=
  | CudaDriver (code : Z) (context : string)
  | Cudart (code : Z) (context : string)
  | CudaErr (code : Z)
  | GdrCopyError (why : string)
  | CustomError (why : string)
  | Errno (code : Z).
Definition cures (A : Type) : Type := result CudaError A.

(** bincode's [EncodeError] and [DecodeError], with the text up to the number it ends in. *)
Inductive EncodeError : Type := EncodeOther (why : string).
Inductive DecodeError : Type := DecodeOther (why : string).

Definition check_failed (code : Z) : CudaError := Cudart code "cuda_check call failed".

Inductive CUMemHandleKind : Type := Local | FileDescriptor | Fabric.

(** [CU_MEM_HANDLE_TYPE_*]. *)
Definition handle_type (k : CUMemHandleKind) : Z :=
  match k with Local => 0 | FileDescriptor => 1 | Fabric => 8 end.

Class CuDriver (Y : Type) := {
  cuMemGetAllocationGranularity : Z -> Z -> Y -> Z * Z * Y;   (* device, handle types *)
  cuMemCreate : Z -> Z -> Z -> Y -> Z * Z * Y;                (* size, device, handle types *)
  cuMemRelease : Z -> Y -> Z * Y;
  cuMemAddressReserve : Z -> Y -> Z * Z * Y;
  cuMemMap : Z -> Z -> Z -> Y -> Z * Y;                       (* ptr, size, handle *)
  cuMemSetAccess : Z -> Z -> Z -> Y -> Z * Y;                 (* ptr, size, device *)
  cuMemUnmap : Z -> Z -> Y -> Z * Y;
  cuMemAddressFree : Z -> Z -> Y -> Z * Y;
  exportFd : Z -> Y -> Z * Z * Y;
  exportFabric : Z -> Y -> Z * list Z * Y;
  importFd : Z -> Y -> Z * Z * Y;
  importFabric : list Z -> Y -> Z * Z * Y;
  cuMulticastGetGranularity : Z -> Z -> Z -> Y -> Z * Z * Y;
  cuMulticastCreate : Z -> Z -> Z -> Y -> Z * Z * Y;          (* devices, size, handle types *)
  cuMulticastAddDevice : Z -> Z -> Y -> Z * Y;
  cuMulticastBindMem : Z -> Z -> Z -> Y -> Z * Y;             (* multicast, memory, size *)
  process_id : Y -> Z;
  pidfd_open : Z -> Y -> Z * Y;
  pidfd_getfd : Z -> Z -> Y -> Z * Y;
  close_fd : Z -> Y -> Z * Y;
  gdr_open : Y -> Z * Y;
  gdr_close : Z -> Y -> Y;
  cuMemAlloc : Z -> Y -> Z * Z * Y;
  cuMemFree : Z -> Y -> Y;
  gdr_pin_buffer : Z -> Z -> Z -> Y -> Z * Z * Y;             (* context, ptr, size *)
  gdr_unpin_buffer : Z -> Z -> Y -> Y;
  gdr_map : Z -> Z -> Z -> Y -> Z * Z * Y;                    (* context, memory handle, size *)
  gdr_unmap : Z -> Z -> Z -> Z -> Y -> Y;
}.

Section Operations.
Context {Y : Type} `{CuDriver Y}.

(** [cuda_check!] and [cuda_unwrap!]. *)
Definition cuda_check (f : Y -> Z * Y) : M Y (cures unit) :=
  let! code := call f in
  ret (if code =? 0 then Ok tt else Err (check_failed code)).
Definition cuda_check_out {A} (f : Y -> Z * A * Y) : M Y (cures A) :=
  let! r := call f in
  ret (if r.1 =? 0 then Ok r.2 else Err (check_failed r.1)).
Definition cuda_unwrap (f : Y -> Z * Y) : M Y unit :=
  let! code := call f in
  if code =? 0 then ret tt else panic "cuda_unwrap call failed".

(** ** Allocations *)
Record CUMemAlloc := {
  ca_handle : Z;
  ca_alloc_size : Z;
  ca_device_id : Z;
  ca_handle_kind : CUMemHandleKind;
}.
Record CUMulticast := { cm_handle : Z; cm_alloc_size : Z; cm_handle_kind : CUMemHandleKind }.

Definition alloc_drop (a : CUMemAlloc) : M Y unit := cuda_unwrap (cuMemRelease (ca_handle a)).
Definition multicast_drop (m : CUMulticast) : M Y unit := cuda_unwrap (cuMemRelease (cm_handle m)).

(** [size.div_ceil(granularity)]: a zero divisor panics. *)
Definition round_to (size granularity : Z) : M Y Z :=
  if granularity =? 0 then panic "attempt to divide by zero"
  else ret (u64_mul (div_ceil size granularity) granularity).

Definition alloc_new (size device_id : Z) (handle_kind : CUMemHandleKind) : M Y (cures CUMemAlloc) :=
  let? granularity := cuda_check_out (cuMemGetAllocationGranularity device_id (handle_type handle_kind)) in
  let! alloc_size := round_to size granularity in
  let? handle := cuda_check_out (cuMemCreate alloc_size device_id (handle_type handle_kind)) in
  ret (Ok {| ca_handle := handle; ca_alloc_size := alloc_size; ca_device_id := device_id;
             ca_handle_kind := handle_kind |}).

(** ** Mappings *)
Inductive CUMemMappingRef : Type := RefAlloc (a : CUMemAlloc) | RefMulticast (m : CUMulticast).

Definition ref_size (r : CUMemMappingRef) : Z :=
  match r with RefAlloc a => ca_alloc_size a | RefMulticast m => cm_alloc_size m end.
Definition ref_handle (r : CUMemMappingRef) : Z :=
  match r with RefAlloc a => ca_handle a | RefMulticast m => cm_handle m end.
Definition ref_device_id (r : CUMemMappingRef) : Z :=
  match r with RefAlloc a => ca_device_id a | RefMulticast _ => 0 end.

Record CUMemMappingHolder := {
  mh_alloc_size : Z;
  mh_device_id : Z;
  mh_mapped : bool;
  mh_ptr : Z;
  mh_ref : CUMemMappingRef;
}.

Definition set_mapped (b : bool) (h : CUMemMappingHolder) : CUMemMappingHolder :=
  {| mh_alloc_size := mh_alloc_size h; mh_device_id := mh_device_id h; mh_mapped := b;
     mh_ptr := mh_ptr h; mh_ref := mh_ref h |}.

Definition map (alloc : CUMemMappingRef) (device : Device) : M Y (cures CUMemMappingHolder) :=
  let device_id := match device with Cuda id => id | Host => ref_device_id alloc end in
  let? ptr := cuda_check_out (cuMemAddressReserve (ref_size alloc)) in
  let? _ := cuda_check (cuMemMap ptr (ref_size alloc) (ref_handle alloc)) in
  let? _ := cuda_check (cuMemSetAccess ptr (ref_size alloc) device_id) in
  ret (Ok {| mh_alloc_size := ref_size alloc; mh_device_id := device_id; mh_mapped := true;
             mh_ptr := ptr; mh_ref := alloc |}).

(** The holder is shared by the clones of a mapping; operations run on it and the system. *)
Definition on_y {A} (m : M Y A) : M (CUMemMappingHolder * Y) A :=
  on_state snd (fun y s => (s.1, y)) m.

Definition map_to (alloc : CUMemMappingRef) : M (CUMemMappingHolder * Y) (cures unit) :=
  let! mapping := gets fst in
  if negb (mh_alloc_size mapping =? ref_size alloc) then
    ret (Err (CustomError "Mapping size does not match allocation size"))
  else
    let? _ := on_y (cuda_check (cuMemMap (mh_ptr mapping) (ref_size alloc) (ref_handle alloc))) in
    let? _ := on_y (cuda_check (cuMemSetAccess (mh_ptr mapping) (ref_size alloc) (mh_device_id mapping))) in
    modify (fun s => (set_mapped true s.1, s.2)) ;;;
    ret (Ok tt).

Definition unmap : M (CUMemMappingHolder * Y) (cures unit) :=
  let! mapping := gets fst in
  modify (fun s => (set_mapped false s.1, s.2)) ;;;
  if mh_mapped mapping then on_y (cuda_check (cuMemUnmap (mh_ptr mapping) (mh_alloc_size mapping)))
  else ret (Ok tt).

Definition holder_drop (h : CUMemMappingHolder) : M Y unit :=
  (if mh_mapped h then cuda_unwrap (cuMemUnmap (mh_ptr h) (mh_alloc_size h)) else ret tt) ;;;
  cuda_unwrap (cuMemAddressFree (mh_ptr h) (mh_alloc_size h)).

(** ** Handles for other processes *)
Inductive GenericSerializedHandle : Type := SerFD (fd pid : Z) | SerFabric (data : list Z).
Inductive GenericExportHandle : Type :=
  | ExportedFD (fd pid : Z)
  | ImportedFD (local_fd : Z)
  | FabricHandle (handle : list Z).

(** [size_of::<CUmemFabricHandle>()]: a handle is an array of bytes of this size. *)
Definition fabric_size : nat := 64.

Definition export_new (handle_kind : CUMemHandleKind) (handle : Z) : M Y (cures GenericExportHandle) :=
  match handle_kind with
  | Local => ret (Err (CustomError "Cannot export mapping with no handle"))
  | FileDescriptor =>
      let! pid := gets process_id in
      let? fd := cuda_check_out (exportFd handle) in
      ret (Ok (ExportedFD fd pid))
  | Fabric =>
      let? h := cuda_check_out (exportFabric handle) in
      ret (Ok (FabricHandle h))
  end.

Definition export_bind (e : GenericExportHandle) : M Y (cures Z) :=
  match e with
  | ExportedFD _ _ => ret (Err (CustomError "Cannot bind exported FD"))
  | ImportedFD local_fd => cuda_check_out (importFd local_fd)
  | FabricHandle handle => cuda_check_out (importFabric handle)
  end.

(** [Drop]: the result of [close] is ignored. *)
Definition export_drop (e : GenericExportHandle) : M Y unit :=
  match e with
  | ExportedFD fd _ => call (close_fd fd) ;;; ret tt
  | ImportedFD local_fd => call (close_fd local_fd) ;;; ret tt
  | FabricHandle _ => ret tt
  end.

(** [Encode] and [Decode], up to the encoding of [GenericSerializedHandle] itself, which is
    derived. *)
Definition export_encode (e : GenericExportHandle) : result EncodeError GenericSerializedHandle :=
  match e with
  | ImportedFD _ => Err (EncodeOther "Cannot encode imported handle")
  | ExportedFD fd pid => Ok (SerFD fd pid)
  | FabricHandle handle => Ok (SerFabric handle)
  end.

Definition export_decode (p : GenericSerializedHandle) : M Y (result DecodeError GenericExportHandle) :=
  match p with
  | SerFD fd pid =>
      let! pidfd := call (pidfd_open pid) in
      if pidfd <? 0 then ret (Err (DecodeOther "failed to open import handle")) else
      let! local_fd := call (pidfd_getfd pidfd fd) in
      if local_fd <? 0 then
        call (close_fd pidfd) ;;;
        ret (Err (DecodeOther "failed to open import handle"))
      else
        let! r := call (close_fd pidfd) in
        if negb (r =? 0) then ret (Err (DecodeOther "failed to open import handle"))
        else ret (Ok (ImportedFD local_fd))
  | SerFabric data =>
      if negb (length data =? fabric_size)%nat then ret (Err (DecodeOther "invalid fabric handle size"))
      else ret (Ok (FabricHandle data))
  end.

Record CUMemExport := { ex_handle : GenericExportHandle; ex_alloc_size : Z; ex_device_id : Z }.

(** The second component of a [CUMemExportHandle] says whether it keeps the allocation alive. *)
Definition alloc_export (a : CUMemAlloc) : M Y (cures (CUMemExport * bool)) :=
  let? h := export_new (ca_handle_kind a) (ca_handle a) in
  ret (Ok ({| ex_handle := h; ex_alloc_size := ca_alloc_size a; ex_device_id := ca_device_id a |}, true)).

Definition mem_bind (e : CUMemExport * bool) : M Y (cures CUMemAlloc) :=
  assert_ (negb e.2) "Handle is already bound" ;;;
  let? handle := export_bind (ex_handle e.1) in
  ret (Ok {| ca_handle := handle; ca_alloc_size := ex_alloc_size e.1; ca_device_id := ex_device_id e.1;
             ca_handle_kind := Local |}).

(** ** Multicast *)
Record CUMulticastHandle := { mc_handle : CUMulticast; mc_buffers : list CUMemAlloc }.
Record CUMulticastExport := { mx_handle : GenericExportHandle; mx_alloc_size : Z }.

Definition multicast_new (num_devices size : Z) (handle_kind : CUMemHandleKind) : M Y (cures CUMulticastHandle) :=
  let types := handle_type handle_kind in
  let? granularity := cuda_check_out (cuMulticastGetGranularity num_devices size types) in
  let! alloc_size := round_to size granularity in
  let? handle := cuda_check_out (cuMulticastCreate num_devices alloc_size types) in
  ret (Ok {| mc_handle := {| cm_handle := handle; cm_alloc_size := alloc_size; cm_handle_kind := handle_kind |};
             mc_buffers := [] |}).

Definition multicast_export (m : CUMulticastHandle) : M Y (cures (CUMulticastExport * bool)) :=
  let? h := export_new (cm_handle_kind (mc_handle m)) (cm_handle (mc_handle m)) in
  ret (Ok ({| mx_handle := h; mx_alloc_size := cm_alloc_size (mc_handle m) |}, true)).

Definition multicast_add_device (m : CUMulticastHandle) (device_id : Z) : M Y (cures unit) :=
  cuda_check (cuMulticastAddDevice (cm_handle (mc_handle m)) device_id).

(** [bind_mem] keeps the allocation before it asks the driver. *)
Definition multicast_bind_mem (a : CUMemAlloc) : M (CUMulticastHandle * Y) (cures unit) :=
  modify (fun s => ({| mc_handle := mc_handle s.1; mc_buffers := mc_buffers s.1 ++ [a] |}, s.2)) ;;;
  let! m := gets fst in
  on_state snd (fun y s => (s.1, y))
    (cuda_check (cuMulticastBindMem (cm_handle (mc_handle m)) (ca_handle a) (ca_alloc_size a))).

Definition multicast_bind (e : CUMulticastExport * bool) : M Y (cures CUMulticastHandle) :=
  assert_ (negb e.2) "Handle is already bound" ;;;
  let? handle := export_bind (mx_handle e.1) in
  ret (Ok {| mc_handle := {| cm_handle := handle; cm_alloc_size := mx_alloc_size e.1; cm_handle_kind := Local |};
             mc_buffers := [] |}).

(** ** GDRCopy buffers: [gdr.rs] *)
Definition align_to (ptr alignment : Z) : Z :=
  u64_mul (div_ceil (wrapu 64 (ptr + alignment - 1)) alignment) alignment.

Record GdrBuffer := {
  gb_device_ptr : Z;
  gb_aligned_device_ptr : Z;
  gb_mapped_ptr : Z;
  gb_mh : Z;
  gb_bytesize : Z;
  gb_context : Z;
}.

Definition page_size : Z := 65536.

Definition gdr_context_new : M Y (cures Z) :=
  let! handle := call gdr_open in
  ret (if handle =? 0 then Err (GdrCopyError "Failed to create GDR copy handle") else Ok handle).

(** The context is closed when its last owner is dropped. *)
Definition gdr_context_drop (g : Z) : M Y unit := modify (gdr_close g).

Definition alloc_buffer (g nbytes : Z) : M Y (cures GdrBuffer) :=
  let bytesize := u64_mul (div_ceil nbytes page_size) page_size in
  let! r := call (cuMemAlloc (u64_add bytesize page_size)) in
  if negb (r.1 =? 0) then ret (Err (GdrCopyError "Failed to allocate GDR buffer")) else
  let device_ptr := r.2 in
  let aligned_device_ptr := align_to device_ptr page_size in
  let! r := call (gdr_pin_buffer g aligned_device_ptr bytesize) in
  if negb (r.1 =? 0) then
    modify (cuMemFree device_ptr) ;;;
    ret (Err (GdrCopyError "Failed to pin GDR buffer"))
  else
  let mh := r.2 in
  let! r := call (gdr_map g mh bytesize) in
  if negb (r.1 =? 0) then
    modify (gdr_unpin_buffer g mh) ;;;
    modify (cuMemFree device_ptr) ;;;
    ret (Err (GdrCopyError "Failed to map GDR buffer"))
  else
  ret (Ok {| gb_device_ptr := device_ptr; gb_aligned_device_ptr := aligned_device_ptr;
             gb_mapped_ptr := r.2; gb_bytesize := bytesize; gb_mh := mh; gb_context := g |}).

Definition gdr_buffer_drop (b : GdrBuffer) : M Y unit :=
  modify (gdr_unmap (gb_context b) (gb_mh b) (gb_mapped_ptr b) (gb_bytesize b)) ;;;
  modify (gdr_unpin_buffer (gb_context b) (gb_mh b)) ;;;
  modify (cuMemFree (gb_device_ptr b)).

Definition gdr_flag_new (g : Z) : M Y (cures GdrBuffer) := alloc_buffer g 1.
Definition gdr_vec_new (g len elem_size : Z) : M Y (cures GdrBuffer) :=
  alloc_buffer g (u64_mul len elem_size).
End Operations.
