(* ===== verification/CuMemSpec.v ===== *)
(** * What the CUDA memory wrappers own

    The driver, the kernel and GDRCopy hand out resources: address ranges, mappings, file
    descriptors, device blocks, pinned buffers (and threads, for the all-to-all context).  [CuDriverLaws] states what their documentation
    says of each call in terms of the set [held] of resources in use, and the theorems say what
    the wrappers of [CuMem] keep and give back.  [sim] is a concrete driver for the witnesses. *)
From stdpp Require Import prelude gmap strings list.
From S2P Require Import Prelude Resources Api CuMem.
Local Open Scope Z_scope.

Inductive Res : Type :=
  | Range (ptr size : Z)
  | Mapping (ptr size : Z)
  | Fd (fd : Z)
  | Block (ptr : Z)
  | Pin (mh : Z)
  | Bar (mh va : Z)
  | Thread (id : Z).

#[export] Instance Res_eq_dec : EqDecision Res.
Proof. solve_decision. Defined.

Definition res_code (r : Res) : nat * (Z * Z) :=
  match r with
  | Range p n => (0%nat, (p, n)) | Mapping p n => (1%nat, (p, n)) | Fd f => (2%nat, (f, 0))
  | Block p => (3%nat, (p, 0)) | Pin m => (4%nat, (m, 0)) | Bar m v => (5%nat, (m, v))
  | Thread t => (6%nat, (t, 0))
  end.
Definition res_decode (c : nat * (Z * Z)) : option Res :=
  let '(k, (a, b)) := c in
  match k with
  | 0 => Some (Range a b) | 1 => Some (Mapping a b) | 2 => Some (Fd a)
  | 3 => Some (Block a) | 4 => Some (Pin a) | 5 => Some (Bar a b) | 6 => Some (Thread a)
  | _ => None
  end%nat.
#[export] Instance Res_countable : Countable Res.
Proof. refine (inj_countable res_code res_decode _). by intros []. Defined.

(** ** The laws *)
Class CuDriverLaws (Y : Type) `{CuDriver Y} := {
  held : Y -> gset Res;
  reserve_law n y c p y' :
    cuMemAddressReserve n y = (c, p, y') -> gives held c (Range p n) y y';
  map_law p n h y c y' : cuMemMap p n h y = (c, y') -> gives held c (Mapping p n) y y';
  access_law p n d y c y' : cuMemSetAccess p n d y = (c, y') -> held y' = held y;
  unmap_law p n y : Mapping p n ∈ held y ->
    exists y', cuMemUnmap p n y = (0, y') /\ returns held (Mapping p n) y y';
  address_free_law p n y : Range p n ∈ held y -> Mapping p n ∉ held y ->
    exists y', cuMemAddressFree p n y = (0, y') /\ returns held (Range p n) y y';
  pidfd_open_law pid y fd y' :
    pidfd_open pid y = (fd, y') -> gives held (if fd <? 0 then 1 else 0) (Fd fd) y y';
  pidfd_getfd_law pidfd fd y l y' :
    pidfd_getfd pidfd fd y = (l, y') -> gives held (if l <? 0 then 1 else 0) (Fd l) y y';
  (* a descriptor is released whatever [close] answers *)
  close_law fd y c y' : Fd fd ∈ held y -> close_fd fd y = (c, y') -> returns held (Fd fd) y y';
  alloc_law n y c p y' : cuMemAlloc n y = (c, p, y') -> gives held c (Block p) y y';
  free_law p y : Block p ∈ held y -> returns held (Block p) y (cuMemFree p y);
  pin_law g p n y c m y' : gdr_pin_buffer g p n y = (c, m, y') -> gives held c (Pin m) y y';
  unpin_law g m y : Pin m ∈ held y -> returns held (Pin m) y (gdr_unpin_buffer g m y);
  bar_law g m n y c v y' : gdr_map g m n y = (c, v, y') -> gives held c (Bar m v) y y';
  unbar_law g m v n y : Bar m v ∈ held y -> returns held (Bar m v) y (gdr_unmap g m v n y);
}.

Section Calls.
Context {Y : Type} `{CuDriver Y}.

Lemma cuda_check_inv f (y y' : Y) r :
  cuda_check f y = Done (r, y') ->
  f y = (if r is Err (Cudart c _) then c else 0, y') /\
  match r with Ok _ => True | Err e => exists c, e = check_failed c /\ c <> 0 end.
Proof.
  unfold cuda_check. intros Hr. run_inv Hr. cbv [call] in *. simplify_eq.
  destruct (Z.eqb_spec a 0); subst; split; try done. by exists a.
Qed.

Lemma cuda_check_out_inv {A} (f : Y -> Z * A * Y) (y y' : Y) r :
  cuda_check_out f y = Done (r, y') ->
  exists c a, f y = (c, a, y') /\
  match r with Ok a' => c = 0 /\ a' = a | Err e => e = check_failed c /\ c <> 0 end.
Proof.
  unfold cuda_check_out. intros Hr. run_inv Hr. cbv [call] in *. simplify_eq.
  destruct a as [c a]. exists c, a. cbn. destruct (Z.eqb_spec c 0); naive_solver.
Qed.

Lemma cuda_unwrap_ok f (y y' : Y) : f y = (0, y') -> cuda_unwrap f y = Done (tt, y').
Proof. intros E. unfold cuda_unwrap, bind, call. by rewrite E. Qed.

Lemma on_y_done {A} (m : M Y A) h (y : Y) a h' y' :
  on_y m (h, y) = Done (a, (h', y')) -> h' = h /\ m y = Done (a, y').
Proof. unfold on_y, on_state. cbn. destruct (m y) as [[? ?]| |]; naive_solver. Qed.
End Calls.

Section Mappings.
Context {Y : Type} `{CuDriverLaws Y}.

(** The laws with the answer known. *)
Lemma gives_ok r (y y' : Y) : gives held 0 r y y' -> acquires held r y y'.
Proof. done. Qed.
Lemma gives_err c r (y y' : Y) : c <> 0 -> gives held c r y y' -> held y' = held y.
Proof. unfold gives. by intros Hc%Z.eqb_neq; rewrite Hc. Qed.

(** What a mapping owns over the resources [base] in use before it was made. *)
Definition holder_owns (base : gset Res) (s : CUMemMappingHolder * Y) : Prop :=
  let r := Range (mh_ptr s.1) (mh_alloc_size s.1) in
  let m := Mapping (mh_ptr s.1) (mh_alloc_size s.1) in
  r ∉ base /\ m ∉ base /\
  held s.2 = (if mh_mapped s.1 then {[ m ]} else ∅) ∪ ({[ r ]} ∪ base).

Lemma map_owns alloc d (y y' : Y) h :
  map alloc d y = Done (Ok h, y') -> holder_owns (held y) (h, y').
Proof.
  unfold map. intros Hr. run_inv Hr.
  apply cuda_check_out_inv in Hrun as (? & ? & E1%reserve_law & -> & ->).
  apply cuda_check_inv in Hrun0 as [E2%map_law _].
  apply cuda_check_inv in Hrun1 as [E3%access_law _].
  apply gives_ok in E1 as [F1 E1], E2 as [F2 E2]. rewrite E1 in F2, E2.
  split_and!; cbn; [done| |by rewrite E3, E2]. clear -F2. set_solver.
Qed.

(** The operations that the clones of a mapping share. *)
Inductive MapOp : Type := OpUnmap | OpMapTo (alloc : CUMemMappingRef).
Definition map_op (o : MapOp) : M (CUMemMappingHolder * Y) (cures unit) :=
  match o with OpUnmap => unmap | OpMapTo alloc => map_to alloc end.

Lemma unmap_owns base (s : CUMemMappingHolder * Y) :
  holder_owns base s -> exists s', unmap s = Done (Ok tt, s') /\ holder_owns base s'.
Proof.
  destruct s as [h y]. intros (F1 & F2 & E). cbn in *. unfold unmap, bind, gets, modify. cbn.
  destruct (mh_mapped h).
  - destruct (unmap_law (mh_ptr h) (mh_alloc_size h) y) as (y' & Hu & Hr);
      [rewrite E; clear; set_solver|]. eexists. unfold on_y, on_state, cuda_check, bind, call, ret. cbn. rewrite Hu. split; [done|].
    split_and!; cbn; [done..|]. unfold returns in Hr. rewrite Hr, E, put_take; [|by apply put_fresh].
    by rewrite union_empty_l_L.
  - eexists. split; [done|]. done.
Qed.

(** The driver maps the memory at the address of the mapping and then refuses access to it. *)
Definition access_refused (alloc : CUMemMappingRef) (s : CUMemMappingHolder * Y) : Prop :=
  exists y1, cuMemMap (mh_ptr s.1) (ref_size alloc) (ref_handle alloc) s.2 = (0, y1) /\
    (cuMemSetAccess (mh_ptr s.1) (ref_size alloc) (mh_device_id s.1) y1).1 <> 0.

(** The memory is mapped and the mapping says that it is not. *)
Definition holder_stray (base : gset Res) (s : CUMemMappingHolder * Y) : Prop :=
  let r := Range (mh_ptr s.1) (mh_alloc_size s.1) in
  let m := Mapping (mh_ptr s.1) (mh_alloc_size s.1) in
  mh_mapped s.1 = false /\ held s.2 = {[ m ]} ∪ ({[ r ]} ∪ base).

Lemma map_to_owns base alloc (s : CUMemMappingHolder * Y) :
  holder_owns base s -> exists r s', map_to alloc s = Done (r, s') /\
    (holder_owns base s' \/ (access_refused alloc s /\ holder_stray base s')).
Proof.
  destruct s as [h y]. intros Hs. destruct Hs as (F1 & F2 & E). cbn in *.
  unfold map_to, bind at 1, gets. cbn.
  destruct (Z.eqb_spec (mh_alloc_size h) (ref_size alloc)) as [Hsz|]; [|by eexists _, _; split; [done|left]].
  unfold bind_res, bind, on_y, on_state, cuda_check, bind, call, ret. cbn.
  destruct (cuMemMap _ _ _ _) as [c y1] eqn:Em0. pose proof Em0 as Em. apply map_law in Em.
  destruct (Z.eqb_spec c 0) as [->|Hc]; cbn.
  - destruct (cuMemSetAccess _ _ _ _) as [c2 y2] eqn:Ea0. pose proof Ea0 as Ea. apply access_law in Ea.
    apply gives_ok in Em as [Fm Em]. rewrite <- Hsz in Fm, Em. rewrite E in Fm, Em.
    destruct (mh_mapped h) eqn:Hmp; [exfalso; clear -Fm; set_solver|]. rewrite union_empty_l_L in Em.
    destruct (Z.eqb_spec c2 0) as [->|Hc2]; cbn; eexists _, _; (split; [done|]).
    + left. split_and!; cbn; [done..|]. by rewrite Ea, Em.
    + right. split; [exists y1; cbn; by rewrite Ea0|]. split; [done|]. cbn. by rewrite Ea, Em.
  - apply gives_err in Em; [|done]. eexists _, _. split; [done|]. left. split_and!; cbn; [done..|].
    by rewrite Em.
Qed.

(** Nothing repairs a stray mapping. *)
Lemma stray_stays base o (s : CUMemMappingHolder * Y) :
  holder_stray base s -> exists r s', map_op o s = Done (r, s') /\ holder_stray base s'.
Proof.
  destruct s as [h y]. intros [Hmp E]. cbn in *. destruct o as [|alloc]; cbn [map_op].
  - unfold unmap, bind, gets, modify. cbn. rewrite Hmp. by eexists _, _.
  - unfold map_to, bind at 1, gets. cbn.
    destruct (Z.eqb_spec (mh_alloc_size h) (ref_size alloc)) as [Hsz|]; [|by eexists _, _].
    unfold bind_res, bind, on_y, on_state, cuda_check, bind, call, ret. cbn.
    destruct (cuMemMap _ _ _ _) as [c y1] eqn:Em. apply map_law in Em.
    destruct (Z.eqb_spec c 0) as [->|Hc]; cbn.
    + apply gives_ok in Em as [Fm _]. exfalso. rewrite <- Hsz, E in Fm. clear -Fm. set_solver.
    + apply gives_err in Em; [|done]. eexists _, _. split; [done|]. split; [done|]. cbn. by rewrite Em.
Qed.

Lemma drop_owns base (s : CUMemMappingHolder * Y) :
  holder_owns base s -> exists y', holder_drop s.1 s.2 = Done (tt, y') /\ held y' = base.
Proof.
  destruct s as [h y]. intros (F1 & F2 & E). cbn in *. unfold holder_drop.
  assert (exists y1, (if mh_mapped h then cuda_unwrap (cuMemUnmap (mh_ptr h) (mh_alloc_size h))
                      else ret tt) y = Done (tt, y1) /\
          held y1 = {[ Range (mh_ptr h) (mh_alloc_size h) ]} ∪ base) as (y1 & E1 & Eh).
  { destruct (mh_mapped h).
    - destruct (unmap_law (mh_ptr h) (mh_alloc_size h) y) as (y1 & Hu & Hr);
        [rewrite E; clear; set_solver|].
      exists y1. split; [by apply cuda_unwrap_ok|]. unfold returns in Hr. rewrite Hr, E.
      apply put_take. by apply put_fresh.
    - exists y. split; [done|]. by rewrite E, union_empty_l_L. }
  destruct (address_free_law (mh_ptr h) (mh_alloc_size h) y1) as (y2 & Hf & Hr);
    [rewrite Eh; clear; set_solver|rewrite Eh; by apply put_fresh|].
  exists y2. split; [|unfold returns in Hr; rewrite Hr, Eh; by apply put_take].
  unfold bind. rewrite E1. by apply cuda_unwrap_ok.
Qed.

Definition run_ops (ops : list MapOp) : M (CUMemMappingHolder * Y) unit :=
  for_each ops (fun o => map_op o ;;; ret tt).

Lemma run_ops_cons o ops s r s1 : map_op o s = Done (r, s1) -> run_ops (o :: ops) s = run_ops ops s1.
Proof. intros E. unfold run_ops. cbn [for_each]. unfold bind at 1 2. rewrite E. done. Qed.

Lemma run_ops_stray base ops s : holder_stray base s -> exists s', run_ops ops s = Done (tt, s') /\ holder_stray base s'.
Proof.
  revert s. induction ops as [|o ops IH]; intros s Hs; [by exists s|].
  destruct (stray_stays base o s Hs) as (r & s1 & E & Hs1). destruct (IH s1 Hs1) as (s' & ? & ?).
  exists s'. by rewrite (run_ops_cons _ _ _ _ _ E).
Qed.

Lemma run_ops_owns base ops s :
  holder_owns base s -> exists s', run_ops ops s = Done (tt, s') /\
    (holder_owns base s' \/
     exists pre alloc post s1, ops = pre ++ OpMapTo alloc :: post /\ run_ops pre s = Done (tt, s1) /\
       access_refused alloc s1 /\ holder_stray base s').
Proof.
  revert s. induction ops as [|o ops IH]; intros s Hs; [exists s; by split; [|left]|].
  assert (exists r s1, map_op o s = Done (r, s1) /\ (holder_owns base s1 \/
    exists alloc, o = OpMapTo alloc /\ access_refused alloc s /\ holder_stray base s1)) as (r & s1 & E & Hs1).
  { destruct o as [|alloc]; [destruct (unmap_owns _ _ Hs) as (? & ? & ?); eauto|].
    destruct (map_to_owns _ alloc _ Hs) as (? & ? & ? & [?|[? ?]]); eauto 10. }
  rewrite (run_ops_cons _ _ _ _ _ E). destruct Hs1 as [Hs1|(alloc & -> & Hr & Hs1)].
  - destruct (IH s1 Hs1) as (s' & Hrun & [?|(pre & alloc & post & s2 & -> & Hpre & ? & ?)]); exists s'; (split; [done|]);
      [by left|]. right. exists (o :: pre), alloc, post, s2. by rewrite (run_ops_cons _ _ _ _ _ E).
  - destruct (run_ops_stray base ops s1 Hs1) as (s' & ? & ?). exists s'. split; [done|]. right.
    by exists [], alloc, ops, s.
Qed.

(** C31: a mapping gives back what it took, unless the driver refuses access to memory it has just
    mapped.  After [CUMemAlloc::map] succeeded, any sequence of [unmap] and [map_to] on the mapping
    (whose errors the caller may ignore) runs without a panic.  Then either dropping the last clone
    runs without a panic and the address ranges and mappings in use are the ones of before [map];
    or, in one of the [map_to], [cuMemMap] succeeded and [cuMemSetAccess] failed: since then the
    memory is mapped while the mapping says it is not, so neither [unmap] nor the drop unmaps it. *)
Theorem mapping_restored alloc d (y y1 : Y) h (ops : list MapOp) :
  map alloc d y = Done (Ok h, y1) ->
  exists s, run_ops ops (h, y1) = Done (tt, s) /\
  ((exists y2, holder_drop s.1 s.2 = Done (tt, y2) /\ held y2 = held y) \/
   (exists pre alloc' post s1, ops = pre ++ OpMapTo alloc' :: post /\ run_ops pre (h, y1) = Done (tt, s1) /\
      access_refused alloc' s1 /\ holder_stray (held y) s)).
Proof.
  intros Hm%map_owns. destruct (run_ops_owns _ ops _ Hm) as (s & Hrun & [Hs|Hs]); exists s; (split; [done|]); [left|by right].
  by apply drop_owns.
Qed.

(** When [CUMemAlloc::map] fails after it reserved its range, the range stays reserved: no
    value owns it, so nothing gives it back. *)
Theorem map_failure_leaks alloc d (y y1 y' : Y) p e :
  cuMemAddressReserve (ref_size alloc) y = (0, p, y1) ->
  map alloc d y = Done (Err e, y') ->
  Range p (ref_size alloc) ∈ held y' /\ Range p (ref_size alloc) ∉ held y.
Proof.
  intros Hres Hm. pose proof (gives_ok _ _ _ (reserve_law _ _ _ _ _ Hres)) as [F1 E1].
  split; [|done]. assert (held y1 ⊆ held y'); [|set_solver].
  unfold map in Hm. apply bind_res_done in Hm as [(q & y2 & Hr & Hm)|(e' & Hr & _)];
    apply cuda_check_out_inv in Hr as (c & q' & Hr & Hc); rewrite Hres in Hr; simplify_eq;
    [|by destruct Hc].
  destruct Hc as [_ ->]. apply bind_res_done in Hm as [([] & y3 & Hr' & Hm)|(e' & Hr' & _)];
    apply cuda_check_inv in Hr' as [Hr'%map_law He].
  - apply gives_ok in Hr' as [_ Hr'].
    apply bind_res_done in Hm as [(? & ? & ? & Hm)|(? & Hm & _)]; [by cbv in Hm|].
    apply cuda_check_inv in Hm as [Hm%access_law _]. set_solver.
  - destruct He as (c & -> & Hc). apply gives_err in Hr'; [|done]. set_solver.
Qed.
End Mappings.

Section Handles.
Context {Y : Type} `{CuDriverLaws Y}.

(** A handle survives [Encode] and [Decode].  A fabric handle comes back as it was, with no
    call to the system.  A descriptor comes back as a descriptor of this process that the handle
    owns and [Drop] closes; on an error the descriptors in use are those of before, except that
    the copied descriptor is lost when closing the process descriptor is what failed. *)
Theorem export_decode_owns (e : GenericExportHandle) p (y : Y) :
  (forall h, e = FabricHandle h -> length h = fabric_size) ->
  export_encode e = Ok p ->
  exists r y', export_decode p y = Done (r, y') /\
  match r with
  | Ok d => (d = e /\ y' = y /\ export_encode d = Ok p) \/
            (exists l y2, d = ImportedFD l /\ 0 <= l /\ acquires held (Fd l) y y' /\
              export_drop d y' = Done (tt, y2) /\ held y2 = held y /\
              export_encode d = Err (EncodeOther "Cannot encode imported handle"))
  | Err _ => held y' = held y \/
             exists pidfd l y1 c, close_fd pidfd y1 = (c, y') /\ c <> 0 /\ acquires held (Fd l) y y'
  end.
Proof.
  intros Hlen He. destruct e as [fd pid|l|h]; cbn in He; simplify_eq; cbn.
  - unfold bind, call, ret.
    destruct (pidfd_open pid y) as [pf y1] eqn:E1. apply pidfd_open_law in E1.
    destruct (Z.ltb_spec pf 0); [apply gives_err in E1; [|done]; by eexists _, _; split; [done|left]|].
    apply gives_ok in E1 as [F1 E1].
    destruct (pidfd_getfd pf fd y1) as [l y2] eqn:E2. apply pidfd_getfd_law in E2.
    destruct (Z.ltb_spec l 0).
    + apply gives_err in E2; [|done]. destruct (close_fd pf y2) as [c y3] eqn:E3.
      apply close_law in E3; [|rewrite E2, E1; clear; set_solver]. eexists _, _. split; [done|].
      left. eapply (acquire_return _ (Fd pf) y y2); [|done]. split; [done|by rewrite E2].
    + apply gives_ok in E2 as [F2 E2]. destruct (close_fd pf y2) as [c y3] eqn:E3.
      pose proof E3 as E4. apply close_law in E3; [|set_solver].
      assert (acquires held (Fd l) y y3) as Hacq by (eapply acquire_under; eauto; by split).
      destruct (Z.eqb_spec c 0); cbn; eexists _, _; (split; [done|]).
      * right. destruct (close_fd l y3) as [c2 y4] eqn:E5. exists l, y4. pose proof E5 as E6.
        apply close_law in E5; [|destruct Hacq; set_solver].
        split_and!; try done; [|by eapply acquire_return].
        cbn. unfold bind, call, ret. by rewrite E6.
      * right. by exists pf, l, y2, c.
  - cbn. rewrite (Hlen h eq_refl). rewrite Nat.eqb_refl. eexists _, _. split; [done|]. by left.
Qed.

(** A payload whose fabric handle has the wrong size is refused. *)
Theorem decode_fabric_size (data : list Z) (y : Y) :
  export_decode (SerFabric data) y =
  Done (if decide (length data = fabric_size) then Ok (FabricHandle data)
        else Err (DecodeOther "invalid fabric handle size"), y).
Proof. cbn. case_decide; destruct (Nat.eqb_spec (length data) fabric_size); by try done. Qed.
End Handles.

(** ** Sizes and alignment *)
Section Sizes.
Context {Y : Type} `{CuDriver Y}.

Lemma round_to_bounds size g (y : Y) :
  0 < g -> 0 <= size -> in_u 64 (size + g) ->
  exists n, round_to size g y = Done (n, y) /\ size <= n < size + g /\ (g | n).
Proof.
  intros Hg Hs Hu. unfold round_to. destruct (Z.eqb_spec g 0); [lia|].
  pose proof (div_ceil_bounds size g Hg). unfold in_u in Hu. eexists. split; [done|].
  unfold u64_mul. rewrite wrapu_small by (unfold in_u; lia). split; [lia|]. apply Z.divide_factor_r.
Qed.

(** [CUMemAllocHandle::new] asks the driver for the least multiple of the granularity that
    holds the requested bytes, and records that size. *)
Theorem alloc_new_rounds size dev kind (y y1 : Y) g :
  cuMemGetAllocationGranularity dev (handle_type kind) y = (0, g, y1) ->
  0 < g -> 0 <= size -> in_u 64 (size + g) ->
  exists n, size <= n < size + g /\ (g | n) /\
  let '(c, h, y2) := cuMemCreate n dev (handle_type kind) y1 in
  alloc_new size dev kind y =
  Done (if c =? 0 then Ok {| ca_handle := h; ca_alloc_size := n; ca_device_id := dev; ca_handle_kind := kind |}
        else Err (check_failed c), y2).
Proof.
  intros Hg Hpos Hs Hu. destruct (round_to_bounds size g y1 Hpos Hs Hu) as (n & Hr & Hn & Hd).
  exists n. split_and!; [lia..|done|]. destruct (cuMemCreate _ _ _ _) as [[c h] y2] eqn:Ec.
  unfold alloc_new, cuda_check_out, bind_res, bind, call, ret. rewrite Hg. cbn. rewrite Hr.
  rewrite Ec. cbn. by destruct (c =? 0).
Qed.

(** [align_to] skips a whole page when the address is aligned, and two pages less the misalignment
    when it is not. *)
Lemma align_to_eq ptr A :
  1 < A -> 0 <= ptr -> in_u 64 (ptr + 2 * A) ->
  align_to ptr A = ptr + (if decide (ptr mod A <= 1) then A - ptr mod A else 2 * A - ptr mod A).
Proof.
  intros HA Hp Hu. unfold in_u in Hu. unfold align_to.
  rewrite (wrapu_small 64 (ptr + A - 1)) by (unfold in_u; lia).
  pose proof (Z.div_mod ptr A ltac:(lia)). pose proof (Z.mod_pos_bound ptr A ltac:(lia)).
  set (q := ptr / A) in *. set (r := ptr mod A) in *.
  assert (div_ceil (ptr + A - 1) A = if decide (r <= 1) then q + 1 else q + 2) as ->.
  { pose proof (div_ceil_bounds (ptr + A - 1) A ltac:(lia)).
    set (k := div_ceil _ _) in *. case_decide; nia. }
  unfold u64_mul. case_decide; rewrite wrapu_small; unfold in_u; nia.
Qed.

(** The buffer [alloc_buffer] pins holds the requested bytes and starts on a GDRCopy page,
    and it lies inside the device allocation exactly when the allocation starts at most one byte
    after a page boundary; otherwise the pinned pages run past the end of the allocation. *)
Theorem gdr_pinned_range g nbytes (y y1 y2 : Y) ptr b :
  cuMemAlloc (u64_add (u64_mul (div_ceil nbytes page_size) page_size) page_size) y = (0, ptr, y1) ->
  0 <= nbytes -> 0 <= ptr -> in_u 64 (ptr + nbytes + 4 * page_size) ->
  alloc_buffer g nbytes y = Done (Ok b, y2) ->
  gb_device_ptr b = ptr /\
  nbytes <= gb_bytesize b < nbytes + page_size /\
  (page_size | gb_aligned_device_ptr b) /\
  ptr < gb_aligned_device_ptr b /\
  (gb_aligned_device_ptr b + gb_bytesize b <= ptr + (gb_bytesize b + page_size) <->
   ptr mod page_size <= 1).
Proof.
  intros Ha Hn Hp Hu Hb. unfold in_u in Hu.
  pose proof (div_ceil_bounds nbytes page_size ltac:(done)) as Hdc.
  assert (in_u 64 (div_ceil nbytes page_size * page_size + page_size)) as Hw
    by (unfold in_u; unfold page_size in *; lia).
  unfold alloc_buffer in Hb. run_inv Hb. cbv [call] in Hrun.
  rewrite Ha in Hrun. simplify_eq. cbn [fst snd negb Z.eqb] in Hb. run_inv Hb.
  destruct (a.1 =? 0); cbn [negb] in Hb; [|run_inv Hb; done]. run_inv Hb.
  destruct (a0.1 =? 0); cbn [negb] in Hb; run_inv Hb. cbn.
  assert (u64_mul (div_ceil nbytes page_size) page_size = div_ceil nbytes page_size * page_size) as ->
    by (apply wrapu_small; unfold in_u in *; unfold page_size in *; lia).
  rewrite align_to_eq; [|unfold page_size, in_u in *; lia..].
  pose proof (Z.mod_pos_bound ptr page_size ltac:(done)).
  pose proof (Z.div_mod ptr page_size ltac:(done)).
  split_and!; [done|lia|lia| | |]; case_decide; try (unfold page_size in *; lia).
  - exists (ptr / page_size + 1). lia.
  - exists (ptr / page_size + 2). lia.
Qed.
End Sizes.

(** ** What a GDRCopy buffer owns *)
Section Gdr.
Context {Y : Type} `{CuDriverLaws Y}.

(** [alloc_buffer] gives back the device memory and the pinned pages on every error path,
    and dropping the buffer of a success gives back everything it took. *)
Theorem gdr_buffer_balanced g nbytes (y : Y) :
  exists r y', alloc_buffer g nbytes y = Done (r, y') /\
  match r with
  | Err _ => held y' = held y
  | Ok b => exists y2, gdr_buffer_drop b y' = Done (tt, y2) /\ held y2 = held y
  end.
Proof.
  unfold alloc_buffer, bind, call, modify, ret.
  destruct (cuMemAlloc _ y) as [[c p] y1] eqn:E1. apply alloc_law in E1. cbn [fst snd].
  destruct (Z.eqb_spec c 0) as [->|]; cbn [negb];
    [|apply gives_err in E1; [|done]; by eexists _, _].
  apply gives_ok in E1 as [F1 E1].
  destruct (gdr_pin_buffer _ _ _ y1) as [[c m] y2] eqn:E2. apply pin_law in E2. cbn [fst snd].
  destruct (Z.eqb_spec c 0) as [->|]; cbn [negb].
  2: { apply gives_err in E2; [|done]. eexists _, _. split; [done|].
       eapply (acquire_return _ (Block p) y y2); [|apply free_law; rewrite E2, E1; clear; set_solver].
       split; [done|by rewrite E2]. }
  apply gives_ok in E2 as [F2 E2].
  destruct (gdr_map _ _ _ y2) as [[c v] y3] eqn:E3. apply bar_law in E3. cbn [fst snd].
  assert (forall y4, held y4 = held y2 ->
    held (cuMemFree p (gdr_unpin_buffer g m y4)) = held y) as Hundo.
  { intros y4 E4.
    assert (held (gdr_unpin_buffer g m y4) = held y1) as Eu.
    { eapply (acquire_return _ (Pin m) y1 y4); [split; [done|by rewrite E4]|].
      apply unpin_law. rewrite E4, E2. clear. set_solver. }
    eapply (acquire_return _ (Block p) y); [split; [done|by rewrite Eu]|].
    apply free_law. rewrite Eu, E1. clear. set_solver. }
  destruct (Z.eqb_spec c 0) as [->|]; cbn [negb]; eexists _, _; (split; [done|]).
  - apply gives_ok in E3 as [F3 E3]. eexists. split; [done|]. cbn. apply Hundo.
    eapply (acquire_return _ (Bar m v) y2 y3); [done|]. apply unbar_law. rewrite E3. clear. set_solver.
  - apply Hundo. by apply gives_err in E3.
Qed.
End Gdr.

(** ** A concrete driver *)
Module Sim.
(** New resources are numbered from [next]; [fail] makes [cuMemSetAccess] fail. *)
Record sim := { next : Z; res : gset Res }.

Definition take (r : Z -> Res) (y : sim) : Z * Z * sim :=
  if decide (r (next y) ∈ res y) then (1, 0, y)
  else (0, next y, {| next := next y + 65536; res := {[ r (next y) ]} ∪ res y |}).
Definition give (r : Res) (y : sim) : sim :=
  {| next := next y; res := res y ∖ {[ r ]} |}.
Definition put (r : Res) (y : sim) : Z * sim :=
  if decide (r ∈ res y) then (1, y)
  else (0, {| next := next y; res := {[ r ]} ∪ res y |}).
Definition take_fd (y : sim) : Z * sim :=
  let '(c, f, y') := take Fd y in if decide (c = 0 /\ 0 <= f) then (f, y') else (-1, y).

Definition driver (fail : bool) : CuDriver sim := {|
  cuMemGetAllocationGranularity _ _ y := (0, 4096, y);
  cuMemCreate _ _ _ y := (0, 7, y);
  cuMemRelease _ y := (0, y);
  cuMemAddressReserve n y := take (fun p => Range p n) y;
  cuMemMap p n _ y := put (Mapping p n) y;
  cuMemSetAccess _ _ _ y := (if fail then 1 else 0, y);
  cuMemUnmap p n y := (0, give (Mapping p n) y);
  cuMemAddressFree p n y := (0, give (Range p n) y);
  exportFd _ y := (0, 3, y);
  exportFabric _ y := (0, replicate 64 0, y);
  importFd _ y := (0, 7, y);
  importFabric _ y := (0, 7, y);
  cuMulticastGetGranularity _ _ _ y := (0, 4096, y);
  cuMulticastCreate _ _ _ y := (0, 8, y);
  cuMulticastAddDevice _ _ y := (0, y);
  cuMulticastBindMem _ _ _ y := (0, y);
  process_id _ := 1;
  pidfd_open _ y := take_fd y;
  pidfd_getfd _ _ y := take_fd y;
  close_fd f y := (0, give (Fd f) y);
  gdr_open y := (1, y);
  gdr_close _ y := y;
  cuMemAlloc _ y := take Block y;
  cuMemFree p y := give (Block p) y;
  gdr_pin_buffer _ _ _ y := take Pin y;
  gdr_unpin_buffer _ m y := give (Pin m) y;
  gdr_map _ m _ y := take (Bar m) y;
  gdr_unmap _ m v _ y := give (Bar m v) y;
|}.

Lemma take_gives r y c p y' : take r y = (c, p, y') -> gives res c (r p) y y'.
Proof. unfold take. case_decide; intros ?; simplify_eq; done. Qed.
Lemma put_gives r y c y' : put r y = (c, y') -> gives res c r y y'.
Proof. unfold put. case_decide; intros ?; simplify_eq; done. Qed.
Lemma take_fd_gives y f y' : take_fd y = (f, y') -> gives res (if f <? 0 then 1 else 0) (Fd f) y y'.
Proof.
  unfold take_fd. destruct (take Fd y) as [[c f0] y0] eqn:E. case_decide as Hd; intros ?; simplify_eq.
  - destruct Hd as [-> Hd]. destruct (Z.ltb_spec f 0); [lia|]. by apply take_gives in E.
  - done.
Qed.

Definition laws (fail : bool) : @CuDriverLaws sim (driver fail).
Proof.
  refine {| held := res |}; intros; cbn in *;
    first [ by apply (take_gives (fun p => Range p n)) | by apply (take_gives Block)
          | by apply (take_gives Pin) | by apply (take_gives (Bar m)) | by apply put_gives
          | by apply take_fd_gives | by simplify_eq | by eexists | done ].
Defined.

Definition start : sim := {| next := 65536; res := ∅ |}.
End Sim.

(** ** Witnesses *)
Module CuWitness.
Definition alloc := RefAlloc {| ca_handle := 7; ca_alloc_size := 4096; ca_device_id := 0; ca_handle_kind := Fabric |}.
Definition h := {| mh_alloc_size := 4096; mh_device_id := 0; mh_mapped := true; mh_ptr := 65536; mh_ref := alloc |}.
Definition y1 : Sim.sim := (Sim.take (fun p => Range p 4096) Sim.start).2.
Definition y2 : Sim.sim := (Sim.put (Mapping 65536 4096) y1).2.

Lemma mapping_restored_witness :
  exists s y', @run_ops _ (Sim.driver false) [OpUnmap; OpMapTo alloc; OpMapTo alloc] (h, y2) = Done (tt, s) /\
    @holder_drop _ (Sim.driver false) s.1 s.2 = Done (tt, y') /\ Sim.res y' = Sim.res Sim.start.
Proof.
  destruct (@mapping_restored _ (Sim.driver false) (Sim.laws false) alloc Host Sim.start y2 h
    [OpUnmap; OpMapTo alloc; OpMapTo alloc] eq_refl) as (s & H1 & [(y' & H2 & H3)|Hbad]).
  - exists s, y'. split; [exact H1|]. split; [exact H2|exact H3].
  - exfalso. destruct Hbad as (pre & alloc' & post & s1 & _ & _ & (y3 & _ & Hr) & _). apply Hr. reflexivity.
Defined.

Lemma map_failure_leaks_witness :
  Range 65536 4096 ∈ Sim.res y2 /\ Range 65536 4096 ∉ Sim.res Sim.start.
Proof.
  exact (@map_failure_leaks _ (Sim.driver true) (Sim.laws true) alloc Host Sim.start y1 y2 65536
    (check_failed 1) eq_refl eq_refl).
Defined.

Lemma export_decode_owns_witness :
  exists r y', @export_decode _ (Sim.driver false) (SerFD 3 1) Sim.start = Done (r, y') /\
  match r with
  | Ok d => (d = ExportedFD 3 1 /\ y' = Sim.start /\ export_encode d = Ok (SerFD 3 1)) \/
            (exists l y2, d = ImportedFD l /\ 0 <= l /\ acquires Sim.res (Fd l) Sim.start y' /\
              @export_drop _ (Sim.driver false) d y' = Done (tt, y2) /\ Sim.res y2 = Sim.res Sim.start /\
              export_encode d = Err (EncodeOther "Cannot encode imported handle"))
  | Err _ => Sim.res y' = Sim.res Sim.start \/
             exists pidfd l y1 c, @close_fd _ (Sim.driver false) pidfd y1 = (c, y') /\ c <> 0 /\
               acquires Sim.res (Fd l) Sim.start y'
  end.
Proof.
  refine (@export_decode_owns _ (Sim.driver false) (Sim.laws false) (ExportedFD 3 1) (SerFD 3 1) Sim.start
    _ eq_refl). discriminate.
Defined.

Lemma alloc_new_rounds_witness :
  exists n, 5000 <= n < 5000 + 4096 /\ (4096 | n) /\
  @alloc_new _ (Sim.driver false) 5000 0 Fabric Sim.start =
  Done (Ok {| ca_handle := 7; ca_alloc_size := n; ca_device_id := 0; ca_handle_kind := Fabric |}, Sim.start).
Proof.
  exact (@alloc_new_rounds _ (Sim.driver false) 5000 0 Fabric Sim.start Sim.start 4096 eq_refl
    ltac:(lia) ltac:(lia) ltac:(unfold in_u; lia)).
Defined.

(** The allocation starts at 66560, 1024 bytes after a page boundary. *)
Definition g1 : Sim.sim := {| Sim.next := 66560; Sim.res := ∅ |}.
Definition g2 : Sim.sim := (Sim.take Block g1).2.
Definition g4 : Sim.sim := (Sim.take (Bar (Sim.next g2)) (Sim.take Pin g2).2).2.
Lemma gdr_pinned_range_witness :
  let b := {| gb_device_ptr := 66560; gb_aligned_device_ptr := 196608; gb_mapped_ptr := 197632;
              gb_mh := 132096; gb_bytesize := 65536; gb_context := 1 |} in
  @alloc_buffer _ (Sim.driver false) 1 1 g1 = Done (Ok b, g4) /\
  (gb_aligned_device_ptr b + gb_bytesize b <= 66560 + (gb_bytesize b + page_size) <->
   66560 mod page_size <= 1).
Proof.
  intros b. split; [reflexivity|].
  exact (proj2 (proj2 (proj2 (proj2 (@gdr_pinned_range _ (Sim.driver false) 1 1 g1 g2 g4 66560 b
    eq_refl ltac:(lia) ltac:(lia) ltac:(unfold in_u, page_size; lia) eq_refl))))).
Defined.
End CuWitness.
