(* ===== verification/CudaRt.v ===== *)
(** * CUDA runtime wrappers

    [rust/cuda-lib/src/mem.rs] (owned device and host memory), [event.rs], the parts of [rt.rs]
    and [driver.rs] they use, and the flags and vectors of [gdr.rs] that the host shares with
    kernels.  The runtime is the class [Cudart]; a null pointer is [0]. *)
From stdpp Require Import prelude gmap strings list.
From S2P Require Import Prelude Api CuMem.
Local Open Scope Z_scope.

Record CudartError := { ce_code : Z; ce_context : string }.
Definition rtres (A : Type) : Type := result CudartError A.

Class Cudart (Y : Type) := {
  cudaMalloc : Z -> Y -> Z * Z * Y;
  cudaMallocManaged : Z -> Y -> Z * Z * Y;
  cudaMemcpyHostToDevice : Z -> list Z -> Z -> Y -> Z * Y;    (* destination, values, bytes *)
  cudaMemset : Z -> Z -> Z -> Y -> Z * Y;                     (* pointer, byte, bytes *)
  cudaFree : Z -> Y -> Z * Y;
  sys_cudaHostAlloc : Z -> Y -> Z * Z * Y;
  sys_cudaFreeHost : Z -> Y -> Z * Y;
  host_fill : Z -> Z -> Y -> Y;                               (* pointer, bytes: set to zero *)
  cudaEventCreate : Y -> Z * Z * Y;
  cudaEventRecord : Z -> Y -> Z * Y;
  cudaEventSynchronize : Z -> Y -> Z * Y;
  cudaEventDestroy : Z -> Y -> Z * Y;
  multiProcessorCount : Z -> Y -> Z * Z * Y;                  (* device *)
  handleForAddressRange : Z -> Z -> Y -> Z * Z * Y;           (* pointer, length *)
  bar_load : Z -> Y -> Z;                                     (* a byte through a GDRCopy mapping *)
  bar_store : Z -> Z -> Y -> Y;
  gdr_copy_to_mapping : Z -> Z -> list Z -> Y -> Y;           (* handle, mapped pointer, values *)
}.

Section Runtime.
Context {Y : Type} `{Cudart Y}.

(** [match ret { 0 => Ok(..), _ => Err(CudartError::new(ret, context)) }]. *)
Definition rt_check (context : string) (f : Y -> Z * Y) : M Y (rtres unit) :=
  let! ret_ := call f in
  ret (if ret_ =? 0 then Ok tt else Err {| ce_code := ret_; ce_context := context |}).
Definition rt_check_out {A} (context : string) (f : Y -> Z * A * Y) : M Y (rtres A) :=
  let! r := call f in
  ret (if r.1 =? 0 then Ok r.2 else Err {| ce_code := r.1; ce_context := context |}).

(** ** [mem.rs] *)
Record CudaDeviceMemory := { dm_ptr : Z; dm_size : Z }.

(** An allocation is judged by its pointer, not by the code. *)
Definition mem_of (context : string) (f : Y -> Z * Z * Y) (size : Z) : M Y (rtres CudaDeviceMemory) :=
  let! r := call f in
  ret (if r.2 =? 0 then Err {| ce_code := r.1; ce_context := context |}
       else Ok {| dm_ptr := r.2; dm_size := size |}).
Definition mem_device (size : Z) : M Y (rtres CudaDeviceMemory) :=
  mem_of "cudaMalloc" (cudaMalloc size) size.
Definition mem_alloc (size : Z) : M Y (rtres CudaDeviceMemory) :=
  mem_of "cudaMallocManaged" (cudaMallocManaged size) size.

(** [from_vec]: the result of the copy is ignored. *)
Definition mem_from_vec (elem_size : Z) (data : list Z) : M Y (rtres CudaDeviceMemory) :=
  let size := u64_mul (Z.of_nat (length data)) elem_size in
  let? mem := mem_device size in
  call (cudaMemcpyHostToDevice (dm_ptr mem) data size) ;;;
  ret (Ok mem).

Definition mem_zero (m : CudaDeviceMemory) : M Y unit :=
  call (cudaMemset (dm_ptr m) 0 (dm_size m)) ;;; ret tt.
Definition mem_drop (m : CudaDeviceMemory) : M Y unit := call (cudaFree (dm_ptr m)) ;;; ret tt.

(** The number of elements of [as_mut_slice] and of [as_slice]. *)
Definition as_mut_slice_len (elem_size : Z) (m : CudaDeviceMemory) : Z := dm_size m / elem_size.

Record CudaHostMemory := { hm_ptr : Z; hm_size : Z }.

Definition cudaHostAlloc (size : Z) : M Y (rtres Z) :=
  let? ptr := rt_check_out "cudaHostAlloc" (sys_cudaHostAlloc size) in
  if ptr =? 0 then panic "called `Option::unwrap()` on a `None` value" else ret (Ok ptr).
Definition cudaFreeHost (ptr : Z) : M Y (rtres unit) := rt_check "cudaFreeHost" (sys_cudaFreeHost ptr).

Definition host_alloc (size : Z) : M Y (rtres CudaHostMemory) :=
  let? ptr := cudaHostAlloc size in
  modify (host_fill ptr size) ;;;
  ret (Ok {| hm_ptr := ptr; hm_size := size |}).
Definition host_zero (m : CudaHostMemory) : M Y unit := modify (host_fill (hm_ptr m) (hm_size m)).
Definition host_as_slice_len (elem_size : Z) (m : CudaHostMemory) : M Y Z :=
  assert_ (hm_size m mod elem_size =? 0) "assertion failed: self.size.is_multiple_of(elemsize)" ;;;
  ret (hm_size m / elem_size).
Definition host_drop (m : CudaHostMemory) : M Y unit :=
  let! r := cudaFreeHost (hm_ptr m) in expect r "Failed to free UVM memory".

(** ** [event.rs] *)
Definition event_new : M Y (rtres Z) := rt_check_out "cudaEventCreate" cudaEventCreate.
Definition event_record (e : Z) : M Y (rtres unit) := rt_check "cudaEventRecord" (cudaEventRecord e).
Definition event_synchronize (e : Z) : M Y (rtres unit) :=
  rt_check "cudaEventSynchronize" (cudaEventSynchronize e).
Definition event_drop (e : Z) : M Y unit :=
  let! code := call (cudaEventDestroy e) in
  if code =? 0 then ret tt else panic "cudaEventDestroy failed".

(** ** [rt.rs], [driver.rs] *)
Definition cudaGetNumSMs (device : Z) : M Y (rtres Z) :=
  rt_check_out "cudaGetNumSMs" (multiProcessorCount device).
Definition cu_get_dma_buf_fd (ptr len : Z) : M Y (rtres Z) :=
  rt_check_out "cuMemGetHandleForAddressRange" (handleForAddressRange ptr len).

(** ** [GdrFlag] and [GdrVec] *)
Definition flag_set (b : GdrBuffer) (value : bool) : M Y unit :=
  modify (bar_store (gb_mapped_ptr b) (if value then 1 else 0)).
Definition flag_is_set (b : GdrBuffer) : M Y bool :=
  gets (fun y => negb (bar_load (gb_mapped_ptr b) y =? 0)).

(** One round of [GdrFlag::wait]: whether it returns; otherwise it looks again. *)
Definition flag_wait (b : GdrBuffer) : M Y bool :=
  let! set := flag_is_set b in
  if set then flag_set b false ;;; ret true else ret false.

Definition vec_copy (b : GdrBuffer) (value : list Z) : M Y unit :=
  modify (gdr_copy_to_mapping (gb_mh b) (gb_mapped_ptr b) value).
End Runtime.
