(* ===== verification/A2aContext.v ===== *)
(** * The all-to-all context

    [p2p-all-to-all/src/a2a_context.rs]: the object a rank holds.  It builds the worker's device
    state ([a2a_worker.rs], the first half of [WorkerState::new]), starts the worker thread,
    allocates the workspace of the kernels, and launches the four kernels of a round.

    The kernels, threads and the transfer engine are the class [A2aSystem]; memory is that of
    [CuMem] and [CudaRt].  Sizes and pointers are [Z]. *)
From stdpp Require Import prelude gmap strings list.
From S2P Require Import Prelude Api A2aWorker CuMem CudaRt.
Local Open Scope Z_scope.

(** [anyhow::Error], by where it comes from. *)
Inductive AnyError : Type :=
  | FromCuda (e : CudaError)
  | FromRt (e : CudartError)
  | FromFabric (e : FabricLibError)
  | FromRecv
  | Anyhow (msg : string).
Definition ares (A : Type) : Type := result AnyError A.

Definition map_err {E F A} (f : E -> F) (r : result E A) : result F A :=
  match r with Ok a => Ok a | Err e => Err (f e) end.
Definition question {S E A} (f : E -> AnyError) (m : M S (result E A)) : M S (ares A) :=
  let! r := m in ret (map_err f r).

(** ** The kernels' arguments *)
Record DispatchSendArgs := {
  ds_num_blocks : Z; ds_hidden_dim : Z; ds_hidden_dim_scale : Z; ds_num_experts : Z;
  ds_num_experts_per_token : Z; ds_max_private_tokens : Z; ds_rank : Z; ds_dp_size : Z;
  ds_node_size : Z; ds_world_size : Z; ds_num_tokens : Z; ds_bound_m_ptr : Z; ds_x_ptr : Z;
  ds_in_elemsize : Z; ds_x_stride : Z; ds_x_scale_ptr : Z; ds_scale_elemsize : Z;
  ds_x_scale_stride_elem : Z; ds_x_scale_stride_token : Z; ds_indices : Z; ds_indices_stride : Z;
  ds_weights : Z; ds_weights_stride : Z; ds_token_offset : Z; ds_num_routed_ptr : Z;
  ds_expert_offsets : Z; ds_dispatch_route_done : Z; ds_dispatch_send_done : Z; ds_tx_ready : Z;
  ds_send_buffer_ptr : Z; ds_grid_counter : Z; ds_sync_counter : Z; ds_sync_ptr : Z; ds_recv_ptr : Z;
  ds_stream : Z;
}.

Record DispatchRecvArgs := {
  dr_num_blocks : Z; dr_hidden_dim : Z; dr_hidden_dim_scale : Z; dr_in_elemsize : Z;
  dr_scale_elemsize : Z; dr_num_experts : Z; dr_rank : Z; dr_node_size : Z; dr_world_size : Z;
  dr_out_num_tokens_ptr : Z; dr_out_x_ptr : Z; dr_out_x_stride : Z; dr_out_x_scale_ptr : Z;
  dr_out_x_scale_stride_elem : Z; dr_out_x_scale_stride_token : Z; dr_tokens_per_expert : Z;
  dr_send_buffer_ptr : Z; dr_recv_buffer_ptr : Z; dr_source_rank : Z; dr_source_dispatch_offset : Z;
  dr_padded_index : Z; dr_num_routed_ptr : Z; dr_num_recv_tokens : Z; dr_num_recv_tokens_flag : Z;
  dr_dispatch_recv_flag : Z; dr_dispatch_recv_done : Z; dr_grid_counter : Z; dr_sync_counter : Z;
  dr_sync_ptr : Z; dr_send_ptr : Z; dr_stream : Z;
}.

Record CombineSendArgs := {
  cs_num_blocks : Z; cs_hidden_dim : Z; cs_out_elemsize : Z; cs_rank : Z; cs_node_size : Z;
  cs_dp_size : Z; cs_expert_x_ptr : Z; cs_expert_x_stride : Z; cs_tx_ready : Z;
  cs_send_buffer_ptr : Z; cs_recv_buffer_ptr : Z; cs_source_rank : Z; cs_combine_send_offset : Z;
  cs_padded_index : Z; cs_num_recv_tokens : Z; cs_combine_send_done : Z; cs_token_counter : Z;
  cs_sync_counter : Z; cs_sync_ptr : Z; cs_recv_ptr : Z; cs_stream : Z;
}.

Record CombineRecvArgs := {
  cr_num_blocks : Z; cr_hidden_dim : Z; cr_out_elemsize : Z; cr_expert_y_dtype : Z; cr_out_dtype : Z;
  cr_num_experts : Z; cr_num_experts_per_token : Z; cr_rank : Z; cr_node_size : Z; cr_world_size : Z;
  cr_num_tokens : Z; cr_bound_m_ptr : Z; cr_indices_ptr : Z; cr_indices_stride : Z; cr_weights_ptr : Z;
  cr_weights_stride : Z; cr_out_tokens_ptr : Z; cr_out_tokens_stride : Z; cr_accumulate : bool;
  cr_recv_buffer_ptr : Z; cr_token_offset : Z; cr_expert_offsets : Z; cr_combine_recv_flag : Z;
  cr_combine_recv_done : Z; cr_sync_counter : Z; cr_sync_ptr : Z; cr_stream : Z;
}.

Inductive Launch : Type :=
  | LDispatchSend (a : DispatchSendArgs)
  | LDispatchRecv (a : DispatchRecvArgs)
  | LCombineSend (a : CombineSendArgs)
  | LCombineRecv (a : CombineRecvArgs).

(** The assertions of the wrappers in [a2a-kernels]: the specialised sizes, and for the results the
    types [F16] (11), [BF16] (12) and [F32] (13).  A launch they refuse aborts the process.  (That
    the token stride is a multiple of 16 holds by its rounding.) *)
Definition LAUNCH_WORLD_SIZE (n : Z) : bool := bool_decide (n ∈ [1; 2; 4; 8]).
Definition LAUNCH_BASIC_FLOAT (dtype : Z) : bool := bool_decide (dtype ∈ [11; 12; 13]).
Definition wrapper_accepts (l : Launch) : bool :=
  match l with
  | LDispatchSend a =>
      (ds_world_size a <=? 512) && (ds_num_experts a <=? 512) && LAUNCH_WORLD_SIZE (ds_node_size a)
  | LDispatchRecv a => LAUNCH_WORLD_SIZE (dr_node_size a)
  | LCombineSend a => LAUNCH_WORLD_SIZE (cs_dp_size a) && LAUNCH_WORLD_SIZE (cs_node_size a)
  | LCombineRecv a =>
      LAUNCH_BASIC_FLOAT (cr_expert_y_dtype a) && LAUNCH_BASIC_FLOAT (cr_out_dtype a) &&
      LAUNCH_WORLD_SIZE (cr_node_size a)
  end.

(** What [spawn] and the message of the new thread answer: no thread, a thread that ended before
    its message, or a running one, with its id. *)
Inductive Started : Type := NoThread | Died | Running (thread : Z).

Class A2aSystem (Y : Type) := {
  launch : Launch -> Y -> Z * Y;                             (* a launch the wrapper accepts *)
  spawn_worker : option Z -> Y -> Started * Y;               (* the CPU to pin it to *)
  join_worker : Z -> Y -> bool * Y;                          (* whether the thread panicked *)
  store_stop_flag : Y -> Y;
  err_counter : Y -> Z;
  eng_get_imm_counter : Z -> Y -> nat * Y;
  eng_get_gdr_counter : Z -> GdrBuffer -> Y -> nat * Y;
  eng_add_peer_group : list (list DomainAddress) -> Z -> Y -> res PeerGroupHandle * Y;
}.

Section Context_.
Context {Y : Type} `{CuDriver Y} `{Cudart Y} `{A2aSystem Y}.

(** ** The device state of the worker *)

(** Buffers in the order in which [WorkerState::new] allocates them. *)
Record DeviceBuffers := {
  b_dispatch_route_done : GdrBuffer; b_dispatch_send_done : GdrBuffer;
  b_dispatch_recv_done : GdrBuffer; b_combine_send_done : GdrBuffer; b_combine_recv_done : GdrBuffer;
  b_num_recv_tokens_flag : GdrBuffer; b_tx_ready : GdrBuffer; b_dispatch_recv_flag : GdrBuffer;
  b_combine_recv_flag : GdrBuffer; b_tokens_per_expert : GdrBuffer; b_source_rank : GdrBuffer;
  b_source_dispatch_offset : GdrBuffer; b_combine_send_offset : GdrBuffer; b_padded_index : GdrBuffer;
  b_num_recv_tokens : GdrBuffer;
}.

(** Allocate, go on, and drop the buffer when what follows fails: locals are dropped in reverse
    order. *)
Definition with_buffer {A} (m : M Y (cures GdrBuffer)) (k : GdrBuffer -> M Y (cures A)) : M Y (cures A) :=
  let? b := m in
  let! r := k b in
  match r with
  | Ok a => ret (Ok a)
  | Err e => gdr_buffer_drop b ;;; ret (Err e)
  end.

Definition allocate_buffers (g num_local_experts max_recv_tokens : Z) : M Y (cures DeviceBuffers) :=
  with_buffer (gdr_flag_new g) (fun b1 =>
  with_buffer (gdr_flag_new g) (fun b2 =>
  with_buffer (gdr_flag_new g) (fun b3 =>
  with_buffer (gdr_flag_new g) (fun b4 =>
  with_buffer (gdr_flag_new g) (fun b5 =>
  with_buffer (gdr_flag_new g) (fun b6 =>
  with_buffer (gdr_flag_new g) (fun b7 =>
  with_buffer (gdr_flag_new g) (fun b8 =>
  with_buffer (gdr_flag_new g) (fun b9 =>
  with_buffer (gdr_vec_new g num_local_experts 4) (fun b10 =>
  with_buffer (gdr_vec_new g max_recv_tokens 4) (fun b11 =>
  with_buffer (gdr_vec_new g max_recv_tokens 4) (fun b12 =>
  with_buffer (gdr_vec_new g max_recv_tokens 4) (fun b13 =>
  with_buffer (gdr_vec_new g max_recv_tokens 4) (fun b14 =>
  with_buffer (gdr_vec_new g 3 4) (fun b15 =>
  ret (Ok {| b_dispatch_route_done := b1; b_dispatch_send_done := b2; b_dispatch_recv_done := b3;
    b_combine_send_done := b4; b_combine_recv_done := b5; b_num_recv_tokens_flag := b6;
    b_tx_ready := b7; b_dispatch_recv_flag := b8; b_combine_recv_flag := b9;
    b_tokens_per_expert := b10; b_source_rank := b11; b_source_dispatch_offset := b12;
    b_combine_send_offset := b13; b_padded_index := b14; b_num_recv_tokens := b15 |})))))))))))))))).

(** The context is closed with its last owner: here when no buffer was kept. *)
Definition worker_buffers (num_local_experts max_recv_tokens : Z) : M Y (cures DeviceBuffers) :=
  let? g := gdr_context_new in
  let! r := allocate_buffers g num_local_experts max_recv_tokens in
  match r with
  | Ok b =>
      vec_copy (b_num_recv_tokens b) [0; 0; 0] ;;;
      flag_set (b_num_recv_tokens_flag b) false ;;;
      flag_set (b_dispatch_recv_flag b) false ;;;
      flag_set (b_combine_recv_flag b) false ;;;
      flag_set (b_tx_ready b) true ;;;
      ret (Ok b)
  | Err e => gdr_context_drop g ;;; ret (Err e)
  end.

(** The buffers only the worker owns; [dispatch_recv_flag] is shared with the engine's counter. *)
Definition own_buffers (b : DeviceBuffers) : list GdrBuffer :=
  [b_dispatch_route_done b; b_dispatch_send_done b; b_dispatch_recv_done b; b_combine_send_done b;
   b_combine_recv_done b; b_tokens_per_expert b; b_source_dispatch_offset b; b_combine_send_offset b;
   b_source_rank b; b_padded_index b; b_num_recv_tokens b; b_num_recv_tokens_flag b;
   b_combine_recv_flag b; b_tx_ready b].

(** The five counters, created in this order. *)
Definition worker_counters (imm_base : Z) (b : DeviceBuffers) : M Y unit :=
  call (eng_get_imm_counter imm_base) ;;;
  call (eng_get_gdr_counter (u32_add imm_base 1) (b_dispatch_recv_flag b)) ;;;
  call (eng_get_imm_counter (u32_add imm_base 2)) ;;;
  call (eng_get_imm_counter (u32_add imm_base 3)) ;;;
  call (eng_get_imm_counter (u32_add imm_base 4)) ;;;
  ret tt.

Record A2aWorkerState := { w_state : A2aState; w_buffers : DeviceBuffers }.

(** The same buffers in the order of allocation: the locals of [WorkerState::new] are dropped last
    to first when adding the peer group fails. *)
Definition alloc_order (b : DeviceBuffers) : list GdrBuffer :=
  [b_dispatch_route_done b; b_dispatch_send_done b; b_dispatch_recv_done b; b_combine_send_done b;
   b_combine_recv_done b; b_num_recv_tokens_flag b; b_tx_ready b; b_combine_recv_flag b;
   b_tokens_per_expert b; b_source_rank b; b_source_dispatch_offset b; b_combine_send_offset b;
   b_padded_index b; b_num_recv_tokens b].

(** A zero [dp_size] or [world_size] panics before anything is allocated. *)
Definition worker_new (a : A2aArgs) (device : Z) : M Y (ares A2aWorkerState) :=
  let! _ := usize_rem (a_rank a) (a_dp_size a) in
  let! _ := usize_rem (a_num_experts a) (a_world_size a) in
  let num_local_experts := Z.of_nat (nat_div_ceil (a_num_experts a) (a_world_size a)) in
  let? b := question FromCuda (worker_buffers num_local_experts (Z.of_nat (a_max_recv_tokens a))) in
  worker_counters (a_imm_base a) b ;;;
  let! r := a2a_new a (fun addrs => call (eng_add_peer_group addrs device)) in
  match r with
  | Ok st => ret (Ok {| w_state := st; w_buffers := b |})
  | Err e => for_each (reverse (alloc_order b)) gdr_buffer_drop ;;; ret (Err (FromFabric e))
  end.

(** [WorkerState::stop]. *)
Definition worker_stop (b : DeviceBuffers) : M Y unit :=
  modify store_stop_flag ;;;
  flag_set (b_dispatch_route_done b) true ;;;
  flag_set (b_dispatch_send_done b) true ;;;
  flag_set (b_dispatch_recv_done b) true ;;;
  flag_set (b_combine_send_done b) true ;;;
  flag_set (b_combine_recv_done b) true.

Definition worker_failed : M Y bool := gets (fun y => negb (err_counter y =? 0)).

(** ** [DeviceWorkspace] *)
Record DeviceWorkspace := {
  ws_expert_offsets : CudaDeviceMemory;
  ws_token_offset : CudaDeviceMemory;
  ws_token_counter : CudaDeviceMemory;
  ws_grid_counter : CudaDeviceMemory;
  ws_sync_counter : CudaDeviceMemory;
  ws_sync_ptrs : option CudaDeviceMemory;
  ws_send_ptrs : option CudaDeviceMemory;
  ws_recv_ptrs : option CudaDeviceMemory;
}.

Definition with_mem {A} (m : M Y (rtres CudaDeviceMemory)) (zero : bool)
    (k : CudaDeviceMemory -> M Y (rtres A)) : M Y (rtres A) :=
  let? p := m in
  (if zero then mem_zero p else ret tt) ;;;
  let! r := k p in
  match r with
  | Ok a => ret (Ok a)
  | Err e => mem_drop p ;;; ret (Err e)
  end.

(** [if host_ptrs.is_empty() { None } else { Some(CudaDeviceMemory::from_vec(host_ptrs)?) }]. *)
Definition with_ptrs {A} (host_ptrs : list Z) (k : option CudaDeviceMemory -> M Y (rtres A)) : M Y (rtres A) :=
  match host_ptrs with
  | [] => k None
  | _ => with_mem (mem_from_vec 8 host_ptrs) false (fun p => k (Some p))
  end.

Definition workspace_new (num_experts max_num_tokens num_experts_per_token : Z)
    (host_sync_ptrs host_send_ptrs host_recv_ptrs : list Z) : M Y (rtres DeviceWorkspace) :=
  with_mem (mem_device (u64_mul num_experts 4)) true (fun expert_offsets =>
  with_mem (mem_device (u64_mul (u64_mul max_num_tokens num_experts_per_token) 4)) false (fun token_offset =>
  with_mem (mem_device 4) true (fun token_counter =>
  with_mem (mem_device 4) true (fun sync_counter =>
  with_mem (mem_device 4) true (fun grid_counter =>
  with_ptrs host_sync_ptrs (fun sync_ptrs =>
  with_ptrs host_send_ptrs (fun send_ptrs =>
  with_ptrs host_recv_ptrs (fun recv_ptrs =>
  ret (Ok {| ws_expert_offsets := expert_offsets; ws_token_offset := token_offset;
    ws_token_counter := token_counter; ws_grid_counter := grid_counter;
    ws_sync_counter := sync_counter; ws_sync_ptrs := sync_ptrs; ws_send_ptrs := send_ptrs;
    ws_recv_ptrs := recv_ptrs |}))))))))).

Definition option_list {A} (o : option A) : list A := match o with Some a => [a] | None => [] end.

(** The fields in the order in which they are dropped. *)
Definition ws_memory (w : DeviceWorkspace) : list CudaDeviceMemory :=
  [ws_expert_offsets w; ws_token_offset w; ws_token_counter w; ws_grid_counter w; ws_sync_counter w] ++
  option_list (ws_sync_ptrs w) ++ option_list (ws_send_ptrs w) ++ option_list (ws_recv_ptrs w).
Definition workspace_drop (w : DeviceWorkspace) : M Y unit := for_each (ws_memory w) mem_drop.

Definition ptr_or_null (o : option CudaDeviceMemory) : Z := match o with Some p => dm_ptr p | None => 0 end.
Definition get_sync_ptr (w : DeviceWorkspace) : Z := ptr_or_null (ws_sync_ptrs w).
Definition get_recv_ptr (w : DeviceWorkspace) : Z := ptr_or_null (ws_recv_ptrs w).
Definition get_send_ptr (w : DeviceWorkspace) : Z := ptr_or_null (ws_send_ptrs w).

(** ** [AllToAllContext] *)
Record AllToAllContext := {
  x_args : A2aArgs;
  x_out_dtype : Z;
  x_max_num_tokens : Z;
  x_num_experts_per_token : Z;
  x_num_routed_ptr : Z;
  x_send_buffer_ptr : Z;
  x_recv_buffer_ptr : Z;
  x_workspace : DeviceWorkspace;
  x_worker : A2aWorkerState;
  x_thread : option Z;
  x_num_blocks : Z;
}.

(** The arguments of [new] besides those of the worker. *)
Record ContextArgs := {
  ca_worker : A2aArgs; ca_out_dtype : Z; ca_max_num_tokens : Z; ca_num_experts_per_token : Z;
  ca_num_routed_ptr : Z; ca_send_buffer_ptr : Z; ca_recv_buffer_ptr : Z;
  ca_sync_ptrs : list Z; ca_send_ptrs : list Z; ca_recv_ptrs : list Z; ca_device : Z;
  ca_worker_cpu : option Z;
}.

Definition context_new (a : ContextArgs) : M Y (ares AllToAllContext) :=
  let? worker := worker_new (ca_worker a) (ca_device a) in
  let! started := call (spawn_worker (ca_worker_cpu a)) in
  match started with
  | NoThread => panic "Failed to spawn p2p_all_to_all Worker thread"
  | Died => for_each (own_buffers (w_buffers worker)) gdr_buffer_drop ;;; ret (Err FromRecv)
  | Running thread =>
      let? workspace := question FromRt (workspace_new (Z.of_nat (a_num_experts (ca_worker a)))
        (ca_max_num_tokens a) (ca_num_experts_per_token a) (ca_sync_ptrs a) (ca_send_ptrs a)
        (ca_recv_ptrs a)) in
      let! r := question FromRt (cudaGetNumSMs (ca_device a)) in
      match r with
      | Err e => workspace_drop workspace ;;; ret (Err e)
      | Ok num_blocks =>
          ret (Ok {| x_args := ca_worker a; x_out_dtype := ca_out_dtype a;
            x_max_num_tokens := ca_max_num_tokens a;
            x_num_experts_per_token := ca_num_experts_per_token a;
            x_num_routed_ptr := ca_num_routed_ptr a; x_send_buffer_ptr := ca_send_buffer_ptr a;
            x_recv_buffer_ptr := ca_recv_buffer_ptr a; x_workspace := workspace; x_worker := worker;
            x_thread := Some thread; x_num_blocks := num_blocks |})
      end
  end.

Definition take_thread (c : AllToAllContext) : AllToAllContext :=
  {| x_args := x_args c; x_out_dtype := x_out_dtype c; x_max_num_tokens := x_max_num_tokens c;
     x_num_experts_per_token := x_num_experts_per_token c; x_num_routed_ptr := x_num_routed_ptr c;
     x_send_buffer_ptr := x_send_buffer_ptr c; x_recv_buffer_ptr := x_recv_buffer_ptr c;
     x_workspace := x_workspace c; x_worker := x_worker c; x_thread := None;
     x_num_blocks := x_num_blocks c |}.

(** A context and the system. *)
Definition on_sys {A} (m : M Y A) : M (AllToAllContext * Y) A := on_state snd (fun y s => (s.1, y)) m.

Definition destroy : M (AllToAllContext * Y) (ares unit) :=
  let! c := gets fst in
  on_sys (worker_stop (w_buffers (x_worker c))) ;;;
  modify (fun s => (take_thread s.1, s.2)) ;;;
  match x_thread c with
  | None => ret (Ok tt)
  | Some thread =>
      let! is_err := on_sys (call (join_worker thread)) in
      if is_err : bool then ret (Err (Anyhow "Failed to join thread")) else ret (Ok tt)
  end.

(** [Drop], then the fields: the workspace and what the worker state owns alone. *)
Definition context_drop (c : AllToAllContext) (y : Y) : outcome (unit * Y) :=
  match destroy (c, y) with
  | Done (_, (c, y)) =>
      (workspace_drop (x_workspace c) ;;; for_each (own_buffers (w_buffers (x_worker c))) gdr_buffer_drop) y
  | Panic why => Panic why
  | OutOfFuel => OutOfFuel
  end.

(** [cuda_check!(kernel(..))?], then the errors of the worker. *)
Definition launch_checked (l : Launch) : M Y (ares unit) :=
  let? _ := question FromCuda (cuda_check (launch l)) in
  let! failed := worker_failed in
  if failed : bool then ret (Err (Anyhow "fabric-lib transfer error")) else ret (Ok tt).

Definition mem_ptr (m : CudaDeviceMemory) : Z := dm_ptr m.
Definition dev_ptr (b : GdrBuffer) : Z := gb_aligned_device_ptr b.

Section Kernels.
Context (c : AllToAllContext).
Let a := x_args c.
Let w := x_workspace c.
Let b := w_buffers (x_worker c).

Definition dispatch_send (num_tokens x_ptr x_stride x_scale_ptr x_scale_stride_elem x_scale_stride_token
    indices indices_stride weights weights_stride bound_m_ptr stream : Z) : M Y (ares unit) :=
  if x_max_num_tokens c <? num_tokens then ret (Err (Anyhow "Number of tokens exceeds maximum allowed"))
  else launch_checked (LDispatchSend {|
    ds_num_blocks := x_num_blocks c; ds_hidden_dim := a_hidden_dim a;
    ds_hidden_dim_scale := a_hidden_dim_scale a; ds_num_experts := Z.of_nat (a_num_experts a);
    ds_num_experts_per_token := x_num_experts_per_token c;
    ds_max_private_tokens := Z.of_nat (a_max_private_tokens a); ds_rank := Z.of_nat (a_rank a);
    ds_dp_size := Z.of_nat (a_dp_size a); ds_node_size := Z.of_nat (a_node_size a);
    ds_world_size := Z.of_nat (a_world_size a); ds_num_tokens := num_tokens;
    ds_bound_m_ptr := bound_m_ptr; ds_x_ptr := x_ptr; ds_in_elemsize := a_in_elemsize a;
    ds_x_stride := x_stride; ds_x_scale_ptr := x_scale_ptr; ds_scale_elemsize := a_scale_elemsize a;
    ds_x_scale_stride_elem := x_scale_stride_elem; ds_x_scale_stride_token := x_scale_stride_token;
    ds_indices := indices; ds_indices_stride := indices_stride; ds_weights := weights;
    ds_weights_stride := weights_stride; ds_token_offset := mem_ptr (ws_token_offset w);
    ds_num_routed_ptr := x_num_routed_ptr c; ds_expert_offsets := mem_ptr (ws_expert_offsets w);
    ds_dispatch_route_done := dev_ptr (b_dispatch_route_done b);
    ds_dispatch_send_done := dev_ptr (b_dispatch_send_done b); ds_tx_ready := dev_ptr (b_tx_ready b);
    ds_send_buffer_ptr := x_send_buffer_ptr c; ds_grid_counter := mem_ptr (ws_grid_counter w);
    ds_sync_counter := mem_ptr (ws_sync_counter w); ds_sync_ptr := get_sync_ptr w;
    ds_recv_ptr := get_recv_ptr w; ds_stream := stream |}).

Definition dispatch_recv (out_num_tokens_ptr out_x_ptr out_x_stride out_x_scale_ptr out_x_scale_stride_elem
    out_x_scale_stride_token stream : Z) : M Y (ares unit) :=
  launch_checked (LDispatchRecv {|
    dr_num_blocks := x_num_blocks c; dr_hidden_dim := a_hidden_dim a;
    dr_hidden_dim_scale := a_hidden_dim_scale a; dr_in_elemsize := a_in_elemsize a;
    dr_scale_elemsize := a_scale_elemsize a; dr_num_experts := Z.of_nat (a_num_experts a);
    dr_rank := Z.of_nat (a_rank a); dr_node_size := Z.of_nat (a_node_size a);
    dr_world_size := Z.of_nat (a_world_size a); dr_out_num_tokens_ptr := out_num_tokens_ptr;
    dr_out_x_ptr := out_x_ptr; dr_out_x_stride := out_x_stride; dr_out_x_scale_ptr := out_x_scale_ptr;
    dr_out_x_scale_stride_elem := out_x_scale_stride_elem;
    dr_out_x_scale_stride_token := out_x_scale_stride_token;
    dr_tokens_per_expert := dev_ptr (b_tokens_per_expert b); dr_send_buffer_ptr := x_send_buffer_ptr c;
    dr_recv_buffer_ptr := x_recv_buffer_ptr c; dr_source_rank := dev_ptr (b_source_rank b);
    dr_source_dispatch_offset := dev_ptr (b_source_dispatch_offset b);
    dr_padded_index := dev_ptr (b_padded_index b); dr_num_routed_ptr := x_num_routed_ptr c;
    dr_num_recv_tokens := dev_ptr (b_num_recv_tokens b);
    dr_num_recv_tokens_flag := dev_ptr (b_num_recv_tokens_flag b);
    dr_dispatch_recv_flag := dev_ptr (b_dispatch_recv_flag b);
    dr_dispatch_recv_done := dev_ptr (b_dispatch_recv_done b);
    dr_grid_counter := mem_ptr (ws_grid_counter w); dr_sync_counter := mem_ptr (ws_sync_counter w);
    dr_sync_ptr := get_sync_ptr w; dr_send_ptr := get_send_ptr w; dr_stream := stream |}).

Definition combine_send (expert_x_ptr expert_x_stride stream : Z) : M Y (ares unit) :=
  launch_checked (LCombineSend {|
    cs_num_blocks := x_num_blocks c; cs_hidden_dim := a_hidden_dim a; cs_out_elemsize := a_out_elemsize a;
    cs_rank := Z.of_nat (a_rank a); cs_node_size := Z.of_nat (a_node_size a);
    cs_dp_size := Z.of_nat (a_dp_size a); cs_expert_x_ptr := expert_x_ptr;
    cs_expert_x_stride := expert_x_stride; cs_tx_ready := dev_ptr (b_tx_ready b);
    cs_send_buffer_ptr := x_send_buffer_ptr c; cs_recv_buffer_ptr := x_recv_buffer_ptr c;
    cs_source_rank := dev_ptr (b_source_rank b); cs_combine_send_offset := dev_ptr (b_combine_send_offset b);
    cs_padded_index := dev_ptr (b_padded_index b); cs_num_recv_tokens := dev_ptr (b_num_recv_tokens b);
    cs_combine_send_done := dev_ptr (b_combine_send_done b); cs_token_counter := mem_ptr (ws_token_counter w);
    cs_sync_counter := mem_ptr (ws_sync_counter w); cs_sync_ptr := get_sync_ptr w;
    cs_recv_ptr := get_recv_ptr w; cs_stream := stream |}).

(** [num_recv_tokens] is not used. *)
Definition combine_recv (num_tokens num_recv_tokens expert_y_dtype out_tokens_ptr out_tokens_stride
    indices_ptr indices_stride weights_ptr weights_stride bound_m_ptr : Z) (accumulate : bool) (stream : Z) :
    M Y (ares unit) :=
  launch_checked (LCombineRecv {|
    cr_num_blocks := x_num_blocks c; cr_hidden_dim := a_hidden_dim a; cr_out_elemsize := a_out_elemsize a;
    cr_expert_y_dtype := expert_y_dtype; cr_out_dtype := x_out_dtype c;
    cr_num_experts := Z.of_nat (a_num_experts a); cr_num_experts_per_token := x_num_experts_per_token c;
    cr_rank := Z.of_nat (a_rank a); cr_node_size := Z.of_nat (a_node_size a);
    cr_world_size := Z.of_nat (a_world_size a); cr_num_tokens := num_tokens; cr_bound_m_ptr := bound_m_ptr;
    cr_indices_ptr := indices_ptr; cr_indices_stride := indices_stride; cr_weights_ptr := weights_ptr;
    cr_weights_stride := weights_stride; cr_out_tokens_ptr := out_tokens_ptr;
    cr_out_tokens_stride := out_tokens_stride; cr_accumulate := accumulate;
    cr_recv_buffer_ptr := x_recv_buffer_ptr c; cr_token_offset := mem_ptr (ws_token_offset w);
    cr_expert_offsets := mem_ptr (ws_expert_offsets w);
    cr_combine_recv_flag := dev_ptr (b_combine_recv_flag b);
    cr_combine_recv_done := dev_ptr (b_combine_recv_done b); cr_sync_counter := mem_ptr (ws_sync_counter w);
    cr_sync_ptr := get_sync_ptr w; cr_stream := stream |}).
End Kernels.
End Context_.
