(* ===== verification/A2aContextSpec.v ===== *)
(** * What an all-to-all context owns

    Triples ([Resources]) for the allocations and drops of a context.  The theorems say that a
    context gives back what it took, what a failed [new] leaves behind, and which launches fit the
    workspace. *)
From stdpp Require Import prelude gmap strings list list_tactics.
From S2P Require Import Prelude Resources Api A2aWorker CuMem CuMemSpec CudaRt A2aContext.
Local Open Scope Z_scope.

Class A2aLaws (Y : Type) `{CuDriverLaws Y} `{Cudart Y} `{A2aSystem Y} := {
  gdr_open_law (y : Y) : held (gdr_open y).2 = held y;
  gdr_close_law g (y : Y) : held (gdr_close g y) = held y;
  malloc_law n (y : Y) c p y' :
    cudaMalloc n y = (c, p, y') -> gives held (if p =? 0 then 1 else 0) (Block p) y y';
  cuda_free_law p (y : Y) c y' : Block p ∈ held y -> cudaFree p y = (c, y') -> returns held (Block p) y y';
  memcpy_law p l n (y : Y) : held (cudaMemcpyHostToDevice p l n y).2 = held y;
  memset_law p v n (y : Y) : held (cudaMemset p v n y).2 = held y;
  num_sms_law d (y : Y) : held (multiProcessorCount d y).2 = held y;
  bar_store_law p v (y : Y) : held (bar_store p v y) = held y;
  copy_law h p l (y : Y) : held (gdr_copy_to_mapping h p l y) = held y;
  launch_law l (y : Y) : held (launch l y).2 = held y;
  spawn_law cpu (y : Y) r y' : spawn_worker cpu y = (r, y') ->
    match r with Running t => acquires held (Thread t) y y' | _ => held y' = held y end;
  join_law t (y : Y) r y' : Thread t ∈ held y -> join_worker t y = (r, y') -> returns held (Thread t) y y';
  stop_flag_law (y : Y) : held (store_stop_flag y) = held y;
  imm_counter_law imm (y : Y) : held (eng_get_imm_counter imm y).2 = held y;
  gdr_counter_law imm f (y : Y) : held (eng_get_gdr_counter imm f y).2 = held y;
  peer_group_law l d (y : Y) : held (eng_add_peer_group l d y).2 = held y;
}.

(** ** The resources of each object *)
Definition owns (b : GdrBuffer) : list Res :=
  [Bar (gb_mh b) (gb_mapped_ptr b); Pin (gb_mh b); Block (gb_device_ptr b)].
Definition mem_res (m : CudaDeviceMemory) : Res := Block (dm_ptr m).
Definition all_res (l : list GdrBuffer) : list Res := mjoin (owns <$> l).
Definition buffers_res (b : DeviceBuffers) : list Res :=
  all_res (own_buffers b) ++ owns (b_dispatch_recv_flag b).
Definition workspace_res (w : DeviceWorkspace) : list Res := mem_res <$> ws_memory w.

(** The postcondition of an allocation: [f a] on top of [l] on success, [l] on error. *)
Definition alloc_post {E A} (f : A -> list Res) (l : list Res) (r : result E A) (l' : list Res) : Prop :=
  l' ≡ₚ match r with Ok a => f a ++ l | Err _ => l end.

Ltac ret_post := apply tri_ret; unfold alloc_post in *; done.

Section Objects.
Context {Y : Type} `{A2aLaws Y}.
Notation tri := (tri (Y := Y) held).
Notation idle := (idle (Y := Y) held).

Lemma buffer_drop_tri b l : tri (owns b ++ l) (gdr_buffer_drop b) (fun _ l' => l' = l).
Proof.
  unfold gdr_buffer_drop. eapply tri_bind; [apply take_last; intros; by apply unbar_law|].
  intros _ ? ->. eapply tri_bind; [apply take_last; intros; by apply unpin_law|].
  intros _ ? ->. apply take_last. intros. by apply free_law.
Qed.

Lemma drop_buffers_tri bs l : tri (all_res bs ++ l) (for_each bs gdr_buffer_drop) (fun _ l' => l' = l).
Proof.
  induction bs as [|b bs IH]; [by apply tri_ret|]. cbn [for_each].
  change (all_res (b :: bs)) with (owns b ++ all_res bs). rewrite <- app_assoc. eapply tri_bind; [apply buffer_drop_tri|]. intros ? ? ->. exact IH.
Qed.

(** A call that gives out [r] when its answer is zero. *)
Lemma give_tri {A} (f : Y -> Z * A * Y) (r : A -> Res) l :
  (forall y c a y', f y = (c, a, y') -> gives held c (r a) y y') ->
  tri l (call f) (fun x l' => l' = if x.1 =? 0 then r x.2 :: l else l).
Proof.
  intros Hf base y [c a] y' Hl Hr. cbv [call] in Hr. simplify_eq. apply Hf in Hr. unfold gives in Hr.
  simpl. destruct (c =? 0); eexists; (split; [done|]).
  - by eapply held_over_put.
  - unfold held_over in *. by rewrite Hr.
Qed.

Lemma alloc_buffer_tri g n l : tri l (alloc_buffer g n) (alloc_post owns l).
Proof.
  unfold alloc_buffer. eapply tri_bind; [apply (give_tri _ Block); intros; by eapply alloc_law|].
  intros [c p] ? ->. cbn [fst snd]. destruct (c =? 0); cbn [negb]; [|ret_post].
  eapply tri_bind; [apply (give_tri _ Pin); intros; by eapply pin_law|].
  intros [c2 m] ? ->. cbn [fst snd]. destruct (c2 =? 0); cbn [negb].
  2: { eapply tri_bind; [apply take_last; intros; by apply free_law|]. intros ? ? ->. ret_post. }
  eapply tri_bind; [apply (give_tri _ (Bar m)); intros; by eapply bar_law|].
  intros [c3 v] ? ->. cbn [fst snd]. destruct (c3 =? 0); cbn [negb]; [ret_post|].
  eapply tri_bind; [apply take_last; intros; by apply unpin_law|]. intros ? ? ->.
  eapply tri_bind; [apply take_last; intros; by apply free_law|]. intros ? ? ->. ret_post.
Qed.

(** Allocation with clean-up, for buffers and for device memory. *)
Lemma with_buffer_tri {A} m (k : GdrBuffer -> M Y (cures A)) f l :
  tri l m (alloc_post owns l) ->
  (forall b, tri (owns b ++ l) (k b) (fun r l' => l' ≡ₚ match r with Ok a => f a | Err _ => owns b ++ l end)) ->
  tri l (with_buffer m k) (fun r l' => l' ≡ₚ match r with Ok a => f a | Err _ => l end).
Proof.
  intros Hm Hk. unfold with_buffer. eapply tri_bind_res; [exact Hm| |by intros ? ? ?].
  intros b l1 Hl1. eapply tri_pre; [exact Hl1|]. eapply tri_bind; [apply Hk|].
  intros [a|e] l2 Hl2; [ret_post|].
  eapply tri_pre; [exact Hl2|]. eapply tri_bind; [apply buffer_drop_tri|]. intros ? ? ->. ret_post.
Qed.

Lemma mem_of_tri context f n l :
  (forall (y : Y) c p y', f y = (c, p, y') -> gives held (if p =? 0 then 1 else 0) (Block p) y y') ->
  tri l (mem_of context f n) (alloc_post (fun m => [mem_res m]) l).
Proof.
  intros Hf base y r y' Hl Hr. unfold mem_of in Hr. run_inv Hr. cbv [call] in *. simplify_eq.
  destruct a as [c p]. apply Hf in Hrun. unfold gives, alloc_post in *. simpl.
  destruct (p =? 0); simpl in *; eexists; (split; [done|]).
  - unfold held_over in *. by rewrite Hrun.
  - by eapply held_over_put.
Qed.

Lemma mem_drop_tri m l : tri (mem_res m :: l) (mem_drop m) (fun _ l' => l' = l).
Proof.
  intros base y a y' Hl Hr. unfold mem_drop in Hr. run_inv Hr. cbv [call] in *. simplify_eq.
  exists l. split; [done|]. eapply held_over_take; [|exact Hl].
  eapply cuda_free_law; [by eapply held_over_in|done].
Qed.

Lemma drop_memory_tri ms l : tri ((mem_res <$> ms) ++ l) (for_each ms mem_drop) (fun _ l' => l' = l).
Proof.
  induction ms as [|m ms IH]; [by apply tri_ret|]. cbn. eapply tri_bind; [apply mem_drop_tri|].
  intros ? ? ->. exact IH.
Qed.

Lemma mem_zero_idle m : idle (mem_zero m).
Proof. unfold mem_zero. idle_step. apply idle_call, memset_law. Qed.
Lemma mem_device_tri n l : tri l (mem_device n) (alloc_post (fun m => [mem_res m]) l).
Proof. apply mem_of_tri. intros. by eapply malloc_law. Qed.

Lemma mem_from_vec_tri e data l : tri l (mem_from_vec e data) (alloc_post (fun m => [mem_res m]) l).
Proof.
  unfold mem_from_vec. eapply tri_bind_res; [apply mem_device_tri| |by intros ? ? ?].
  intros m l1 Hl1. eapply tri_bind; [apply tri_idle, idle_call, memcpy_law|]. intros ? ? ->. ret_post.
Qed.

Lemma with_mem_tri {A} m z (k : CudaDeviceMemory -> M Y (rtres A)) f l :
  tri l m (alloc_post (fun m => [mem_res m]) l) ->
  (forall p, tri (mem_res p :: l) (k p) (fun r l' => l' ≡ₚ match r with Ok a => f a | Err _ => mem_res p :: l end)) ->
  tri l (with_mem m z k) (fun r l' => l' ≡ₚ match r with Ok a => f a | Err _ => l end).
Proof.
  intros Hm Hk. unfold with_mem. eapply tri_bind_res; [exact Hm| |by intros ? ? ?].
  intros p l1 Hl1. eapply tri_pre; [exact Hl1|].
  eapply tri_bind; [apply tri_idle; destruct z; [apply mem_zero_idle|apply idle_ret]|]. intros _ ? ->.
  eapply tri_bind; [apply Hk|]. intros [x|e] l2 Hl2; [ret_post|].
  eapply tri_pre; [exact Hl2|]. eapply tri_bind; [apply mem_drop_tri|]. intros ? ? ->. ret_post.
Qed.

Lemma with_ptrs_tri {A} ptrs (k : option CudaDeviceMemory -> M Y (rtres A)) f l :
  (forall o, tri ((mem_res <$> option_list o) ++ l) (k o)
     (fun r l' => l' ≡ₚ match r with Ok a => f a | Err _ => (mem_res <$> option_list o) ++ l end)) ->
  tri l (with_ptrs ptrs k) (fun r l' => l' ≡ₚ match r with Ok a => f a | Err _ => l end).
Proof.
  intros Hk. unfold with_ptrs. destruct ptrs; [apply (Hk None)|].
  apply with_mem_tri; [apply mem_from_vec_tri|]. intros p. apply (Hk (Some p)).
Qed.

Lemma workspace_new_tri ne mt et s1 s2 s3 l :
  tri l (workspace_new ne mt et s1 s2 s3) (alloc_post workspace_res l).
Proof.
  unfold workspace_new, alloc_post.
  repeat (apply with_mem_tri; [apply mem_device_tri|intros ?]).
  do 3 (apply with_ptrs_tri; intros ?). apply tri_ret.
  unfold workspace_res, ws_memory. cbn [ws_expert_offsets ws_token_offset ws_token_counter ws_grid_counter
    ws_sync_counter ws_sync_ptrs ws_send_ptrs ws_recv_ptrs]. rewrite !fmap_app. cbn. solve_Permutation.
Qed.

Lemma allocate_buffers_tri g ne mt l : tri l (allocate_buffers g ne mt) (alloc_post buffers_res l).
Proof.
  unfold allocate_buffers, alloc_post.
  repeat (apply with_buffer_tri; [apply alloc_buffer_tri|intros ?]). apply tri_ret.
  unfold buffers_res, own_buffers, all_res. cbn. solve_Permutation.
Qed.
End Objects.

(** ** The worker and the context *)
Definition context_res (c : AllToAllContext) : list Res :=
  (Thread <$> option_list (x_thread c)) ++ workspace_res (x_workspace c) ++
  buffers_res (w_buffers (x_worker c)).

(** The calls a holder of a context makes. *)
Inductive ContextOp : Type :=
  | OpDispatchSend (num_tokens x_ptr x_stride x_scale_ptr x_scale_stride_elem x_scale_stride_token
      indices indices_stride weights weights_stride bound_m_ptr stream : Z)
  | OpDispatchRecv (out_num_tokens_ptr out_x_ptr out_x_stride out_x_scale_ptr out_x_scale_stride_elem
      out_x_scale_stride_token stream : Z)
  | OpCombineSend (expert_x_ptr expert_x_stride stream : Z)
  | OpCombineRecv (num_tokens num_recv_tokens expert_y_dtype out_tokens_ptr out_tokens_stride
      indices_ptr indices_stride weights_ptr weights_stride bound_m_ptr : Z) (accumulate : bool) (stream : Z)
  | OpDestroy.

(** Pass over a step that leaves the resources alone. *)
Ltac skip_idle := eapply tri_bind; [apply tri_idle; solve [idle_step]|intros _ ? ->].

Section Lifecycle.
Context {Y : Type} `{A2aLaws Y}.
Notation tri := (tri (Y := Y) held).
Notation idle := (idle (Y := Y) held).

Definition context_op (o : ContextOp) : M (AllToAllContext * Y) (ares unit) :=
  let! c := gets fst in
  match o with
  | OpDispatchSend a1 a2 a3 a4 a5 a6 a7 a8 a9 a10 a11 a12 =>
      on_sys (dispatch_send c a1 a2 a3 a4 a5 a6 a7 a8 a9 a10 a11 a12)
  | OpDispatchRecv a1 a2 a3 a4 a5 a6 a7 => on_sys (dispatch_recv c a1 a2 a3 a4 a5 a6 a7)
  | OpCombineSend a1 a2 a3 => on_sys (combine_send c a1 a2 a3)
  | OpCombineRecv a1 a2 a3 a4 a5 a6 a7 a8 a9 a10 a11 a12 =>
      on_sys (combine_recv c a1 a2 a3 a4 a5 a6 a7 a8 a9 a10 a11 a12)
  | OpDestroy => destroy
  end.

Lemma flag_set_idle b v : idle (flag_set b v).
Proof. apply idle_modify. intros. apply bar_store_law. Qed.
Lemma vec_copy_idle b v : idle (vec_copy b v).
Proof. apply idle_modify. intros. apply copy_law. Qed.
Lemma imm_counter_idle imm : idle (call (eng_get_imm_counter imm)).
Proof. apply idle_call, imm_counter_law. Qed.
Lemma gdr_counter_idle imm b : idle (call (eng_get_gdr_counter imm b)).
Proof. apply idle_call, gdr_counter_law. Qed.
Lemma peer_group_idle l d : idle (call (eng_add_peer_group l d)).
Proof. apply idle_call, peer_group_law. Qed.
Lemma num_sms_idle d : idle (call (multiProcessorCount d)).
Proof. apply idle_call, num_sms_law. Qed.
Lemma gdr_open_idle : idle (call gdr_open).
Proof. apply idle_call, gdr_open_law. Qed.
Lemma launch_idle l : idle (call (launch l)).
Proof. apply idle_call, launch_law. Qed.
Hint Resolve flag_set_idle vec_copy_idle imm_counter_idle gdr_counter_idle peer_group_idle num_sms_idle
  gdr_open_idle launch_idle : idle.

Lemma worker_stop_idle b : idle (worker_stop b).
Proof. unfold worker_stop. idle_step. apply idle_modify, stop_flag_law. Qed.
Lemma worker_counters_idle imm b : idle (worker_counters imm b).
Proof. unfold worker_counters. idle_step. Qed.
Lemma launch_checked_idle l : idle (launch_checked l).
Proof. unfold launch_checked, question, cuda_check, worker_failed, bind_res. idle_step. Qed.
Hint Resolve worker_stop_idle worker_counters_idle launch_checked_idle : idle.

Lemma collect_idle {A B} (l : list A) (f : A -> M Y (list B)) : (forall x, idle (f x)) -> idle (collect l f).
Proof. intros Hf. induction l as [|x l IH]; cbn; idle_step; auto. Qed.
Lemma vget_idle {A} (l : list A) i : idle (vget l i).
Proof. unfold vget, unwrap. idle_step. Qed.
Lemma usize_rem_idle a b : idle (usize_rem a b).
Proof. unfold usize_rem. case_decide; idle_step. Qed.
Lemma usize_div_idle a b : idle (usize_div a b).
Proof. unfold usize_div. idle_step. Qed.
Hint Resolve vget_idle usize_rem_idle usize_div_idle : idle.

Lemma a2a_new_idle a d : idle (a2a_new a (fun addrs => call (eng_add_peer_group addrs d))).
Proof.
  unfold a2a_new, route_targets, barrier_mrs, bind_res.
  repeat (idle_step; try (apply collect_idle; intros)).
Qed.

Lemma question_tri {E A} (f : E -> AnyError) (m : M Y (result E A)) l Q :
  tri l m Q -> tri l (question f m) (fun r l' => exists r0, r = map_err f r0 /\ Q r0 l').
Proof. intros Hm. unfold question. eapply tri_bind; [exact Hm|]. intros r l' HQ. apply tri_ret. eauto. Qed.

Lemma worker_buffers_tri ne mt l : tri l (worker_buffers ne mt) (alloc_post buffers_res l).
Proof.
  unfold worker_buffers. eapply tri_bind_res; [apply tri_idle; unfold gdr_context_new; idle_step| |].
  2: { intros e ? ->. by unfold alloc_post. }
  intros g ? ->. eapply tri_bind; [apply allocate_buffers_tri|]. intros [b|e] l1 Hl1.
  - repeat skip_idle. by apply tri_ret.
  - eapply tri_bind; [apply tri_idle; unfold gdr_context_drop; apply idle_modify, gdr_close_law|].
    intros ? ? ->. by apply tri_ret.
Qed.

(** The buffers in order of allocation and in order of fields are the same. *)
Lemma alloc_order_perm b : all_res (reverse (alloc_order b)) ≡ₚ all_res (own_buffers b).
Proof. unfold all_res. rewrite (reverse_Permutation (alloc_order b)). cbn. solve_Permutation. Qed.

Lemma worker_new_tri a d l :
  tri l (worker_new a d) (fun r l' =>
    match r with
    | Ok w => l' ≡ₚ buffers_res (w_buffers w) ++ l
    | Err _ => l' ≡ₚ l \/ exists b, l' ≡ₚ owns b ++ l
    end).
Proof.
  unfold worker_new. do 2 skip_idle.
  eapply tri_bind_res; [apply question_tri, worker_buffers_tri| |].
  2: { intros e l' ([|e'] & ? & Hl); simplify_eq/=. by left. }
  intros b l1 ([b'|] & Heq & Hl1); [|discriminate Heq]. injection Heq as ->. eapply tri_pre; [exact Hl1|]. skip_idle.
  eapply tri_bind; [apply tri_idle, a2a_new_idle|]. intros [st|e] ? ->; [by apply tri_ret|].
  eapply (tri_pre _ _ (all_res (reverse (alloc_order b')) ++ owns (b_dispatch_recv_flag b') ++ l)).
  { unfold buffers_res. rewrite alloc_order_perm. by rewrite <- app_assoc. }
  eapply tri_bind; [apply drop_buffers_tri|]. intros ? ? ->. apply tri_ret. right. by eexists.
Qed.

(** The second half of [new], after the thread was started. *)
Lemma context_tail_tri a w t l :
  tri l (match Running t with
    | NoThread => panic "Failed to spawn p2p_all_to_all Worker thread"
    | Died => for_each (own_buffers (w_buffers w)) gdr_buffer_drop ;;; ret (Err FromRecv)
    | Running thread =>
      let? workspace := question FromRt (workspace_new (Z.of_nat (a_num_experts (ca_worker a)))
        (ca_max_num_tokens a) (ca_num_experts_per_token a) (ca_sync_ptrs a) (ca_send_ptrs a)
        (ca_recv_ptrs a)) in
      let! r := question FromRt (cudaGetNumSMs (ca_device a)) in
      match r with
      | Err e => workspace_drop workspace ;;; ret (Err e)
      | Ok num_blocks =>
          ret (Ok {| x_args := ca_worker a; x_out_dtype := ca_out_dtype a;
            x_max_num_tokens := ca_max_num_tokens a;
            x_num_experts_per_token := ca_num_experts_per_token a;
            x_num_routed_ptr := ca_num_routed_ptr a; x_send_buffer_ptr := ca_send_buffer_ptr a;
            x_recv_buffer_ptr := ca_recv_buffer_ptr a; x_workspace := workspace; x_worker := w;
            x_thread := Some thread; x_num_blocks := num_blocks |})
      end end)
    (fun r l' => match r with
       | Ok c => x_thread c = Some t /\ x_worker c = w /\ l' ≡ₚ workspace_res (x_workspace c) ++ l
       | Err _ => l' ≡ₚ l end).
Proof.
  eapply tri_bind_res; [apply question_tri, workspace_new_tri| |].
  2: { intros e l' ([|e'] & ? & Hl); simplify_eq/=. done. }
  intros ws l1 ([ws'|] & Heq & Hl1); [|discriminate Heq]. injection Heq as ->. eapply tri_pre; [exact Hl1|].
  eapply tri_bind; [apply tri_idle; unfold question, cudaGetNumSMs, rt_check_out; idle_step|].
  intros [n|e] ? ->; [by apply tri_ret|].
  eapply tri_bind; [apply drop_memory_tri|]. intros ? ? ->. by apply tri_ret.
Qed.

Lemma context_new_tri a :
  tri [] (context_new a) (fun r l' => if r is Ok c then l' ≡ₚ context_res c else True).
Proof.
  unfold context_new. eapply tri_bind_res; [apply worker_new_tri| |done].
  intros w l1 Hl1. cbv beta iota in Hl1. rewrite app_nil_r in Hl1. eapply tri_pre; [exact Hl1|]. clear Hl1 l1.
  intros base y r y' Hl (st & y1 & H1' & H2')%bind_done. cbv [call] in H1'. simplify_eq.
  apply spawn_law in H1'. destruct st as [| |t].
  - by cbv [panic] in H2'.
  - apply bind_done in H2' as ([] & y2 & Hd & Hr). cbv [ret] in Hr. simplify_eq.
    assert (held_over held (buffers_res (w_buffers w)) base y1) as Hl1 by (unfold held_over in *; by rewrite H1').
    destruct (drop_buffers_tri _ _ _ _ _ _ Hl1 Hd) as (l2 & _ & Hl2). by exists l2.
  - apply (held_over_put held _ _ _ _ _ H1') in Hl.
    destruct (context_tail_tri a w t _ _ _ _ _ Hl H2') as (l' & HQ & Hl'). exists l'. split; [|done].
    destruct r as [c|]; [|done]. destruct HQ as (Ht & Hw & ->). unfold context_res. rewrite Ht, Hw. cbn.
    solve_Permutation.
Qed.

(** ** Nothing in a context's life panics *)
Lemma buffer_drop_total b : total (gdr_buffer_drop b).
Proof. intros y. by eexists _, _. Qed.
Lemma mem_drop_total m : total (mem_drop m).
Proof. intros y. unfold mem_drop, bind, call. destruct (cudaFree _ _). by eexists _, _. Qed.
Lemma worker_stop_total b : total (worker_stop b).
Proof. intros y. by eexists _, _. Qed.
Lemma launch_checked_total l : total (launch_checked l).
Proof.
  intros y. unfold launch_checked, question, cuda_check, bind_res, bind, call, ret.
  destruct (launch l y) as [c y1]. destruct (c =? 0); cbn; [|by eexists _, _].
  destruct (negb _); by eexists _, _.
Qed.

Lemma on_sys_run {A} (m : M Y A) c y a y' : m y = Done (a, y') -> on_sys m (c, y) = Done (a, (c, y')).
Proof. intros E. unfold on_sys, on_state. cbn. by rewrite E. Qed.

(** Calls that launch: they return, and the resources stay. *)
Lemma launch_op_run (m : M Y (ares unit)) l base c y :
  total m -> idle m -> held_over held l base y ->
  exists r y', on_sys m (c, y) = Done (r, (c, y')) /\ held_over held l base y'.
Proof.
  intros Ht Hi Hl. destruct (Ht y) as (r & y' & E). exists r, y'. split; [by apply on_sys_run|].
  destruct (tri_idle held l m Hi _ _ _ _ Hl E) as (? & -> & ?). done.
Qed.

Lemma destroy_run base c y :
  held_over held (context_res c) base y ->
  exists r y', destroy (c, y) = Done (r, (take_thread c, y')) /\
    held_over held (context_res (take_thread c)) base y'.
Proof.
  intros Hl. destruct (worker_stop_total (w_buffers (x_worker c)) y) as ([] & y1 & Es).
  destruct (tri_idle held _ _ (worker_stop_idle _) _ _ _ _ Hl Es) as (? & -> & Hl1).
  unfold destroy, bind at 1, gets. cbn [fst]. unfold bind at 1. rewrite (on_sys_run _ _ _ _ _ Es).
  unfold bind at 1, modify. cbn [fst snd]. destruct (x_thread c) as [t|] eqn:Et.
  - unfold bind, on_sys, on_state, call. cbn [fst snd]. destruct (join_worker t y1) as [e y2] eqn:Ej.
    exists (if e then Err (Anyhow "Failed to join thread") else Ok tt), y2. split; [by destruct e|].
    unfold context_res in Hl1. rewrite Et in Hl1. eapply held_over_take; [|exact Hl1].
    eapply join_law; [|exact Ej]. eapply held_over_in. exact Hl1.
  - exists (Ok tt), y1. split; [done|]. unfold context_res in *. by rewrite Et in Hl1.
Qed.

Lemma context_op_run base o (s : AllToAllContext * Y) :
  held_over held (context_res s.1) base s.2 ->
  exists r s', context_op o s = Done (r, s') /\ held_over held (context_res s'.1) base s'.2 /\
    x_worker s'.1 = x_worker s.1.
Proof.
  destruct s as [c y]. intros Hl. cbn in Hl. unfold context_op, bind, gets. cbn [fst].
  assert (forall m : M Y (ares unit), total m -> idle m -> exists r s', on_sys m (c, y) = Done (r, s') /\
    held_over held (context_res s'.1) base s'.2 /\ x_worker s'.1 = x_worker c) as Hk.
  { intros m Ht Hi. destruct (launch_op_run m _ base c y Ht Hi Hl) as (r & y' & E & ?).
    by exists r, (c, y'). }
  destruct o; [|by apply Hk; [apply launch_checked_total|apply launch_checked_idle]..|].
  - apply Hk; unfold dispatch_send; destruct (x_max_num_tokens c <? _);
      auto using launch_checked_total, launch_checked_idle, idle_ret. by intros ?; eexists _, _.
  - destruct (destroy_run base c y Hl) as (r & y' & E & ?). by exists r, (take_thread c, y').
Qed.

Lemma context_drop_run base c y :
  held_over held (context_res c) base y ->
  exists y', context_drop c y = Done (tt, y') /\
    held_over held (owns (b_dispatch_recv_flag (w_buffers (x_worker c)))) base y'.
Proof.
  intros Hl. destruct (destroy_run base c y Hl) as (r & y1 & Ed & Hl1). unfold context_drop. rewrite Ed.
  cbn [x_workspace x_worker take_thread].
  assert (total (workspace_drop (x_workspace c) ;;; for_each (own_buffers (w_buffers (x_worker c))) gdr_buffer_drop))
    as Ht.
  { apply total_bind; [apply total_for_each, mem_drop_total|]. intros _. apply total_for_each, buffer_drop_total. }
  destruct (Ht y1) as ([] & y2 & E). exists y2. split; [exact E|].
  assert (tri (context_res (take_thread c)) (workspace_drop (x_workspace c) ;;;
    for_each (own_buffers (w_buffers (x_worker c))) gdr_buffer_drop)
    (fun _ l' => l' = owns (b_dispatch_recv_flag (w_buffers (x_worker c))))) as Hd.
  { eapply tri_bind; [apply drop_memory_tri|]. intros ? ? ->. apply drop_buffers_tri. }
  destruct (Hd _ _ _ _ Hl1 E) as (? & -> & ?). done.
Qed.

(** C32: a context gives back what it took.  After [AllToAllContext::new] succeeded, any sequence
    of kernel launches and [destroy] (whose errors the caller may ignore) followed by dropping the
    context runs without a panic; the thread is joined, the workspace freed and the worker's
    buffers released, so the resources in use are those of before, except the buffer of
    [dispatch_recv_flag], which the engine's counter still shares. *)
Theorem context_restored a (y y1 : Y) c (ops : list ContextOp) :
  context_new a y = Done (Ok c, y1) ->
  exists s y2, for_each ops (fun o => context_op o ;;; ret tt) (c, y1) = Done (tt, s) /\
    context_drop s.1 s.2 = Done (tt, y2) /\
    held y2 = list_to_set (owns (b_dispatch_recv_flag (w_buffers (x_worker c)))) ∪ held y.
Proof.
  intros Hn.
  destruct (context_new_tri a _ _ _ _ (start_over held y) Hn) as (l & Hc & Hl).
  rewrite Hc in Hl.
  assert (forall s, held_over held (context_res s.1) (held y) s.2 -> x_worker s.1 = x_worker c ->
    exists s' y2, for_each ops (fun o => context_op o ;;; ret tt) s = Done (tt, s') /\
      context_drop s'.1 s'.2 = Done (tt, y2) /\
      held y2 = list_to_set (owns (b_dispatch_recv_flag (w_buffers (x_worker c)))) ∪ held y) as Hall;
    [|by apply Hall].
  clear Hl Hc Hn l. induction ops as [|o ops IH]; intros s Hl Hw.
  - destruct (context_drop_run _ _ _ Hl) as (y2 & Ed & _ & _ & E). exists s, y2. rewrite <- Hw. done.
  - destruct (context_op_run _ o s Hl) as (r & s1 & E & Hl1 & Hw1).
    destruct (IH s1 Hl1) as (s2 & y2 & E2 & ?); [congruence|]. exists s2, y2. split; [|done].
    cbn [for_each]. unfold bind at 1 2. rewrite E. exact E2.
Qed.

(** A failed [new] leaves its thread behind.  When [AllToAllContext::new] fails after it
    started the worker thread (the workspace cannot be allocated, or the device cannot be asked for
    its multiprocessors), the thread is neither stopped nor joined, and the device buffers of the
    worker, which the thread shares, stay allocated. *)
Theorem failed_new_leaves_thread a (y y1 y2 y' : Y) w t e :
  worker_new (ca_worker a) (ca_device a) y = Done (Ok w, y1) ->
  spawn_worker (ca_worker_cpu a) y1 = (Running t, y2) ->
  context_new a y = Done (Err e, y') ->
  held y' = list_to_set (Thread t :: buffers_res (w_buffers w)) ∪ held y /\ Thread t ∉ held y.
Proof.
  intros Hw Hs Hn.
  destruct (worker_new_tri _ _ [] _ _ _ _ (start_over held y) Hw) as (l & Hl1 & Hl).
  cbv beta iota in Hl1. rewrite app_nil_r in Hl1. rewrite Hl1 in Hl.
  pose proof (spawn_law _ _ _ _ Hs) as Ht. cbv beta iota in Ht.
  apply (held_over_put held _ _ _ _ _ Ht) in Hl as Hl2.
  unfold context_new, bind_res at 1, bind at 1 2, call in Hn. rewrite Hw, Hs in Hn.
  destruct (context_tail_tri a w t _ _ _ _ _ Hl2 Hn) as (l' & Hp & Hl'). cbv beta iota in Hp.
  rewrite Hp in Hl'. destruct Hl' as (_ & Hd & E). split; [done|]. apply Hd. set_solver.
Qed.

(** What a successful [new] says of the workspace. *)
Lemma with_mem_inv {A} m z (k : CudaDeviceMemory -> M Y (rtres A)) (y y' : Y) a :
  with_mem m z k y = Done (Ok a, y') ->
  exists p y1 y2, m y = Done (Ok p, y1) /\ k p y2 = Done (Ok a, y').
Proof.
  unfold with_mem. intros (p & y1 & Hm & Hr)%bind_res_ok. exists p, y1.
  apply bind_done in Hr as ([] & y2 & _ & Hr). exists y2. split; [done|].
  apply bind_done in Hr as ([x|e] & y3 & Hk & Hr).
  - cbv [ret] in Hr. by simplify_eq.
  - apply bind_done in Hr as (? & ? & _ & Hr). by cbv [ret] in Hr.
Qed.

Lemma with_ptrs_inv {A} ptrs (k : option CudaDeviceMemory -> M Y (rtres A)) (y y' : Y) a :
  with_ptrs ptrs k y = Done (Ok a, y') -> exists o y2, k o y2 = Done (Ok a, y').
Proof. destruct ptrs; cbn; [eauto|]. intros (p & ? & y2 & _ & Hk)%with_mem_inv. eauto. Qed.

Lemma mem_device_size n p (y y' : Y) : mem_device n y = Done (Ok p, y') -> dm_size p = n.
Proof.
  unfold mem_device, mem_of. intros (r & y1 & _ & Hr)%bind_done. cbv [ret] in Hr.
  destruct (r.2 =? 0); by simplify_eq.
Qed.

Lemma workspace_new_size ne mt et s1 s2 s3 w (y y' : Y) :
  workspace_new ne mt et s1 s2 s3 y = Done (Ok w, y') ->
  dm_size (ws_token_offset w) = u64_mul (u64_mul mt et) 4.
Proof.
  unfold workspace_new. intros Hr.
  apply with_mem_inv in Hr as (? & ? & ? & _ & Hr). apply with_mem_inv in Hr as (p & ? & ? & Hp & Hr).
  do 3 apply with_mem_inv in Hr as (? & ? & ? & _ & Hr). do 3 apply with_ptrs_inv in Hr as (? & ? & Hr).
  cbv [ret] in Hr. simplify_eq. by apply mem_device_size in Hp.
Qed.

Lemma context_new_inv a (y y1 : Y) c :
  context_new a y = Done (Ok c, y1) ->
  x_max_num_tokens c = ca_max_num_tokens a /\
  dm_size (ws_token_offset (x_workspace c)) = u64_mul (u64_mul (ca_max_num_tokens a) (ca_num_experts_per_token a)) 4.
Proof.
  unfold context_new. intros (w & ? & _ & Hr)%bind_res_ok. apply bind_done in Hr as (st & ? & _ & Hr).
  destruct st; [done| |].
  { apply bind_done in Hr as (? & ? & _ & Hr). by cbv [ret] in Hr. }
  apply bind_res_ok in Hr as (ws & ? & Hws & Hr). apply bind_done in Hr as ([n|e] & ? & _ & Hr).
  - cbv [ret] in Hr. simplify_eq. split; [done|].
    apply bind_done in Hws as ([w'|] & ? & Hws & Hq); cbv [ret map_err] in Hq; simplify_eq.
    by eapply workspace_new_size.
  - apply bind_done in Hr as (? & ? & _ & Hr). by cbv [ret] in Hr.
Qed.

(** Launches fit the workspace.  [dispatch_send] launches its kernel only if the offsets of
    its tokens fit in the buffer [token_offset] that [new] allocated (provided the products do not
    overflow); a larger batch is refused with no effect. *)
Theorem dispatch_send_fits a (y y1 y2 : Y) c n x1 x2 x3 x4 x5 x6 x7 x8 x9 x10 x11 :
  0 <= ca_max_num_tokens a -> 0 <= ca_num_experts_per_token a ->
  in_u 64 (ca_max_num_tokens a * ca_num_experts_per_token a * 4) ->
  context_new a y = Done (Ok c, y1) ->
  (n <= ca_max_num_tokens a ->
    n * ca_num_experts_per_token a * 4 <= dm_size (ws_token_offset (x_workspace c))) /\
  (ca_max_num_tokens a < n -> dispatch_send c n x1 x2 x3 x4 x5 x6 x7 x8 x9 x10 x11 y2 =
     Done (Err (Anyhow "Number of tokens exceeds maximum allowed"), y2)) /\
  (n <= ca_max_num_tokens a -> exists l, dispatch_send c n x1 x2 x3 x4 x5 x6 x7 x8 x9 x10 x11 =
     launch_checked (LDispatchSend l) /\ ds_num_tokens l = n /\
     ds_token_offset l = dm_ptr (ws_token_offset (x_workspace c))).
Proof.
  intros Hm Hk Hu Hn. apply context_new_inv in Hn as (Hmax & Hsz). unfold dispatch_send. rewrite Hmax.
  split; [|split].
  - intros Hle. rewrite Hsz. unfold u64_mul. unfold in_u in Hu.
    rewrite (wrapu_small 64 (_ * ca_num_experts_per_token a)) by (unfold in_u; nia).
    rewrite wrapu_small by (unfold in_u; nia). nia.
  - intros Hlt. by rewrite (proj2 (Z.ltb_lt _ _) Hlt).
  - intros Hle. rewrite (proj2 (Z.ltb_ge _ _) Hle). by eexists.
Qed.
End Lifecycle.

(** ** A concrete system

    That of [CuMemSpec.Sim]; [fail] makes the query for the number of multiprocessors fail. *)
Module CtxSim.
Export CuMemSpec.Sim.
#[export] Instance drv : CuDriver sim := driver false.
#[export] Instance drv_laws : CuDriverLaws sim := laws false.

Definition rt (fail : bool) : Cudart sim := {|
  cudaMalloc _ y := if next y =? 0 then (2, 0, y) else take Block y;
  cudaMallocManaged _ y := (2, 0, y);
  cudaMemcpyHostToDevice _ _ _ y := (0, y);
  cudaMemset _ _ _ y := (0, y);
  cudaFree p y := (0, give (Block p) y);
  sys_cudaHostAlloc _ y := (2, 0, y);
  sys_cudaFreeHost _ y := (0, y);
  host_fill _ _ y := y;
  cudaEventCreate y := (0, 1, y);
  cudaEventRecord _ y := (0, y);
  cudaEventSynchronize _ y := (0, y);
  cudaEventDestroy _ y := (0, y);
  multiProcessorCount _ y := (if fail then 1 else 0, 132, y);
  handleForAddressRange _ _ y := (1, 0, y);
  bar_load _ _ := 0;
  bar_store _ _ y := y;
  gdr_copy_to_mapping _ _ _ y := y;
|}.

#[export] Instance sys : A2aSystem sim := {|
  launch _ y := (0, y);
  spawn_worker _ y := let '(c, t, y') := take Thread y in (if c =? 0 then Running t else NoThread, y');
  join_worker t y := (false, give (Thread t) y);
  store_stop_flag y := y;
  err_counter _ := 0;
  eng_get_imm_counter _ y := (0%nat, y);
  eng_get_gdr_counter _ _ y := (0%nat, y);
  eng_add_peer_group _ _ y := (Ok 1, y);
|}.

Lemma sim_malloc (fail : bool) n (y : sim) c p y' :
  @cudaMalloc _ (rt fail) n y = (c, p, y') -> gives res (if p =? 0 then 1 else 0) (Block p) y y'.
Proof.
  cbn. destruct (Z.eqb_spec (next y) 0) as [|Hn]; [by intros ?; simplify_eq|].
  unfold take. case_decide; intros ?; simplify_eq; [done|]. unfold gives.
  by destruct (Z.eqb_spec (next y) 0).
Qed.

Lemma sim_spawn cpu (y : sim) r y' : spawn_worker cpu y = (r, y') ->
  match r with Running t => acquires res (Thread t) y y' | _ => res y' = res y end.
Proof.
  cbn. destruct (take Thread y) as [[c t] y1] eqn:E. apply take_gives in E. unfold gives in E.
  destruct (c =? 0); intros ?; by simplify_eq.
Qed.

Definition sim_laws (fail : bool) : @A2aLaws sim drv drv_laws (rt fail) sys.
Proof.
  constructor; intros; cbn in *;
    first [ done | by eapply (sim_malloc fail 0) | by eapply (sim_spawn None) | by simplify_eq ].
Defined.

(** One rank, two experts, 16 tokens of which each goes to two experts. *)
Definition args : ContextArgs := {|
  ca_worker := {| a_hidden_dim := 64; a_hidden_dim_scale := 0; a_in_elemsize := 2; a_out_elemsize := 2;
    a_scale_elemsize := 0; a_max_recv_tokens := 32; a_max_private_tokens := 16; a_num_experts := 2;
    a_expert_padding := 1; a_rank := 0; a_dp_size := 1; a_node_size := 1; a_world_size := 1;
    a_num_routed_mr := 1; a_send_buffer_mr := 2; a_imm_base := 100; a_rank_handles := []; a_nets_per_gpu := 1 |};
  ca_out_dtype := 0; ca_max_num_tokens := 16; ca_num_experts_per_token := 2; ca_num_routed_ptr := 1;
  ca_send_buffer_ptr := 2; ca_recv_buffer_ptr := 3; ca_sync_ptrs := [7]; ca_send_ptrs := [];
  ca_recv_ptrs := [8]; ca_device := 0; ca_worker_cpu := Some 3 |}.

Definition is_ok {E A S} (o : outcome (result E A * S)) : bool :=
  match o with Done (Ok _, _) => true | _ => false end.
Definition new_ok := @context_new sim drv (rt false) sys args start.

Lemma context_restored_witness :
  match new_ok with
  | Done (Ok c, y1) =>
      exists s y2, for_each [OpCombineSend 1 2 3; OpDestroy; OpDestroy]
          (fun o => @context_op sim (rt false) sys o ;;; ret tt) (c, y1) = Done (tt, s) /\
        @context_drop sim drv (rt false) sys s.1 s.2 = Done (tt, y2) /\
        res y2 = list_to_set (owns (b_dispatch_recv_flag (w_buffers (x_worker c)))) ∪ res start
  | _ => False
  end.
Proof.
  assert (is_ok new_ok = true) as Hok by (vm_compute; reflexivity).
  destruct new_ok as [[[c|e] y1]|why|] eqn:E; [|discriminate Hok..].
  exact (@context_restored sim drv drv_laws (rt false) sys (sim_laws false) args start y1 c
    [OpCombineSend 1 2 3; OpDestroy; OpDestroy] E).
Defined.

Definition failed_worker := @worker_new sim drv (rt true) sys (ca_worker args) 0 start.
Definition failed_new := @context_new sim drv (rt true) sys args start.
Definition fails_started : bool :=
  match failed_worker, failed_new with
  | Done (Ok w, y1), Done (Err _, _) => if (spawn_worker (Some 3) y1).1 is Running _ then true else false
  | _, _ => false
  end.

Lemma failed_new_leaves_thread_witness :
  match failed_worker, failed_new with
  | Done (Ok w, y1), Done (Err _, y') =>
      match (spawn_worker (Some 3) y1).1 with
      | Running t =>
          res y' = list_to_set (Thread t :: buffers_res (w_buffers w)) ∪ res start /\ Thread t ∉ res start
      | _ => False
      end
  | _, _ => False
  end.
Proof.
  assert (fails_started = true) as Hok by (vm_compute; reflexivity). unfold fails_started in Hok.
  destruct failed_worker as [[[w|e] y1]|why|] eqn:E; [|discriminate Hok..].
  destruct failed_new as [[[c|e] y']|why|] eqn:En; [discriminate Hok| |discriminate Hok..].
  destruct (spawn_worker (Some 3) y1) as [st y2] eqn:Es. destruct st as [| |t]; [discriminate Hok..|].
  exact (@failed_new_leaves_thread sim drv drv_laws (rt true) sys (sim_laws true) args start y1 y2 y' w t e E Es En).
Defined.

Lemma dispatch_send_fits_witness :
  match new_ok with
  | Done (Ok c, y1) => 16 * 2 * 4 <= dm_size (ws_token_offset (x_workspace c))
  | _ => False
  end.
Proof.
  assert (is_ok new_ok = true) as Hok by (vm_compute; reflexivity).
  destruct new_ok as [[[c|e] y1]|why|] eqn:E; [|discriminate Hok..].
  apply (@dispatch_send_fits sim drv (rt false) sys args start y1 start c 16 0 0 0 0 0 0 0 0 0 0 0);
    [cbn; lia|cbn; lia|unfold in_u; cbn; lia|exact E|cbn; lia].
Defined.
End CtxSim.
