(* ===== verification/VerbsSetup.v ===== *)
(** * Opening and dropping a verbs domain

    [verbs_domain.rs]: [VerbsDomain::open], [Drop] for the domain and its peers, and the [destroy]
    of the queue pairs of [verbs_qp.rs].  The objects of libibverbs are resources ([Resources]),
    each with the objects it uses, which cannot be freed before it; [VerbsLib] has the calls that
    only opening and dropping use.  The theorems say which objects an open domain has, which remain
    after a failed [open], and which [Drop] does not free. *)
From stdpp Require Import prelude gmap strings list list_tactics.
From S2P Require Import Prelude Resources Api Utils Provider VerbsRdmaOp VerbsQp VerbsDomain.
Local Open Scope Z_scope.

Definition CQ_DEPTH : Z := 4096.
Definition MAX_UD_MSG_BYTES : Z := 4096.
Definition MAX_UD_SENDS : nat := 128.
Definition IBV_LINK_LAYER_INFINIBAND : Z := 1.

Record ibv_port_attr := { pa_lid : Z; pa_active_mtu : Z; pa_link_layer : Z }.

Class VerbsLib (H : Type) := {
  ibv_open_device : Z -> H -> option Z * H;
  ibv_close_device : Z -> H -> H;
  ibv_query_port : Z -> Z -> H -> Z * ibv_port_attr * H;          (* context, port *)
  ibv_query_gid : Z -> Z -> Z -> H -> Z * list Z * H;             (* context, port, index *)
  ibv_alloc_td : Z -> H -> option Z * H;
  ibv_dealloc_td : Z -> H -> H;
  ibv_alloc_pd : Z -> H -> option Z * H;
  ibv_alloc_parent_domain : Z -> Z -> Z -> H -> option Z * H;     (* context, pd, td *)
  ibv_dealloc_pd : Z -> H -> H;
  ibv_create_cq : Z -> Z -> H -> option Z * H;                    (* context, depth *)
  ibv_destroy_cq : Z -> H -> H;
  ibv_create_srq : Z -> Z -> H -> option Z * H;                   (* pd, max_wr *)
  ibv_destroy_srq : Z -> H -> H;
  ibv_destroy_qp : qp -> H -> H;
  ibv_destroy_ah : Z -> H -> H;
}.

(** The part of [VerbsDeviceInfo] that [open] reads. *)
Record VerbsDeviceInfo := {
  vi_device : Z; vi_name : string; vi_port_num : Z; vi_gid_index : Z; vi_link_speed : Z;
}.

(** The handles of a domain that its methods do not use. *)
Record VerbsHandles := { h_context : Z; h_td : Z; h_mt_pd : Z }.

Section Open.
Context {H : Type} `{VerbsHw H} `{VerbsLib H}.
Abbreviation Dom := (VerbsDomain (H:=H)).

(** [Defer]: when what follows fails, [undo] runs. *)
Definition with_defer {A B} (m : M H (res A)) (undo : A -> H -> H) (k : A -> M H (res B)) : M H (res B) :=
  let? x := m in
  let! r := k x in
  match r with
  | Ok b => ret (Ok b)
  | Err e => modify (undo x) ;;; ret (Err e)
  end.

(** [if errno != 0 { return Err(..) }] of a call with an out parameter. *)
Definition check_out {A} (f : H -> Z * A * H) (what : string) : M H (res A) :=
  let! r := call f in
  ret (if r.1 =? 0 then Ok r.2 else Err (Verbs r.1 what)).

(** Creating and activating the datagram queue pair, which has no [Defer]. *)
Definition open_ud (cq pd : Z) (gid : list Z) (lid port_num : Z) : M H (res UDQueuePair) :=
  let? ud := ud_new cq pd gid lid 286331153 (Z.of_nat MAX_OPS) in
  let? _ := ud_reset_to_init ud 0 port_num in
  let? _ := ud_init_to_rtr ud in
  let? _ := ud_rtr_to_rts ud in
  ret (Ok ud).

(** Up to the cancelling of the [Defer]s. *)
Definition open_handles (info : VerbsDeviceInfo) : M H (res (VerbsHandles * VerbsConf)) :=
  with_defer (nonnull (ibv_open_device (vi_device info)) "ibv_open_device") ibv_close_device (fun context =>
  let? port_attr := check_out (ibv_query_port context (vi_port_num info)) "ibv_query_port_wrap" in
  let? gid := check_out (ibv_query_gid context (vi_port_num info) (vi_gid_index info)) "ibv_query_gid" in
  with_defer (nonnull (ibv_alloc_td context) "ibv_alloc_td") ibv_dealloc_td (fun td =>
  with_defer (nonnull (ibv_alloc_pd context) "ibv_alloc_pd") ibv_dealloc_pd (fun mt_pd =>
  with_defer (nonnull (ibv_alloc_parent_domain context mt_pd td) "ibv_alloc_parent_domain") ibv_dealloc_pd (fun pd =>
  with_defer (nonnull (ibv_create_cq context CQ_DEPTH) "ibv_create_cq") ibv_destroy_cq (fun cq =>
  with_defer (nonnull (ibv_create_srq pd (Z.of_nat MAX_OPS)) "ibv_create_srq") ibv_destroy_srq (fun msg_srq =>
  with_defer (nonnull (ibv_create_srq pd (Z.of_nat MAX_OPS)) "ibv_create_srq") ibv_destroy_srq (fun rma_srq =>
  let? ud := open_ud cq pd gid (pa_lid port_attr) (vi_port_num info) in
  ret (Ok ({| h_context := context; h_td := td; h_mt_pd := mt_pd |},
    {| vc_name := vi_name info; vc_port_num := vi_port_num info; vc_gid_index := vi_gid_index info;
       vc_lid := pa_lid port_attr; vc_gid := gid; vc_mtu := pa_active_mtu port_attr;
       vc_is_infiniband := pa_link_layer port_attr =? IBV_LINK_LAYER_INFINIBAND;
       vc_link_speed := vi_link_speed info; vc_pd := pd; vc_cq := cq; vc_msg_srq := msg_srq; vc_rma_srq := rma_srq; vc_ud := ud;
       vc_addr := address_of_ud (ud_addr ud) |}))))))))).

(** The domain before [post_init]; [buffer] is what the allocator gives the datagram pool. *)
Definition fresh_domain (buffer : Z) (c : VerbsConf) : M H Dom := fun h =>
  match with_chunk_size MAX_OPS with
  | Done pool => Done ({| conf := c; vd_hw := h; vd_peers := ∅; connecting_peer_groups := ∅;
      vd_peer_groups := ∅; local_mr_map := ∅; objpool_write_op := pool; objpool_wr := pool;
      objpool_pending := pool; write_ctxs := ∅; pending_ctxs := ∅; recv_ops := []; send_ops := [];
      vd_write_ops := []; completions := [];
      ud_mempool := mp_new buffer MAX_UD_MSG_BYTES (NUM_UD_RECVS + MAX_UD_SENDS);
      ud_mempool_lkey := 0 |}, h)
  | Panic why => Panic why
  | OutOfFuel => OutOfFuel
  end.

(** ** [Drop] *)
Definition rc_destroy (q : RCQueuePair) : M H unit := modify (ibv_destroy_qp (rc_qp q)).
Definition ud_destroy (q : UDQueuePair) : M H unit := modify (ibv_destroy_qp (ud_qp q)).

(** A peer taken out of the map: its queue pairs, then [Drop for Peer]. *)
Definition peer_drop (p : Peer) : M H unit :=
  rc_destroy (msg_rc p) ;;;
  rc_destroy (rma_rc p) ;;;
  modify (ibv_destroy_ah (peer_ah p)).

Definition domain_drop (hs : VerbsHandles) (d : Dom) : M H unit :=
  for_each (map_to_list (local_mr_map d)).*2 (fun mr => modify (ibv_dereg_mr mr)) ;;;
  for_each (map_to_list (vd_peers d)).*2 peer_drop ;;;
  ud_destroy (vc_ud (conf d)) ;;;
  modify (ibv_destroy_cq (vc_cq (conf d))) ;;;
  modify (ibv_dealloc_pd (vc_pd (conf d))) ;;;
  modify (ibv_dealloc_pd (h_mt_pd hs)) ;;;
  modify (ibv_dealloc_td (h_td hs)) ;;;
  modify (ibv_close_device (h_context hs)).

(** [open]: the domain is dropped when [post_init] fails. *)
Definition verbs_open (info : VerbsDeviceInfo) (buffer : Z) : M H (res (VerbsHandles * Dom)) :=
  let? hc := open_handles info in
  let! d := fresh_domain buffer hc.2 in
  match post_init d with
  | Done (Ok _, d) => fun _ => Done (Ok (hc.1, d), vd_hw d)
  | Done (Err e, d) => fun _ => (domain_drop hc.1 d ;;; ret (Err e)) (vd_hw d)
  | Panic why => fun _ => Panic why
  | OutOfFuel => fun _ => OutOfFuel
  end.
End Open.

(** ** The objects of libibverbs as resources *)
Inductive VRes : Type :=
  | VCtx (h : Z) | VTd (h : Z) | VPd (h : Z) | VCq (h : Z) | VSrq (h : Z) | VQp (h : Z) | VAh (h : Z)
  | VMr (l r : Z).

#[export] Instance VRes_eq_dec : EqDecision VRes.
Proof. solve_decision. Defined.
Definition vres_code (r : VRes) : nat * (Z * Z) :=
  match r with
  | VCtx h => (0%nat, (h, 0)) | VTd h => (1%nat, (h, 0)) | VPd h => (2%nat, (h, 0))
  | VCq h => (3%nat, (h, 0)) | VSrq h => (4%nat, (h, 0)) | VQp h => (5%nat, (h, 0))
  | VAh h => (6%nat, (h, 0)) | VMr l r => (7%nat, (l, r))
  end.
Definition vres_decode (c : nat * (Z * Z)) : option VRes :=
  let '(k, (a, b)) := c in
  match k with
  | 0 => Some (VCtx a) | 1 => Some (VTd a) | 2 => Some (VPd a) | 3 => Some (VCq a) | 4 => Some (VSrq a)
  | 5 => Some (VQp a) | 6 => Some (VAh a) | 7 => Some (VMr a b) | _ => None
  end%nat.
#[export] Instance VRes_countable : Countable VRes.
Proof. refine (inj_countable vres_code vres_decode _). by intros []. Defined.

Definition mr_of (mr : ibv_mr) : VRes := VMr (lkey mr) (rkey mr).

(** An object and those it uses. *)
Abbreviation Obj := (VRes * list VRes)%type.
Definition uses_res (m : gmap VRes (list VRes)) (r : VRes) : Prop := exists k ds, m !! k = Some ds /\ r ∈ ds.

(** A call that returns null or a new object that uses [ds]. *)
Definition creates {H A} (objects : H -> gmap VRes (list VRes)) (f : H -> option A * H) (mk : A -> VRes) (ds : list VRes) : Prop :=
  forall h o h', f h = (o, h') ->
  match o with
  | Some x => objects h !! mk x = None /\ objects h' = <[mk x := ds]> (objects h)
  | None => objects h' = objects h
  end.
(** A call that frees an object, and fails while another uses it. *)
Definition destroys {H} (objects : H -> gmap VRes (list VRes)) (r : VRes) (f : H -> H) : Prop :=
  forall h, (uses_res (objects h) r -> objects (f h) = objects h) /\
            (~ uses_res (objects h) r -> objects (f h) = delete r (objects h)).

(** A queue pair uses its protection domain, its completion queue and, if it has one, its shared
    receive queue. *)
Definition qp_uses (pd cq : Z) (srq : option Z) : list VRes :=
  VPd pd :: VCq cq :: match srq with Some q => [VSrq q] | None => [] end.

(** What the objects of the library are and use.  [ibv_close_device] closes the context whatever
    is left in it. *)
Class VerbsLibLaws (H : Type) `{VerbsHw H} `{VerbsLib H} := {
  objects : H -> gmap VRes (list VRes);
  open_device_law dv : creates objects (ibv_open_device dv) VCtx [];
  close_device_law c h : objects (ibv_close_device c h) = delete (VCtx c) (objects h);
  query_port_law c p h : objects (ibv_query_port c p h).2 = objects h;
  query_gid_law c p i h : objects (ibv_query_gid c p i h).2 = objects h;
  alloc_td_law c : creates objects (ibv_alloc_td c) VTd [];
  dealloc_td_law t : destroys objects (VTd t) (ibv_dealloc_td t);
  alloc_pd_law c : creates objects (ibv_alloc_pd c) VPd [];
  parent_law c p t : creates objects (ibv_alloc_parent_domain c p t) VPd [VPd p; VTd t];
  dealloc_pd_law p : destroys objects (VPd p) (ibv_dealloc_pd p);
  create_cq_law c n : creates objects (ibv_create_cq c n) VCq [];
  destroy_cq_law q : destroys objects (VCq q) (ibv_destroy_cq q);
  create_srq_law p n : creates objects (ibv_create_srq p n) VSrq [VPd p];
  destroy_srq_law q : destroys objects (VSrq q) (ibv_destroy_srq q);
  create_qp_law p a : creates objects (ibv_create_qp p a) (fun q => VQp q.1) (qp_uses p (qi_cq a) (qi_srq a));
  destroy_qp_law q : destroys objects (VQp q) (ibv_destroy_qp q);
  destroy_ah_law a : destroys objects (VAh a) (ibv_destroy_ah a);
  reg_mr_law p r a : creates objects (ibv_reg_mr p r a) mr_of [VPd p];
  dereg_mr_law mr : destroys objects (mr_of mr) (ibv_dereg_mr mr);
  modify_qp_law q a fl h : objects (ibv_modify_qp q a fl h).2 = objects h;
  post_recv_law q r h : objects (ibv_post_recv q r h).2 = objects h;
  post_srq_law q r h : objects (ibv_post_srq_recv q r h).2 = objects h;
}.

Definition peer_res (c : VerbsConf) (p : Peer) : list Obj :=
  [(VQp (rc_qp (msg_rc p)), qp_uses (vc_pd c) (vc_cq c) (Some (vc_msg_srq c)));
   (VQp (rc_qp (rma_rc p)), qp_uses (vc_pd c) (vc_cq c) (Some (vc_rma_srq c)));
   (VAh (peer_ah p), [VPd (vc_pd c)])].
Definition mr_res (c : VerbsConf) (mr : ibv_mr) : Obj := (mr_of mr, [VPd (vc_pd c)]).
(** The protection domains, the thread domain and the shared receive queues. *)
Definition domain_base (pd mt_pd td : Z) : list Obj := [(VPd pd, [VPd mt_pd; VTd td]); (VPd mt_pd, []); (VTd td, [])].
Definition srqs (c : VerbsConf) : list Obj := [(VSrq (vc_msg_srq c), [VPd (vc_pd c)]); (VSrq (vc_rma_srq c), [VPd (vc_pd c)])].
Definition conf_res (hs : VerbsHandles) (c : VerbsConf) : list Obj :=
  (VQp (ud_qp (vc_ud c)), qp_uses (vc_pd c) (vc_cq c) None) :: (VCq (vc_cq c), []) :: (VCtx (h_context hs), []) ::
  domain_base (vc_pd c) (h_mt_pd hs) (h_td hs) ++ srqs c.
(** The objects of an open domain. *)
Definition domain_res {H} (hs : VerbsHandles) (d : VerbsDomain (H:=H)) : list Obj :=
  (mr_res (conf d) <$> (map_to_list (local_mr_map d)).*2) ++
  mjoin (peer_res (conf d) <$> (map_to_list (vd_peers d)).*2) ++ conf_res hs (conf d).

(** No object of the set uses one that is not in it. *)
Definition closed (base : gset Obj) : Prop :=
  forall r ds d, (r, ds) ∈ base -> d ∈ ds -> exists ds', (d, ds') ∈ base.

Section Laws.
Context {H : Type} `{VerbsLibLaws H}.
Definition held (h : H) : gset Obj := map_to_set pair (objects h).
Context (base : gset Obj) (base_closed : closed base).
Notation tri := (tri_at (Y := H) held base).
Notation idle := (idle (Y := H) held).

Lemma held_elem h r ds : (r, ds) ∈ held h <-> objects h !! r = Some ds.
Proof. apply elem_of_map_to_set_pair. Qed.

Lemma same_held h h' : objects h' = objects h -> held h' = held h.
Proof. unfold held. by intros ->. Qed.

Lemma created h h' r ds : objects h !! r = None -> objects h' = <[r := ds]> (objects h) -> acquires held (r, ds) h h'.
Proof.
  intros Hn Hh. split; [rewrite held_elem; congruence|]. apply set_eq. intros [k ks].
  rewrite elem_of_union, elem_of_singleton, !held_elem, Hh, lookup_insert_Some. naive_solver.
Qed.

Lemma destroyed h h' r ds : objects h !! r = Some ds -> objects h' = delete r (objects h) -> returns held (r, ds) h h'.
Proof.
  intros Hr Hh. apply set_eq. intros [k ks].
  rewrite elem_of_difference, elem_of_singleton, !held_elem, Hh, lookup_delete_Some. naive_solver.
Qed.

(** An object nobody of ours uses is freed: others do not use it either.  It cannot use itself if
    what it uses is among the rest. *)
Lemma take_unused f r ds l :
  destroys objects r f -> (r ∈ ds -> exists ds', (r, ds') ∈ l) -> Forall (fun o => r ∉ o.2) l ->
  tri ((r, ds) :: l) (modify f) (fun _ l' => l' = l).
Proof.
  intros Hf Hds Hl h a h' Hh Hr. cbv [modify] in Hr. simplify_eq. exists l. split; [done|].
  pose proof (held_over_in _ _ _ _ _ Hh) as Hin%held_elem.
  eapply held_over_take; [|exact Hh]. apply destroyed; [done|]. apply Hf. intros (k & ks & Hk & Hks).
  apply held_elem in Hk. pose proof Hh as (_ & Hd & E). rewrite E in Hk.
  apply elem_of_union in Hk as [Hk%elem_of_list_to_set|Hk].
  - apply elem_of_cons in Hk as [[= -> ->]|Hk]; [|by eapply Forall_forall in Hl; [|exact Hk]].
    destruct (Hds Hks) as [ds' Hin']. assert (objects h !! r = Some ds') as Hr' by (apply held_elem; rewrite E; set_solver).
    assert (ds' = ds) as -> by congruence. destruct Hh as (Hnd & _). by apply NoDup_cons in Hnd as [? _].
  - destruct (base_closed _ _ _ Hk Hks) as [ds' Hb]. assert (objects h !! r = Some ds') as Hr'.
    { apply held_elem. rewrite E. set_solver. }
    assert (ds' = ds) as -> by congruence. by apply (Hd (r, ds)); [set_solver|].
Qed.

(** An object another of ours uses stays. *)
Lemma keep_used f r l :
  destroys objects r f -> Exists (fun o => r ∈ o.2) l -> tri l (modify f) (fun _ l' => l' = l).
Proof.
  intros Hf ([k ks] & Hin & Hr)%Exists_exists h a h' Hh Hm. cbv [modify] in Hm. simplify_eq. exists l. split; [done|].
  destruct Hh as (Hn & Hd & E). split; [done|]. split; [done|]. rewrite <- E. apply same_held, Hf.
  exists k, ks. split; [|done]. apply held_elem. rewrite E. set_solver.
Qed.

Lemma take_context c l : tri ((VCtx c, []) :: l) (modify (ibv_close_device c)) (fun _ l' => l' = l).
Proof.
  intros h a h' Hh Hr. cbv [modify] in Hr. simplify_eq. exists l. split; [done|].
  pose proof (held_over_in _ _ _ _ _ Hh) as Hin%held_elem.
  eapply held_over_take; [|exact Hh]. by apply destroyed, close_device_law.
Qed.

Lemma nonnull_tri {A} (f : H -> option A * H) (mk : A -> VRes) ds what l :
  creates objects f mk ds ->
  tri l (nonnull f what) (fun r l' => l' = match r with Ok x => (mk x, ds) :: l | Err _ => l end).
Proof.
  intros Hf h r h' Hl Hr. unfold nonnull in Hr. run_inv Hr. cbv [call] in *. simplify_eq.
  apply Hf in Hrun. destruct a as [x|]; eexists; (split; [done|]).
  - destruct Hrun as [Hn Hh]. by eapply held_over_put; [apply created|].
  - unfold held_over in *. by rewrite (same_held _ _ Hrun).
Qed.

Lemma idle_tri {A} l (m : M H A) : idle m -> tri l m (fun _ l' => l' = l).
Proof. intros Hm. by apply tri_idle. Qed.
Lemma check_ec_idle f what : (forall h, objects (f h).2 = objects h) -> idle (check_ec f what).
Proof. intros Hf. unfold check_ec. apply idle_bind; [apply idle_call; intros; apply same_held, Hf|]. intros. apply idle_ret. Qed.
Lemma check_out_idle {A} (f : H -> Z * A * H) what :
  (forall h, objects (f h).2 = objects h) -> idle (check_out f what).
Proof. intros Hf. unfold check_out. apply idle_bind; [apply idle_call; intros; apply same_held, Hf|]. intros. apply idle_ret. Qed.

(** What an error leaves behind: nothing, or what [P] says. *)
Definition opening {B} (P : list Obj -> Prop) (g : B -> list Obj) (l : list Obj) (r : res B) (l' : list Obj) : Prop :=
  match r with Ok b => l' ≡ₚ g b | Err _ => l' ≡ₚ l \/ exists ex, P ex /\ l' ≡ₚ ex ++ l end.

Lemma tri_post_at {B} (P P' : list Obj -> Prop) (m : M H (res B)) g l :
  (forall ex, P ex -> P' ex) -> tri l m (opening P g l) -> tri l m (opening P' g l).
Proof.
  intros HP Hm h a h' Hl Hr. destruct (Hm _ _ _ Hl Hr) as (l' & HQ & ?). exists l'. split; [|done].
  destruct a; [done|]. destruct HQ as [?|(ex & ? & ?)]; [by left|right; eauto].
Qed.

(** One [Defer]: in the end it frees its object, or ([kept]) cannot because of what was left. *)
Lemma with_defer_tri {A B} (f : H -> option A * H) mk ds what undo (k : A -> M H (res B)) g l (P : A -> list Obj -> Prop) (kept : bool) :
  creates objects f mk ds ->
  (forall x, tri ((mk x, ds) :: l) (modify (undo x)) (fun _ l' => l' = l)) ->
  (forall x ex, P x ex -> tri ((mk x, ds) :: ex ++ l) (modify (undo x))
     (fun _ l' => l' = if kept then (mk x, ds) :: ex ++ l else ex ++ l)) ->
  (forall x, tri ((mk x, ds) :: l) (k x) (opening (P x) g ((mk x, ds) :: l))) ->
  tri l (with_defer (nonnull f what) undo k)
    (opening (fun ex' => exists x ex, P x ex /\ ex' = if kept then (mk x, ds) :: ex else ex) g l).
Proof.
  intros Hf Hu Hx Hk. unfold with_defer. eapply at_bind_res; [by apply nonnull_tri| |by intros e ? ->; left].
  intros x ? ->. eapply at_bind; [apply Hk|]. intros [b|e] l' Hl'; [by apply at_ret|].
  destruct Hl' as [Hl'|(ex & Hex & Hl')].
  - eapply at_pre; [exact Hl'|]. eapply at_bind; [apply Hu|]. intros ? ? ->. apply at_ret. by left.
  - eapply (at_pre _ _ _ ((mk x, ds) :: ex ++ l)); [rewrite Hl'; symmetry; apply Permutation_middle|].
    eapply at_bind; [by apply Hx|]. intros ? ? ->. apply at_ret. right.
    exists (if kept then (mk x, ds) :: ex else ex). split; [by eauto|]. by destruct kept.
Qed.

Definition ud_left (cq pd : Z) (ex : list Obj) : Prop := exists q, ex = [(VQp q, qp_uses pd cq None)].

Lemma open_ud_tri cq pd gid lid port l :
  tri l (open_ud cq pd gid lid port) (opening (ud_left cq pd) (fun ud => (VQp (ud_qp ud), qp_uses pd cq None) :: l) l).
Proof.
  unfold open_ud. eapply (at_bind_res _ _ _ _ _ (fun r l' => l' ≡ₚ match r with Ok ud => (VQp (ud_qp ud), qp_uses pd cq None) :: l | Err _ => l end)).
  - unfold ud_new. eapply at_bind_res; [apply nonnull_tri, create_qp_law| |by intros ? ? ->].
    intros q ? ->. by apply at_ret.
  - intros ud l1 Hl1. eapply at_pre; [exact Hl1|].
    assert (forall e : FabricLibError, opening (ud_left cq pd) (fun ud => (VQp (ud_qp ud), qp_uses pd cq None) :: l) l (Err e)
      ((VQp (ud_qp ud), qp_uses pd cq None) :: l)) as He.
    { intros e. right. exists [(VQp (ud_qp ud), qp_uses pd cq None)]. split; [by eexists|done]. }
    do 3 (eapply at_bind_res; [apply idle_tri, check_ec_idle; intros; apply modify_qp_law| |by intros ? ? ->];
      intros _ ? ->). apply at_ret. by unfold opening.
  - intros e l1 Hl1. by left.
Qed.

(** Objects that are used by none of [l], whatever their kind. *)
Ltac unused := repeat (apply Forall_cons; split); [..|try apply Forall_nil_2]; cbn; unfold qp_uses; set_solver.

(** What remains when the datagram queue pair was created but not activated: nothing it uses can be
    freed. *)
Definition half_open (ex : list Obj) : Prop :=
  exists q cq pd mt_pd td, ex ≡ₚ (VQp q, qp_uses pd cq None) :: (VCq cq, []) :: domain_base pd mt_pd td.
Lemma open_handles_tri info :
  tri [] (open_handles info) (opening half_open (fun hc => conf_res hc.1 hc.2) []).
Proof.
  assert (forall (A B : Type) (f : H -> Z * A * H) what (k : A -> M H (res B)) P g l,
    (forall h, objects (f h).2 = objects h) -> (forall a, tri l (k a) (opening P g l)) ->
    tri l (bind_res (check_out f what) k) (opening P g l)) as Hq.
  { intros A B f what k P g l Hf Hk. eapply at_bind_res; [by apply idle_tri, check_out_idle|by intros a ? ->|].
    intros e ? ->. by left. }
  set (P7 cq pd := ud_left cq pd).
  set (P6 cq pd ex := exists (s : Z) ex0, P7 cq pd ex0 /\ ex = ex0).
  set (P5 cq pd ex := exists (s : Z) ex0, P6 cq pd ex0 /\ ex = ex0).
  set (P4 pd ex := exists cq ex0, P5 cq pd ex0 /\ ex = (VCq cq, []) :: ex0).
  set (P3 mt td ex := exists pd ex0, P4 pd ex0 /\ ex = (VPd pd, [VPd mt; VTd td]) :: ex0).
  set (P2 td ex := exists mt ex0, P3 mt td ex0 /\ ex = (VPd mt, []) :: ex0).
  set (P1 ex := exists td ex0, P2 td ex0 /\ ex = (VTd td, []) :: ex0).
  set (P0 ex := exists (c : Z) ex0, P1 ex0 /\ ex = ex0).
  eapply (tri_post_at P0); [intros ex (c & ? & (td & ? & (mt & ? & (pd & ? & (cq & ? & (s1 & ? & (s2 & ? & (q & ->) & ->) & ->) & ->) & ->) & ->) & ->) & ->)|].
  { exists q, cq, pd, mt, td. unfold domain_base. solve_Permutation. }
  unfold open_handles.
  apply (with_defer_tri _ VCtx [] _ _ _ _ _ (fun _ => P1) false); [apply open_device_law|intros; apply take_context|intros; apply take_context|intros context].
  apply Hq; [intros; apply query_port_law|intros attr]. apply Hq; [intros; apply query_gid_law|intros gid].
  assert (forall f r o ex l, destroys objects r f -> o ∈ ex -> r ∈ o.2 ->
    forall ds, tri ((r, ds) :: ex ++ l) (modify f) (fun _ l' => l' = (r, ds) :: ex ++ l)) as Hkeep.
  { intros f r o ex l Hf Ho Hr ds. apply (keep_used _ r); [done|]. apply Exists_exists. exists o. set_solver. }
  apply (with_defer_tri _ VTd [] _ _ _ _ _ (fun td => P2 td) true);
    [apply alloc_td_law|intros; apply take_unused; [apply dealloc_td_law|set_solver|unused]| |intros td].
  { intros td ex (mt & ? & (pd & ? & _ & ->) & ->). eapply (Hkeep _ _ (VPd pd, [VPd mt; VTd td])); [apply dealloc_td_law|set_solver|set_solver]. }
  apply (with_defer_tri _ VPd [] _ _ _ _ _ (fun mt => P3 mt td) true);
    [apply alloc_pd_law|intros; apply take_unused; [apply dealloc_pd_law|set_solver|unused]| |intros mt].
  { intros mt ex (pd & ? & _ & ->). eapply (Hkeep _ _ (VPd pd, [VPd mt; VTd td])); [apply dealloc_pd_law|set_solver|set_solver]. }
  apply (with_defer_tri _ VPd [VPd mt; VTd td] _ _ _ _ _ (fun pd => P4 pd) true); [apply parent_law| | |intros pd].
  { intros pd. apply take_unused; [apply dealloc_pd_law| |unused]. intros Hin. exists []. set_unfold. naive_solver. }
  { intros pd ex (cq & ? & (? & ? & (? & ? & (q & ->) & ->) & ->) & ->).
    eapply (Hkeep _ _ (VQp q, qp_uses pd cq None)); [apply dealloc_pd_law|set_solver|unfold qp_uses; set_solver]. }
  apply (with_defer_tri _ VCq [] _ _ _ _ _ (fun cq => P5 cq pd) true);
    [apply create_cq_law|intros; apply take_unused; [apply destroy_cq_law|set_solver|unused]| |intros cq].
  { intros cq ex (? & ? & (? & ? & (q & ->) & ->) & ->).
    eapply (Hkeep _ _ (VQp q, qp_uses pd cq None)); [apply destroy_cq_law|set_solver|unfold qp_uses; set_solver]. }
  apply (with_defer_tri _ VSrq [VPd pd] _ _ _ _ _ (fun _ => P6 cq pd) false);
    [apply create_srq_law|intros; apply take_unused; [apply destroy_srq_law|set_solver|unused]| |intros s1].
  { intros s1 ex (? & ? & (q & ->) & ->). apply take_unused; [apply destroy_srq_law|set_solver|unused]. }
  apply (with_defer_tri _ VSrq [VPd pd] _ _ _ _ _ (fun _ => P7 cq pd) false);
    [apply create_srq_law|intros; apply take_unused; [apply destroy_srq_law|set_solver|unused]| |intros s2].
  { intros s2 ex (q & ->). apply take_unused; [apply destroy_srq_law|set_solver|unused]. }
  eapply at_bind_res; [apply open_ud_tri| |by intros].
  intros ud l' Hl'. apply at_ret. cbn in *. rewrite Hl'. unfold domain_base, srqs. solve_Permutation.
Qed.

(** ** [post_init] *)
Abbreviation Dom := (VerbsDomain (H:=H)).
Definition owned (hs : VerbsHandles) (d : Dom) : Prop :=
  held_over held (domain_res hs d) base (vd_hw d).
(** What [post_init] leaves as it is. *)
Definition same_setup (d d' : Dom) : Prop := conf d' = conf d /\ vd_peers d' = vd_peers d.

Lemma dev_idle_run {A} (m : M H A) hs (d : Dom) :
  total m -> idle m -> owned hs d ->
  exists a d', dev m d = Done (a, d') /\ owned hs d' /\ same_setup d d' /\ ud_mempool d' = ud_mempool d /\
    local_mr_map d' = local_mr_map d.
Proof.
  intros Ht Hi Ho. destruct (Ht (vd_hw d)) as (a & h & E). exists a, (set_hw h d).
  unfold dev, on_state. rewrite E. split; [done|]. split; [|done].
  destruct (idle_tri _ m Hi _ _ _ Ho E) as (? & -> & Hl). done.
Qed.

Lemma check_ec_total (f : H -> Z * H) what : total (check_ec f what).
Proof. intros h. unfold check_ec, bind, call. destruct (f h). by eexists _, _. Qed.

Lemma post_imm_loop hs l (d : Dom) :
  owned hs d -> exists r d', try_for_each l (fun _ : nat => post_imm_recv) d = Done (r, d') /\
    owned hs d' /\ same_setup d d'.
Proof.
  revert d. induction l as [|n l IH]; intros d Ho; [by eexists _, _|]. cbn [try_for_each].
  destruct (dev_idle_run (check_ec (ibv_post_srq_recv (vc_rma_srq (conf d)) {| rwr_id := 0; rwr_sge := None |})
    "ibv_post_srq_recv: IMM RECV") hs d) as (r & d1 & E & Ho1 & [Hc Hp] & _); [apply check_ec_total| |done|].
  { apply check_ec_idle. intros. apply post_srq_law. }
  unfold bind_res, bind, post_imm_recv at 1. rewrite E. destruct r as [u|e]; [|by eexists _, _].
  destruct (IH d1 Ho1) as (r & d2 & E2 & Ho2 & [Hc2 Hp2]). exists r, d2. split; [done|]. split; [done|].
  split; congruence.
Qed.

Lemma post_ud_loop hs l (d : Dom) :
  owned hs d -> (length l <= length (mp_free_list (ud_mempool d)))%nat ->
  exists r d', try_for_each l (fun _ : nat =>
      let! ptr := on_state ud_mempool set_ud_mempool mp_alloc in
      let! ptr := unwrap ptr "unwrap_unchecked" in
      post_ud_recv ptr) d = Done (r, d') /\ owned hs d' /\ same_setup d d'.
Proof.
  revert d. induction l as [|n l IH]; intros d Ho Hlen; [by eexists _, _|]. cbn [try_for_each].
  destruct (mp_free_list (ud_mempool d)) as [|ptr fl] eqn:Ef; [simpl in Hlen; lia|].
  set (d0 := set_ud_mempool (mp_set_free fl (ud_mempool d)) d).
  assert (owned hs d0) as Ho0 by exact Ho.
  destruct (dev_idle_run (check_ec (ibv_post_recv (ud_qp (vc_ud (conf d0)))
    {| rwr_id := ptr; rwr_sge := Some {| sge_addr := ptr; sge_length := as_u32 (mp_chunk_size (ud_mempool d0));
       sge_lkey := as_u32 (ud_mempool_lkey d0) |} |}) "ibv_post_recv: UD RECV") hs d0)
    as (r & d1 & E & Ho1 & [Hc Hp] & Hm & _); [apply check_ec_total| |done|].
  { apply check_ec_idle. intros. apply post_recv_law. }
  unfold bind_res, bind at 1 2, on_state, mp_alloc. rewrite Ef. fold d0.
  unfold bind at 1, unwrap, ret, post_ud_recv at 1. rewrite E. destruct r as [u|e]; [|by eexists _, _].
  destruct (IH d1 Ho1) as (r & d2 & E2 & Ho2 & [Hc2 Hp2]).
  { rewrite Hm. simpl in *. lia. }
  exists r, d2. split; [exact E2|]. split; [done|]. split; simpl in *; congruence.
Qed.

Lemma register_mr_run hs region b (d : Dom) :
  owned hs d ->
  exists r d', register_mr region b d = Done (r, d') /\ owned hs d' /\ same_setup d d' /\
    ud_mempool d' = ud_mempool d.
Proof.
  intros Ho. unfold register_mr, bind at 1, gets. destruct (local_mr_map d !! mr_ptr region) as [mr|] eqn:E.
  { by eexists _, _. }
  set (access := _ ++ _). set (what := match mr_mapping region with MapHost => _ | MapDevice _ o => _ end).
  unfold bind_res, bind, dev, on_state, nonnull, bind, call, gets, ret.
  destruct (ibv_reg_mr (vc_pd (conf d)) region access (vd_hw d)) as [o h] eqn:Er. apply reg_mr_law in Er as Hr.
  destruct o as [mr|]; eexists _, _; (split; [done|]).
  - split; [|done]. unfold owned. cbn [vd_hw set_local_mr_map set_hw].
    apply (held_over_permuted held (mr_res (conf d) mr :: domain_res hs d));
      [|by eapply held_over_put; [apply created; apply Hr|]].
    unfold domain_res. cbn [local_mr_map vd_peers conf set_local_mr_map set_hw].
    rewrite (map_to_list_insert _ _ _ E). done.
  - split; [|done]. unfold owned, held_over in *. cbn [vd_hw set_hw]. by rewrite (same_held _ _ Hr).
Qed.

Lemma post_init_run hs (d : Dom) :
  owned hs d -> (NUM_UD_RECVS <= length (mp_free_list (ud_mempool d)))%nat ->
  exists r d', post_init d = Done (r, d') /\ owned hs d' /\ same_setup d d'.
Proof.
  intros Ho Hlen. unfold post_init, bind at 1, gets at 1.
  set (region := Build_MemoryRegion _ _ _).
  destruct (register_mr_run hs region true d Ho) as (r & d1 & E & Ho1 & [Hc1 Hp1] & Hm1).
  unfold bind_res at 1, bind at 1. rewrite E. clear E. destruct r as [k|e]; [|by eexists _, _].
  unfold bind_res at 1, bind at 1, gets at 1. destruct (vd_get_mem_desc _ d1) as [lk|e]; [|by eexists _, _].
  unfold bind at 1, modify. set (d2 := set_ud_mempool_lkey lk d1).
  assert (owned hs d2) as Ho2 by exact Ho1.
  destruct (post_ud_loop hs (seq 0 NUM_UD_RECVS) d2 Ho2) as (r & d3 & E & Ho3 & [Hc3 Hp3]).
  { rewrite length_seq. simpl. by rewrite Hm1. }
  unfold bind_res, bind at 1. rewrite E. clear E. simpl in Hc3, Hp3.
  destruct r as [u|e]; [|eexists _, _; split; [done|]; split; [done|]; split; congruence].
  destruct (post_imm_loop hs (seq 0 NUM_IMM_RECVS) d3 Ho3) as (r & d4 & E & Ho4 & [Hc4 Hp4]).
  exists r, d4. split; [done|]. split; [done|]. split; congruence.
Qed.

(** ** [Drop] *)

(** Nothing uses queue pairs, address handles and memory regions. *)
Definition used_kind (r : VRes) : Prop := match r with VQp _ | VAh _ | VMr _ _ => False | _ => True end.
Definition free_kinds (l : list Obj) : Prop := Forall (fun o => Forall used_kind o.2) l.

Lemma free_kinds_unused l r : free_kinds l -> ~ used_kind r -> Forall (fun o => r ∉ o.2) l.
Proof.
  intros Hl Hr. eapply Forall_impl; [exact Hl|]. intros o Ho Hin. apply Hr. by eapply Forall_forall in Ho.
Qed.
Lemma take_leaf f r ds l :
  destroys objects r f -> ~ used_kind r -> free_kinds ((r, ds) :: l) -> tri ((r, ds) :: l) (modify f) (fun _ l' => l' = l).
Proof.
  intros Hf Hr Hk. apply (free_kinds_unused _ r) in Hk as [Hds Hl]%Forall_cons; [|done]. by apply take_unused.
Qed.

Lemma peer_free_kinds c (ps : list Peer) l : free_kinds l -> free_kinds (mjoin (peer_res c <$> ps) ++ l).
Proof. intros Hl. induction ps as [|p ps IH]; [done|]. cbn. repeat (apply Forall_cons; split; [repeat constructor|]). exact IH. Qed.
Lemma mr_free_kinds c (ms : list ibv_mr) l : free_kinds l -> free_kinds ((mr_res c <$> ms) ++ l).
Proof. intros Hl. induction ms as [|m ms IH]; [done|]. cbn. apply Forall_cons; split; [repeat constructor|]. exact IH. Qed.
Lemma conf_free_kinds hs c : free_kinds (conf_res hs c).
Proof. repeat constructor. Qed.

Lemma drop_mrs_tri c (ms : list ibv_mr) l :
  free_kinds l -> tri ((mr_res c <$> ms) ++ l) (for_each ms (fun mr => modify (ibv_dereg_mr mr))) (fun _ l' => l' = l).
Proof.
  intros Hl. induction ms as [|m ms IH]; [by apply at_ret|]. cbn [for_each].
  eapply at_bind; [apply take_leaf; [apply dereg_mr_law|by intros []|by apply (mr_free_kinds c (m :: ms))]|]. intros ? ? ->. exact IH.
Qed.

Lemma drop_peers_tri c (ps : list Peer) l :
  free_kinds l -> tri (mjoin (peer_res c <$> ps) ++ l) (for_each ps peer_drop) (fun _ l' => l' = l).
Proof.
  intros Hl. induction ps as [|p ps IH]; [by apply at_ret|]. cbn [for_each]. unfold peer_drop at 1, rc_destroy.
  pose proof (peer_free_kinds c (p :: ps) l Hl) as Hk. pose proof Hk as [_ Hk1]%Forall_cons. pose proof Hk1 as [_ Hk2]%Forall_cons.
  eapply (at_bind _ _ _ _ _ (fun _ l' => l' = mjoin (peer_res c <$> ps) ++ l)); [|intros ? ? ->; exact IH].
  eapply at_bind; [apply take_leaf; [apply destroy_qp_law|by intros []|exact Hk]|]. intros ? ? ->.
  eapply at_bind; [apply take_leaf; [apply destroy_qp_law|by intros []|exact Hk1]|]. intros ? ? ->.
  apply take_leaf; [apply destroy_ah_law|by intros []|exact Hk2].
Qed.

(** What [Drop] leaves: the shared receive queues, which it does not destroy, and because of them
    the protection domain, and because of that one the other and the thread domain. *)
Definition drop_left (hs : VerbsHandles) (c : VerbsConf) : list Obj :=
  domain_base (vc_pd c) (h_mt_pd hs) (h_td hs) ++ srqs c.

Lemma domain_drop_tri hs (d : Dom) :
  tri (domain_res hs d) (domain_drop hs d) (fun _ l' => l' = drop_left hs (conf d)).
Proof.
  unfold domain_drop, domain_res, ud_destroy.
  eapply at_bind; [apply drop_mrs_tri, peer_free_kinds, conf_free_kinds|]. intros ? ? ->.
  eapply at_bind; [apply drop_peers_tri, conf_free_kinds|]. intros ? ? ->. unfold conf_res.
  eapply at_bind; [apply take_leaf; [apply destroy_qp_law|by intros []|apply (conf_free_kinds hs)]|]. intros ? ? ->.
  eapply at_bind; [apply take_unused; [apply destroy_cq_law|set_solver|unfold domain_base, srqs; cbn; unused]|]. intros ? ? ->.
  assert (forall f r, destroys objects r f -> Exists (fun o => r ∈ o.2) (drop_left hs (conf d)) ->
    tri ((VCtx (h_context hs), []) :: drop_left hs (conf d)) (modify f) (fun _ l' => l' = (VCtx (h_context hs), []) :: drop_left hs (conf d))) as Hkeep.
  { intros f r Hf Hr. apply (keep_used _ r); [done|]. by apply Exists_cons_tl. }
  unfold drop_left, domain_base, srqs in *. cbn [app] in *.
  eapply at_bind; [eapply Hkeep; [apply dealloc_pd_law|]|]. { do 3 apply Exists_cons_tl. apply Exists_cons_hd. set_solver. }
  intros ? ? ->.
  eapply at_bind; [eapply Hkeep; [apply dealloc_pd_law|]|]. { apply Exists_cons_hd. set_solver. }
  intros ? ? ->.
  eapply at_bind; [eapply Hkeep; [apply dealloc_td_law|]|]. { apply Exists_cons_hd. set_solver. }
  intros ? ? ->. apply take_context.
Qed.

Lemma modify_total (f : H -> H) : total (modify f).
Proof. intros h. by eexists _, _. Qed.
Lemma call_total {A} (f : H -> A * H) : total (call f).
Proof. intros h. unfold call. destruct (f h). by eexists _, _. Qed.
Lemma domain_drop_total hs (d : Dom) : total (domain_drop hs d).
Proof.
  unfold domain_drop. apply total_bind; [apply total_for_each; intros; apply modify_total|intros _].
  apply total_bind; [apply total_for_each; intros p h; by eexists _, _|]. intros _ h. by eexists _, _.
Qed.

Lemma nonnull_total {A} (f : H -> option A * H) what : total (nonnull f what).
Proof. intros h. unfold nonnull, bind, call. destruct (f h). by eexists _, _. Qed.
Lemma bind_res_total {A B} (m : M H (res A)) (k : A -> M H (res B)) :
  total m -> (forall a, total (k a)) -> total (bind_res m k).
Proof. intros Hm Hk. apply total_bind; [done|]. intros []; [done|]. intros h. by eexists _, _. Qed.
Lemma with_defer_total {A B} (m : M H (res A)) undo (k : A -> M H (res B)) :
  total m -> (forall a, total (k a)) -> total (with_defer m undo k).
Proof.
  intros Hm Hk. apply bind_res_total; [done|]. intros a. apply total_bind; [done|].
  intros [] h; by eexists _, _.
Qed.

Lemma open_handles_total info : total (open_handles info).
Proof.
  unfold open_handles, check_out, open_ud, ud_new.
  repeat (intros; first [ apply nonnull_total | apply check_ec_total | apply with_defer_total
    | apply bind_res_total | apply total_bind
    | apply call_total | intros h; by eexists _, _ ]).
Qed.

End Laws.

Section Lifecycle.
Context {H : Type} `{VerbsLibLaws H}.

(** C39: opening and dropping a verbs domain.  [open] returns.  If it fails, the objects in use are
    those of before, except in two cases: the datagram queue pair was created but not activated, and
    then it remains with the completion queue, both protection domains and the thread domain, which
    cannot be freed because of it; or [post_init] failed, which drops the domain.  If [open]
    succeeds, the domain has the objects of [domain_res]; and whatever peers and memory regions were
    added in the meantime, [Drop] frees everything but the two shared receive queues, which it does
    not destroy, and with them both protection domains and the thread domain.  (Objects of others
    do not use those of the domain.) *)
Theorem verbs_open_drop info buffer (h : H) :
  closed (held h) ->
  exists r h', verbs_open info buffer h = Done (r, h') /\
  match r with
  | Err _ => exists ex, held_over held ex (held h) h' /\
      (ex = [] \/ half_open ex \/ exists hs c, ex = drop_left hs c)
  | Ok (hs, d) => vd_hw d = h' /\ owned (held h) hs d /\
      forall base (d' : VerbsDomain (H:=H)), conf d' = conf d -> closed base -> owned base hs d' ->
      exists h2, domain_drop hs d' (vd_hw d') = Done (tt, h2) /\
        held h2 = list_to_set (drop_left hs (conf d)) ∪ base
  end.
Proof.
  intros Hclosed. unfold verbs_open. destruct (open_handles_total info h) as (r & h1 & E).
  destruct (open_handles_tri (held h) Hclosed info _ _ _ (start_over held h) E) as (l & HQ & Hl).
  unfold bind_res, bind at 1. rewrite E. destruct r as [[hs c]|e].
  2: { eexists _, _. split; [done|]. destruct HQ as [Hp|(ex & Hex & Hp)]; rewrite Hp in Hl.
       - exists []. split; [done|by left].
       - rewrite app_nil_r in Hl. exists ex. split; [done|by right; left]. }
  unfold opening in HQ. rewrite HQ in Hl. unfold bind, fresh_domain. cbn [with_chunk_size Nat.eqb MAX_OPS].
  cbn [fst snd]. match goal with |- context [post_init ?x] => set (d0 := x) end.
  assert (owned (held h) hs d0) as Ho by exact Hl.
  destruct (post_init_run (held h) hs d0 Ho) as (r & d1 & E1 & Ho1 & [Hc1 Hp1]).
  { unfold d0, mp_new. cbn [ud_mempool mp_free_list]. rewrite length_reverse, length_fmap, length_seq.
    unfold NUM_UD_RECVS, MAX_UD_SENDS. lia. }
  rewrite E1. destruct r as [u|e].
  - eexists _, _. split; [done|]. split; [done|]. split; [done|]. intros base d' Hc Hb Ho'.
    destruct (domain_drop_total hs d' (vd_hw d')) as ([] & h2 & Ed). exists h2. split; [done|].
    destruct (domain_drop_tri base Hb hs d' _ _ _ Ho' Ed) as (l2 & -> & _ & _ & Eh). by rewrite Eh, Hc.
  - destruct (domain_drop_total hs d1 (vd_hw d1)) as ([] & h2 & Ed).
    destruct (domain_drop_tri (held h) Hclosed hs d1 _ _ _ Ho1 Ed) as (l2 & -> & Hl2).
    eexists _, h2. unfold bind. rewrite Ed. split; [done|]. eexists. split; [exact Hl2|]. right. right. by eexists _, _.
Qed.
End Lifecycle.

(** ** A concrete library *)
Module VerbsSim.
Record sim := { next : Z; objs : gmap VRes (list VRes) }.

Definition make {A} (mk : Z -> VRes) (ds : list VRes) (x : Z -> A) (s : sim) : option A * sim :=
  match objs s !! mk (next s) with
  | Some _ => (None, s)
  | None => (Some (x (next s)), {| next := next s + 1; objs := <[mk (next s) := ds]> (objs s) |})
  end.
Definition in_use (r : VRes) (m : gmap VRes (list VRes)) : bool :=
  existsb (fun kv : VRes * list VRes => bool_decide (r ∈ kv.2)) (map_to_list m).
Definition free (r : VRes) (s : sim) : sim :=
  if in_use r (objs s) then s else {| next := next s; objs := delete r (objs s) |}.

Lemma in_use_spec r m : in_use r m = true <-> uses_res m r.
Proof.
  unfold in_use, uses_res. rewrite existsb_exists. split.
  - intros ([k ds] & Hin%list_elem_of_In%elem_of_map_to_list & Hr%bool_decide_eq_true). by exists k, ds.
  - intros (k & ds & Hk & Hr). exists (k, ds). split; [by apply list_elem_of_In, elem_of_map_to_list|by apply bool_decide_eq_true].
Qed.

(** Every posting succeeds. *)
#[export] Instance hw : VerbsHw sim := {|
  ibv_post_send _ _ s := (0, 0%nat, s);
  ibv_post_send_ud _ _ s := (0, s);
  ibv_post_srq_recv _ _ s := (0, s);
  ibv_post_recv _ _ s := (0, s);
  ibv_poll_cq _ s := (0, [], s);
  ibv_reg_mr p _ _ s := make (fun k => VMr k k) [VPd p] (fun k => {| lkey := k; rkey := k |}) s;
  ibv_dereg_mr mr s := free (mr_of mr) s;
  ibv_create_qp p a s := make VQp (qp_uses p (qi_cq a) (qi_srq a)) (fun q => (q, q)) s;
  ibv_modify_qp _ _ _ s := (0, s);
  ibv_create_ah p _ s := make VAh [VPd p] id s;
  last_os_error _ := 12;
  wc_status_str _ := "error";
  postcard_to_slice _ _ _ s := (Some 64, s);
  postcard_from_bytes _ _ _ := None;
|}.

#[export] Instance lib : VerbsLib sim := {|
  ibv_open_device _ s := make VCtx [] id s;
  ibv_close_device c s := {| next := next s; objs := delete (VCtx c) (objs s) |};
  ibv_query_port _ _ s := (0, {| pa_lid := 7; pa_active_mtu := 5; pa_link_layer := 1 |}, s);
  ibv_query_gid _ _ _ s := (0, replicate 16 0, s);
  ibv_alloc_td _ s := make VTd [] id s;
  ibv_dealloc_td t s := free (VTd t) s;
  ibv_alloc_pd _ s := make VPd [] id s;
  ibv_alloc_parent_domain _ p t s := make VPd [VPd p; VTd t] id s;
  ibv_dealloc_pd p s := free (VPd p) s;
  ibv_create_cq _ _ s := make VCq [] id s;
  ibv_destroy_cq q s := free (VCq q) s;
  ibv_create_srq p _ s := make VSrq [VPd p] id s;
  ibv_destroy_srq q s := free (VSrq q) s;
  ibv_destroy_qp q s := free (VQp q) s;
  ibv_destroy_ah a s := free (VAh a) s;
|}.

Lemma make_creates {A} mk ds (x : Z -> A) (mk' : A -> VRes) :
  (forall n, mk' (x n) = mk n) -> creates objs (make mk ds x) mk' ds.
Proof.
  intros Hx s o s' Hm. unfold make in Hm. destruct (objs s !! mk (next s)) eqn:E; simplify_eq; [done|]. by rewrite Hx.
Qed.
Lemma free_destroys r : destroys objs r (free r).
Proof.
  intros s. rewrite <- in_use_spec. unfold free. destruct (in_use r (objs s)); by split.
Qed.

#[export] Instance sim_lib_laws : VerbsLibLaws sim.
Proof.
  refine {| objects := objs |}; intros;
    first [ by apply make_creates | apply free_destroys | done ].
Defined.

Definition info : VerbsDeviceInfo :=
  {| vi_device := 1; vi_name := "mlx5_0"; vi_port_num := 1; vi_gid_index := 0; vi_link_speed := 400 |}.
Definition fresh : sim := {| next := 1; objs := ∅ |}.
Lemma fresh_closed : closed (held fresh).
Proof. intros r ds d Hin%held_elem. cbn in Hin. by rewrite lookup_empty in Hin. Qed.

Lemma verbs_open_drop_witness :
  exists r h', verbs_open info 65536 fresh = Done (r, h') /\
  match r with
  | Err _ => False
  | Ok (hs, d) =>
      exists h2, domain_drop hs d (vd_hw d) = Done (tt, h2) /\
        held h2 = list_to_set (drop_left hs (conf d)) ∪ held fresh
  end.
Proof.
  assert (match verbs_open info 65536 fresh with Done (Ok _, _) => true | _ => false end = true) as Hok
    by (vm_compute; reflexivity).
  destruct (verbs_open_drop info 65536 fresh fresh_closed) as (r & h' & E & Hr). rewrite E in Hok.
  exists r, h'. split; [exact E|]. destruct r as [[hs d]|e]; [|discriminate Hok].
  destruct Hr as (_ & Ho & Hdrop). exact (Hdrop _ d eq_refl fresh_closed Ho).
Defined.
End VerbsSim.
