(* ===== verification/Locks.v ===== *)
(** * Threads that hold several locks

    Programs as sequences of acquisitions, releases and other actions, any number of threads, locks
    with shared and exclusive holders.  If there is an order of the locks that every program
    follows, and other actions are done without locks, then locks never keep all threads
    waiting. *)
From stdpp Require Import prelude list.

Section Locks.
Context {L X : Type} `{!EqDecision L}.

Inductive Mode : Type := Shared | Exclusive.
#[export] Instance Mode_eq_dec : EqDecision Mode.
Proof. solve_decision. Defined.

Inductive Action : Type := Acquire (m : Mode) (l : L) | Release (l : L) | Do (x : X).

Record Thread := { holds : list (Mode * L); todo : list Action }.

(** [System]: all threads. *)
Abbreviation System := (list Thread).

(** Releasing ends the latest acquisition of the lock. *)
Fixpoint drop_lock (l : L) (h : list (Mode * L)) : list (Mode * L) :=
  match h with
  | [] => []
  | (m, l') :: h => if decide (l' = l) then h else (m, l') :: drop_lock l h
  end.

Definition holds_any (l : L) (t : Thread) : bool :=
  existsb (fun h => bool_decide (h.2 = l)) (holds t).
Definition holds_exclusively (l : L) (t : Thread) : bool :=
  existsb (fun h => bool_decide (h = (Exclusive, l))) (holds t).
Definition wants_exclusively (l : L) (t : Thread) : bool :=
  match todo t with Acquire Exclusive l' :: _ => bool_decide (l' = l) | _ => false end.

(** The lock may be granted: nobody is in the way.  A thread can be in its own way, since no
    lock is re-entrant. *)
Definition may_grant (sys : System) (m : Mode) (l : L) : bool :=
  match m with
  | Exclusive => forallb (fun t => negb (holds_any l t)) sys
  | Shared => forallb (fun t => negb (holds_exclusively l t)) sys
  end.

(** The lock must be granted: locks that prefer writers may keep a reader waiting while a writer
    waits. *)
Definition must_grant (sys : System) (m : Mode) (l : L) : bool :=
  may_grant sys m l &&
  match m with Exclusive => true | Shared => forallb (fun t => negb (wants_exclusively l t)) sys end.

Definition acquired (m : Mode) (l : L) (t : Thread) : Thread :=
  {| holds := (m, l) :: holds t; todo := tail (todo t) |}.
Definition released (l : L) (t : Thread) : Thread :=
  {| holds := drop_lock l (holds t); todo := tail (todo t) |}.

Inductive lock_step (sys : System) : System -> Prop :=
  | StepAcquire i t m l rest :
      sys !! i = Some t -> todo t = Acquire m l :: rest -> may_grant sys m l = true ->
      lock_step sys (<[i := acquired m l t]> sys)
  | StepRelease i t l rest :
      sys !! i = Some t -> todo t = Release l :: rest ->
      lock_step sys (<[i := released l t]> sys).

(** Some thread takes or releases a lock, whatever the locks prefer. *)
Definition live (sys : System) : Prop :=
  exists i t, sys !! i = Some t /\
    match todo t with
    | Acquire m l :: _ => must_grant sys m l = true
    | Release _ :: _ => True
    | _ => False
    end.

(** The thread is not waiting for a lock. *)
Definition past_locks (t : Thread) : Prop :=
  match todo t with [] | Do _ :: _ => True | _ => False end.

(** ** Lock order *)
Section Order.
(** [written]: the locks some thread takes exclusively; shared acquisitions of the others never
    wait. *)
Context (rank : L -> nat) (written : L -> bool).

(** The program releases what it holds, takes locks in increasing rank, and does what may make it
    wait for something else without locks. *)
Fixpoint ordered (h : list L) (p : list Action) : bool :=
  match p with
  | [] => match h with [] => true | _ => false end
  | Acquire m l :: p =>
      if written l then forallb (fun x => rank x <? rank l) h && ordered (l :: h) p
      else bool_decide (m = Shared) && ordered h p
  | Release l :: p =>
      if written l
      then match h with x :: h => bool_decide (x = l) && ordered h p | [] => false end
      else ordered h p
  | Do _ :: p => match h with [] => ordered [] p | _ => false end
  end.

(** The locks a thread holds that others may wait for. *)
Definition counted (t : Thread) : list L := List.filter written (holds t).*2.

Record obeys (t : Thread) : Prop := {
  obeys_ordered : ordered (counted t) (todo t) = true;
  obeys_written : Forall (fun h => h.1 = Exclusive -> written h.2 = true) (holds t);
}.

Lemma counted_drop l h x r :
  written l = true -> List.filter written h.*2 = x :: r -> x = l ->
  List.filter written (drop_lock l h).*2 = r.
Proof.
  intros Hl. revert r. induction h as [|[m y] h IH]; intros r; [done|]. csimpl.
  destruct (written y) eqn:Ey.
  - intros [= -> <-] ->. by rewrite decide_True.
  - intros Hf ->. rewrite decide_False by (intros ->; congruence). csimpl. rewrite Ey. by apply IH.
Qed.

Lemma uncounted_drop l h :
  written l = false -> List.filter written (drop_lock l h).*2 = List.filter written h.*2.
Proof.
  intros Hl. induction h as [|[m y] h IH]; [done|]. cbn [drop_lock].
  destruct (decide (y = l)) as [->|Hne]; csimpl; [by rewrite Hl|]. by rewrite IH.
Qed.

Lemma drop_lock_sub l h : drop_lock l h ⊆ h.
Proof.
  induction h as [|[m y] h IH]; [done|]. cbn [drop_lock]. case_decide; set_solver.
Qed.

Lemma step_obeys sys sys' : Forall obeys sys -> lock_step sys sys' -> Forall obeys sys'.
Proof.
  intros Hall Hs. destruct Hs as [i t m l rest Hi Ht Hg|i t l rest Hi Ht];
    apply Forall_insert; try done; (eapply Forall_lookup_1 in Hall as [Ho Hw]; [|exact Hi]);
    rewrite Ht in Ho; cbn [ordered] in Ho; split; unfold counted, acquired, released in *; cbn [holds todo] in *; rewrite ?Ht; csimpl.
  - destruct (written l); [|by apply andb_prop in Ho as [_ Ho]]. by apply andb_prop in Ho as [_ Ho].
  - constructor; [|done]. csimpl. intros ->. by destruct (written l).
  - destruct (written l) eqn:El; [|by rewrite uncounted_drop].
    destruct (List.filter written (holds t).*2) as [|x h] eqn:Eh; [done|].
    apply andb_prop in Ho as [Hx%bool_decide_eq_true Ho]. by rewrite (counted_drop _ _ _ _ El Eh Hx).
  - apply Forall_forall. intros h Hh%drop_lock_sub. by eapply Forall_forall in Hw.
Qed.

Lemma holder_of sys l :
  forallb (fun t => negb (holds_any l t)) sys = false ->
  exists j t, sys !! j = Some t /\ l ∈ (holds t).*2.
Proof.
  intros Hf. apply not_true_iff_false in Hf. rewrite forallb_forall in Hf.
  destruct (decide (Exists (fun t => l ∈ (holds t).*2) sys)) as [He|Hn].
  { apply Exists_exists in He as (t & (j & Hj)%list_elem_of_lookup & Hl). eauto. }
  exfalso. apply Hf. intros t Ht. apply negb_true_iff. unfold holds_any.
  apply not_true_iff_false. intros (h & Hh & Hl%bool_decide_eq_true)%existsb_exists.
  apply Hn, Exists_exists. exists t. split; [by apply list_elem_of_In|]. apply list_elem_of_fmap.
  exists h. split; [done|]. by apply list_elem_of_In.
Qed.

Lemma no_holder_must_grant sys l :
  forallb (fun t => negb (holds_any l t)) sys = true -> must_grant sys Exclusive l = true.
Proof. unfold must_grant. cbn [may_grant]. by intros ->. Qed.

Lemma not_exclusive_holder sys l :
  forallb (fun t => negb (holds_any l t)) sys = true ->
  forallb (fun t => negb (holds_exclusively l t)) sys = true.
Proof.
  rewrite !forallb_forall. intros Hf t Ht. specialize (Hf t Ht). apply negb_true_iff in Hf.
  apply negb_true_iff, not_true_iff_false. unfold holds_any, holds_exclusively in *.
  intros (h & Hh & He%bool_decide_eq_true)%existsb_exists. apply not_true_iff_false in Hf. apply Hf.
  apply existsb_exists. exists h. split; [done|]. subst h. by apply bool_decide_eq_true.
Qed.

Lemma writer_waiting sys l :
  forallb (fun t => negb (wants_exclusively l t)) sys = false ->
  exists j t r, sys !! j = Some t /\ todo t = Acquire Exclusive l :: r.
Proof.
  intros Hf. apply not_true_iff_false in Hf. rewrite forallb_forall in Hf.
  destruct (decide (Exists (fun t => wants_exclusively l t = true) sys)) as [He|Hn].
  - apply Exists_exists in He as (t & (j & Hj)%list_elem_of_lookup & Hl). exists j, t.
    unfold wants_exclusively in Hl. destruct (todo t) as [|[[] l'| |] r]; try done.
    apply bool_decide_eq_true in Hl as ->. by exists r.
  - exfalso. apply Hf. intros t Ht. apply negb_true_iff, not_true_iff_false. intros Hw.
    apply Hn, Exists_exists. exists t. split; [by apply list_elem_of_In|done].
Qed.

(** A shared acquisition of a lock without writers does not wait. *)
Lemma unwritten_granted sys l :
  Forall obeys sys -> written l = false -> must_grant sys Shared l = true.
Proof.
  intros Hall Hl. unfold must_grant. apply andb_true_intro. split.
  - cbn [may_grant]. apply forallb_forall. intros t Ht%list_elem_of_In. eapply Forall_forall in Hall as [_ Hw]; [|done].
    apply negb_true_iff, not_true_iff_false. unfold holds_exclusively.
    intros (h & Hh%list_elem_of_In & ->%bool_decide_eq_true)%existsb_exists. eapply Forall_forall in Hw; [|done].
    csimpl in Hw. by rewrite Hw in Hl.
  - apply not_false_iff_true. intros (j & t & r & Hj & Ht)%writer_waiting.
    eapply Forall_lookup_1 in Hall as [Ho _]; [|done]. rewrite Ht in Ho. cbn [ordered] in Ho. by rewrite Hl in Ho.
Qed.

Lemma blocked_live sys n :
  Forall obeys sys -> (forall l, rank l <= n) ->
  forall k i t m l r, n - rank l <= k -> sys !! i = Some t -> todo t = Acquire m l :: r -> live sys.
Proof.
  intros Hall Hn. induction k as [k IH] using lt_wf_ind. intros i t m l r Hk Hi Ht.
  destruct (must_grant sys m l) eqn:Eg.
  { exists i, t. split; [done|]. by rewrite Ht. }
  destruct (written l) eqn:El.
  2: { assert (m = Shared) as ->.
       { eapply Forall_lookup_1 in Hall as [Ho _]; [|exact Hi]. rewrite Ht in Ho. cbn [ordered] in Ho.
         rewrite El in Ho. by apply andb_prop in Ho as [?%bool_decide_eq_true _]. }
       by rewrite (unwritten_granted sys l) in Eg. }
  destruct (forallb (fun t => negb (holds_any l t)) sys) eqn:Ea.
  { destruct m; [|by rewrite no_holder_must_grant in Eg]. unfold must_grant in Eg. cbn [may_grant] in Eg.
    rewrite not_exclusive_holder in Eg by done. apply writer_waiting in Eg as (j & t' & r' & Hj & Ht').
    exists j, t'. split; [done|]. rewrite Ht'. by apply no_holder_must_grant. }
  apply holder_of in Ea as (j & t' & Hj & Hl).
  pose proof Hall as Hall'. eapply Forall_lookup_1 in Hall' as [Ho Hw]; [|exact Hj].
  assert (l ∈ counted t') as Hc by (apply list_elem_of_In, filter_In; split; [by apply list_elem_of_In|done]).
  destruct (todo t') as [|[m' l'|l'|x] r'] eqn:Ht'; cbn [ordered] in Ho.
  - by destruct (counted t'); [apply not_elem_of_nil in Hc|].
  - destruct (written l') eqn:El'.
    + apply andb_prop in Ho as [Hr _]. rewrite forallb_forall in Hr. apply list_elem_of_In, Hr, Nat.ltb_lt in Hc.
      pose proof (Hn l'). eapply (IH (n - rank l')); [lia|reflexivity|done|done].
    + apply andb_prop in Ho as [->%bool_decide_eq_true _]. exists j, t'. split; [done|]. rewrite Ht'.
      by apply unwritten_granted.
  - exists j, t'. split; [done|]. by rewrite Ht'.
  - by destruct (counted t'); [apply not_elem_of_nil in Hc|].
Qed.

(** Threads that respect an order of the locks never block each other. *)
Lemma ordered_live sys n :
  (forall l, rank l <= n) -> Forall obeys sys -> Forall past_locks sys \/ live sys.
Proof.
  intros Hn Hall. assert (forall t, Decision (past_locks t)) as Hdec
    by (intros t; unfold past_locks; destruct (todo t) as [|[]]; apply _).
  destruct (decide (Forall past_locks sys)) as [Hf|He]; [by left|right].
  apply not_Forall_Exists, Exists_exists in He as (t & (i & Hi)%list_elem_of_lookup & Ht); [|done].
  unfold compose, past_locks in Ht. destruct (todo t) as [|[m l|l|x] r] eqn:Et; try (by destruct Ht).
  - by eapply (blocked_live sys n).
  - exists i, t. split; [done|]. by rewrite Et.
Qed.
End Order.

Lemma live_steps sys : live sys -> exists sys', lock_step sys sys'.
Proof.
  intros (i & t & Hi & Ht). destruct (todo t) as [|[m l|l|x] r] eqn:Et; try done.
  - apply andb_prop in Ht as [Hg _]. eexists. by eapply StepAcquire.
  - eexists. by eapply StepRelease.
Qed.

(** A lock someone holds is not granted exclusively. *)
Lemma held_not_granted sys j t l :
  sys !! j = Some t -> l ∈ (holds t).*2 -> may_grant sys Exclusive l = false.
Proof.
  intros Hj (h & -> & Hin)%list_elem_of_fmap. apply not_true_iff_false. cbn [may_grant]. rewrite forallb_forall.
  intros Hf. specialize (Hf t). rewrite <- list_elem_of_In in Hf. apply list_elem_of_lookup_2, Hf, negb_true_iff in Hj.
  apply not_true_iff_false in Hj. apply Hj, existsb_exists. exists h.
  split; [by apply list_elem_of_In|by apply bool_decide_eq_true].
Qed.
End Locks.
