(* ===== verification/PyLocks.v ===== *)
(** * The interpreter lock, the locks of the engine and its channels

    [python-ext/src/py_fabric_lib.rs] as a user of [transfer_engine.rs], [fabric_engine.rs] and
    [worker.rs]: a method called from Python runs with the global interpreter lock (GIL) held,
    unless it detaches; the callback thread takes the GIL ([Python::attach]) to run a Python
    callback, sometimes while it holds a reference into one of the engine's maps.  Methods also
    wait for the threads of a worker: for room in a channel of 128 commands or calls, and for the
    answer to a call.  Those threads wait for room in the channel of 128 completions, which only the
    callback thread reads.

    Each method and each completion is the sequence of locks it takes and gives back and of the
    messages it sends and awaits; the two loops of a worker are steps of their own.  Left out are
    locks that are held for one access and never while the holder waits for anything
    ([mr_device_map], [ImmCountMap], the atomics).  Python callbacks return normally. *)
From stdpp Require Import prelude list.
From S2P Require Import Locks.

(** Shards of the maps, read-write locks, mutexes. *)
Inductive PyLock : Type :=
  | Gil
  | ThreadHandle
  | ImmFns
  | PyImm
  | HostCache
  | RecvOps (shard : nat)
  | SendOps (shard : nat)
  | TransferOps (shard : nat)
  | ImmCounts (shard : nat)
  | Watchers (shard : nat).
#[export] Instance PyLock_eq_dec : EqDecision PyLock.
Proof. solve_decision. Defined.

(** The two threads of a worker: [rdma_worker_thread] and [uvm_worker_thread]. *)
Inductive Side : Type := Rdma | Uvm.
#[export] Instance Side_eq_dec : EqDecision Side.
Proof. solve_decision. Defined.

(** What may make a thread wait beside locks: a command for worker [w], a call to one of its
    threads and the wait for the answer, and joining the callback thread. *)
Inductive Io : Type :=
  | Command (w : nat)
  | CallThread (w : nat) (sd : Side)
  | AwaitReply (w : nat) (sd : Side)
  | StopSignal
  | Join.
Abbreviation Act := (@Action PyLock Io).
Abbreviation Thr := (@Thread PyLock Io).

(** The methods of [PyTransferEngine] that wait for something, with the key they insert or remove
    and the worker of the memory they use; worker 0 is the main one.  [SubmitSend] says whether a
    new host buffer is registered. *)
Inductive PyCall : Type :=
  | RegisterMemory (w : nat)
  | UnregisterMemory
  | SubmitImm (id : Z)
  | SubmitWrite (id : Z) (w : nat)
  | SubmitPagedWrites (id : Z) (w : nat)
  | SubmitSend (id : Z) (fresh : bool)
  | SubmitBouncingRecvs (ids : list Z)
  | SetImmCallback (first : bool)
  | SetImmCountExpected (imm : Z)
  | RemoveImmCount (imm : Z)
  | AllocScalarWatcher (id : Z)
  | StopEngine.

(** Python code: the interpreter may switch threads between any two instructions. *)
Inductive PyCode : Type := SwitchInterval | Call (c : PyCall).

(** What the callback thread handles.  [body] is the Python callback, [None] if none is
    registered. *)
Inductive Handled : Type :=
  | HTransfer (id : Z) (body : option (list PyCode))
  | HRecv (id : Z) (body : option (list PyCode))
  | HSend (id : Z) (body : option (list PyCode))
  | HImm (body : option (list PyCode))
  | HImmCount (imm : Z) (body : option (list PyCode)) (replays : list (option (list PyCode)))
  | HWatch (id : Z) (body : option (list PyCode)) (keep : bool)
  | HErrorTransfer (id : Z) (body : list PyCode)
  | HErrorSend (id : Z) (body : list PyCode)
  | HErrorRecv (id : Z) (body : list PyCode)
  | HErrorUnknown (id : Z).

(** [crossbeam_channel::bounded(128)]. *)
Definition capacity : nat := 128.

(** A loop of a worker: the callers in its channel of calls, the completions of this iteration it
    has not sent yet, those of later iterations (of the device, and the errors of commands that are
    refused), and whether it has ended. *)
Record Loop := {
  calls : list nat;
  pending : list Handled;
  upcoming : list (list Handled);
  down : bool;
}.

(** A worker: its threads, the number of commands queued and the completion channel. *)
Record WorkerPair := { rdma : Loop; uvm : Loop; cmds : nat; cq : list Handled }.

(** The process: the callback thread (thread 0) and the Python threads, the workers, the stop
    signal, and whether the callback thread still runs. *)
Record Process := {
  threads : list Thr;
  pairs : list WorkerPair;
  stopped : bool;
  running : bool;
}.

Definition loop_of (sd : Side) (u : WorkerPair) : Loop := match sd with Rdma => rdma u | Uvm => uvm u end.
Definition with_loop (sd : Side) (x : Loop) (u : WorkerPair) : WorkerPair :=
  match sd with
  | Rdma => {| rdma := x; uvm := uvm u; cmds := cmds u; cq := cq u |}
  | Uvm => {| rdma := rdma u; uvm := x; cmds := cmds u; cq := cq u |}
  end.
Definition with_calls (c : list nat) (x : Loop) : Loop :=
  {| calls := c; pending := pending x; upcoming := upcoming x; down := down x |}.
Definition with_pending (es : list Handled) (x : Loop) : Loop :=
  {| calls := calls x; pending := es; upcoming := upcoming x; down := down x |}.
Definition with_cmds (n : nat) (u : WorkerPair) : WorkerPair :=
  {| rdma := rdma u; uvm := uvm u; cmds := n; cq := cq u |}.
Definition with_cq (q : list Handled) (u : WorkerPair) : WorkerPair :=
  {| rdma := rdma u; uvm := uvm u; cmds := cmds u; cq := q |}.
Definition with_threads (ts : list Thr) (p : Process) : Process :=
  {| threads := ts; pairs := pairs p; stopped := stopped p; running := running p |}.
Definition with_pairs (us : list WorkerPair) (p : Process) : Process :=
  {| threads := threads p; pairs := us; stopped := stopped p; running := running p |}.

Section Locking.
Context (shard : Z -> nat).

(** A lock taken for one operation. *)
Definition guarded (m : Mode) (l : PyLock) (inner : list Act) : list Act :=
  Acquire m l :: inner ++ [Release l].
Definition touch (l : PyLock) : list Act := guarded Exclusive l [].

(** [Python::detach]. *)
Definition detach (inner : list Act) : list Act :=
  Release Gil :: inner ++ [Acquire Exclusive Gil].

(** A call to a thread of a worker, with a oneshot channel for the answer. *)
Definition call_thread (w : nat) (sd : Side) : list Act := [Do (CallThread w sd); Do (AwaitReply w sd)].

(** A method, entered and left with the GIL.  The cache of host buffers stays locked while a new
    buffer is registered. *)
Definition binding (c : PyCall) : list Act :=
  match c with
  | RegisterMemory w => call_thread w Rdma
  | UnregisterMemory => call_thread 0 Rdma
  | SubmitImm id => detach (touch (TransferOps (shard id)) ++ [Do (Command 0)])
  | SubmitWrite id w | SubmitPagedWrites id w => detach (touch (TransferOps (shard id)) ++ [Do (Command w)])
  | SubmitSend id fresh =>
      guarded Exclusive HostCache (if fresh then call_thread 0 Rdma else []) ++
      touch (SendOps (shard id)) ++ [Do (Command 0)]
  | SubmitBouncingRecvs ids =>
      call_thread 0 Rdma ++ mjoin ((fun id => touch (RecvOps (shard id)) ++ [Do (Command 0)]) <$> ids)
  | SetImmCallback first => guarded Exclusive PyImm (if first then touch ImmFns else [])
  | SetImmCountExpected imm | RemoveImmCount imm => touch (ImmCounts (shard imm))
  | AllocScalarWatcher id => call_thread 0 Uvm ++ touch (Watchers (shard id))
  | StopEngine => Do StopSignal :: guarded Exclusive ThreadHandle [Do Join]
  end.

Definition code (c : PyCode) : list Act :=
  match c with SwitchInterval => detach [] | Call c => binding c end.
Definition run_code (body : list PyCode) : list Act := mjoin (code <$> body).

(** [Python::attach]. *)
Definition attach (inner : list Act) : list Act := guarded Exclusive Gil inner.

Definition attach_opt (body : option (list PyCode)) : list Act :=
  match body with Some body => attach (run_code body) | None => [] end.

(** The closure [set_imm_callback] registers reads the stored callback and keeps the read lock
    during the call. *)
Definition imm_callback (body : list PyCode) : list Act :=
  attach (guarded Shared PyImm (run_code body)).

(** [for callback in states.imm.read().iter()]. *)
Definition imm_data (body : option (list PyCode)) : list Act :=
  guarded Shared ImmFns (match body with Some body => imm_callback body | None => [] end).

(** The branches of [handle_transfer_completion].  [get] keeps a reference into the map until the
    branch drops it, [remove] does not.  A receive is submitted again, and a watch that ends is
    released, while the reference is held.  Python's count callbacks run once: their entry is
    removed after the call. *)
Definition handler (e : Handled) : list Act :=
  match e with
  | HTransfer id body => touch (TransferOps (shard id)) ++ attach_opt body
  | HRecv id body =>
      guarded Shared (RecvOps (shard id))
        (match body with Some body => attach (run_code body) ++ [Do (Command 0)] | None => [] end)
  | HSend id body =>
      touch (SendOps (shard id)) ++
      (match body with Some _ => touch HostCache | None => [] end) ++ attach_opt body
  | HImm body => imm_data body
  | HImmCount imm body replays =>
      guarded Shared (ImmCounts (shard imm)) (attach_opt body) ++
      (match body with
       | Some _ => touch (ImmCounts (shard imm)) ++ mjoin (imm_data <$> replays)
       | None => []
       end)
  | HWatch id body keep =>
      guarded Shared (Watchers (shard id))
        (attach_opt body ++
         match body with
         | Some _ => if keep then [] else call_thread 0 Uvm ++ touch (Watchers (shard id))
         | None => []
         end)
  | HErrorTransfer id body => touch (TransferOps (shard id)) ++ attach (run_code body)
  | HErrorSend id body =>
      touch (TransferOps (shard id)) ++ touch (SendOps (shard id)) ++ touch HostCache ++
      attach (run_code body)
  | HErrorRecv id body =>
      touch (TransferOps (shard id)) ++ touch (SendOps (shard id)) ++ touch (RecvOps (shard id)) ++
      attach (run_code body)
  | HErrorUnknown id =>
      touch (TransferOps (shard id)) ++ touch (SendOps (shard id)) ++ touch (RecvOps (shard id))
  end.

(** ** Steps *)

(** Thread [i] does [x]; [None] while it has to wait.  A worker that does not exist or has ended is
    an error at once. *)
Definition perform (i : nat) (x : Io) (p : Process) : option Process :=
  match x with
  | Command w =>
      match pairs p !! w with
      | Some u =>
          if down (rdma u) then Some p
          else if cmds u <? capacity then Some (with_pairs (<[w := with_cmds (S (cmds u)) u]> (pairs p)) p) else None
      | None => Some p
      end
  | CallThread w sd =>
      match pairs p !! w with
      | Some u =>
          let x := loop_of sd u in
          if down x then Some p
          else if length (calls x) <? capacity
          then Some (with_pairs (<[w := with_loop sd (with_calls (calls x ++ [i]) x) u]> (pairs p)) p)
          else None
      | None => Some p
      end
  | AwaitReply w sd =>
      match pairs p !! w with
      | Some u => if decide (i ∈ calls (loop_of sd u)) then None else Some p
      | None => Some p
      end
  | StopSignal => Some {| threads := threads p; pairs := pairs p; stopped := true; running := running p |}
  | Join => if running p then None else Some p
  end.

(** [poll_transfer_completion]: the first worker with a completion. *)
Fixpoint poll (us : list WorkerPair) : option (Handled * list WorkerPair) :=
  match us with
  | [] => None
  | u :: us =>
      match cq u with
      | e :: q => Some (e, with_cq q u :: us)
      | [] => match poll us with Some (e, us) => Some (e, u :: us) | None => None end
      end
  end.

(** The loops of a worker, [worker_step] and [uwm_worker_step]: a call is answered or a command
    taken only when the completions of the last iteration are all sent.  The order within an
    iteration is left open. *)
Inductive loop_step (halt : bool) (u : WorkerPair) : WorkerPair -> Prop :=
  | Answer sd i rest :
      pending (loop_of sd u) = [] -> calls (loop_of sd u) = i :: rest ->
      loop_step halt u (with_loop sd (with_calls rest (loop_of sd u)) u)
  | TakeCommand n :
      pending (rdma u) = [] -> cmds u = S n -> loop_step halt u (with_cmds n u)
  | Progress sd es more :
      pending (loop_of sd u) = [] -> upcoming (loop_of sd u) = es :: more ->
      loop_step halt u (with_loop sd {| calls := calls (loop_of sd u); pending := es; upcoming := more; down := down (loop_of sd u) |} u)
  | SendCompletion sd e es :
      pending (loop_of sd u) = e :: es -> length (cq u) < capacity ->
      loop_step halt u (with_cq (cq u ++ [e]) (with_loop sd (with_pending es (loop_of sd u)) u))
  | LoopEnds sd :
      halt = true -> pending (loop_of sd u) = [] -> down (loop_of sd u) = false ->
      loop_step halt u (with_cmds (match sd with Rdma => 0 | Uvm => cmds u end)
        (with_loop sd {| calls := []; pending := []; upcoming := []; down := true |} u)).

Definition done_to (i : nat) (t : Thr) (p : Process) : Process :=
  with_threads (<[i := {| holds := holds t; todo := tail (todo t) |}]> (threads p)) p.

(** Steps other than those of locks. *)
Inductive io_step (p : Process) : Process -> Prop :=
  | IoDo i t x rest p' :
      threads p !! i = Some t -> todo t = Do x :: rest -> perform i x p = Some p' -> io_step p (done_to i t p')
  | IoPoll t e us :
      running p = true -> stopped p = false -> threads p !! 0 = Some t -> todo t = [] ->
      poll (pairs p) = Some (e, us) ->
      io_step p (with_threads (<[0 := {| holds := holds t; todo := handler e |}]> (threads p)) (with_pairs us p))
  | IoExit t :
      running p = true -> stopped p = true -> threads p !! 0 = Some t -> todo t = [] ->
      io_step p {| threads := threads p; pairs := pairs p; stopped := true; running := false |}
  | IoLoop w u u' :
      pairs p !! w = Some u -> loop_step (stopped p) u u' -> io_step p (with_pairs (<[w := u']> (pairs p)) p).

Inductive proc_step (p : Process) : Process -> Prop :=
  | StepLock ts : lock_step (threads p) ts -> proc_step p (with_threads ts p)
  | StepIo p' : io_step p p' -> proc_step p p'.

(** The engine as it runs, and Python threads about to start. *)
Definition python_thread (body : list PyCode) : Thr := {| holds := []; todo := attach (run_code body) |}.
Definition process (pys : list (list PyCode)) (us : list WorkerPair) : Process :=
  {| threads := {| holds := []; todo := [] |} :: (python_thread <$> pys);
     pairs := us; stopped := false; running := true |}.

(** Nothing is left to do. *)
Definition idle_loop (x : Loop) : Prop := calls x = [] /\ pending x = [] /\ upcoming x = [].
Definition idle_pair (u : WorkerPair) : Prop := idle_loop (rdma u) /\ idle_loop (uvm u) /\ cmds u = 0 /\ cq u = [].
Definition complete (p : Process) : Prop :=
  Forall (fun t => todo t = []) (threads p) /\ Forall idle_pair (pairs p).

(** Some thread goes on, whatever the locks prefer. *)
Definition goes_on (p : Process) : Prop := live (threads p) \/ exists p', io_step p p'.

(** ** Work *)

(** Every step uses up work: a completion is sent, polled and handled; a command or a call is sent
    and taken. *)
Definition act_work (a : Act) : nat := match a with Do _ => 2 | _ => 1 end.
Definition todo_work (t : Thr) : nat := sum_list_with act_work (todo t).
Definition handling (e : Handled) : nat := S (sum_list_with act_work (handler e)).
Definition sending (e : Handled) : nat := S (handling e).
Definition loop_work (x : Loop) : nat :=
  length (calls x) + sum_list_with sending (pending x) + sum_list_with (fun es => S (sum_list_with sending es)) (upcoming x) +
  (if down x then 0 else 1).
Definition pair_work (u : WorkerPair) : nat :=
  loop_work (rdma u) + loop_work (uvm u) + cmds u + sum_list_with handling (cq u).
Definition proc_work (p : Process) : nat :=
  sum_list_with todo_work (threads p) + sum_list_with pair_work (pairs p) + (if running p then 1 else 0).

Lemma sum_insert {A} (f : A -> nat) l i x y :
  l !! i = Some x -> sum_list_with f (<[i := y]> l) + f x = sum_list_with f l + f y.
Proof.
  revert i. induction l as [|z l IH]; intros [|i] Hi; csimpl in *; simplify_eq; [lia|]. specialize (IH i Hi). lia.
Qed.

Lemma perform_work i x p p' :
  perform i x p = Some p' -> threads p' = threads p /\ proc_work p' <= S (proc_work p).
Proof.
  destruct x as [w|w sd|w sd| |]; cbn [perform]; intros Hp; repeat case_match; simplify_eq; (split; [done|]);
    unfold proc_work; csimpl; try lia.
  - match goal with H : pairs p !! w = Some ?u |- context [<[w := ?v]> _] => pose proof (sum_insert pair_work _ _ _ v H) as Hs end.
    unfold pair_work in *. csimpl in *. lia.
  - match goal with H : pairs p !! w = Some ?u |- context [<[w := ?v]> _] => pose proof (sum_insert pair_work _ _ _ v H) as Hs end.
    destruct sd; unfold pair_work, loop_work in *; csimpl in *; rewrite length_app in *; csimpl in *; lia.
Qed.

Lemma poll_work us e us' :
  poll us = Some (e, us') -> sum_list_with pair_work us = handling e + sum_list_with pair_work us'.
Proof.
  revert us'. induction us as [|u us IH]; intros us'; [done|]. cbn [poll]. destruct (cq u) as [|e' q] eqn:Eq.
  - destruct (poll us) as [[e'' us'']|]; intros Hp; simplify_eq. specialize (IH us'' eq_refl). cbn [sum_list_with]. lia.
  - intros [= -> <-]. csimpl. unfold pair_work. csimpl. rewrite Eq. csimpl. lia.
Qed.

Lemma loop_step_work halt u u' : loop_step halt u u' -> pair_work u' < pair_work u.
Proof.
  intros [sd i rest Hp Hc|n Hp Hc|sd es more Hp Hu|sd e es Hp Hl|sd Hh Hp Hd];
    first [destruct sd|idtac]; unfold pair_work, loop_work; csimpl in *; rewrite ?Hp, ?Hc, ?Hu, ?Hd; csimpl; rewrite ?sum_list_with_app;
    unfold sending in *; csimpl; lia.
Qed.

Lemma proc_step_work p p' : proc_step p p' -> proc_work p' < proc_work p.
Proof.
  intros [ts Hl|q [i t x rest q' Hi Ht Hx|t e us Hr Hs Hi Ht Hx|t Hr Hs Hi Ht|w u u' Hi Hl]].
  - unfold proc_work. csimpl. destruct Hl as [i t m l rest Hi Ht _|i t l rest Hi Ht];
      match goal with |- context [<[i := ?v]> _] => pose proof (sum_insert todo_work _ _ _ v Hi) as Hs end;
      unfold todo_work in *; csimpl in *; rewrite Ht in *; csimpl in *; lia.
  - apply perform_work in Hx as [Et Hx]. unfold done_to. rewrite Et.
    pose proof (sum_insert todo_work _ _ _ {| holds := holds t; todo := tail (todo t) |} Hi) as Hs.
    unfold todo_work in Hs at 2 4. csimpl in Hs. rewrite Ht in *. csimpl in Hs. unfold proc_work in *. csimpl. rewrite Et in Hx. lia.
  - apply poll_work in Hx. pose proof (sum_insert todo_work _ _ _ {| holds := holds t; todo := handler e |} Hi) as Hw.
    unfold todo_work in Hw at 2 4. rewrite Ht in Hw. unfold handling in Hx. csimpl in *. unfold proc_work. csimpl. lia.
  - unfold proc_work. csimpl. rewrite Hr. lia.
  - apply loop_step_work in Hl. pose proof (sum_insert pair_work _ _ _ u' Hi). unfold proc_work. csimpl. lia.
Qed.

(** ** Calls that cannot block the process *)

(** Methods that detach; callbacks that call nothing; completions whose handling sends nothing. *)
Definition safe_call (c : PyCall) : bool :=
  match c with SubmitImm _ | SubmitWrite _ _ | SubmitPagedWrites _ _ => true | _ => false end.
Definition safe_code (b : list PyCode) : bool :=
  forallb (fun c => match c with SwitchInterval => true | Call c => safe_call c end) b.
Definition quiet (b : list PyCode) : bool :=
  forallb (fun c => match c with SwitchInterval => true | Call _ => false end) b.
Definition quiet_opt (b : option (list PyCode)) : bool :=
  match b with Some b => quiet b | None => true end.
Definition safe_handled (e : Handled) : bool :=
  match e with
  | HTransfer _ b | HSend _ b | HImm b => quiet_opt b
  | HRecv _ b => bool_decide (b = None)
  | HImmCount _ b reps => quiet_opt b && forallb quiet_opt reps
  | HWatch _ b keep => quiet_opt b && (keep || bool_decide (b = None))
  | HErrorTransfer _ b | HErrorSend _ b | HErrorRecv _ b => quiet b
  | HErrorUnknown _ => true
  end.
Definition safe_loop (x : Loop) : bool :=
  forallb safe_handled (pending x) && forallb (forallb safe_handled) (upcoming x).
Definition safe_pair (u : WorkerPair) : bool :=
  safe_loop (rdma u) && safe_loop (uvm u) && forallb safe_handled (cq u).

Definition rank (l : PyLock) : nat :=
  match l with
  | ThreadHandle | ImmFns => 0
  | RecvOps _ | ImmCounts _ | Watchers _ => 1
  | Gil => 2
  | PyImm | HostCache | SendOps _ | TransferOps _ => 3
  end.
Definition written (l : PyLock) : bool :=
  match l with ImmFns | PyImm | ThreadHandle => false | _ => true end.

(** *** The order is respected *)

(** Holding [h] when it starts and when it ends, the program respects the order. *)
Definition neutral (h : list PyLock) (p : list Act) : Prop :=
  forall q, ordered rank written h (p ++ q) = ordered rank written h q.

(** Every lock of [h] comes before the locks of rank [n]. *)
Definition under (n : nat) (h : list PyLock) : Prop := forallb (fun x => rank x <? n) h = true.

Lemma neutral_nil h : neutral h [].
Proof. done. Qed.
Lemma neutral_app h p q : neutral h p -> neutral h q -> neutral h (p ++ q).
Proof. intros Hp Hq r. by rewrite <- app_assoc, Hp, Hq. Qed.
Lemma neutral_mjoin {A} h (f : A -> list Act) l : Forall (fun x => neutral h (f x)) l -> neutral h (mjoin (f <$> l)).
Proof. induction 1; [apply neutral_nil|]. by apply neutral_app. Qed.

Lemma neutral_guarded h m l p :
  written l = true -> under (rank l) h -> neutral (l :: h) p -> neutral h (guarded m l p).
Proof.
  intros Hw Hu Hp q. unfold guarded. cbn [app ordered]. rewrite Hw, Hu. cbn [andb].
  rewrite <- app_assoc, Hp. cbn [app ordered]. by rewrite Hw, bool_decide_true.
Qed.
Lemma neutral_reading h l p : written l = false -> neutral h p -> neutral h (guarded Shared l p).
Proof.
  intros Hw Hp q. unfold guarded. cbn [app ordered]. rewrite Hw. cbn [bool_decide andb].
  rewrite <- app_assoc, Hp. cbn [app ordered]. by rewrite Hw.
Qed.
Lemma neutral_touch h l : written l = true -> under (rank l) h -> neutral h (touch l).
Proof. intros. apply neutral_guarded; [done|done|apply neutral_nil]. Qed.
Lemma neutral_detach h p : under 2 h -> neutral h p -> neutral (Gil :: h) (detach p).
Proof.
  intros Hu Hp q. unfold detach. cbn [app ordered]. rewrite <- app_assoc. cbn [written].
  rewrite bool_decide_true by done. cbn [andb]. rewrite Hp. cbn [app ordered written rank].
  by rewrite Hu.
Qed.
Lemma neutral_do x : neutral [] [Do x].
Proof. done. Qed.

(** Python threads hold nothing but the GIL, and give it back to submit. *)
Lemma neutral_safe b : safe_code b = true -> neutral [Gil] (run_code b).
Proof.
  intros Hb. apply neutral_mjoin, Forall_forall. intros c Hc%list_elem_of_In.
  unfold safe_code in Hb. rewrite forallb_forall in Hb. specialize (Hb c Hc).
  destruct c as [|c]; [by apply neutral_detach|]. destruct c; try done; cbn [code binding];
    (apply neutral_detach; [done|]; apply neutral_app; [by apply neutral_touch|apply neutral_do]).
Qed.
Lemma neutral_quiet h b : under 2 h -> quiet b = true -> neutral (Gil :: h) (run_code b).
Proof.
  intros Hu Hb. apply neutral_mjoin, Forall_forall. intros c Hc%list_elem_of_In.
  unfold quiet in Hb. rewrite forallb_forall in Hb. specialize (Hb c Hc).
  destruct c; [|done]. apply neutral_detach; [done|apply neutral_nil].
Qed.
Lemma neutral_attach h b : under 2 h -> quiet b = true -> neutral h (attach (run_code b)).
Proof. intros. by apply neutral_guarded; [| |apply neutral_quiet]. Qed.
Lemma neutral_attach_opt h b : under 2 h -> quiet_opt b = true -> neutral h (attach_opt b).
Proof. destruct b; [apply neutral_attach|intros; apply neutral_nil]. Qed.
Lemma neutral_imm_data h b : under 2 h -> quiet_opt b = true -> neutral h (imm_data b).
Proof.
  intros Hu Hb. apply neutral_reading; [done|]. destruct b as [b|]; [|apply neutral_nil].
  apply neutral_guarded; [done|done|]. by apply neutral_reading, neutral_quiet.
Qed.

Create HintDb locking.
#[local] Hint Resolve neutral_nil neutral_app neutral_touch neutral_attach neutral_attach_opt neutral_imm_data
  neutral_guarded : locking.
#[local] Hint Extern 1 (under _ _) => reflexivity : locking.
#[local] Hint Extern 1 (written _ = true) => reflexivity : locking.

Lemma neutral_handler e : safe_handled e = true -> neutral [] (handler e).
Proof.
  destruct e as [id b|id b|id b|b|imm b reps|id b keep|id b|id b|id b|id]; cbn [safe_handled handler]; intros He;
    repeat match goal with H : _ && _ = true |- _ => apply andb_prop in H as [? ?] end.
  - auto with locking.
  - apply bool_decide_eq_true in He as ->. auto with locking.
  - destruct b; auto with locking.
  - auto with locking.
  - apply neutral_app; [apply neutral_guarded; auto with locking|]. destruct b; [|apply neutral_nil].
    apply neutral_app; [auto with locking|]. apply neutral_mjoin, Forall_forall. intros r Hr%list_elem_of_In.
    apply neutral_imm_data; [done|]. by eapply forallb_forall.
  - apply neutral_guarded; [done|done|]. apply neutral_app; [auto with locking|].
    destruct b as [b|]; [|apply neutral_nil]. destruct keep; [apply neutral_nil|done].
  - auto with locking.
  - auto with locking.
  - auto 6 with locking.
  - auto 6 with locking.
Qed.

(** *** What is sent *)
Definition only (f : Io -> bool) (p : list Act) : bool :=
  forallb (fun a => match a with Do x => f x | _ => true end) p.
Definition nothing (x : Io) : bool := false.
Definition commands (x : Io) : bool := match x with Command _ => true | _ => false end.

Lemma only_app f p q : only f (p ++ q) = only f p && only f q.
Proof. apply forallb_app. Qed.
Lemma only_guarded f m l p : only f (guarded m l p) = only f p.
Proof. unfold guarded. change (only f (p ++ [Release l]) = only f p). rewrite only_app. apply andb_true_r. Qed.
Lemma only_detach f p : only f (detach p) = only f p.
Proof. unfold detach. change (only f (p ++ [Acquire Exclusive Gil]) = only f p). rewrite only_app. apply andb_true_r. Qed.
Lemma only_mjoin {A} f (g : A -> list Act) l : Forall (fun x => only f (g x) = true) l -> only f (mjoin (g <$> l)) = true.
Proof. induction 1 as [|x l Hx _ IH]; [done|]. csimpl. by rewrite only_app, Hx. Qed.
Lemma only_weaken f p : only nothing p = true -> only f p = true.
Proof. unfold only. rewrite !forallb_forall. intros Hp a Ha. specialize (Hp a Ha). by destruct a. Qed.

Lemma safe_sends b : safe_code b = true -> only commands (attach (run_code b)) = true.
Proof.
  intros Hb. unfold attach. rewrite only_guarded. apply only_mjoin, Forall_forall. intros c Hc%list_elem_of_In.
  unfold safe_code in Hb. rewrite forallb_forall in Hb. specialize (Hb c Hc). destruct c as [|[]]; done.
Qed.
Lemma quiet_sends b : quiet b = true -> only nothing (run_code b) = true.
Proof.
  intros Hb. apply only_mjoin, Forall_forall. intros c Hc%list_elem_of_In.
  unfold quiet in Hb. rewrite forallb_forall in Hb. specialize (Hb c Hc). by destruct c.
Qed.
Lemma quiet_opt_sends b : quiet_opt b = true -> only nothing (attach_opt b) = true.
Proof. destruct b; [|done]. cbn [attach_opt]. unfold attach. rewrite only_guarded. apply quiet_sends. Qed.
Lemma imm_data_sends b : quiet_opt b = true -> only nothing (imm_data b) = true.
Proof. unfold imm_data. rewrite only_guarded. destruct b; [|done]. unfold imm_callback, attach. rewrite !only_guarded. apply quiet_sends. Qed.

Lemma handler_sends e : safe_handled e = true -> only nothing (handler e) = true.
Proof.
  destruct e as [id b|id b|id b|b|imm b reps|id b keep|id b|id b|id b|id]; cbn [safe_handled handler]; intros He;
    repeat match goal with H : _ && _ = true |- _ => apply andb_prop in H as [? ?] end; unfold touch, attach;
    rewrite ?only_app, ?only_guarded; cbn [only forallb andb]; rewrite ?quiet_opt_sends, ?quiet_sends by done; try done.
  - by apply bool_decide_eq_true in He as ->.
  - by destruct b.
  - by apply imm_data_sends.
  - destruct b; [|done]. rewrite only_app, only_guarded. apply only_mjoin, Forall_forall. intros r Hr%list_elem_of_In.
    apply imm_data_sends. by eapply forallb_forall.
  - rewrite only_app, quiet_opt_sends by done. by destruct b as [b|]; [destruct keep|].
Qed.

(** *** The invariant *)
Record safe_process (p : Process) : Prop := {
  sp_obeys : Forall (obeys rank written) (threads p);
  sp_commands : Forall (fun t => only commands (todo t) = true) (threads p);
  sp_callbacks : exists t, threads p !! 0 = Some t /\ only nothing (todo t) = true;
  sp_pairs : Forall (fun u => safe_pair u = true) (pairs p);
  sp_runs : stopped p = false /\ running p = true;
}.

Lemma process_safe pys us :
  forallb safe_code pys = true -> forallb safe_pair us = true -> safe_process (process pys us).
Proof.
  rewrite !forallb_forall. intros Hp Hu. split; csimpl.
  - constructor; [by split; [|constructor]|]. apply Forall_fmap, Forall_forall. intros b Hb%list_elem_of_In. split; [|constructor].
    change (ordered rank written [] (attach (run_code b)) = true). rewrite <- (app_nil_r (attach _)).
    unfold attach. by rewrite (neutral_guarded [] Exclusive Gil); [|done|done|apply neutral_safe, Hp].
  - constructor; [done|]. apply Forall_fmap, Forall_forall. intros b Hb%list_elem_of_In. by apply safe_sends, Hp.
  - by eexists.
  - apply Forall_forall. intros u Hin%list_elem_of_In. by apply Hu.
  - done.
Qed.

(** A thread that goes on keeps to what it may send. *)
Lemma only_tail f (t : Thr) : only f (todo t) = true -> only f (tail (todo t)) = true.
Proof. destruct (todo t); [done|]. cbn [only forallb tail]. by intros [_ ?]%andb_prop. Qed.

Lemma goes_commands (ts : list Thr) i t t' :
  ts !! i = Some t -> todo t' = tail (todo t) ->
  Forall (fun t => only commands (todo t) = true) ts -> Forall (fun t => only commands (todo t) = true) (<[i := t']> ts).
Proof.
  intros Hi Ht Hall. apply Forall_insert; [done|]. rewrite Ht. apply only_tail. by eapply Forall_lookup_1 in Hall.
Qed.

Lemma goes_callbacks (ts : list Thr) i t t' :
  ts !! i = Some t -> todo t' = tail (todo t) ->
  (exists t, ts !! 0 = Some t /\ only nothing (todo t) = true) ->
  exists t, <[i := t']> ts !! 0 = Some t /\ only nothing (todo t) = true.
Proof.
  intros Hi Ht (t0 & H0 & Hn). destruct i as [|i].
  - exists t'. simplify_eq. split; [by eapply list_lookup_insert_eq, lookup_lt_Some|]. rewrite Ht. by apply only_tail.
  - exists t0. by rewrite list_lookup_insert_ne.
Qed.

Lemma command_safe i w p p' :
  perform i (Command w) p = Some p' -> Forall (fun u => safe_pair u = true) (pairs p) ->
  threads p' = threads p /\ stopped p' = stopped p /\ running p' = running p /\ Forall (fun u => safe_pair u = true) (pairs p').
Proof.
  cbn [perform]. intros Hx Hp. repeat case_match; simplify_eq; [by split_and!| |by split_and!].
  split_and!; try done. csimpl. apply Forall_insert; [done|].
  match goal with H : pairs p !! w = Some _ |- _ => exact (Forall_lookup_1 _ _ _ _ Hp H) end.
Qed.

Lemma poll_safe us e us' :
  poll us = Some (e, us') -> Forall (fun u => safe_pair u = true) us ->
  safe_handled e = true /\ Forall (fun u => safe_pair u = true) us'.
Proof.
  revert us'. induction us as [|u us IH]; intros us'; [done|]. cbn [poll]. intros Hp [Hu Hus]%Forall_cons.
  destruct (cq u) as [|e' q] eqn:Eq.
  - destruct (poll us) as [[e'' us'']|]; simplify_eq. destruct (IH us'') as [? ?]; [done|done|]. split; [done|by constructor].
  - simplify_eq. unfold safe_pair in *. rewrite Eq in Hu. cbn [forallb] in Hu.
    apply andb_prop in Hu as [Hl [He Hq]%andb_prop]. split; [done|]. constructor; [|done]. csimpl. by rewrite Hl, Hq.
Qed.

Lemma loop_step_safe halt u u' : loop_step halt u u' -> safe_pair u = true -> safe_pair u' = true.
Proof.
  unfold safe_pair, safe_loop. rewrite !andb_true_iff. intros Hs (([Hp Hu] & [Hp' Hu']) & Hq).
  destruct Hs as [sd i rest Hpe Hc|n Hpe Hc|sd es more Hpe Hup|sd e es Hpe Hl|sd Hh Hpe Hd];
    first [destruct sd|idtac]; csimpl in *; rewrite ?Hpe, ?Hup, ?forallb_app in *; csimpl in *; rewrite ?andb_true_iff in *; naive_solver.
Qed.

(** A thread that performs something holds no lock of the order. *)
Lemma do_obeys (t : Thr) x rest :
  obeys rank written t -> todo t = Do x :: rest -> obeys rank written {| holds := holds t; todo := tail (todo t) |}.
Proof.
  intros [Ho Hw] Ht. split; [|done]. rewrite Ht in *. cbn [ordered tail todo] in *. unfold counted in *. csimpl.
  by destruct (List.filter written (holds t).*2).
Qed.
Lemma idle_obeys (t : Thr) e :
  obeys rank written t -> todo t = [] -> safe_handled e = true -> obeys rank written {| holds := holds t; todo := handler e |}.
Proof.
  intros [Ho Hw] Ht He. split; [|done]. rewrite Ht in Ho. cbn [ordered todo] in *. unfold counted in *. csimpl.
  destruct (List.filter written (holds t).*2); [|done]. rewrite <- (app_nil_r (handler e)). by rewrite (neutral_handler e He).
Qed.

Lemma step_safe p p' : safe_process p -> proc_step p p' -> safe_process p'.
Proof.
  intros [Ho Hc Hb Hp [Hs Hr]] [ts Hl|q [i t x rest q' Hi Ht Hx|t e us _ _ Hi Ht Hx|t _ Hs' _ _|w u u' Hi Hl]].
  - split; csimpl; [by eapply step_obeys| | |done|done];
      destruct Hl as [i t m l rest Hi Ht _|i t l rest Hi Ht]; by eauto using goes_commands, goes_callbacks.
  - assert (commands x = true) as Hx'.
    { eapply Forall_lookup_1 in Hc; [|exact Hi]. rewrite Ht in Hc. by apply andb_prop in Hc as [? _]. }
    destruct x as [w| | | |]; try done. apply command_safe in Hx as (Et & Es & Er & Hp'); [|done].
    split; csimpl; rewrite ?Et, ?Es, ?Er; [| | |done|done].
    + apply Forall_insert; [done|]. eapply do_obeys; [by eapply Forall_lookup_1|done].
    + by eapply goes_commands.
    + by eapply goes_callbacks.
  - apply poll_safe in Hx as [He Hus]; [|done]. split; csimpl; [| | |done|done].
    + apply Forall_insert; [done|]. apply idle_obeys; [by eapply Forall_lookup_1|done|done].
    + apply Forall_insert; [done|]. by apply only_weaken, handler_sends.
    + eexists. split; [by eapply list_lookup_insert_eq, lookup_lt_Some|]. by apply handler_sends.
  - congruence.
  - split; csimpl; [done..| |done]. apply Forall_insert; [done|]. eapply loop_step_safe; [done|]. by eapply (Forall_lookup_1 _ _ _ _ Hp).
Qed.

(** *** Progress *)
Lemma poll_none us : poll us = None -> Forall (fun u => cq u = []) us.
Proof.
  induction us as [|u us IH]; [constructor|]. cbn [poll]. destruct (cq u) eqn:Eq; [|done].
  destruct (poll us) as [[]|]; [done|]. constructor; auto.
Qed.

(** A worker with an empty completion channel goes on until it is idle. *)
Lemma pair_goes halt u : cq u = [] -> idle_pair u \/ exists u', loop_step halt u u'.
Proof.
  intros Hq. assert (forall sd, idle_loop (loop_of sd u) \/ exists u', loop_step halt u u') as Hl.
  { intros sd. destruct (pending (loop_of sd u)) as [|e es] eqn:Ep.
    - destruct (calls (loop_of sd u)) as [|i rest] eqn:Ec; [|right; eexists; by eapply Answer].
      destruct (upcoming (loop_of sd u)) as [|es more] eqn:Eu; [|right; eexists; by eapply Progress]. by left.
    - right. eexists. eapply SendCompletion; [done|]. rewrite Hq. unfold capacity. csimpl. lia. }
  destruct (Hl Rdma) as [Hr|]; [|by right]. destruct (Hl Uvm) as [Hu|]; [|by right].
  destruct (cmds u) as [|n] eqn:Ec; [by left|]. right. eexists. eapply TakeCommand; [apply Hr|done].
Qed.

Lemma pairs_go p :
  poll (pairs p) = None -> Forall idle_pair (pairs p) \/ exists p', io_step p p'.
Proof.
  intros Hq%poll_none.
  assert (forall us, Forall (fun u => cq u = []) us -> Forall idle_pair us \/ exists w u u', us !! w = Some u /\ loop_step (stopped p) u u')
    as Hgo.
  { induction 1 as [|u us Hu _ IH]; [by left|]. destruct (pair_goes (stopped p) u Hu) as [?|[u' ?]]; [|right; by exists 0, u, u'].
    destruct IH as [?|(w & v & v' & ? & ?)]; [left; by constructor|right; by exists (S w), v, v']. }
  destruct (Hgo _ Hq) as [?|(w & u & u' & Hw & Hs)]; [by left|right]. eexists. by eapply IoLoop.
Qed.

Lemma safe_goes_on p : safe_process p -> complete p \/ goes_on p.
Proof.
  intros [Ho Hc (t0 & H0 & Hn) _ [Hs Hr]].
  destruct (ordered_live rank written (threads p) 3) as [Hpast|Hl]; [by intros []; cbn; lia|done| |by right; left].
  assert (todo t0 = []) as Ht0.
  { eapply (Forall_lookup_1 _ _ _ _ Hpast) in H0. unfold past_locks in H0. by destruct (todo t0) as [|[]]. }
  destruct (poll (pairs p)) as [[e us]|] eqn:Ep; [right; right; eexists; by eapply IoPoll|].
  destruct (pairs_go p Ep) as [Hidle|]; [|by right; right].
  assert (forall i t x rest, threads p !! i = Some t -> todo t = Do x :: rest -> goes_on p) as Hdo.
  { intros i t x rest Hi Ht. right. eapply (Forall_lookup_1 _ _ _ _ Hc) in Hi as Hx. cbn beta in Hx. rewrite Ht in Hx.
    apply andb_prop in Hx as [Hx _]. destruct x as [w| | | |]; try done.
    assert (exists p', perform i (Command w) p = Some p') as [p' Hp'].
    { cbn [perform]. destruct (pairs p !! w) as [u|] eqn:Eu; [|by eexists]. destruct (down (rdma u)); [by eexists|].
      destruct (Forall_lookup_1 _ _ _ _ Hidle Eu) as (_ & _ & -> & _). by eexists. }
    eexists. by eapply IoDo. }
  destruct (decide (Forall (fun t => length (todo t) = 0) (threads p))) as [Hall|Hex].
  - left. split; [|done]. eapply Forall_impl; [exact Hall|]. intros t. apply length_zero_iff_nil.
  - right. apply not_Forall_Exists, Exists_exists in Hex as (t & (i & Hi)%list_elem_of_lookup & Ht); [|intros ?; apply _].
    pose proof (Forall_lookup_1 _ _ _ _ Hpast Hi) as Hp. unfold past_locks in Hp. unfold compose in Ht.
    destruct (todo t) as [|[| |x] rest] eqn:Et; try done. by eapply Hdo.
Qed.

Lemma goes_on_steps p : goes_on p -> exists p', proc_step p p'.
Proof. intros [[ts Hl]%live_steps|[p' Hs]]; eexists; [by apply StepLock|by apply StepIo]. Qed.


(** ** Calls that can *)

(** The Python callback a completion runs first. *)
Definition python_of (e : Handled) : option (list PyCode) :=
  match e with
  | HTransfer _ b | HRecv _ b | HSend _ b | HImm b | HImmCount _ b _ | HWatch _ b _ => b
  | HErrorTransfer _ b | HErrorSend _ b | HErrorRecv _ b => Some b
  | HErrorUnknown _ => None
  end.

(** Thread [i] never goes on, whatever happens. *)
Definition stuck (i : nat) (p : Process) : Prop :=
  exists t, threads p !! i = Some t /\ todo t <> [] /\ forall p', rtc proc_step p p' -> threads p' !! i = Some t.

(** The worker's thread never sends its next completion. *)
Definition worker_stuck (w : nat) (p : Process) : Prop :=
  forall p', rtc proc_step p p' -> exists u, pairs p' !! w = Some u /\ pending (rdma u) <> [] /\ capacity <= length (cq u).

(** Calls and completions that wait for each other. *)
Inductive conflict : PyCall -> Handled -> Prop :=
  | ConflictCount imm imm' body reps :
      shard imm = shard imm' -> conflict (SetImmCountExpected imm') (HImmCount imm (Some body) reps)
  | ConflictRemove imm imm' body reps :
      shard imm = shard imm' -> conflict (RemoveImmCount imm') (HImmCount imm (Some body) reps)
  | ConflictWatch id id' body keep :
      shard id = shard id' -> conflict (AllocScalarWatcher id') (HWatch id (Some body) keep)
  | ConflictRecv id id' ids body :
      shard id = shard id' -> conflict (SubmitBouncingRecvs (id' :: ids)) (HRecv id (Some body))
  | ConflictStop e : python_of e <> None -> conflict StopEngine e
  | ConflictImm first body :
      conflict (SetImmCallback first) (HImm (Some (SwitchInterval :: body))).

(** Calls that wait with the GIL for the main worker's thread. *)
Definition asks_worker (c : PyCall) : bool :=
  match c with
  | RegisterMemory 0 | UnregisterMemory | SubmitSend _ true | SubmitBouncingRecvs _ => true
  | _ => false
  end.

(** *** Threads that wait *)
Definition frozen (i : nat) (t : Thr) (p : Process) : Prop :=
  match todo t with
  | Acquire m l :: _ => may_grant (threads p) m l = false
  | Do x :: _ => perform i x p = None
  | _ => False
  end.

Lemma frozen_stays i t p p' :
  threads p !! i = Some t -> frozen i t p -> proc_step p p' -> threads p' !! i = Some t.
Proof.
  unfold frozen. intros Hi Hf [ts [j t' m l rest Hj Ht Hg|j t' l rest Hj Ht]|q [j t' x rest q' Hj Ht Hx|t' e us Hr Hs Hj Ht Hx|t' Hr Hs Hj Ht|w u u' Hw Hl]];
    csimpl; try done.
  1,2: destruct (decide (i = j)) as [<-|Hne]; [simplify_eq; rewrite Ht in Hf; csimpl in Hf; (done || congruence)|by rewrite list_lookup_insert_ne].
  - destruct (perform_work _ _ _ _ Hx) as [-> _].
    destruct (decide (i = j)) as [<-|Hne]; [simplify_eq; rewrite Ht in Hf; csimpl in Hf; (done || congruence)|by rewrite list_lookup_insert_ne].
  - destruct (decide (i = 0)) as [->|Hne]; [simplify_eq; by rewrite Ht in Hf|by rewrite list_lookup_insert_ne].
Qed.

Lemma rtc_keeps (I : Process -> Prop) p p' :
  (forall p p', I p -> proc_step p p' -> I p') -> I p -> rtc proc_step p p' -> I p'.
Proof. intros Hstep Hp Hr. induction Hr as [|p1 p2 p3 H12 _ IH]; [done|]. by eapply IH, Hstep. Qed.

(** What holds for good while the thread is frozen keeps it stuck. *)
Lemma stuck_by (I : Process -> Prop) p :
  I p -> (forall p p', I p -> proc_step p p' -> I p') ->
  forall i t, todo t <> [] -> (forall p, I p -> threads p !! i = Some t) -> stuck i p.
Proof.
  intros Hp Hstep i t Ht Hi. exists t. split; [by apply Hi|]. split; [done|]. intros p' Hr. apply Hi. by eapply rtc_keeps.
Qed.

(** The callback thread waits for the GIL; the holder of the GIL waits for a lock of the callback
    thread, or for the thread itself. *)
Record crossed (t0 t1 : Thr) (p : Process) : Prop := {
  cr_callback : threads p !! 0 = Some t0;
  cr_python : threads p !! 1 = Some t1;
  cr_needs : head (todo t0) = Some (Acquire Exclusive Gil);
  cr_holds : Gil ∈ (holds t1).*2;
  cr_waits : (exists l, head (todo t1) = Some (Acquire Exclusive l) /\ l ∈ (holds t0).*2) \/
             (head (todo t1) = Some (Do Join) /\ running p = true);
}.

Lemma running_stays p p' t :
  threads p !! 0 = Some t -> todo t <> [] -> proc_step p p' -> running p' = running p.
Proof.
  intros Hi Ht [ts _|q [j t' x rest q' Hj Ht' Hx|t' e us Hr Hs Hj Ht' Hx|t' Hr Hs Hj Ht'|w u u' Hw Hl]]; try done.
  - destruct x; cbn [perform] in Hx; repeat case_match; by simplify_eq.
  - by simplify_eq.
Qed.

Lemma crossed_frozen t0 t1 p : crossed t0 t1 p -> frozen 0 t0 p /\ frozen 1 t1 p.
Proof.
  intros [H0 H1 Hn Hh Hw]. unfold frozen. destruct (todo t0) as [|a0 r0]; csimpl in Hn; simplify_eq. split; [exact (held_not_granted _ 1 t1 _ H1 Hh)|].
  destruct (todo t1) as [|a1 r1]; [by destruct Hw as [(l & ? & _)|[? _]]|]. csimpl in Hw.
  destruct Hw as [(l & [= ->] & Hl)|[[= ->] Hr]]; [exact (held_not_granted _ 0 t0 l H0 Hl)|]. cbn [perform]. by rewrite Hr.
Qed.

Lemma crossed_stuck t0 t1 p : crossed t0 t1 p -> stuck 0 p /\ stuck 1 p.
Proof.
  intros Hc. assert (forall p p', crossed t0 t1 p -> proc_step p p' -> crossed t0 t1 p') as Hstep.
  { intros q q' Hq Hs. destruct (crossed_frozen _ _ _ Hq) as [F0 F1]. destruct Hq as [H0 H1 Hn Hh Hw].
    split; [by eapply frozen_stays|by eapply frozen_stays|done|done|]. destruct Hw as [?|[? Hr]]; [by left|right].
    split; [done|]. rewrite <- Hr. eapply running_stays; [exact H0| |done]. by destruct (todo t0). }
  split; (eapply (stuck_by (crossed t0 t1)); [done|done| |by intros q []]).
  - destruct Hc as [_ _ Hn _ _]. by destruct (todo t0).
  - destruct Hc as [_ _ _ _ Hw]. destruct (todo t1); [|done]. by destruct Hw as [(l & ? & _)|[? _]].
Qed.

(** *** A worker that waits *)

(** The worker's thread waits for room in the completion channel, and what is queued for it stays
    queued. *)
Definition jam_pair (cs : list nat) (n : nat) (u : WorkerPair) : Prop :=
  pending (rdma u) <> [] /\ capacity <= length (cq u) /\ down (rdma u) = false /\ cs ⊆ calls (rdma u) /\ n <= cmds u.

Lemma loop_step_jam cs n halt u u' : loop_step halt u u' -> jam_pair cs n u -> jam_pair cs n u'.
Proof.
  intros Hs (Hp & Hq & Hd & Hc & Hn).
  destruct Hs as [sd i rest Hpe Hca|k Hpe Hca|sd es more Hpe Hup|sd e es Hpe Hl|sd Hh Hpe Hd'];
    first [destruct sd|idtac]; csimpl in *; try done; try lia; by split_and!.
Qed.

Lemma perform_jam cs n i x p p' u :
  perform i x p = Some p' -> pairs p !! 0 = Some u -> jam_pair cs n u ->
  exists u', pairs p' !! 0 = Some u' /\ jam_pair cs n u'.
Proof.
  intros Hx H0 Hj. destruct x as [w|w sd|w sd| |]; cbn [perform] in Hx; repeat case_match; simplify_eq; eauto; csimpl;
    (destruct (decide (w = 0)) as [->|Hne]; [|by exists u; rewrite list_lookup_insert_ne]);
    simplify_eq; (eexists; split; [by eapply list_lookup_insert_eq, lookup_lt_Some|]); destruct Hj as (Hp & Hq & Hd & Hc & Hn).
  - split_and!; csimpl; try done. lia.
  - destruct sd; split_and!; csimpl; try done. set_solver.
Qed.

Definition jam (cs : list nat) (n : nat) (p : Process) : Prop := exists u, pairs p !! 0 = Some u /\ jam_pair cs n u.

(** Only the callback thread could make room. *)
Lemma jam_stays cs n p p' t :
  threads p !! 0 = Some t -> todo t <> [] -> proc_step p p' -> jam cs n p -> jam cs n p'.
Proof.
  intros Hi Ht [ts _|q [j t' x rest q' Hj Ht' Hx|t' e us Hr Hs Hj Ht' Hx|t' Hr Hs Hj Ht'|w u u' Hw Hl]] (v & H0 & Hv);
    try (by exists v); csimpl.
  - destruct (perform_jam _ _ _ _ _ _ _ Hx H0 Hv) as (v' & ? & ?). by exists v'.
  - by simplify_eq.
  - destruct (decide (w = 0)) as [->|Hne]; [|exists v; csimpl; by rewrite list_lookup_insert_ne]. simplify_eq.
    exists u'. split; [by eapply list_lookup_insert_eq, lookup_lt_Some|]. by eapply loop_step_jam.
Qed.

(** The callback thread waits for the GIL, its holder for an answer of the worker, and the worker for
    room in the channel the callback thread reads. *)
Record asked (t0 t1 : Thr) (p : Process) : Prop := {
  as_callback : threads p !! 0 = Some t0;
  as_python : threads p !! 1 = Some t1;
  as_needs : head (todo t0) = Some (Acquire Exclusive Gil);
  as_holds : Gil ∈ (holds t1).*2;
  as_waits : head (todo t1) = Some (Do (AwaitReply 0 Rdma));
  as_jam : jam [1] 0 p;
}.

(** The callback thread waits for room among the commands. *)
Record rearming (t0 : Thr) (p : Process) : Prop := {
  ra_callback : threads p !! 0 = Some t0;
  ra_waits : head (todo t0) = Some (Do (Command 0));
  ra_jam : jam [] capacity p;
}.

Lemma asked_step t0 t1 p p' : asked t0 t1 p -> proc_step p p' -> asked t0 t1 p'.
Proof.
  intros [H0 H1 Hn Hh Hw Hj] Hs. assert (todo t0 <> []) by (by destruct (todo t0)).
  split; [| |done|done|done|by eapply jam_stays].
  - eapply frozen_stays; [done| |done]. unfold frozen. destruct (todo t0); csimpl in Hn; simplify_eq.
    exact (held_not_granted _ 1 t1 _ H1 Hh).
  - eapply frozen_stays; [done| |done]. unfold frozen. destruct (todo t1); csimpl in Hw; simplify_eq.
    destruct Hj as (u & Hu & _ & _ & _ & Hc & _). cbn [perform]. rewrite Hu. rewrite decide_True; [done|]. set_solver.
Qed.

Lemma rearming_step t0 p p' : rearming t0 p -> proc_step p p' -> rearming t0 p'.
Proof.
  intros [H0 Hw Hj] Hs. assert (todo t0 <> []) by (by destruct (todo t0)). split; [|done|by eapply jam_stays].
  eapply frozen_stays; [done| |done]. unfold frozen. destruct (todo t0); csimpl in Hw; simplify_eq.
  destruct Hj as (u & Hu & _ & _ & Hd & _ & Hc). cbn [perform]. by rewrite Hu, Hd, (proj2 (Nat.ltb_ge _ _)).
Qed.

Lemma jam_worker_stuck (I : Process -> Prop) cs n p :
  (forall p p', I p -> proc_step p p' -> I p') -> (forall p, I p -> jam cs n p) -> I p -> worker_stuck 0 p.
Proof.
  intros Hstep Hj Hp p' Hr. destruct (Hj p') as (u & Hu & Hpe & Hq & _); [by eapply rtc_keeps|]. by exists u.
Qed.

Lemma asked_stuck t0 t1 p : asked t0 t1 p -> stuck 0 p /\ stuck 1 p /\ worker_stuck 0 p.
Proof.
  intros Ha. split; [|split].
  - eapply (stuck_by (asked t0 t1)); [done|apply asked_step| |by intros q []]. destruct Ha as [_ _ Hn _ _ _]. by destruct (todo t0).
  - eapply (stuck_by (asked t0 t1)); [done|apply asked_step| |by intros q []]. destruct Ha as [_ _ _ _ Hw _]. by destruct (todo t1).
  - eapply (jam_worker_stuck (asked t0 t1)); [apply asked_step|by intros q []|done].
Qed.

Lemma rearming_stuck t0 p : rearming t0 p -> stuck 0 p /\ worker_stuck 0 p.
Proof.
  intros Ha. split.
  - eapply (stuck_by (rearming t0)); [done|apply rearming_step| |by intros q []]. destruct Ha as [_ Hw _]. by destruct (todo t0).
  - eapply (jam_worker_stuck (rearming t0)); [apply rearming_step|by intros q []|done].
Qed.

(** *** Executions *)
Lemma locks_run p ts ts' : rtc lock_step ts ts' -> rtc proc_step (with_threads ts p) (with_threads ts' p).
Proof.
  induction 1 as [|ts1 ts2 ts3 Hs _ IH]; [done|]. eapply rtc_l; [|exact IH].
  exact (StepLock (with_threads ts1 p) ts2 Hs).
Qed.

(** The thread takes or releases a lock. *)
Ltac thread_goes i :=
  eapply rtc_l;
  [first [eapply (StepAcquire _ i); [reflexivity|reflexivity|reflexivity]
         |eapply (StepRelease _ i); [reflexivity|reflexivity]]
  |cbn [list_insert insert]; unfold acquired, released; cbn [holds todo tail drop_lock];
   rewrite ?decide_True by reflexivity].
(** What the callback thread holds when it needs the GIL for the first time. *)
Definition held_at_gil (e : Handled) : list (Mode * PyLock) :=
  match e with
  | HRecv id _ => [(Shared, RecvOps (shard id))]
  | HImm _ => [(Shared, ImmFns)]
  | HImmCount imm _ _ => [(Shared, ImmCounts (shard imm))]
  | HWatch id _ _ => [(Shared, Watchers (shard id))]
  | _ => []
  end.

Lemma reach_gil e b :
  python_of e <> None -> exists r,
    rtc lock_step [{| holds := []; todo := handler e |}; python_thread b]
      [{| holds := held_at_gil e; todo := Acquire Exclusive Gil :: r |}; python_thread b].
Proof.
  destruct e as [id [b'|]|id [b'|]|id [b'|]|[b'|]|imm [b'|] reps|id [b'|] keep|id b'|id b'|id b'|id]; intros He; try done; eexists;
    [do 2 thread_goes 0|do 1 thread_goes 0|do 4 thread_goes 0|do 1 thread_goes 0|do 1 thread_goes 0|do 1 thread_goes 0
    |do 2 thread_goes 0|do 6 thread_goes 0|do 6 thread_goes 0]; apply rtc_refl.
Qed.

(** The worker sends completions while there is room. *)
Lemma fill ts cs es1 es2 up uv n q us st :
  length q + length es1 <= capacity ->
  rtc proc_step
    {| threads := ts; stopped := st; running := true;
       pairs := {| rdma := {| calls := cs; pending := es1 ++ es2; upcoming := up; down := false |}; uvm := uv; cmds := n; cq := q |} :: us |}
    {| threads := ts; stopped := st; running := true;
       pairs := {| rdma := {| calls := cs; pending := es2; upcoming := up; down := false |}; uvm := uv; cmds := n; cq := q ++ es1 |} :: us |}.
Proof.
  revert q. induction es1 as [|e es1 IH]; intros q Hl; csimpl in *; [by rewrite app_nil_r|].
  eapply rtc_l; [apply StepIo; eapply (IoLoop _ 0); [reflexivity|eapply (SendCompletion _ _ Rdma); [reflexivity|csimpl; lia]]|].
  csimpl. rewrite (cons_middle e q es1), app_assoc. apply IH. rewrite length_app. csimpl. lia.
Qed.

Lemma handling_reaches_gil e q b u us :
  cq u = e :: q -> python_of e <> None -> exists r,
    rtc proc_step (process [b] (u :: us))
      {| threads := [{| holds := held_at_gil e; todo := Acquire Exclusive Gil :: r |}; python_thread b];
         pairs := with_cq q u :: us; stopped := false; running := true |}.
Proof.
  intros Hq He. destruct (reach_gil e b He) as [r Hr]. exists r. eapply rtc_l.
  { apply StepIo. eapply IoPoll; [reflexivity..|]. cbn [pairs process poll]. by rewrite Hq. }
  exact (locks_run {| threads := []; pairs := with_cq q u :: us; stopped := false; running := true |} _ _ Hr).
Qed.

(** The GIL and the cache of buffers are free when the callback thread needs the GIL. *)
Lemma gil_free e (r : list Act) b : may_grant [{| holds := held_at_gil e; todo := r |}; python_thread b] Exclusive Gil = true.
Proof. by destruct e. Qed.
Lemma cache_free e (r r' : list Act) : may_grant [{| holds := held_at_gil e; todo := r |}; {| holds := [(Exclusive, Gil)]; todo := r' |}] Exclusive HostCache = true.
Proof. by destruct e. Qed.

Lemma second_acquires (t0 : Thr) h l k :
  may_grant [t0; {| holds := h; todo := Acquire Exclusive l :: k |}] Exclusive l = true ->
  lock_step [t0; {| holds := h; todo := Acquire Exclusive l :: k |}] [t0; {| holds := (Exclusive, l) :: h; todo := k |}].
Proof.
  intros Hg. exact (StepAcquire [t0; {| holds := h; todo := Acquire Exclusive l :: k |}] 1
    {| holds := h; todo := Acquire Exclusive l :: k |} Exclusive l k eq_refl eq_refl Hg).
Qed.

(** The thread that asks the worker gets the GIL and waits for the answer. *)
Lemma asking_calls c rest e (r : list Act) :
  asks_worker c = true -> exists h k, Gil ∈ h.*2 /\
    rtc lock_step [{| holds := held_at_gil e; todo := r |}; python_thread (Call c :: rest)]
      [{| holds := held_at_gil e; todo := r |}; {| holds := h; todo := call_thread 0 Rdma ++ k |}].
Proof.
  intros Hc. destruct c as [[|w]| | | | |id [|]|ids| | | | |]; try done.
  1,2,4: exists [(Exclusive, Gil)]; eexists; split; [set_solver|]; apply rtc_once; exact (second_acquires _ _ Gil _ (gil_free e r _)).
  exists [(Exclusive, HostCache); (Exclusive, Gil)]. eexists. split; [set_solver|].
  eapply rtc_l; [exact (second_acquires _ _ Gil _ (gil_free e r _))|]. apply rtc_once.
  exact (second_acquires _ _ HostCache _ (cache_free e r _)).
Qed.

Lemma call_queued sd ts i t k u us :
  ts !! i = Some t -> todo t = call_thread 0 sd ++ k -> calls (loop_of sd u) = [] -> down (loop_of sd u) = false ->
  proc_step {| threads := ts; pairs := u :: us; stopped := false; running := true |}
    {| threads := <[i := {| holds := holds t; todo := Do (AwaitReply 0 sd) :: k |}]> ts;
       pairs := with_loop sd (with_calls [i] (loop_of sd u)) u :: us; stopped := false; running := true |}.
Proof.
  intros Hi Ht Hc Hd. apply StepIo. set (p := {| threads := ts; pairs := u :: us; stopped := false; running := true |}).
  assert (perform i (CallThread 0 sd) p = Some (with_pairs (with_loop sd (with_calls [i] (loop_of sd u)) u :: us) p)) as Hx.
  { subst p. cbn -[capacity]. by rewrite Hd, Hc. }
  pose proof (IoDo p i t _ _ _ Hi Ht Hx) as Hs. unfold done_to in Hs. rewrite Ht in Hs. exact Hs.
Qed.

(** A thread that does not wait answers. *)
Lemma call_answered sd (t0 : Thr) h k u us :
  calls (loop_of sd u) = [] -> pending (loop_of sd u) = [] -> down (loop_of sd u) = false ->
  rtc proc_step
    {| threads := [t0; {| holds := h; todo := call_thread 0 sd ++ k |}]; pairs := u :: us; stopped := false; running := true |}
    {| threads := [t0; {| holds := h; todo := k |}]; pairs := u :: us; stopped := false; running := true |}.
Proof.
  intros Hc Hp Hd. eapply rtc_l; [by eapply (call_queued sd _ 1)|]. cbn [insert list_insert holds].
  destruct u as [[c1 p1 u1 d1] [c2 p2 u2 d2] n q]. destruct sd; cbn in Hc, Hp, Hd; subst;
    (eapply rtc_l; [apply StepIo; eapply (IoLoop _ 0); [reflexivity|first [by eapply (Answer _ _ Rdma)|by eapply (Answer _ _ Uvm)]]|]);
    (eapply rtc_l; [apply StepIo; eapply (IoDo _ 1); reflexivity|apply rtc_refl]).
Qed.

Lemma split_batch (es : list Handled) :
  capacity < length es -> exists es1 es2, es = es1 ++ es2 /\ length es1 = capacity /\ es2 <> [].
Proof.
  intros Hl. exists (take capacity es), (drop capacity es). split; [by rewrite take_drop|]. rewrite length_take.
  split; [lia|]. intros Hd%(f_equal length). rewrite length_drop in Hd. cbn [length] in Hd. lia.
Qed.

(** Calls that wait for the main worker's thread with the GIL can block the process for ever.  A
    Python thread registers or unregisters memory, submits receives, or sends data for which a new
    buffer is registered, while the worker delivers 130 completions or more, the first with a Python
    callback: an execution leads to a state in which neither the callback thread, nor the Python
    thread, nor the worker's thread ever goes on. *)
Theorem waiting_calls_deadlock c rest e es more uv n us :
  asks_worker c = true -> python_of e <> None -> capacity < length es ->
  exists p, rtc proc_step (process [Call c :: rest]
      ({| rdma := {| calls := []; pending := []; upcoming := (e :: es) :: more; down := false |};
          uvm := uv; cmds := n; cq := [] |} :: us)) p /\
    stuck 0 p /\ stuck 1 p /\ worker_stuck 0 p.
Proof.
  intros Hc He (es1 & es2 & -> & Hl & Hes)%split_batch.
  destruct (handling_reaches_gil e [] (Call c :: rest) {| rdma := {| calls := []; pending := es1 ++ es2; upcoming := more; down := false |};
    uvm := uv; cmds := n; cq := [e] |} us eq_refl He) as [r Hr].
  destruct (asking_calls c rest e (Acquire Exclusive Gil :: r) Hc) as (h & k & Hg & Hk). eexists. split.
  { eapply rtc_l; [apply StepIo; eapply (IoLoop _ 0); [reflexivity|eapply (Progress _ _ Rdma); reflexivity]|].
    eapply rtc_l; [apply StepIo; eapply (IoLoop _ 0); [reflexivity|eapply (SendCompletion _ _ Rdma); [reflexivity|cbn; unfold capacity; lia]]|].
    etrans; [exact Hr|]. etrans; [exact (locks_run {| threads := []; pairs := _ |} _ _ Hk)|].
    eapply rtc_l; [by eapply (call_queued Rdma _ 1)|]. apply fill. cbn -[capacity]. lia. }
  eapply asked_stuck. split; [reflexivity|reflexivity|done|done|done|]. eexists. split; [reflexivity|].
  split_and!; cbn -[capacity]; try done; lia.
Qed.

(** The Python thread goes on to what it will not get. *)
Lemma conflict_crosses c e rest r u us :
  conflict c e -> (forall first, c <> SetImmCallback first) ->
  (forall sd, calls (loop_of sd u) = [] /\ pending (loop_of sd u) = [] /\ down (loop_of sd u) = false) ->
  exists p t1, crossed {| holds := held_at_gil e; todo := Acquire Exclusive Gil :: r |} t1 p /\
    rtc proc_step
      {| threads := [{| holds := held_at_gil e; todo := Acquire Exclusive Gil :: r |}; python_thread (Call c :: rest)];
         pairs := u :: us; stopped := false; running := true |} p.
Proof.
  intros Hc Hf Hu. set (t0 := {| holds := held_at_gil e; todo := Acquire Exclusive Gil :: r |}).
  set (start := {| threads := [t0; python_thread (Call c :: rest)]; pairs := u :: us; stopped := false; running := true |}).
  pose proof (locks_run start _ _ (rtc_once _ _ (second_acquires t0 [] Gil (run_code (Call c :: rest) ++ [Release Gil]) (gil_free e _ _))))
    as Hgil. change (with_threads _ start) with start in Hgil at 1.
  assert (forall t1 l x k, Gil ∈ (holds t1).*2 -> todo t1 = Acquire Exclusive l :: k -> l ∈ (held_at_gil e).*2 ->
    crossed t0 t1 {| threads := [t0; t1]; pairs := u :: us; stopped := x; running := true |}) as Hcross.
  { intros t1 l x k Hg Ht Hl. split; [done|done|done|done|]. left. exists l. by rewrite Ht. }
  destruct Hc as [imm imm' body reps Hs|imm imm' body reps Hs|id id' body keep Hs|id id' ids body Hs|e' He|first body]; [..|by edestruct Hf].
  - eexists _, _. split; [|exact Hgil]. eapply Hcross; [set_solver|reflexivity|]. rewrite <- Hs. set_solver.
  - eexists _, _. split; [|exact Hgil]. eapply Hcross; [set_solver|reflexivity|]. rewrite <- Hs. set_solver.
  - eexists _, _. split; cycle 1.
    { etrans; [exact Hgil|]. destruct (Hu Uvm) as (? & ? & ?). by apply (call_answered Uvm). }
    eapply Hcross; [set_solver|reflexivity|]. rewrite <- Hs. set_solver.
  - eexists _, _. split; cycle 1.
    { etrans; [exact Hgil|]. destruct (Hu Rdma) as (? & ? & ?). by apply (call_answered Rdma). }
    eapply Hcross; [set_solver|reflexivity|]. rewrite <- Hs. set_solver.
  - eexists _, _. split; cycle 1.
    { etrans; [exact Hgil|]. eapply rtc_l; [apply StepIo; eapply (IoDo _ 1); reflexivity|].
      apply (locks_run {| threads := []; pairs := u :: us; stopped := true; running := true |}), rtc_once.
      apply (second_acquires t0 _ ThreadHandle). by destruct e'. }
    split; [reflexivity|reflexivity|done|set_solver|]. by right.
Qed.

(** The immediate callback is replaced while it runs: the interpreter switches threads with the
    read lock held. *)
Lemma replacing_crosses first body rest : exists t0 t1,
  rtc lock_step [{| holds := []; todo := handler (HImm (Some (SwitchInterval :: body))) |};
                 python_thread (Call (SetImmCallback first) :: rest)] [t0; t1] /\
  head (todo t0) = Some (Acquire Exclusive Gil) /\ Gil ∈ (holds t1).*2 /\
  head (todo t1) = Some (Acquire Exclusive PyImm) /\ PyImm ∈ (holds t0).*2.
Proof.
  eexists _, _. split; [do 4 thread_goes 0; thread_goes 1; apply rtc_refl|].
  split; [reflexivity|]. split; [set_solver|]. split; [reflexivity|set_solver].
Qed.

(** The other calls can block the process for ever.  A Python thread that sets or removes an
    expected count, allocates a watcher or submits receives, while a callback runs for a key in the
    same shard of the same map; one that stops the engine while any completion with a Python
    callback is handled; one that replaces the immediate callback while the old one runs and the
    interpreter switches threads: each reaches a state in which neither thread ever goes on. *)
Theorem attached_calls_deadlock c e rest q u us :
  conflict c e -> cq u = e :: q ->
  (forall sd, calls (loop_of sd u) = [] /\ pending (loop_of sd u) = [] /\ down (loop_of sd u) = false) ->
  exists p, rtc proc_step (process [Call c :: rest] (u :: us)) p /\ stuck 0 p /\ stuck 1 p.
Proof.
  intros Hc Hq Hu. assert ((exists first, c = SetImmCallback first) \/ (forall first, c <> SetImmCallback first)) as [[first ->]|Hn]
    by (destruct c; eauto; by right).
  { inversion Hc as [| | | |e' He|first' body]; subst.
    destruct (replacing_crosses first body rest) as (t0 & t1 & Hr & Hn & Hg & Hw & Hp).
    exists (with_threads [t0; t1] {| threads := []; pairs := with_cq q u :: us; stopped := false; running := true |}).
    split; [|apply (crossed_stuck t0 t1); split; [reflexivity|reflexivity|done|done|left; eauto]]. eapply rtc_l.
    { apply StepIo. eapply IoPoll; [reflexivity..|]. cbn [pairs process poll]. by rewrite Hq. }
    exact (locks_run {| threads := []; pairs := with_cq q u :: us; stopped := false; running := true |} _ _ Hr). }
  assert (python_of e <> None) as He by (destruct Hc; try done; by edestruct Hn).
  destruct (handling_reaches_gil e q (Call c :: rest) u us Hq He) as [r Hr].
  destruct (conflict_crosses c e rest r (with_cq q u) us Hc) as (p & t1 & Hx & Hp); [done| |].
  { intros sd. destruct (Hu sd) as (? & ? & ?). by destruct sd. }
  exists p. split; [by etrans|]. by eapply crossed_stuck.
Qed.

(** *** Receives and full channels *)
Abbreviation sleeping := ({| holds := []; todo := [] |} : Thr).

Lemma submission_queued id k x uv n q us :
  n < capacity -> down x = false ->
  rtc proc_step
    {| threads := [sleeping; {| holds := [(Exclusive, Gil)]; todo := binding (SubmitImm id) ++ k |}];
       pairs := {| rdma := x; uvm := uv; cmds := n; cq := q |} :: us; stopped := false; running := true |}
    {| threads := [sleeping; {| holds := [(Exclusive, Gil)]; todo := k |}];
       pairs := {| rdma := x; uvm := uv; cmds := S n; cq := q |} :: us; stopped := false; running := true |}.
Proof.
  intros Hn Hd. set (us1 := {| rdma := x; uvm := uv; cmds := n; cq := q |} :: us).
  set (us2 := {| rdma := x; uvm := uv; cmds := S n; cq := q |} :: us).
  assert (rtc lock_step [sleeping; {| holds := [(Exclusive, Gil)]; todo := binding (SubmitImm id) ++ k |}]
    [sleeping; {| holds := []; todo := Do (Command 0) :: Acquire Exclusive Gil :: k |}]) as H1 by (do 3 thread_goes 1; apply rtc_refl).
  assert (rtc lock_step [sleeping; {| holds := []; todo := Acquire Exclusive Gil :: k |}]
    [sleeping; {| holds := [(Exclusive, Gil)]; todo := k |}]) as H2 by (do 1 thread_goes 1; apply rtc_refl).
  etrans; [exact (locks_run {| threads := []; pairs := us1; stopped := false; running := true |} _ _ H1)|].
  eapply rtc_l; [|exact (locks_run {| threads := []; pairs := us2; stopped := false; running := true |} _ _ H2)].
  set (p := with_threads _ _). assert (perform 1 (Command 0) p = Some (with_pairs us2 p)) as Hx.
  { subst p us1. cbn [perform pairs with_threads lookup list_lookup rdma cmds]. by rewrite Hd, (proj2 (Nat.ltb_lt _ _) Hn). }
  exact (StepIo _ _ (IoDo p 1 _ _ _ _ eq_refl eq_refl Hx)).
Qed.

Lemma submissions_queue m id k x uv n q us :
  n + m <= capacity -> down x = false ->
  rtc proc_step
    {| threads := [sleeping; {| holds := [(Exclusive, Gil)]; todo := run_code (repeat (Call (SubmitImm id)) m) ++ k |}];
       pairs := {| rdma := x; uvm := uv; cmds := n; cq := q |} :: us; stopped := false; running := true |}
    {| threads := [sleeping; {| holds := [(Exclusive, Gil)]; todo := k |}];
       pairs := {| rdma := x; uvm := uv; cmds := n + m; cq := q |} :: us; stopped := false; running := true |}.
Proof.
  intros Hn Hd. revert n Hn. induction m as [|m IH]; intros n Hn; [by rewrite Nat.add_0_r|].
  replace (n + S m) with (S n + m) by lia. etrans; [|apply IH; lia]. cbn [repeat run_code fmap list_fmap mjoin list_join code].
  rewrite <- app_assoc. apply submission_queued; [lia|done].
Qed.

(** Receives can block the process for ever without any lock.  A Python thread submits 128
    immediates while the worker delivers 130 completions or more, the first a receive whose Python
    callback does nothing: an execution leads to a state in which the callback thread waits for
    room among the commands, and the worker for room among the completions, for ever. *)
Theorem receive_deadlock id id' es more uv us :
  capacity < length es ->
  exists p, rtc proc_step (process [repeat (Call (SubmitImm id)) capacity]
      ({| rdma := {| calls := []; pending := []; upcoming := (HRecv id' (Some []) :: es) :: more; down := false |};
          uvm := uv; cmds := 0; cq := [] |} :: us)) p /\
    stuck 0 p /\ worker_stuck 0 p.
Proof.
  intros (es1 & es2 & -> & Hl & Hes)%split_batch.
  set (u n es q := {| rdma := {| calls := []; pending := es; upcoming := more; down := false |}; uvm := uv; cmds := n; cq := q |} :: us).
  set (at_ us := {| threads := []; pairs := us; stopped := false; running := true |}).
  set (t1 := {| holds := [(Exclusive, Gil)]; todo := [Release Gil] |} : Thr).
  assert (rtc lock_step [sleeping; python_thread (repeat (Call (SubmitImm id)) capacity)]
    [sleeping; {| holds := [(Exclusive, Gil)]; todo := run_code (repeat (Call (SubmitImm id)) capacity) ++ [Release Gil] |}])
    as H1 by exact (rtc_once _ _ (second_acquires sleeping [] Gil _ eq_refl)).
  assert (rtc lock_step [sleeping; t1] [sleeping; {| holds := []; todo := [] |}]) as H2 by (thread_goes 1; apply rtc_refl).
  assert (rtc lock_step [{| holds := []; todo := handler (HRecv id' (Some [])) |}; sleeping]
    [{| holds := [(Shared, RecvOps (shard id'))]; todo := [Do (Command 0); Release (RecvOps (shard id'))] |}; sleeping]) as H3
    by (do 3 thread_goes 0; apply rtc_refl).
  eexists. split.
  { eapply rtc_l; [apply StepIo; eapply (IoLoop _ 0); [reflexivity|eapply (Progress _ _ Rdma); reflexivity]|].
    etrans; [exact (locks_run (at_ (u 0 (HRecv id' (Some []) :: es1 ++ es2) [])) _ _ H1)|].
    etrans; [by apply (submissions_queue capacity id [Release Gil] {| calls := []; pending := HRecv id' (Some []) :: es1 ++ es2; upcoming := more; down := false |} uv 0 [] us)|].
    etrans; [exact (locks_run (at_ (u capacity (HRecv id' (Some []) :: es1 ++ es2) [])) _ _ H2)|].
    eapply rtc_l; [apply StepIo; eapply (IoLoop _ 0); [reflexivity|eapply (SendCompletion _ _ Rdma); [reflexivity|cbn; unfold capacity; lia]]|].
    eapply rtc_l; [apply StepIo; eapply IoPoll; reflexivity|].
    etrans; [exact (locks_run (at_ (u capacity (es1 ++ es2) [])) _ _ H3)|]. apply fill. cbn -[capacity]. lia. }
  eapply rearming_stuck. split; [reflexivity|done|]. eexists. split; [reflexivity|]. split_and!; cbn -[capacity]; try done; try lia.
Qed.
End Locking.

(** ** Witnesses *)
Module PyLocksWitness.
Definition shard4 (k : Z) : nat := Z.to_nat (k mod 4).
Definition quiet_loop : Loop := {| calls := []; pending := []; upcoming := []; down := false |}.
Definition pys : list (list PyCode) := [[Call (SubmitWrite 1 0); SwitchInterval; Call (SubmitImm 2)]; [Call (SubmitPagedWrites 3 1)]].
Definition us : list WorkerPair :=
  [{| rdma := {| calls := []; pending := []; down := false;
        upcoming := [[HImmCount 7 (Some [SwitchInterval]) [Some [SwitchInterval]]; HTransfer 1 (Some [])]; repeat (HImm (Some [])) 200] |};
      uvm := quiet_loop; cmds := 5; cq := [HSend 9 (Some [SwitchInterval])] |};
   {| rdma := quiet_loop; uvm := quiet_loop; cmds := 0; cq := [] |}].


Definition busy_worker (e : Handled) : WorkerPair :=
  {| rdma := {| calls := []; pending := []; upcoming := [e :: repeat (HImm None) 129]; down := false |};
     uvm := quiet_loop; cmds := 0; cq := [] |}.

Lemma waiting_calls_deadlock_witness :
  exists p, rtc (proc_step shard4) (process shard4 [[Call (SubmitSend 3 true); SwitchInterval]] [busy_worker (HImm (Some []))]) p /\
    stuck shard4 0 p /\ stuck shard4 1 p /\ worker_stuck shard4 0 p.
Proof.
  apply (waiting_calls_deadlock shard4 (SubmitSend 3 true) [SwitchInterval] (HImm (Some [])) (repeat (HImm None) 129) [] quiet_loop 0 []).
  - reflexivity.
  - discriminate.
  - rewrite repeat_length. unfold capacity. lia.
Defined.

Lemma receive_deadlock_witness :
  exists p, rtc (proc_step shard4) (process shard4 [repeat (Call (SubmitImm 3)) capacity] [busy_worker (HRecv 5 (Some []))]) p /\
    stuck shard4 0 p /\ worker_stuck shard4 0 p.
Proof.
  apply (receive_deadlock shard4 3 5 (repeat (HImm None) 129) [] quiet_loop []). rewrite repeat_length. unfold capacity. lia.
Defined.

Lemma attached_calls_deadlock_witness :
  exists p, rtc (proc_step shard4) (process shard4 [[Call (SetImmCountExpected 11); SwitchInterval]]
    [{| rdma := quiet_loop; uvm := quiet_loop; cmds := 0; cq := [HImmCount 7 (Some []) []; HTransfer 1 None] |}]) p /\
    stuck shard4 0 p /\ stuck shard4 1 p.
Proof.
  eapply (attached_calls_deadlock shard4 (SetImmCountExpected 11) (HImmCount 7 (Some []) []) [SwitchInterval]).
  - apply ConflictCount. reflexivity.
  - reflexivity.
  - by intros [].
Defined.
End PyLocksWitness.
