(* ===== verification/PyBindings.v ===== *)
(** * Python bindings: devices, memory and construction of an engine

    [python-ext/src/py_device.rs], [py_cumem.rs] and the constructors of [py_fabric_lib.rs], with
    [ScalarType] of [torch-lib].  Python objects are given by what the bindings read of them. *)
From Stdlib Require Import Sorted.
From stdpp Require Import prelude gmap strings list.
From S2P Require Import Prelude Api ImmCount Sharding Provider DomainGroup Worker FabricEngine FabricSpec Topo TopoSpec CuMem CuMemSpec.
Local Open Scope Z_scope.

(** Exceptions; texts are abbreviated. *)
Inductive PyErr : Type :=
  | PyValueError (why : string)
  | PyRuntimeError (why : string)
  | PyAttributeError
  | PyTypeError
  | PyOverflowError.
Definition PyResult (A : Type) : Type := result PyErr A.

(** [map_err]. *)
Definition map_err {S E F A} (f : E -> F) (m : M S (result E A)) : M S (result F A) :=
  let! r := m in
  ret (match r with Ok a => Ok a | Err e => Err (f e) end).

(** ** Devices: [py_device.rs] *)

(** A Python integer as an unsigned number of [w] bits. *)
Definition extract_u (w : Z) (z : Z) : PyResult Z :=
  if (0 <=? z) && (z <? 2 ^ w) then Ok z else Err PyOverflowError.

(** The attributes [type] and [index] of the object; the index is [None] or an integer. *)
Record DeviceObject := {
  attr_type : PyResult string;
  attr_index : PyResult (option Z);
}.

Definition device_extract (device : DeviceObject) : PyResult Device :=
  match attr_type device with
  | Err e => Err e
  | Ok "cpu"%string => Ok Host
  | Ok "cuda"%string =>
      match attr_index device with
      | Err e => Err e
      | Ok None => Ok (Cuda 0)
      | Ok (Some i) => match extract_u 8 i with Ok i => Ok (Cuda i) | Err e => Err e end
      end
  | Ok _ => Err (PyValueError "Unknown device type")
  end.

(** ** Tensors over a mapping *)
Inductive ScalarType : Type :=
  | BOOL | I8 | U8 | I16 | U16 | I32 | U32 | I64 | U64 | F8_E4M3 | F8_E5M2 | F16 | BF16 | F32 | F64.

Definition element_size (t : ScalarType) : Z :=
  match t with
  | BOOL => 1
  | U8 => 1
  | I8 => 1
  | I16 => 2
  | U16 => 2
  | I32 => 4
  | U32 => 4
  | I64 => 8
  | U64 => 8
  | F8_E4M3 => 1
  | F8_E5M2 => 1
  | F16 => 2
  | BF16 => 2
  | F32 => 4
  | F64 => 8
  end.

(** The arguments of [from_blob]; the tensor keeps the mapping alive. *)
Record Blob := {
  bl_data_ptr : Z;
  bl_shape : list Z;
  bl_dtype : ScalarType;
  bl_device : Device;
  bl_context : CUMemMappingHolder;
}.

(** [numel *= dim as usize] for every dimension, in the release profile. *)
Definition requested_bytes (shape : list Z) (dtype : ScalarType) : Z :=
  foldl (fun numel dim => u64_mul numel (as_u64 dim)) (element_size dtype) shape.

Definition to_tensor (handle : CUMemMappingHolder) (shape : list Z) (dtype : ScalarType) : PyResult Blob :=
  let numel := requested_bytes shape dtype in
  if mh_alloc_size handle <? numel
  then Err (PyRuntimeError "Requested shape exceeds allocated size")
  else Ok {| bl_data_ptr := mh_ptr handle; bl_shape := shape; bl_dtype := dtype;
             bl_device := Cuda (mh_device_id handle); bl_context := handle |}.

(** ** Allocations and handles *)
Section Memory.
Context {Y : Type} `{CuDriver Y}.

(** [PyCUMemAllocHandle::new]. *)
Definition py_alloc_new (size : Z) (device : DeviceObject) (handle_kind : CUMemHandleKind) :
    M Y (PyResult CUMemAlloc) :=
  let? device := ret (device_extract device) in
  match device with
  | Host => ret (Err (PyRuntimeError "Device is not cuda"))
  | Cuda device_id =>
      map_err (fun _ => PyRuntimeError "Failed to create CUMemAllocHandle") (alloc_new size device_id handle_kind)
  end.

(** [map] of an allocation: without a device the mapping is for the device of the allocation. *)
Definition py_map (handle : CUMemMappingRef) (device : option DeviceObject) :
    M Y (PyResult CUMemMappingHolder) :=
  let? device := ret (match device with
                      | Some d => device_extract d
                      | None => Ok Host
                      end) in
  map_err (fun _ => PyRuntimeError "Failed to map CUMemAllocHandle") (map handle device).

Definition py_map_to (handle : CUMemMappingRef) : M (CUMemMappingHolder * Y) (PyResult unit) :=
  map_err (fun _ => PyRuntimeError "Failed to map_to CUMemImportHandle") (map_to handle).

Definition py_unmap : M (CUMemMappingHolder * Y) (PyResult unit) :=
  map_err (fun _ => PyRuntimeError "Failed to unmap CUMemMapping") unmap.

Definition py_export (handle : CUMemAlloc) : M Y (PyResult (CUMemExport * bool)) :=
  map_err (fun _ => PyRuntimeError "Failed to export CUMemAllocHandle") (alloc_export handle).

(** What bincode reads and writes of a [CUMemExport]: its fields in order, the handle in the form
    of [GenericSerializedHandle]. *)
Definition Payload : Type := GenericSerializedHandle * Z * Z.
(** Reading may fail after the handle: then the number fields are [None]. *)
Context (bincode_decode : list Z -> option (GenericSerializedHandle * option (Z * Z)))
  (bincode_encode : Payload -> list Z).

(** Unpickling: [__new__] on the bytes [__getnewargs__] returned. *)
Definition py_export_new (payload : list Z) : M Y (PyResult (CUMemExport * bool)) :=
  match bincode_decode payload with
  | None => ret (Err (PyRuntimeError "Failed to deserialize CUMemExportHandle"))
  | Some (h, rest) =>
      let? handle := map_err (fun _ => PyRuntimeError "Failed to deserialize CUMemExportHandle") (export_decode h) in
      match rest with
      | None =>
          export_drop handle ;;;
          ret (Err (PyRuntimeError "Failed to deserialize CUMemExportHandle"))
      | Some (alloc_size, device_id) =>
          ret (Ok ({| ex_handle := handle; ex_alloc_size := alloc_size; ex_device_id := device_id |}, false))
      end
  end.

Definition getnewargs (e : CUMemExport * bool) : PyResult (list Z) :=
  match export_encode (ex_handle e.1) with
  | Ok h => Ok (bincode_encode (h, ex_alloc_size e.1, ex_device_id e.1))
  | Err _ => Err (PyRuntimeError "Failed to serialize CUMemExportHandle")
  end.

Definition py_bind (e : CUMemExport * bool) : M Y (PyResult CUMemAlloc) :=
  map_err (fun _ => PyRuntimeError "Failed to bind CUMemExportHandle") (mem_bind e).

(** Multicast objects. *)
Definition py_multicast_new (num_devices size : Z) (handle_kind : CUMemHandleKind) :
    M Y (PyResult CUMulticastHandle) :=
  map_err (fun _ => PyRuntimeError "Failed to create CUMulticastHandle") (multicast_new num_devices size handle_kind).

Definition py_add_device (m : CUMulticastHandle) (device : DeviceObject) : M Y (PyResult unit) :=
  let? device := ret (device_extract device) in
  match device with
  | Cuda device_id => map_err (fun _ => PyRuntimeError "Failed to add_device") (multicast_add_device m device_id)
  | Host => ret (Err (PyRuntimeError "Expected CUDA device"))
  end.

Definition py_bind_mem (a : CUMemAlloc) : M (CUMulticastHandle * Y) (PyResult unit) :=
  map_err (fun _ => PyRuntimeError "Failed to bind_mem") (multicast_bind_mem a).

Definition py_multicast_export (m : CUMulticastHandle) : M Y (PyResult (CUMulticastExport * bool)) :=
  map_err (fun _ => PyRuntimeError "Failed to export CUMulticastHandle") (multicast_export m).

Definition py_multicast_bind (e : CUMulticastExport * bool) : M Y (PyResult CUMulticastHandle) :=
  map_err (fun _ => PyRuntimeError "Failed to bind CUMulticastExportHandle") (multicast_bind e).
End Memory.

(** ** [PyTransferEngine::new] *)
Section Configure.
Context {E V : Type} (name : DomainInfo E V -> list Z).

(** One group of the topology. *)
Definition configure_group (nets_per_gpu : nat) (group : TopologyGroup E V) :
    PyResult (GpuDomainSpec (E := E) (V := V)) :=
  if (length (tp_domains group) <? nets_per_gpu)%nat then Err (PyRuntimeError "Not enough NICs") else
  match tp_cpus group with
  | worker_cpu :: uvm_cpu :: _ =>
      Ok {| gs_cuda_device := tp_cuda_device group; gs_domains := take nets_per_gpu (tp_domains group);
            gs_pin_worker_cpu := worker_cpu; gs_pin_uvm_cpu := uvm_cpu |}
  | _ => Err (PyRuntimeError "Not enough CPUs")
  end.

(** The loop over the topology, with the builder and the set of registered devices. *)
Fixpoint configure_groups (nets_per_gpu : nat) (cuda_devices : list Z) (topo : list (TopologyGroup E V))
    (builder : list (GpuDomainSpec (E := E) (V := V))) (registered : gset Z) :
    PyResult (list (GpuDomainSpec (E := E) (V := V)) * gset Z) :=
  match topo with
  | [] => Ok (builder, registered)
  | group :: topo =>
      if negb (bool_decide (tp_cuda_device group ∈ cuda_devices))
      then configure_groups nets_per_gpu cuda_devices topo builder registered
      else match configure_group nets_per_gpu group with
           | Err e => Err e
           | Ok s =>
               configure_groups nets_per_gpu cuda_devices topo
                 (add_gpu_domains builder (gs_cuda_device s) (gs_domains s) (gs_pin_worker_cpu s) (gs_pin_uvm_cpu s))
                 ({[tp_cuda_device group]} ∪ registered)
           end
  end.

(** What [PyTransferEngine::new] does before [TransferEngine::new], to which the builder passes the
    workers.  [detect_topology] answers from a static: the builder sees the same topology. *)
Definition configure (system_topo : res (list (TopologyGroup E V))) (nets_per_gpu : nat) (cuda_devices : list Z) :
    PyResult (list (Z * WorkerSpec_ (E := E) (V := V))) :=
  match system_topo with
  | Err _ => Err (PyRuntimeError "Failed to detect topology")
  | Ok topo =>
      match configure_groups nets_per_gpu cuda_devices topo [] ∅ with
      | Err e => Err e
      | Ok (builder, registered) =>
          match filter (fun d => d ∉ registered) cuda_devices with
          | _ :: _ => Err (PyRuntimeError "Not all CUDA devices were registered")
          | [] =>
              match prepare_workers name system_topo builder with
              | Err _ => Err (PyRuntimeError "Failed to build TransferEngine")
              | Ok workers => Ok workers
              end
          end
      end
  end.

(** [TransferEngine::new] on these workers.  The system [Y] initialises the two threads of a worker
    and opens its cards; the flags say whether it starts threads. *)
Section New.
Context {Y W : Type} (worker_ok uvm_ok callback_ok : bool).
Context (wait_init : WorkerThread E V -> M Y (res (WorkerHandle W))).

Definition start_engine (ws : list (Z * WorkerSpec_ (E := E) (V := V))) : M Y (res (FabricEngine W)) :=
  let? engine := fabric_engine_new (fun w => ret (spawn (wk_domain_list w) worker_ok uvm_ok)) wait_init ws in
  ret (if callback_ok then Ok engine else Err (Custom "failed to launch callback worker thread")).

Definition py_new (system_topo : res (list (TopologyGroup E V))) (nets_per_gpu : nat) (cuda_devices : list Z) :
    M Y (PyResult (FabricEngine W)) :=
  match configure system_topo nets_per_gpu cuda_devices with
  | Err e => ret (Err e)
  | Ok ws => map_err (fun _ => PyRuntimeError "Failed to build TransferEngine") (start_engine ws)
  end.
End New.
End Configure.

(** ** The size check of [to_tensor] *)

(** The number of bytes of the tensor, as a number. *)
Definition tensor_bytes (shape : list Z) (dtype : ScalarType) : Z := element_size dtype * foldr Z.mul 1 shape.

Lemma product_wraps shape n :
  wrapu 64 (foldl (fun numel dim => u64_mul numel (as_u64 dim)) n shape) = wrapu 64 (n * foldr Z.mul 1 shape).
Proof.
  revert n. induction shape as [|d shape IH]; intros n; cbn [foldl foldr]; [by rewrite Z.mul_1_r|].
  rewrite IH. unfold u64_mul, as_u64, wrapu. rewrite Zmult_mod_idemp_l.
  rewrite <- Z.mul_assoc, (Z.mul_comm (d mod _)), Z.mul_assoc, Zmult_mod_idemp_r. f_equal. lia.
Qed.

Lemma requested_bytes_wraps shape dtype : requested_bytes shape dtype = wrapu 64 (tensor_bytes shape dtype).
Proof.
  unfold requested_bytes, tensor_bytes. rewrite <- product_wraps. symmetry. apply wrapu_small.
  assert (in_u 64 (element_size dtype)) as He by (destruct dtype; unfold in_u; simpl; lia).
  revert He. generalize (element_size dtype) as n.
  induction shape as [|d shape IH]; intros n Hn; [done|]. cbn [foldl]. apply IH. by apply wrapu_range.
Qed.

(** C40: the size check of [to_tensor] is exact modulo 2^64.  A tensor is returned iff the number of
    bytes of the shape, reduced modulo 2^64, fits the mapping; it is then the mapping's memory with
    the shape and type asked for.  So the tensor lies within the mapping whenever its true size is
    below 2^64 and not negative; but a shape such as [2^32, 2^32] is accepted on every mapping. *)
Theorem to_tensor_checks handle shape dtype :
  (forall b, to_tensor handle shape dtype = Ok b <->
     wrapu 64 (tensor_bytes shape dtype) <= mh_alloc_size handle /\
     b = {| bl_data_ptr := mh_ptr handle; bl_shape := shape; bl_dtype := dtype;
            bl_device := Cuda (mh_device_id handle); bl_context := handle |}) /\
  (in_u 64 (tensor_bytes shape dtype) ->
     (exists b, to_tensor handle shape dtype = Ok b) <-> tensor_bytes shape dtype <= mh_alloc_size handle) /\
  (0 <= mh_alloc_size handle -> exists b, to_tensor handle [2 ^ 32; 2 ^ 32] dtype = Ok b).
Proof.
  assert (forall sh, to_tensor handle sh dtype =
    if mh_alloc_size handle <? wrapu 64 (tensor_bytes sh dtype)
    then Err (PyRuntimeError "Requested shape exceeds allocated size")
    else Ok {| bl_data_ptr := mh_ptr handle; bl_shape := sh; bl_dtype := dtype;
               bl_device := Cuda (mh_device_id handle); bl_context := handle |}) as Ht
    by (intros sh; unfold to_tensor; by rewrite requested_bytes_wraps).
  split_and!.
  - intros b. rewrite Ht. destruct (Z.ltb_spec (mh_alloc_size handle) (wrapu 64 (tensor_bytes shape dtype)));
      split; intros; naive_solver lia.
  - intros Hb. rewrite Ht, (wrapu_small _ _ Hb).
    destruct (Z.ltb_spec (mh_alloc_size handle) (tensor_bytes shape dtype)); split; intros; naive_solver lia.
  - intros Hs. rewrite Ht. unfold tensor_bytes. cbn [foldr].
    replace (wrapu 64 (element_size dtype * (2 ^ 32 * (2 ^ 32 * 1)))) with 0 by (destruct dtype; reflexivity).
    rewrite (proj2 (Z.ltb_ge _ 0) Hs). eauto.
Qed.

(** ** Pickled handles *)
Section Pickle.
Context {Y : Type} `{CuDriver Y}.
Context (bincode_decode : list Z -> option (GenericSerializedHandle * option (Z * Z)))
  (bincode_encode : Payload -> list Z).
(** What [bincode] documents. *)
Context (bincode_roundtrip : forall h n d, bincode_decode (bincode_encode (h, n, d)) = Some (h, Some (n, d))).

(** A pickled handle describes the same allocation.  The bytes of an exported handle, read in
    another process, give a handle that can be bound there: if decoding its descriptor or fabric
    handle and importing it succeed, the result is an allocation of the exported size on the
    exported device, which can be mapped but not exported again.  The exporter's own handle cannot
    be bound (it panics), and a handle that was read cannot be pickled again if it is a
    descriptor. *)
Theorem pickled_handle_binds (a : CUMemAlloc) x bytes (y1 y2 z1 z2 z3 : Y) e h :
  py_export a y1 = Done (Ok x, y2) -> getnewargs bincode_encode x = Ok bytes ->
  py_export_new bincode_decode bytes z1 = Done (Ok e, z2) -> export_bind (ex_handle e.1) z2 = Done (Ok h, z3) ->
  (exists b, py_bind e z2 = Done (Ok b, z3) /\ ca_handle b = h /\ ca_alloc_size b = ca_alloc_size a /\
     ca_device_id b = ca_device_id a /\
     forall z, py_export b z = Done (Err (PyRuntimeError "Failed to export CUMemAllocHandle"), z)) /\
  py_bind x y2 = Panic "Handle is already bound" /\
  (ca_handle_kind a = FileDescriptor ->
   getnewargs bincode_encode e = Err (PyRuntimeError "Failed to serialize CUMemExportHandle")).
Proof.
  intros Hx Hb He Hh.
  assert (exists g, x = ({| ex_handle := g; ex_alloc_size := ca_alloc_size a; ex_device_id := ca_device_id a |}, true) /\
    (ca_handle_kind a = FileDescriptor -> exists fd pid, g = ExportedFD fd pid)) as (g & -> & Hg).
  { unfold py_export, map_err, alloc_export, bind_res, bind, ret in Hx.
    destruct (export_new (ca_handle_kind a) (ca_handle a) y1) as [[[g|er] y]| |] eqn:Eg; simplify_eq.
    exists g. split; [done|]. intros Hk. rewrite Hk in Eg. unfold export_new, bind_res, bind, gets, ret in Eg.
    repeat case_match; simplify_eq; eauto. }
  unfold getnewargs in Hb. cbn [fst ex_handle ex_alloc_size ex_device_id] in Hb.
  destruct (export_encode g) as [p|] eqn:Ep; [|done]. simplify_eq.
  unfold py_export_new in He. rewrite bincode_roundtrip in He.
  unfold bind_res, map_err, bind, ret in He. destruct (export_decode p z1) as [[[d|er] z]| |] eqn:Ed; simplify_eq.
  cbn [fst ex_handle ex_alloc_size ex_device_id] in *. split_and!.
  - eexists. unfold py_bind, map_err, mem_bind, assert_, bind_res, bind, ret. cbn [fst snd negb ex_handle].
    rewrite Hh. cbn. split; [done|]. by split_and!.
  - done.
  - intros Hk. destruct (Hg Hk) as (fd & pid & ->). cbn in Ep. simplify_eq.
    unfold export_decode, bind, call, ret in Ed. unfold getnewargs. cbn [fst ex_handle].
    repeat case_match; simplify_eq; done.
Qed.
End Pickle.

(** ** The automatic configuration *)
Section Configured.
Context {E V : Type} (name : DomainInfo E V -> list Z).
Implicit Types (topo : list (TopologyGroup E V)).

(** A group with enough cards and CPUs, and the worker it gets. *)
Definition usable (nets : nat) (g : TopologyGroup E V) : Prop :=
  (nets <= length (tp_domains g))%nat /\ (2 <= length (tp_cpus g))%nat.
Definition auto_spec (nets : nat) (g : TopologyGroup E V) : GpuDomainSpec (E := E) (V := V) :=
  {| gs_cuda_device := tp_cuda_device g; gs_domains := take nets (tp_domains g);
     gs_pin_worker_cpu := nth 0 (tp_cpus g) 0; gs_pin_uvm_cpu := nth 1 (tp_cpus g) 0 |}.
Definition selected (devices : list Z) topo : list (TopologyGroup E V) :=
  filter (fun g => tp_cuda_device g ∈ devices) topo.

Lemma configure_group_ok nets g s :
  configure_group nets g = Ok s <-> usable nets g /\ s = auto_spec nets g.
Proof.
  unfold configure_group, usable, auto_spec. destruct (Nat.ltb_spec (length (tp_domains g)) nets).
  { split; [done|]. intros [[? _] _]. lia. }
  destruct (tp_cpus g) as [|w [|u cpus]]; simpl.
  - split; [done|]. intros [[_ ?] _]. lia.
  - split; [done|]. intros [[_ ?] _]. lia.
  - split; [intros [= <-]; split; [lia|done]|by intros [_ ->]].
Qed.

Lemma configure_groups_ok nets devices topo b reg r :
  configure_groups nets devices topo b reg = Ok r <->
  Forall (usable nets) (selected devices topo) /\
  r = (b ++ (auto_spec nets <$> selected devices topo),
       list_to_set (tp_cuda_device <$> selected devices topo) ∪ reg).
Proof.
  unfold selected. revert b reg. induction topo as [|g topo IH]; intros b reg; cbn [configure_groups].
  { csimpl. rewrite app_nil_r. replace (∅ ∪ reg) with reg by set_solver. naive_solver. }
  rewrite filter_cons. destruct (decide (tp_cuda_device g ∈ devices)) as [Hin|Hin].
  - rewrite bool_decide_true by done. cbn [negb]. rewrite Forall_cons.
    destruct (configure_group nets g) as [s|e] eqn:Es.
    + apply configure_group_ok in Es as [Hu ->]. rewrite IH. csimpl. unfold add_gpu_domains. rewrite <- app_assoc. csimpl.
      replace (list_to_set (tp_cuda_device <$> filter (fun g => tp_cuda_device g ∈ devices) topo) ∪ ({[tp_cuda_device g]} ∪ reg))
        with ({[tp_cuda_device g]} ∪ list_to_set (tp_cuda_device <$> filter (fun g => tp_cuda_device g ∈ devices) topo) ∪ reg)
        by set_solver. unfold auto_spec at 1. naive_solver.
    + split; [done|]. intros [[Hu _] _].
      pose proof (proj2 (configure_group_ok nets g (auto_spec nets g)) (conj Hu eq_refl)). congruence.
  - rewrite bool_decide_false by done. apply IH.
Qed.

Lemma find_device topo g :
  NoDup (tp_cuda_device <$> topo) -> g ∈ topo ->
  exists i, list_find (fun t => tp_cuda_device t = tp_cuda_device g) topo = Some (i, g).
Proof.
  intros Hnd Hg. destruct (list_find (fun t => tp_cuda_device t = tp_cuda_device g) topo) as [[i t]|] eqn:Ef.
  - apply list_find_Some in Ef as (Hi & Hd & _). exists i. apply list_elem_of_lookup in Hg as (j & Hj).
    assert (i = j) as ->; [|by rewrite Hi in Hj; simplify_eq].
    eapply (NoDup_lookup _ i j (tp_cuda_device g) Hnd); rewrite list_lookup_fmap; [by rewrite Hi, <- Hd|by rewrite Hj].
  - apply list_find_None in Ef. eapply Forall_forall in Ef; [|exact Hg]. done.
Qed.

Lemma auto_spec_ok nets topo g :
  NoDup (tp_cuda_device <$> topo) -> NoDup (name <$> tp_domains g) -> g ∈ topo -> usable nets g ->
  spec_ok name topo (auto_spec nets g).
Proof.
  intros Hnd Hn Hg [Hu Hc]. destruct (find_device topo g Hnd Hg) as (i & Hf). exists i, g.
  cbn [auto_spec gs_cuda_device gs_domains gs_pin_worker_cpu gs_pin_uvm_cpu]. split_and!; [done|..].
  - rewrite fmap_take. by eapply sublist_NoDup; [|apply sublist_take].
  - apply Forall_forall. intros d Hd. apply list_elem_of_fmap_2.
    apply elem_of_take in Hd as (j & Hj & _). by eapply list_elem_of_lookup_2.
  - apply list_elem_of_In, nth_In. lia.
  - apply list_elem_of_In, nth_In. lia.
Qed.

Lemma selected_elem devices topo g :
  g ∈ selected devices topo <-> tp_cuda_device g ∈ devices /\ g ∈ topo.
Proof. unfold selected. by rewrite list_elem_of_filter. Qed.

(** Every device is that of a selected group. *)
Definition covered devices topo : Prop :=
  Forall (fun d => exists g, g ∈ selected devices topo /\ tp_cuda_device g = d) devices.

Lemma missing_nil devices topo :
  filter (fun d => d ∉ (list_to_set (tp_cuda_device <$> selected devices topo) ∪ ∅ : gset Z)) devices = [] <->
  covered devices topo.
Proof.
  unfold covered. rewrite Forall_forall. split.
  - intros Hm d Hd.
    assert (d ∈ (list_to_set (tp_cuda_device <$> selected devices topo) ∪ ∅ : gset Z)) as Hr.
    { apply dec_stable. intros Hr. by apply (filter_nil_not_elem_of _ _ _ Hm Hr). }
    apply elem_of_union in Hr as [(g & -> & Hg)%elem_of_list_to_set%list_elem_of_fmap|[]%not_elem_of_empty]. eauto.
  - intros Hc. destruct (filter _ devices) as [|d rest] eqn:Ef; [done|].
    assert (d ∈ d :: rest) as Hd by set_solver. rewrite <- Ef in Hd. apply list_elem_of_filter in Hd as [Hr Hd].
    destruct (Hc d Hd) as (g & Hg & <-). exfalso. apply Hr, elem_of_union_l, elem_of_list_to_set. by apply list_elem_of_fmap_2.
Qed.

Lemma selected_nonempty devices topo : covered devices topo -> selected devices topo <> [] <-> devices <> [].
Proof.
  intros Hc. split.
  - intros Hs ->. apply Hs. destruct (selected [] topo) as [|g l] eqn:Es; [done|].
    assert (g ∈ selected [] topo) as [? _]%selected_elem by (rewrite Es; set_solver). set_solver.
  - intros Hd Hs. destruct devices as [|d devices]; [done|].
    apply Forall_cons in Hc as [(g & Hg & _) _]. rewrite Hs in Hg. set_solver.
Qed.

Lemma usable_covered nets devices topo :
  NoDup (tp_cuda_device <$> topo) ->
  Forall (fun d => exists g, g ∈ topo /\ tp_cuda_device g = d /\ usable nets g) devices <->
  Forall (usable nets) (selected devices topo) /\ covered devices topo.
Proof.
  intros Hnd. unfold covered. rewrite !Forall_forall. setoid_rewrite selected_elem. split; [|naive_solver].
  intros Hall. split; [|naive_solver].
  intros g [Hd Hg]. destruct (Hall _ Hd) as (g' & Hg' & Heq & Hu).
  destruct (find_device topo g Hnd Hg) as (i & Hi). destruct (find_device topo g' Hnd Hg') as (j & Hj).
  rewrite Heq, Hi in Hj. by simplify_eq.
Qed.

Lemma NoDup_fmap_filter {A B} (f : A -> B) (P : A -> Prop) `{!forall x, Decision (P x)} l :
  NoDup (f <$> l) -> NoDup (f <$> filter P l).
Proof.
  induction l as [|x l IH]; [done|]. csimpl. intros [Hx Hl]%NoDup_cons. rewrite filter_cons.
  case_decide; [|by apply IH]. csimpl. constructor; [|by apply IH].
  intros (y & Hy & [_ Hin]%list_elem_of_filter)%list_elem_of_fmap. apply Hx. rewrite Hy. by apply list_elem_of_fmap_2.
Qed.

Lemma prepare_auto nets devices topo ws :
  NoDup (tp_cuda_device <$> topo) -> Forall (fun g => NoDup (name <$> tp_domains g)) topo ->
  Forall (usable nets) (selected devices topo) ->
  prepare_workers name (Ok topo) (auto_spec nets <$> selected devices topo) = Ok ws <->
  selected devices topo <> [] /\ ws = (fun g => worker_of (auto_spec nets g)) <$> selected devices topo.
Proof.
  intros Hnd Hn Hu. rewrite prepare_workers_ok, <- !list_fmap_compose.
  assert (NoDup (tp_cuda_device <$> selected devices topo)) as Hnd'.
  { by apply NoDup_fmap_filter. }
  assert (Forall (spec_ok name topo) (auto_spec nets <$> selected devices topo)) as Hok.
  { apply Forall_fmap, Forall_forall. intros g Hg. pose proof Hg as [_ Hin]%selected_elem.
    eapply Forall_forall in Hu; [|exact Hg]. eapply Forall_forall in Hn; [|exact Hin]. by apply auto_spec_ok. }
  split; [intros (Hne & _ & _ & ->)|intros [Hne ->]]; split_and!; try done.
  - intros Hs. rewrite Hs in Hne. done.
  - by intros Hs%fmap_nil_inv.
Qed.

(** On a topology whose groups have distinct devices, and distinct card names within a group, a
    configuration is produced iff at least one device is asked for and each is in the topology with
    enough cards and CPUs; then every check of the builder passes. *)
Lemma configure_accepts topo nets devices ws :
  NoDup (tp_cuda_device <$> topo) -> Forall (fun g => NoDup (name <$> tp_domains g)) topo ->
  configure name (Ok topo) nets devices = Ok ws <->
  devices <> [] /\
  Forall (fun d => exists g, g ∈ topo /\ tp_cuda_device g = d /\ usable nets g) devices /\
  ws = (fun g => worker_of (auto_spec nets g)) <$> selected devices topo.
Proof.
  intros Hnd Hn. rewrite (usable_covered nets devices topo Hnd). unfold configure.
  destruct (configure_groups nets devices topo [] ∅) as [[b reg]|e] eqn:Ec.
  - apply configure_groups_ok in Ec as [Hu [= -> ->]]. cbn [app].
    pose proof (prepare_auto nets devices topo) as Hprep. pose proof (missing_nil devices topo) as Hm.
    destruct (filter _ devices) as [|d rest]; [|naive_solver].
    pose proof (proj1 Hm eq_refl) as Hc. pose proof (selected_nonempty devices topo Hc) as Hne.
    destruct (prepare_workers _ _ _) as [ws'|er] eqn:Ep; [naive_solver|].
    split; [done|]. intros (Hd & _ & ->). pose proof (proj2 (Hprep _ Hnd Hn Hu) (conj (proj2 Hne Hd) eq_refl)). congruence.
  - split; [done|]. intros (_ & [Hu _] & _). exfalso.
    pose proof (proj2 (configure_groups_ok nets devices topo [] ∅ _) (conj Hu eq_refl)). congruence.
Qed.

(** *** Starting the workers *)

(** The cards a worker can have: 1, 2 or 4 EFA cards, or 1 or 2 verbs cards. *)
Definition is_efa (d : DomainInfo E V) : Prop := match d with InfoEfa _ => True | InfoVerbs _ => False end.
Definition servable (l : list (DomainInfo E V)) : Prop :=
  (Forall is_efa l /\ length l ∈ [1; 2; 4]%nat) \/ (Forall (fun d => ~ is_efa d) l /\ length l ∈ [1; 2]%nat).
Definition cards (t : WorkerThread E V) : nat := match t with EfaThread n _ | VerbsThread n _ => n end.

Lemma efa_infos_length (l : list (DomainInfo E V)) :
  (length (efa_infos l) <= length l)%nat /\ (length (efa_infos l) = length l <-> Forall is_efa l).
Proof.
  induction l as [|[x|x] l [Hle IH]]; [by split; [|split]|..]; rewrite Forall_cons, <- IH; cbn [is_efa].
  - change (efa_infos (InfoEfa x :: l)) with (x :: efa_infos l). cbn [length]. lia.
  - change (efa_infos (InfoVerbs x :: l)) with (efa_infos l). cbn [length]. lia.
Qed.
Lemma verbs_infos_length (l : list (DomainInfo E V)) :
  (length (verbs_infos l) <= length l)%nat /\ (length (verbs_infos l) = length l <-> Forall (fun d => ~ is_efa d) l).
Proof.
  induction l as [|[x|x] l [Hle IH]]; [by split; [|split]|..]; rewrite Forall_cons, <- IH; cbn [is_efa].
  - change (verbs_infos (InfoEfa x :: l)) with (verbs_infos l). cbn [length]. lia.
  - change (verbs_infos (InfoVerbs x :: l)) with (x :: verbs_infos l). cbn [length]. lia.
Qed.

Lemma spawn_servable (l : list (DomainInfo E V)) :
  match spawn l true true with Ok t => servable l /\ cards t = length l | Err _ => ~ servable l end.
Proof.
  unfold spawn, servable. destruct (efa_infos_length l) as [He1 He2], (verbs_infos_length l) as [Hv1 Hv2].
  destruct (Nat.eqb_spec (length (efa_infos l)) (length l)) as [He|He].
  - rewrite He. rewrite He2 in He.
    assert (length l <> 0%nat -> ~ Forall (fun d => ~ is_efa d) l) as Hno by (destruct He; [done|]; rewrite Forall_cons; tauto).
    destruct (length l) as [|[|[|[|[|n]]]]]; cbn; first [split; [left; set_solver|done]|set_solver].
  - rewrite He2 in He. destruct (Nat.eqb_spec (length (verbs_infos l)) (length l)) as [Hv|Hv]; [|rewrite Hv2 in Hv; naive_solver].
    rewrite Hv. rewrite Hv2 in Hv. destruct (length l) as [|[|[|n]]]; cbn; first [split; [right; set_solver|done]|set_solver].
Qed.

Lemma bind_res_go {S Er A B} (m : M S (result Er A)) (k : A -> M S (result Er B)) s a s' :
  m s = Done (Ok a, s') -> bind_res m k s = k a s'.
Proof. unfold bind_res, bind. by intros ->. Qed.
Lemma bind_res_stop {S Er A B} (m : M S (result Er A)) (k : A -> M S (result Er B)) s e s' :
  m s = Done (Err e, s') -> bind_res m k s = Done (Err e, s').
Proof. unfold bind_res, bind. by intros ->. Qed.

(** Steps that always succeed, with what holds of each result. *)
Lemma try_map_succeeds {S Er A B} (P : A -> B -> Prop) (body : A -> M S (result Er B)) l s :
  Forall (fun a => forall s, exists b s', body a s = Done (Ok b, s') /\ P a b) l ->
  exists bs s', try_map l body s = Done (Ok bs, s') /\ Forall2 P l bs.
Proof.
  intros Hl. revert s. induction Hl as [|a l Ha _ IH]; intros s; [by exists [], s|].
  destruct (Ha s) as (b & s1 & Hb & HP). destruct (IH s1) as (bs & s2 & Hbs & HPs). exists (b :: bs), s2.
  split; [|by constructor]. cbn [try_map]. unfold bind_res, bind. by rewrite Hb, Hbs.
Qed.

(** The first failure ends the steps. *)
Lemma try_map_fails {S Er A B} (g : A -> result Er B) (body : A -> M S (result Er B)) l s :
  (forall a s, body a s = Done (g a, s)) -> ~ Forall (fun a => exists b, g a = Ok b) l ->
  exists e, try_map l body s = Done (Err e, s).
Proof.
  intros Hg. induction l as [|a l IH]; intros Hl; [by destruct Hl|]. cbn [try_map]. unfold bind_res, bind. rewrite Hg.
  destruct (g a) as [b|e] eqn:Ea; [|by exists e]. destruct IH as [e ->]; [|by exists e].
  intros Hall. apply Hl. constructor; [by exists b|done].
Qed.

Section Started.
Context {Y W : Type} (wait_init : WorkerThread E V -> M Y (res (WorkerHandle W))).
(** The threads initialise and every card opens. *)
Context (wait_init_ok : forall t y, exists h y', wait_init t y = Done (Ok h, y') /\ length (wh_address_list h) = cards t).

(** What the engine for groups of [nets] cards looks like. *)
Record engine_for (nets : nat) (devices : list Z) (e : FabricEngine W) : Prop := {
  ef_sorted : StronglySorted Z.lt (workers e).*1;
  ef_devices : forall d, d ∈ (workers e).*1 <-> d ∈ devices;
  ef_domains : fe_num_domains e = Z.of_nat nets * fe_num_groups e;
  ef_nets : fe_nets_per_gpu e = Z.of_nat nets;
}.

Lemma handle_sum nets (l : list (Z * WorkerHandle W)) :
  Forall (fun kh => length (wh_address_list kh.2) = nets) l ->
  sum_list_Z ((fun kh => Z.of_nat (length (wh_address_list kh.2))) <$> l) = Z.of_nat nets * Z.of_nat (length l).
Proof. induction 1 as [|x l Hx _ IH]; csimpl; [lia|]. rewrite Hx, IH. lia. Qed.

Lemma engine_starts nets (ws : list (Z * WorkerSpec_ (E := E) (V := V))) y :
  ws <> [] -> Forall (fun w => servable (wk_domain_list w.2) /\ length (wk_domain_list w.2) = nets) ws ->
  exists e y', start_engine true true true wait_init ws y = Done (Ok e, y') /\ engine_for nets ws.*1 e.
Proof.
  intros Hne Hall. assert (1 <= nets <= 4)%nat as Hnets.
  { destruct Hall as [|w ws [Hs Hl] _]; [done|]. unfold servable in Hs. set_unfold. lia. }
  destruct (try_map_succeeds (fun w t => t.1 = w.1 /\ cards t.2 = nets)
    (fun dw => let? w := ret (spawn (wk_domain_list dw.2) true true) in ret (Ok (dw.1, w))) ws y) as (ts & y1 & H1 & F1).
  { eapply Forall_impl; [exact Hall|]. intros w [Hs Hl] y0. pose proof (spawn_servable (wk_domain_list w.2)) as Hsp.
    unfold bind_res, bind, ret. destruct (spawn _ true true) as [t|]; [|done]. destruct Hsp as [_ Hc].
    eexists _, _. split; [reflexivity|]. split; [done|]. cbn. congruence. }
  destruct (try_map_succeeds (fun t h => h.1 = t.1 /\ length (wh_address_list h.2) = cards t.2)
    (fun dw => let? w := wait_init dw.2 in ret (Ok (dw.1, w))) ts y1) as (hs & y2 & H2 & F2).
  { apply Forall_forall. intros t _ y0. destruct (wait_init_ok t.2 y0) as (h & y' & Hw & Hl).
    unfold bind_res, bind. rewrite Hw. eexists _, _. split; [reflexivity|]. done. }
  assert (Forall (fun kh => length (wh_address_list kh.2) = nets) hs) as Hlen.
  { eapply Forall2_Forall_r; [exact F2|]. apply Forall_forall. intros t Ht h [_ ->].
    apply list_elem_of_lookup in Ht as [i Hi]. eapply Forall2_lookup_r in F1 as (w & _ & _ & ->); [done|exact Hi]. }
  assert (hs.*1 = ws.*1) as Hkeys.
  { assert (ts.*1 = ws.*1) as <- by (clear -F1; induction F1 as [|? ? ? ? [? _]]; csimpl; congruence).
    clear -F2. induction F2 as [|? ? ? ? [? _]]; csimpl; congruence. }
  destruct hs as [|[d h] hs]; [by destruct ws|]. apply Forall_cons in Hlen as Hh. destruct Hh as [Hh _]. cbn [snd] in Hh.
  destruct (wh_address_list h) as [|a l] eqn:Ea; [cbn in Hh; lia|].
  pose proof (collect_workers_spec ((d, h) :: hs) [] 0 0 0 ltac:(constructor)) as Hc.
  destruct (collect_workers _ _) as [ctx [[g dm] sp]] eqn:Ecol. destruct Hc as (Hsorted & Hin & _ & Hg & Hd).
  assert (fabric_engine_new (fun w => ret (spawn (wk_domain_list w) true true)) wait_init ws y =
    Done (Ok (Build_FabricEngine ctx a g dm sp (as_u8 (Z.of_nat (length (a :: l)))) false ∅ new_map), y2)) as Hfab.
  { unfold fabric_engine_new. erewrite bind_res_go by exact H1. erewrite bind_res_go by exact H2.
    cbn [head unwrap]. unfold bind, ret. cbn [snd]. rewrite Ea. cbn [lookup list_lookup unwrap]. unfold ret. by rewrite Ecol. }
  eexists _, _. split; [unfold start_engine; erewrite bind_res_go by exact Hfab; reflexivity|]. split; cbn [workers fe_num_domains fe_num_groups fe_nets_per_gpu].
  - done.
  - intros k. rewrite Hin, Hkeys. set_solver.
  - rewrite Hd, Hg, (handle_sum nets) by done. lia.
  - rewrite Hh. unfold as_u8. apply wrapu_small. unfold in_u. lia.
Qed.

(** A worker that cannot be served ends the constructor before anything is initialised. *)
Lemma engine_refused (ws : list (Z * WorkerSpec_ (E := E) (V := V))) y :
  ~ Forall (fun w => servable (wk_domain_list w.2)) ws ->
  exists er, start_engine true true true wait_init ws y = Done (Err er, y).
Proof.
  intros Hno. destruct (try_map_fails (fun dw => match spawn (wk_domain_list dw.2) true true with Ok w => Ok (dw.1, w) | Err e => Err e end)
    (fun dw => let? w := ret (spawn (wk_domain_list dw.2) true true) in ret (Ok (dw.1, w))) ws y) as [e He].
  - intros dw s. unfold bind_res, bind, ret. by destruct (spawn _ true true).
  - intros Hall. apply Hno. eapply Forall_impl; [exact Hall|]. intros w [b Hb]. pose proof (spawn_servable (wk_domain_list w.2)) as Hs.
    by destruct (spawn _ true true); [destruct Hs|].
  - exists e. unfold start_engine. apply bind_res_stop. unfold fabric_engine_new. by apply bind_res_stop.
Qed.

#[local] Instance servable_dec l : Decision (servable l).
Proof.
  assert (forall d, Decision (is_efa d)) by (intros []; apply _). unfold servable. apply _.
Defined.

Lemma servable_devices nets devices topo :
  NoDup (tp_cuda_device <$> topo) ->
  Forall (fun d => exists g, g ∈ topo /\ tp_cuda_device g = d /\ usable nets g) devices ->
  Forall (fun g => servable (take nets (tp_domains g))) (selected devices topo) <->
  Forall (fun d => exists g, g ∈ topo /\ tp_cuda_device g = d /\ usable nets g /\ servable (take nets (tp_domains g))) devices.
Proof.
  intros Hnd Hall. rewrite !Forall_forall in *. setoid_rewrite selected_elem. split.
  - intros Hs d Hd. destruct (Hall d Hd) as (g & Hg & <- & Hu). exists g. by split_and!; [| | |apply Hs].
  - intros Hs g [Hd Hg]. destruct (Hs _ Hd) as (g' & Hg' & Heq & _ & Hsv).
    destruct (find_device topo g Hnd Hg) as (i & Hi). destruct (find_device topo g' Hnd Hg') as (j & Hj).
    rewrite Heq, Hi in Hj. by simplify_eq.
Qed.

Lemma selected_devices nets devices topo :
  covered devices topo ->
  forall d, d ∈ ((fun g => worker_of (auto_spec nets g)) <$> selected devices topo).*1 <-> d ∈ devices.
Proof.
  unfold covered. rewrite Forall_forall. intros Hc d. rewrite <- list_fmap_compose, list_elem_of_fmap. split.
  - intros (g & -> & [Hg _]%selected_elem). done.
  - intros Hd. destruct (Hc d Hd) as (g & Hg & <-). by exists g.
Qed.

(** C26: the constructor serves the devices it is asked for, or fails.  On a topology whose groups
    have distinct devices, and distinct card names within a group, with threads that start and cards
    that open, [TransferEngine(nets_per_gpu, cuda_devices)] returns; it succeeds iff at least one
    device is asked for and each is in the topology with two CPUs and at least [nets_per_gpu] cards,
    of which the first are 1, 2 or 4 EFA cards or 1 or 2 verbs cards.  The engine then has one
    worker per device asked for (devices asked for twice count once), each with that many cards. *)
Theorem constructor_accepts topo nets devices y :
  NoDup (tp_cuda_device <$> topo) -> Forall (fun g => NoDup (name <$> tp_domains g)) topo ->
  exists r y', py_new name true true true wait_init (Ok topo) nets devices y = Done (r, y') /\
    ((exists e, r = Ok e) <->
     devices <> [] /\
     Forall (fun d => exists g, g ∈ topo /\ tp_cuda_device g = d /\ usable nets g /\ servable (take nets (tp_domains g))) devices) /\
    (forall e, r = Ok e -> engine_for nets devices e).
Proof.
  intros Hnd Hn. unfold py_new. pose proof (fun ws => configure_accepts topo nets devices ws Hnd Hn) as Hconf.
  destruct (configure name (Ok topo) nets devices) as [ws|er].
  2: { exists (Err er), y. split; [done|]. split; [|done]. split; [by intros [? ?]|]. intros [Hd Hall]. exfalso.
       specialize (Hconf ((fun g => worker_of (auto_spec nets g)) <$> selected devices topo)). destruct Hconf as [_ Hconf].
       discriminate Hconf. split; [done|]. split; [|done]. eapply Forall_impl; [exact Hall|]. naive_solver. }
  destruct (proj1 (Hconf ws) eq_refl) as (Hd & Hall & ->). clear Hconf.
  pose proof (proj1 (usable_covered nets devices topo Hnd) Hall) as [Hu Hc].
  pose proof (servable_devices nets devices topo Hnd Hall) as Hiff.
  destruct (decide (Forall (fun g => servable (take nets (tp_domains g))) (selected devices topo))) as [Hs|Hs].
  - destruct (engine_starts nets ((fun g => worker_of (auto_spec nets g)) <$> selected devices topo) y) as (e & y' & Hrun & He).
    { intros Hnil%fmap_nil_inv. by apply (selected_nonempty devices topo Hc) in Hd. }
    { apply Forall_fmap. apply Forall_forall. intros g Hg. eapply Forall_forall in Hs; [|exact Hg]. eapply Forall_forall in Hu as [Hl _]; [|exact Hg].
      split; [exact Hs|]. cbn. rewrite length_take. lia. }
    exists (Ok e), y'. unfold map_err, bind, ret. rewrite Hrun. split; [done|]. split; [naive_solver|].
    intros e' [= <-]. destruct He as [H1 H2 H3 H4]. split; [done| |done|done]. intros d. rewrite H2. by apply selected_devices.
  - destruct (engine_refused ((fun g => worker_of (auto_spec nets g)) <$> selected devices topo) y) as [er Her]; [by rewrite Forall_fmap|].
    eexists _, y. unfold map_err, bind, ret. rewrite Her. split; [reflexivity|]. split; [|done]. split; [by intros [? ?]|]. naive_solver.
Qed.
End Started.
End Configured.

(** ** Witnesses *)
Module PyWitness.
Definition card (d : DomainInfo Z Z) : list Z := match d with InfoEfa d | InfoVerbs d => [d] end.
Definition node : list (TopologyGroup Z Z) :=
  [{| tp_cuda_device := 0; tp_numa := 0; tp_domains := [InfoVerbs 4; InfoVerbs 5]; tp_cpus := [0; 1; 2] |};
   {| tp_cuda_device := 1; tp_numa := 0; tp_domains := [InfoVerbs 6]; tp_cpus := [3; 4] |};
   {| tp_cuda_device := 2; tp_numa := 1; tp_domains := [InfoVerbs 8]; tp_cpus := [5] |}].

Lemma node_distinct : NoDup (tp_cuda_device <$> node).
Proof. repeat constructor; set_solver. Qed.
Lemma node_names : Forall (fun g => NoDup (card <$> tp_domains g)) node.
Proof. repeat constructor; set_solver. Qed.

(** Cards open at addresses of their own. *)
Definition opened (t : WorkerThread Z Z) : M unit (res (WorkerHandle unit)) :=
  ret (Ok {| wh_aggregated_link_speed := 100; wh_address_list := replicate (cards t) {| addr_bytes := [1] |}; wh_link := tt |}).

Lemma constructor_accepts_witness :
  exists r y', py_new card true true true opened (Ok node) 1 [1; 0; 0] tt = Done (r, y') /\
    ((exists e, r = Ok e) <->
     [1; 0; 0] <> [] /\
     Forall (fun d => exists g, g ∈ node /\ tp_cuda_device g = d /\ usable 1 g /\ servable (take 1 (tp_domains g))) [1; 0; 0]) /\
    (forall e, r = Ok e -> engine_for 1 [1; 0; 0] e).
Proof.
  apply (constructor_accepts card opened).
  - intros t y. eexists _, y. split; [reflexivity|]. apply length_replicate.
  - exact node_distinct.
  - exact node_names.
Defined.

(** Devices 1 and 0, the latter twice, with one card each. *)
Lemma configure_accepts_witness :
  configure card (Ok node) 1 [1; 0; 0] =
  Ok [(0, {| wk_domain_list := [InfoVerbs 4]; wk_pin_worker_cpu := Some 0; wk_pin_uvm_cpu := Some 1 |});
      (1, {| wk_domain_list := [InfoVerbs 6]; wk_pin_worker_cpu := Some 3; wk_pin_uvm_cpu := Some 4 |})].
Proof.
  apply (configure_accepts card node 1 [1; 0; 0] _ node_distinct node_names). split; [done|]. split; [|reflexivity].
  assert (forall i g, node !! i = Some g -> usable 1 g -> exists g', g' ∈ node /\ tp_cuda_device g' = tp_cuda_device g /\ usable 1 g')
    as Hn by (intros i g Hi Hu; exists g; split; [by eapply list_elem_of_lookup_2|done]).
  repeat constructor; [apply (Hn 1%nat _ eq_refl)|apply (Hn 0%nat _ eq_refl)|apply (Hn 0%nat _ eq_refl)];
    split; cbn; lia.
Defined.

Definition write_payload (p : Payload) : list Z :=
  match p with
  | (SerFD fd pid, n, d) => [0; n; d; fd; pid]
  | (SerFabric data, n, d) => 1 :: n :: d :: data
  end.
Definition read_payload (l : list Z) : option (GenericSerializedHandle * option (Z * Z)) :=
  match l with
  | [0; n; d; fd; pid] => Some (SerFD fd pid, Some (n, d))
  | 1 :: n :: d :: data => Some (SerFabric data, Some (n, d))
  | _ => None
  end.
Lemma payload_roundtrip h n d : read_payload (write_payload (h, n, d)) = Some (h, Some (n, d)).
Proof. by destruct h. Qed.

Definition exported : CUMemAlloc :=
  {| ca_handle := 7; ca_alloc_size := 4096; ca_device_id := 3; ca_handle_kind := FileDescriptor |}.

Lemma pickled_handle_binds_witness :
  exists e z2, @py_export_new _ (Sim.driver false) read_payload [0; 4096; 3; 3; 1] Sim.start = Done (Ok e, z2) /\
  (exists b, @py_bind _ (Sim.driver false) e z2 = Done (Ok b, z2) /\ ca_handle b = 7 /\ ca_alloc_size b = 4096 /\
     ca_device_id b = 3 /\
     forall z, @py_export _ (Sim.driver false) b z = Done (Err (PyRuntimeError "Failed to export CUMemAllocHandle"), z)) /\
  @py_bind _ (Sim.driver false)
    ({| ex_handle := ExportedFD 3 1; ex_alloc_size := 4096; ex_device_id := 3 |}, true) Sim.start
    = Panic "Handle is already bound" /\
  (FileDescriptor = FileDescriptor ->
   getnewargs write_payload e = Err (PyRuntimeError "Failed to serialize CUMemExportHandle")).
Proof.
  eexists _, _. split; [vm_compute; reflexivity|].
  refine (@pickled_handle_binds _ (Sim.driver false) read_payload write_payload payload_roundtrip exported _ [0; 4096; 3; 3; 1]
    Sim.start Sim.start Sim.start _ _ _ 7 _ _ _ _).
  - reflexivity.
  - reflexivity.
  - vm_compute. reflexivity.
  - reflexivity.
Defined.
End PyWitness.
