(* ===== verification/PyAllToAll.v ===== *)
(** * Python bindings of the all-to-all context

    [python-ext/src/py_p2p_all_to_all.rs] and the conversion of data types of [torch-lib]: the
    arguments are Python objects, which the bindings convert one after the other to the types of
    the Rust parameters before they call the context. *)
From stdpp Require Import prelude gmap strings list.
From S2P Require Import Prelude Api A2aWorker CuMem CudaRt A2aContext A2aContextSpec PyBindings.
Local Open Scope Z_scope.

(** ** Python objects, as far as the conversions tell them apart

    [PyDtype] is a [torch.dtype]; [None] is one without a counterpart. *)
Inductive PyObj : Type :=
  | PyNone
  | PyBool (b : bool)
  | PyInt (z : Z)
  | PyDtype (t : option ScalarType)
  | PyAddress (a : DomainAddress)
  | PyDescriptor (d : MemoryRegionDescriptor)
  | PyHandle (h : MemoryRegionHandle)
  | PyEngineRef (nets_per_gpu : Z)
  | PyList (l : list PyObj)
  | PyTuple (l : list PyObj)
  | PyOther.

(** An unsigned integer of [w] bits; a [bool] is an [int] in Python. *)
Definition extract_uint (w : Z) (o : PyObj) : PyResult Z :=
  match o with
  | PyInt z => extract_u w z
  | PyBool b => Ok (Z.b2z b)
  | _ => Err PyTypeError
  end.

Definition extract_bool (o : PyObj) : PyResult bool :=
  match o with PyBool b => Ok b | _ => Err PyTypeError end.

Definition extract_option {A} (f : PyObj -> PyResult A) (o : PyObj) : PyResult (option A) :=
  match o with
  | PyNone => Ok None
  | _ => match f o with Ok a => Ok (Some a) | Err e => Err e end
  end.

Fixpoint extract_each {A} (f : PyObj -> PyResult A) (l : list PyObj) : PyResult (list A) :=
  match l with
  | [] => Ok []
  | o :: l =>
      match f o with
      | Err e => Err e
      | Ok a => match extract_each f l with Ok r => Ok (a :: r) | Err e => Err e end
      end
  end.

Definition extract_vec {A} (f : PyObj -> PyResult A) (o : PyObj) : PyResult (list A) :=
  match o with PyList l | PyTuple l => extract_each f l | _ => Err PyTypeError end.

(** [ScalarType::extract] of [torch-lib].  [torch_to_scalar_type] reads the fields of a
    [torch.dtype] from whatever object it is given: for any other object the behaviour is
    undefined. *)
Definition extract_dtype {S} (o : PyObj) : M S (PyResult ScalarType) :=
  match o with
  | PyDtype (Some t) => ret (Ok t)
  | PyDtype None => ret (Err (PyValueError "Failed to convert PyTorch dtype to ScalarType"))
  | _ => panic "undefined behaviour: the object is not a dtype"
  end.
Definition is_dtype (o : PyObj) : bool := match o with PyDtype _ => true | _ => false end.

(** The discriminants of the enum. *)
Definition scalar_code (t : ScalarType) : Z :=
  match t with
  | BOOL => 0 | I8 => 1 | U8 => 2 | I16 => 3 | U16 => 4 | I32 => 5 | U32 => 6 | I64 => 7 | U64 => 8
  | F8_E4M3 => 9 | F8_E5M2 => 10 | F16 => 11 | BF16 => 12 | F32 => 13 | F64 => 14
  end.

Definition extract_mr (o : PyObj) : PyResult MemoryRegionHandle :=
  match o with PyHandle h => Ok h | _ => Err PyTypeError end.
Definition extract_engine (o : PyObj) : PyResult Z :=
  match o with PyEngineRef n => Ok n | _ => Err PyTypeError end.

(** One element of [ranks] and its handle. *)
Definition extract_rank (o : PyObj) : PyResult AllToAllRankHandle :=
  match o with
  | PyTuple [a; d1; d2] =>
      match a, d1, d2 with
      | PyAddress a, PyDescriptor d1, PyDescriptor d2 =>
          Ok {| rh_address := a; num_routed_desc := d1; recv_buffer_desc := d2 |}
      | _, _, _ => Err PyTypeError
      end
  | PyTuple _ => Err (PyValueError "expected tuple of length 3")
  | _ => Err PyTypeError
  end.

(** ** The methods *)
Section Methods.
Context {Y : Type} `{CuDriver Y} `{Cudart Y} `{A2aSystem Y}.

Local Notation "'arg' x := e 'in' k" := (bind_res (ret e) (fun x => k))
  (at level 200, x name, e at level 100, k at level 200).

Definition usize (o : PyObj) : PyResult Z := extract_uint 64 o.
Definition u64 (o : PyObj) : PyResult Z := extract_uint 64 o.
Definition or_zero (o : option Z) : Z := default 0 o.

(** [.map_err(|e| PyRuntimeError::new_err(e.to_string()))], and the conversion of [?]. *)
Definition runtime {A} (m : M Y (ares A)) : M Y (PyResult A) :=
  PyBindings.map_err (fun _ => PyRuntimeError "AllToAllContext") m.

Definition py_create (args : list PyObj) : M Y (PyResult AllToAllContext) :=
  match args with
  | [o_hidden; o_hidden_scale; o_in; o_out; o_out_dtype; o_scale; o_max_tokens; o_max_recv; o_max_private;
     o_experts; o_padding; o_per_token; o_rank; o_dp; o_node; o_world; o_routed_ptr; o_routed_mr; o_send_ptr;
     o_send_mr; o_recv_ptr; o_recv_mr; o_syncs; o_sends; o_recvs; o_device; o_imm; o_ranks; o_engine; o_cpu] =>
      arg hidden_dim := usize o_hidden in
      arg hidden_dim_scale := extract_option usize o_hidden_scale in
      arg in_elemsize := usize o_in in
      arg out_elemsize := usize o_out in
      let? out_dtype := extract_dtype o_out_dtype in
      arg scale_elemsize := extract_option usize o_scale in
      arg max_num_tokens := usize o_max_tokens in
      arg max_recv_tokens := usize o_max_recv in
      arg max_private_tokens := usize o_max_private in
      arg num_experts := usize o_experts in
      arg expert_padding := usize o_padding in
      arg num_experts_per_token := usize o_per_token in
      arg rank := usize o_rank in
      arg dp_size := usize o_dp in
      arg node_size := usize o_node in
      arg world_size := usize o_world in
      arg num_routed_ptr := u64 o_routed_ptr in
      arg num_routed_mr := extract_mr o_routed_mr in
      arg send_buffer_ptr := u64 o_send_ptr in
      arg send_buffer_mr := extract_mr o_send_mr in
      arg recv_buffer_ptr := u64 o_recv_ptr in
      arg recv_buffer_mr := extract_mr o_recv_mr in
      arg sync_ptrs := extract_vec u64 o_syncs in
      arg send_ptrs := extract_vec u64 o_sends in
      arg recv_ptrs := extract_vec u64 o_recvs in
      arg device := extract_uint 8 o_device in
      arg imm_base := extract_uint 32 o_imm in
      arg rank_handles := extract_vec extract_rank o_ranks in
      arg nets_per_gpu := extract_engine o_engine in
      arg worker_cpu := extract_option (extract_uint 16) o_cpu in
      runtime (context_new {|
        ca_worker := {|
          a_hidden_dim := hidden_dim; a_hidden_dim_scale := or_zero hidden_dim_scale;
          a_in_elemsize := in_elemsize; a_out_elemsize := out_elemsize;
          a_scale_elemsize := or_zero scale_elemsize; a_max_recv_tokens := Z.to_nat max_recv_tokens;
          a_max_private_tokens := Z.to_nat max_private_tokens; a_num_experts := Z.to_nat num_experts;
          a_expert_padding := expert_padding; a_rank := Z.to_nat rank; a_dp_size := Z.to_nat dp_size;
          a_node_size := Z.to_nat node_size; a_world_size := Z.to_nat world_size;
          a_num_routed_mr := num_routed_mr; a_send_buffer_mr := send_buffer_mr; a_imm_base := imm_base;
          a_rank_handles := rank_handles; a_nets_per_gpu := nets_per_gpu |};
        ca_out_dtype := scalar_code out_dtype; ca_max_num_tokens := max_num_tokens;
        ca_num_experts_per_token := num_experts_per_token; ca_num_routed_ptr := num_routed_ptr;
        ca_send_buffer_ptr := send_buffer_ptr; ca_recv_buffer_ptr := recv_buffer_ptr;
        ca_sync_ptrs := sync_ptrs; ca_send_ptrs := send_ptrs; ca_recv_ptrs := recv_ptrs;
        ca_device := device; ca_worker_cpu := worker_cpu |})
  | _ => ret (Err PyTypeError)
  end.

Context (c : AllToAllContext).

Definition py_dispatch_send (args : list PyObj) : M Y (PyResult unit) :=
  match args with
  | [o_n; o_x; o_xs; o_sc; o_sce; o_sct; o_i; o_is; o_w; o_ws; o_b; o_st] =>
      arg num_tokens := usize o_n in
      arg x_ptr := u64 o_x in
      arg x_stride := usize o_xs in
      arg x_scale_ptr := extract_option u64 o_sc in
      arg x_scale_stride_elem := extract_option usize o_sce in
      arg x_scale_stride_token := extract_option usize o_sct in
      arg indices_ptr := u64 o_i in
      arg indices_stride := usize o_is in
      arg weights_ptr := u64 o_w in
      arg weights_stride := usize o_ws in
      arg bound_m_ptr := extract_option u64 o_b in
      arg stream := u64 o_st in
      runtime (dispatch_send c num_tokens x_ptr x_stride (or_zero x_scale_ptr) (or_zero x_scale_stride_elem)
        (or_zero x_scale_stride_token) indices_ptr indices_stride weights_ptr weights_stride
        (or_zero bound_m_ptr) stream)
  | _ => ret (Err PyTypeError)
  end.

Definition py_dispatch_recv (args : list PyObj) : M Y (PyResult unit) :=
  match args with
  | [o_n; o_x; o_xs; o_sc; o_sce; o_sct; o_st] =>
      arg out_num_tokens_ptr := u64 o_n in
      arg out_x_ptr := u64 o_x in
      arg out_x_stride := usize o_xs in
      arg out_x_scale_ptr := extract_option u64 o_sc in
      arg out_x_scale_stride_elem := extract_option usize o_sce in
      arg out_x_scale_stride_token := extract_option usize o_sct in
      arg stream := u64 o_st in
      runtime (dispatch_recv c out_num_tokens_ptr out_x_ptr out_x_stride (or_zero out_x_scale_ptr)
        (or_zero out_x_scale_stride_elem) (or_zero out_x_scale_stride_token) stream)
  | _ => ret (Err PyTypeError)
  end.

Definition py_combine_send (args : list PyObj) : M Y (PyResult unit) :=
  match args with
  | [o_x; o_xs; o_st] =>
      arg expert_x_ptr := u64 o_x in
      arg expert_x_stride := usize o_xs in
      arg stream := u64 o_st in
      runtime (combine_send c expert_x_ptr expert_x_stride stream)
  | _ => ret (Err PyTypeError)
  end.

Definition py_combine_recv (args : list PyObj) : M Y (PyResult unit) :=
  match args with
  | [o_n; o_nr; o_t; o_o; o_os; o_i; o_is; o_w; o_ws; o_b; o_acc; o_st] =>
      arg num_tokens := usize o_n in
      arg num_recv_tokens := usize o_nr in
      let? expert_y_dtype := extract_dtype o_t in
      arg out_tokens_ptr := u64 o_o in
      arg out_tokens_stride := usize o_os in
      arg indices_ptr := u64 o_i in
      arg indices_stride := usize o_is in
      arg weights_ptr := u64 o_w in
      arg weights_stride := usize o_ws in
      arg bound_m_ptr := extract_option u64 o_b in
      arg accumulate := extract_bool o_acc in
      arg stream := u64 o_st in
      runtime (combine_recv c num_tokens num_recv_tokens (scalar_code expert_y_dtype) out_tokens_ptr
        out_tokens_stride indices_ptr indices_stride weights_ptr weights_stride (or_zero bound_m_ptr)
        accumulate stream)
  | _ => ret (Err PyTypeError)
  end.

Inductive Method : Type := DispatchSend | DispatchRecv | CombineSend | CombineRecv.
Definition py_method (m : Method) : list PyObj -> M Y (PyResult unit) :=
  match m with
  | DispatchSend => py_dispatch_send
  | DispatchRecv => py_dispatch_recv
  | CombineSend => py_combine_send
  | CombineRecv => py_combine_recv
  end.

(** ** What reaches the kernels *)

(** The numbers of a launch that come from Python fit their types. *)
Definition typed_launch (m : Method) (l : Launch) : Prop :=
  match m, l with
  | DispatchSend, LDispatchSend a =>
      0 <= ds_num_tokens a <= x_max_num_tokens c /\
      Forall (in_u 64) [ds_x_ptr a; ds_x_stride a; ds_x_scale_ptr a; ds_x_scale_stride_elem a;
        ds_x_scale_stride_token a; ds_indices a; ds_indices_stride a; ds_weights a; ds_weights_stride a;
        ds_bound_m_ptr a; ds_stream a]
  | DispatchRecv, LDispatchRecv a =>
      Forall (in_u 64) [dr_out_num_tokens_ptr a; dr_out_x_ptr a; dr_out_x_stride a; dr_out_x_scale_ptr a;
        dr_out_x_scale_stride_elem a; dr_out_x_scale_stride_token a; dr_stream a]
  | CombineSend, LCombineSend a => Forall (in_u 64) [cs_expert_x_ptr a; cs_expert_x_stride a; cs_stream a]
  | CombineRecv, LCombineRecv a =>
      0 <= cr_expert_y_dtype a <= 14 /\
      Forall (in_u 64) [cr_num_tokens a; cr_out_tokens_ptr a; cr_out_tokens_stride a; cr_indices_ptr a;
        cr_indices_stride a; cr_weights_ptr a; cr_weights_stride a; cr_bound_m_ptr a; cr_stream a]
  | _, _ => False
  end.

(** The calls the kernels are made for: groups of 1, 2, 4 or 8, at most 512 ranks and experts, and
    results of 16 or 32 bits. *)
Definition made_for (m : Method) (args : list PyObj) : bool :=
  let w := x_args c in
  let node := LAUNCH_WORLD_SIZE (Z.of_nat (a_node_size w)) in
  match m with
  | DispatchSend => (Z.of_nat (a_world_size w) <=? 512) && (Z.of_nat (a_num_experts w) <=? 512) && node
  | DispatchRecv => node
  | CombineSend => LAUNCH_WORLD_SIZE (Z.of_nat (a_dp_size w)) && node
  | CombineRecv =>
      match args !! 2%nat with
      | Some (PyDtype (Some (F16 | BF16 | F32))) => LAUNCH_BASIC_FLOAT (x_out_dtype c) && node
      | _ => false
      end
  end.
Definition good_launch (m : Method) (args : list PyObj) (l : Launch) : Prop :=
  typed_launch m l /\ wrapper_accepts l = made_for m args.

(** [safe P p]: the call raises and nothing happened, or it is the launch of a kernel whose
    arguments satisfy [P]. *)
Definition safe (P : Launch -> Prop) (p : M Y (PyResult unit)) : Prop := forall y,
  (exists e, p y = Done (Err e, y)) \/ (exists l, P l /\ p y = runtime (launch_checked l) y).

Lemma safe_arg {A} P (e : PyResult A) (k : A -> M Y (PyResult unit)) :
  (forall a, e = Ok a -> safe P (k a)) -> safe P (arg a := e in k a).
Proof. intros Hk y. unfold bind_res, bind, ret. destruct e as [a|er]; [by apply Hk|left; eauto]. Qed.

Lemma safe_dtype P o (k : ScalarType -> M Y (PyResult unit)) :
  is_dtype o = true -> (forall t, o = PyDtype (Some t) -> safe P (k t)) -> safe P (let? t := extract_dtype o in k t).
Proof.
  intros Ho Hk y. destruct o as [| | |[t|]| | | | | | |]; try done; [by apply Hk|]. left. by eexists.
Qed.

Lemma safe_raise P e : safe P (ret (Err e)).
Proof. intros y. left. eauto. Qed.

Lemma safe_launch (P : Launch -> Prop) l : P l -> safe P (runtime (launch_checked l)).
Proof. intros Hl y. right. eauto. Qed.

(** A launch the wrapper accepts returns; it succeeds iff the kernel was launched and no transfer
    has failed. *)
Lemma launch_returns l y :
  exists r, runtime (launch_checked l) y = Done (r, (launch l y).2) /\
    (r = Ok tt <-> (launch l y).1 = 0 /\ err_counter (launch l y).2 = 0).
Proof.
  unfold runtime, PyBindings.map_err, launch_checked, question, cuda_check, worker_failed, bind_res, bind, call, gets, ret.
  destruct (launch l y) as [code y1]. cbn [fst snd].
  destruct (Z.eqb_spec code 0) as [->|Hc]; cbn [A2aContext.map_err].
  - destruct (Z.eqb_spec (err_counter y1) 0) as [He|He]; cbn [negb]; eexists; (split; [reflexivity|]); naive_solver.
  - eexists. split; [reflexivity|]. naive_solver.
Qed.

Lemma extract_uint_range w o z : 1 <= w -> extract_uint w o = Ok z -> in_u w z.
Proof.
  intros Hw. assert (2 <= 2 ^ w) by (change 2 with (2 ^ 1) at 1; apply Z.pow_le_mono_r; lia).
  destruct o as [|[]|i| | | | | | | |]; cbn; intros Ho; simplify_eq; try (unfold in_u; lia).
  unfold extract_u in Ho. destruct (Z.leb_spec 0 i), (Z.ltb_spec i (2 ^ w)); cbn in Ho; simplify_eq; unfold in_u; lia.
Qed.

Lemma u64_range o z : u64 o = Ok z -> in_u 64 z.
Proof. by apply extract_uint_range. Qed.

Lemma or_zero_range f o r :
  (forall o z, f o = Ok z -> in_u 64 z) -> extract_option f o = Ok r -> in_u 64 (or_zero r).
Proof.
  intros Hf Ho. assert (r = None \/ exists z, r = Some z /\ f o = Ok z) as [->|(z & -> & Hz)].
  - destruct o; cbn in Ho; simplify_eq; try (by left); repeat case_match; simplify_eq; right; eauto.
  - unfold in_u; cbn; lia.
  - by eapply Hf.
Qed.

Lemma scalar_code_range t : 0 <= scalar_code t <= 14.
Proof. destruct t; cbn; lia. Qed.

Create HintDb typed.
Hint Resolve u64_range or_zero_range scalar_code_range : typed.

Ltac typed_args := repeat (apply safe_arg; intros ? ?).
Ltac typed_list := repeat (apply Forall_cons_2); [..|apply Forall_nil_2]; cbn; eauto with typed.

Lemma dispatch_send_typed args : safe (good_launch DispatchSend args) (py_dispatch_send args).
Proof.
  unfold py_dispatch_send. repeat (case_match; try apply safe_raise). subst. typed_args.
  unfold dispatch_send. destruct (Z.ltb_spec (x_max_num_tokens c) a).
  - intros y. left. by eexists.
  - apply safe_launch. split; [|done]. cbn. split; [|typed_list]. assert (in_u 64 a) as [] by eauto with typed. lia.
Qed.

Lemma dispatch_recv_typed args : safe (good_launch DispatchRecv args) (py_dispatch_recv args).
Proof.
  unfold py_dispatch_recv. repeat (case_match; try apply safe_raise). subst. typed_args.
  apply safe_launch. split; [|done]. cbn. typed_list.
Qed.

Lemma combine_send_typed args : safe (good_launch CombineSend args) (py_combine_send args).
Proof.
  unfold py_combine_send. repeat (case_match; try apply safe_raise). subst. typed_args.
  apply safe_launch. split; [|done]. cbn. typed_list.
Qed.

Lemma combine_recv_typed args :
  (forall o, args !! 2%nat = Some o -> is_dtype o = true) -> safe (good_launch CombineRecv args) (py_combine_recv args).
Proof.
  unfold py_combine_recv. intros Hd. repeat (case_match; try apply safe_raise). subst. do 2 (apply safe_arg; intros ? ?).
  apply safe_dtype; [by apply Hd|intros t ->]. typed_args.
  apply safe_launch. split; [cbn; split; [apply scalar_code_range|typed_list]|by destruct t].
Qed.


(** The arguments of [AllToAllContext::new] fit their types. *)
Record typed_context (a : ContextArgs) : Prop := {
  tc_sizes : Forall (in_u 64) [a_hidden_dim (ca_worker a); a_hidden_dim_scale (ca_worker a); a_in_elemsize (ca_worker a);
    a_out_elemsize (ca_worker a); a_scale_elemsize (ca_worker a); a_expert_padding (ca_worker a);
    ca_max_num_tokens a; ca_num_experts_per_token a; ca_num_routed_ptr a; ca_send_buffer_ptr a; ca_recv_buffer_ptr a];
  tc_counts : Forall (fun n => in_u 64 (Z.of_nat n)) [a_max_recv_tokens (ca_worker a); a_max_private_tokens (ca_worker a);
    a_num_experts (ca_worker a); a_rank (ca_worker a); a_dp_size (ca_worker a); a_node_size (ca_worker a);
    a_world_size (ca_worker a)];
  tc_ptrs : Forall (in_u 64) (ca_sync_ptrs a ++ ca_send_ptrs a ++ ca_recv_ptrs a);
  tc_small : in_u 8 (ca_device a) /\ in_u 32 (a_imm_base (ca_worker a)) /\ 0 <= ca_out_dtype a <= 14;
  tc_cpu : forall cpu, ca_worker_cpu a = Some cpu -> in_u 16 cpu;
}.

Lemma extract_each_range l r : extract_each u64 l = Ok r -> Forall (in_u 64) r.
Proof.
  revert r. induction l as [|o l IH]; intros r; cbn [extract_each]; intros Hr; simplify_eq; [constructor|].
  destruct (u64 o) as [z|] eqn:Ez; [|done]. destruct (extract_each u64 l) as [r'|]; simplify_eq.
  constructor; [by eapply u64_range|by apply IH].
Qed.

Lemma extract_vec_range o r : extract_vec u64 o = Ok r -> Forall (in_u 64) r.
Proof. destruct o; cbn; intros; simplify_eq; by eapply extract_each_range. Qed.

Lemma to_nat_range o z : u64 o = Ok z -> in_u 64 (Z.of_nat (Z.to_nat z)).
Proof. intros Hz%u64_range. unfold in_u in *. lia. Qed.

Lemma option_range w o r z : 1 <= w -> extract_option (extract_uint w) o = Ok r -> r = Some z -> in_u w z.
Proof.
  intros Hw Ho ->. assert (extract_uint w o = Ok z); [|by eapply extract_uint_range].
  destruct o; cbn in *; try done; repeat case_match; by simplify_eq.
Qed.

(** [raises_or_runs Q p]: the call raises without an effect, or is [new] on arguments with [Q]. *)
Definition raises_or_runs (Q : ContextArgs -> Prop) (p : M Y (PyResult AllToAllContext)) : Prop := forall y,
  (exists e, p y = Done (Err e, y)) \/ (exists a, Q a /\ p y = runtime (context_new a) y).

Lemma runs_arg {A} Q (e : PyResult A) (k : A -> M Y (PyResult AllToAllContext)) :
  (forall a, e = Ok a -> raises_or_runs Q (k a)) -> raises_or_runs Q (arg a := e in k a).
Proof. intros Hk y. unfold bind_res, bind, ret. destruct e as [a|er]; [by apply Hk|left; eauto]. Qed.

Lemma runs_dtype Q o (k : ScalarType -> M Y (PyResult AllToAllContext)) :
  is_dtype o = true -> (forall t, raises_or_runs Q (k t)) -> raises_or_runs Q (let? t := extract_dtype o in k t).
Proof.
  intros Ho Hk y. destruct o as [| | |[t|]| | | | | | |]; try done; [apply Hk|]. left. by eexists.
Qed.

Lemma runs_raise Q e : raises_or_runs Q (ret (Err e)).
Proof. intros y. left. by exists e. Qed.

Hint Resolve extract_vec_range to_nat_range : typed.

(** Creating a context from Python.  Whatever the objects, with a [torch.dtype] as the data type,
    [create] raises before anything has happened, or it is [AllToAllContext::new] on arguments that fit their types.  A zero group
    size is not refused but makes [new] panic. *)
Theorem create_typed args y :
  (forall o, args !! 4%nat = Some o -> is_dtype o = true) ->
  (exists e, py_create args y = Done (Err e, y)) \/
  (exists a, typed_context a /\ py_create args y = runtime (context_new a) y /\
     (a_dp_size (ca_worker a) = 0%nat -> exists why, py_create args y = Panic why)).
Proof.
  intros Hd. assert (raises_or_runs typed_context (py_create args)) as Hrun.
  { unfold py_create. repeat (case_match; try apply runs_raise). subst. do 4 (apply runs_arg; intros ? ?).
    apply runs_dtype; [by apply Hd|intros t]. repeat (apply runs_arg; intros ? ?).
    intros y'. right. eexists. split; [|reflexivity]. split; cbn.
    - typed_list.
    - typed_list.
    - repeat apply Forall_app_2; eauto with typed.
    - split; [by eapply extract_uint_range|]. split; [by eapply extract_uint_range|apply scalar_code_range].
    - intros. by eapply option_range. }
  destruct (Hrun y) as [?|(a & Ha & Hr)]; [by left|]. right. exists a. split; [done|]. split; [done|].
  intros Hz. rewrite Hr. unfold runtime, PyBindings.map_err, context_new, worker_new, bind_res, bind at 1.
  unfold bind at 1. unfold bind at 1, usize_rem. rewrite Hz. cbn. eauto.
Qed.
End Methods.

(** ** Witness *)
Module PyAllToAllWitness.
Import A2aContextSpec.CtxSim.
Definition recv_args : list PyObj :=
  [PyInt 4; PyBool true; PyDtype (Some BF16); PyInt 4096; PyInt 128; PyInt 8192; PyInt 8; PyInt 12288; PyInt 8;
   PyNone; PyBool false; PyInt 0].

End PyAllToAllWitness.
