(* ===== verification/PyTypes.v ===== *)
(** * Python bindings: addresses, descriptors and the engine builder

    The small classes of [python-ext/src/py_fabric_lib.rs] that cross process boundaries: domain
    addresses, memory region descriptors and multicast handles ([py_cumem.rs]) are pickled and
    read back; the builder collects the GPUs of an engine.  A Python [str] is its UTF-8 bytes. *)
From stdpp Require Import prelude gmap strings list.
From S2P Require Import Prelude Api Sharding Provider DomainGroup Worker Utils Topo TopoSpec CuMem CuMemSpec PyBindings.
Local Open Scope Z_scope.

(** ** [PyDomainAddress] *)
Definition py_address_new (bytes : list Z) : DomainAddress := {| addr_bytes := bytes |}.
Definition py_address_getnewargs (a : DomainAddress) : list Z := addr_bytes a.
Definition py_address_from_bytes (bytes : list Z) : DomainAddress := {| addr_bytes := bytes |}.
Definition py_address_as_bytes (a : DomainAddress) : PyResult (list Z) := Ok (addr_bytes a).

Definition py_address_from_str (s : list Z) : outcome (PyResult DomainAddress) :=
  match address_from_str s with
  | Done (Ok a) => Done (Ok a)
  | Done (Err _) => Done (Err (PyValueError "Invalid Address"))
  | Panic why => Panic why
  | OutOfFuel => OutOfFuel
  end.

Definition py_address_str (a : DomainAddress) : PyResult (list Z) := Ok (address_display a).

(** [DomainAddress.from_str('..')], as bytes. *)
Definition repr_prefix : list Z :=
  [68; 111; 109; 97; 105; 110; 65; 100; 100; 114; 101; 115; 115; 46; 102; 114; 111; 109; 95; 115; 116; 114; 40; 39].
Definition repr_suffix : list Z := [39; 41].
Definition py_address_repr (a : DomainAddress) : PyResult (list Z) :=
  Ok (repr_prefix ++ address_display a ++ repr_suffix).

(** ** [PyMemoryRegionDescriptor], over the wire format of [postcard] *)
Section Descriptor.
Context (postcard_from : list Z -> option MemoryRegionDescriptor)
  (postcard_to : MemoryRegionDescriptor -> option (list Z)).

Definition py_descriptor_new (bytes : list Z) : PyResult MemoryRegionDescriptor :=
  match postcard_from bytes with
  | Some d => Ok d
  | None => Err (PyValueError "Failed to deserialize")
  end.

Definition py_descriptor_as_bytes (d : MemoryRegionDescriptor) : PyResult (list Z) :=
  match postcard_to d with
  | Some bytes => Ok bytes
  | None => Err (PyValueError "Failed to serialize")
  end.

Definition py_descriptor_getnewargs (d : MemoryRegionDescriptor) : PyResult (list Z) := py_descriptor_as_bytes d.
Definition py_descriptor_from_bytes (bytes : list Z) : PyResult MemoryRegionDescriptor := py_descriptor_new bytes.
End Descriptor.

(** ** [PyCUMulticastExportHandle], and [map] of imported and multicast handles *)
Section Multicast.
Context {Y : Type} `{CuDriver Y}.

Definition optional_device (device : option DeviceObject) : PyResult Device :=
  match device with Some d => device_extract d | None => Ok Host end.

Definition py_import_map (handle : CUMemMappingRef) (device : option DeviceObject) : M Y (PyResult CUMemMappingHolder) :=
  let? device := ret (optional_device device) in
  PyBindings.map_err (fun _ => PyRuntimeError "Failed to map CUMemAllocHandle") (map handle device).

Definition py_import_map_to (handle : CUMemMappingRef) : M (CUMemMappingHolder * Y) (PyResult unit) :=
  PyBindings.map_err (fun _ => PyRuntimeError "Failed to map_to CUMemImportHandle") (map_to handle).

Definition py_multicast_map (handle : CUMemMappingRef) (device : option DeviceObject) : M Y (PyResult CUMemMappingHolder) :=
  let? device := ret (optional_device device) in
  PyBindings.map_err (fun _ => PyRuntimeError "Failed to map CUMulticastHandle") (map handle device).

(** What bincode reads and writes of a [CUMulticastExport]: the handle and the size. *)
Context (bincode_decode : list Z -> option (GenericSerializedHandle * option Z))
  (bincode_encode : GenericSerializedHandle * Z -> list Z).

Definition py_multicast_export_new (payload : list Z) : M Y (PyResult (CUMulticastExport * bool)) :=
  match bincode_decode payload with
  | None => ret (Err (PyRuntimeError "Failed to deserialize CUMulticastExportHandle"))
  | Some (h, rest) =>
      let? handle := PyBindings.map_err (fun _ => PyRuntimeError "Failed to deserialize CUMulticastExportHandle")
                       (export_decode h) in
      match rest with
      | None =>
          export_drop handle ;;;
          ret (Err (PyRuntimeError "Failed to deserialize CUMulticastExportHandle"))
      | Some alloc_size => ret (Ok ({| mx_handle := handle; mx_alloc_size := alloc_size |}, false))
      end
  end.

Definition multicast_getnewargs (e : CUMulticastExport * bool) : PyResult (list Z) :=
  match export_encode (mx_handle e.1) with
  | Ok h => Ok (bincode_encode (h, mx_alloc_size e.1))
  | Err _ => Err (PyRuntimeError "Failed to serialize CUMulticastExportHandle")
  end.

(** What [bincode] documents. *)
Context (bincode_roundtrip : forall h n, bincode_decode (bincode_encode (h, n)) = Some (h, Some n)).

(** A pickled multicast handle describes the same object.  The bytes of an exported handle, read in
    another process, give a handle that can be bound there: if decoding its descriptor or fabric
    handle and importing it succeed, the result is a multicast object of the exported size, with
    no memory bound yet, which cannot be exported again.  The exporter's own handle cannot be
    bound (it panics). *)
Theorem pickled_multicast_binds (m : CUMulticastHandle) x bytes (y1 y2 z1 z2 z3 : Y) e h :
  py_multicast_export m y1 = Done (Ok x, y2) -> multicast_getnewargs x = Ok bytes ->
  py_multicast_export_new bytes z1 = Done (Ok e, z2) -> export_bind (mx_handle e.1) z2 = Done (Ok h, z3) ->
  (exists b, py_multicast_bind e z2 = Done (Ok b, z3) /\ cm_handle (mc_handle b) = h /\
     cm_alloc_size (mc_handle b) = cm_alloc_size (mc_handle m) /\ mc_buffers b = [] /\
     forall z, py_multicast_export b z = Done (Err (PyRuntimeError "Failed to export CUMulticastHandle"), z)) /\
  py_multicast_bind x y2 = Panic "Handle is already bound".
Proof.
  intros Hx Hb He Hh.
  assert (exists g, x = ({| mx_handle := g; mx_alloc_size := cm_alloc_size (mc_handle m) |}, true)) as (g & ->).
  { unfold py_multicast_export, PyBindings.map_err, multicast_export, bind_res, bind, ret in Hx.
    destruct (export_new _ _ y1) as [[[g|er] y]| |]; simplify_eq. by exists g. }
  unfold multicast_getnewargs in Hb. cbn [fst mx_handle mx_alloc_size] in Hb.
  destruct (export_encode g) as [p|]; [|done]. simplify_eq.
  unfold py_multicast_export_new in He. rewrite bincode_roundtrip in He.
  unfold bind_res, PyBindings.map_err, bind, ret in He.
  destruct (export_decode p z1) as [[[d|er] z]| |]; simplify_eq. cbn [fst mx_handle mx_alloc_size] in *.
  split; [|done]. eexists. unfold py_multicast_bind, PyBindings.map_err, multicast_bind, assert_, bind_res, bind, ret.
  cbn [fst snd negb mx_handle]. rewrite Hh. cbn. split; [done|]. by split_and!.
Qed.
End Multicast.

(** ** [PyTransferEngineBuilder]: up to the workers handed to [TransferEngine::new] *)
Section Builder.
Context {E V : Type} (name : DomainInfo E V -> list Z).

Definition py_builder : list (GpuDomainSpec (E := E) (V := V)) := [].

(** The arguments are extracted before the builder is borrowed. *)
Definition py_add_gpu_domains (cuda_device : Z) (domains : list (DomainInfo E V)) (pin_worker_cpu pin_uvm_cpu : Z)
    (builder : list (GpuDomainSpec (E := E) (V := V))) : PyResult (list (GpuDomainSpec (E := E) (V := V))) :=
  match extract_u 8 cuda_device, extract_u 16 pin_worker_cpu, extract_u 16 pin_uvm_cpu with
  | Ok d, Ok w, Ok u => Ok (add_gpu_domains builder d domains w u)
  | Err e, _, _ | _, Err e, _ | _, _, Err e => Err e
  end.

(** What [anyhow] errors become: a [RuntimeError] with the message of the error, here without the
    numbers and names in it. *)
Definition build_error_text (e : BuildError) : string :=
  match e with
  | DuplicatedGPUs => "Duplicated GPUs in the builder"
  | NoGPUs => "No GPUs in the builder"
  | GpuNotFound _ => "cuda:_ not found in system topology"
  | DuplicatedDomains _ => "Duplicated domains in cuda:_"
  | DomainNotFound _ _ => "Domain _ not found in the topology group of cuda:_"
  | CpuNotFound _ _ => "CPU _ not found in the topology group of cuda:_"
  | BuildFabric _ => "FabricLibError"
  end.

Definition py_build (system_topo : res (list (TopologyGroup E V))) (builder : list (GpuDomainSpec (E := E) (V := V))) :
    PyResult (list (Z * WorkerSpec_ (E := E) (V := V))) :=
  match prepare_workers name system_topo builder with
  | Ok workers => Ok workers
  | Err e => Err (PyRuntimeError (build_error_text e))
  end.
End Builder.

(** ** Addresses as text *)
Definition is_ascii (c : Z) : Prop := 0 <= c < 128.

Lemma ascii_boundary s : Forall is_ascii s -> at_boundary s = true.
Proof.
  intros [|c l Hc _]; [done|]. unfold at_boundary, is_ascii in *. destruct (Z.leb_spec 128 c); [lia|done].
Qed.

(** ASCII text of even length is parsed without a panic. *)
Lemma from_hex_ascii s : Forall is_ascii s -> Nat.even (length s) = true -> exists r, from_hex s = Done r.
Proof.
  remember (length s) as n eqn:Hn. revert s Hn.
  induction n as [n IH] using lt_wf_ind. intros [|a [|b rest]] -> Ha Hev; [by eexists|done|].
  apply Forall_cons in Ha as [_ [_ Ha]%Forall_cons]. cbn [from_hex]. rewrite (ascii_boundary rest Ha). cbn [negb].
  destruct (from_str_radix_16 a b); [|by eexists].
  destruct (IH (length rest) ltac:(cbn; lia) rest eq_refl Ha Hev) as [r ->]. destruct r; by eexists.
Qed.

(** C38: addresses cross processes unchanged.  Pickling and [from_bytes] give back the address; so does
    [from_str] of [str], for a non-empty address, and the text that [repr] puts between its
    quotes is that text.  [from_str] raises or returns on every ASCII text; on other text it can
    panic instead of raising: a character that does not start at an even byte splits a digit
    pair. *)
Theorem address_text_roundtrip a :
  py_address_new (py_address_getnewargs a) = a /\
  (forall bytes, py_address_as_bytes a = Ok bytes -> py_address_from_bytes bytes = a) /\
  (Forall is_byte (addr_bytes a) -> addr_bytes a <> [] ->
   exists text, py_address_str a = Ok text /\ py_address_from_str text = Done (Ok a) /\
     py_address_repr a = Ok (repr_prefix ++ text ++ repr_suffix)) /\
  (forall s, Forall is_ascii s -> exists r, py_address_from_str s = Done r) /\
  py_address_from_str [97; 195; 169; 49] = Panic "byte index is not a char boundary".
Proof.
  split_and!.
  - by destruct a.
  - intros bytes [= <-]. by destruct a.
  - intros Hb Hne. eexists. split; [reflexivity|]. split; [|done].
    unfold py_address_from_str. by rewrite address_display_roundtrip.
  - intros s Hs. unfold py_address_from_str, address_from_str.
    destruct (Nat.even (length s)) eqn:Hev; cbn [negb orb]; [|by eexists].
    destruct (length s =? 0)%nat; [by eexists|]. destruct (from_hex_ascii s Hs Hev) as [[]  ->]; by eexists.
  - reflexivity.
Qed.

(** ** The automatic configuration and the builder *)
Section Configured.
Context {E V : Type} (name : DomainInfo E V -> list Z).

(** The calls that add one group each. *)
Definition add_specs (specs : list (GpuDomainSpec (E := E) (V := V))) : PyResult (list (GpuDomainSpec (E := E) (V := V))) :=
  foldl (fun b s => match b with
                    | Ok b => py_add_gpu_domains (gs_cuda_device s) (gs_domains s) (gs_pin_worker_cpu s) (gs_pin_uvm_cpu s) b
                    | Err e => Err e
                    end) (Ok py_builder) specs.

Definition spec_fits (s : GpuDomainSpec (E := E) (V := V)) : Prop :=
  in_u 8 (gs_cuda_device s) /\ in_u 16 (gs_pin_worker_cpu s) /\ in_u 16 (gs_pin_uvm_cpu s).

Lemma extract_u_fits w z : in_u w z -> extract_u w z = Ok z.
Proof.
  intros [H1 H2]. unfold extract_u. by rewrite (proj2 (Z.leb_le _ _) H1), (proj2 (Z.ltb_lt _ _) H2).
Qed.

Lemma add_specs_app specs b :
  Forall spec_fits specs ->
  foldl (fun b s => match b with
                    | Ok b => py_add_gpu_domains (gs_cuda_device s) (gs_domains s) (gs_pin_worker_cpu s) (gs_pin_uvm_cpu s) b
                    | Err e => Err e
                    end) (Ok b) specs = Ok (b ++ specs).
Proof.
  intros Hf. revert b. induction Hf as [|s specs (H1 & H2 & H3) _ IH]; intros b; cbn [foldl]; [by rewrite app_nil_r|].
  unfold py_add_gpu_domains. rewrite !extract_u_fits by done. rewrite IH. unfold add_gpu_domains.
  rewrite <- app_assoc. by destruct s.
Qed.

Lemma configure_groups_app nets devices (topo : list (TopologyGroup E V)) b r specs r' :
  configure_groups nets devices topo b r = Ok (specs, r') ->
  exists added, specs = b ++ added /\
    Forall (fun s => exists g, g ∈ topo /\ configure_group nets g = Ok s /\ tp_cuda_device g ∈ devices) added.
Proof.
  revert b r. induction topo as [|g topo IH]; intros b r; cbn [configure_groups].
  - intros [= <- <-]. exists []. by rewrite app_nil_r.
  - case_bool_decide as Hd; cbn [negb].
    + destruct (configure_group nets g) as [s|e] eqn:Hs; [|done]. intros (added & -> & Hall)%IH.
      exists (s :: added). unfold add_gpu_domains. rewrite <- app_assoc. split; [by destruct s|].
      constructor; [exists g; split; [set_solver|done]|].
      eapply Forall_impl; [exact Hall|]. intros s' (g' & ? & ?). exists g'. split; [set_solver|done].
    + intros (added & -> & Hall)%IH. exists added. split; [done|].
      eapply Forall_impl; [exact Hall|]. intros s' (g' & ? & ?). exists g'. split; [set_solver|done].
Qed.

(** The automatic constructor is the builder with the selected groups.  When
    [TransferEngine.__new__] accepts its arguments, calling [add_gpu_domains] once per selected
    group, with the first cards of the group and its first two CPUs, and then [build] gives the
    same workers. *)
Theorem constructor_is_builder (topo : list (TopologyGroup E V)) nets devices workers :
  configure name (Ok topo) nets devices = Ok workers ->
  Forall (fun g => in_u 8 (tp_cuda_device g) /\ Forall (in_u 16) (tp_cpus g)) topo ->
  exists specs builder, add_specs specs = Ok builder /\ py_build name (Ok topo) builder = Ok workers /\
    Forall (fun s => exists g, g ∈ topo /\ configure_group nets g = Ok s /\ tp_cuda_device g ∈ devices) specs.
Proof.
  intros Hc Htopo. unfold configure in Hc.
  destruct (configure_groups nets devices topo [] ∅) as [[specs r]|] eqn:Hg; [|done].
  destruct (filter _ devices); [|done]. destruct (configure_groups_app _ _ _ _ _ _ _ Hg) as (added & Heq & Hall).
  cbn in Heq. subst added. exists specs, specs. split; [|split; [|done]].
  - apply (add_specs_app specs []). eapply Forall_impl; [exact Hall|]. intros s (g & Hin & Hs & _).
    rewrite Forall_forall in Htopo. destruct (Htopo g Hin) as [Hd Hcpu]. unfold configure_group in Hs.
    destruct (length (tp_domains g) <? nets)%nat; [done|]. destruct (tp_cpus g) as [|w [|u rest]]; simplify_eq.
    apply Forall_cons in Hcpu as [? [? _]%Forall_cons]. done.
  - unfold py_build. by destruct (prepare_workers name (Ok topo) specs).
Qed.
End Configured.

(** ** Witness *)
Module PyTypesWitness.
Lemma constructor_is_builder_witness :
  exists specs builder, add_specs specs = Ok builder /\
    py_build PyWitness.card (Ok PyWitness.node) builder =
    Ok [(0, {| wk_domain_list := [InfoVerbs 4]; wk_pin_worker_cpu := Some 0; wk_pin_uvm_cpu := Some 1 |})].
Proof.
  destruct (constructor_is_builder PyWitness.card PyWitness.node 1 [0]
    [(0, {| wk_domain_list := [InfoVerbs 4]; wk_pin_worker_cpu := Some 0; wk_pin_uvm_cpu := Some 1 |})])
    as (specs & builder & Hadd & Hbuild & _).
  - vm_compute. reflexivity.
  - repeat constructor; vm_compute; congruence.
  - by exists specs, builder.
Defined.
End PyTypesWitness.
