(* ===== verification/PyEngine.v ===== *)
(** * Python bindings: the engine

    [PyTransferEngine] of [python-ext/src/py_fabric_lib.rs]: the engine with a cache of host buffers
    and the immediate callback set from Python.  The methods hand closures to the engine; running
    one gives back its host buffer, if it has one, and calls a Python object.

    [O] are Python objects.  Bytes of host memory are part of the state, and the blocks the
    allocator has handed out.  Python callbacks that call the engine again are the subject of
    [EngineSpec] and [PyLocks]; here they answer [python] and leave the engine alone. *)
From stdpp Require Import prelude gmap strings list.
From S2P Require Import Prelude Utils Api ImmCount Sharding Provider DomainGroup Worker FabricEngine TransferEngine FabricSpec EngineSpec HostBuffer PyBindings.
Local Open Scope Z_scope.

(** What the methods box up. *)
Inductive Closure (O : Type) : Type :=
  | OnDone (f : O)
  | OnError (f : O)
  | OnSend (buf : HostBuffer) (on_done on_error : O)
  | OnImm
  | OnReached (f : O)
  | OnChanged (f : O)
  | OnRecv (f : O).
Arguments OnDone {O}.
Arguments OnError {O}.
Arguments OnSend {O}.
Arguments OnImm {O}.
Arguments OnReached {O}.
Arguments OnChanged {O}.
Arguments OnRecv {O}.

(** Arguments of a call. *)
Inductive PyArgs : Type :=
  | NoArgs
  | ErrArg (e : FabricLibError)
  | ImmArg (imm : Z)
  | WatchArgs (old new_ : Z)
  | DataArg (data_len : Z).

Record PyTransferEngine (W O : Type) := {
  py_te : TransferEngine W (Closure O);
  py_cache : HostBufferCache;
  py_blocks : list (Z * Z);
  py_mem : Bytes;
  py_imm : option O;
  py_calls : list (O * PyArgs);
}.
Arguments py_te {W O}.
Arguments py_cache {W O}.
Arguments py_blocks {W O}.
Arguments py_mem {W O}.
Arguments py_imm {W O}.
Arguments py_calls {W O}.
Arguments Build_PyTransferEngine {W O}.

Section Bindings.
Context {W O : Type} `{WorkerLink W}.
Context (shard : Z -> nat).
(** Where the allocator puts a new block. *)
Context (pick : Z -> list (Z * Z) -> Z).
Context (pointer_type : Z -> res Z).
Context (iter_map : gmap Z (gset nat) -> list (Z * gset nat)) (iter_set : gset nat -> list nat).
(** What calling an object returns, as a truth value, or its exception. *)
Context (python : O -> PyArgs -> result string bool).
Abbreviation PE := (PyTransferEngine W O).
Abbreviation TE := (TransferEngine W (Closure O)).

Definition set_te (te : TE) (s : PE) : PE :=
  Build_PyTransferEngine te (py_cache s) (py_blocks s) (py_mem s) (py_imm s) (py_calls s).
Definition set_cache (c : HostBufferCache) (s : PE) : PE :=
  Build_PyTransferEngine (py_te s) c (py_blocks s) (py_mem s) (py_imm s) (py_calls s).
Definition set_mem (m : Bytes) (s : PE) : PE :=
  Build_PyTransferEngine (py_te s) (py_cache s) (py_blocks s) m (py_imm s) (py_calls s).
Definition set_py_imm (f : option O) (s : PE) : PE :=
  Build_PyTransferEngine (py_te s) (py_cache s) (py_blocks s) (py_mem s) f (py_calls s).
Definition add_call (f : O) (a : PyArgs) (s : PE) : PE :=
  Build_PyTransferEngine (py_te s) (py_cache s) (py_blocks s) (py_mem s) (py_imm s) (py_calls s ++ [(f, a)]).

Definition on_te {A} (m : M TE A) : M PE A := on_state py_te set_te m.

(** [PyTransferEngine::wrap]. *)
Definition wrap (te : TE) (m : Bytes) : PE := Build_PyTransferEngine te cache_new [] m None [].

(** ** The allocator of host buffers *)
Abbreviation Host_ := (list (Z * Z) * TE)%type.

Definition alloc_block (size : Z) (y : Host_) : Z * Host_ :=
  let p := pick size y.1 in (p, (y.1 ++ [(p, size)], y.2)).

Definition free_block (ptr size : Z) (y : Host_) : Host_ :=
  (filter (fun b => b <> (ptr, size)) y.1, y.2).

(** The engine's [register_memory_local].  An engine has a worker, and then the call returns
    ([register_returns]). *)
Definition register_block (ptr size : Z) (y : Host_) : res MemoryRegionHandle * Host_ :=
  match on_engine (fe_register_memory_local pointer_type ptr size Host) y.2 with
  | Done (Ok h, te) => (Ok h, (y.1, te))
  | Done (Err e, te) => (Err e, (y.1, te))
  | _ => (Err (Custom "no worker"), y)
  end.

Definition on_host {A} (m : M (HostBufferCache * Host_) A) : M PE A :=
  on_state (fun s => (py_cache s, (py_blocks s, py_te s)))
    (fun h s => Build_PyTransferEngine h.2.2 h.1 h.2.1 (py_mem s) (py_imm s) (py_calls s)) m.

(** ** Methods *)
Definition py_submit_send (addr : DomainAddress) (data : list Z) (on_done on_error : O) : M PE (PyResult unit) :=
  let len := Z.of_nat (length data) in
  let? buf := map_err (fun _ => PyRuntimeError "Failed to allocate host buffer")
                (on_host (allocate alloc_block free_block register_block iter_map iter_set len)) in
  assert_ (len <=? hb_length buf) "range end index out of range for slice" ;;;
  modify (fun s => set_mem (write_bytes (hb_ptr buf) data (py_mem s)) s) ;;;
  let send_buffer := {| sb_ptr := hb_ptr buf; sb_len := len; sb_mr_handle := hb_mr_handle buf |} in
  map_err (fun _ => PyRuntimeError "Failed to submit SEND")
    (on_te (te_submit_send shard addr send_buffer (OnSend buf on_done on_error))).

Definition py_set_imm_callback (callback : O) : M PE (PyResult unit) :=
  let! old := gets py_imm in
  modify (set_py_imm (Some callback)) ;;;
  match old with
  | Some _ => ret (Ok tt)
  | None => on_te (add_imm_callback OnImm) ;;; ret (Ok tt)
  end.

(** [NonZeroU32::new]. *)
Definition py_set_imm_count_expected (imm expected_count : Z) (on_reached : O) :
    M PE (PyResult (option (Z * option Z))) :=
  if expected_count =? 0 then ret (Err (PyValueError "Expected count cannot be zero")) else
  let! old := on_te (set_imm_count_expected shard imm expected_count (OnReached on_reached)) in
  match old with
  | None => ret (Ok None)
  | Some c => let! r := on_te (on_engine (on_imm_map (on_heap (consume c)))) in ret (Ok (Some r))
  end.

Definition py_remove_imm_count (imm : Z) : M PE (option (Z * option Z)) :=
  let! old := on_te (remove_imm_count shard imm) in
  match old with
  | None => ret None
  | Some c => let! r := on_te (on_engine (on_imm_map (on_heap (consume c)))) in ret (Some r)
  end.

Definition py_alloc_scalar_watcher (on_changed : O) : M PE (PyResult Z) :=
  map_err (fun _ => PyRuntimeError "Failed to allocate scalar watcher")
    (on_te (alloc_scalar_watcher shard (OnChanged on_changed))).

Definition make_transfer_callback (on_done on_error : O) : TransferCallback (Closure O) :=
  {| on_done := OnDone on_done; on_error := OnError on_error |}.

Definition py_submit_imm (imm_data : Z) (dst_mr : MemoryRegionDescriptor) (on_done on_error : O) : M PE (PyResult unit) :=
  let write_op := {| ir_imm_data := imm_data; ir_dst_mr := dst_mr; ir_domain := Pinned 0 |} in
  map_err (fun _ => PyRuntimeError "Failed to submit imm")
    (on_te (te_submit_transfer shard (ReqImm write_op) (make_transfer_callback on_done on_error))).

(** [num_shards] is a [NonZeroU8]. *)
Definition py_submit_write (src_mr : MemoryRegionHandle) (offset length : Z) (imm_data : option Z)
    (dst_mr : MemoryRegionDescriptor) (dst_offset : Z) (on_done on_error : O) (num_shards : option Z) :
    M PE (PyResult unit) :=
  let! e := gets (fun s => te_engine (py_te s)) in
  if (match num_shards with Some n => fe_num_domains e <? n | None => false end)
  then ret (Err (PyValueError "num_shards is too big")) else
  let write_op := {|
    sr_src_mr := src_mr;
    sr_src_offset := offset;
    sr_length := length;
    sr_imm_data := imm_data;
    sr_dst_mr := dst_mr;
    sr_dst_offset := dst_offset;
    sr_domain := RoundRobinSharded (default (fe_nets_per_gpu e) num_shards);
  |} in
  map_err (fun _ => PyRuntimeError "Failed to submit paged writes")
    (on_te (te_submit_transfer shard (ReqSingle write_op) (make_transfer_callback on_done on_error))).

Definition py_submit_paged_writes (length : Z) (src_mr : MemoryRegionHandle) (src_page_indices : list Z)
    (src_stride src_offset : Z) (dst_mr : MemoryRegionDescriptor) (dst_page_indices : list Z)
    (dst_stride dst_offset : Z) (imm_data : option Z) (on_done on_error : O) : M PE (PyResult unit) :=
  let write_op := {|
    pr_length := length;
    pr_src_mr := src_mr;
    pr_src_page_indices := src_page_indices;
    pr_src_stride := src_stride;
    pr_src_offset := src_offset;
    pr_dst_mr := dst_mr;
    pr_dst_page_indices := dst_page_indices;
    pr_dst_stride := dst_stride;
    pr_dst_offset := dst_offset;
    pr_imm_data := imm_data;
  |} in
  map_err (fun _ => PyRuntimeError "Failed to submit paged writes")
    (on_te (te_submit_transfer shard (ReqPaged write_op) (make_transfer_callback on_done on_error))).

(** [storage]: where the allocator puts the buffer of the receives. *)
Definition py_submit_bouncing_recvs (storage : Z) (count : nat) (len : Z) (on_recv on_error : O) :
    M PE (PyResult unit) :=
  map_err (fun _ => PyRuntimeError "Failed to submit RECV")
    (on_te (submit_bouncing_recvs shard pointer_type storage len count
       (fun _ => OnRecv on_recv) (fun _ => OnError on_error))).

(** [register_memory]: [len] is a [usize], a null pointer is refused. *)
Definition py_register_memory (ptr len : Z) (device : DeviceObject) :
    M PE (PyResult (MemoryRegionHandle * MemoryRegionDescriptor)) :=
  let? device := ret (device_extract device) in
  if negb (len mod 4096 =? 0) then ret (Err (PyValueError "Tensor size is not page-aligned")) else
  if ptr =? 0 then ret (Err (PyValueError "Invalid data pointer")) else
  map_err (fun _ => PyRuntimeError "Failed to register memory")
    (on_te (on_engine (fe_register_memory_allow_remote pointer_type ptr len device))).

(** What [register_tensor] reads of a tensor. *)
Record TensorObject := {
  t_device : DeviceObject;
  t_data_ptr : Z;
  t_contiguous : bool;
  t_numel : Z;
  t_element_size : Z;
}.

Definition py_register_tensor (tensor : TensorObject) :
    M PE (PyResult (MemoryRegionHandle * MemoryRegionDescriptor)) :=
  let? device := ret (device_extract (t_device tensor)) in
  if t_data_ptr tensor =? 0 then ret (Err (PyValueError "Invalid data pointer")) else
  if negb (t_contiguous tensor) then ret (Err (PyValueError "Tensor is not contiguous")) else
  let len := u64_mul (t_numel tensor) (t_element_size tensor) in
  if negb (len mod 4096 =? 0) then ret (Err (PyValueError "Tensor size is not page-aligned")) else
  map_err (fun _ => PyRuntimeError "Failed to register memory")
    (on_te (on_engine (fe_register_memory_allow_remote pointer_type (t_data_ptr tensor) len device))).

Definition py_unregister_memory (ptr : Z) : M PE (PyResult unit) :=
  if ptr =? 0 then ret (Err (PyValueError "Invalid data pointer")) else
  map_err (fun _ => PyRuntimeError "Failed to unregister memory") (on_te (on_engine (fe_unregister_memory ptr))).

Definition py_stop : M PE unit := on_te te_stop.

(** ** Running the closures *)

(** What a closure returns to the engine: the count callback runs once. *)
Definition closure_answer (imm_callback : option O) (i : Invocation (Closure O)) : result string bool :=
  match i with
  | IDone _ (OnDone f) => python f NoArgs
  | IError _ (OnError f) e => python f (ErrArg e)
  | ISend _ (OnSend _ on_done _) (Ok _) => python on_done NoArgs
  | ISend _ (OnSend _ _ on_error) (Err e) => python on_error (ErrArg e)
  | IImm OnImm imm => match imm_callback with Some f => python f (ImmArg imm) | None => Ok true end
  | ICount _ (OnReached f) => match python f NoArgs with Ok _ => Ok false | Err e => Err e end
  | IWatch _ (OnChanged f) old new_ => python f (WatchArgs old new_)
  | IRecv _ (OnRecv f) n => python f (DataArg n)
  | _ => Ok true
  end.

(** What it does besides: a send gives its buffer back before it calls Python. *)
Definition effect (i : Invocation (Closure O)) (s : PE) : PE :=
  match i with
  | IDone _ (OnDone f) => add_call f NoArgs s
  | IError _ (OnError f) e => add_call f (ErrArg e) s
  | ISend _ (OnSend buf on_done _) (Ok _) => add_call on_done NoArgs (set_cache (hb_drop buf (py_cache s)) s)
  | ISend _ (OnSend buf _ on_error) (Err e) => add_call on_error (ErrArg e) (set_cache (hb_drop buf (py_cache s)) s)
  | IImm OnImm imm => match py_imm s with Some f => add_call f (ImmArg imm) s | None => s end
  | ICount _ (OnReached f) => add_call f NoArgs s
  | IWatch _ (OnChanged f) old new_ => add_call f (WatchArgs old new_) s
  | IRecv _ (OnRecv f) n => add_call f (DataArg n) s
  | _ => s
  end.

Definition closures (imm_callback : option O) : Handlers W (Closure O) :=
  {| run := fun i => ret (closure_answer imm_callback i) |}.

(** The callback thread handles a completion. *)
Definition py_complete (c : TransferCompletionEntry) : M PE CallbackResult :=
  let! imm_callback := gets py_imm in
  let! before := gets (fun s => length (trace (py_te s))) in
  let! r := on_te (@handle_transfer_completion W (Closure O) _ shard (closures imm_callback) c) in
  modify (fun s => foldl (fun s i => effect i s) s (drop before (trace (py_te s)))) ;;;
  ret r.
End Bindings.
