(* ===== verification/PyEngineSpec.v ===== *)
(** * The bindings of the engine: theorems

    Sends from Python keep their bytes until they are reported; the immediate callback is the one
    set last. *)
From stdpp Require Import prelude gmap strings list.
From S2P Require Import Prelude Utils Api ImmCount Sharding Provider DomainGroup Worker FabricEngine TransferEngine FabricSpec EngineSpec HostBuffer TopoParse PyBindings PyEngine.
Local Open Scope Z_scope.

Section Spec.
Context {W O : Type} `{WorkerLink W}.
Context (shard : Z -> nat) (pick : Z -> list (Z * Z) -> Z) (pointer_type : Z -> res Z).
Context (iter_map : gmap Z (gset nat) -> list (Z * gset nat)) (iter_set : gset nat -> list nat).
Context (python : O -> PyArgs -> result string bool).
Abbreviation PE := (PyTransferEngine W O).
Abbreviation TE := (TransferEngine W (Closure O)).

(** ** The immediate callback *)
Inductive imm_op : Type := SetImm (f : O) | ImmArrives (imm : Z).

Definition imm_exec (o : imm_op) : M PE unit :=
  match o with
  | SetImm f => py_set_imm_callback f ;;; ret tt
  | ImmArrives imm => py_complete shard python (TcImmData imm) ;;; ret tt
  end.

(** What Python should see: every immediate goes to the callback set last. *)
Fixpoint imm_reference (current : option O) (ops : list imm_op) : list (O * PyArgs) :=
  match ops with
  | [] => []
  | SetImm f :: ops => imm_reference (Some f) ops
  | ImmArrives imm :: ops =>
      match current with Some f => [(f, ImmArg imm)] | None => [] end ++ imm_reference current ops
  end.

(** The closure is registered with the engine once. *)
Definition imm_inv (s : PE) : Prop :=
  cb_imm (callbacks (py_te s)) = (match py_imm s with Some _ => [OnImm] | None => [] end) /\
  cb_imm_readers (callbacks (py_te s)) = 0%nat.

Context (imm_answers : forall f imm, exists b, python f (ImmArg imm) = Ok b).

Lemma closures_pure imm : @pure_callbacks W (Closure O) (closures python imm) (closure_answer python imm).
Proof. intros i s. done. Qed.

Lemma answer_imm cur cb imm : exists b, closure_answer python cur (IImm cb imm) = Ok b.
Proof. destruct cb; [..|by eauto]; destruct cur; simpl; eauto. Qed.

Lemma set_imm_run f s :
  imm_inv s -> exists s', py_set_imm_callback f s = Done (Ok tt, s') /\ imm_inv s' /\
    py_imm s' = Some f /\ py_calls s' = py_calls s.
Proof.
  intros [Hc Hr]. unfold py_set_imm_callback, bind, gets, modify. destruct (py_imm s) as [g|] eqn:Eg.
  - eexists. split; [reflexivity|]. split; [|done]. split; simpl; [by rewrite Hc|done].
  - unfold on_te, on_state, add_imm_callback. cbn [py_te set_py_imm]. rewrite Hr. cbn [Nat.ltb Nat.leb].
    eexists. split; [reflexivity|]. split; [|done]. split; simpl; [by rewrite Hc|done].
Qed.

Lemma imm_arrives_run imm s :
  imm_inv s -> exists s', py_complete shard python (TcImmData imm) s = Done (Ok tt, s') /\ imm_inv s' /\
    py_imm s' = py_imm s /\
    py_calls s' = py_calls s ++ match py_imm s with Some f => [(f, ImmArg imm)] | None => [] end.
Proof.
  intros [Hc Hr]. unfold py_complete, bind, gets, modify, on_te, on_state. cbn [handle_transfer_completion].
  rewrite (run_imm_pure (closure_answer python (py_imm s)) imm (py_te s));
    [|apply closures_pure|intros cb; apply answer_imm].
  rewrite Hc. destruct (py_imm s) as [f|] eqn:Ef; (eexists; split; [reflexivity|]);
    cbn [py_te set_te trace add_traces fmap list_fmap]; rewrite drop_app_length; cbn [foldl effect].
  - cbn [py_imm set_te]. rewrite Ef. split; [|done]. split; simpl; [by rewrite Ef, Hc|done].
  - split; [|split; [done|simpl; by rewrite app_nil_r]]. split; simpl; [by rewrite Ef, Hc|done].
Qed.

(** C35: immediates go to the callback set last.  From a new engine, for any sequence of
    [set_imm_callback] calls and arriving immediates, whatever the callbacks return short of an
    exception: nothing panics, each immediate calls the object set last, once and with its value,
    and is ignored before any is set; replacing a callback never leaves the old one registered. *)
Theorem imm_callback_is_latest ops (te : TE) m :
  cb_imm (callbacks te) = [] -> cb_imm_readers (callbacks te) = 0%nat ->
  exists s, for_each ops imm_exec (wrap te m) = Done (tt, s) /\ py_calls s = imm_reference None ops /\
    (length (cb_imm (callbacks (py_te s))) <= 1)%nat.
Proof.
  intros Hc Hr. assert (imm_inv (wrap te m)) as Hi by done.
  change (imm_reference None ops) with (py_calls (wrap te m) ++ imm_reference (py_imm (wrap te m)) ops).
  revert Hi. generalize (wrap te m) as s. clear te m Hc Hr. induction ops as [|o ops IH]; intros s Hi.
  { exists s. split; [done|]. split; [by rewrite app_nil_r|]. destruct Hi as [-> _]. by destruct (py_imm s); simpl; lia. }
  cbn [for_each]. destruct o as [f|imm]; unfold bind at 1, imm_exec at 1; unfold bind at 1.
  - destruct (set_imm_run f s Hi) as (s1 & -> & Hi1 & Hf & Hl). cbn [ret].
    destruct (IH s1 Hi1) as (s' & Hs' & Hcalls & Hlen). exists s'. by rewrite Hs', Hcalls, Hf, Hl.
  - destruct (imm_arrives_run imm s Hi) as (s1 & -> & Hi1 & Hf & Hl). cbn [ret].
    destruct (IH s1 Hi1) as (s' & Hs' & Hcalls & Hlen). exists s'. rewrite Hs', Hcalls, Hf, Hl, <- app_assoc. done.
Qed.
End Spec.

(** ** Sends *)
Section Sends.
Context {W O : Type} `{WorkerLink W}.
Context (shard : Z -> nat) (pick : Z -> list (Z * Z) -> Z) (pointer_type : Z -> res Z).
Context (iter_map : gmap Z (gset nat) -> list (Z * gset nat)) (iter_set : gset nat -> list nat).
Context (python : O -> PyArgs -> result string bool).
Abbreviation PE := (PyTransferEngine W O).
Abbreviation TE := (TransferEngine W (Closure O)).

Inductive send_op : Type :=
  | SendData (addr : DomainAddress) (data : list Z) (on_done on_error : O)
  | SendCompletes (id : Z)
  | SendFails (id : Z) (e : FabricLibError).

Definition send_exec (o : send_op) (s : PE) : outcome PE :=
  match o with
  | SendData addr data d e =>
      out_map snd (py_submit_send shard pick pointer_type iter_map iter_set addr data d e s)
  | SendCompletes id => out_map snd (py_complete shard python (TcSend id) s)
  | SendFails id e => out_map snd (py_complete shard python (TcError id e) s)
  end.

(** A run, with the data each id was submitted with. *)
Fixpoint send_run (ops : list send_op) (s : PE) (sent : gmap Z (list Z)) : outcome (PE * gmap Z (list Z)) :=
  match ops with
  | [] => Done (s, sent)
  | o :: ops =>
      out_bind (send_exec o s) (fun s' =>
        send_run ops s' (match o with
                         | SendData _ data _ _ => <[next_transfer_id (py_te s) := data]> sent
                         | _ => sent
                         end))
  end.

(** The sends in flight and their buffers. *)
Definition in_flight (s : PE) : gmap Z (Closure O) := dm_map (cb_send_ops (callbacks (py_te s))).
Definition buffer_in (f : Closure O) : option HostBuffer :=
  match f with OnSend b _ _ => Some b | _ => None end.
Definition buffers (m : gmap Z (Closure O)) : list HostBuffer := omap (fun kv => buffer_in kv.2) (map_to_list m).

Definition no_guards (te : TE) : Prop :=
  dm_guards (cb_send_ops (callbacks te)) = [] /\ dm_guards (cb_transfer_ops (callbacks te)) = [] /\
  dm_guards (cb_recv_ops (callbacks te)) = [].

(** Blocks of the allocator do not overlap. *)
Definition blocks_apart (l : list (Z * Z)) : Prop :=
  forall i j a b, i <> j -> l !! i = Some a -> l !! j = Some b -> apart a.1 a.2 b.1 b.2.

(** A send in flight is in its buffer. *)
Definition flight_ok (n : Z) (sent : gmap Z (list Z)) (m : Bytes) (id : Z) (f : Closure O) : Prop :=
  id < n /\ exists b d e data, f = OnSend b d e /\ sent !! id = Some data /\
    Z.of_nat (length data) <= hb_length b /\ read_bytes (hb_ptr b) (length data) m = data.

Record send_inv (s : PE) (sent : gmap Z (list Z)) : Prop := {
  si_id : 0 <= next_transfer_id (py_te s);
  si_guards : no_guards (py_te s);
  si_workers : workers (te_engine (py_te s)) <> [];
  si_wf : hb_wf (py_cache s) (buffers (in_flight s));
  si_blocks : py_blocks s = block_of <$> hb_buffers (py_cache s);
  si_apart : blocks_apart (py_blocks s);
  si_data : map_Forall (flight_ok (next_transfer_id (py_te s)) sent (py_mem s)) (in_flight s);
}.

(** Distinct buffers of a well-formed cache do not overlap. *)
Lemma buffers_apart c live l b1 b2 i j :
  hb_wf c live -> l = block_of <$> hb_buffers c -> blocks_apart l -> i <> j ->
  live !! i = Some b1 -> live !! j = Some b2 -> apart (hb_ptr b1) (hb_length b1) (hb_ptr b2) (hb_length b2).
Proof.
  intros [Ho Hd _] -> Ha Hij Hi Hj.
  pose proof (Forall_lookup_1 _ _ _ _ Ho Hi) as (e1 & E1 & P1 & L1 & _).
  pose proof (Forall_lookup_1 _ _ _ _ Ho Hj) as (e2 & E2 & P2 & L2 & _).
  rewrite P1, L1, P2, L2. eapply (Ha (hb_index b1) (hb_index b2) (block_of e1) (block_of e2)).
  - intros Heq. apply Hij. eapply (NoDup_lookup _ i j (hb_index b1) Hd); rewrite list_lookup_fmap; [by rewrite Hi|by rewrite Hj, Heq].
  - by rewrite list_lookup_fmap, E1.
  - by rewrite list_lookup_fmap, E2.
Qed.

Lemma apart_sub p n q k n' k' : apart p n q k -> 0 <= n' <= n -> 0 <= k' <= k -> apart p n' q k'.
Proof. unfold apart. lia. Qed.

(** ** The engine's part *)
Lemma register_returns ptr len (e : FabricEngine W) :
  workers e <> [] ->
  exists r e', fe_register_memory_local pointer_type ptr len Host e = Done (r, e') /\ (workers e').*1 = (workers e).*1.
Proof.
  intros Hw. destruct (workers e) as [|[k h] rest] eqn:Ew; [done|].
  unfold fe_register_memory_local. cbn [get_worker memory_region_new].
  unfold bind_res at 1, bind at 1. rewrite (get_main_worker_run _ _ _ _ Ew).
  unfold bind_res at 1, bind at 1, ret at 1. unfold call_worker, bind_res at 1, bind at 1, bind at 1.
  rewrite (on_worker_run k _ e h) by (rewrite Ew; apply btree_get_head).
  destruct (call_register_local _ (wh_link h)) as [[[h'|er]|] w]; cbn; (eexists _, _; split; [reflexivity|]); cbn;
    rewrite ?btree_set_keys, Ew; done.
Qed.

(** A change of the engine below. *)
Definition same_callbacks (te te' : TE) : Prop :=
  callbacks te' = callbacks te /\ next_transfer_id te' = next_transfer_id te /\
  (workers (te_engine te')).*1 = (workers (te_engine te)).*1.

Lemma register_block_run ptr size l (te : TE) x :
  workers (te_engine te) <> [] ->
  exists r te', register_block pointer_type ptr size (l ++ [x], te) =
    (r, (l ++ [x], te')) /\ same_callbacks te te'.
Proof.
  intros Hw. destruct (register_returns ptr size (te_engine te) Hw) as (r & e' & Hr & Hk).
  unfold register_block, on_engine, on_state. cbn [snd fst]. rewrite Hr.
  exists r, (set_engine e' te). destruct r as [h|er]; by split_and!.
Qed.

Lemma keys_nonempty (te te' : TE) :
  same_callbacks te te' -> workers (te_engine te) <> [] -> workers (te_engine te') <> [].
Proof.
  intros (_ & _ & Hk) Hw Hn. apply Hw. rewrite Hn in Hk. by destruct (workers (te_engine te)).
Qed.

(** An allocation: at most one more block, and the sends in flight stay as they are. *)
Context (pick_fresh : forall size l, Forall (fun b => apart (pick size l) size b.1 b.2) l).
Context (iter_map_perm : forall m, iter_map m ≡ₚ map_to_list m).
Context (iter_set_elems : forall X : gset nat, iter_set X ≡ₚ elements X).

Lemma blocks_apart_snoc l size : blocks_apart l -> blocks_apart (l ++ [(pick size l, size)]).
Proof.
  intros Ha i j a b Hij. rewrite !lookup_app_Some. pose proof (pick_fresh size l) as Hf.
  intros [Hi|[Hi1 Hi]] [Hj|[Hj1 Hj]].
  - by eapply Ha.
  - apply list_lookup_singleton_Some in Hj as [_ <-]. eapply Forall_lookup_1 in Hf; [|exact Hi]. unfold apart in *; simpl in *. lia.
  - apply list_lookup_singleton_Some in Hi as [_ <-]. eapply Forall_lookup_1 in Hf; [|exact Hj]. done.
  - apply list_lookup_singleton_Some in Hi as [? _]. apply list_lookup_singleton_Some in Hj as [? _]. lia.
Qed.

(** A new block is not among the others. *)
Lemma free_newest l size : 1 <= size -> filter (fun b => b <> (pick size l, size)) (l ++ [(pick size l, size)]) = l.
Proof.
  intros Hs. pose proof (pick_fresh size l) as Hf. rewrite filter_app, filter_cons_False, filter_nil, app_nil_r by auto.
  revert Hf. generalize (pick size l) as p. intros p Hf. induction Hf as [|b l Hb _ IH]; [done|].
  rewrite filter_cons_True by (intros ->; unfold apart in Hb; simpl in Hb; lia). by rewrite IH.
Qed.

Lemma allocate_run size c l (te : TE) live :
  hb_wf c live -> 0 <= size <= 2 ^ 62 -> workers (te_engine te) <> [] -> l = block_of <$> hb_buffers c -> blocks_apart l ->
  exists r c' l' te', allocate (alloc_block pick) free_block (register_block pointer_type) iter_map iter_set size (c, (l, te))
      = Done (r, (c', (l', te'))) /\
    same_callbacks te te' /\ l' = block_of <$> hb_buffers c' /\ blocks_apart l' /\
    match r with Ok b => hb_wf c' (b :: live) /\ size <= hb_length b | Err _ => hb_wf c' live end.
Proof.
  intros Hwf Hs Hw Hl Ha.
  destruct (allocate_spec (alloc_block pick) free_block (register_block pointer_type) iter_map iter_set iter_map_perm iter_set_elems
    size c (l, te) live Hwf Hs) as (r & c' & [l' te'] & Hrun & Hr).
  exists r, c', l', te'. split; [done|].
  assert (match r with Ok b => hb_wf c' (b :: live) /\ size <= hb_length b | Err _ => hb_wf c' live end) as Hr'
    by (destruct r; [done|by subst]).
  apply allocate_entry in Hrun.
  destruct (register_block_run (pick (next_power_of_two size) l) (next_power_of_two size) l te
    (pick (next_power_of_two size) l, next_power_of_two size) Hw) as (rr & te1 & Hreg & Hsame).
  assert (entry_new (alloc_block pick) free_block (register_block pointer_type) (next_power_of_two size) (l, te) =
    Done (match rr with Ok h => Ok {| hbe_storage := pick (next_power_of_two size) l; hbe_size := next_power_of_two size; hbe_mr_handle := h |}
          | Err e => Err e end, (match rr with Ok _ => l ++ [(pick (next_power_of_two size) l, next_power_of_two size)] | Err _ => l end, te1))) as Hen.
  { destruct (next_power_bounds size Hs) as [_ Hp]. unfold entry_new.
    rewrite (proj2 (Z.ltb_ge isize_max _)) by (unfold isize_max; lia). unfold bind at 1, call at 1, alloc_block. cbn [fst snd].
    unfold bind, call. rewrite Hreg. destruct rr; [done|]. cbv [modify ret free_block fst snd]. by rewrite free_newest by lia. }
  destruct Hrun as [(_ & [= -> ->] & Hb)|[(b & e & -> & He & Hb)|(er & -> & He & ->)]].
  - split; [by split_and!|]. split; [by rewrite Hb|by split].
  - rewrite Hen in He. destruct rr as [h|]; simplify_eq. split; [done|]. split; [by rewrite Hb, fmap_app|].
    split; [by apply blocks_apart_snoc|done].
  - rewrite Hen in He. destruct rr as [h|]; simplify_eq. by split_and!.
Qed.

Definition with_sends (m : gmap Z (Closure O)) (c : Callbacks (Closure O)) : Callbacks (Closure O) :=
  set_send_ops (Build_DashMap m (dm_guards (cb_send_ops c))) c.

Lemma te_submit_send_run addr sb cb (te : TE) :
  no_guards te -> workers (te_engine te) <> [] ->
  exists r te', te_submit_send shard addr sb cb te = Done (r, te') /\
    callbacks te' = with_sends (<[next_transfer_id te := cb]> (dm_map (cb_send_ops (callbacks te)))) (callbacks te) /\
    next_transfer_id te' = u64_add (next_transfer_id te) 1 /\
    (workers (te_engine te')).*1 = (workers (te_engine te)).*1.
Proof.
  intros (Hg & _) Hw. unfold te_submit_send, bind at 1, assign_transfer_id.
  unfold bind at 1, on_send_ops, on_state, dm_insert, dm_held. cbn [callbacks set_next_id]. rewrite Hg. cbn [existsb].
  destruct (fe_submit_send_run (te_engine te) (next_transfer_id te) addr (sb_mr_handle sb) (sb_ptr sb) (sb_len sb) Hw)
    as (r & e' & Hr & Hk).
  rewrite bind_res_ok_tt. unfold on_engine, on_state. cbn [te_engine set_callbacks set_next_id]. rewrite Hr.
  eexists _, _. split; [reflexivity|]. split; [|done]. unfold with_sends. by rewrite Hg.
Qed.

Lemma buffers_insert m id f b :
  m !! id = None -> buffer_in f = Some b -> buffers (<[id := f]> m) ≡ₚ b :: buffers m.
Proof.
  intros Hn Hb. unfold buffers. rewrite (map_to_list_insert m id f Hn). cbn [omap list_omap snd]. by rewrite Hb.
Qed.
Lemma buffers_delete m id f b :
  m !! id = Some f -> buffer_in f = Some b -> buffers m ≡ₚ b :: buffers (delete id m).
Proof.
  intros Hm Hb. rewrite <- (insert_delete_id m id f Hm) at 1. apply buffers_insert; [apply lookup_delete_eq|done].
Qed.

(** Only what the invariant mentions matters. *)
Lemma send_inv_ext s s' sent :
  send_inv s sent -> callbacks (py_te s') = callbacks (py_te s) -> next_transfer_id (py_te s') = next_transfer_id (py_te s) ->
  workers (te_engine (py_te s')) <> [] -> py_cache s' = py_cache s -> py_blocks s' = py_blocks s -> py_mem s' = py_mem s ->
  send_inv s' sent.
Proof.
  intros [] Hc Hn Hw Hca Hb Hm. unfold in_flight, no_guards in *.
  split; unfold in_flight, no_guards; rewrite ?Hc, ?Hn, ?Hca, ?Hb, ?Hm; done.
Qed.

Lemma send_inv_sent s sent id data :
  send_inv s sent -> next_transfer_id (py_te s) <= id -> send_inv s (<[id := data]> sent).
Proof.
  intros [] Hid. split; try done. intros k f Hk. destruct (si_data0 k f Hk) as (Hlt & b & d & e & data' & -> & Hs & Hr).
  split; [done|]. exists b, d, e, data'. split; [done|]. split; [|done]. by rewrite lookup_insert_ne by lia.
Qed.

(** Writing to a new buffer leaves the data of the others. *)
Lemma new_buffer_keeps c l m b live data fl sent n mem :
  hb_wf c (b :: live) -> l = block_of <$> hb_buffers c -> blocks_apart l ->
  Z.of_nat (length data) <= hb_length b -> live = buffers fl -> m = write_bytes (hb_ptr b) data mem ->
  map_Forall (flight_ok n sent mem) fl -> map_Forall (flight_ok n sent m) fl.
Proof.
  intros Hwf Hl Ha Hlen -> -> Hd id f Hf. destruct (Hd id f Hf) as (Hlt & b' & d & e & data' & -> & Hs & Hlen' & Hr).
  split; [done|]. exists b', d, e, data'. do 3 (split; [done|]). rewrite read_write_apart; [done|].
  assert (b' ∈ buffers fl) as (j & Hj)%list_elem_of_lookup.
  { apply list_elem_of_omap. exists (id, OnSend b' d e). split; [by apply elem_of_map_to_list|done]. }
  eapply apart_sub; [eapply (buffers_apart c _ l b' b (S j) 0%nat Hwf Hl Ha); done|lia|lia].
Qed.

Lemma submit_preserves s sent addr data d e :
  send_inv s sent -> Z.of_nat (length data) <= 2 ^ 62 -> next_transfer_id (py_te s) + 1 < 2 ^ 64 ->
  exists r s', py_submit_send shard pick pointer_type iter_map iter_set addr data d e s = Done (r, s') /\
    send_inv s' (<[next_transfer_id (py_te s) := data]> sent) /\
    next_transfer_id (py_te s) <= next_transfer_id (py_te s') <= next_transfer_id (py_te s) + 1.
Proof.
  intros Hi Hlen Hid. pose proof Hi as [Hn Hg Hw Hwf Hb Ha Hd].
  destruct (allocate_run (Z.of_nat (length data)) (py_cache s) (py_blocks s) (py_te s) _ Hwf ltac:(lia) Hw Hb Ha)
    as (r & c' & l' & te1 & Hrun & Hsame & Hb' & Ha' & Hr).
  pose proof (keys_nonempty _ _ Hsame Hw) as Hw1. destruct Hsame as (Hc1 & Hn1 & _).
  unfold py_submit_send, bind_res at 1, map_err at 1, bind at 1 2, on_host at 1, on_state at 1. rewrite Hrun.
  destruct r as [b|er].
  2: { cbn [ret]. eexists _, _. split; [reflexivity|]. cbn [py_te fst snd]. rewrite Hn1. split; [|lia].
       apply send_inv_sent; [|cbn [py_te fst snd]; lia]. split; cbn [fst snd py_te py_cache py_blocks py_mem]; unfold in_flight, no_guards;
         cbn [py_te fst snd]; rewrite ?Hc1, ?Hn1; done. }
  destruct Hr as [Hwf' Hsz]. cbn [fst snd]. unfold ret at 1. unfold bind at 1, assert_ at 1. rewrite (proj2 (Z.leb_le _ _) Hsz). unfold ret at 1.
  unfold bind at 1, modify at 1. unfold map_err, bind, on_te, on_state.
  cbn [py_te py_mem set_mem fst snd].
  assert (no_guards te1) as Hg1 by (unfold no_guards in *; by rewrite Hc1).
  destruct (te_submit_send_run addr {| sb_ptr := hb_ptr b; sb_len := Z.of_nat (length data); sb_mr_handle := hb_mr_handle b |}
    (OnSend b d e) te1 Hg1 Hw1) as (r2 & te2 & Hr2 & Hc2 & Hn2 & Hk2).
  rewrite Hr2. eexists _, _. split; [reflexivity|]. cbn [py_te set_te fst snd].
  assert (next_transfer_id te2 = next_transfer_id (py_te s) + 1) as Hn2'.
  { rewrite Hn2, Hn1. unfold u64_add. apply wrapu_small. split; lia. }
  split; [|lia].
  assert (in_flight s !! next_transfer_id (py_te s) = None) as Hfresh.
  { destruct (in_flight s !! _) as [f|] eqn:Ef; [|done]. apply Hd in Ef as [? _]. lia. }
  split; unfold in_flight; cbn [py_te py_cache py_blocks py_mem set_te set_mem fst snd].
  - lia.
  - unfold no_guards in *. rewrite Hc2, Hc1. done.
  - intros Hnil. apply Hw1. rewrite Hnil in Hk2. by destruct (workers (te_engine te1)).
  - rewrite Hc2, Hc1, Hn1. cbn [with_sends set_send_ops cb_send_ops dm_map].
    rewrite (buffers_insert _ _ _ b); [done|exact Hfresh|done].
  - done.
  - done.
  - rewrite Hc2, Hc1, Hn1, Hn2'. cbn [with_sends set_send_ops cb_send_ops dm_map].
    apply map_Forall_insert; [exact Hfresh|]. split.
    + split; [lia|]. exists b, d, e, data. rewrite lookup_insert_eq. split_and!; try done. apply read_write_same.
    + eapply (new_buffer_keeps c' l' _ b _ data (in_flight s)); try done. intros k f Hk. cbn beta.
      destruct (Hd k f Hk) as (Hlt & b' & d' & e' & data' & -> & Hs & Hrest). split; [lia|].
      exists b', d', e', data'. rewrite lookup_insert_ne by lia. done.
Qed.

(** Reporting a send takes it out of the map and gives its buffer back. *)
Lemma report_inv s s' sent id b d e :
  send_inv s sent -> in_flight s !! id = Some (OnSend b d e) ->
  callbacks (py_te s') = with_sends (delete id (in_flight s)) (callbacks (py_te s)) ->
  next_transfer_id (py_te s') = next_transfer_id (py_te s) -> te_engine (py_te s') = te_engine (py_te s) ->
  py_cache s' = hb_drop b (py_cache s) -> py_blocks s' = py_blocks s -> py_mem s' = py_mem s -> send_inv s' sent.
Proof.
  intros [Hn Hg Hw Hwf Hb Ha Hd] Hf Hc Hn' He Hca Hb' Hm.
  assert (in_flight s' = delete id (in_flight s)) as Hfl by (unfold in_flight at 1; by rewrite Hc).
  split; rewrite ?Hn', ?He, ?Hca, ?Hb', ?Hm, ?Hfl; try done.
  - unfold no_guards in *. rewrite Hc. done.
  - rewrite (buffers_delete (in_flight s) id (OnSend b d e) b) in Hwf by done. exact (hb_drop_wf _ _ 0%nat b Hwf eq_refl).
  - by apply map_Forall_delete.
Qed.

(** The first step of a handler: an entry is taken out of a map. *)
Lemma take_send_run id (te : TE) :
  no_guards te -> on_send_ops (dm_remove shard id) te =
  Done (dm_map (cb_send_ops (callbacks te)) !! id,
    set_callbacks (with_sends (delete id (dm_map (cb_send_ops (callbacks te)))) (callbacks te)) te).
Proof.
  intros (Hg & _). unfold on_send_ops, on_state, dm_remove, dm_held, with_sends. rewrite Hg. done.
Qed.

(** The state after [handle_transfer_completion], seen by the bindings. *)
Lemma py_complete_run c s r te' log :
  @handle_transfer_completion W (Closure O) _ shard (closures python (py_imm s)) c (py_te s) = Done (r, te') ->
  trace te' = trace (py_te s) ++ log ->
  py_complete shard python c s = Done (r, foldl (fun s i => effect i s) (set_te te' s) log).
Proof.
  intros Hh Ht. unfold py_complete, bind, gets, modify, on_te, on_state. rewrite Hh. cbn [py_te set_te ret].
  by rewrite Ht, drop_app_length.
Qed.

Lemma unit_of_invoke imm i (te : TE) :
  exists r, @invoke_unit W (Closure O) (closures python imm) i te = Done (r, add_traces [i] te).
Proof.
  unfold invoke_unit, bind_res, bind. rewrite (invoke_pure (closure_answer python imm)) by apply closures_pure.
  destruct (closure_answer python imm i); eauto.
Qed.

Lemma completes_preserves s sent id :
  send_inv s sent ->
  exists r s', py_complete shard python (TcSend id) s = Done (r, s') /\ send_inv s' sent /\
    next_transfer_id (py_te s') = next_transfer_id (py_te s).
Proof.
  intros Hi. pose proof Hi as [_ Hg Hw _ _ _ Hd]. pose proof (take_send_run id (py_te s) Hg) as Ht.
  destruct (in_flight s !! id) as [f|] eqn:Ef; unfold in_flight in Ef; rewrite Ef in Ht.
  - pose proof (Hd id f Ef) as (_ & b & d & e & data & -> & _).
    edestruct (unit_of_invoke (py_imm s) (ISend id (OnSend b d e) (Ok tt))) as [r Hr].
    eexists r, _. split.
    { eapply py_complete_run; [cbn [handle_transfer_completion]; unfold handle_send, bind; rewrite Ht; exact Hr|reflexivity]. }
    cbn [foldl effect]. split; [|done]. by eapply (report_inv s _ sent id b d e).
  - eexists (Ok tt), _. split.
    { eapply py_complete_run; [cbn [handle_transfer_completion]; unfold handle_send, bind; by rewrite Ht|].
      symmetry. apply app_nil_r. }
    cbn [foldl]. split; [|done]. eapply (send_inv_ext s); try done. cbn.
    rewrite delete_id by done. unfold with_sends. by destruct (callbacks (py_te s)) as [? ? ? [] ? ? ?].
Qed.

(** Changes the invariant does not see. *)
Definition same_sends (te te' : TE) : Prop :=
  cb_send_ops (callbacks te') = cb_send_ops (callbacks te) /\ no_guards te' /\
  next_transfer_id te' = next_transfer_id te /\ te_engine te' = te_engine te.

Lemma send_inv_same s s' sent :
  send_inv s sent -> same_sends (py_te s) (py_te s') -> py_cache s' = py_cache s -> py_blocks s' = py_blocks s ->
  py_mem s' = py_mem s -> send_inv s' sent.
Proof.
  intros [] (Hc & Hg & Hn & He) Hca Hb Hm. unfold in_flight in *.
  split; unfold in_flight; rewrite ?Hc, ?Hn, ?He, ?Hca, ?Hb, ?Hm; done.
Qed.

(** The error of another operation: Python is told, the sends stay. *)
Definition kept (c : TransferCompletionEntry) (s : PE) (sent : gmap Z (list Z)) : Prop :=
  exists r s', py_complete shard python c s = Done (r, s') /\ send_inv s' sent /\
    next_transfer_id (py_te s') = next_transfer_id (py_te s).

Lemma other_error_kept s sent te1 id cb er :
  send_inv s sent -> same_sends (py_te s) te1 -> trace te1 = trace (py_te s) ->
  @handle_transfer_completion W (Closure O) _ shard (closures python (py_imm s)) (TcError id er) (py_te s) =
    (@invoke W (Closure O) (closures python (py_imm s)) (IError id cb er) ;;; ret (Ok tt)) te1 ->
  kept (TcError id er) s sent.
Proof.
  intros Hi Hs Ht Hh. exists (Ok tt). eexists. split.
  { eapply (py_complete_run _ _ _ (add_traces [IError id cb er] te1)); [|cbn; by rewrite Ht].
    rewrite Hh. unfold bind. by rewrite (invoke_pure (closure_answer python (py_imm s))) by apply closures_pure. }
  destruct Hs as (? & ? & ? & ?). assert (same_sends (py_te s) (add_traces [IError id cb er] te1)) as Hs by done.
  cbn [foldl]. split; [|by destruct cb]. destruct cb; cbn [effect]; by eapply (send_inv_same s).
Qed.

Lemma take_transfer_run id (te : TE) :
  no_guards te -> exists te1, on_transfer_ops (dm_remove shard id) te =
    Done (dm_map (cb_transfer_ops (callbacks te)) !! id, te1) /\ same_sends te te1 /\ trace te1 = trace te.
Proof.
  intros (Hg1 & Hg2 & Hg3). unfold on_transfer_ops, on_state, dm_remove, dm_held. rewrite Hg2.
  eexists. split; [reflexivity|]. split; [|done]. split; [done|]. split; [|done]. done.
Qed.
Lemma take_recv_run id (te : TE) :
  no_guards te -> exists te1, on_recv_ops (dm_remove shard id) te =
    Done (dm_map (cb_recv_ops (callbacks te)) !! id, te1) /\ same_sends te te1 /\ trace te1 = trace te.
Proof.
  intros (Hg1 & Hg2 & Hg3). unfold on_recv_ops, on_state, dm_remove, dm_held. rewrite Hg3.
  eexists. split; [reflexivity|]. split; [|done]. split; [done|]. split; [|done]. done.
Qed.

(** Taking out nothing. *)
Lemma take_no_send (te : TE) id :
  no_guards te -> dm_map (cb_send_ops (callbacks te)) !! id = None ->
  same_sends te (set_callbacks (with_sends (delete id (dm_map (cb_send_ops (callbacks te)))) (callbacks te)) te).
Proof.
  intros Hg Hn. split; [|split; [by destruct Hg|done]]. cbn. rewrite delete_id by done. by destruct (cb_send_ops _).
Qed.

Lemma same_sends_trans te1 te2 te3 : same_sends te1 te2 -> same_sends te2 te3 -> same_sends te1 te3.
Proof. intros (? & ? & ? & ?) (? & ? & ? & ?). split_and!; congruence || done. Qed.

Lemma fails_preserves s sent id er : send_inv s sent -> kept (TcError id er) s sent.
Proof.
  intros Hi. pose proof Hi as [_ Hg _ _ _ _ Hd].
  destruct (take_transfer_run id (py_te s) Hg) as (te1 & Ht & Hs1 & Htr1).
  destruct (dm_map (cb_transfer_ops (callbacks (py_te s))) !! id) as [op|] eqn:Eo.
  { eapply (other_error_kept s sent te1 id (on_error op)); [done..|].
    cbn [handle_transfer_completion]. unfold handle_error, bind at 1. by rewrite Ht. }
  pose proof Hs1 as (Hc1 & Hga & Hn1 & He1).
  assert (send_inv (set_te te1 s) sent) as Hi1 by (by eapply (send_inv_same s)).
  pose proof (take_send_run id te1 Hga) as Ht2.
  destruct (dm_map (cb_send_ops (callbacks te1)) !! id) as [f|] eqn:Ef.
  - pose proof (si_data _ _ Hi1 id f Ef) as (_ & b & d & e & data & -> & _).
    exists (Ok tt). eexists. split.
    { eapply py_complete_run.
      - cbn [handle_transfer_completion]. unfold handle_error, bind. rewrite Ht, Ht2.
        by rewrite (invoke_pure (closure_answer python (py_imm s))) by apply closures_pure.
      - cbn. by rewrite Htr1. }
    cbn [foldl effect]. split; [|done]. by eapply (report_inv (set_te te1 s) _ sent id b d e Hi1).
  - pose proof (take_no_send te1 id Hga Ef) as Hs2. pose proof Hs2 as (_ & Hgb & _).
    destruct (take_recv_run id _ Hgb) as (te3 & Ht3 & Hs3 & Htr3).
    assert (same_sends (py_te s) te3) as Hs by (eapply same_sends_trans; [done|]; by eapply same_sends_trans).
    destruct (dm_map (cb_recv_ops _) !! id) as [rc|] eqn:Er.
    + eapply (other_error_kept s sent te3 id (rc_on_error rc)); [done|done|by rewrite Htr3|].
      cbn [handle_transfer_completion]. unfold handle_error, bind. by rewrite Ht, Ht2, Ht3.
    + exists (Ok tt). eexists. split.
      { eapply (py_complete_run _ _ _ te3 []); [|by rewrite app_nil_r, Htr3].
        cbn [handle_transfer_completion]. unfold handle_error, bind. by rewrite Ht, Ht2, Ht3. }
      cbn [foldl]. split; [|by destruct Hs as (_ & _ & ? & _)]. by eapply (send_inv_same s).
Qed.

Lemma send_run_inv ops s sent :
  send_inv s sent -> next_transfer_id (py_te s) + Z.of_nat (length ops) < 2 ^ 64 ->
  Forall (fun o => match o with SendData _ data _ _ => Z.of_nat (length data) <= 2 ^ 62 | _ => True end) ops ->
  exists s' sent', send_run ops s sent = Done (s', sent') /\ send_inv s' sent'.
Proof.
  intros Hi Hb Hops. revert s sent Hi Hb. induction Hops as [|o ops Ho Hops IH]; intros s sent Hi Hb; [by eexists _, _|].
  cbn [send_run length] in *. destruct o as [addr data d e|id|id er]; cbn [send_exec].
  - destruct (submit_preserves s sent addr data d e Hi Ho ltac:(lia)) as (r & s' & -> & Hi' & Hn). cbn. apply IH; [done|lia].
  - destruct (completes_preserves s sent id Hi) as (r & s' & -> & Hi' & Hn). cbn. apply IH; [done|lia].
  - destruct (fails_preserves s sent id er Hi) as (r & s' & -> & Hi' & Hn). cbn. apply IH; [done|lia].
Qed.

(** C22: a send reads the bytes it was given until it is reported.  From a new engine, for any
    sequence of [submit_send] calls (of at most 2^63 bytes), send completions and errors, whichever
    registrations and submissions fail, in whatever order the hash tables are traversed and
    wherever the allocator puts new blocks: nothing panics; every send in flight has a host buffer
    that holds the bytes passed to that call, however many sends were submitted and reported
    since; and the buffers of two sends in flight do not overlap. *)
Theorem sends_keep_data ops (te : TE) m :
  next_transfer_id te = 0 -> callbacks te = new_callbacks -> workers (te_engine te) <> [] ->
  Z.of_nat (length ops) < 2 ^ 64 ->
  Forall (fun o => match o with SendData _ data _ _ => Z.of_nat (length data) <= 2 ^ 62 | _ => True end) ops ->
  exists s sent, send_run ops (wrap te m) ∅ = Done (s, sent) /\
    (forall id f, in_flight s !! id = Some f -> exists b d e data, f = OnSend b d e /\ sent !! id = Some data /\
       Z.of_nat (length data) <= hb_length b /\ read_bytes (hb_ptr b) (length data) (py_mem s) = data) /\
    (forall i j b1 b2, i <> j -> buffers (in_flight s) !! i = Some b1 -> buffers (in_flight s) !! j = Some b2 ->
       apart (hb_ptr b1) (hb_length b1) (hb_ptr b2) (hb_length b2)).
Proof.
  intros Hn Hc Hw Hlen Hops.
  assert (send_inv (wrap te m) ∅) as Hi.
  { split; unfold in_flight, no_guards; cbn; rewrite ?Hc, ?Hn; try done.
    apply cache_new_wf. }
  destruct (send_run_inv ops (wrap te m) ∅ Hi) as (s & sent & Hrun & [_ _ _ Hwf Hb Ha Hd]); [cbn; lia|done|].
  exists s, sent. split; [done|]. split.
  - intros id f Hf. by destruct (Hd id f Hf) as [_ ?].
  - intros i j b1 b2 Hij H1 H2. by eapply (buffers_apart _ _ _ b1 b2 i j Hwf Hb Ha).
Qed.
End Sends.

(** ** Witnesses *)
Module PyEngineWitness.
Definition after (_ : Z) (l : list (Z * Z)) : Z := foldr (fun b m => Z.max (b.1 + b.2) m) 4096 l.
Lemma after_fresh size l : Forall (fun b => apart (after size l) size b.1 b.2) l.
Proof.
  assert (forall b, b ∈ l -> b.1 + b.2 <= after size l) as Hb.
  { unfold after. induction l as [|x l IH]; intros b; [by intros []%not_elem_of_nil|]. cbn [foldr].
    intros [->|Hin]%elem_of_cons; [lia|]. specialize (IH b Hin). lia. }
  apply Forall_forall. intros b Hin. right. by apply Hb.
Qed.

Definition python (f : Z) (_ : PyArgs) : result string bool := Ok true.
Definition engine : TransferEngine Stub (Closure Z) :=
  {| next_transfer_id := 0; te_engine := stub_engine; callbacks := new_callbacks; te_thread := true; trace := [] |}.

Lemma imm_callback_is_latest_witness :
  exists s, for_each [ImmArrives 3; SetImm 10; ImmArrives 4; SetImm 11; ImmArrives 5] (imm_exec shard4 python)
    (wrap engine (fun _ => 0)) = Done (tt, s) /\ py_calls s = [(10, ImmArg 4); (11, ImmArg 5)] /\
    (length (cb_imm (callbacks (py_te s))) <= 1)%nat.
Proof.
  apply (imm_callback_is_latest shard4 python (fun _ _ => ex_intro _ true eq_refl)
    [ImmArrives 3; SetImm 10; ImmArrives 4; SetImm 11; ImmArrives 5] engine (fun _ => 0)); reflexivity.
Defined.

Definition ops : list send_op :=
  [SendData {| addr_bytes := [1] |} [5; 6; 7] 20 21; SendData {| addr_bytes := [1] |} [8; 9] 22 23; SendCompletes 0;
   SendData {| addr_bytes := [2] |} [1; 2; 3; 4] 24 25; SendFails 1 (Custom "link down")].

Lemma sends_keep_data_witness :
  exists s sent, send_run shard4 after (fun _ => Ok 0) map_to_list elements python ops (wrap engine (fun _ => 0)) ∅ = Done (s, sent) /\
    (forall id f, in_flight s !! id = Some f -> exists b d e data, f = OnSend b d e /\ sent !! id = Some data /\
       Z.of_nat (length data) <= hb_length b /\ read_bytes (hb_ptr b) (length data) (py_mem s) = data) /\
    (forall i j b1 b2, i <> j -> buffers (in_flight s) !! i = Some b1 -> buffers (in_flight s) !! j = Some b2 ->
       apart (hb_ptr b1) (hb_length b1) (hb_ptr b2) (hb_length b2)).
Proof.
  apply (sends_keep_data shard4 after (fun _ => Ok 0) map_to_list elements python after_fresh
    (fun m => reflexivity _) (fun X => reflexivity _) ops engine (fun _ => 0)); try done.
  repeat constructor; vm_compute; discriminate.
Defined.
End PyEngineWitness.
