(* ===== verification/FabricDebug.v ===== *)
(** * The benchmark

    [fabric-lib/fabric-debug/src/main.rs]: a server writes to the GPUs of a client, which checks
    what arrived.  The data both generate, the requests, and the loops that wait for completions
    of the engine.  Times, statistics and printing are left out. *)
From stdpp Require Import prelude gmap strings list.
From S2P Require Import Prelude Utils Api ImmCount Sharding Provider DomainGroup Worker FabricEngine TopoParse Topo.
Local Open Scope Z_scope.

(** ** Addresses on the command line: a [str] is its UTF-8 bytes *)
Definition addr_to_string (a : DomainAddress) : list Z := fmt_hex (addr_bytes a).

Definition parse_addr (s : list Z) : outcome (result string DomainAddress) :=
  if negb (Nat.even (length s)) then Done (Err "Expected even number of characters"%string)
  else
    match from_hex s with
    | Done (Ok b) => Done (Ok {| addr_bytes := b |})
    | Done (Err _) => Done (Err "invalid digit found in string"%string)
    | Panic why => Panic why
    | OutOfFuel => OutOfFuel
    end.

(** ** Test data *)
Definition MESSAGE_BUF_SIZE : Z := 64 * 2 ^ 20.
Definition CUDA_BUF_SIZE : Z := 256 * 2 ^ 20.

Definition next_random (state : Z) : Z :=
  let state := Z.lxor state (wrapu 64 (Z.shiftl state 13)) in
  let state := Z.lxor state (Z.shiftr state 7) in
  Z.lxor state (wrapu 64 (Z.shiftl state 17)).

(** [n] numbers. *)
Fixpoint fill_random_u64 (n : nat) (state : Z) : list Z :=
  match n with
  | O => []
  | S n => next_random state :: fill_random_u64 n (next_random state)
  end.

Definition fill_random_bytes (len : nat) (seed : Z) : outcome (list Z) :=
  if (len mod 8 =? 0)%nat then Done (concat (to_le_bytes 8 <$> fill_random_u64 (len / 8) seed))
  else Panic "assertion failed: vec.len().is_multiple_of(size_of::<u64>())".

(** The loop over the pages, from the [i]-th on, in a vector of [size] bytes. *)
Fixpoint fill_paged (size seed offset : Z) (len : nat) (stride : Z) (i : nat) (indices : list Z) (vec : Bytes) :
    outcome Bytes :=
  match indices with
  | [] => Done vec
  | page :: indices =>
      let off := offset + page * stride in
      if off + Z.of_nat len <=? size then
        match fill_random_bytes len (u64_add seed (Z.of_nat i)) with
        | Done data => fill_paged size seed offset len stride (S i) indices (write_bytes off data vec)
        | Panic why => Panic why
        | OutOfFuel => OutOfFuel
        end
      else Panic "assertion failed: off + len <= vec.len()"
  end.

(** ** Requests *)
Record Paged := {
  bp_seed : option Z; bp_mr_desc : list MemoryRegionDescriptor; bp_offset : Z; bp_indices : list Z;
  bp_len : nat; bp_stride : Z;
}.
Record Single := { bs_seed : option Z; bs_mr_desc : MemoryRegionDescriptor; bs_offset : Z; bs_len : nat }.
Record Imm := { bi_addr : DomainAddress; bi_mr_desc : MemoryRegionDescriptor; bi_imm : Z }.
Inductive RequestContent : Type :=
  | CPaged (r : Paged)
  | CSingle (r : Single)
  | CImm (r : Imm).
Record RequestMeta := { rm_addr : DomainAddress; rm_warmups : Z; rm_repeats : Z }.
Record Request := { rq_meta : RequestMeta; rq_content : RequestContent }.

(** A GPU with its registered buffer. *)
Record CudaResource := {
  cr_device : Z; cr_buf : Z; cr_mr_handle : MemoryRegionHandle; cr_mr_desc : MemoryRegionDescriptor;
}.

Definition seed_of (verify : bool) : option Z := if verify then Some 11806239938951 else None.

(** The writes the client asks for: page size, number of pages, whether they are checked. *)
Definition paged_cases : list (Z * Z * bool) :=
  [(10000, 200, true); (1024, 10000, false); (4096, 10000, false); (8192, 10000, false); (16384, 10000, false);
   (32768, 10000, false); (65536, 10000, false); (1024, 100, false); (4096, 100, false); (8192, 100, false);
   (16384, 100, false); (32768, 100, false); (65536, 100, false)].
Definition single_cases : list (Z * bool) :=
  [(2048, true); (2 ^ 10, true); (2 * 2 ^ 10, false); (4 * 2 ^ 10, false); (8 * 2 ^ 10, false); (16 * 2 ^ 10, false);
   (32 * 2 ^ 10, false); (64 * 2 ^ 10, false); (128 * 2 ^ 10, false); (256 * 2 ^ 10, false); (512 * 2 ^ 10, false);
   (2 ^ 20, false); (2 * 2 ^ 20, false); (4 * 2 ^ 20, false); (8 * 2 ^ 20, false); (16 * 2 ^ 20, false);
   (32 * 2 ^ 20, false); (64 * 2 ^ 20, false)].

Definition generate_paged_write_request (res : list CudaResource) (page_bytes num_pages : nat) (verify : bool) :
    outcome Paged :=
  let stride := Z.of_nat page_bytes + 128 in
  let max_pages := CUDA_BUF_SIZE / stride in
  if (max_pages =? 0) && negb (num_pages =? 0)%nat then Panic "attempt to calculate the remainder with a divisor of zero"
  else Done {|
    bp_seed := seed_of verify; bp_mr_desc := cr_mr_desc <$> res; bp_offset := 0;
    bp_indices := (fun x => as_u32 (x mod max_pages)) <$> fill_random_u64 num_pages 291;
    bp_len := page_bytes; bp_stride := stride |}.

Definition generate_single_write_request (res : list CudaResource) (write_bytes : nat) (verify : bool) : outcome Single :=
  match res with
  | [] => Panic "index out of bounds"
  | r :: _ => Done {| bs_seed := seed_of verify; bs_mr_desc := cr_mr_desc r; bs_offset := 1024; bs_len := write_bytes |}
  end.

Definition generate_random_paged_data (request : Paged) (seed : Z) (rank : nat) : outcome Bytes :=
  fill_paged CUDA_BUF_SIZE (Z.lor (wrapu 64 (Z.shiftl seed 4)) (Z.of_nat rank)) (bp_offset request) (bp_len request)
    (bp_stride request) 0 (bp_indices request) (fun _ => 0).

Section Bench.
Context {W : Type} `{WorkerLink W}.
(** Whether [cudaMemcpy] accepts to copy [n] bytes from or to the device address [p]. *)
Context (memcpy_ok : Z -> Z -> bool).

(** The engine and the memory of the GPUs. *)
Record BenchState := { bn_engine : FabricEngine W; bn_mem : Bytes }.
Definition on_engine {A} (m : M (FabricEngine W) A) : M BenchState A :=
  on_state bn_engine (fun e s => {| bn_engine := e; bn_mem := bn_mem s |}) m.

(** [?] on an error of the engine. *)
Definition engine_err {A} (m : M (FabricEngine W) (res A)) : M BenchState (result string A) :=
  let! r := on_engine m in
  ret (match r with Ok a => Ok a | Err _ => Err "fabric error"%string end).

Definition memcpy_h2d (dst : Z) (n : Z) (src : Bytes) : M BenchState unit :=
  assert_ (memcpy_ok dst n) "assertion failed: cudaMemcpy == 0" ;;;
  modify (fun s => {| bn_engine := bn_engine s;
    bn_mem := fun a => if (dst <=? a) && (a <? dst + n) then src (a - dst) else bn_mem s a |}).

Definition memcpy_d2h (n : Z) (src : Z) : M BenchState Bytes :=
  assert_ (memcpy_ok src n) "assertion failed: cudaMemcpy == 0" ;;;
  gets (fun s a => bn_mem s (src + a)).

(** ** The checks of the client *)
Definition verify_page (gold buf : Bytes) (paged : Paged) (page : Z) : M BenchState unit :=
  let offset := bp_offset paged + page * bp_stride paged in
  assert_ (bool_decide (read_bytes offset (bp_len paged) gold = read_bytes offset (bp_len paged) buf))
    "assertion failed: page_gold == page_buf".

Definition verify_paged_write (res : list CudaResource) (paged : Paged) : M BenchState unit :=
  match bp_seed paged with
  | None => ret tt
  | Some seed =>
      for_each (imap pair res) (fun '(i, r) =>
        let! gold := lift (generate_random_paged_data paged seed i) in
        let! buf := memcpy_d2h CUDA_BUF_SIZE (cr_buf r) in
        for_each (bp_indices paged) (verify_page gold buf paged))
  end.

Definition verify_single_write (res : list CudaResource) (single : Single) : M BenchState unit :=
  match bs_seed single with
  | None => ret tt
  | Some seed =>
      let! r := unwrap (res !! 0%nat) "index out of bounds" in
      let! gold := lift (fill_random_bytes (bs_len single) (wrapu 64 (seed - 1))) in
      let! buf := memcpy_d2h (Z.of_nat (bs_len single)) (cr_buf r + bs_offset single) in
      assert_ (bool_decide (gold = read_bytes 0 (bs_len single) buf)) "assertion failed: gold == tmp"
  end.

(** ** [do_bench_write]: the data and the requests *)
Definition prepare_data (res : list CudaResource) (request : RequestContent) : M BenchState unit :=
  match request with
  | CPaged paged =>
      match bp_seed paged with
      | None => ret tt
      | Some seed =>
          for_each (imap pair res) (fun '(i, r) =>
            let! tmp := lift (generate_random_paged_data paged seed i) in
            memcpy_h2d (cr_buf r) CUDA_BUF_SIZE tmp)
      end
  | CSingle single =>
      let! r := unwrap (res !! 0%nat) "index out of bounds" in
      match bs_seed single with
      | None => ret tt
      | Some seed =>
          let! tmp := lift (fill_random_bytes (bs_len single) (wrapu 64 (seed - 1))) in
          memcpy_h2d (cr_buf r + bs_offset single) (Z.of_nat (bs_len single)) (fun a => nth (Z.to_nat a) tmp 0)
      end
  | CImm _ => ret tt
  end.

Definition paged_request (paged : Paged) (i : nat) (r : CudaResource) : M BenchState (list (TransferId * TransferRequest)) :=
  let! dst := unwrap (bp_mr_desc paged !! i) "index out of bounds" in
  ret [(1000 + cr_device r, ReqPaged {|
    pr_length := Z.of_nat (bp_len paged); pr_src_mr := cr_mr_handle r; pr_src_page_indices := bp_indices paged;
    pr_src_stride := bp_stride paged; pr_src_offset := bp_offset paged; pr_dst_mr := dst;
    pr_dst_page_indices := bp_indices paged; pr_dst_stride := bp_stride paged; pr_dst_offset := bp_offset paged;
    pr_imm_data := None |})].

Fixpoint paged_requests (paged : Paged) (i : nat) (res : list CudaResource) : M BenchState (list (TransferId * TransferRequest)) :=
  match res with
  | [] => ret []
  | r :: res =>
      let! l := paged_request paged i r in
      let! l' := paged_requests paged (S i) res in
      ret (l ++ l')
  end.

Definition transfer_requests (res : list CudaResource) (request : RequestContent) :
    M BenchState (list (TransferId * TransferRequest)) :=
  match request with
  | CPaged paged => paged_requests paged 0 res
  | CSingle single =>
      let! r := unwrap (res !! 0%nat) "index out of bounds" in
      let! e := gets bn_engine in
      ret [(2000 + cr_device r, ReqSingle {|
        sr_src_mr := cr_mr_handle r; sr_src_offset := bs_offset single; sr_length := Z.of_nat (bs_len single);
        sr_imm_data := None; sr_dst_mr := bs_mr_desc single; sr_dst_offset := bs_offset single;
        sr_domain := RoundRobinSharded (fe_nets_per_gpu e) |})]
  | CImm imm =>
      ret [(3000, ReqImm {| ir_imm_data := bi_imm imm; ir_dst_mr := bi_mr_desc imm; ir_domain := Pinned 0 |})]
  end.

(** ** Waiting *)

(** [wait_completion!]: spins until the engine has a completion, which must be one of [want]. *)
Fixpoint wait_completion {A} (fuel : nat) (want : TransferCompletionEntry -> option A) : M BenchState (result string A) :=
  match fuel with
  | O => fun _ => OutOfFuel
  | S fuel =>
      let! comp := on_engine fe_poll_transfer_completion in
      match comp with
      | None => wait_completion fuel want
      | Some c =>
          match want c with
          | Some a => ret (Ok a)
          | None => ret (Err "Unexpected completion entry"%string)
          end
      end
  end.

Definition transfer_of (c : TransferCompletionEntry) : option TransferId :=
  match c with TcTransfer id => Some id | _ => None end.

(** [while !pending_transfer_ids.is_empty()]; [n] bounds the rounds. *)
Fixpoint await_transfers (n fuel : nat) (pending : gset Z) : M BenchState (result string unit) :=
  if decide (pending = ∅) then ret (Ok tt)
  else
    match n with
    | O => fun _ => OutOfFuel
    | S n =>
        let? id := wait_completion fuel transfer_of in
        if bool_decide (id ∈ pending) then await_transfers n fuel (pending ∖ {[id]})
        else ret (Err "Unexpected transfer completion"%string)
    end.

Definition submit_all (reqs : list (TransferId * TransferRequest)) : M BenchState (result string unit) :=
  try_for_each reqs (fun '(id, req) => engine_err (fe_submit_transfer id req None)).

Definition bench_round (fuel : nat) (reqs : list (TransferId * TransferRequest)) : M BenchState (result string unit) :=
  let? _ := submit_all reqs in
  await_transfers (length reqs) fuel (list_to_set reqs.*1).

(** The rounds [-warmups..repeats]; the result counts the measured ones. *)
Definition rounds (meta : RequestMeta) : list Z := seqZ (- rm_warmups meta) (rm_repeats meta + rm_warmups meta).

Definition do_bench_write (fuel : nat) (res : list CudaResource) (meta : RequestMeta) (request : RequestContent) :
    M BenchState (result string nat) :=
  prepare_data res request ;;;
  let! reqs := transfer_requests res request in
  let? _ := try_for_each (rounds meta) (fun _ => bench_round fuel reqs) in
  ret (Ok (length (filter (fun r => 0 <= r) (rounds meta)))).

(** ** The conversation *)

(** [postcard]: the length of a serialised message, if it fits, and what a received message of a
    given length reads as.  [Response] holds the statistics. *)
Context {Response : Type} (host_buf : Z) (host_mr_handle : MemoryRegionHandle).
Context (request_len : Request -> option Z) (read_response : Z -> option Response).
Context (response_len : nat -> option Z) (read_request : Z -> option Request).

Definition or_err {A} (o : option A) (why : string) : M BenchState (result string A) :=
  ret (match o with Some a => Ok a | None => Err why end).

Definition sent_of (c : TransferCompletionEntry) : option unit := match c with TcSend _ => Some tt | _ => None end.
Definition recv_of (c : TransferCompletionEntry) : option Z := match c with TcRecv _ len => Some len | _ => None end.
Definition imm_of (c : TransferCompletionEntry) : option Z := match c with TcImmData imm => Some imm | _ => None end.

Definition wait_imm (fuel : nat) (imm : Z) : M BenchState (result string unit) :=
  let? imm_data := wait_completion fuel imm_of in
  assert_ (imm_data =? imm) "assertion `left == right` failed" ;;;
  ret (Ok tt).

Definition do_request (fuel : nat) (res : list CudaResource) (server_addr : DomainAddress) (content : RequestContent) :
    M BenchState (result string Response) :=
  let! e := gets bn_engine in
  let request := {| rq_meta := {| rm_addr := fe_main_address e; rm_warmups := 20; rm_repeats := 40 |};
                    rq_content := content |} in
  let? len := or_err (request_len request) "postcard" in
  let? _ := engine_err (fe_submit_send 100 server_addr host_mr_handle host_buf len) in
  let? _ := engine_err (fe_submit_recv 200 host_mr_handle host_buf MESSAGE_BUF_SIZE) in
  let? _ := wait_completion fuel sent_of in
  let? _ := match content with
            | CImm imm => try_for_each (rounds (rq_meta request)) (fun _ => wait_imm fuel (bi_imm imm))
            | _ => ret (Ok tt)
            end in
  let? data_len := wait_completion fuel recv_of in
  let? response := or_err (read_response data_len) "postcard" in
  match content with
  | CPaged paged => verify_paged_write res paged
  | CSingle single => verify_single_write res single
  | CImm _ => ret tt
  end ;;;
  ret (Ok response).

(** One round of the server's loop. *)
Definition serve (fuel : nat) (res : list CudaResource) : M BenchState (result string unit) :=
  let? _ := engine_err (fe_submit_recv 100 host_mr_handle host_buf MESSAGE_BUF_SIZE) in
  let? data_len := wait_completion fuel recv_of in
  let? request := or_err (read_request data_len) "postcard" in
  let? n := do_bench_write fuel res (rq_meta request) (rq_content request) in
  let? len := or_err (response_len n) "postcard" in
  let? _ := engine_err (fe_submit_send 200 (rm_addr (rq_meta request)) host_mr_handle host_buf len) in
  wait_completion fuel sent_of.

(** [alloc] is [cudaSetDevice] and [CudaDeviceMemory::device]; the box of the host buffer is at
    [host_buf], and registering it gives [host_mr_handle]. *)
Definition register_gpu (pointer_type : Z -> res Z) (alloc : Z -> option Z) (cuda_device : Z) :
    M BenchState (result string CudaResource) :=
  let? ptr := or_err (alloc cuda_device) "cuda" in
  let? hd := engine_err (fe_register_memory_allow_remote pointer_type ptr CUDA_BUF_SIZE (Cuda cuda_device)) in
  ret (Ok {| cr_device := cuda_device; cr_buf := ptr; cr_mr_handle := hd.1; cr_mr_desc := hd.2 |}).

Definition alloc_and_register_memory (pointer_type : Z -> res Z) (alloc : Z -> option Z) (selected_gpus : list Z) :
    M BenchState (result string (MemoryRegionHandle * list CudaResource)) :=
  let? host := engine_err (fe_register_memory_local pointer_type host_buf MESSAGE_BUF_SIZE Host) in
  let? gpus := try_map selected_gpus (register_gpu pointer_type alloc) in
  ret (Ok (host, gpus)).

Definition bench_unregister_memory (res : list CudaResource) : M BenchState (result string unit) :=
  let? _ := engine_err (fe_unregister_memory host_buf) in
  try_for_each res (fun r => engine_err (fe_unregister_memory (cr_buf r))).

(** [client_main], once the memory is registered. *)
Definition run_client (fuel : nat) (res : list CudaResource) (server_addr : DomainAddress) :
    M BenchState (result string unit) :=
  let? _ := try_for_each paged_cases (fun '(page_bytes, num_pages, verify) =>
    let! content := lift (generate_paged_write_request res (Z.to_nat page_bytes) (Z.to_nat num_pages) verify) in
    let? _ := do_request fuel res server_addr (CPaged content) in
    ret (Ok tt)) in
  let? _ := try_for_each single_cases (fun '(write_bytes, verify) =>
    let! content := lift (generate_single_write_request res (Z.to_nat write_bytes) verify) in
    let? _ := do_request fuel res server_addr (CSingle content) in
    ret (Ok tt)) in
  let! e := gets bn_engine in
  let! r := unwrap (res !! 0%nat) "index out of bounds" in
  let? _ := do_request fuel res server_addr
    (CImm {| bi_addr := fe_main_address e; bi_mr_desc := cr_mr_desc r; bi_imm := 20250501 |}) in
  bench_unregister_memory res.
End Bench.
Arguments BenchState W : clear implicits.

(** ** The command line *)
Section Setup.
Context {E V : Type}.

(** [args[1].split(',')], each with [parse::<u8>().unwrap()], and [args[2].parse().unwrap()]. *)
Definition parse_gpus (s : list Z) : option (list Z) := mapM (from_str_radix 10 8) (split 44 s).

Definition select_gpus (topo : list (TopologyGroup E V)) (args : list (list Z)) : outcome (list Z * nat) :=
  match args with
  | [_] =>
      match topo with
      | [] => Panic "index out of bounds"
      | g :: _ => Done (tp_cuda_device <$> topo, length (tp_domains g))
      end
  | _ :: gpus :: nets :: _ =>
      match parse_gpus gpus, parse_usize nets with
      | Some selected, Some n => Done (selected, Z.to_nat n)
      | _, _ => Panic "called `Result::unwrap()` on an `Err` value"
      end
  | _ => Panic "index out of bounds"
  end.

(** The worker of one GPU; too few cards end the process. *)
Definition bench_worker (topo : list (TopologyGroup E V)) (nets_per_gpu : nat) (cuda_device : Z) :
    outcome (result string (Z * WorkerSpec_ (E := E) (V := V))) :=
  match list_find (fun g => tp_cuda_device g = cuda_device) topo with
  | None => Done (Err "Cannot find the GPU in topology"%string)
  | Some (_, g) =>
      if (length (take nets_per_gpu (tp_domains g)) <? nets_per_gpu)%nat then Panic "std::process::exit(1)"
      else
        match tp_cpus g with
        | worker_cpu :: uvm_cpu :: _ =>
            Done (Ok (cuda_device, {| wk_domain_list := take nets_per_gpu (tp_domains g);
                                      wk_pin_worker_cpu := Some worker_cpu; wk_pin_uvm_cpu := Some uvm_cpu |}))
        | _ => Panic "index out of bounds"
        end
  end.

Fixpoint bench_workers (topo : list (TopologyGroup E V)) (nets_per_gpu : nat) (selected : list Z) :
    outcome (result string (list (Z * WorkerSpec_ (E := E) (V := V)))) :=
  match selected with
  | [] => Done (Ok [])
  | d :: selected =>
      match bench_worker topo nets_per_gpu d with
      | Done (Ok w) =>
          match bench_workers topo nets_per_gpu selected with
          | Done (Ok ws) => Done (Ok (w :: ws))
          | r => r
          end
      | Done (Err e) => Done (Err e)
      | Panic why => Panic why
      | OutOfFuel => OutOfFuel
      end
  end.
End Setup.
