(* ===== verification/FabricDebugSpec.v ===== *)
(** * The benchmark: theorems

    The client's check of a paged write passes exactly when the pages hold what the server wrote;
    a round of the benchmark ends when each of its transfers has been reported. *)
From stdpp Require Import prelude gmap strings list.
From S2P Require Import Prelude Utils Api ImmCount Sharding Provider DomainGroup Worker FabricEngine TopoParse Topo.
From S2P Require Import FabricSpec FabricDebug.
Local Open Scope Z_scope.

(** ** Addresses *)
Theorem bench_address_roundtrip a :
  Forall is_byte (addr_bytes a) -> parse_addr (addr_to_string a) = Done (Ok a).
Proof.
  intros Hb. unfold parse_addr, addr_to_string. rewrite fmt_hex_length, from_hex_fmt by done.
  rewrite Nat.even_mul. by destruct a.
Qed.

(** ** Test data *)
Lemma fill_random_u64_length n state : length (fill_random_u64 n state) = n.
Proof. revert state. induction n as [|n IH]; intros state; [done|]. cbn. by rewrite IH. Qed.

Lemma random_bytes_ok len seed :
  (len mod 8 = 0)%nat -> exists data, fill_random_bytes len seed = Done data /\ length data = len.
Proof.
  intros Hlen. unfold fill_random_bytes. rewrite Hlen. cbn [Nat.eqb]. eexists. split; [done|].
  pose proof (Nat.div_mod_eq len 8). transitivity (8 * (len / 8))%nat; [|lia].
  rewrite <- (fill_random_u64_length (len / 8) seed) at 2.
  induction (fill_random_u64 (len / 8) seed) as [|x l IH]; [done|].
  rewrite fmap_cons. cbn [concat]. rewrite length_app, to_le_bytes_length, IH. cbn [length]. lia.
Qed.

(** Pages that lie in the buffer. *)
Definition page_in (size offset : Z) (len : nat) (stride page : Z) : Prop :=
  0 <= page /\ offset + page * stride + Z.of_nat len <= size.

Lemma fill_paged_ok size seed offset len stride i indices vec :
  (len mod 8 = 0)%nat -> Forall (page_in size offset len stride) indices ->
  exists vec', fill_paged size seed offset len stride i indices vec = Done vec'.
Proof.
  intros Hlen. revert i vec. induction indices as [|p l IH]; intros i vec Hp; [by eexists|].
  apply Forall_cons in Hp as [[_ Hb] Hl]. cbn [fill_paged]. rewrite (proj2 (Z.leb_le _ _) Hb).
  destruct (random_bytes_ok len (u64_add seed (Z.of_nat i)) Hlen) as (data & -> & _). by apply IH.
Qed.

(** What a generated request looks like. *)
Record paged_ok (paged : Paged) : Prop := {
  po_len : (bp_len paged mod 8 = 0)%nat;
  po_stride : Z.of_nat (bp_len paged) <= bp_stride paged;
  po_pages : Forall (page_in CUDA_BUF_SIZE (bp_offset paged) (bp_len paged) (bp_stride paged)) (bp_indices paged);
}.

Lemma generated_paged_ok res page_bytes num_pages verify :
  (page_bytes mod 8 = 0)%nat -> Z.of_nat page_bytes + 128 <= CUDA_BUF_SIZE ->
  exists paged, generate_paged_write_request res page_bytes num_pages verify = Done paged /\ paged_ok paged /\
    bp_seed paged = seed_of verify /\ length (bp_indices paged) = num_pages.
Proof.
  intros Hlen Hsize. unfold generate_paged_write_request. set (stride := Z.of_nat page_bytes + 128) in *.
  assert (0 < CUDA_BUF_SIZE / stride) as Hmax by (apply Z.div_str_pos; lia).
  rewrite (proj2 (Z.eqb_neq _ _)) by lia. cbn [andb]. eexists. split; [done|].
  split; [split; cbn; [done|lia|]|split; [done|cbn; by rewrite length_fmap, fill_random_u64_length]].
  apply Forall_fmap, Forall_forall. intros x _. unfold compose, page_in.
  pose proof (Z.mod_pos_bound x (CUDA_BUF_SIZE / stride) Hmax).
  assert (stride * (CUDA_BUF_SIZE / stride) <= CUDA_BUF_SIZE) by (apply Z.mul_div_le; lia).
  assert (CUDA_BUF_SIZE / stride < 2 ^ 32) by (unfold CUDA_BUF_SIZE in *; apply Z.div_lt_upper_bound; lia).
  unfold as_u32. rewrite wrapu_small by (unfold in_u; lia). split; [lia|]. nia.
Qed.

Lemma paged_data_ok paged seed rank :
  paged_ok paged -> exists gold, generate_random_paged_data paged seed rank = Done gold.
Proof. intros [Hlen _ Hp]. by apply fill_paged_ok. Qed.

(** The client's own cases: every request can be built, and the data of every checked write can
    be generated and lies in the buffers. *)
Lemma paged_case_fits c : c ∈ paged_cases -> c.1.1 mod 8 = 0 /\ 0 <= c.1.1 /\ c.1.1 + 128 <= CUDA_BUF_SIZE.
Proof. intros Hin. repeat (apply elem_of_cons in Hin as [->|Hin]; [vm_compute; intuition congruence|]). set_solver. Qed.

Lemma single_case_fits c : c ∈ single_cases -> c.1 mod 8 = 0 /\ 0 <= c.1 /\ 1024 + c.1 <= CUDA_BUF_SIZE.
Proof. intros Hin. repeat (apply elem_of_cons in Hin as [->|Hin]; [vm_compute; intuition congruence|]). set_solver. Qed.

Lemma to_nat_mod8 z : z mod 8 = 0 -> 0 <= z -> (Z.to_nat z mod 8 = 0)%nat.
Proof. intros Hm Hz. change 8%nat with (Z.to_nat 8). rewrite <- Z2Nat.inj_mod by lia. by rewrite Hm. Qed.

Theorem client_cases_ok r res :
  (forall page_bytes num_pages verify, (page_bytes, num_pages, verify) ∈ paged_cases ->
    exists paged, generate_paged_write_request (r :: res) (Z.to_nat page_bytes) (Z.to_nat num_pages) verify = Done paged /\
      length (bp_indices paged) = Z.to_nat num_pages /\
      forall seed rank, exists gold, generate_random_paged_data paged seed rank = Done gold) /\
  (forall write_bytes verify, (write_bytes, verify) ∈ single_cases ->
    exists single, generate_single_write_request (r :: res) (Z.to_nat write_bytes) verify = Done single /\
      bs_offset single + Z.of_nat (bs_len single) <= CUDA_BUF_SIZE /\
      forall seed, exists data, fill_random_bytes (bs_len single) seed = Done data).
Proof.
  split.
  - intros pb np v (Hm & H0 & Hfit)%paged_case_fits. cbn [fst] in *.
    destruct (generated_paged_ok (r :: res) (Z.to_nat pb) (Z.to_nat np) v) as (paged & Hgen & Hp & _ & Hn);
      [by apply to_nat_mod8|lia|].
    exists paged. split_and!; [done..|]. intros. by apply paged_data_ok.
  - intros wb v (Hm & H0 & Hfit)%single_case_fits. cbn [fst] in *. eexists. split; [done|]. cbn [bs_offset bs_len].
    split; [lia|]. intros seed. destruct (random_bytes_ok (Z.to_nat wb) seed (to_nat_mod8 wb Hm H0)) as (data & Hd & _).
    by exists data.
Qed.

(** ** The check *)
Definition page_at (paged : Paged) (page : Z) : Z := bp_offset paged + page * bp_stride paged.

(** Every page of the buffer [buf] is that of [gold]. *)
Definition pages_match (paged : Paged) (gold buf : Bytes) : Prop :=
  forall page, page ∈ bp_indices paged ->
    read_bytes (page_at paged page) (bp_len paged) gold = read_bytes (page_at paged page) (bp_len paged) buf.

(** The pages of [order] copied from [src] to [dst], one after the other. *)
Fixpoint copy_pages (paged : Paged) (order : list Z) (src dst : Bytes) : Bytes :=
  match order with
  | [] => dst
  | p :: order =>
      copy_pages paged order src
        (write_bytes (page_at paged p) (read_bytes (page_at paged p) (bp_len paged) src) dst)
  end.

Lemma read_bytes_length p n m : length (read_bytes p n m) = n.
Proof. unfold read_bytes. by rewrite length_fmap, length_seq. Qed.

Lemma copy_pages_read paged order src dst page :
  Z.of_nat (bp_len paged) <= bp_stride paged ->
  page ∈ order \/ read_bytes (page_at paged page) (bp_len paged) dst = read_bytes (page_at paged page) (bp_len paged) src ->
  read_bytes (page_at paged page) (bp_len paged) (copy_pages paged order src dst) =
  read_bytes (page_at paged page) (bp_len paged) src.
Proof.
  intros Hstride. revert dst. induction order as [|p order IH]; intros dst Hin; cbn [copy_pages].
  { destruct Hin as [Hin|]; [set_solver|done]. }
  apply IH. destruct (decide (page = p)) as [->|Hne].
  - right. pose proof (read_write_same (page_at paged p) (read_bytes (page_at paged p) (bp_len paged) src) dst) as Hs.
    by rewrite read_bytes_length in Hs.
  - destruct Hin as [Hin|Heq]; [left; set_solver|]. right. rewrite <- Heq. apply read_write_apart.
    rewrite read_bytes_length. unfold apart, page_at. destruct (decide (page < p)); [left|right]; nia.
Qed.

(** [m] is a check of [P]: it changes nothing, and panics if [P] does not hold. *)
Definition checks {S} (m : M S unit) (P : Prop) (s : S) : Prop :=
  (P /\ m s = Done (tt, s)) \/ (~ P /\ exists why, m s = Panic why).

Lemma checks_assert {S} (P : Prop) `{Decision P} why (s : S) : checks (assert_ (bool_decide P) why) P s.
Proof. unfold assert_. case_bool_decide; [by left|]. right. split; [done|]. by exists why. Qed.

Lemma checks_for_each {S A} (l : list A) (body : A -> M S unit) (P : A -> Prop) s :
  (forall x, x ∈ l -> checks (body x) (P x) s) -> checks (for_each l body) (forall x, x ∈ l -> P x) s.
Proof.
  induction l as [|x l IH]; intros Hl; [left; split; [set_solver|done]|]. cbn [for_each]. unfold checks, bind.
  destruct (Hl x) as [[Hx ->]|[Hx [why ->]]]; [set_solver|..].
  - destruct IH as [[Hall ->]|[Hnot [why ->]]]; [set_solver|..].
    + left. split; [|done]. intros y [->|]%elem_of_cons; auto.
    + right. split; [set_solver|by exists why].
  - right. split; [set_solver|by exists why].
Qed.

Lemma checks_iff {S} (m : M S unit) P s : checks m P s -> m s = Done (tt, s) <-> P.
Proof. intros [[HP Hm]|[HP [why Hm]]]; rewrite Hm; [done|]. split; [done|tauto]. Qed.

Section Verify.
Context {W : Type} `{WorkerLink W} (memcpy_ok : Z -> Z -> bool).

(** The buffer of a GPU, from its start. *)
Definition gpu_bytes (r : CudaResource) (s : BenchState W) : Bytes := fun a => bn_mem s (cr_buf r + a).

Lemma verify_checks paged seed gold res (s : BenchState W) :
  bp_seed paged = Some seed -> (forall i, generate_random_paged_data paged seed i = Done (gold i)) ->
  (forall r, r ∈ res -> memcpy_ok (cr_buf r) CUDA_BUF_SIZE = true) ->
  checks (verify_paged_write memcpy_ok res paged)
    (forall x, x ∈ imap pair res -> pages_match paged (gold x.1) (gpu_bytes x.2 s)) s.
Proof.
  intros Hseed Hgold Hok. unfold verify_paged_write. rewrite Hseed. apply checks_for_each. intros [i r] Hin.
  assert (r ∈ res) as Hr by (apply elem_of_lookup_imap in Hin as (j & y & [= -> ->] & Hj); by eapply list_elem_of_lookup_2).
  pose proof (checks_for_each (bp_indices paged) (verify_page (gold i) (gpu_bytes r s) paged) (fun page =>
    read_bytes (page_at paged page) (bp_len paged) (gold i) = read_bytes (page_at paged page) (bp_len paged) (gpu_bytes r s))
    s (fun page _ => checks_assert _ _ s)) as Hc.
  unfold checks in Hc |- *. unfold bind, lift, memcpy_d2h, bind, assert_. rewrite Hgold. cbn [out_map].
  rewrite Hok by done. cbv [ret gets]. exact Hc.
Qed.

(** The check of a paged write is exact.  Whatever the client asks for (pages of a multiple of
    eight bytes that fit the buffer), it can build the request, and server and client generate
    the same data [gold i] for their [i]-th GPUs, without a panic.  The client's check passes
    exactly when every page of every GPU holds these bytes; in particular it passes when the
    pages have been copied from [gold i], in any order and any number of times, over whatever
    the GPU held before. *)
Theorem paged_verification_exact page_bytes num_pages sres res (s : BenchState W) :
  (page_bytes mod 8 = 0)%nat -> Z.of_nat page_bytes + 128 <= CUDA_BUF_SIZE ->
  (forall r, r ∈ res -> memcpy_ok (cr_buf r) CUDA_BUF_SIZE = true) ->
  exists paged gold, generate_paged_write_request sres page_bytes num_pages true = Done paged /\
    (forall i, generate_random_paged_data paged 11806239938951 i = Done (gold i)) /\
    (verify_paged_write memcpy_ok res paged s = Done (tt, s) <->
      forall i r, res !! i = Some r -> pages_match paged (gold i) (gpu_bytes r s)) /\
    ((forall i r, res !! i = Some r -> exists order before, bp_indices paged ⊆ order /\
        forall a, gpu_bytes r s a = copy_pages paged order (gold i) before a) ->
      verify_paged_write memcpy_ok res paged s = Done (tt, s)).
Proof.
  intros Hlen Hsize Hok.
  destruct (generated_paged_ok sres page_bytes num_pages true Hlen Hsize) as (paged & Hgen & Hp & Hseed & _).
  assert (exists gold, forall i, generate_random_paged_data paged 11806239938951 i = Done (gold i)) as [gold Hgold].
  { exists (fun i => match generate_random_paged_data paged 11806239938951 i with Done g => g | _ => fun _ => 0 end).
    intros i. by destruct (paged_data_ok paged 11806239938951 i Hp) as [g ->]. }
  assert (verify_paged_write memcpy_ok res paged s = Done (tt, s) <->
      forall i r, res !! i = Some r -> pages_match paged (gold i) (gpu_bytes r s)) as Hiff.
  { rewrite (checks_iff _ _ _ (verify_checks paged _ gold res s Hseed Hgold Hok)). split.
    - intros Hall i r Hi. apply (Hall (i, r)). apply elem_of_lookup_imap. by exists i, r.
    - intros Hall x (i & r & -> & Hi)%elem_of_lookup_imap. by apply Hall. }
  exists paged, gold. split_and!; [done..|]. intros Hcopied. apply Hiff. intros i r Hi page Hpage.
  destruct (Hcopied i r Hi) as (order & before & Hsub & Heq).
  rewrite <- (copy_pages_read paged order (gold i) before page (po_stride _ Hp)) by (left; set_solver).
  unfold read_bytes. apply list_fmap_ext. intros k x _. by rewrite Heq.
Qed.
End Verify.

(** ** Rounds *)
Section Rounds.
Context {W : Type} `{WorkerLink W}.

(** Polling the engine from [s] on gives the completions [l], up to the last of them. *)
Inductive delivers : BenchState W -> list TransferCompletionEntry -> BenchState W -> Prop :=
  | delivers_nil s : delivers s [] s
  | delivers_none s s1 c l s' :
      on_engine fe_poll_transfer_completion s = Done (None, s1) -> delivers s1 (c :: l) s' -> delivers s (c :: l) s'
  | delivers_some s s1 c l s' :
      on_engine fe_poll_transfer_completion s = Done (Some c, s1) -> delivers s1 l s' -> delivers s (c :: l) s'.

Lemma delivers_app s l s1 l' s' : delivers s l s1 -> delivers s1 l' s' -> delivers s (l ++ l') s'.
Proof.
  induction 1; intros Hrest; cbn; [done|eapply delivers_none; [done|by apply IHdelivers]|].
  eapply delivers_some; [done|by apply IHdelivers].
Qed.

Lemma wait_completion_done {A} fuel (want : TransferCompletionEntry -> option A) s a s' :
  wait_completion fuel want s = Done (Ok a, s') -> exists c, want c = Some a /\ delivers s [c] s'.
Proof.
  revert s. induction fuel as [|fuel IH]; intros s Hrun; [done|]. cbn [wait_completion] in Hrun. unfold bind in Hrun.
  destruct (on_engine fe_poll_transfer_completion s) as [[[c|] s1]| |] eqn:Hp; [| |done..].
  - destruct (want c) as [b|] eqn:Hw; cbv [ret] in Hrun; [|done]. simplify_eq. exists c. split; [done|].
    eapply delivers_some; [done|constructor].
  - destruct (IH _ Hrun) as (c & Hw & Hd). exists c. split; [done|]. by eapply delivers_none.
Qed.

(** With enough fuel a completion that comes is seen. *)
Lemma wait_completion_sees s c l s' :
  delivers s (c :: l) s' -> exists k s1, delivers s1 l s' /\
    forall A fuel (want : TransferCompletionEntry -> option A), (k < fuel)%nat ->
      wait_completion fuel want s =
        Done (match want c with Some a => Ok a | None => Err "Unexpected completion entry"%string end, s1).
Proof.
  intros Hd. remember (c :: l) as l0 eqn:Hl. revert Hl. induction Hd as [|s s1 c' l' s' Hp Hd IH|s s1 c' l' s' Hp Hd IH];
    intros Hl; simplify_eq.
  - destruct (IH eq_refl) as (k & s2 & Hrest & Hwait). exists (S k), s2. split; [done|].
    intros A [|fuel] want Hf; [lia|]. cbn [wait_completion]. unfold bind. rewrite Hp. apply Hwait. lia.
  - exists 0%nat, s1. split; [done|]. intros A [|fuel] want Hf; [lia|]. cbn [wait_completion]. unfold bind. rewrite Hp.
    by destruct (want c).
Qed.

Lemma elements_pick (X : gset Z) id : id ∈ X -> elements X ≡ₚ id :: elements (X ∖ {[id]}).
Proof.
  intros Hid. rewrite (union_difference_singleton_L id X Hid) at 1. by rewrite elements_union_singleton by set_solver.
Qed.

Lemma list_to_set_size (l : list Z) : (size (list_to_set l : gset Z) <= length l)%nat.
Proof.
  induction l as [|x l IH]; [done|]. cbn [list_to_set foldr length].
  destruct (decide (x ∈ (list_to_set l : gset Z))).
  - replace ({[x]} ∪ (list_to_set l : gset Z)) with (list_to_set l : gset Z) by set_solver. lia.
  - rewrite size_union, size_singleton by set_solver. lia.
Qed.

Lemma await_done n fuel pending s s' :
  await_transfers n fuel pending s = Done (Ok tt, s') ->
  exists l, delivers s l s' /\ l ≡ₚ TcTransfer <$> elements pending.
Proof.
  revert pending s. induction n as [|n IH]; intros pending s Hrun; cbn [await_transfers] in Hrun;
    destruct (decide (pending = ∅)) as [->|Hne]; try (cbv [ret] in Hrun; simplify_eq; exists []; split; [constructor|]; by rewrite elements_empty).
  - done.
  - unfold bind_res, bind in Hrun. destruct (wait_completion fuel transfer_of s) as [[[id|e] s1]| |] eqn:Hw; [|done..].
    case_bool_decide as Hid; [|done]. apply wait_completion_done in Hw as (c & Hc & Hd).
    destruct (IH _ _ Hrun) as (l & Hl & Hperm). exists ([c] ++ l). split; [by eapply delivers_app|].
    destruct c; simplify_eq/=. rewrite (elements_pick pending id Hid), fmap_cons, Hperm. done.
Qed.

Lemma await_complete l s s' :
  delivers s l s' -> forall pending, l ≡ₚ TcTransfer <$> elements pending ->
  exists k, forall n fuel, (length l <= n)%nat -> (k < fuel)%nat -> await_transfers n fuel pending s = Done (Ok tt, s').
Proof.
  revert s. induction l as [|c l IH]; intros s Hd pending Hperm.
  - inversion Hd; subst. exists 0%nat. intros n fuel _ _. symmetry in Hperm. apply Permutation_nil_r, fmap_nil_inv, elements_empty_iff in Hperm.
    apply leibniz_equiv in Hperm as ->. destruct n; cbn [await_transfers]; by rewrite decide_True.
  - destruct (wait_completion_sees _ _ _ _ Hd) as (k & s1 & Hrest & Hwait).
    assert (c ∈ TcTransfer <$> elements pending) as (id & -> & Hid)%list_elem_of_fmap by (rewrite <- Hperm; set_solver).
    apply elem_of_elements in Hid. rewrite (elements_pick pending id Hid), fmap_cons in Hperm.
    apply Permutation_cons_inv in Hperm. destruct (IH s1 Hrest (pending ∖ {[id]}) Hperm) as (k' & Hawait).
    exists (Nat.max k k'). intros [|n] fuel Hn Hf; cbn [length] in Hn; [lia|]. cbn [await_transfers].
    rewrite decide_False by set_solver. unfold bind_res, bind. rewrite Hwait by lia. cbn [transfer_of].
    rewrite bool_decide_true by done. apply Hawait; lia.
Qed.

(** A round of the benchmark ends exactly when every transfer has been reported.  Once the
    transfers of a round are submitted, the round returns success (for some fuel) if and only if
    the next completions of the engine are those of its transfers, each once and in any order;
    it then has consumed these completions and no more. *)
Theorem round_ends_when_reported reqs (s s1 s' : BenchState W) :
  submit_all reqs s = Done (Ok tt, s1) ->
  (exists fuel, bench_round fuel reqs s = Done (Ok tt, s')) <->
  (exists l, delivers s1 l s' /\ l ≡ₚ TcTransfer <$> elements (list_to_set reqs.*1 : gset Z)).
Proof.
  intros Hsub. unfold bench_round, bind_res, bind. rewrite Hsub. split.
  - intros [fuel Hrun]. by eapply await_done.
  - intros (l & Hd & Hperm). destruct (await_complete l s1 s' Hd _ Hperm) as (k & Hrun). exists (S k).
    apply Hrun; [|lia]. rewrite Hperm, length_fmap. fold (size (list_to_set (C := gset Z) reqs.*1)).
    rewrite <- (length_fmap fst reqs). apply list_to_set_size.
Qed.

Section Conversation.
Context (memcpy_ok : Z -> Z -> bool) {Response : Type} (host_buf : Z) (host_mr_handle : MemoryRegionHandle).
Context (request_len : Request -> option Z) (read_response : Z -> option Response).

(** An immediate that overtakes the completion of the client's own send ends the benchmark: the
    client expects its completions in one order. *)
Theorem early_immediate_aborts res server imm s s1 s2 d l s' n :
  request_len {| rq_meta := {| rm_addr := fe_main_address (bn_engine s); rm_warmups := 20; rm_repeats := 40 |};
                 rq_content := CImm imm |} = Some n ->
  engine_err (fe_submit_send 100 server host_mr_handle host_buf n) s = Done (Ok tt, s1) ->
  engine_err (fe_submit_recv 200 host_mr_handle host_buf MESSAGE_BUF_SIZE) s1 = Done (Ok tt, s2) ->
  delivers s2 (TcImmData d :: l) s' ->
  exists k s3, forall fuel, (k < fuel)%nat ->
    do_request memcpy_ok host_buf host_mr_handle request_len read_response fuel res server (CImm imm) s =
      Done (Err "Unexpected completion entry"%string, s3).
Proof.
  intros Hlen Hsend Hrecv Hd. destruct (wait_completion_sees _ _ _ _ Hd) as (k & s3 & _ & Hwait). exists k, s3.
  intros fuel Hf. unfold do_request, bind_res, bind, gets. cbn beta iota. unfold or_err. rewrite Hlen. cbv [ret].
  rewrite Hsend, Hrecv, Hwait by done. done.
Qed.
End Conversation.
End Rounds.

(** ** Workers *)
Theorem bench_workers_ok {E V} (topo : list (TopologyGroup E V)) nets selected ws :
  bench_workers topo nets selected = Done (Ok ws) ->
  ws.*1 = selected /\ forall d w, (d, w) ∈ ws -> exists g, g ∈ topo /\ tp_cuda_device g = d /\
    length (wk_domain_list w) = nets /\ wk_domain_list w `prefix_of` tp_domains g /\
    (exists rest a b, tp_cpus g = a :: b :: rest /\ wk_pin_worker_cpu w = Some a /\ wk_pin_uvm_cpu w = Some b).
Proof.
  revert ws. induction selected as [|d selected IH]; intros ws Hrun; cbn [bench_workers] in Hrun;
    [simplify_eq; split; [done|set_solver]|].
  destruct (bench_worker topo nets d) as [[w|e]| |] eqn:Hw; [|done..].
  destruct (bench_workers topo nets selected) as [[ws'|e]| |]; [|done..]. simplify_eq.
  destruct (IH ws' eq_refl) as [Hfst Hin]. unfold bench_worker in Hw.
  destruct (list_find _ topo) as [[i g]|] eqn:Hg; [|done]. apply list_find_Some in Hg as (Hg & Hdev & _).
  destruct (Nat.ltb_spec (length (take nets (tp_domains g))) nets); [done|].
  destruct (tp_cpus g) as [|a [|b rest]] eqn:Hcpu; [done..|]. simplify_eq. split; [by rewrite fmap_cons|].
  intros d' w' [[= -> ->]|Hd]%elem_of_cons; [|by apply Hin].
  exists g. split; [by eapply list_elem_of_lookup_2|]. split; [done|]. cbn [wk_domain_list wk_pin_worker_cpu wk_pin_uvm_cpu].
  split; [rewrite length_take in *; lia|]. split; [|by exists rest, a, b].
  exists (drop nets (tp_domains g)). by rewrite take_drop.
Qed.

(** ** Witnesses *)
Module BenchWitness.

Definition gpu0 : CudaResource :=
  {| cr_device := 0; cr_buf := 65536; cr_mr_handle := 65536; cr_mr_desc := {| mrd_ptr := 65536; addr_rkey_list := [] |} |}.
Definition pages : Paged :=
  match generate_paged_write_request [gpu0] 16 3 true with
  | Done p => p
  | _ => {| bp_seed := None; bp_mr_desc := []; bp_offset := 0; bp_indices := []; bp_len := 0; bp_stride := 0 |}
  end.
Definition gold0 : Bytes :=
  match generate_random_paged_data pages 11806239938951 0 with Done g => g | _ => fun _ => 0 end.
Definition client (m : Bytes) : BenchState Stub := {| bn_engine := stub_engine; bn_mem := fun a => m (a - 65536) |}.

(** The client accepts the pages in reverse order; an untouched buffer is refused. *)
Lemma paged_verification_exact_witness :
  verify_paged_write (fun _ _ => true) [gpu0] pages (client (copy_pages pages (reverse (bp_indices pages)) gold0 (fun _ => 7))) =
    Done (tt, client (copy_pages pages (reverse (bp_indices pages)) gold0 (fun _ => 7))) /\
  length (bp_indices pages) = 3%nat.
Proof.
  destruct (paged_verification_exact (fun _ _ => true) 16 3 [gpu0] [gpu0]
    (client (copy_pages pages (reverse (bp_indices pages)) gold0 (fun _ => 7))))
    as (paged & gold & Hgen & Hgold & _ & Hcopied); [reflexivity|vm_compute; congruence|reflexivity|].
  change (Done pages = Done paged) in Hgen. injection Hgen as <-. split; [|reflexivity]. apply Hcopied.
  intros [|i] r Hr; cbn in Hr; [|done]. injection Hr as <-.
  exists (reverse (bp_indices pages)), (fun _ => 7). split; [intros x Hx; by apply elem_of_reverse|].
  intros a. assert (gold 0%nat = gold0) as ->.
  { unfold gold0. by rewrite Hgold. }
  unfold gpu_bytes, client. cbn [bn_mem cr_buf gpu0]. f_equal. lia.
Defined.
End BenchWitness.
